(* ===== verification/_CoqProject ===== *)
-Q . S2P
Prelude.v
Mach.v
Spinlock.v
Kstring.v
Kalloc.v
Vm.v
Pagetable.v
Uvm.v
Cow.v
Vmex.v
Proc.v
Wakeup.v
Kstate.v
Printk.v
Sleeplock.v
Bio.v
Log.v
Logex.v
Virtio.v
Fs.v
Fsread.v
Dir.v
Fswrite.v
Fsalloc.v
Fsmap.v
Ialloc.v
Fsgrow.v
Itrunc.v
Dirlink.v
Iput.v
Atomic.v
Fsex.v
Growex.v
Mkfs.v
Ring.v
Console.v
Pipe.v
Ioex.v
File.v
Close.v
Exec.v
Life.v
Syscall.v
Sysfile.v
Sh.v
Shrun.v
Trap.v
Fault.v
Grep.v
Ulib.v
Uprintf.v
Uthread.v
Uprog.v
Utils.v
Ls.v
Boot.v
Umalloc.v
