(* ===== verification/Prelude.v ===== *)
(** * A verification of the xv6 system of this repository

    The program is a teaching kernel for RISC-V (src/xv6/kernel) with
    copy-on-write fork, lazy allocation, a kernel page table per process,
    free lists per CPU, alarms, system call tracing and a redo log, the
    program that builds its file system image (src/xv6/mkfs), and user
    programs with their library (src/xv6/user).  This library translates
    nearly all of the kernel, the image builder, the user library, the
    allocator, the threads, the shell and several of the user programs into
    executable definitions and proves what makes the parts correct, and,
    where the code does not do what it means to, what it does instead.

    ** How the code is modelled

    - A C function is a function of type [M S A] (this file): it runs in a
      state and returns, panics, commits a memory error, spins for ever, or
      gives up the CPU in [swtch] ([Switch], with a continuation that is
      resumed in whatever state the kernel then has).  [wp m Q s] says that
      [m] run in [s] returns, with [Q]; it is false of the other outcomes, so
      a theorem stated with [wp] includes that the code does not panic, does
      not touch memory it should not, and terminates.
    - Integers are [Z] followed by the conversion of their C type ([u8],
      [u32], [u64], [i32], ...).
    - [mach] (Mach) is what the lower half of the kernel works on: RAM as
      bytes, CSRs, CPUs and spin locks, free lists and reference counts, the
      process table.  [kern] (Kstate) adds the buffer cache and the disk, the
      log, inodes, open files, pipes, console and UART.  [mk] runs code of the
      lower half in the upper state.
    - A pointer to a table entry is its index; a pointer into RAM is its
      address; a local buffer is the list of its bytes.  Null is 0 or [None],
      and following it is a [Fault].
    - The disk keeps the history of its writes, so that a crash between any
      two of them can be stated.
    - A user program that only calls the system is a tree of system calls that
      branches on their answers: a finite one for the commands of the shell
      (Shrun), an interaction tree for programs with loops (Uprog), for which
      [wpt] is what [wp] is for the kernel.

    ** The files, in dependency order

    - Prelude: integers, outcomes, the monad with its notation, loops, [wp]
      and its tactics ([wsteps]), list lemmas.
    - Mach: param.h, memlayout.h, riscv.h, proc.h, spinlock.h.
    - Spinlock: spinlock.c, the interrupt functions of riscv.h.  [lk_eq] is
      the equivalence of lock states a balanced critical section cannot tell
      apart.  Module [Harts] interleaves the atomic steps of [acquire] and
      [release] of any number of harts.
    - Kstring: string.c.
    - Kalloc: kalloc.c.  [kmem_inv] ties the lists in RAM to the counts.
    - Vm: vm.c, vmcopyin.c.  Pagetable: an Sv39 table as a finite function.
      Uvm, Cow: what the operations of Vm do to it.  Vmex: a small machine
      the theorems are applied to.
    - Proc: proc.c ([allocproc], [sleep], [wakeup], [kkill], [kwait], [scheduler],
      ...), [nproc] of kalloc.c.  Wakeup: [sleep], [wakeup] and the scheduler
      split at their statements, which the harts interleave.
    - Kstate: the structs of buf.h, file.h, fs.h, sleeplock.h, pipe.c, log.c.
    - Printk: printk.c, the output half of uart.c and console.c, [procdump].
    - Sleeplock, Bio, Log: sleeplock.c, bio.c, log.c.  Logex: examples.
    - Fs: fs.c.  Its specifications: Fsread (contents of a file), Dir (inode
      table and directories), Fswrite (writes inside a transaction), Fsalloc
      and Fsmap ([balloc], [bfree]; [bmap] of a growing file), Ialloc, Fsgrow,
      Itrunc, Dirlink and Iput ([ialloc], [writei], [itrunc], [dirlink],
      [iput]).  Atomic composes them with the log into whole calls.  Fsex,
      Growex: examples.
    - Ring: circular buffers.  Console: console.c and uart.c.  Pipe: pipe.c.
      Ioex: examples.
    - File, Close, Exec, Life, Syscall, Sysfile, Trap: file.c, with what
      [fileclose] does to the file system in Close; exec.c; [userinit],
      [kfork], [kexit] and [forkret] of proc.c; syscall.c and sysproc.c;
      sysfile.c; trap.c and plic.c.
    - Fault: copy-on-write page faults.
    - Virtio: virtio_disk.c and virtio.h.  The device is the relation
      [device_step], its registers a parameter.
    - Mkfs: mkfs/mkfs.c.
    - Sh: the parser of user/sh.c.  Shrun: the processes it starts.
    - Grep: user/grep.c, with [strchr] of user/ulib.c.
    - Ulib: user/ulib.c on the memory of a process.  Uprintf: user/printf.c.
      Umalloc: user/umalloc.c.
    - Uthread: user/uthread.c with uthread_switch.S.
    - Uprog: system calls as events, what the kernel may answer, and the rules
      for [wpt].  Utils: user/cat.c, wc.c, echo.c, xargs.c, find.c.  Ls: ls.c,
      mkdir.c, rm.c, ln.c, kill.c, sync.c, trace.c.
    - Boot: start.c, main.c, the machine-mode registers of riscv.h.

    ** What is proved

    - Locks: mutual exclusion on every interleaving; interrupt nesting; on
      every interleaving of a hart that sleeps and a hart that wakes it, the
      execution ends with the process runnable.
    - Memory: the allocator hands out free pages and preserves its invariant;
      mapping, unmapping, faults and copies act on the address space as on a
      finite function; [uvmcopy] shares, and a store fault unshares.
    - Storage: the cache shows one current copy of each block; a transaction
      is atomic across crashes at any point of the commit and of any number of
      recoveries; [log_write] and [begin_op] keep the log within its size.
    - Files: [readi] refines a read of the contents of the file; [writei]
      writes the bytes it is given and nothing else, and makes the file grow
      over blocks that [balloc] takes from the free ones; [itrunc] gives back
      exactly the blocks of the file; [ialloc] takes the first free inode; the
      inode table holds an inode once; [dirlink] inserts into the list of
      entries and [dirlookup] finds what it inserted; path lookup ends after
      one round per element.
    - Whole calls: a file write and the linking of a name, between [begin_op]
      and [end_op] with no other operation under way, and the closing of the
      last descriptor of an unlinked file, reach the disk as a whole or not at
      all, wherever the machine stops.
    - Console and pipes: the circular buffers refine a line editor and a
      queue, also when the counters wrap.
    - The disk driver: a request through the descriptor ring has the effect of
      the ideal driver that the buffer cache is proved against; the process
      sleeps without a lock, and the interrupt wakes it.
    - The image builder: the image it writes is, for the kernel, a file system
      with exactly the files it was given.
    - Booting: every hart enters [main] in the state it expects; on every
      interleaving no hart runs ahead of the initialisation.
    - Strings and numbers: [memmove] with overlap, bounded copies, name
      comparison, [printint]; [printf] item by item, and [atoi] reads back
      what it prints.
    - The allocator of the user programs: [malloc] returns disjoint blocks,
      [free] joins all neighbours.  The threads: each resumes with its
      registers and stack, none starves, and the program of uthread.c prints
      what it should.
    - The shell: its parser inverts a printer of commands and terminates on
      every line, and its words become strings in place; the programs of a
      line start with the descriptors the command gives them.
    - User programs: the matcher of grep decides the language of its pattern,
      and grep prints the matching lines however its reads cut the file;
      [wc] counts, [xargs] runs its command once per line, [find] prints the
      files of a name below a directory, [ls] one line per entry in use, and
      the programs that pass requests on make them in order.
    - Errors, as the code has them: initialising the allocator panics; an
      allocation without free pages indexes outside the counts; [kfree]
      overwrites a page that is still shared, so a store fault destroys the
      other processes' data; [kvmunmap] writes through null; a full log leaves
      no buffer for the commit; a store above [MAXVA] panics.

    ** Interfaces

    Code that is not under src/xv6/kernel in C, or is defined nowhere, is a
    class parameter: [Layout] (linker symbols; [LayoutOk] is what kernel.ld
    says of them), [DiskDriver] (a disk driver as the cache sees it; [DiskOk]
    is its contract, [ideal_rw] of Bio meets it, and the theorem on requests
    of Virtio ties virtio_disk.c, which sleeps while the device works, to it),
    [Mmio] (the registers of the disk; [MmioOk]: those of a device that
    accepts the driver), [KernelTables] ([ukvmunmap] and [ufreewalk], called
    by [kvmfreeproc]), [Hardware] (the interrupt controller's registers and
    [sys_sysinfo]), [Reader] (the system call [read] as grep sees it, with the
    contract [ReaderOk]), [Process] (the system call [sbrk] as [malloc] sees
    it, with [ProcessOk]), [Delegation] (what a hart lets software delegate,
    with [DelegationOk]).  [sys] of Uprog is the contract of the system calls
    that the programs of Utils and Ls use.

    ** Fuel

    A counted loop runs its bound ([mloop], [mfor]).  A loop with a condition
    has the fuel of a bound of its rounds, for instance the number of bytes
    still to copy, of pages in a range, of entries in a directory or of
    characters in a path, and running out is [Spin], so that a [wp] shows that
    it does not happen.  [freewalk] recurses at most three levels, the depth
    of an Sv39 table.  A loop that waits for another process is resumed
    [patience] times; the theorems hold for every value of it.  The parser of
    the shell has the length of the line as fuel and is proved to return; the
    allocator's loops have the number of its blocks; [find] has the size of
    its path buffer, 512, since every level adds a byte to the path.  The
    other loops of Utils and Ls are interaction trees and need none.

    ** Not modelled

    Assembly (entry.S, trampoline.S, kernelvec.S, swtch.S) except
    [thread_switch] and [mret]; register contents across [swtch]; TLB, caches
    and weak memory; the programming of the UART's registers; [freemem],
    sysinfo.c and [copyinstr_new], which do not compile as they are written;
    [backtrace], which walks stack frames, and the debugging output of
    [vmprint]; the failures of the host under mkfs; of the user programs
    [init], which waits for its children for ever, so that a statement of total
    correctness does not fit it, and the ones that only try a feature (call.c,
    zombie.c, sysinfo.c, ...); the tests (usertests.c, grind.c and others),
    which exercise the kernel and are not part of it.  System calls that copy
    file data from and to user memory are modelled, but their transactions
    are proved for data in kernel buffers, and the theorems on whole calls
    are about one operation at a time: the log admits several, and their
    interleavings inside one transaction are covered only by the theorems on
    [begin_op], [log_write] and [end_op]. *)

From stdpp Require Export base numbers list gmap countable strings.
From Stdlib Require Export ZArith Lia.

#[global] Open Scope string_scope.
#[global] Open Scope list_scope.
#[global] Open Scope Z_scope.

(** ** Fixed-width integers

    A C integer of width [w] is a [Z]; an operation that may leave the
    range is followed by the conversion of its type. *)

Definition u8 (x : Z) : Z := x mod 256.
Definition u16 (x : Z) : Z := x mod 65536.
Definition u32 (x : Z) : Z := x mod 4294967296.
Definition u64 (x : Z) : Z := x mod 18446744073709551616.

(** Conversion to a signed [int]: two's complement of the low 32 bits. *)
Definition i32 (x : Z) : Z :=
  let y := u32 x in if y <? 2147483648 then y else y - 4294967296.

(** Conversion to a signed [short]. *)
Definition i16 (x : Z) : Z :=
  let y := u16 x in if y <? 32768 then y else y - 65536.

(** Conversion to a signed 64-bit [long]. *)
Definition i64 (x : Z) : Z :=
  let y := u64 x in if y <? 9223372036854775808 then y else y - 18446744073709551616.

(** ** Outcomes of kernel code

    Running C code in a state either returns, stops the machine
    ([panic]), commits a memory error ([Fault]: an access outside RAM or
    outside an array, or the use of a null pointer), spins for ever on
    something only another CPU can change ([Spin]), or gives up the CPU
    in [swtch] ([Switch]): the code continues with the continuation when
    it is scheduled again, in whatever state it then finds. *)

Inductive outcome (S A : Type) : Type :=
| Ret (a : A) (s : S)
| Panic (msg : string)
| Fault
| Spin
| Switch (s : S) (k : S -> outcome S A).

Arguments Ret {S A} a s.
Arguments Panic {S A} msg.
Arguments Fault {S A}.
Arguments Spin {S A}.
Arguments Switch {S A} s k.

Definition M (S A : Type) : Type := S -> outcome S A.

Fixpoint obind {S A B : Type} (o : outcome S A) (f : A -> M S B) : outcome S B :=
  match o with
  | Ret a s => f a s
  | Panic m => Panic m
  | Fault => Fault
  | Spin => Spin
  | Switch s k => Switch s (fun s' => obind (k s') f)
  end.

Definition ret {S A : Type} (a : A) : M S A := fun s => Ret a s.
Definition bind {S A B : Type} (m : M S A) (f : A -> M S B) : M S B :=
  fun s => obind (m s) f.
Definition panic {S A : Type} (msg : string) : M S A := fun _ => Panic msg.
Definition fault {S A : Type} : M S A := fun _ => Fault.
Definition gets {S A : Type} (f : S -> A) : M S A := fun s => Ret (f s) s.
Definition modify {S : Type} (f : S -> S) : M S unit := fun s => Ret tt (f s).

Declare Scope kernel_scope.
Delimit Scope kernel_scope with kernel.
#[global] Open Scope kernel_scope.

Notation "'let!' x := m 'in' k" := (bind m (fun x => k))
  (at level 10, x name, m at level 100, k at level 200) : kernel_scope.
Notation "'do!' m ; k" := (bind m (fun _ => k))
  (at level 10, m at level 100, k at level 200) : kernel_scope.

(** [unless c msg]: the guard [if (!c) panic(msg)]. *)
Definition check {S : Type} (c : bool) (msg : string) : M S unit :=
  if c then ret tt else panic msg.

(** A checked access: [None] is a memory error. *)
Definition orfault {S A : Type} (o : option A) : M S A :=
  match o with Some a => ret a | None => fault end.

(** [for (i = i0; count iterations; i += step) body]; the body returns
    [Some r] for a [return r] or [break] out of the loop. *)
Fixpoint mfor {S R : Type} (n : nat) (i step : Z) (body : Z -> M S (option R)) : M S (option R) :=
  match n with
  | O => ret None
  | S n' =>
    let! r := body i in
    match r with
    | Some v => ret (Some v)
    | None => mfor n' (i + step) step body
    end
  end.

(** A loop that never leaves early. *)
Fixpoint mloop {S : Type} (n : nat) (i step : Z) (body : Z -> M S unit) : M S unit :=
  match n with
  | O => ret tt
  | S n' => do! body i; mloop n' (i + step) step body
  end.

(** [for (; cond(i); i = next(i)) body]: leaves with [inl i] when the
    condition fails, with [inr r] when the body returns or breaks.  The
    fuel bounds the iterations; a loop that needs more spins. *)
Fixpoint mwhile {S R : Type} (fuel : nat) (cond : Z -> bool) (next : Z -> Z)
    (body : Z -> M S (option R)) (i : Z) : M S (Z + R) :=
  if cond i then
    match fuel with
    | O => fun _ => Spin
    | S f =>
      let! r := body i in
      match r with
      | Some v => ret (inr v)
      | None => mwhile f cond next body (next i)
      end
    end
  else ret (inl i).

(** [n] times the same action. *)
Fixpoint mrepeat {S : Type} (n : nat) (m : M S unit) : M S unit :=
  match n with O => ret tt | S n' => do! m; mrepeat n' m end.

(** ** Views of a state inside a larger one *)

Record lens (S T : Type) : Type := Lens {
  view : S -> T;
  over : T -> S -> S;
  view_over : forall t s, view (over t s) = t;
  over_view : forall s, over (view s) s = s;
  over_over : forall t t' s, over t (over t' s) = over t s;
}.
Arguments view {S T}.
Arguments over {S T}.

Fixpoint ozoom {S T A : Type} (l : lens S T) (s : S) (o : outcome T A) : outcome S A :=
  match o with
  | Ret a t => Ret a (over l t s)
  | Panic m => Panic m
  | Fault => Fault
  | Spin => Spin
  | Switch t k => Switch (over l t s) (fun s' => ozoom l s' (k (view l s')))
  end.

Definition zoom {S T A : Type} (l : lens S T) (m : M T A) : M S A :=
  fun s => ozoom l s (m (view l s)).

(** ** Constants and arithmetic automation

    The #define constants are unfolded before [lia] sees a goal. *)

Create HintDb kconst discriminated.
Create HintDb kernel discriminated.
Ltac Zify.zify_pre_hook ::= autounfold with kconst in *.

#[global] Arguments Z.testbit : simpl never.
#[global] Arguments Z.land : simpl never.
#[global] Arguments Z.lor : simpl never.
#[global] Arguments Z.ldiff : simpl never.
#[global] Arguments Z.shiftl : simpl never.
#[global] Arguments Z.shiftr : simpl never.
#[global] Arguments Z.div : simpl never.
#[global] Arguments Z.modulo : simpl never.
#[global] Arguments Z.mul : simpl never.
#[global] Arguments Z.add : simpl never.
#[global] Arguments Z.sub : simpl never.
#[global] Arguments Z.pow : simpl never.
#[global] Arguments Z.of_nat : simpl never.
#[global] Arguments Z.to_nat : simpl never.

(** ** Lemmas on integers *)

Lemma u64_small x : 0 <= x < 18446744073709551616 -> u64 x = x.
Proof. intros; unfold u64; now apply Z.mod_small. Qed.
Lemma u32_small x : 0 <= x < 4294967296 -> u32 x = x.
Proof. intros; unfold u32; now apply Z.mod_small. Qed.
Lemma u8_small x : 0 <= x < 256 -> u8 x = x.
Proof. intros; unfold u8; now apply Z.mod_small. Qed.
Lemma u64_range x : 0 <= u64 x < 18446744073709551616.
Proof. unfold u64; now apply Z.mod_pos_bound. Qed.
Lemma u32_range x : 0 <= u32 x < 4294967296.
Proof. unfold u32; now apply Z.mod_pos_bound. Qed.
Lemma u8_range x : 0 <= u8 x < 256.
Proof. unfold u8; now apply Z.mod_pos_bound. Qed.
Lemma i32_range x : -2147483648 <= i32 x < 2147483648.
Proof.
  unfold i32; pose proof (u32_range x).
  destruct (Z.ltb_spec (u32 x) 2147483648); lia.
Qed.
Lemma i32_small x : -2147483648 <= x < 2147483648 -> i32 x = x.
Proof.
  intros H; unfold i32, u32; destruct (Z_lt_ge_dec x 0).
  - rewrite <- (Z_mod_plus_full x 1), Z.mod_small by lia.
    destruct (Z.ltb_spec (x + 1 * 4294967296) 2147483648); lia.
  - rewrite Z.mod_small by lia.
    destruct (Z.ltb_spec x 2147483648); lia.
Qed.

(** Masking with the complement of [2^k - 1] rounds down. *)
Lemma land_lnot_ones x k :
  0 <= k -> Z.land x (Z.lnot (Z.ones k)) = x - x mod 2 ^ k.
Proof.
  intros Hk. rewrite <- Z.ldiff_land, Z.ldiff_ones_r by lia.
  rewrite Z.shiftl_mul_pow2, Z.shiftr_div_pow2 by lia.
  pose proof (Z.div_mod x (2 ^ k)); lia.
Qed.

(** A single-bit mask tests that bit. *)
Lemma land_bit x k : 0 <= k -> Z.land x (Z.shiftl 1 k) = if Z.testbit x k then Z.shiftl 1 k else 0.
Proof.
  intros Hk. apply Z.bits_inj'. intros n Hn.
  rewrite Z.land_spec, Z.shiftl_spec by lia.
  destruct (Z.eq_dec n k) as [->|Hne].
  - rewrite Z.sub_diag. simpl.
    destruct (Z.testbit x k); [|now rewrite Z.testbit_0_l].
    rewrite Z.shiftl_spec, Z.sub_diag by lia. reflexivity.
  - assert (Z.testbit 1 (n - k) = false) as ->.
    { destruct (Z_lt_ge_dec n k); [now apply Z.testbit_neg_r; lia|].
      rewrite <- (Z.pow_0_r 2). apply Z.pow2_bits_false; lia. }
    rewrite andb_false_r.
    destruct (Z.testbit x k); [|now rewrite Z.testbit_0_l].
    rewrite Z.shiftl_spec by lia. symmetry.
    destruct (Z_lt_ge_dec n k); [now apply Z.testbit_neg_r; lia|].
    rewrite <- (Z.pow_0_r 2). apply Z.pow2_bits_false; lia.
Qed.

(** ** Lemmas on outcomes *)

Lemma bind_Ret {S A B : Type} (m : M S A) (f : A -> M S B) s a s' :
  m s = Ret a s' -> bind m f s = f a s'.
Proof. intros H; unfold bind; now rewrite H. Qed.

Lemma bind_Panic {S A B : Type} (m : M S A) (f : A -> M S B) s msg :
  m s = Panic msg -> bind m f s = Panic msg.
Proof. intros H; unfold bind; now rewrite H. Qed.

Lemma bind_Fault {S A B : Type} (m : M S A) (f : A -> M S B) s :
  m s = Fault -> bind m f s = Fault.
Proof. intros H; unfold bind; now rewrite H. Qed.

Lemma bind_Switch {S A B : Type} (m : M S A) (f : A -> M S B) s s' k :
  m s = Switch s' k -> bind m f s = Switch s' (fun t => obind (k t) f).
Proof. intros H; unfold bind; now rewrite H. Qed.

Lemma zoom_Ret {S T A : Type} (l : lens S T) (m : M T A) s a t :
  m (view l s) = Ret a t -> zoom l m s = Ret a (over l t s).
Proof. intros H; unfold zoom; now rewrite H. Qed.

(** ** Total correctness: the code returns, and its result satisfies [Q]. *)

Definition wp {S A : Type} (m : M S A) (Q : A -> S -> Prop) (s : S) : Prop :=
  match m s with Ret a s' => Q a s' | _ => False end.

(** Partial correctness of code that may give up the CPU: whenever it is
    resumed in a state that satisfies [I], if it finally returns, the result
    satisfies [Q]. *)
Fixpoint returns {S A : Type} (I : S -> Prop) (Q : A -> S -> Prop) (o : outcome S A) : Prop :=
  match o with
  | Ret a s => Q a s
  | Switch s k => forall s', I s' -> returns I Q (k s')
  | _ => True
  end.

Lemma returns_bind {S A B : Type} (I : S -> Prop) (Q : B -> S -> Prop) (m : M S A) (f : A -> M S B) s :
  returns I (fun a s' => returns I Q (f a s')) (m s) -> returns I Q (bind m f s).
Proof. unfold bind. induction (m s) as [| | | |s' k IH]; simpl; auto. Qed.

Lemma returns_mono {S A : Type} (I : S -> Prop) (Q Q' : A -> S -> Prop) o :
  returns I Q o -> (forall a s, Q a s -> Q' a s) -> returns I Q' o.
Proof. intros H HQ. induction o; simpl in *; auto. Qed.

Section Wp.
Context {S : Type}.
Implicit Types s : S.

Lemma wp_ret {A : Type} (a : A) (Q : A -> S -> Prop) s : Q a s -> wp (ret a) Q s.
Proof. auto. Qed.

Lemma wp_gets {A : Type} (f : S -> A) (Q : A -> S -> Prop) s : Q (f s) s -> wp (gets f) Q s.
Proof. auto. Qed.

Lemma wp_modify (f : S -> S) (Q : unit -> S -> Prop) s : Q tt (f s) -> wp (modify f) Q s.
Proof. auto. Qed.

Lemma wp_bind {A B : Type} (m : M S A) (f : A -> M S B) (Q : B -> S -> Prop) s :
  wp m (fun a s' => wp (f a) Q s') s -> wp (bind m f) Q s.
Proof. unfold wp, bind. destruct (m s); simpl; tauto. Qed.

Lemma wp_bind_inv {A B : Type} (m : M S A) (f : A -> M S B) (Q : B -> S -> Prop) s :
  wp (bind m f) Q s -> wp m (fun a s' => wp (f a) Q s') s.
Proof. unfold wp, bind. destruct (m s); simpl; tauto. Qed.

Lemma wp_mono {A : Type} (m : M S A) (Q Q' : A -> S -> Prop) s :
  wp m Q s -> (forall a s', Q a s' -> Q' a s') -> wp m Q' s.
Proof. unfold wp. destruct (m s); eauto. Qed.

Lemma wp_bind_panic {A B : Type} (m : M S A) (f : A -> M S B) (Q : A -> S -> Prop) s msg :
  wp m Q s -> (forall a s', Q a s' -> f a s' = Panic msg) -> bind m f s = Panic msg.
Proof. unfold wp, bind. destruct (m s); simpl; naive_solver. Qed.

Lemma wp_check (c : bool) msg (Q : unit -> S -> Prop) s :
  c = true -> Q tt s -> wp (check c msg) Q s.
Proof. intros ->; auto. Qed.

Lemma wp_Ret {A : Type} (m : M S A) (Q : A -> S -> Prop) s :
  wp m Q s <-> exists a s', m s = Ret a s' /\ Q a s'.
Proof.
  unfold wp. split.
  - destruct (m s); simpl; try tauto. eauto.
  - intros (a & s' & -> & H); exact H.
Qed.

(** A deterministic result, proved by symbolic execution. *)
Lemma wp_unit (m : M S unit) s t : wp m (fun _ s' => s' = t) s -> m s = Ret tt t.
Proof. intros H. apply wp_Ret in H as ([] & s' & -> & ->). done. Qed.

Lemma wp_conj {A : Type} (m : M S A) (Q Q' : A -> S -> Prop) s :
  wp m Q s -> wp m Q' s -> wp m (fun a s' => Q a s' /\ Q' a s') s.
Proof. unfold wp. destruct (m s); tauto. Qed.

Lemma wp_mrepeat_last n (m : M S unit) (Q : unit -> S -> Prop) s :
  wp (mrepeat n m) (fun _ s' => wp m Q s') s -> wp (mrepeat (Datatypes.S n) m) Q s.
Proof.
  revert s. induction n as [|n IH]; intros s H.
  - simpl in *. apply wp_bind. eapply wp_mono; [exact H|]. intros [] s' HQ. exact HQ.
  - change (wp (do! m; mrepeat (Datatypes.S n) m) Q s). apply wp_bind.
    apply wp_bind_inv in H. eapply wp_mono; [exact H|]. intros ? s' Hs. now apply IH.
Qed.

(** The rule for counted loops: an invariant indexed by the number of
    iterations done. *)
Lemma wp_mloop (I : nat -> S -> Prop) n i step body s :
  I O s ->
  (forall k s', (k < n)%nat -> I k s' ->
     wp (body (i + Z.of_nat k * step)) (fun _ s'' => I (Datatypes.S k) s'') s') ->
  wp (mloop n i step body) (fun _ s' => I n s') s.
Proof.
  revert I i s. induction n as [|n IH]; intros I i s H0 Hstep; simpl; [exact H0|].
  apply wp_bind.
  pose proof (Hstep O s ltac:(lia) H0) as Hfst.
  replace (i + Z.of_nat 0 * step) with i in Hfst by lia.
  eapply wp_mono; [exact Hfst|].
  intros ? s' HI. apply (IH (fun k => I (Datatypes.S k))); [exact HI|].
  intros k s'' Hk HIk.
  replace (i + step + Z.of_nat k * step) with (i + Z.of_nat (Datatypes.S k) * step) by lia.
  apply Hstep; [lia|exact HIk].
Qed.

(** The same for loops that may leave early: [J r] holds on leaving with
    [r], [I n] on running to the end. *)
Lemma wp_mfor {R : Type} (I : nat -> S -> Prop) (J : R -> S -> Prop) n i step
    (body : Z -> M S (option R)) s :
  I O s ->
  (forall k s', (k < n)%nat -> I k s' ->
     wp (body (i + Z.of_nat k * step))
        (fun r s'' => match r with Some v => J v s'' | None => I (Datatypes.S k) s'' end) s') ->
  wp (mfor n i step body)
     (fun r s' => match r with Some v => J v s' | None => I n s' end) s.
Proof.
  revert I i s. induction n as [|n IH]; intros I i s H0 Hstep; simpl; [exact H0|].
  apply wp_bind.
  pose proof (Hstep O s ltac:(lia) H0) as Hfst.
  replace (i + Z.of_nat 0 * step) with i in Hfst by lia.
  eapply wp_mono; [exact Hfst|].
  intros [v|] s' HI; [exact HI|].
  apply (IH (fun k => I (Datatypes.S k))); [exact HI|].
  intros k s'' Hk HIk.
  replace (i + step + Z.of_nat k * step) with (i + Z.of_nat (Datatypes.S k) * step) by lia.
  apply Hstep; [lia|exact HIk].
Qed.

(** A while loop whose counter takes the values [i, i + step, ...] and
    whose condition fails for the first time at iteration [N]. *)
Lemma wp_mwhile {R : Type} (I : nat -> S -> Prop) (J : R -> S -> Prop) (N fuel : nat) i step cond
    (next : Z -> Z) (body : Z -> M S (option R)) s :
  (N <= fuel)%nat ->
  (forall k, (k < N)%nat -> cond (i + Z.of_nat k * step) = true) ->
  cond (i + Z.of_nat N * step) = false ->
  (forall k, (k < N)%nat -> next (i + Z.of_nat k * step) = i + Z.of_nat (Datatypes.S k) * step) ->
  I O s ->
  (forall k s', (k < N)%nat -> I k s' ->
     wp (body (i + Z.of_nat k * step))
        (fun r s'' => match r with Some v => J v s'' | None => I (Datatypes.S k) s'' end) s') ->
  wp (mwhile fuel cond next body i)
     (fun r s' => match r with inl i' => i' = i + Z.of_nat N * step /\ I N s' | inr v => J v s' end) s.
Proof.
  revert I fuel i s. induction N as [|N IH]; intros I fuel i s Hf Ht Hc Hn H0 Hb.
  - rewrite Z.mul_0_l, Z.add_0_r in *. destruct fuel; simpl; rewrite Hc; now apply wp_ret.
  - destruct fuel as [|fuel]; [lia|].
    assert (cond i = true) as Hci.
    { specialize (Ht O ltac:(lia)). now rewrite Z.mul_0_l, Z.add_0_r in Ht. }
    assert (next i = i + step) as Hni.
    { specialize (Hn O ltac:(lia)). rewrite Z.mul_0_l, Z.add_0_r in Hn. rewrite Hn. lia. }
    pose proof (Hb O s ltac:(lia) H0) as Hfst. rewrite Z.mul_0_l, Z.add_0_r in Hfst.
    simpl. rewrite Hci. apply wp_bind. eapply wp_mono; [exact Hfst|].
    intros [v|] s' HI; [exact HI|]. rewrite Hni.
    assert (forall k, i + step + Z.of_nat k * step = i + Z.of_nat (Datatypes.S k) * step) as E by lia.
    rewrite <- E.
    apply (IH (fun k => I (Datatypes.S k))); try lia; try done.
    + intros k Hk. rewrite E. apply Ht. lia.
    + now rewrite E.
    + intros k Hk. rewrite !E. apply Hn. lia.
    + intros k s'' Hk HIk. rewrite E. apply Hb; [lia|done].
Qed.
End Wp.

(** Symbolic execution of straight-line code. *)
Ltac wstep :=
  match goal with
  | |- wp (bind _ _) _ _ => apply wp_bind
  | |- wp (ret _) _ _ => apply wp_ret
  | |- wp (gets _) _ _ => apply wp_gets
  | |- wp (modify _) _ _ => apply wp_modify
  | |- wp (check _ _) _ _ => apply wp_check
  end; cbv beta.
Ltac wsteps := repeat wstep.
