(* ===== verification/Mach.v ===== *)
(** * The machine and the kernel's shared data

    The constants of param.h, memlayout.h and riscv.h; physical memory as
    bytes with little-endian 64-bit accesses; the control registers of a
    hart; and the C structs of spinlock.h and proc.h.  [mach] is the state
    the lower half of the kernel runs on: the harts and spin locks, RAM,
    the page allocator's lists and reference counts, and the process
    table. *)

From S2P Require Import Prelude.

(** ** param.h, memlayout.h, riscv.h *)

Definition NPROC : Z := 64.
Definition NCPU : Z := 8.
Definition NOFILE : Z := 16.
Definition NFILE : Z := 100.
Definition NINODE : Z := 50.
Definition NDEV : Z := 10.
Definition ROOTDEV : Z := 1.
Definition MAXARG : Z := 32.
Definition MAXOPBLOCKS : Z := 10.
Definition LOGBLOCKS : Z := MAXOPBLOCKS * 3.
Definition NBUF : Z := MAXOPBLOCKS * 3.
Definition FSSIZE : Z := 2000.
Definition MAXPATH : Z := 128.
Definition USERSTACK : Z := 1.

Definition PGSIZE : Z := 4096.
Definition PGSHIFT : Z := 12.
Definition MAXVA : Z := 274877906944.
Definition UART0 : Z := 268435456.
Definition UART0_IRQ : Z := 10.
Definition VIRTIO0 : Z := 268439552.
Definition VIRTIO0_IRQ : Z := 1.
Definition PLIC : Z := 201326592.
Definition KERNBASE : Z := 2147483648.
Definition PHYSTOP : Z := KERNBASE + 128 * 1024 * 1024.
Definition TRAMPOLINE : Z := MAXVA - PGSIZE.
Definition KSTACK (p : Z) : Z := TRAMPOLINE - (p + 1) * 2 * PGSIZE.
Definition TRAPFRAME : Z := TRAMPOLINE - PGSIZE.

Definition PTE_V : Z := Z.shiftl 1 0.
Definition PTE_R : Z := Z.shiftl 1 1.
Definition PTE_W : Z := Z.shiftl 1 2.
Definition PTE_X : Z := Z.shiftl 1 3.
Definition PTE_U : Z := Z.shiftl 1 4.
Definition PTE_COW : Z := Z.shiftl 1 8.

Definition SSTATUS_SPP : Z := Z.shiftl 1 8.
Definition SSTATUS_SPIE : Z := Z.shiftl 1 5.
Definition SSTATUS_SIE : Z := Z.shiftl 1 1.
Definition SATP_SV39 : Z := Z.shiftl 8 60.

#[export] Hint Unfold NPROC NCPU NOFILE NFILE NINODE NDEV ROOTDEV MAXARG MAXOPBLOCKS
  LOGBLOCKS NBUF FSSIZE MAXPATH USERSTACK PGSIZE PGSHIFT MAXVA UART0 VIRTIO0 PLIC
  KERNBASE PHYSTOP TRAMPOLINE KSTACK TRAPFRAME : kconst.

Definition PGROUNDUP (sz : Z) : Z := Z.land (u64 (sz + PGSIZE - 1)) (Z.lnot (PGSIZE - 1)).
Definition PGROUNDDOWN (a : Z) : Z := Z.land a (Z.lnot (PGSIZE - 1)).
Definition PA2PTE (pa : Z) : Z := u64 (Z.shiftl (Z.shiftr pa 12) 10).
Definition PTE2PA (pte : Z) : Z := u64 (Z.shiftl (Z.shiftr pte 10) 12).
Definition PTE_FLAGS (pte : Z) : Z := Z.land pte 1023.
Definition PXSHIFT (level : Z) : Z := PGSHIFT + 9 * level.
Definition PX (level va : Z) : Z := Z.land (Z.shiftr va (PXSHIFT level)) 511.
Definition MAKE_SATP (pagetable : Z) : Z := Z.lor SATP_SV39 (Z.shiftr pagetable 12).

(** [has pte f]: the C test [pte & f]. *)
Definition has (pte f : Z) : bool := negb (Z.land pte f =? 0).

(** ** Memory *)

Definition memory : Type := gmap Z Z.

Definition rd (m : gmap Z Z) (a : Z) : Z := u8 (default 0 (m !! a)).
Definition wr (m : gmap Z Z) (a v : Z) : gmap Z Z := <[a := u8 v]> m.

(** Little-endian reads and writes of [n] bytes. *)
Fixpoint rdn (n : nat) (m : gmap Z Z) (a : Z) : Z :=
  match n with O => 0 | S n' => rd m a + 256 * rdn n' m (a + 1) end.
Fixpoint wrn (n : nat) (m : gmap Z Z) (a v : Z) : gmap Z Z :=
  match n with O => m | S n' => wrn n' (wr m a v) (a + 1) (v / 256) end.

(** Byte [a] belongs to physical RAM. *)
Definition in_ram (a n : Z) : bool := (KERNBASE <=? a) && (a + n <=? PHYSTOP).

(** ** Harts, locks, processes (riscv.h, spinlock.h, proc.h) *)

Record csrs : Type := Csrs {
  sstatus : Z; sepc : Z; scause : Z; stval : Z;
  stvec : Z; satp : Z; stimecmp : Z; time : Z;
}.

Record context : Type := Context_ {
  ctx_ra : Z; ctx_sp : Z;
  ctx_s : list Z;  (* s0 .. s11 *)
}.

Record cpu : Type := Cpu {
  c_proc : option nat;
  c_context : context;
  noff : Z;
  intena : Z;
  csr : csrs;
}.

(** The kernel's spin locks, by the variable they live in. *)
Inductive lockid : Type :=
| Lkmem (cpu : nat) | Lref | Lpid | Lwait | Lproc (p : nat) | Lticks
| Lbcache | Lsleep (l : Z) | Litable | Lftable | Llog | Lpipe (pa : Z)
| Lcons | Luart | Lpr | Ldisk.

#[export] Instance lockid_eq_dec : EqDecision lockid.
Proof. solve_decision. Defined.

Definition lockid_enc (l : lockid) : Z * Z :=
  match l with
  | Lkmem c => (0, Z.of_nat c) | Lref => (1, 0) | Lpid => (2, 0) | Lwait => (3, 0)
  | Lproc p => (4, Z.of_nat p) | Lticks => (5, 0) | Lbcache => (6, 0) | Lsleep l => (7, l)
  | Litable => (8, 0) | Lftable => (9, 0) | Llog => (10, 0) | Lpipe pa => (11, pa)
  | Lcons => (12, 0) | Luart => (13, 0) | Lpr => (14, 0) | Ldisk => (15, 0)
  end.
Definition lockid_dec (c : Z * Z) : option lockid :=
  let '(k, v) := c in
  match k with
  | 0 => Some (Lkmem (Z.to_nat v)) | 1 => Some Lref | 2 => Some Lpid | 3 => Some Lwait
  | 4 => Some (Lproc (Z.to_nat v)) | 5 => Some Lticks | 6 => Some Lbcache
  | 7 => Some (Lsleep v) | 8 => Some Litable | 9 => Some Lftable | 10 => Some Llog
  | 11 => Some (Lpipe v) | 12 => Some Lcons | 13 => Some Luart | 14 => Some Lpr
  | 15 => Some Ldisk | _ => None
  end.
#[export] Instance lockid_countable : Countable lockid.
Proof.
  apply (inj_countable lockid_enc lockid_dec).
  intros []; simpl; rewrite ?Nat2Z.id; reflexivity.
Defined.

(** [lk->cpu] is the index of the holding hart in [cpus]. *)
Record spinlock : Type := Spinlock { locked : bool; lcpu : option Z }.

Record lockst : Type := Lockst {
  hart : Z;                        (* r_tp(): the hart that executes *)
  cpus : list cpu;
  locks : gmap lockid spinlock;
}.

Inductive procstate : Type := UNUSED | USED | SLEEPING | RUNNABLE | RUNNING | ZOMBIE.
#[export] Instance procstate_eq_dec : EqDecision procstate.
Proof. solve_decision. Defined.

(** Wait channels: the addresses passed to [sleep] and [wakeup]. *)
Inductive wchan : Type :=
| NoChan | ChTicks | ChProc (p : nat) | ChLog | ChLock (l : Z) | ChPipeR (pa : Z)
| ChPipeW (pa : Z) | ChCons | ChTx | ChDisk | ChBuf (b : nat).
#[export] Instance wchan_eq_dec : EqDecision wchan.
Proof. solve_decision. Defined.

Record proc : Type := Proc {
  state : procstate;
  chan : wchan;
  killed_ : Z;
  xstate : Z;
  pid : Z;
  parent : option nat;
  kstack : Z;
  sz : Z;
  pagetable : Z;
  kpagetable : Z;
  trapframe : Z;
  pcontext : context;
  ofile : list (option nat);
  cwd : option nat;
  pname : list Z;
  tracemask : Z;
  alarm_ticks : Z;
  alarm_interval : Z;
  alarm_handler : Z;
  alarm_trapframe : Z;
  alarm_active : Z;
}.

Record mach : Type := Mach {
  lks : lockst;
  ram : gmap Z Z;
  freelist : list Z;               (* kmem[i].freelist *)
  refcnt : gmap Z Z;               (* ref.refcnt[] *)
  procs : list proc;
  nextpid : Z;
  initproc : option nat;
  ticks : Z;
}.

Definition set_lks (l : lockst) (s : mach) : mach :=
  Mach l (ram s) (freelist s) (refcnt s) (procs s) (nextpid s) (initproc s) (ticks s).
Definition set_ram (m : gmap Z Z) (s : mach) : mach :=
  Mach (lks s) m (freelist s) (refcnt s) (procs s) (nextpid s) (initproc s) (ticks s).
Definition set_freelist (f : list Z) (s : mach) : mach :=
  Mach (lks s) (ram s) f (refcnt s) (procs s) (nextpid s) (initproc s) (ticks s).
Definition set_refcnt (r : gmap Z Z) (s : mach) : mach :=
  Mach (lks s) (ram s) (freelist s) r (procs s) (nextpid s) (initproc s) (ticks s).
Definition set_procs (p : list proc) (s : mach) : mach :=
  Mach (lks s) (ram s) (freelist s) (refcnt s) p (nextpid s) (initproc s) (ticks s).
Definition set_nextpid (n : Z) (s : mach) : mach :=
  Mach (lks s) (ram s) (freelist s) (refcnt s) (procs s) n (initproc s) (ticks s).
Definition set_initproc (n : option nat) (s : mach) : mach :=
  Mach (lks s) (ram s) (freelist s) (refcnt s) (procs s) (nextpid s) n (ticks s).
Definition set_ticks (n : Z) (s : mach) : mach :=
  Mach (lks s) (ram s) (freelist s) (refcnt s) (procs s) (nextpid s) (initproc s) n.

Definition lks_lens : lens mach lockst.
Proof.
  refine (Lens mach lockst lks set_lks _ _ _); [done|now intros []|done].
Defined.

(** ** Symbols of the linker script and of assembly files

    [end], [etext] (kernel.ld), [trampoline], [uservec], [userret]
    (trampoline.S), [kernelvec] (kernelvec.S) and the addresses of
    [forkret] and [usertrap]. *)

Class Layout : Type := {
  end_ : Z; etext : Z; trampoline : Z; uservec : Z; userret : Z;
  kernelvec : Z; forkret_addr : Z; usertrap_addr : Z;
}.

(** kernel.ld places the kernel at the start of RAM; [etext] is page
    aligned; the image fits in RAM. *)
Class LayoutOk (L : Layout) : Prop := {
  etext_lo : KERNBASE < etext; etext_end : etext <= end_; end_hi : end_ <= PHYSTOP;
  etext_al : etext mod 4096 = 0;
  trampoline_lo : KERNBASE <= trampoline; trampoline_hi : trampoline + 4096 <= etext;
  trampoline_al : trampoline mod 4096 = 0;
}.

(** ** Checked memory accesses *)

Definition ld8 (a : Z) : M mach Z :=
  fun s => if in_ram a 1 then Ret (rd (ram s) a) s else Fault.
Definition st8 (a v : Z) : M mach unit :=
  fun s => if in_ram a 1 then Ret tt (set_ram (wr (ram s) a v) s) else Fault.
Definition ld64 (a : Z) : M mach Z :=
  fun s => if in_ram a 8 then Ret (rdn 8 (ram s) a) s else Fault.
Definition st64 (a v : Z) : M mach unit :=
  fun s => if in_ram a 8 then Ret tt (set_ram (wrn 8 (ram s) a v) s) else Fault.

(** ** Lemmas on memory *)

Section Memory.
Implicit Types (m : gmap Z Z) (a b v : Z).

Lemma rd_range m a : 0 <= rd m a < 256.
Proof. apply u8_range. Qed.

Lemma rd_wr_eq m a v : rd (wr m a v) a = u8 v.
Proof.
  unfold rd, wr. rewrite lookup_insert_eq. simpl. apply u8_small, u8_range.
Qed.

Lemma rd_wr_ne m a b v : a <> b -> rd (wr m a v) b = rd m b.
Proof. intros H. unfold rd, wr. now rewrite lookup_insert_ne. Qed.

Lemma rd_wr m a b v : rd (wr m a v) b = if decide (a = b) then u8 v else rd m b.
Proof. case_decide as H; [subst; apply rd_wr_eq|now apply rd_wr_ne]. Qed.

Lemma rd_wrn_out n m a v b : b < a \/ a + Z.of_nat n <= b -> rd (wrn n m a v) b = rd m b.
Proof.
  revert m a v. induction n as [|n IH]; intros m a v H; simpl; [done|].
  rewrite IH by lia. apply rd_wr_ne. lia.
Qed.

Lemma rdn_range n m a : 0 <= rdn n m a < 256 ^ Z.of_nat n.
Proof.
  revert a. induction n as [|n IH]; intros a; [simpl; lia|].
  rewrite Nat2Z.inj_succ, Z.pow_succ_r by lia. simpl.
  specialize (IH (a + 1)). pose proof (rd_range m a). nia.
Qed.

Lemma rdn8_range m a : 0 <= rdn 8 m a < 18446744073709551616.
Proof. apply (rdn_range 8). Qed.

Lemma rdn_ext n m m' a :
  (forall b, a <= b < a + Z.of_nat n -> rd m b = rd m' b) -> rdn n m a = rdn n m' a.
Proof.
  revert a. induction n as [|n IH]; intros a H; simpl; [done|].
  rewrite (H a), (IH (a + 1)) by (intros; try apply H; lia). done.
Qed.

Lemma rdn_wrn_eq n m a v : 0 <= v < 256 ^ Z.of_nat n -> rdn n (wrn n m a v) a = v.
Proof.
  revert m a v. induction n as [|n IH]; intros m a v; [simpl; lia|].
  rewrite Nat2Z.inj_succ, Z.pow_succ_r by lia. intros H. simpl.
  rewrite IH by (split; [apply Z.div_pos; lia|apply Z.div_lt_upper_bound; lia]).
  rewrite rd_wrn_out, rd_wr_eq by lia. unfold u8.
  pose proof (Z.div_mod v 256). lia.
Qed.

Lemma rdn_wrn_ne n k m a v b :
  b + Z.of_nat k <= a \/ a + Z.of_nat n <= b -> rdn k (wrn n m a v) b = rdn k m b.
Proof. intros H. apply rdn_ext. intros c Hc. apply rd_wrn_out. lia. Qed.
End Memory.

#[global] Arguments rdn : simpl never.
#[global] Arguments wrn : simpl never.

Lemma in_ram_spec a n : in_ram a n = true <-> KERNBASE <= a /\ a + n <= PHYSTOP.
Proof. unfold in_ram. rewrite andb_true_iff, !Z.leb_le. done. Qed.

Lemma wp_ld64 a Q s : KERNBASE <= a -> a + 8 <= PHYSTOP -> Q (rdn 8 (ram s) a) s -> wp (ld64 a) Q s.
Proof. intros. unfold wp, ld64. now rewrite (proj2 (in_ram_spec a 8)). Qed.
Lemma wp_st64 a v Q s :
  KERNBASE <= a -> a + 8 <= PHYSTOP -> Q tt (set_ram (wrn 8 (ram s) a v) s) -> wp (st64 a v) Q s.
Proof. intros. unfold wp, st64. now rewrite (proj2 (in_ram_spec a 8)). Qed.
Lemma wp_ld8 a Q s : KERNBASE <= a < PHYSTOP -> Q (rd (ram s) a) s -> wp (ld8 a) Q s.
Proof. intros. unfold wp, ld8. rewrite (proj2 (in_ram_spec a 1)) by lia. done. Qed.
Lemma wp_st8 a v Q s :
  KERNBASE <= a < PHYSTOP -> Q tt (set_ram (wr (ram s) a v) s) -> wp (st8 a v) Q s.
Proof. intros. unfold wp, st8. rewrite (proj2 (in_ram_spec a 1)) by lia. done. Qed.

(** ** Lemmas on page arithmetic *)

Lemma PGROUNDDOWN_eq a : PGROUNDDOWN a = a - a mod 4096.
Proof. exact (land_lnot_ones a 12 ltac:(lia)). Qed.

Lemma PGROUNDUP_eq a :
  0 <= a -> a + 4095 < 18446744073709551616 -> PGROUNDUP a = (a + 4095) - (a + 4095) mod 4096.
Proof.
  intros. unfold PGROUNDUP. rewrite u64_small by lia.
  replace (a + PGSIZE - 1) with (a + 4095) by lia.
  exact (land_lnot_ones (a + 4095) 12 ltac:(lia)).
Qed.

Lemma PGROUNDDOWN_spec a : 0 <= a -> PGROUNDDOWN a mod 4096 = 0 /\ PGROUNDDOWN a <= a < PGROUNDDOWN a + 4096.
Proof.
  intros. rewrite PGROUNDDOWN_eq. pose proof (Z.mod_pos_bound a 4096).
  rewrite Zminus_mod_idemp_r, Z.sub_diag. split; [done|lia].
Qed.

Lemma PGROUNDUP_spec a :
  0 <= a -> a + 4095 < 18446744073709551616 ->
  PGROUNDUP a mod 4096 = 0 /\ a <= PGROUNDUP a < a + 4096.
Proof.
  intros. rewrite PGROUNDUP_eq by done.
  pose proof (Z.mod_pos_bound (a + 4095) 4096).
  rewrite Zminus_mod_idemp_r, Z.sub_diag. split; [done|lia].
Qed.

Lemma PX_range level va : 0 <= PX level va < 512.
Proof.
  unfold PX. change 511 with (Z.ones 9). rewrite Z.land_ones by lia.
  apply Z.mod_pos_bound; lia.
Qed.

Lemma PX_eq level va :
  0 <= level -> PX level va = va / 2 ^ (12 + 9 * level) mod 512.
Proof.
  intros. unfold PX, PXSHIFT, PGSHIFT. change 511 with (Z.ones 9).
  now rewrite Z.land_ones, Z.shiftr_div_pow2 by lia.
Qed.

Lemma PTE_FLAGS_eq pte : PTE_FLAGS pte = pte mod 1024.
Proof. unfold PTE_FLAGS. change 1023 with (Z.ones 10). now rewrite Z.land_ones by lia. Qed.

Lemma PA2PTE_eq pa : 0 <= pa < 18446744073709551616 -> PA2PTE pa = pa / 4096 * 1024.
Proof.
  intros. unfold PA2PTE. rewrite Z.shiftl_mul_pow2, Z.shiftr_div_pow2 by lia.
  change (2 ^ 10) with 1024. change (2 ^ 12) with 4096.
  rewrite u64_small; [done|].
  pose proof (Z.div_pos pa 4096). pose proof (Z.mul_div_le pa 4096). lia.
Qed.

Lemma PTE2PA_eq pte : 0 <= pte -> pte / 1024 * 4096 < 18446744073709551616 -> PTE2PA pte = pte / 1024 * 4096.
Proof.
  intros. unfold PTE2PA. rewrite Z.shiftl_mul_pow2, Z.shiftr_div_pow2 by lia.
  change (2 ^ 10) with 1024. change (2 ^ 12) with 4096.
  apply u64_small. pose proof (Z.div_pos pte 1024). lia.
Qed.

(** The physical address survives in a PTE, whatever the flag bits. *)
Lemma lor_low a b k : 0 <= k -> 0 <= b < 2 ^ k -> Z.lor (a * 2 ^ k) b = a * 2 ^ k + b.
Proof.
  intros Hk Hb. symmetry. rewrite <- Z.shiftl_mul_pow2 by lia.
  rewrite Z.add_nocarry_lor; [done|].
  apply Z.bits_inj'. intros n Hn. rewrite Z.land_spec, Z.bits_0.
  destruct (Z_lt_ge_dec n k).
  - now rewrite Z.shiftl_spec_low by lia.
  - rewrite <- (Z.mod_small b (2 ^ k)) by done.
    rewrite Z.mod_pow2_bits_high by lia. apply andb_false_r.
Qed.

Lemma pte_split pa f :
  0 <= pa < 72057594037927936 -> pa mod 4096 = 0 -> 0 <= f < 1024 ->
  PTE2PA (Z.lor (PA2PTE pa) f) = pa /\ PTE_FLAGS (Z.lor (PA2PTE pa) f) = f.
Proof.
  intros Hpa Hal Hf. rewrite PA2PTE_eq by lia.
  pose proof (lor_low (pa / 4096) f 10 ltac:(lia) Hf) as L.
  change (2 ^ 10) with 1024 in L. rewrite L. clear L.
  pose proof (Z.div_mod pa 4096). pose proof (Z.div_pos pa 4096).
  assert ((pa / 4096 * 1024 + f) / 1024 = pa / 4096) as E.
  { rewrite Z.div_add_l by lia. rewrite (Z.div_small f); lia. }
  rewrite PTE2PA_eq, PTE_FLAGS_eq; rewrite ?E; [|lia..].
  split; [lia|]. rewrite Z.add_comm, Z.mod_add by lia. now apply Z.mod_small.
Qed.

Lemma has_bit pte k : 0 <= k -> has pte (Z.shiftl 1 k) = Z.testbit pte k.
Proof.
  intros Hk. unfold has. rewrite land_bit by done.
  destruct (Z.testbit pte k); [|done].
  rewrite Z.shiftl_1_l. pose proof (Z.pow_pos_nonneg 2 k).
  destruct (Z.eqb_spec (2 ^ k) 0); [lia|done].
Qed.
