(* ===== verification/Spinlock.v ===== *)
(** * Spin locks and interrupt nesting (kernel/spinlock.c, kernel/riscv.h)

    [acquire], [release], [push_off] and [pop_off] on the state of one
    hart; the equivalence [lk_eq] of lock states that a balanced critical
    section cannot distinguish; and a step relation for several harts
    that interleaves the atomic steps of [acquire] and [release]. *)

From S2P Require Import Prelude.
From S2P Require Import Mach.

(** ** Control registers of the running hart *)

Definition set_sstatus (x : Z) (r : csrs) : csrs :=
  Csrs x (sepc r) (scause r) (stval r) (stvec r) (satp r) (stimecmp r) (time r).
Definition set_csr (r : csrs) (c : cpu) : cpu :=
  Cpu (c_proc c) (c_context c) (noff c) (intena c) r.
Definition set_noff (n : Z) (c : cpu) : cpu :=
  Cpu (c_proc c) (c_context c) n (intena c) (csr c).
Definition set_intena (n : Z) (c : cpu) : cpu :=
  Cpu (c_proc c) (c_context c) (noff c) n (csr c).
Definition set_c_proc (p : option nat) (c : cpu) : cpu :=
  Cpu p (c_context c) (noff c) (intena c) (csr c).

Definition cur (s : lockst) : option cpu :=
  if 0 <=? hart s then cpus s !! Z.to_nat (hart s) else None.
Definition put_cur (c : cpu) (s : lockst) : lockst :=
  Lockst (hart s) (<[Z.to_nat (hart s) := c]> (cpus s)) (locks s).

Definition r_tp : M lockst Z := gets hart.

(** [cpuid], [mycpu] of proc.c: [&cpus[id]] outside the array is an error. *)
Definition cpuid : M lockst Z := r_tp.
Definition mycpu : M lockst cpu := fun s => orfault (cur s) s.
Definition upd_cpu (f : cpu -> cpu) : M lockst unit :=
  let! c := mycpu in modify (put_cur (f c)).

Definition r_sstatus : M lockst Z := let! c := mycpu in ret (sstatus (csr c)).
Definition w_sstatus (x : Z) : M lockst unit :=
  upd_cpu (fun c => set_csr (set_sstatus x (csr c)) c).
Definition s_sstatus (x : Z) : M lockst unit :=
  let! v := r_sstatus in w_sstatus (Z.lor v x).
Definition c_sstatus (x : Z) : M lockst unit :=
  let! v := r_sstatus in w_sstatus (Z.ldiff v x).
Definition rc_sstatus (x : Z) : M lockst Z :=
  let! v := r_sstatus in do! w_sstatus (Z.ldiff v x); ret v.
Definition intr_on : M lockst unit := s_sstatus SSTATUS_SIE.
Definition intr_off : M lockst unit := c_sstatus SSTATUS_SIE.
Definition intr_get : M lockst bool :=
  let! x := r_sstatus in ret (has x SSTATUS_SIE).

(** ** spinlock.c *)

Definition unlocked : spinlock := Spinlock false None.
Definition getlock (s : lockst) (l : lockid) : spinlock := default unlocked (locks s !! l).
Definition putlock (l : lockid) (v : spinlock) (s : lockst) : lockst :=
  Lockst (hart s) (cpus s) (<[l := v]> (locks s)).

Definition initlock (l : lockid) : M lockst unit := modify (putlock l unlocked).

Definition push_off : M lockst unit :=
  let! flags := rc_sstatus SSTATUS_SIE in
  let old := if has flags SSTATUS_SIE then 1 else 0 in
  let! c := mycpu in
  do! (if noff c =? 0 then upd_cpu (set_intena old) else ret tt);
  let! c := mycpu in
  upd_cpu (set_noff (i32 (noff c + 1))).

Definition pop_off : M lockst unit :=
  let! on := intr_get in
  do! check (negb on) "pop_off - interruptible";
  let! c := mycpu in
  do! check (negb (noff c <? 1)) "pop_off";
  do! upd_cpu (set_noff (i32 (noff c - 1)));
  let! c := mycpu in
  if (noff c =? 0) && negb (intena c =? 0) then intr_on else ret tt.

Definition holding (l : lockid) : M lockst bool :=
  let! id := cpuid in
  let! lk := gets (fun s => getlock s l) in
  ret (locked lk && bool_decide (lcpu lk = Some id)).

(** The atomic exchange of [acquire]: store 1 in [lk->locked], return the
    old value. *)
Definition xchg_locked (l : lockid) : M lockst bool := fun s =>
  let lk := getlock s l in
  Ret (locked lk) (putlock l (Spinlock true (lcpu lk)) s).

(** A lock another hart holds stays held while this hart spins. *)
Definition acquire (l : lockid) : M lockst unit :=
  do! push_off;
  let! h := holding l in
  do! check (negb h) "acquire";
  let! old := xchg_locked l in
  if old then (fun _ => Spin) else
  let! id := cpuid in
  modify (putlock l (Spinlock true (Some id))).

Definition release (l : lockid) : M lockst unit :=
  let! h := holding l in
  do! check h "release";
  let! lk := gets (fun s => getlock s l) in
  do! modify (putlock l (Spinlock (locked lk) None));
  do! modify (putlock l (Spinlock false None));
  pop_off.

(** ** What a balanced critical section preserves *)

(** The running hart exists, can nest [d] more levels, and has interrupts
    off while it nests. *)
Definition lk_ok (d : Z) (s : lockst) : Prop :=
  exists c, cur s = Some c /\ 0 <= noff c /\ noff c + d <= 2147483647 /\
    0 <= sstatus (csr c) /\ (0 < noff c -> Z.testbit (sstatus (csr c)) 1 = false).

Definition cpu_eq (c c' : cpu) : Prop :=
  c_proc c = c_proc c' /\ c_context c = c_context c' /\ noff c = noff c' /\ csr c = csr c' /\
  (0 < noff c -> intena c = intena c').

(** Equal but for [intena] of the running hart outside any critical
    section, where its value is dead: the next [push_off] overwrites it. *)
Definition lk_eq (s s' : lockst) : Prop :=
  hart s = hart s' /\ (forall l, getlock s l = getlock s' l) /\
  length (cpus s) = length (cpus s') /\
  (forall i, i <> Z.to_nat (hart s) -> cpus s !! i = cpus s' !! i) /\
  (forall c, cur s = Some c -> exists c', cur s' = Some c' /\ cpu_eq c c').

(** [s'] is [s] with [l] held by the running hart, one level deeper. *)
Definition acquired (l : lockid) (s s' : lockst) : Prop :=
  hart s = hart s' /\
  getlock s' l = Spinlock true (Some (hart s)) /\
  (forall l', l' <> l -> getlock s l' = getlock s' l') /\
  length (cpus s) = length (cpus s') /\
  (forall i, i <> Z.to_nat (hart s) -> cpus s !! i = cpus s' !! i) /\
  (forall c, cur s = Some c -> exists c', cur s' = Some c' /\
     c_proc c = c_proc c' /\ c_context c = c_context c' /\ noff c' = noff c + 1 /\
     csr c' = set_sstatus (Z.ldiff (sstatus (csr c)) SSTATUS_SIE) (csr c) /\
     intena c' = if noff c =? 0 then (if has (sstatus (csr c)) SSTATUS_SIE then 1 else 0)
                 else intena c).

(** ** Lemmas *)

Section Facts.
Implicit Types (s : lockst) (l : lockid) (c : cpu).

#[export] Instance lk_eq_refl : Reflexive lk_eq.
Proof.
  intros s. repeat split; auto. intros c Hc. exists c. repeat split; auto.
Qed.

#[export] Instance lk_eq_trans : Transitive lk_eq.
Proof.
  intros s1 s2 s3 (A1 & A2 & A3 & A4 & A5) (B1 & B2 & B3 & B4 & B5).
  repeat split; try congruence.
  - intros i Hi. rewrite A4 by done. apply B4. congruence.
  - intros c Hc. destruct (A5 c Hc) as (c' & Hc' & E1 & E2 & E3 & E4 & E5).
    destruct (B5 c' Hc') as (c'' & Hc'' & F1 & F2 & F3 & F4 & F5).
    exists c''. split; [done|]. repeat split; try congruence.
    intros. rewrite E5 by done. apply F5. congruence.
Qed.

Lemma getlock_put_eq s l v : getlock (putlock l v s) l = v.
Proof. unfold getlock, putlock; simpl. now rewrite lookup_insert_eq. Qed.

Lemma getlock_put_ne s l l' v : l' <> l -> getlock (putlock l v s) l' = getlock s l'.
Proof. intros. unfold getlock, putlock; simpl. now rewrite lookup_insert_ne. Qed.

Lemma cur_put_cur s c c' : cur s = Some c -> cur (put_cur c' s) = Some c'.
Proof.
  unfold cur, put_cur; simpl. destruct (0 <=? hart s); [|done].
  intros H. apply list_lookup_insert_eq. now apply lookup_lt_Some in H.
Qed.

Lemma put_cur_cur s c c' : put_cur c (put_cur c' s) = put_cur c s.
Proof. unfold put_cur; simpl. now rewrite list_insert_insert_eq. Qed.

Lemma wp_mycpu s c Q : cur s = Some c -> Q c s -> wp mycpu Q s.
Proof. intros H HQ. unfold wp, mycpu, orfault. now rewrite H. Qed.

Lemma wp_upd_cpu s c f Q : cur s = Some c -> Q tt (put_cur (f c) s) -> wp (upd_cpu f) Q s.
Proof. intros H HQ. apply wp_bind, (wp_mycpu _ c); auto. Qed.

Lemma wp_w_sstatus s c x Q :
  cur s = Some c -> Q tt (put_cur (set_csr (set_sstatus x (csr c)) c) s) -> wp (w_sstatus x) Q s.
Proof. intros. eapply wp_upd_cpu; eauto. Qed.

Lemma wp_r_sstatus s c Q : cur s = Some c -> Q (sstatus (csr c)) s -> wp r_sstatus Q s.
Proof. intros. apply wp_bind, (wp_mycpu _ c); auto. Qed.

Lemma set_sstatus_twice x y r : set_sstatus x (set_sstatus y r) = set_sstatus x r.
Proof. done. Qed.

(** Clearing SIE and setting it again is the identity when it was set. *)
Lemma sie_restore x : Z.testbit x 1 = true -> Z.lor (Z.ldiff x SSTATUS_SIE) SSTATUS_SIE = x.
Proof.
  intros H. apply Z.bits_inj'. intros n Hn. unfold SSTATUS_SIE.
  rewrite Z.lor_spec, Z.ldiff_spec. destruct (Z.eq_dec n 1) as [->|Hne].
  - now rewrite H.
  - rewrite Z.shiftl_1_l, Z.pow2_bits_false by lia. now rewrite andb_true_r, orb_false_r.
Qed.

Lemma sie_clear x : Z.testbit (Z.ldiff x SSTATUS_SIE) 1 = false.
Proof. rewrite Z.ldiff_spec. apply andb_false_r. Qed.

Lemma sie_noop x : Z.testbit x 1 = false -> Z.ldiff x SSTATUS_SIE = x.
Proof.
  intros H. apply Z.bits_inj'. intros n Hn. unfold SSTATUS_SIE.
  rewrite Z.ldiff_spec. destruct (Z.eq_dec n 1) as [->|Hne].
  - now rewrite H.
  - rewrite Z.shiftl_1_l, Z.pow2_bits_false by lia. now rewrite andb_true_r.
Qed.

Lemma ldiff_nonneg x y : 0 <= x -> 0 <= Z.ldiff x y.
Proof. intros. apply Z.ldiff_nonneg. auto. Qed.

(** [push_off] in closed form. *)
Definition pushed (c : cpu) : cpu :=
  Cpu (c_proc c) (c_context c) (noff c + 1)
      (if noff c =? 0 then (if has (sstatus (csr c)) SSTATUS_SIE then 1 else 0) else intena c)
      (set_sstatus (Z.ldiff (sstatus (csr c)) SSTATUS_SIE) (csr c)).

Lemma push_off_eq s c :
  cur s = Some c -> 0 <= noff c < 2147483647 -> push_off s = Ret tt (put_cur (pushed c) s).
Proof.
  intros Hc Hn. apply wp_unit. unfold push_off, rc_sstatus.
  wsteps. eapply wp_r_sstatus; [exact Hc|]. wsteps.
  eapply wp_w_sstatus; [exact Hc|]. wsteps.
  set (s1 := put_cur (set_csr _ _) s).
  assert (cur s1 = Some (set_csr (set_sstatus (Z.ldiff (sstatus (csr c)) SSTATUS_SIE) (csr c)) c)) as H1
    by (eapply cur_put_cur; eauto).
  eapply wp_mycpu; [exact H1|]. wsteps. simpl noff. unfold pushed.
  destruct (Z.eqb_spec (noff c) 0) as [E|E].
  - eapply wp_upd_cpu; [exact H1|]. wsteps.
    eapply wp_mycpu; [eapply cur_put_cur; eauto|].
    eapply wp_upd_cpu; [eapply cur_put_cur; eauto|].
    subst s1. rewrite !put_cur_cur. simpl. rewrite i32_small by lia. done.
  - wsteps. eapply wp_mycpu; [exact H1|]. eapply wp_upd_cpu; [exact H1|].
    subst s1. rewrite !put_cur_cur. simpl. rewrite i32_small by lia. done.
Qed.

(** [pop_off] in closed form, on its success path. *)
Definition popped (c : cpu) : cpu :=
  Cpu (c_proc c) (c_context c) (noff c - 1) (intena c)
      (if (noff c - 1 =? 0) && negb (intena c =? 0)
       then set_sstatus (Z.lor (sstatus (csr c)) SSTATUS_SIE) (csr c) else csr c).

Lemma pop_off_eq s c :
  cur s = Some c -> 1 <= noff c <= 2147483647 -> Z.testbit (sstatus (csr c)) 1 = false ->
  pop_off s = Ret tt (put_cur (popped c) s).
Proof.
  intros Hc Hn Hi.
  apply wp_unit. unfold pop_off, intr_get. wsteps. eapply wp_r_sstatus; [exact Hc|]. wsteps.
  { unfold SSTATUS_SIE. rewrite has_bit by lia. now rewrite Hi. }
  eapply wp_mycpu; [exact Hc|]. wsteps.
  { destruct (Z.ltb_spec (noff c) 1); [lia|done]. }
  eapply wp_upd_cpu; [exact Hc|]. wsteps.
  eapply wp_mycpu; [eapply cur_put_cur; eauto|]. simpl.
  rewrite i32_small by lia. unfold popped.
  destruct ((noff c - 1 =? 0) && negb (intena c =? 0)).
  - unfold intr_on, s_sstatus. wsteps.
    eapply wp_r_sstatus; [eapply cur_put_cur; eauto|].
    eapply wp_w_sstatus; [eapply cur_put_cur; eauto|].
    rewrite put_cur_cur. simpl. done.
  - wsteps. done.
Qed.
End Facts.

Section Critical.
Implicit Types (s : lockst) (l : lockid).

Lemma cur_putlock s l v : cur (putlock l v s) = cur s.
Proof. done. Qed.

Lemma getlock_put_cur s c l : getlock (put_cur c s) l = getlock s l.
Proof. done. Qed.

Lemma put_cur_cpus_ne s c i :
  i <> Z.to_nat (hart s) -> cpus (put_cur c s) !! i = cpus s !! i.
Proof. intros. unfold put_cur; simpl. now rewrite list_lookup_insert_ne. Qed.

(** [acquire] of a free lock returns with the lock held. *)
Lemma acquire_spec s l d :
  lk_ok d s -> 1 <= d -> locked (getlock s l) = false ->
  wp (acquire l) (fun _ s' => lk_ok (d - 1) s' /\ acquired l s s') s.
Proof.
  intros (c & Hc & H0 & Hd & Hs & Hi) H1 Hl.
  unfold acquire. wsteps.
  unfold wp at 1. rewrite (push_off_eq s c) by (auto; lia).
  unfold holding, cpuid, r_tp. wsteps.
  { change (getlock (put_cur (pushed c) s) l) with (getlock s l). now rewrite Hl. }
  unfold xchg_locked, wp at 1.
  change (getlock (put_cur (pushed c) s) l) with (getlock s l). rewrite Hl.
  wsteps.
  assert (cur (put_cur (pushed c) s) = Some (pushed c)) as Hc' by (eapply cur_put_cur; eauto).
  split.
  - exists (pushed c). split; [exact Hc'|]. simpl. repeat split; try lia.
    + now apply ldiff_nonneg.
    + intros _. apply sie_clear.
  - repeat split; simpl; auto.
    + now rewrite getlock_put_eq.
    + intros l' Hl'. now rewrite !getlock_put_ne.
    + now rewrite length_insert.
    + intros i Hne. now rewrite list_lookup_insert_ne.
    + intros c0 Hc0. rewrite Hc in Hc0. injection Hc0 as <-. exists (pushed c).
      split; [exact Hc'|]. repeat split; auto.
Qed.

(** Popping what [push_off] pushed gives the interrupt state back. *)
Lemma popped_pushed c c2 :
  (0 < noff c -> Z.testbit (sstatus (csr c)) 1 = false) -> cpu_eq (pushed c) c2 -> 0 <= noff c ->
  popped c2 = Cpu (c_proc c) (c_context c) (noff c) (intena c2) (csr c).
Proof.
  intros Hi (F1 & F2 & F3 & F4 & F5) Hn. simpl in *.
  unfold popped. rewrite <- F1, <- F2, <- F3, <- F4.
  replace (noff c + 1 - 1) with (noff c) by lia. f_equal.
  rewrite <- F5 by lia. simpl.
  unfold SSTATUS_SIE at 1. rewrite has_bit by lia.
  destruct (Z.eqb_spec (noff c) 0) as [En|En]; simpl.
  - destruct (Z.testbit (sstatus (csr c)) 1) eqn:Eb; simpl.
    + rewrite sie_restore by done. now destruct (csr c).
    + rewrite sie_noop by done. now destruct (csr c).
  - rewrite sie_noop by (apply Hi; lia). now destruct (csr c).
Qed.

(** [pop_off] undoes [push_off], whatever balanced code ran in between. *)
Lemma pop_off_spec s s1 s2 d :
  lk_ok d s -> 0 < d -> push_off s = Ret tt s1 -> lk_eq s1 s2 ->
  wp pop_off (fun _ s' => lk_eq s s') s2.
Proof.
  intros (c & Hc & H0 & Hd & Hs & Hi) Hd0 Hp (B1 & B2 & B3 & B4 & B5).
  rewrite (push_off_eq s c) in Hp by (auto; lia). injection Hp as <-.
  destruct (B5 (pushed c)) as (c2 & Hc2 & HE); [eapply cur_put_cur; eauto|].
  pose proof HE as (F1 & F2 & F3 & F4 & F5).
  unfold wp. rewrite (pop_off_eq _ c2); auto; [|simpl in F3; lia|].
  2: { rewrite <- F4. apply sie_clear. }
  rewrite (popped_pushed c c2) by done. simpl in B1, B3.
  repeat split; simpl; try congruence.
  - intros l. rewrite getlock_put_cur. apply B2.
  - rewrite length_insert in *. congruence.
  - intros i Hne. rewrite list_lookup_insert_ne by congruence.
    rewrite <- B4; simpl; [|done]. now rewrite list_lookup_insert_ne.
  - intros c0 Hc0. rewrite Hc in Hc0. injection Hc0 as <-.
    eexists. split; [eapply cur_put_cur; eauto|]. repeat split; auto. simpl.
    intros Hn. rewrite <- F5 by (simpl; lia). simpl.
    destruct (Z.eqb_spec (noff c) 0); [lia|done].
Qed.

(** [release] of the lock taken by [acquire] undoes it, whatever balanced
    code ran in between. *)
Lemma release_spec s s1 s2 l d :
  lk_ok d s -> 0 <= d - 1 -> acquired l s s1 -> lk_eq s1 s2 -> locked (getlock s l) = false ->
  getlock s l = unlocked ->
  wp (release l) (fun _ s' => lk_eq s s') s2.
Proof.
  intros (c & Hc & H0 & Hd & Hs & Hi) Hd1 (A1 & A2 & A3 & A4 & A5 & A6) (B1 & B2 & B3 & B4 & B5) _ Hl.
  destruct (A6 c Hc) as (c1 & Hc1 & E1 & E2 & E3 & E4 & E5).
  destruct (B5 c1 Hc1) as (c2 & Hc2 & F1 & F2 & F3 & F4 & F5).
  unfold release, holding, cpuid, r_tp. wsteps.
  { rewrite <- B2, A2. simpl. apply bool_decide_eq_true. congruence. }
  unfold wp. rewrite (pop_off_eq _ c2); rewrite ?cur_putlock; auto; [|lia|].
  2: { rewrite <- F4, E4. apply sie_clear. }
  rewrite (popped_pushed c c2); [|done| |done].
  2: { repeat split; simpl; try congruence. intros. rewrite <- F5, E5; [done|lia]. }
  repeat split; simpl; try congruence.
  - intros l'. destruct (decide (l' = l)) as [->|Hne].
    + now rewrite getlock_put_cur, getlock_put_eq, Hl.
    + rewrite getlock_put_cur, !getlock_put_ne by done. rewrite A3 by done. apply B2.
  - rewrite length_insert. congruence.
  - intros i Hne. rewrite list_lookup_insert_ne by congruence.
    rewrite A5 by done. apply B4. congruence.
  - intros c0 Hc0. rewrite Hc in Hc0. injection Hc0 as <-.
    eexists. split; [eapply cur_put_cur; eauto|]. repeat split; auto. simpl.
    intros Hn. rewrite <- F5, E5 by lia.
    destruct (Z.eqb_spec (noff c) 0); [lia|done].
Qed.

(** [release] in closed form, on its success path. *)
Lemma release_eq s l c :
  cur s = Some c -> 1 <= noff c <= 2147483647 -> Z.testbit (sstatus (csr c)) 1 = false ->
  getlock s l = Spinlock true (Some (hart s)) ->
  release l s = Ret tt (put_cur (popped c) (putlock l unlocked (putlock l (Spinlock true None) s))).
Proof.
  intros Hc Hn Hi Hl. apply wp_unit. unfold release, holding, cpuid, r_tp. wsteps.
  { rewrite Hl. simpl. now apply bool_decide_eq_true. }
  rewrite Hl. simpl locked. unfold wp. rewrite (pop_off_eq _ c); rewrite ?cur_putlock; auto.
Qed.

#[export] Instance lk_ok_Proper d : Proper (lk_eq ==> impl) (lk_ok d).
Proof.
  intros s s' (_ & _ & _ & _ & E) (c & Hc & H0 & Hd & Hs & Hi).
  destruct (E c Hc) as (c' & Hc' & _ & _ & F3 & F4 & _).
  exists c'. rewrite <- F3, <- F4. auto.
Qed.

Lemma lk_ok_mono d d' s : lk_ok d s -> d' <= d -> lk_ok d' s.
Proof. intros (c & ? & ? & ? & ?) ?. exists c. repeat split; try tauto; lia. Qed.
End Critical.

(** ** Several harts

    The atomic steps of [acquire] and [release], for every hart and every
    lock: [Spinning] is the exchange loop, [Won] the point between a
    successful exchange and [lk->cpu = mycpu()], [Leaving] the point
    between [lk->cpu = 0] and the store that frees the lock. *)

Module Harts.

Inductive phase : Type := Outside | Spinning | Won | Inside | Leaving.
#[export] Instance phase_eq_dec : EqDecision phase.
Proof. solve_decision. Defined.

Record sys : Type := Sys { locals : lockst; phases : gmap (Z * lockid) phase }.

Definition on (h : Z) (s : lockst) : lockst := Lockst h (cpus s) (locks s).
Definition ph (y : sys) (h : Z) (l : lockid) : phase := default Outside (phases y !! (h, l)).
Definition setph (h : Z) (l : lockid) (p : phase) (y : sys) : gmap (Z * lockid) phase :=
  <[(h, l) := p]> (phases y).

Inductive step : sys -> sys -> Prop :=
| step_enter h l y s' :
    ph y h l = Outside ->
    (do! push_off; let! b := holding l in check (negb b) "acquire") (on h (locals y)) = Ret tt s' ->
    step y (Sys s' (setph h l Spinning y))
| step_xchg h l y old s' :
    ph y h l = Spinning ->
    xchg_locked l (on h (locals y)) = Ret old s' ->
    step y (Sys s' (setph h l (if old then Spinning else Won) y))
| step_won h l y s' :
    ph y h l = Won ->
    (let! id := cpuid in modify (putlock l (Spinlock true (Some id)))) (on h (locals y)) = Ret tt s' ->
    step y (Sys s' (setph h l Inside y))
| step_leave h l y s' :
    ph y h l = Inside ->
    (let! b := holding l in
     do! check b "release";
     let! lk := gets (fun s => getlock s l) in
     modify (putlock l (Spinlock (locked lk) None))) (on h (locals y)) = Ret tt s' ->
    step y (Sys s' (setph h l Leaving y))
| step_free h l y s' :
    ph y h l = Leaving ->
    (do! modify (putlock l (Spinlock false None)); pop_off) (on h (locals y)) = Ret tt s' ->
    step y (Sys s' (setph h l Outside y)).

(** Booted: no lock is held, no hart is in a critical section. *)
Definition init (y : sys) : Prop :=
  (forall l, getlock (locals y) l = unlocked) /\ (forall h l, ph y h l = Outside).

Definition owns (p : phase) : Prop := p = Won \/ p = Inside \/ p = Leaving.

(** What the lock word says about the phases. *)
Definition lock_inv (y : sys) (l : lockid) : Prop :=
  (getlock (locals y) l = unlocked /\ forall h, ~ owns (ph y h l)) \/
  (exists h, getlock (locals y) l =
             Spinlock true (if decide (ph y h l = Inside) then Some h else None) /\
     owns (ph y h l) /\ forall h', h' <> h -> ~ owns (ph y h' l)).
Definition inv (y : sys) : Prop := forall l, lock_inv y l.

(** Only the lock a step works on changes. *)
Lemma locks_push_off s s' : push_off s = Ret tt s' -> locks s' = locks s.
Proof.
  unfold push_off, rc_sstatus, r_sstatus, w_sstatus, upd_cpu, mycpu, bind, orfault, modify, ret, fault.
  intros H. repeat (case_match; simpl in *; simplify_eq; try done).
Qed.
Lemma locks_pop_off s s' : pop_off s = Ret tt s' -> locks s' = locks s.
Proof.
  unfold pop_off, intr_get, intr_on, s_sstatus, r_sstatus, w_sstatus, upd_cpu, mycpu, bind, orfault,
    check, modify, ret, fault, panic.
  intros H. repeat (case_match; simpl in *; simplify_eq; try done).
Qed.

Lemma ph_set y s h l p h' l' :
  ph (Sys s (setph h l p y)) h' l' = if decide (h' = h /\ l' = l) then p else ph y h' l'.
Proof.
  unfold ph, setph. simpl. case_decide as E.
  - destruct E as [-> ->]. now rewrite lookup_insert_eq.
  - rewrite lookup_insert_ne; [done|]. intros [=]; subst; tauto.
Qed.

(** A step of hart [h] on [l] that leaves the other locks alone keeps
    their invariants. *)
Lemma lock_inv_frame y s h l p l' :
  l' <> l -> getlock s l' = getlock (locals y) l' ->
  lock_inv y l' -> lock_inv (Sys s (setph h l p y)) l'.
Proof.
  intros Hne Hg. unfold lock_inv. simpl. rewrite Hg.
  assert (forall h', ph (Sys s (setph h l p y)) h' l' = ph y h' l') as E.
  { intros h'. rewrite ph_set. case_decide; [tauto|done]. }
  intros [[H1 H2]|(h0 & H1 & H2 & H3)]; [left|right; exists h0].
  - split; [done|]. intros h'. rewrite E. apply H2.
  - rewrite (E h0). repeat split; auto. intros h' Hh'. rewrite E. now apply H3.
Qed.

Lemma getlock_on h s l : getlock (on h s) l = getlock s l.
Proof. done. Qed.

Lemma getlock_locks s s' l : locks s' = locks s -> getlock s' l = getlock s l.
Proof. unfold getlock. now intros ->. Qed.
(** Establishing the invariant of the lock a step worked on. *)
Lemma lock_inv_free y s h l p :
  getlock s l = unlocked -> ~ owns p -> (forall h', h' <> h -> ~ owns (ph y h' l)) ->
  lock_inv (Sys s (setph h l p y)) l.
Proof.
  intros Hg Hp Hh. left. split; [done|]. intros h'. rewrite ph_set.
  case_decide as E; [done|]. apply Hh. tauto.
Qed.

Lemma lock_inv_own y s h l p :
  getlock s l = Spinlock true (if decide (p = Inside) then Some h else None) -> owns p ->
  (forall h', h' <> h -> ~ owns (ph y h' l)) -> lock_inv (Sys s (setph h l p y)) l.
Proof.
  intros Hg Hp Hh. right. exists h.
  assert (ph (Sys s (setph h l p y)) h l = p) as -> by (rewrite ph_set; now rewrite decide_True).
  split; [done|]. split; [done|]. intros h' Hh'.
  rewrite ph_set, decide_False by tauto. auto.
Qed.

(** A step of a hart that does not own [l] and keeps its word. *)
Lemma lock_inv_wait y s h l p :
  getlock s l = getlock (locals y) l -> ~ owns (ph y h l) -> ~ owns p -> lock_inv y l ->
  lock_inv (Sys s (setph h l p y)) l.
Proof.
  intros Hg Hn Hp [[H1 H2]|(h0 & H1 & H2 & H3)].
  - apply lock_inv_free; auto. congruence.
  - right. exists h0.
    assert (h0 <> h) as Hne by (intros ->; done).
    assert (ph (Sys s (setph h l p y)) h0 l = ph y h0 l) as ->
      by (rewrite ph_set; now rewrite decide_False by tauto).
    simpl. rewrite Hg. split; [done|]. split; [done|].
    intros h' Hh'. rewrite ph_set. destruct (decide (h' = h /\ l = l)); auto.
Qed.

(** Who owns [l] when the phase of [h] says it does. *)
Lemma lock_inv_owner y h l :
  lock_inv y l -> owns (ph y h l) ->
  getlock (locals y) l = Spinlock true (if decide (ph y h l = Inside) then Some h else None) /\
  forall h', h' <> h -> ~ owns (ph y h' l).
Proof.
  intros [[H1 H2]|(h0 & H1 & H2 & H3)] Ho; [now apply H2 in Ho|].
  destruct (decide (h = h0)) as [->|Hne]; [auto|]. now apply H3 in Ho.
Qed.

Lemma not_owns_Outside : ~ owns Outside.
Proof. unfold owns. intuition congruence. Qed.
Lemma not_owns_Spinning : ~ owns Spinning.
Proof. unfold owns. intuition congruence. Qed.
#[local] Hint Resolve not_owns_Outside not_owns_Spinning : kernel.

Lemma step_inv y y' : inv y -> step y y' -> inv y'.
Proof.
  intros Hinv Hs l'.
  destruct Hs as [h l y s' Hp Hrun|h l y old s' Hp Hrun|h l y s' Hp Hrun|h l y s' Hp Hrun|h l y s' Hp Hrun].
  - (* enter *)
    assert (forall l0, getlock s' l0 = getlock (locals y) l0) as Hg.
    { intros l0. revert Hrun. unfold bind. destruct (push_off _) as [[] s1| | | |] eqn:E; simpl; try done.
      apply locks_push_off in E. unfold holding, cpuid, r_tp, bind, gets, ret, check. simpl.
      case_match; [|done]. intros [= <-]. now rewrite (getlock_locks _ _ l0 E). }
    destruct (decide (l' = l)) as [->|Hne]; [|now apply lock_inv_frame].
    apply lock_inv_wait; rewrite ?Hp; auto with kernel.
  - (* exchange *)
    unfold xchg_locked in Hrun. injection Hrun as <- <-. rewrite getlock_on.
    destruct (decide (l' = l)) as [->|Hne].
    2: { apply lock_inv_frame; auto. now rewrite getlock_put_ne. }
    destruct (Hinv l) as [[H1 H2]|(h0 & H1 & H2 & H3)]; rewrite H1; simpl.
    + apply lock_inv_own; [now rewrite getlock_put_eq|now left|auto].
    + apply lock_inv_wait; auto with kernel; [|rewrite Hp; auto with kernel].
      now rewrite getlock_put_eq, H1.
  - (* record the owner *)
    injection Hrun as <-. simpl.
    destruct (decide (l' = l)) as [->|Hne].
    2: { apply lock_inv_frame; auto. now rewrite getlock_put_ne. }
    destruct (lock_inv_owner y h l) as [H1 H2]; auto; [rewrite Hp; now left|].
    apply lock_inv_own; auto; [now rewrite getlock_put_eq|right; now left].
  - (* clear the owner *)
    revert Hrun. unfold bind, holding, cpuid, r_tp, bind, gets, ret, check, modify. simpl.
    case_match; [|done]. intros [= <-].
    destruct (decide (l' = l)) as [->|Hne].
    2: { apply lock_inv_frame; auto. now rewrite getlock_put_ne. }
    destruct (lock_inv_owner y h l) as [H1 H2]; auto; [rewrite Hp; right; now left|].
    apply lock_inv_own; auto; [|right; now right].
    rewrite getlock_put_eq, getlock_on, H1. done.
  - (* free *)
    assert (forall l0, getlock s' l0 = if decide (l0 = l) then unlocked else getlock (locals y) l0) as Hg.
    { intros l0. revert Hrun. unfold bind, modify. simpl. intros Hrun.
      apply locks_pop_off in Hrun. rewrite (getlock_locks _ _ _ Hrun).
      case_decide; subst; [apply getlock_put_eq|now rewrite getlock_put_ne]. }
    destruct (decide (l' = l)) as [->|Hne].
    2: { apply lock_inv_frame; auto. now rewrite Hg, decide_False. }
    destruct (lock_inv_owner y h l) as [H1 H2]; auto; [rewrite Hp; right; now right|].
    apply lock_inv_free; auto with kernel. now rewrite Hg, decide_True.
Qed.

Lemma init_inv y : init y -> inv y.
Proof.
  intros [H1 H2] l. left. split; [apply H1|]. intros h. rewrite H2. auto with kernel.
Qed.

Lemma reachable_inv y y' : init y -> rtc step y y' -> inv y'.
Proof.
  intros Hi Hr. apply init_inv in Hi. induction Hr; eauto using step_inv.
Qed.

(** C4: mutual exclusion.  In every state that any number of harts reach by
    interleaving the atomic steps of [acquire] and [release], at most one
    hart is between the successful exchange on a lock and the store that
    frees it, and [holding] called on a hart answers 1 exactly when that
    hart is inside the critical section. *)
Theorem mutual_exclusion y y' l h h' :
  init y -> rtc step y y' ->
  (owns (ph y' h l) -> owns (ph y' h' l) -> h = h') /\
  exists b, holding l (on h (locals y')) = Ret b (on h (locals y')) /\
            (b = true <-> ph y' h l = Inside).
Proof.
  intros Hi Hr. pose proof (reachable_inv y y' Hi Hr l) as Hl. split.
  - intros H H'. destruct (lock_inv_owner y' h l) as [_ Hu]; auto.
    destruct (decide (h' = h)); [done|]. now apply Hu in H'.
  - exists (locked (getlock (locals y') l) && bool_decide (lcpu (getlock (locals y') l) = Some h)).
    split; [reflexivity|].
    rewrite andb_true_iff, bool_decide_eq_true.
    destruct Hl as [[H1 H2]|(h0 & H1 & H2 & H3)]; rewrite H1; simpl.
    + split; [intros [[=] _]|]. intros E. exfalso. apply (H2 h). rewrite E. right. now left.
    + destruct (decide (ph y' h0 l = Inside)) as [E|E].
      * split; [intros [_ [= ->]]; done|]. intros E'. split; [done|].
        destruct (decide (h = h0)); [congruence|].
        exfalso. apply (H3 h); auto. rewrite E'. right. now left.
      * split; [intros [_ [=]]|]. intros E'. exfalso.
        destruct (decide (h = h0)) as [->|]; [done|].
        apply (H3 h); auto. rewrite E'. right. now left.
Qed.

Definition cpu0 : cpu := Cpu None (Context_ 0 0 []) 0 0 (Csrs 2 0 0 0 0 0 0 0).
Definition boot : sys := Sys (Lockst 0 [cpu0; cpu0] ∅) ∅.

(** Hart 0 gets inside [ref.lock] while hart 1 spins on it. *)
Lemma mutual_exclusion_witness :
  exists y', rtc step boot y' /\ ph y' 0 Lref = Inside /\ ph y' 1 Lref = Spinning /\
    exists b, holding Lref (on 1 (locals y')) = Ret b (on 1 (locals y')) /\
              (b = true <-> ph y' 1 Lref = Inside).
Proof.
  eexists.
  match goal with |- rtc step boot ?y /\ _ => assert (rtc step boot y) as Hr end.
  { eapply rtc_l; [apply (step_enter 0 Lref); vm_compute; reflexivity|].
    eapply rtc_l; [apply (step_enter 1 Lref); vm_compute; reflexivity|].
    eapply rtc_l; [eapply (step_xchg 0 Lref); vm_compute; reflexivity|].
    eapply rtc_l; [eapply (step_xchg 1 Lref); vm_compute; reflexivity|].
    eapply rtc_l; [eapply (step_won 0 Lref); vm_compute; reflexivity|].
    apply rtc_refl. }
  split; [exact Hr|]. split; [vm_compute; reflexivity|]. split; [vm_compute; reflexivity|].
  apply (mutual_exclusion boot _ Lref 1 1); [|exact Hr].
  split; intros; reflexivity.
Defined.
End Harts.

(** Nesting of [push_off] and [pop_off].  After [n > 0] calls of
    [push_off] interrupts are off; [n] calls of [pop_off] then all return
    and restore the interrupt-enable bit and the nesting depth the hart
    started with, whether interrupts were on or off. *)
Theorem push_pop_balanced n s :
  lk_ok (Z.of_nat n) s ->
  (n <> O -> wp (mrepeat n push_off) (fun _ s' => intr_get s' = Ret false s') s) /\
  wp (do! mrepeat n push_off; mrepeat n pop_off) (fun _ s' => lk_eq s s') s.
Proof.
  revert s. induction n as [|n IH]; intros s Hok.
  - split; [done|]. apply wp_bind. simpl. apply wp_ret, wp_ret. reflexivity.
  - destruct Hok as (c & Hc & H0 & Hd & Hs & Hi).
    pose proof (push_off_eq s c Hc ltac:(lia)) as Hp.
    set (s1 := put_cur (pushed c) s) in *.
    assert (cur s1 = Some (pushed c)) as Hc1 by (eapply cur_put_cur; eauto).
    assert (lk_ok (Z.of_nat n) s1) as Hok1.
    { exists (pushed c). split; [done|]. simpl. repeat split; try lia.
      - now apply ldiff_nonneg.
      - intros _. apply sie_clear. }
    destruct (IH s1 Hok1) as [IH1 IH2]. split.
    + intros _. simpl. apply wp_bind. unfold wp at 1. rewrite Hp.
      destruct n as [|n]; [|now apply IH1].
      simpl. unfold wp, ret, intr_get, r_sstatus, mycpu, bind. rewrite Hc1. simpl.
      unfold SSTATUS_SIE. rewrite has_bit by lia. now rewrite sie_clear.
    + apply wp_bind. simpl. apply wp_bind. unfold wp at 1. rewrite Hp.
      apply wp_bind_inv in IH2. eapply wp_mono; [exact IH2|]. intros [] s2 H2.
      apply wp_mrepeat_last. eapply wp_mono; [exact H2|]. intros [] s3 H3.
      apply (pop_off_spec s s1 s3 (Z.of_nat (S n))); auto; [|lia].
      exists c. auto.
Qed.

Definition hart0 : lockst := Lockst 0 [Harts.cpu0] ∅.
Lemma push_pop_balanced_witness :
  wp (do! mrepeat 3 push_off; mrepeat 3 pop_off) (fun _ s' => lk_eq hart0 s') hart0.
Proof.
  apply (push_pop_balanced 3 hart0).
  exists Harts.cpu0. repeat split; simpl; try lia.
Defined.
