(* ===== verification/Kstring.v ===== *)
(** * String and memory routines (kernel/string.c)

    [memset], [memcmp] and [memmove] run on physical memory; the string
    routines run on the char arrays that hold them, as lists of bytes.
    Reading past the end of an array is an error ([None]). *)

From S2P Require Import Prelude.
From S2P Require Import Mach.

Definition memset (dst c n : Z) : M mach Z :=
  do! mloop (Z.to_nat n) 0 1 (fun i => st8 (dst + i) c);
  ret dst.

Definition memmove (dst src n : Z) : M mach Z :=
  if n =? 0 then ret dst
  else
    let copy i := let! b := ld8 (src + i) in st8 (dst + i) b in
    do! (if (src <? dst) && (dst <? src + n)
         then mloop (Z.to_nat n) (n - 1) (-1) copy
         else mloop (Z.to_nat n) 0 1 copy);
    ret dst.

Definition memcpy (dst src n : Z) : M mach Z := memmove dst src n.

Definition memcmp (v1 v2 n : Z) : M mach Z :=
  let! r := mfor (Z.to_nat n) 0 1 (fun i =>
    let! c1 := ld8 (v1 + i) in
    let! c2 := ld8 (v2 + i) in
    ret (if c1 =? c2 then None else Some (c1 - c2))) in
  ret (default 0 r).

Fixpoint strncmp (p q : list Z) (n : nat) {struct n} : option Z :=
  match n with
  | O => Some 0
  | S n' =>
    match p, q with
    | c :: p', d :: q' =>
      if negb (c =? 0) && (c =? d) then strncmp p' q' n' else Some (c - d)
    | _, _ => None
    end
  end.

(** The [n] bytes [strncpy(s, t, n)] stores at [s]. *)
Fixpoint strncpy (t : list Z) (n : nat) {struct n} : option (list Z) :=
  match n with
  | O => Some []
  | S n' =>
    match t with
    | [] => None
    | c :: t' => if c =? 0 then Some (0 :: replicate n' 0)
                 else match strncpy t' n' with Some r => Some (c :: r) | None => None end
    end
  end.

(** The bytes [safestrcpy] stores; [k] is [n - 1]. *)
Fixpoint safestrcpy_loop (t : list Z) (k : nat) {struct k} : option (list Z) :=
  match k with
  | O => Some [0]
  | S k' =>
    match t with
    | [] => None
    | c :: t' => if c =? 0 then Some [0; 0]
                 else match safestrcpy_loop t' k' with Some r => Some (c :: r) | None => None end
    end
  end.

Definition safestrcpy (s t : list Z) (n : Z) : option (list Z) :=
  if n <=? 0 then Some s
  else match safestrcpy_loop t (Z.to_nat (n - 1)) with
       | Some w => Some (w ++ drop (length w) s)
       | None => None
       end.

Fixpoint strlen (s : list Z) : option Z :=
  match s with
  | [] => None
  | c :: s' => if c =? 0 then Some 0
               else match strlen s' with Some n => Some (n + 1) | None => None end
  end.

(** ** Specifications *)

(** The string a char array holds: up to the first NUL. *)
Fixpoint cstr (s : list Z) : list Z :=
  match s with [] => [] | c :: s' => if c =? 0 then [] else c :: cstr s' end.

(** The array has a NUL. *)
Definition terminated (s : list Z) : Prop := 0 ∈ s.

(** ** Lemmas *)

(** States that differ only in memory. *)
Lemma set_ram_set_ram m m' s : set_ram m (set_ram m' s) = set_ram m s.
Proof. done. Qed.
Lemma set_ram_id s : set_ram (ram s) s = s.
Proof. now destruct s. Qed.

Lemma memset_spec dst c n s :
  0 <= n -> KERNBASE <= dst -> dst + n <= PHYSTOP ->
  wp (memset dst c n) (fun r s' => r = dst /\ exists m, s' = set_ram m s /\
    forall a, rd m a = if decide (dst <= a < dst + n) then u8 c else rd (ram s) a) s.
Proof.
  intros Hn Hlo Hhi. unfold memset. apply wp_bind.
  eapply wp_mono.
  - apply (wp_mloop (fun k s' => exists m, s' = set_ram m s /\
      forall a, rd m a = if decide (dst <= a < dst + Z.of_nat k) then u8 c else rd (ram s) a)).
    + exists (ram s). split; [now rewrite set_ram_id|]. intros a. rewrite decide_False; [done|lia].
    + intros k s' Hk (m & -> & Hm). apply wp_st8; [lia|].
      exists (wr m (dst + (0 + Z.of_nat k * 1)) c). split; [done|].
      intros a. rewrite rd_wr, Hm. repeat case_decide; try done; lia.
  - intros [] s' (m & -> & Hm). apply wp_ret. split; [done|]. exists m. split; [done|].
    intros a. rewrite Hm. repeat case_decide; try done; lia.
Qed.

(** [memmove] is a simultaneous copy, overlap or not. *)
Lemma memmove_loop_spec dst src n s :
  0 <= n -> KERNBASE <= dst -> dst + n <= PHYSTOP -> KERNBASE <= src -> src + n <= PHYSTOP ->
  wp (memmove dst src n) (fun r s' => r = dst /\ exists m, s' = set_ram m s /\
    forall a, rd m a = if decide (dst <= a < dst + n) then rd (ram s) (src + (a - dst))
                       else rd (ram s) a) s.
Proof.
  intros Hn Hlo Hhi Hlo' Hhi'. unfold memmove.
  destruct (Z.eqb_spec n 0) as [->|Hn0].
  { apply wp_ret. split; [done|]. exists (ram s). split; [now rewrite set_ram_id|].
    intros a. rewrite decide_False; [done|lia]. }
  apply wp_bind.
  destruct ((src <? dst) && (dst <? src + n)) eqn:Eo.
  - apply andb_true_iff in Eo as [E1%Z.ltb_lt E2%Z.ltb_lt].
    eapply wp_mono.
    + apply (wp_mloop (fun k s' => exists m, s' = set_ram m s /\ forall a, rd m a =
        if decide (dst + n - Z.of_nat k <= a < dst + n) then rd (ram s) (src + (a - dst))
        else rd (ram s) a)).
      * exists (ram s). split; [now rewrite set_ram_id|]. intros a. rewrite decide_False; [done|lia].
      * intros k s' Hk (m & -> & Hm). wsteps. apply wp_ld8; [lia|]. apply wp_st8; [lia|].
        eexists. split; [reflexivity|]. intros a.
        rewrite rd_wr, !Hm. simpl.
        replace (n - 1 + Z.of_nat k * -1) with (n - 1 - Z.of_nat k) by lia.
        rewrite (decide_False (P := _ <= src + _ < _)) by lia.
        case_decide as Ea; [subst a|].
        -- rewrite decide_True by lia. rewrite u8_small by apply rd_range. f_equal; lia.
        -- repeat case_decide; try done; lia.
    + intros [] s' (m & -> & Hm). apply wp_ret. split; [done|]. exists m. split; [done|].
      intros a. rewrite Hm. repeat case_decide; try done; lia.
  - assert (dst <= src \/ src + n <= dst) as Ho.
    { apply andb_false_iff in Eo as [?%Z.ltb_ge|?%Z.ltb_ge]; lia. }
    eapply wp_mono.
    + apply (wp_mloop (fun k s' => exists m, s' = set_ram m s /\ forall a, rd m a =
        if decide (dst <= a < dst + Z.of_nat k) then rd (ram s) (src + (a - dst))
        else rd (ram s) a)).
      * exists (ram s). split; [now rewrite set_ram_id|]. intros a. rewrite decide_False; [done|lia].
      * intros k s' Hk (m & -> & Hm). wsteps. apply wp_ld8; [lia|]. apply wp_st8; [lia|].
        eexists. split; [reflexivity|]. intros a.
        rewrite rd_wr, !Hm. simpl.
        replace (0 + Z.of_nat k * 1) with (Z.of_nat k) by lia.
        rewrite (decide_False (P := _ <= src + _ < _)) by lia.
        case_decide as Ea; [subst a|].
        -- rewrite decide_True by lia. rewrite u8_small by apply rd_range. f_equal; lia.
        -- repeat case_decide; try done; lia.
    + intros [] s' (m & -> & Hm). apply wp_ret. split; [done|]. exists m. split; [done|].
      intros a. rewrite Hm. repeat case_decide; try done; lia.
Qed.

(** A char array that [n]-bounded string routines can read. *)
Definition readable (n : nat) (s : list Z) : Prop := (n <= length s)%nat \/ terminated s.

Lemma readable_cons n c s : c <> 0 -> readable (S n) (c :: s) -> readable n s.
Proof.
  intros Hc [H|H]; [left; simpl in H; lia|right].
  unfold terminated in *. apply elem_of_cons in H as [H|H]; [congruence|done].
Qed.

Lemma readable_nil n : ~ readable (S n) [].
Proof. intros [H|H]; [simpl in H; lia|]. now apply not_elem_of_nil in H. Qed.

Lemma strncmp_spec n p q :
  readable n p -> readable n q ->
  exists r, strncmp p q n = Some r /\ (r = 0 <-> cstr (take n p) = cstr (take n q)).
Proof.
  revert p q. induction n as [|n IH]; intros p q Hp Hq; [exists 0; split; [done|]; rewrite !take_0; tauto|].
  destruct p as [|c p]; [now apply readable_nil in Hp|].
  destruct q as [|d q]; [now apply readable_nil in Hq|]. simpl.
  destruct (Z.eqb_spec c 0) as [->|Hc]; simpl.
  - exists (0 - d). split; [done|]. destruct (Z.eqb_spec d 0); split; try done; lia.
  - destruct (Z.eqb_spec c d) as [->|Hcd]; simpl.
    + destruct (IH p q) as (r & Hr & E); [now apply (readable_cons n d)..|].
      exists r. split; [done|]. destruct (Z.eqb_spec d 0); [done|].
      rewrite E. split; [congruence|]. now intros [= ?].
    + exists (c - d). split; [done|]. destruct (Z.eqb_spec d 0); split; intros; try lia; congruence.
Qed.

Lemma cstr_zeros n : cstr (replicate n 0) = [].
Proof. now destruct n. Qed.

Lemma strncpy_spec n t :
  readable n t ->
  exists d, strncpy t n = Some d /\ length d = n /\ cstr d = cstr (take n t).
Proof.
  revert t. induction n as [|n IH]; intros t Ht; [exists []; rewrite take_0; done|].
  destruct t as [|c t]; [now apply readable_nil in Ht|]. simpl.
  destruct (Z.eqb_spec c 0) as [->|Hc].
  - exists (0 :: replicate n 0). simpl. rewrite length_replicate. done.
  - destruct (IH t) as (d & -> & Hl & Hs); [now apply (readable_cons n c)|].
    exists (c :: d). simpl. destruct (Z.eqb_spec c 0); [done|]. rewrite Hl, Hs. done.
Qed.

Lemma safestrcpy_loop_spec k t :
  readable k t ->
  exists w, safestrcpy_loop t k = Some w /\ (length w <= S k)%nat /\
    exists pad, w = take k (cstr t) ++ 0 :: pad.
Proof.
  revert t. induction k as [|k IH]; intros t Ht.
  { exists [0]. repeat split; auto. now exists []. }
  destruct t as [|c t]; [now apply readable_nil in Ht|]. simpl.
  destruct (Z.eqb_spec c 0) as [->|Hc].
  - exists [0; 0]. simpl. repeat split; [lia|]. now exists [0].
  - destruct (IH t) as (w & -> & Hl & pad & ->); [now apply (readable_cons k c)|].
    eexists. split; [done|]. split; [simpl in *; lia|]. now exists pad.
Qed.

Lemma cstr_app_nul s pad : ~ 0 ∈ s -> cstr (s ++ 0 :: pad) = s.
Proof.
  induction s as [|c s IH]; intros H; simpl; [done|].
  rewrite elem_of_cons in H. destruct (Z.eqb_spec c 0) as [->|]; [tauto|].
  rewrite IH; tauto.
Qed.

Lemma cstr_no_nul s : ~ 0 ∈ cstr s.
Proof.
  induction s as [|c s IH]; simpl; [apply not_elem_of_nil|].
  destruct (Z.eqb_spec c 0); [apply not_elem_of_nil|]. rewrite elem_of_cons.
  intros [H|H]; [lia|tauto].
Qed.

Lemma cstr_id s : ~ 0 ∈ s -> cstr s = s.
Proof.
  induction s as [|x s IH]; intros H; simpl; [done|]. apply not_elem_of_cons in H as [Hx H].
  rewrite (proj2 (Z.eqb_neq x 0)) by lia. now rewrite IH.
Qed.
Lemma take_no_nul k s : ~ 0 ∈ s -> ~ 0 ∈ take k s.
Proof.
  intros H Hin. apply H. rewrite <- (take_drop k s), elem_of_app. now left.
Qed.

Lemma strlen_spec s : terminated s -> strlen s = Some (Z.of_nat (length (cstr s))).
Proof.
  unfold terminated. induction s as [|c s IH]; intros H; [now apply not_elem_of_nil in H|].
  simpl. destruct (Z.eqb_spec c 0) as [|Hc]; [done|].
  apply elem_of_cons in H as [H|H]; [congruence|]. rewrite IH by done. simpl. f_equal. lia.
Qed.

(** ** Properties *)

(** [memmove] is a simultaneous copy.  For ranges in RAM, however they
    overlap, the forward or backward byte loop leaves in the destination
    the bytes the source had before the call, changes no other byte and
    nothing but memory, and returns [dst]. *)
Theorem memmove_overlap dst src n s :
  0 <= n -> KERNBASE <= dst -> dst + n <= PHYSTOP -> KERNBASE <= src -> src + n <= PHYSTOP ->
  wp (memmove dst src n) (fun r s' => r = dst /\ exists m, s' = set_ram m s /\
    forall a, rd m a = if decide (dst <= a < dst + n) then rd (ram s) (src + (a - dst))
                       else rd (ram s) a) s.
Proof. apply memmove_loop_spec. Qed.

Definition mach0 : mach :=
  Mach (Lockst 0 [] ∅) (wr (wr (wr ∅ KERNBASE 7) (KERNBASE + 1) 8) (KERNBASE + 2) 9)
       [] ∅ [] 1 None 0.
Lemma memmove_overlap_witness :
  wp (memmove (KERNBASE + 1) KERNBASE 3) (fun r s' => r = KERNBASE + 1 /\
    exists m, s' = set_ram m mach0 /\ forall a, rd m a =
      if decide (KERNBASE + 1 <= a < KERNBASE + 1 + 3)
      then rd (ram mach0) (KERNBASE + (a - (KERNBASE + 1))) else rd (ram mach0) a) mach0.
Proof. apply (memmove_overlap (KERNBASE + 1) KERNBASE 3 mach0); lia. Defined.

(** Directory names survive [strncpy] and are recognised by [strncmp].
    [strncpy] fills exactly [n] bytes with the name cut at [n]; comparing
    a name with the stored bytes gives 0 exactly for names that agree up
    to a NUL or [n] bytes, so a stored name compares equal to itself. *)
Theorem strncpy_strncmp n t u :
  readable n t -> readable n u ->
  exists d r, strncpy t n = Some d /\ length d = n /\ strncmp u d n = Some r /\
    (r = 0 <-> cstr (take n u) = cstr (take n t)).
Proof.
  intros Ht Hu. destruct (strncpy_spec n t Ht) as (d & Hd & Hl & Hs).
  destruct (strncmp_spec n u d Hu) as (r & Hr & E); [left; lia|].
  exists d, r. rewrite E, (take_ge d), Hs by lia. repeat split; auto.
Qed.
Lemma strncpy_strncmp_witness :
  exists d r, strncpy [97; 98; 0] 14 = Some d /\ length d = 14%nat /\
    strncmp [97; 0] d 14 = Some r /\ (r = 0 <-> cstr (take 14 [97; 0]) = cstr (take 14 [97; 98; 0])).
Proof.
  apply (strncpy_strncmp 14 [97; 98; 0] [97; 0]); right; unfold terminated;
    repeat (constructor; fail || (apply list_elem_of_In; simpl; tauto)).
Defined.

(** [safestrcpy] always terminates its destination.  For [0 < n] and a
    destination of [n] bytes or more, it writes at most [n] bytes, keeps
    the array's length, and leaves in it the source string cut to [n - 1]
    characters followed by a NUL. *)
Theorem safestrcpy_terminates d t n :
  0 < n -> n <= Z.of_nat (length d) -> readable (Z.to_nat (n - 1)) t ->
  exists d', safestrcpy d t n = Some d' /\ length d' = length d /\
    drop (Z.to_nat n) d' = drop (Z.to_nat n) d /\
    cstr d' = take (Z.to_nat (n - 1)) (cstr t) /\ terminated (take (Z.to_nat n) d').
Proof.
  intros Hn Hd Ht. unfold safestrcpy. destruct (Z.leb_spec n 0); [lia|].
  destruct (safestrcpy_loop_spec _ _ Ht) as (w & -> & Hl & pad & Hw).
  eexists. split; [done|].
  assert (length (take (Z.to_nat (n - 1)) (cstr t)) < length w)%nat as Hlen.
  { rewrite Hw, length_app. simpl. lia. }
  repeat split.
  - rewrite length_app, length_drop. lia.
  - rewrite drop_app_ge, drop_drop by lia. f_equal. lia.
  - rewrite Hw at 1. rewrite <- app_assoc. simpl. apply cstr_app_nul, take_no_nul, cstr_no_nul.
  - unfold terminated. rewrite take_app_ge by lia. apply elem_of_app. left.
    rewrite Hw. apply elem_of_app. right. left.
Qed.
Lemma safestrcpy_terminates_witness :
  exists d', safestrcpy [9; 9; 9; 9] [97; 98; 99; 100; 101; 0] 3 = Some d' /\ length d' = 4%nat /\
    drop 3 d' = drop 3 [9; 9; 9; 9] /\
    cstr d' = take 2 (cstr [97; 98; 99; 100; 101; 0]) /\ terminated (take 3 d').
Proof.
  apply (safestrcpy_terminates [9; 9; 9; 9] [97; 98; 99; 100; 101; 0] 3); [lia|simpl; lia|].
  left. simpl. lia.
Defined.
