(* ===== verification/Kalloc.v ===== *)
(** * The physical page allocator (kernel/kalloc.c)

    Per-CPU free lists threaded through the free pages themselves, with
    stealing, and the copy-on-write reference counts. *)

From S2P Require Import Prelude.
From S2P Require Import Mach.
From S2P Require Import Spinlock.
From S2P Require Import Kstring.

(** Lock operations on the whole machine state. *)
Definition lk {A : Type} (m : M lockst A) : M mach A := zoom lks_lens m.

(** [ref.refcnt[]] has [(PHYSTOP - KERNBASE) / PGSIZE] entries. *)
Definition NREF : Z := (PHYSTOP - KERNBASE) / PGSIZE.
Definition refidx (pa : Z) : Z := u64 (pa - KERNBASE) / PGSIZE.
Definition ref_get (i : Z) : M mach Z := fun s =>
  if (0 <=? i) && (i <? NREF) then Ret (default 0 (refcnt s !! i)) s else Fault.
Definition ref_set (i v : Z) : M mach unit := fun s =>
  if (0 <=? i) && (i <? NREF) then Ret tt (set_refcnt (<[i := v]> (refcnt s)) s) else Fault.

(** [kmem[cpu].freelist]. *)
Definition head_get (cpu : Z) : M mach Z := fun s =>
  if 0 <=? cpu then orfault (freelist s !! Z.to_nat cpu) s else Fault.
Definition head_set (cpu v : Z) : M mach unit := fun s =>
  if (0 <=? cpu) && (Z.to_nat cpu <? length (freelist s))%nat
  then Ret tt (set_freelist (<[Z.to_nat cpu := v]> (freelist s)) s) else Fault.

Section Kalloc.
Context {L : Layout}.

Definition kfree (pa : Z) : M mach unit :=
  do! check (negb (negb (pa mod PGSIZE =? 0) || (pa <? end_) || (PHYSTOP <=? pa))) "kfree";
  do! memset pa 1 PGSIZE;
  do! lk (acquire Lref);
  let! c := ref_get (refidx pa) in
  do! check (negb (c <=? 0)) "kfree";
  do! ref_set (refidx pa) (i32 (c - 1));
  let! c := ref_get (refidx pa) in
  if 0 <? c then lk (release Lref)
  else
    do! lk (release Lref);
    do! lk push_off;
    let! cpu := lk cpuid in
    do! lk (acquire (Lkmem (Z.to_nat cpu)));
    let! h := head_get cpu in
    do! st64 pa h;
    do! head_set cpu pa;
    do! lk (release (Lkmem (Z.to_nat cpu)));
    lk pop_off.

(** The loop body is the assignment alone: without braces, [kfree(p)]
    runs once, after the loop. *)
Definition freerange (pa_start pa_end : Z) : M mach unit :=
  let! r := mwhile (R := Empty_set) (Z.to_nat NREF) (fun p => p + PGSIZE <=? pa_end)
    (fun p => p + PGSIZE)
    (fun p => do! ref_set (refidx p) 1; ret None) (PGROUNDUP pa_start) in
  match r with inl p => kfree p | inr e => match e with end end.

Definition kinit : M mach unit :=
  do! mloop (Z.to_nat NCPU) 0 1 (fun i => lk (initlock (Lkmem (Z.to_nat i))));
  do! lk (initlock Lref);
  freerange end_ PHYSTOP.

(** Pop the head of one CPU's list, under its lock. *)
Definition pop_freelist (cpu : Z) : M mach Z :=
  do! lk (acquire (Lkmem (Z.to_nat cpu)));
  let! r := head_get cpu in
  do! (if r =? 0 then ret tt else let! nxt := ld64 r in head_set cpu nxt);
  do! lk (release (Lkmem (Z.to_nat cpu)));
  ret r.

Definition ksteal (cpu : Z) : M mach Z :=
  let! r := mfor (Z.to_nat (NCPU - 1)) 1 1 (fun i =>
    let next_cpu := (cpu + i) mod NCPU in
    let! r := pop_freelist next_cpu in
    ret (if r =? 0 then None else Some r)) in
  ret (default 0 r).

Definition kalloc : M mach Z :=
  do! lk push_off;
  let! cpu := lk cpuid in
  let! r := pop_freelist cpu in
  let! r := (if r =? 0 then ksteal cpu else ret r) in
  do! (if r =? 0 then ret tt else do! memset r 5 PGSIZE; ret tt);
  do! lk (acquire Lref);
  do! ref_set (refidx r) 1;
  do! lk (release Lref);
  do! lk pop_off;
  ret r.

Definition kaddref (pa : Z) : M mach unit :=
  do! lk (acquire Lref);
  let! c := ref_get (refidx pa) in
  do! ref_set (refidx pa) (i32 (c + 1));
  lk (release Lref).

Definition kref (pa : Z) : M mach Z :=
  do! lk (acquire Lref);
  let! c := ref_get (refidx pa) in
  do! lk (release Lref);
  ret c.
End Kalloc.

(** ** Critical sections on the machine state *)

Section Locks.
Implicit Types (s : mach) (l : lockid).

Lemma wp_lk {A : Type} (m : M lockst A) (Q : A -> mach -> Prop) s :
  wp m (fun a t => Q a (set_lks t s)) (lks s) -> wp (lk m) Q s.
Proof. unfold wp, lk, zoom. simpl. destruct (m (lks s)); simpl; tauto. Qed.

Lemma wp_acquire l d (Q : unit -> mach -> Prop) s :
  lk_ok d (lks s) -> 1 <= d -> getlock (lks s) l = unlocked ->
  (forall K, lk_ok (d - 1) K -> acquired l (lks s) K -> Q tt (set_lks K s)) ->
  wp (lk (acquire l)) Q s.
Proof.
  intros Hok Hd Hl HQ. apply wp_lk. eapply wp_mono.
  - apply (acquire_spec _ l d); auto. now rewrite Hl.
  - intros [] K [H1 H2]. now apply HQ.
Qed.

Lemma wp_release l d K0 K1 (Q : unit -> mach -> Prop) s :
  lk_ok d K0 -> 1 <= d -> getlock K0 l = unlocked -> acquired l K0 K1 -> lk_eq K1 (lks s) ->
  (forall K, lk_eq K0 K -> Q tt (set_lks K s)) ->
  wp (lk (release l)) Q s.
Proof.
  intros Hok Hd Hl Ha He HQ. apply wp_lk. eapply wp_mono.
  - eapply (release_spec K0 K1 _ l d); eauto; [lia|now rewrite Hl].
  - intros [] K H. now apply HQ.
Qed.

Lemma push_off_spec d K :
  lk_ok d K -> 1 <= d ->
  exists K', push_off K = Ret tt K' /\ lk_ok (d - 1) K' /\ hart K' = hart K /\
    (forall l, getlock K' l = getlock K l).
Proof.
  intros (c & Hc & H0 & Hd & Hs & Hi) H1.
  exists (put_cur (pushed c) K). split; [apply push_off_eq; [done|lia]|].
  split; [|done]. exists (pushed c). split; [eapply cur_put_cur; eauto|].
  simpl. repeat split; try lia; [now apply ldiff_nonneg|intros _; apply sie_clear].
Qed.

Lemma wp_push_off d (Q : unit -> mach -> Prop) s :
  lk_ok d (lks s) -> 1 <= d ->
  (forall K, push_off (lks s) = Ret tt K -> lk_ok (d - 1) K -> hart K = hart (lks s) ->
     (forall l, getlock K l = getlock (lks s) l) -> Q tt (set_lks K s)) ->
  wp (lk push_off) Q s.
Proof.
  intros Hok Hd HQ. destruct (push_off_spec d (lks s)) as (K & H1 & H2 & H3 & H4); auto.
  apply wp_lk. unfold wp. rewrite H1. auto.
Qed.

Lemma wp_pop_off d K0 K1 (Q : unit -> mach -> Prop) s :
  lk_ok d K0 -> 1 <= d -> push_off K0 = Ret tt K1 -> lk_eq K1 (lks s) ->
  (forall K, lk_eq K0 K -> Q tt (set_lks K s)) ->
  wp (lk pop_off) Q s.
Proof.
  intros Hok Hd Hp He HQ. apply wp_lk. eapply wp_mono.
  - eapply (pop_off_spec K0 K1 _ d); eauto; lia.
  - intros [] K H. now apply HQ.
Qed.

Lemma wp_cpuid (Q : Z -> mach -> Prop) s : Q (hart (lks s)) s -> wp (lk cpuid) Q s.
Proof. intros H. apply wp_lk. apply wp_gets. simpl. now destruct s. Qed.

Lemma lk_eq_hart K K' : lk_eq K K' -> hart K' = hart K.
Proof. intros (H & _). done. Qed.
Lemma lk_eq_getlock K K' l : lk_eq K K' -> getlock K' l = getlock K l.
Proof. intros (_ & H & _). now rewrite H. Qed.
Lemma acquired_hart l K K' : acquired l K K' -> hart K' = hart K.
Proof. intros (H & _). done. Qed.
Lemma acquired_getlock l l' K K' : acquired l K K' -> l' <> l -> getlock K' l' = getlock K l'.
Proof. intros (_ & _ & H & _) Hne. now rewrite H. Qed.
End Locks.

(** ** The allocator's invariant *)

Section Invariant.
Context {L : Layout} {LO : LayoutOk L}.
Implicit Types (s : mach) (p : Z).

Definition page_ok (p : Z) : Prop := p mod 4096 = 0 /\ end_ <= p /\ p < PHYSTOP.

(** The pages of a free list whose head is [h], threaded through memory. *)
Fixpoint chain (m : gmap Z Z) (h : Z) (l : list Z) : Prop :=
  match l with [] => h = 0 | p :: l' => h = p /\ chain m (rdn 8 m p) l' end.

Definition ref (s : mach) (p : Z) : Z := default 0 (refcnt s !! refidx p).

(** [fls] are the free lists by CPU: disjoint lists of pages; a page is
    free exactly when its reference count is 0. *)
Record kmem_inv (fls : list (list Z)) (s : mach) : Prop := {
  inv_ncpu : length fls = 8%nat;
  inv_heads : length (freelist s) = 8%nat;
  inv_chain : forall i l, fls !! i = Some l ->
    exists h, freelist s !! i = Some h /\ chain (ram s) h l;
  inv_nodup : NoDup (concat fls);
  inv_pages : forall p, p ∈ concat fls -> page_ok p;
  inv_ref : forall p, page_ok p -> 0 <= ref s p <= 2147483647;
  inv_free : forall p, page_ok p -> (ref s p = 0 <-> p ∈ concat fls);
}.

(** The allocator's locks are free and the hart can nest [d] levels. *)
Definition quiet (d : Z) (s : mach) : Prop :=
  lk_ok d (lks s) /\ 0 <= hart (lks s) < 8 /\
  getlock (lks s) Lref = unlocked /\ forall i, getlock (lks s) (Lkmem i) = unlocked.

Lemma quiet_eq d s s' : quiet d s -> lk_eq (lks s) (lks s') -> quiet d s'.
Proof.
  intros (H1 & H2 & H3 & H4) He. unfold quiet. rewrite (lk_eq_hart _ _ He).
  split; [now rewrite <- He|]. split; [done|].
  split; [|intros i]; now rewrite (lk_eq_getlock _ _ _ He).
Qed.

(** [P] holds of the code's result, with the locks balanced. *)
Lemma page_ok_ram p : page_ok p -> KERNBASE < p /\ p + 4096 <= PHYSTOP.
Proof.
  intros (H1 & H2 & H3). pose proof etext_lo. pose proof etext_end. split; [lia|].
  pose proof (Z.div_mod p 4096). assert (p / 4096 < 557056); [|lia].
  apply Z.div_lt_upper_bound; lia.
Qed.

Lemma page_disjoint p q : page_ok p -> page_ok q -> p <> q -> p + 4096 <= q \/ q + 4096 <= p.
Proof.
  intros (H1 & _) (H2 & _) Hne. pose proof (Z.div_mod p 4096). pose proof (Z.div_mod q 4096). lia.
Qed.

Lemma NREF_eq : NREF = 32768.
Proof. reflexivity. Qed.

Lemma refidx_page p : page_ok p -> refidx p = (p - KERNBASE) / 4096 /\ 0 <= refidx p < NREF.
Proof.
  intros Hp. destruct (page_ok_ram p Hp). unfold refidx. rewrite u64_small by lia.
  split; [done|]. split; [apply Z.div_pos; lia|rewrite NREF_eq; apply Z.div_lt_upper_bound; lia].
Qed.

Lemma refidx_inj p q : page_ok p -> page_ok q -> refidx p = refidx q -> p = q.
Proof.
  intros Hp Hq. destruct (refidx_page p Hp) as [-> _], (refidx_page q Hq) as [-> _].
  destruct Hp as (Hp & _), Hq as (Hq & _). intros E.
  pose proof (Z.div_mod p 4096). pose proof (Z.div_mod q 4096).
  replace (p - KERNBASE) with (p + (-524288) * 4096) in E by lia.
  replace (q - KERNBASE) with (q + (-524288) * 4096) in E by lia.
  rewrite !Z.div_add in E by lia. lia.
Qed.

Lemma wp_ref_get p (Q : Z -> mach -> Prop) s : page_ok p -> Q (ref s p) s -> wp (ref_get (refidx p)) Q s.
Proof.
  intros Hp HQ. destruct (refidx_page p Hp) as [_ Hr]. unfold wp, ref_get.
  destruct (Z.leb_spec 0 (refidx p)), (Z.ltb_spec (refidx p) NREF); try lia. done.
Qed.

Lemma wp_ref_set p v (Q : unit -> mach -> Prop) s :
  page_ok p -> Q tt (set_refcnt (<[refidx p := v]> (refcnt s)) s) -> wp (ref_set (refidx p) v) Q s.
Proof.
  intros Hp HQ. destruct (refidx_page p Hp) as [_ Hr]. unfold wp, ref_set.
  destruct (Z.leb_spec 0 (refidx p)), (Z.ltb_spec (refidx p) NREF); try lia. done.
Qed.

Lemma ref_insert_eq s p v : ref (set_refcnt (<[refidx p := v]> (refcnt s)) s) p = v.
Proof. unfold ref. simpl. now rewrite lookup_insert_eq. Qed.

Lemma ref_insert_ne s p q v :
  page_ok p -> page_ok q -> p <> q -> ref (set_refcnt (<[refidx p := v]> (refcnt s)) s) q = ref s q.
Proof.
  intros Hp Hq Hne. unfold ref. simpl. rewrite lookup_insert_ne; [done|].
  intros E. apply Hne. now apply refidx_inj.
Qed.

Lemma wp_head_get i h (Q : Z -> mach -> Prop) s :
  0 <= i -> freelist s !! Z.to_nat i = Some h -> Q h s -> wp (head_get i) Q s.
Proof.
  intros Hi Hh HQ. unfold wp, head_get, orfault. rewrite Hh.
  destruct (Z.leb_spec 0 i); [done|lia].
Qed.

Lemma wp_head_set i v (Q : unit -> mach -> Prop) s :
  0 <= i < Z.of_nat (length (freelist s)) ->
  Q tt (set_freelist (<[Z.to_nat i := v]> (freelist s)) s) -> wp (head_set i v) Q s.
Proof.
  intros Hi HQ. unfold wp, head_set. rewrite (proj2 (Z.leb_le 0 i)) by lia.
  rewrite (proj2 (Nat.ltb_lt _ _)) by lia. done.
Qed.

(** A list survives changes of memory outside its pages. *)
Lemma chain_frame m m' h l :
  (forall p a, p ∈ l -> p <= a < p + 4096 -> rd m' a = rd m a) -> chain m h l -> chain m' h l.
Proof.
  revert h. induction l as [|p l IH]; intros h Hm; simpl; [done|].
  intros [-> Hc]. split; [done|].
  rewrite (rdn_ext 8 m' m p).
  - apply IH; [|done]. intros q a Hq. apply Hm. now right.
  - intros b Hb. apply (Hm p); [now left|lia].
Qed.

Lemma elem_concat (fls : list (list Z)) p :
  p ∈ concat fls <-> exists i l, fls !! i = Some l /\ p ∈ l.
Proof.
  rewrite list_elem_of_In, in_concat. split.
  - intros (l & Hl & Hp). apply list_elem_of_In, list_elem_of_lookup in Hl as [i Hi].
    exists i, l. rewrite list_elem_of_In. done.
  - intros (i & l & Hl & Hp). exists l. rewrite <- !list_elem_of_In.
    split; [eapply list_elem_of_lookup_2; eauto|done].
Qed.

Lemma inv_page fls s i l p : kmem_inv fls s -> fls !! i = Some l -> p ∈ l -> page_ok p.
Proof. intros Hinv Hl Hp. apply (inv_pages _ _ Hinv), elem_concat. eauto. Qed.

(** Popping list [i]: its head page and the rest of the list, or 0. *)
Definition popped_list (i : nat) (l : list Z) (s : mach) (r : Z) (s' : mach) : Prop :=
  exists K, lk_eq (lks s) K /\
  match l with
  | [] => r = 0 /\ s' = set_lks K s
  | p :: l' => r = p /\ exists h, chain (ram s) h l' /\
               s' = set_lks K (set_freelist (<[i := h]> (freelist s)) s)
  end.

Lemma pop_freelist_spec d cpu l h s :
  lk_ok d (lks s) -> 1 <= d -> getlock (lks s) (Lkmem (Z.to_nat cpu)) = unlocked -> 0 <= cpu ->
  freelist s !! Z.to_nat cpu = Some h -> chain (ram s) h l -> (forall p, p ∈ l -> page_ok p) ->
  wp (pop_freelist cpu) (popped_list (Z.to_nat cpu) l s) s.
Proof.
  intros Hok Hd Hl Hc Hh Hch Hp. unfold pop_freelist. wsteps.
  apply (wp_acquire _ d); auto. intros K1 HK1 Ha. wsteps.
  eapply wp_head_get; [done|simpl; eauto|]. wsteps.
  destruct l as [|p l]; simpl in Hch.
  - subst h. simpl. wsteps. eapply (wp_release _ d (lks s) K1); simpl; eauto; [reflexivity|].
    intros K HK. wsteps. exists K. done.
  - destruct Hch as [-> Hch]. assert (page_ok p) as Hpp by (apply Hp; left).
    destruct (page_ok_ram p Hpp) as [Hlo Hhi].
    destruct (Z.eqb_spec p 0); [lia|]. wsteps.
    apply wp_ld64; [lia..|]. simpl. apply wp_head_set.
    { simpl. apply lookup_lt_Some in Hh. lia. }
    wsteps. eapply (wp_release _ d (lks s) K1); simpl; eauto; [reflexivity|].
    intros K HK. wsteps. exists K. split; [done|]. split; [done|].
    exists (rdn 8 (ram s) p). done.
Qed.

(** [ksteal] takes the head of the first non-empty list after [cpu], in
    cyclic order; [0] when all the others are empty. *)
Lemma ksteal_spec d cpu fls s :
  lk_ok d (lks s) -> 1 <= d -> (forall i, getlock (lks s) (Lkmem i) = unlocked) -> 0 <= cpu ->
  kmem_inv fls s ->
  wp (ksteal cpu) (fun r s' =>
    (exists j p l, (j < 7)%nat /\
       let i := Z.to_nat ((cpu + 1 + Z.of_nat j) mod 8) in
       fls !! i = Some (p :: l) /\ popped_list i (p :: l) s r s' /\
       forall j', (j' < j)%nat -> fls !! Z.to_nat ((cpu + 1 + Z.of_nat j') mod 8) = Some []) \/
    (r = 0 /\ (exists K, lk_eq (lks s) K /\ s' = set_lks K s) /\
     forall j', (j' < 7)%nat -> fls !! Z.to_nat ((cpu + 1 + Z.of_nat j') mod 8) = Some [])) s.
Proof.
  intros Hok Hd Hl Hc Hinv. unfold ksteal. apply wp_bind. eapply wp_mono.
  - apply (wp_mfor (R := Z) (fun k s' => (exists K, lk_eq (lks s) K /\ s' = set_lks K s) /\
        forall j', (j' < k)%nat -> fls !! Z.to_nat ((cpu + 1 + Z.of_nat j') mod 8) = Some [])
      (fun v s' => exists j p l, v <> 0 /\ (j < 7)%nat /\
       let i := Z.to_nat ((cpu + 1 + Z.of_nat j) mod 8) in
       fls !! i = Some (p :: l) /\ popped_list i (p :: l) s v s' /\
       forall j', (j' < j)%nat -> fls !! Z.to_nat ((cpu + 1 + Z.of_nat j') mod 8) = Some [])).
    + split; [|lia]. exists (lks s). split; [reflexivity|]. now destruct s.
    + intros k s' Hk [(K & HK & ->) Hempty]. change (Z.to_nat (NCPU - 1)) with 7%nat in Hk.
      replace ((cpu + (1 + Z.of_nat k * 1)) mod NCPU) with ((cpu + 1 + Z.of_nat k) mod 8)
        by (f_equal; lia).
      set (i := (cpu + 1 + Z.of_nat k) mod 8) in *.
      assert (0 <= i < 8) as Hi by (apply Z.mod_pos_bound; lia).
      destruct (lookup_lt_is_Some_2 fls (Z.to_nat i)) as [l Hli]; [rewrite (inv_ncpu _ _ Hinv); lia|].
      destruct (inv_chain _ _ Hinv _ _ Hli) as (h & Hh & Hch). wsteps.
      eapply wp_mono.
      * apply (pop_freelist_spec d i l h); simpl; auto; [now rewrite <- HK|now rewrite (lk_eq_getlock _ _ _ HK)|lia|].
        intros p Hp. eapply inv_page; eauto.
      * intros r s'' (K' & HK' & Hr). simpl in HK'. wsteps. destruct l as [|p l].
        -- destruct Hr as [-> ->]. simpl. split.
           ++ exists K'. split; [now rewrite HK|done].
           ++ intros j' Hj'. destruct (decide (j' = k)) as [->|]; [done|]. apply Hempty. lia.
        -- destruct Hr as (-> & h' & Hch' & ->).
           assert (p <> 0) as Hp0.
           { simpl in Hch. destruct Hch as [-> _]. intros ->.
             assert (page_ok 0) as H0; [|destruct (page_ok_ram _ H0); lia].
             eapply inv_page; eauto. left. }
           destruct (Z.eqb_spec p 0); [done|].
           exists k, p, l. split; [done|]. split; [done|]. split; [done|]. split; [|done].
           exists K'. split; [now rewrite HK|]. split; [done|]. exists h'. done.
  - intros [v|] s' H; apply wp_ret; simpl in *.
    + left. destruct H as (j & p & l & _ & H). exists j, p, l. done.
    + right. done.
Qed.

Lemma concat_insert (fls : list (list Z)) i p l :
  fls !! i = Some l -> concat (<[i := p :: l]> fls) ≡ₚ p :: concat fls.
Proof.
  intros Hi. rewrite <- (take_drop_middle _ _ _ Hi) at 2.
  rewrite insert_take_drop by (now apply lookup_lt_Some in Hi).
  rewrite !concat_app. simpl. symmetry. apply Permutation_middle.
Qed.

Lemma concat_pop (fls : list (list Z)) i p l :
  fls !! i = Some (p :: l) -> concat fls ≡ₚ p :: concat (<[i := l]> fls).
Proof.
  intros Hi. rewrite <- (concat_insert (<[i := l]> fls) i p l).
  - rewrite list_insert_insert_eq. now rewrite list_insert_id.
  - apply list_lookup_insert_eq. now apply lookup_lt_Some in Hi.
Qed.

(** Taking page [p] off list [i] keeps the invariant. *)
Lemma kmem_inv_pop fls s s' i p l h :
  kmem_inv fls s -> fls !! i = Some (p :: l) -> chain (ram s) h l ->
  freelist s' = <[i := h]> (freelist s) ->
  (forall a, a < p \/ p + 4096 <= a -> rd (ram s') a = rd (ram s) a) ->
  refcnt s' = <[refidx p := 1]> (refcnt s) ->
  kmem_inv (<[i := l]> fls) s'.
Proof.
  intros Hinv Hi Hch Hf Hm Hr.
  pose proof (concat_pop _ _ _ _ Hi) as HP.
  assert (NoDup (p :: concat (<[i := l]> fls))) as [Hnp Hnd]%NoDup_cons
    by (rewrite <- HP; apply Hinv).
  assert (page_ok p) as Hp by (eapply inv_page; eauto; left).
  assert (i < length (freelist s))%nat as Hlt
    by (rewrite (inv_heads _ _ Hinv); rewrite <- (inv_ncpu _ _ Hinv); now apply lookup_lt_Some in Hi).
  assert (forall q, page_ok q -> ref s' q = if decide (q = p) then 1 else ref s q) as Hrefs.
  { intros q Hq. unfold ref. rewrite Hr. case_decide as E; [subst; now rewrite lookup_insert_eq|].
    rewrite lookup_insert_ne; [done|]. intros E'. apply E. symmetry. now apply refidx_inj. }
  constructor.
  - now rewrite length_insert, (inv_ncpu _ _ Hinv).
  - rewrite Hf, length_insert. apply Hinv.
  - intros j lj Hj. rewrite Hf. destruct (decide (j = i)) as [->|Hne].
    + rewrite list_lookup_insert_eq in Hj by (now apply lookup_lt_Some in Hi).
      injection Hj as <-. exists h. rewrite list_lookup_insert_eq by done. split; [done|].
      eapply chain_frame; [|exact Hch]. intros q a Hq Ha. apply Hm.
      assert (page_ok q) as Hqq by (eapply inv_page; eauto; now right).
      destruct (page_disjoint q p Hqq Hp); [|lia..]. intros ->.
      apply Hnp, elem_concat. exists i, l. rewrite list_lookup_insert_eq by (now apply lookup_lt_Some in Hi). done.
    + pose proof Hj as Hj'. rewrite list_lookup_insert_ne in Hj by done.
      destruct (inv_chain _ _ Hinv _ _ Hj) as (hj & Hhj & Hcj). exists hj.
      rewrite list_lookup_insert_ne by done. split; [done|].
      eapply chain_frame; [|exact Hcj]. intros q a Hq Ha. apply Hm.
      assert (page_ok q) as Hqq by (eapply inv_page; eauto).
      destruct (page_disjoint q p Hqq Hp); [|lia..]. intros ->.
      apply Hnp, elem_concat. eauto.
  - done.
  - intros q Hq. apply (inv_pages _ _ Hinv). rewrite HP. now right.
  - intros q Hq. rewrite Hrefs by done. case_decide; [lia|]. now apply (inv_ref _ _ Hinv).
  - intros q Hq. rewrite Hrefs by done. case_decide as E.
    + subst q. split; [lia|]. done.
    + rewrite (inv_free _ _ Hinv q Hq), HP, elem_of_cons. tauto.
Qed.

(** What [kalloc] does to the rest of the kernel: nothing. *)
Definition same_kernel (s s' : mach) : Prop :=
  lk_eq (lks s) (lks s') /\ procs s' = procs s /\ nextpid s' = nextpid s /\
  initproc s' = initproc s /\ ticks s' = ticks s.

#[export] Instance same_kernel_refl : Reflexive same_kernel.
Proof. intros s. repeat split; auto; try reflexivity. intros c Hc. exists c. done. Qed.
#[export] Instance same_kernel_trans : Transitive same_kernel.
Proof.
  intros s1 s2 s3 (A1 & A2 & A3 & A4 & A5) (B1 & B2 & B3 & B4 & B5).
  split; [now rewrite A1|]. repeat split; congruence.
Qed.

Lemma quiet_same d s s' : quiet d s -> same_kernel s s' -> quiet d s'.
Proof. intros Hq (H & _). now apply (quiet_eq d s). Qed.

(** The tail of [kalloc], once a page has been popped. *)
Definition allocated (fls : list (list Z)) (s : mach) (i : nat) (l : list Z) (r : Z) (s' : mach) : Prop :=
  fls !! i = Some (r :: l) /\ kmem_inv (<[i := l]> fls) s' /\ page_ok r /\ ref s' r = 1 /\
  (forall a, rd (ram s') a = if decide (r <= a < r + 4096) then 5 else rd (ram s) a) /\
  (forall q, page_ok q -> q <> r -> ref s' q = ref s q) /\ same_kernel s s'.

Lemma kalloc_finish d fls s K1 K2 i p l h s2 :
  quiet d s -> 2 <= d -> kmem_inv fls s -> fls !! i = Some (p :: l) -> chain (ram s) h l ->
  push_off (lks s) = Ret tt K1 -> lk_ok (d - 1) K1 ->
  (forall l, getlock K1 l = getlock (lks s) l) -> lk_eq K1 K2 ->
  s2 = set_lks K2 (set_freelist (<[i := h]> (freelist s)) s) ->
  wp (do! (if p =? 0 then ret tt else do! memset p 5 PGSIZE; ret tt);
      do! lk (acquire Lref);
      do! ref_set (refidx p) 1;
      do! lk (release Lref);
      do! lk pop_off;
      ret p) (allocated fls s i l) s2.
Proof.
  intros (Hok & Hh & Hlr & Hlk) Hd Hinv Hi Hch Hpush Hok1 Hsame He ->.
  assert (page_ok p) as Hp by (eapply inv_page; eauto; left).
  destruct (page_ok_ram p Hp) as [Hlo Hhi].
  destruct (Z.eqb_spec p 0); [lia|]. wsteps.
  eapply wp_mono; [apply memset_spec; lia|]. intros r s3 (-> & m & -> & Hm). wsteps.
  assert (lk_ok (d - 1) K2) as Hok2 by (now rewrite <- He).
  assert (getlock K2 Lref = unlocked) as Hl2 by (rewrite (lk_eq_getlock _ _ _ He), Hsame; done).
  apply (wp_acquire _ (d - 1)); simpl; auto; [lia|]. intros K3 Hok3 Ha3. wsteps.
  apply wp_ref_set; [done|]. wsteps.
  eapply (wp_release _ (d - 1) K2 K3); simpl; eauto; [lia|reflexivity|].
  intros K4 He4. wsteps.
  eapply (wp_pop_off d (lks s) K1); simpl; eauto; [lia|now rewrite He|].
  intros K5 He5. wsteps.
  split; [done|]. split.
  { eapply (kmem_inv_pop fls s); eauto; simpl.
    intros a Ha. rewrite Hm. rewrite decide_False; [done|lia]. }
  split; [done|]. split; [unfold ref; simpl; now rewrite lookup_insert_eq|]. split.
  { intros a. simpl. rewrite Hm. done. }
  split.
  - intros q Hq Hne. unfold ref. simpl. rewrite lookup_insert_ne; [done|].
    intros E. apply Hne. symmetry. now apply refidx_inj.
  - split; [exact He5|]. done.
Qed.

Lemma kmem_inv_lks fls s K : kmem_inv fls s -> kmem_inv fls (set_lks K s).
Proof. intros []. constructor; done. Qed.

(** If all lists, from the one after CPU [h]'s on, are empty, there is no free
    page. *)
Lemma no_page_left fls s h :
  kmem_inv fls s -> 0 <= h < 8 -> fls !! Z.to_nat h = Some [] ->
  (forall j, (j < 7)%nat -> fls !! Z.to_nat ((h + 1 + Z.of_nat j) mod 8) = Some []) -> concat fls = [].
Proof.
  intros Hinv Hh H0 Hall. destruct (concat fls) as [|p t] eqn:E; [done|]. exfalso.
  assert (p ∈ concat fls) as Hin by (rewrite E; left). apply elem_concat in Hin as (i & l & Hi & Hin).
  assert (fls !! i = Some []) as Hnil; [|rewrite Hi in Hnil; injection Hnil as ->; now apply not_elem_of_nil in Hin].
  apply lookup_lt_Some in Hi as Hlt. rewrite (inv_ncpu _ _ Hinv) in Hlt.
  destruct (decide (i = Z.to_nat h)) as [->|Hni]; [done|]. set (j := (Z.of_nat i - h - 1) mod 8).
  assert (0 <= j < 8) by (apply Z.mod_pos_bound; lia).
  assert ((h + 1 + j) mod 8 = Z.of_nat i) as Eji.
  { unfold j. rewrite Zplus_mod_idemp_r. replace (h + 1 + (Z.of_nat i - h - 1)) with (Z.of_nat i) by lia. apply Z.mod_small. lia. }
  assert (j <> 7).
  { intros E7. apply Hni. rewrite E7 in Eji. replace (h + 1 + 7) with (h + 1 * 8) in Eji by lia. rewrite Z.mod_add, Z.mod_small in Eji by lia. lia. }
  specialize (Hall (Z.to_nat j) ltac:(lia)). now rewrite Z2Nat.id, Eji, Nat2Z.id in Hall by lia.
Qed.

(** [kalloc] with a page free somewhere. *)
Lemma kalloc_spec fls s :
  kmem_inv fls s -> quiet 2 s -> concat fls <> [] ->
  wp kalloc (fun r s' => exists k l, (k < 8)%nat /\
    let list_of k := Z.to_nat ((hart (lks s) + Z.of_nat k) mod 8) in
    allocated fls s (list_of k) l r s' /\
    forall k', (k' < k)%nat -> fls !! list_of k' = Some []) s.
Proof.
  intros Hinv Hq Hne. pose proof Hq as (Hok & Hh & Hlr & Hlk).
  unfold kalloc. wsteps. apply (wp_push_off 2); [done|lia|].
  intros K1 Hp1 Hok1 Hh1 Hg1. wsteps. apply wp_cpuid. simpl. rewrite Hh1. wsteps.
  assert (Z.to_nat ((hart (lks s) + Z.of_nat 0) mod 8) = Z.to_nat (hart (lks s))) as E0.
  { f_equal. rewrite Z.mod_small; lia. }
  destruct (lookup_lt_is_Some_2 fls (Z.to_nat (hart (lks s)))) as [l Hl];
    [rewrite (inv_ncpu _ _ Hinv); lia|].
  destruct (inv_chain _ _ Hinv _ _ Hl) as (h & Hhd & Hch).
  eapply wp_mono; [apply (pop_freelist_spec 1 _ l h); simpl; auto; try lia|].
  { rewrite Hg1. apply Hlk. }
  { intros p Hp. eapply inv_page; eauto. }
  intros r s1 (K2 & HK2 & Hr). simpl in HK2. wsteps. destruct l as [|p l].
  - destruct Hr as [-> ->]. simpl. wsteps.
    eapply wp_mono; [apply (ksteal_spec 1 _ fls); simpl; auto; try lia|].
    { now rewrite <- HK2. }
    { intros i. rewrite (lk_eq_getlock _ _ _ HK2), Hg1. apply Hlk. }
    { now apply kmem_inv_lks, kmem_inv_lks. }
    assert (forall j, (hart (lks s) + 1 + Z.of_nat j) mod 8 = (hart (lks s) + Z.of_nat (S j)) mod 8) as Ej
      by (intros j; f_equal; lia).
    intros r s2 [(j & p & l & Hj & Hi & (K3 & HK3 & -> & h' & Hch' & ->) & Hprev)|(-> & _ & Hall)].
    + simpl in HK3. eapply wp_mono.
      * eapply (kalloc_finish 2 fls s K1 K3); eauto; [lia|now rewrite HK2].
      * intros r s3 Ha. exists (S j), l. split; [lia|]. rewrite <- Ej. split; [done|].
        intros [|k'] Hk'; [now rewrite E0|]. rewrite <- Ej. apply Hprev. lia.
    + exfalso. apply Hne. now apply (no_page_left fls s (hart (lks s))).
  - destruct Hr as (-> & h' & Hch' & ->).
    assert (page_ok p) as Hp by (eapply inv_page; eauto; left).
    destruct (page_ok_ram p Hp). destruct (Z.eqb_spec p 0) as [|Hp0]; [lia|].
    apply wp_ret. eapply wp_mono.
    + eapply (kalloc_finish 2 fls s K1 K2 (Z.to_nat (hart (lks s))) p l); eauto; lia.
    + intros r s3 Ha. exists O, l. split; [lia|]. simpl in Ha |- *. rewrite E0. split; [|lia].
      exact Ha.
Qed.

(** Changes outside the free pages, with reference counts of allocated
    pages kept positive, keep the invariant. *)
Lemma kmem_inv_frame fls s s' :
  kmem_inv fls s -> freelist s' = freelist s ->
  (forall p a, p ∈ concat fls -> p <= a < p + 4096 -> rd (ram s') a = rd (ram s) a) ->
  (forall p, page_ok p -> 0 <= ref s' p <= 2147483647 /\ (ref s' p = 0 <-> ref s p = 0)) ->
  kmem_inv fls s'.
Proof.
  intros Hinv Hf Hm Hr. constructor; try apply Hinv.
  - rewrite Hf. apply Hinv.
  - intros i l Hi. destruct (inv_chain _ _ Hinv _ _ Hi) as (h & Hh & Hc). exists h.
    rewrite Hf. split; [done|]. eapply chain_frame; [|exact Hc].
    intros p a Hp. apply Hm, elem_concat. eauto.
  - intros p Hp. now apply Hr.
  - intros p Hp. rewrite (proj2 (Hr p Hp)). now apply Hinv.
Qed.

(** Putting page [p] on list [i] keeps the invariant. *)
Lemma kmem_inv_push fls s s' i p l h :
  kmem_inv fls s -> fls !! i = Some l -> freelist s !! i = Some h ->
  page_ok p -> ref s p <> 0 -> freelist s' = <[i := p]> (freelist s) ->
  (forall a, a < p \/ p + 4096 <= a -> rd (ram s') a = rd (ram s) a) -> rdn 8 (ram s') p = h ->
  refcnt s' = <[refidx p := 0]> (refcnt s) ->
  kmem_inv (<[i := p :: l]> fls) s'.
Proof.
  intros Hinv Hi Hh Hp Href Hf Hm Hnext Hr.
  pose proof (concat_insert _ _ p _ Hi) as HP.
  assert (~ p ∈ concat fls) as Hnp by (rewrite <- (inv_free _ _ Hinv p Hp); done).
  assert (i < length fls)%nat as Hlt by (now apply lookup_lt_Some in Hi).
  assert (forall j lj hj, fls !! j = Some lj -> chain (ram s) hj lj -> chain (ram s') hj lj) as Hframe.
  { intros j lj hj Hj. apply chain_frame. intros q a Hq Ha. apply Hm.
    assert (page_ok q) as Hqq by (eapply inv_page; eauto).
    destruct (page_disjoint q p Hqq Hp); [|lia..]. intros ->. apply Hnp, elem_concat. eauto. }
  assert (forall q, page_ok q -> ref s' q = if decide (q = p) then 0 else ref s q) as Hrefs.
  { intros q Hq. unfold ref. rewrite Hr. case_decide as E; [subst; now rewrite lookup_insert_eq|].
    rewrite lookup_insert_ne; [done|]. intros E'. apply E. symmetry. now apply refidx_inj. }
  constructor.
  - now rewrite length_insert, (inv_ncpu _ _ Hinv).
  - rewrite Hf, length_insert. apply Hinv.
  - intros j lj Hj. rewrite Hf. destruct (decide (j = i)) as [->|Hne].
    + rewrite list_lookup_insert_eq in Hj by done. injection Hj as <-. exists p.
      rewrite list_lookup_insert_eq by (now apply lookup_lt_Some in Hh). split; [done|].
      simpl. rewrite Hnext. split; [done|].
      destruct (inv_chain _ _ Hinv _ _ Hi) as (h' & Hh' & Hc). rewrite Hh in Hh'. injection Hh' as <-.
      eauto.
    + rewrite list_lookup_insert_ne in Hj by done.
      destruct (inv_chain _ _ Hinv _ _ Hj) as (hj & Hhj & Hcj). exists hj.
      rewrite list_lookup_insert_ne by done. eauto.
  - rewrite HP. apply NoDup_cons. split; [done|apply Hinv].
  - intros q. rewrite HP, elem_of_cons. intros [->|Hq]; [done|]. now apply Hinv.
  - intros q Hq. rewrite Hrefs by done. case_decide; [lia|]. now apply (inv_ref _ _ Hinv).
  - intros q Hq. rewrite Hrefs by done. rewrite HP, elem_of_cons. case_decide as E; [tauto|].
    rewrite (inv_free _ _ Hinv q Hq). tauto.
Qed.

(** The three effects of [kfree] on an allocated page: the fill, the
    count, and the list when the count reaches 0. *)
Definition freed (fls : list (list Z)) (s : mach) (p : Z) (s' : mach) : Prop :=
  (forall a, a < p \/ p + 4096 <= a -> rd (ram s') a = rd (ram s) a) /\
  ref s' p = ref s p - 1 /\
  (forall q, page_ok q -> q <> p -> ref s' q = ref s q) /\ same_kernel s s' /\
  if decide (ref s p = 1)
  then exists l, fls !! Z.to_nat (hart (lks s)) = Some l /\
         kmem_inv (<[Z.to_nat (hart (lks s)) := p :: l]> fls) s'
  else kmem_inv fls s' /\ forall a, p <= a < p + 4096 -> rd (ram s') a = 1.

(** A count is set. *)
Lemma ref_write s s' p v : page_ok p -> refcnt s' = <[refidx p := v]> (refcnt s) ->
  ref s' p = v /\ forall q, page_ok q -> q <> p -> ref s' q = ref s q.
Proof.
  intros Hp Er. unfold ref. rewrite Er. split; [now rewrite lookup_insert_eq|]. intros q Hqq Hne. rewrite lookup_insert_ne; [done|].
  intros E. apply Hne. symmetry. now apply refidx_inj.
Qed.
(** References remain: the page is filled and the count is one less. *)
Lemma freed_shared fls s p s' :
  kmem_inv fls s -> page_ok p -> 1 < ref s p -> (forall a, rd (ram s') a = if decide (p <= a < p + 4096) then 1 else rd (ram s) a) ->
  refcnt s' = <[refidx p := ref s p - 1]> (refcnt s) -> freelist s' = freelist s -> same_kernel s s' -> freed fls s p s'.
Proof.
  intros Hinv Hp Hr Hm Er Ef Hk. destruct (ref_write s s' p _ Hp Er) as [Hself Hothers]. pose proof (inv_ref _ _ Hinv p Hp) as Hbound.
  assert (~ p ∈ concat fls) as Hnp by (rewrite <- (inv_free _ _ Hinv p Hp); lia). unfold freed. rewrite decide_False by lia.
  split; [intros a Ha; rewrite Hm, decide_False; [done|lia]|]. do 3 (split; [done|]). split; [|intros a Ha; rewrite Hm, decide_True; [done|lia]].
  eapply kmem_inv_frame; [exact Hinv|done|..].
  - intros q a Hqin Ha. rewrite Hm, decide_False; [done|]. destruct (page_disjoint q p (inv_pages _ _ Hinv q Hqin) Hp); [|lia..]. now intros ->.
  - intros q Hqq. destruct (decide (q = p)) as [->|Hne]; [rewrite Hself; lia|]. rewrite Hothers by done. split; [now apply (inv_ref _ _ Hinv)|done].
Qed.
Lemma chain_head_range fls s j l h : kmem_inv fls s -> fls !! j = Some l -> chain (ram s) h l -> 0 <= h < 18446744073709551616.
Proof.
  intros Hinv Hl Hch. destruct l as [|q l]; simpl in Hch; [lia|]. destruct Hch as [-> _].
  assert (page_ok q) as Hqp by (eapply inv_page; eauto; left). destruct (page_ok_ram q Hqp). lia.
Qed.

Lemma kfree_spec fls s p :
  kmem_inv fls s -> quiet 2 s -> page_ok p -> 0 < ref s p ->
  wp (kfree p) (fun _ s' => freed fls s p s') s.
Proof.
  intros Hinv Hq Hp Href. pose proof Hq as (Hok & Hh & Hlr & Hlk).
  destruct (page_ok_ram p Hp) as [Hlo Hhi]. pose proof Hp as (Hal & Hend & Hstop).
  pose proof (inv_ref _ _ Hinv p Hp) as Hbound.
  unfold kfree. wsteps.
  { change PGSIZE with 4096. rewrite Hal. simpl.
    destruct (Z.ltb_spec p end_), (Z.leb_spec PHYSTOP p); try lia; done. }
  eapply wp_mono; [apply memset_spec; lia|]. intros r s1 (-> & m & -> & Hm). wsteps.
  apply (wp_acquire _ 2); simpl; auto; [lia|]. intros K1 Hok1 Ha1. wsteps.
  apply wp_ref_get; [done|]. change (ref (set_lks K1 (set_ram m s)) p) with (ref s p). wsteps.
  { destruct (Z.leb_spec (ref s p) 0); [lia|done]. }
  apply wp_ref_set; [done|]. wsteps. apply wp_ref_get; [done|].
  rewrite ref_insert_eq, i32_small by lia.
  destruct (Z.ltb_spec 0 (ref s p - 1)) as [Hgt|Hle].
  - eapply (wp_release _ 2 (lks s) K1); simpl; eauto; [lia|reflexivity|]. intros K2 He.
    apply freed_shared; auto; [lia|]. split; [exact He|done].
  - wsteps. eapply (wp_release _ 2 (lks s) K1); simpl; eauto; [lia|reflexivity|]. intros K2 He2. wsteps.
    assert (lk_ok 2 K2) as Hok2 by (now rewrite <- He2).
    apply (wp_push_off 2); simpl; [done|lia|]. intros K3 Hp3 Hok3 Hh3 Hg3. wsteps.
    apply wp_cpuid. simpl. wsteps. rewrite Hh3, (lk_eq_hart _ _ He2).
    apply (wp_acquire _ 1); simpl; auto; [lia|rewrite Hg3, (lk_eq_getlock _ _ _ He2); apply Hlk|].
    intros K4 Hok4 Ha4. wsteps.
    destruct (lookup_lt_is_Some_2 fls (Z.to_nat (hart (lks s)))) as [l Hl];
      [rewrite (inv_ncpu _ _ Hinv); lia|].
    destruct (inv_chain _ _ Hinv _ _ Hl) as (h & Hhd & Hch).
    eapply wp_head_get; [lia|simpl; exact Hhd|]. wsteps.
    apply wp_st64; [lia..|]. simpl. wsteps.
    apply wp_head_set; [simpl; rewrite (inv_heads _ _ Hinv); lia|]. wsteps.
    eapply (wp_release _ 1 K3 K4); simpl; eauto; [lia|rewrite Hg3, (lk_eq_getlock _ _ _ He2); apply Hlk|reflexivity|].
    intros K5 He5. eapply (wp_pop_off 2 K2 K3); simpl; eauto; [lia|]. intros K6 He6.
    pose proof (chain_head_range _ _ _ _ _ Hinv Hl Hch) as Hhr.
    unfold freed.
    assert (ref s p = 1) as H1 by lia. rewrite (decide_True _ _ H1).
    assert (forall a, a < p \/ p + 4096 <= a -> rd (wrn 8 m p h) a = rd (ram s) a) as Hout.
    { intros a Ha. rewrite rd_wrn_out by lia. rewrite Hm, decide_False; [done|lia]. }
    match goal with |- context [ref ?x p = _] => destruct (ref_write s x p (ref s p - 1) Hp eq_refl) as [Hself Hothers] end.
    split; [exact Hout|]. split; [exact Hself|]. split; [exact Hothers|]. split; [split; [simpl; now rewrite He2|done]|].
    exists l. split; [done|].
    eapply (kmem_inv_push fls s); eauto; simpl; [lia| |].
    + apply (rdn_wrn_eq 8). exact Hhr.
    + do 2 f_equal. lia.
Qed.
End Invariant.

(** ** Properties *)

Section Properties.
Context {L : Layout} {LO : LayoutOk L}.

(** C6: [kalloc] hands out a free page.  While any CPU has a free page,
    [kalloc] returns one that was on a free list (the running CPU's list
    first, else the first non-empty list in cyclic order), filled with 5,
    off every list, with reference count 1; no other page, count, lock or
    process changes, and the allocator's invariant holds again. *)
Theorem kalloc_correct fls s :
  kmem_inv fls s -> quiet 2 s -> concat fls <> [] ->
  wp kalloc (fun r s' => exists k l, (k < 8)%nat /\
    let list_of k := Z.to_nat ((hart (lks s) + Z.of_nat k) mod 8) in
    allocated fls s (list_of k) l r s' /\ ~ r ∈ concat (<[list_of k := l]> fls) /\
    forall k', (k' < k)%nat -> fls !! list_of k' = Some []) s.
Proof.
  intros Hinv Hq Hne. eapply wp_mono; [now apply (kalloc_spec fls)|].
  intros r s' (k & l & Hk & Ha & Hprev). exists k, l. split; [done|]. split; [done|]. split; [|done].
  destruct Ha as (Hi & _). apply concat_pop in Hi. pose proof (inv_nodup _ _ Hinv) as Hnd.
  rewrite Hi in Hnd. now apply NoDup_cons in Hnd as [? _].
Qed.

(** C23: [kfree] of an allocated page always returns; it drops one
    reference, and puts the page on the running CPU's list exactly when
    that was the last one; every other page and count stays. *)
Theorem kfree_correct fls s p :
  kmem_inv fls s -> quiet 2 s -> page_ok p -> 0 < ref s p ->
  wp (kfree p) (fun _ s' =>
    (forall a, a < p \/ p + 4096 <= a -> rd (ram s') a = rd (ram s) a) /\
    ref s' p = ref s p - 1 /\ (forall q, page_ok q -> q <> p -> ref s' q = ref s q) /\
    same_kernel s s' /\
    exists fls', kmem_inv fls' s' /\
      fls' = if decide (ref s p = 1)
             then alter (cons p) (Z.to_nat (hart (lks s))) fls else fls) s.
Proof.
  intros Hinv Hq Hp Hr. eapply wp_mono; [now apply (kfree_spec fls)|].
  intros [] s' (H1 & H2 & H3 & H4 & H5). split; [done|]. split; [done|]. split; [done|]. split; [done|].
  case_decide.
  - destruct H5 as (l & Hl & Hi). eexists. split; [|reflexivity].
    replace (alter _ _ _) with (<[Z.to_nat (hart (lks s)):=p :: l]> fls); [done|].
    apply list_eq. intros i. destruct (decide (i = Z.to_nat (hart (lks s)))) as [->|Hne].
    + rewrite list_lookup_insert_eq, list_lookup_alter_eq, Hl; [done|now apply lookup_lt_Some in Hl].
    + now rewrite list_lookup_insert_ne, list_lookup_alter_ne.
  - exists fls. tauto.
Qed.

(** [kfree] overwrites pages that are still in use.  The fill with
    junk comes before the reference count is looked at: freeing a page
    that another process still maps leaves it allocated, with every one of
    its 4096 bytes overwritten by 1. *)
Theorem kfree_clobbers_shared fls s p :
  kmem_inv fls s -> quiet 2 s -> page_ok p -> 2 <= ref s p ->
  wp (kfree p) (fun _ s' => 1 <= ref s' p /\ ~ p ∈ concat fls /\ kmem_inv fls s' /\
    forall a, p <= a < p + 4096 -> rd (ram s') a = 1) s.
Proof.
  intros Hinv Hq Hp Hr. eapply wp_mono; [apply (kfree_spec fls); auto; lia|].
  intros [] s' (_ & H2 & _ & _ & H5). rewrite decide_False in H5 by lia.
  split; [lia|]. split; [|done]. rewrite <- (inv_free _ _ Hinv p Hp). lia.
Qed.

(** Last in, first out.  Freeing the last reference to a page and
    allocating on the same CPU gives the same page back, now filled with 5
    and with reference count 1. *)
Theorem kfree_kalloc fls s p :
  kmem_inv fls s -> quiet 2 s -> page_ok p -> ref s p = 1 ->
  wp (do! kfree p; kalloc) (fun r s' => r = p /\ kmem_inv fls s' /\ ref s' p = 1 /\
    same_kernel s s' /\
    forall a, rd (ram s') a = if decide (p <= a < p + 4096) then 5 else rd (ram s) a) s.
Proof.
  intros Hinv Hq Hp Hr. apply wp_bind. eapply wp_mono; [apply (kfree_spec fls); eauto; lia|].
  intros [] s1 (H1 & H2 & H3 & H4 & H5). rewrite decide_True in H5 by done.
  destruct H5 as (l & Hl & Hi). pose proof Hq as (_ & Hh & _).
  assert (hart (lks s1) = hart (lks s)) as Hhart by (destruct H4 as (He & _); now apply lk_eq_hart).
  set (i := Z.to_nat (hart (lks s))) in *. set (fls1 := <[i := p :: l]> fls) in *.
  assert (fls1 !! i = Some (p :: l)) as Hi1
    by (apply list_lookup_insert_eq; now apply lookup_lt_Some in Hl).
  eapply wp_mono.
  - apply (kalloc_spec fls1); [done|now apply (quiet_same 2 s)|].
    intros E. assert (p ∈ concat fls1) as Hin; [|rewrite E in Hin; now apply not_elem_of_nil in Hin].
    apply elem_concat. exists i, (p :: l). split; [done|left].
  - intros r s' (k & l' & Hk & Ha & Hprev). rewrite Hhart in *.
    assert (Z.to_nat ((hart (lks s) + Z.of_nat 0) mod 8) = i) as E0
      by (rewrite Z.add_0_r, Z.mod_small by lia; done).
    destruct k as [|k]; [|specialize (Hprev O ltac:(lia)); rewrite E0 in Hprev; congruence].
    rewrite E0 in Ha. destruct Ha as (A1 & A2 & A3 & A4 & A5 & A6 & A7).
    rewrite Hi1 in A1. injection A1 as <- <-.
    split; [done|]. split.
    { unfold fls1 in A2. rewrite list_insert_insert_eq, list_insert_id in A2 by done. done. }
    split; [done|]. split; [now rewrite H4|].
    intros a. rewrite A5. case_decide; [done|]. apply H1. lia.
Qed.

(** Running out of pages is a memory error.  With every free list
    empty, [kalloc] does not return 0: it stores a reference count for the
    null page, far outside [ref.refcnt]. *)
Theorem kalloc_exhausted_faults s :
  kmem_inv (replicate 8 []) s -> quiet 2 s -> kalloc s = Fault.
Proof.
  intros Hinv Hq. pose proof Hq as (Hok & Hh & Hlr & Hlk).
  assert (forall i, 0 <= i < 8 -> @replicate (list Z) 8 [] !! Z.to_nat i = Some []) as Hrep
    by (intros; apply lookup_replicate; split; [done|lia]).
  unfold kalloc. destruct (push_off_spec 2 (lks s)) as (K1 & Hp1 & Hok1 & Hh1 & Hg1); [done|lia|].
  erewrite bind_Ret by (apply zoom_Ret; exact Hp1).
  erewrite bind_Ret by (apply zoom_Ret; reflexivity). simpl.
  destruct (inv_chain _ _ Hinv _ _ (Hrep (hart (lks s)) Hh)) as (h & Hhd & Hch).
  pose proof (pop_freelist_spec 1 (hart K1) [] h (set_lks K1 s) Hok1 ltac:(lia)) as Hpop.
  simpl in Hpop. rewrite Hh1, Hg1 in Hpop.
  specialize (Hpop (Hlk _) ltac:(lia) Hhd Hch ltac:(intros p Hp; now apply not_elem_of_nil in Hp)).
  apply wp_Ret in Hpop as (r & s1 & E1 & K2 & HK2 & -> & ->). simpl in HK2.
  rewrite Hh1. erewrite bind_Ret by exact E1. simpl.
  pose proof (ksteal_spec 1 (hart (lks s)) (replicate 8 []) (set_lks K2 (set_lks K1 s))) as Hst.
  assert (lk_ok 1 K2) as Hok2 by (now rewrite <- HK2).
  assert (forall l, getlock K2 l = getlock (lks s) l) as Hg2
    by (intros l; now rewrite (lk_eq_getlock _ _ _ HK2)).
  specialize (Hst Hok2 ltac:(lia) ltac:(intros i; simpl; rewrite Hg2; apply Hlk) ltac:(lia)).
  specialize (Hst ltac:(now apply kmem_inv_lks, kmem_inv_lks)).
  apply wp_Ret in Hst as (r & s2 & E2 & [(j & p & l & Hj & Hi & _)|(-> & (K3 & HK3 & ->) & _)]).
  { rewrite Hrep in Hi; [done|]. apply Z.mod_pos_bound; lia. }
  simpl in HK3. erewrite bind_Ret by exact E2. simpl.
  erewrite bind_Ret by reflexivity.
  assert (wp (lk (acquire Lref)) (fun _ _ => True) (set_lks K3 (set_lks K2 (set_lks K1 s)))) as Hacq.
  { apply (wp_acquire _ 1); simpl; auto; [now rewrite <- HK3|lia|].
    now rewrite (lk_eq_getlock _ _ _ HK3), Hg2. }
  apply wp_Ret in Hacq as ([] & s3 & E3 & _). erewrite bind_Ret by exact E3. reflexivity.
Qed.
End Properties.

Section Boot.
Context {L : Layout} {LO : LayoutOk L}.

(** C40: the allocator cannot be initialised.  [freerange] has lost the
    braces of its loop, so [kfree] runs once, on the page after the last
    one, and [kinit] panics whatever the state it starts from. *)
Theorem kinit_panics s : kinit s = Panic "kfree".
Proof.
  pose proof etext_lo as Hel. pose proof etext_end as Hee. pose proof end_hi as Heh.
  assert (wp (mloop (Z.to_nat NCPU) 0 1 (fun i => lk (initlock (Lkmem (Z.to_nat i)))))
             (fun _ _ => True) s) as H1.
  { eapply (wp_mono _ (fun _ _ => True)); [|done].
    eapply (wp_mloop (fun _ _ => True)); [done|]. intros. apply wp_lk. now apply wp_modify. }
  apply wp_Ret in H1 as ([] & s1 & E1 & _).
  unfold kinit. erewrite bind_Ret by exact E1. erewrite bind_Ret by reflexivity.
  unfold freerange. destruct (PGROUNDUP_spec end_) as [Hal Hup]; [lia..|].
  set (p0 := PGROUNDUP end_) in *. set (N := Z.to_nat ((PHYSTOP - p0) / 4096)).
  assert (p0 <= PHYSTOP) as Hp0.
  { pose proof (Z.div_mod p0 4096). assert (p0 / 4096 < 557057); [apply Z.div_lt_upper_bound|]; lia. }
  assert (p0 + Z.of_nat N * 4096 = PHYSTOP) as HN.
  { pose proof (Z.div_mod (PHYSTOP - p0) 4096). pose proof (Z.div_pos (PHYSTOP - p0) 4096).
    assert ((PHYSTOP - p0) mod 4096 = 0) by (rewrite Zminus_mod, Hal; reflexivity). lia. }
  match goal with |- bind ?m _ ?s2 = _ => assert (wp m (fun r _ => r = inl PHYSTOP) s2) as H2 end.
  { eapply wp_mono.
    - apply (wp_mwhile (fun _ _ => True) (fun _ _ => True) N _ p0 4096); auto.
      + rewrite NREF_eq. lia.
      + intros k Hk. apply Z.leb_le. lia.
      + apply Z.leb_gt. lia.
      + intros k Hk. lia.
      + intros k s' Hk _. wsteps.
        assert (page_ok (p0 + Z.of_nat k * 4096)) as Hpk.
        { split; [now rewrite Z.mod_add by lia|lia]. }
        apply wp_ref_set; [done|]. wsteps. done.
    - intros [i|[]] s' Hr; simpl in Hr. f_equal. lia. }
  apply wp_Ret in H2 as (r & s2 & E2 & ->). erewrite bind_Ret by exact E2.
  unfold kfree. change (PHYSTOP <=? PHYSTOP) with true. rewrite orb_true_r. reflexivity.
Qed.
End Boot.

(** ** Concrete runs: two allocatable pages, one free, one shared *)

Module Example.
#[export] Instance layout0 : Layout := {|
  end_ := PHYSTOP - 8192; etext := KERNBASE + 8192; trampoline := KERNBASE + 4096;
  uservec := KERNBASE + 4096; userret := KERNBASE + 4196; kernelvec := KERNBASE + 64;
  forkret_addr := KERNBASE + 128; usertrap_addr := KERNBASE + 256 |}.
#[export] Instance layout0_ok : LayoutOk layout0.
Proof. constructor; simpl; try lia; reflexivity. Qed.

Definition pg0 : Z := PHYSTOP - 8192.
Definition pg1 : Z := PHYSTOP - 4096.
(** [refs]: the reference count of the first page. *)
Definition machine (refs : Z) : mach :=
  Mach (Lockst 0 [Harts.cpu0] ∅) ∅ [pg1; 0; 0; 0; 0; 0; 0; 0]
       {[ refidx pg0 := refs ]} [] 1 None 0.
Definition lists : list (list Z) := [[pg1]; []; []; []; []; []; []; []].

Lemma pages p : page_ok p -> p = pg0 \/ p = pg1.
Proof.
  intros (H1 & H2 & H3). simpl in H2. pose proof (Z.div_mod p 4096). unfold pg0, pg1.
  assert (557054 <= p / 4096) by (apply Z.div_le_lower_bound; lia).
  assert (p / 4096 < 557056) by (apply Z.div_lt_upper_bound; lia). lia.
Qed.
Lemma pg0_ok : page_ok pg0.
Proof. repeat split; simpl; unfold pg0; try lia. Qed.
Lemma ref_pg0 refs : ref (machine refs) pg0 = refs.
Proof. reflexivity. Qed.

Lemma inv_machine refs : 0 < refs <= 2147483647 -> kmem_inv lists (machine refs).
Proof.
  intros Hr. constructor; simpl; try reflexivity.
  - intros [|i] l Hi; [injection Hi as <-; exists pg1; split; [done|]; split; reflexivity|].
    do 8 (destruct i as [|i]; [injection Hi as <- || discriminate Hi; exists 0; done|]).
    discriminate Hi.
  - apply NoDup_singleton.
  - intros p Hp. apply list_elem_of_singleton in Hp as ->. repeat split; simpl; unfold pg1; lia.
  - intros p [->| ->]%pages; [rewrite ref_pg0; lia|]. vm_compute. intuition discriminate.
  - intros p [->| ->]%pages.
    + rewrite ref_pg0. split; [lia|]. intros H. apply list_elem_of_singleton in H. discriminate H.
    + split; [intros _; left|reflexivity].
Qed.
Lemma quiet_machine refs : quiet 2 (machine refs).
Proof.
  split; [|split; [simpl; lia|]; split; reflexivity].
  exists Harts.cpu0. repeat split; simpl; lia.
Qed.

Lemma kalloc_correct_witness :
  wp kalloc (fun r s' => exists k l, (k < 8)%nat /\
    let list_of k := Z.to_nat ((hart (lks (machine 1)) + Z.of_nat k) mod 8) in
    allocated lists (machine 1) (list_of k) l r s' /\ ~ r ∈ concat (<[list_of k := l]> lists) /\
    forall k', (k' < k)%nat -> lists !! list_of k' = Some []) (machine 1).
Proof.
  apply (kalloc_correct lists (machine 1)); [apply inv_machine; lia|apply quiet_machine|discriminate].
Defined.
Lemma kfree_correct_witness :
  wp (kfree pg0) (fun _ s' => ref s' pg0 = 0) (machine 1).
Proof.
  eapply wp_mono.
  - apply (kfree_correct lists (machine 1) pg0);
      [apply inv_machine; lia|apply quiet_machine|apply pg0_ok|reflexivity].
  - intros a s' (_ & H & _). rewrite H. reflexivity.
Defined.
Lemma kfree_clobbers_shared_witness :
  wp (kfree pg0) (fun _ s' => 1 <= ref s' pg0 /\ ~ pg0 ∈ concat lists /\ kmem_inv lists s' /\
    forall a, pg0 <= a < pg0 + 4096 -> rd (ram s') a = 1) (machine 2).
Proof.
  apply (kfree_clobbers_shared lists (machine 2) pg0);
    [apply inv_machine; lia|apply quiet_machine|apply pg0_ok|rewrite ref_pg0; lia].
Defined.
Lemma kfree_kalloc_witness :
  wp (do! kfree pg0; kalloc) (fun r s' => r = pg0) (machine 1).
Proof.
  eapply wp_mono.
  - apply (kfree_kalloc lists (machine 1) pg0);
      [apply inv_machine; lia|apply quiet_machine|apply pg0_ok|reflexivity].
  - intros r s' (H & _). exact H.
Defined.

(** Both pages in use. *)
Definition full : mach :=
  Mach (Lockst 0 [Harts.cpu0] ∅) ∅ [0; 0; 0; 0; 0; 0; 0; 0]
       {[ refidx pg0 := 1; refidx pg1 := 1 ]} [] 1 None 0.
Lemma inv_full : kmem_inv (replicate 8 []) full.
Proof.
  constructor; try reflexivity.
  - intros i l Hi. apply lookup_replicate in Hi as [-> Hi]. exists 0. split; [|done].
    do 8 (destruct i as [|i]; [done|]). lia.
  - apply NoDup_nil_2.
  - intros p Hp. now apply not_elem_of_nil in Hp.
  - intros p [->| ->]%pages; vm_compute; intuition discriminate.
  - intros p [->| ->]%pages; (split; [intros H; vm_compute in H; discriminate H|]);
      intros H; now apply not_elem_of_nil in H.
Qed.
Lemma kalloc_exhausted_faults_witness : kalloc full = Fault.
Proof.
  apply (kalloc_exhausted_faults full); [apply inv_full|].
  split; [|split; [simpl; lia|]; split; reflexivity].
  exists Harts.cpu0. repeat split; simpl; lia.
Defined.

Lemma kinit_panics_witness : kinit full = Panic "kfree".
Proof. apply (kinit_panics full). Defined.
End Example.
