(* ===== verification/Vm.v ===== *)
(** * Virtual memory (kernel/vm.c, kernel/vmcopyin.c)

    Sv39 page tables in physical memory, user address spaces with lazy
    allocation and copy-on-write, and the copies between kernel and user
    memory.  A pointer to a PTE is its physical address; 0 is the null
    pointer, and following it is a memory error. *)

From S2P Require Import Prelude.
From S2P Require Import Mach.
From S2P Require Import Spinlock.
From S2P Require Import Kstring.
From S2P Require Import Kalloc.

(** [proc.c]: the process running on this hart. *)
Definition myproc : M mach (option nat) :=
  do! lk push_off;
  let! c := lk mycpu in
  do! lk pop_off;
  ret (c_proc c).

Definition getproc (p : nat) : M mach proc := fun s => orfault (procs s !! p) s.
(** [myproc()->...]: a null process is an error. *)
Definition curproc : M mach proc :=
  let! p := myproc in
  match p with Some i => getproc i | None => fault end.

(** Bytes between kernel buffers and physical memory. *)
Fixpoint st_bytes (a : Z) (l : list Z) : M mach unit :=
  match l with [] => ret tt | b :: l' => do! st8 a b; st_bytes (a + 1) l' end.
Fixpoint ld_bytes (n : nat) (a : Z) : M mach (list Z) :=
  match n with
  | O => ret []
  | S n' => let! b := ld8 a in let! r := ld_bytes n' (a + 1) in ret (b :: r)
  end.

Section Vm.
Context {L : Layout}.

(** ** Page tables *)

(** The loop of [walk], from the table at [level] down. *)
Fixpoint walk_from (level : nat) (pt va : Z) (alloc : bool) : M mach Z :=
  match level with
  | O => ret (pt + 8 * PX 0 va)
  | S l =>
    let pte := pt + 8 * PX (Z.of_nat level) va in
    let! v := ld64 pte in
    if has v PTE_V then walk_from l (PTE2PA v) va alloc
    else if negb alloc then ret 0
    else
      let! p := kalloc in
      if p =? 0 then ret 0
      else
        do! memset p 0 PGSIZE;
        do! st64 pte (Z.lor (PA2PTE p) PTE_V);
        walk_from l p va alloc
  end.

Definition walk (pt va : Z) (alloc : bool) : M mach Z :=
  do! check (negb (MAXVA <=? va)) "walk";
  walk_from 2 pt va alloc.

Definition walkaddr (pt va : Z) : M mach Z :=
  if MAXVA <=? va then ret 0
  else
    let! pte := walk pt va false in
    if pte =? 0 then ret 0
    else
      let! v := ld64 pte in
      if negb (has v PTE_V) then ret 0
      else if negb (has v PTE_U) then ret 0
      else ret (PTE2PA v).

Fixpoint mappages_loop (fuel : nat) (pt a last pa perm : Z) : M mach Z :=
  match fuel with
  | O => fun _ => Spin
  | S f =>
    let! pte := walk pt a true in
    if pte =? 0 then ret (-1)
    else
      let! v := ld64 pte in
      do! check (negb (has v PTE_V)) "mappages: remap";
      do! st64 pte (Z.lor (Z.lor (PA2PTE pa) perm) PTE_V);
      if a =? last then ret 0
      else mappages_loop f pt (u64 (a + PGSIZE)) last (u64 (pa + PGSIZE)) perm
  end.

Definition mappages (pt va size pa perm : Z) : M mach Z :=
  do! check (va mod PGSIZE =? 0) "mappages: va not aligned";
  do! check (size mod PGSIZE =? 0) "mappages: size not aligned";
  do! check (negb (size =? 0)) "mappages: size";
  mappages_loop (Z.to_nat (size / PGSIZE)) pt va (u64 (va + size - PGSIZE)) pa perm.

Definition uvmcreate : M mach Z :=
  let! pt := kalloc in
  if pt =? 0 then ret 0
  else do! memset pt 0 PGSIZE; ret pt.

Definition uvmunmap (pt va npages : Z) (do_free : bool) : M mach unit :=
  do! check (va mod PGSIZE =? 0) "uvmunmap: not aligned";
  do! mwhile (R := Empty_set) (Z.to_nat npages)
    (fun a => a <? u64 (va + npages * PGSIZE)) (fun a => u64 (a + PGSIZE))
    (fun a =>
       let! pte := walk pt a false in
       if pte =? 0 then ret None
       else
         let! v := ld64 pte in
         if negb (has v PTE_V) then ret None
         else
           do! (if do_free then kfree (PTE2PA v) else ret tt);
           do! st64 pte 0;
           ret None) va;
  ret tt.

(** The label [clean] is reached with a null [pte] too. *)
Definition kvmunmap (pt va npages : Z) : M mach unit :=
  do! check (va mod PGSIZE =? 0) "kvmunmap: not aligned";
  do! mwhile (R := Empty_set) (Z.to_nat npages)
    (fun a => a <? u64 (va + npages * PGSIZE)) (fun a => u64 (a + PGSIZE))
    (fun a =>
       let! pte := walk pt a false in
       do! (if pte =? 0 then ret tt
            else
              let! v := ld64 pte in
              if negb (has v PTE_V) then ret tt
              else check (negb (PTE_FLAGS v =? PTE_V)) "kvmunmap: not a leaf");
       do! st64 pte 0;
       ret None) va;
  ret tt.

Definition uvmdealloc (pt oldsz newsz : Z) : M mach Z :=
  if oldsz <=? newsz then ret oldsz
  else
    do! (if PGROUNDUP newsz <? PGROUNDUP oldsz
         then uvmunmap pt (PGROUNDUP newsz)
                (i32 ((PGROUNDUP oldsz - PGROUNDUP newsz) / PGSIZE)) true
         else ret tt);
    ret newsz.

Definition uvmalloc (pt oldsz newsz xperm : Z) : M mach Z :=
  if newsz <? oldsz then ret oldsz
  else
    let oldsz := PGROUNDUP oldsz in
    let! r := mwhile (Z.to_nat ((newsz - oldsz) / PGSIZE + 1))
      (fun a => a <? newsz) (fun a => u64 (a + PGSIZE))
      (fun a =>
         let! mem := kalloc in
         if mem =? 0 then
           do! uvmdealloc pt a oldsz;
           ret (Some 0)
         else
           do! memset mem 0 PGSIZE;
           let! e := mappages pt a PGSIZE mem (Z.lor (Z.lor PTE_R PTE_U) xperm) in
           if negb (e =? 0) then
             do! kfree mem;
             do! uvmdealloc pt a oldsz;
             ret (Some 0)
           else ret None) oldsz in
    match r with inl _ => ret newsz | inr v => ret v end.

(** [fuel] bounds the depth of the table: 3 for an Sv39 table. *)
Fixpoint freewalk (fuel : nat) (pt : Z) : M mach unit :=
  match fuel with
  | O => fun _ => Spin
  | S f =>
    do! mloop 512 0 1 (fun i =>
      let! pte := ld64 (pt + 8 * i) in
      if has pte PTE_V && (Z.land pte (Z.lor (Z.lor PTE_R PTE_W) PTE_X) =? 0) then
        do! freewalk f (PTE2PA pte);
        st64 (pt + 8 * i) 0
      else if has pte PTE_V then panic "freewalk: leaf"
      else ret tt);
    kfree pt
  end.

Fixpoint kfreewalk (fuel : nat) (pt : Z) : M mach unit :=
  match fuel with
  | O => fun _ => Spin
  | S f =>
    do! mloop 512 0 1 (fun i =>
      let! pte := ld64 (pt + 8 * i) in
      do! (if has pte PTE_V && (Z.land pte (Z.lor (Z.lor PTE_R PTE_W) PTE_X) =? 0) then
             do! kfreewalk f (PTE2PA pte);
             st64 (pt + 8 * i) 0
           else ret tt);
      st64 (pt + 8 * i) 0);
    kfree pt
  end.

Definition LEVELS : nat := 3.

Definition uvmfree (pt sz : Z) : M mach unit :=
  do! (if 0 <? sz then uvmunmap pt 0 (PGROUNDUP sz / PGSIZE) true else ret tt);
  freewalk LEVELS pt.

(** Share the parent's pages copy-on-write. *)
Definition uvmcopy (old new sz : Z) : M mach Z :=
  let! r := mwhile (Z.to_nat (sz / PGSIZE + 1))
    (fun i => i <? sz) (fun i => u64 (i + PGSIZE))
    (fun i =>
       let! pte := walk old i false in
       if pte =? 0 then ret None
       else
         let! v := ld64 pte in
         if negb (has v PTE_V) then ret None
         else
           let pa := PTE2PA v in
           let flags := PTE_FLAGS v in
           do! (if has flags PTE_W then
                  do! (let! w := ld64 pte in st64 pte (Z.ldiff w PTE_W));
                  let! w := ld64 pte in st64 pte (Z.lor w PTE_COW)
                else ret tt);
           let! v := ld64 pte in
           let flags := PTE_FLAGS v in
           let! e := mappages new i PGSIZE pa flags in
           if negb (e =? 0) then ret (Some i)
           else do! kaddref pa; ret None) 0 in
  match r with
  | inl _ => ret 0
  | inr i => do! uvmunmap new 0 (i / PGSIZE) true; ret (-1)
  end.

Definition uvmclear (pt va : Z) : M mach unit :=
  let! pte := walk pt va false in
  do! check (negb (pte =? 0)) "uvmclear";
  let! v := ld64 pte in
  st64 pte (Z.ldiff v PTE_U).

Definition ismapped (pt va : Z) : M mach bool :=
  let! pte := walk pt va false in
  if pte =? 0 then ret false
  else let! v := ld64 pte in ret (has v PTE_V).

Definition vmfault (pt va : Z) : M mach Z :=
  let! p := curproc in
  if sz p <=? va then ret 0
  else
    let va := PGROUNDDOWN va in
    let! m := ismapped pt va in
    if m then ret 0
    else
      let! mem := kalloc in
      if mem =? 0 then ret 0
      else
        do! memset mem 0 PGSIZE;
        let! e := mappages (pagetable p) va PGSIZE mem (Z.lor (Z.lor PTE_W PTE_U) PTE_R) in
        if negb (e =? 0) then do! kfree mem; ret 0
        else ret mem.

(** ** Copies between kernel and user memory *)

(** [src] is the kernel buffer, [length src] the C argument [len]; every
    round copies at least one byte. *)
Fixpoint copyout_loop (fuel : nat) (pt dstva : Z) (src : list Z) : M mach Z :=
  match src with
  | [] => ret 0
  | _ =>
    match fuel with
    | O => fun _ => Spin
    | S f =>
      let va0 := PGROUNDDOWN dstva in
      if MAXVA <=? va0 then ret (-1)
      else
        let! pa0 := walkaddr pt va0 in
        let! pa0 := (if pa0 =? 0 then vmfault pt va0 else ret pa0) in
        if pa0 =? 0 then ret (-1)
        else
          let! pte := walk pt va0 false in
          let! v := ld64 pte in
          if negb (has v PTE_W) then ret (-1)
          else
            let n := Z.min (PGSIZE - (dstva - va0)) (Z.of_nat (length src)) in
            do! st_bytes (pa0 + (dstva - va0)) (take (Z.to_nat n) src);
            copyout_loop f pt (u64 (va0 + PGSIZE)) (drop (Z.to_nat n) src)
    end
  end.
Definition copyout (pt dstva : Z) (src : list Z) : M mach Z :=
  copyout_loop (length src) pt dstva src.

(** The bytes of one page, up to a NUL or [n]. *)
Fixpoint copy_nul (n : nat) (p : Z) : M mach (list Z * bool) :=
  match n with
  | O => ret ([], false)
  | S n' =>
    let! c := ld8 p in
    if c =? 0 then ret ([0], true)
    else let! r := copy_nul n' (p + 1) in ret (c :: fst r, snd r)
  end.

(** Result and the bytes stored at [dst]. *)
Fixpoint copyinstr_loop (fuel : nat) (pt srcva max : Z) : M mach (Z * list Z) :=
  if max <=? 0 then ret (-1, [])
  else
    match fuel with
    | O => fun _ => Spin
    | S f =>
      let va0 := PGROUNDDOWN srcva in
      let! pa0 := walkaddr pt va0 in
      if pa0 =? 0 then ret (-1, [])
      else
        let n := Z.min (PGSIZE - (srcva - va0)) max in
        let! r := copy_nul (Z.to_nat n) (pa0 + (srcva - va0)) in
        if snd r then ret (0, fst r)
        else
          let! r' := copyinstr_loop f pt (u64 (va0 + PGSIZE)) (max - n) in
          ret (fst r', fst r ++ snd r')
    end.
Definition copyinstr (pt srcva max : Z) : M mach (Z * list Z) :=
  copyinstr_loop (Z.to_nat max) pt srcva max.

(** The address translation of a load in supervisor mode; a page fault in
    the kernel ends in [kerneltrap]'s panic. *)
Fixpoint translate (level : nat) (pt va : Z) : M mach Z :=
  let! v := ld64 (pt + 8 * PX (Z.of_nat level) va) in
  if negb (has v PTE_V) then panic "kerneltrap"
  else if has v PTE_R || has v PTE_X then
    if has v PTE_R && negb (has v PTE_U) then ret (PTE2PA v + va mod 2 ^ PXSHIFT (Z.of_nat level))
    else panic "kerneltrap"
  else match level with O => panic "kerneltrap" | S l => translate l (PTE2PA v) va end.

(** A byte at a virtual address, through the page table [satp] names. *)
Definition load_virtual (va : Z) : M mach Z :=
  let! c := lk mycpu in
  let r := satp (csr c) in
  let! pa := (if Z.shiftr r 60 =? 8
              then if MAXVA <=? va then panic "kerneltrap" else translate 2 (Z.shiftl (Z.land r (Z.ones 44)) 12) va
              else ret va) in
  ld8 pa.
Fixpoint load_bytes (n : nat) (va : Z) : M mach (list Z) :=
  match n with
  | O => ret []
  | S n' => let! b := load_virtual va in let! r := load_bytes n' (u64 (va + 1)) in ret (b :: r)
  end.

(** [memmove(dst, (void * )srcva, len)]: the result and the bytes at [dst]. *)
Definition copyin_new (pt srcva len : Z) : M mach (Z * list Z) :=
  let! l := load_bytes (Z.to_nat len) srcva in ret (0, l).
Definition copyin (pt srcva len : Z) : M mach (Z * list Z) := copyin_new pt srcva len.

(** Make [kernel_pt] map the user pages between two sizes, read-only for
    the supervisor. *)
Definition copy_proc_to_kernel (proc_pt kernel_pt oldsz newsz : Z) : M mach unit :=
  do! check (negb (PLIC <=? newsz)) "user processes exceed PLIC";
  do! mwhile (R := Empty_set) (Z.to_nat ((newsz - oldsz) / PGSIZE + 1))
    (fun a => a <? newsz) (fun a => u64 (a + PGSIZE))
    (fun a =>
       let! pte1 := walk proc_pt a false in
       do! check (negb (pte1 =? 0)) "no user pte";
       let! v1 := ld64 pte1 in
       do! check (has v1 PTE_V) "no valid user pte";
       let! pte2 := walk kernel_pt a true in
       do! check (negb (pte2 =? 0)) "no kernel pte";
       let! v1 := ld64 pte1 in
       do! st64 pte2 v1;
       let! v2 := ld64 pte2 in
       do! st64 pte2 (Z.ldiff v2 (Z.lor (Z.lor PTE_U PTE_W) PTE_X));
       ret None) oldsz;
  ret tt.

(** ** The kernel's own page table *)

Definition kvmmap (pt va pa sz perm : Z) : M mach unit :=
  let! e := mappages pt va sz pa perm in
  check (e =? 0) "kvmmap".

Definition proc_mapstacks (pt : Z) : M mach unit :=
  mloop (Z.to_nat NPROC) 0 1 (fun p =>
    let! pa := kalloc in
    do! check (negb (pa =? 0)) "kalloc";
    kvmmap pt (KSTACK p) pa PGSIZE (Z.lor PTE_R PTE_W)).

Definition kvmmake : M mach Z :=
  let! pt := kalloc in
  do! memset pt 0 PGSIZE;
  do! kvmmap pt UART0 UART0 PGSIZE (Z.lor PTE_R PTE_W);
  do! kvmmap pt VIRTIO0 VIRTIO0 PGSIZE (Z.lor PTE_R PTE_W);
  do! kvmmap pt PLIC PLIC 67108864 (Z.lor PTE_R PTE_W);
  do! kvmmap pt KERNBASE KERNBASE (etext - KERNBASE) (Z.lor PTE_R PTE_X);
  do! kvmmap pt etext etext (PHYSTOP - etext) (Z.lor PTE_R PTE_W);
  do! kvmmap pt TRAMPOLINE trampoline PGSIZE (Z.lor PTE_R PTE_X);
  do! proc_mapstacks pt;
  ret pt.
End Vm.

(** ** The running process *)

Lemma wp_myproc d c (Q : option nat -> mach -> Prop) s :
  lk_ok d (lks s) -> 1 <= d -> cur (lks s) = Some c ->
  (forall K, lk_eq (lks s) K -> Q (c_proc c) (set_lks K s)) -> wp myproc Q s.
Proof.
  intros Hok Hd Hc HQ. unfold myproc. wsteps.
  apply wp_lk. unfold wp. pose proof Hok as (c' & Hc' & Hn0 & Hn1 & _).
  rewrite Hc in Hc'. injection Hc' as <-.
  rewrite (push_off_eq _ c); [|done|lia]. fold (wp (S := mach) (A := option nat)).
  set (K1 := put_cur (pushed c) (lks s)).
  assert (cur K1 = Some (pushed c)) as Hc1 by (eapply cur_put_cur; eauto).
  apply wp_bind, wp_lk. unfold wp, mycpu. simpl. unfold orfault. rewrite Hc1.
  change (wp (do! lk pop_off; ret (c_proc (pushed c))) Q (set_lks K1 s)).
  wsteps. apply (wp_pop_off d (lks s) K1); [done|done|apply push_off_eq; [done|lia]|reflexivity|].
  intros K HK. wsteps. simpl. now apply HQ.
Qed.
