(* ===== verification/Pagetable.v ===== *)
(** * Page tables as finite functions

    The abstract view of an Sv39 table held in memory ([tab], [pte_of]),
    its well-formedness (the tables are distinct allocated pages), and the
    effect on it of linking a new table and of writing a leaf entry. *)

From S2P Require Import Prelude.
From S2P Require Import Mach.
From S2P Require Import Spinlock.
From S2P Require Import Kstring.
From S2P Require Import Kalloc.
From S2P Require Import Vm.

(** Positions of tables: the root, one table per level-2 index, one per
    pair of indices. *)
Inductive tpath : Type := Root | Mid (i : Z) | Low (i j : Z).
#[export] Instance tpath_eq_dec : EqDecision tpath.
Proof. solve_decision. Defined.

Definition idx (i : Z) : Prop := 0 <= i < 512.
Definition valid (t : tpath) : Prop :=
  match t with Root => True | Mid i => idx i | Low i j => idx i /\ idx j end.

(** Entry [i] of the table at [p], and the page it points to. *)
Definition ent (m : gmap Z Z) (p i : Z) : Z := rdn 8 m (p + 8 * i).
Definition nxt (m : gmap Z Z) (p i : Z) : option Z :=
  if has (ent m p i) PTE_V then Some (PTE2PA (ent m p i)) else None.
Definition tab (m : gmap Z Z) (root : Z) (t : tpath) : option Z :=
  match t with
  | Root => Some root
  | Mid i => nxt m root i
  | Low i j => match nxt m root i with Some p => nxt m p j | None => None end
  end.

(** The address of the leaf entry of [va], and its value (0 without one). *)
Definition leaf (m : gmap Z Z) (root va : Z) : option Z :=
  match tab m root (Low (PX 2 va) (PX 1 va)) with
  | Some p => Some (p + 8 * PX 0 va)
  | None => None
  end.
Definition pte_of (m : gmap Z Z) (root va : Z) : Z :=
  match leaf m root va with Some a => rdn 8 m a | None => 0 end.

Section Pt.
Context {L : Layout} {LO : LayoutOk L}.
Implicit Types (s : mach) (m : gmap Z Z) (root va : Z) (t : tpath).

(** Every table is an allocated page, and no page serves twice. *)
Record pt_wf (s : mach) (root : Z) : Prop := {
  wf_page : forall t p, valid t -> tab (ram s) root t = Some p -> page_ok p /\ 0 < ref s p;
  wf_inj : forall t t' p, valid t -> valid t' ->
    tab (ram s) root t = Some p -> tab (ram s) root t' = Some p -> t = t';
}.

Definition is_table (s : mach) (root p : Z) : Prop :=
  exists t, valid t /\ tab (ram s) root t = Some p.

Lemma is_table_intro s root t q : valid t -> tab (ram s) root t = Some q -> is_table s root q.
Proof. intros. now exists t. Qed.

(** ** Entries and memory *)

Lemma ent_addr p i : page_ok p -> idx i ->
  KERNBASE <= p + 8 * i /\ p + 8 * i + 8 <= PHYSTOP /\ p <= p + 8 * i /\ p + 8 * i + 8 <= p + 4096.
Proof. intros Hp Hi. destruct (page_ok_ram p Hp). unfold idx in Hi. lia. Qed.

Lemma ent_same m m' p i :
  idx i -> (forall a, p <= a < p + 4096 -> rd m' a = rd m a) -> ent m' p i = ent m p i.
Proof. intros Hi H. unfold idx in Hi. apply rdn_ext. intros b Hb. apply H. lia. Qed.

Lemma ent_range m p i : 0 <= ent m p i < 18446744073709551616.
Proof. apply rdn8_range. Qed.

Lemma ent_wrn_eq m p i v : 0 <= v < 18446744073709551616 -> ent (wrn 8 m (p + 8 * i) v) p i = v.
Proof. intros. now apply (rdn_wrn_eq 8). Qed.

Lemma ent_wrn_ne m p i q j v :
  page_ok p -> page_ok q -> idx i -> idx j -> (q, j) <> (p, i) ->
  ent (wrn 8 m (p + 8 * i) v) q j = ent m q j.
Proof.
  intros Hp Hq Hi Hj Hne. unfold idx in *. apply (rdn_wrn_ne 8 8). simpl.
  destruct (decide (q = p)) as [->|Hd].
  - assert (j <> i) by congruence. lia.
  - destruct (page_disjoint q p Hq Hp Hd); lia.
Qed.

Lemma PX_idx l va : idx (PX l va).
Proof. apply PX_range. Qed.

(** A page-aligned address below [MAXVA] is determined by its indices. *)
Lemma PX_inj va va' :
  0 <= va < MAXVA -> 0 <= va' < MAXVA -> va mod 4096 = 0 -> va' mod 4096 = 0 ->
  PX 2 va = PX 2 va' -> PX 1 va = PX 1 va' -> PX 0 va = PX 0 va' -> va = va'.
Proof.
  intros H1 H2 H3 H4. rewrite !PX_eq by lia.
  change (2 ^ (12 + 9 * 2)) with 1073741824. change (2 ^ (12 + 9 * 1)) with 2097152.
  change (2 ^ (12 + 9 * 0)) with 4096.
  assert (forall x, 0 <= x < MAXVA -> x / 1073741824 mod 512 = x / 1073741824) as E2.
  { intros x Hx. apply Z.mod_small. split; [apply Z.div_pos; lia|apply Z.div_lt_upper_bound; lia]. }
  rewrite !E2 by done. intros P2 P1 P0.
  assert (forall x, x / 1073741824 = x / 2097152 / 512) as D2
    by (intros; rewrite Z.div_div by lia; done).
  assert (forall x, x / 2097152 = x / 4096 / 512) as D1
    by (intros; rewrite Z.div_div by lia; done).
  assert (va / 2097152 = va' / 2097152) as E1.
  { rewrite (Z.div_mod (va / 2097152) 512), (Z.div_mod (va' / 2097152) 512) by lia.
    rewrite <- !D2. congruence. }
  assert (va / 4096 = va' / 4096) as E0.
  { rewrite (Z.div_mod (va / 4096) 512), (Z.div_mod (va' / 4096) 512) by lia.
    rewrite <- !D1. congruence. }
  pose proof (Z.div_mod va 4096). pose proof (Z.div_mod va' 4096). lia.
Qed.

(** ** Reading a table *)

Lemma wp_ent p i (Q : Z -> mach -> Prop) s :
  page_ok p -> idx i -> Q (ent (ram s) p i) s -> wp (ld64 (p + 8 * i)) Q s.
Proof. intros Hp Hi HQ. destruct (ent_addr p i Hp Hi). apply wp_ld64; try lia. done. Qed.

Lemma nxt_some m p i : has (ent m p i) PTE_V = true -> nxt m p i = Some (PTE2PA (ent m p i)).
Proof. unfold nxt. now intros ->. Qed.
Lemma nxt_none m p i : has (ent m p i) PTE_V = false -> nxt m p i = None.
Proof. unfold nxt. now intros ->. Qed.

(** [walk] without allocation only reads, and finds the leaf entry. *)
Lemma walk_noalloc s root va :
  pt_wf s root -> va < MAXVA ->
  walk root va false s = Ret (default 0 (leaf (ram s) root va)) s.
Proof.
  intros Hwf Hva.
  assert (wp (walk root va false)
    (fun r s' => r = default 0 (leaf (ram s) root va) /\ s' = s) s) as H.
  2: { apply wp_Ret in H as (r & s' & -> & -> & ->). done. }
  unfold walk. wsteps; [destruct (Z.leb_spec MAXVA va); [lia|done]|].
  unfold leaf, tab. simpl. destruct (wf_page _ _ Hwf Root root) as [Hr _]; [done..|]. wsteps.
  apply (wp_ent root (PX 2 va)); [done|apply PX_idx|].
  destruct (has (ent (ram s) root (PX 2 va)) PTE_V) eqn:E2.
  - rewrite (nxt_some _ _ _ E2). set (p1 := PTE2PA _).
    assert (tab (ram s) root (Mid (PX 2 va)) = Some p1) as T1 by (simpl; now rewrite (nxt_some _ _ _ E2)).
    destruct (wf_page _ _ Hwf (Mid (PX 2 va)) p1 (PX_idx 2 va) T1) as [Hp1 _]. wsteps.
    apply (wp_ent p1 (PX 1 va)); [done|apply PX_idx|].
    destruct (has (ent (ram s) p1 (PX 1 va)) PTE_V) eqn:E1.
    + rewrite (nxt_some _ _ _ E1). now apply wp_ret.
    + rewrite (nxt_none _ _ _ E1). now apply wp_ret.
  - rewrite (nxt_none _ _ _ E2). now apply wp_ret.
Qed.

Lemma leaf_addr s root va a :
  pt_wf s root -> leaf (ram s) root va = Some a ->
  exists p, tab (ram s) root (Low (PX 2 va) (PX 1 va)) = Some p /\ page_ok p /\ a = p + 8 * PX 0 va.
Proof.
  intros Hwf. unfold leaf. destruct (tab _ _ _) as [p|] eqn:E; [|done]. intros [= <-].
  exists p. split; [done|]. split; [|done].
  apply (wf_page _ _ Hwf (Low (PX 2 va) (PX 1 va))); [split; apply PX_idx|done].
Qed.

Lemma leaf_pos s root va a : pt_wf s root -> leaf (ram s) root va = Some a ->
  KERNBASE <= a /\ a + 8 <= PHYSTOP.
Proof.
  intros Hwf Hl. destruct (leaf_addr s root va a Hwf Hl) as (p & _ & Hp & ->).
  destruct (ent_addr p _ Hp (PX_idx 0 va)). lia.
Qed.

Lemma wp_walk_noalloc s root va (Q : Z -> mach -> Prop) :
  pt_wf s root -> va < MAXVA -> Q (default 0 (leaf (ram s) root va)) s -> wp (walk root va false) Q s.
Proof. intros Hwf Hva HQ. unfold wp. now rewrite walk_noalloc. Qed.

(** [walkaddr]: the page of a valid user mapping, 0 otherwise. *)
Lemma walkaddr_eq s root va :
  pt_wf s root ->
  walkaddr root va s = Ret
    (if (va <? MAXVA) && has (pte_of (ram s) root va) PTE_V && has (pte_of (ram s) root va) PTE_U
     then PTE2PA (pte_of (ram s) root va) else 0) s.
Proof.
  intros Hwf. unfold walkaddr.
  destruct (Z.leb_spec MAXVA va) as [Hle|Hlt].
  { rewrite (proj2 (Z.ltb_ge _ _)) by lia. done. }
  rewrite (proj2 (Z.ltb_lt _ _)) by lia. simpl.
  erewrite bind_Ret by (apply walk_noalloc; [done|lia]).
  unfold pte_of. destruct (leaf (ram s) root va) as [a|] eqn:E; simpl; [|done].
  destruct (leaf_pos s root va a Hwf E) as [Ha1 Ha2].
  destruct (Z.eqb_spec a 0) as [->|_]; [lia|].
  unfold bind, ld64. rewrite (proj2 (in_ram_spec a 8)) by done. simpl.
  destruct (has _ PTE_V); simpl; [|done]. destruct (has _ PTE_U); done.
Qed.

(** ** Linking a table, writing a leaf *)

Definition child (t : tpath) (k : Z) : tpath :=
  match t with Root => Mid k | Mid i => Low i k | Low i j => Low i j end.
Definition inner (t : tpath) : Prop := match t with Low _ _ => False | _ => True end.

(** A new table [q], empty, hung on the free entry [k] of table [t], adds
    one position and moves no other. *)
Lemma tab_link m m' root t p k q :
  (forall t t' p, valid t -> valid t' -> tab m root t = Some p -> tab m root t' = Some p -> t = t') ->
  valid t -> inner t -> idx k -> tab m root t = Some p -> nxt m p k = None -> nxt m' p k = Some q ->
  (forall t' p' j, valid t' -> tab m root t' = Some p' -> idx j -> (p', j) <> (p, k) ->
     nxt m' p' j = nxt m p' j) ->
  (forall j, idx j -> nxt m' q j = None) ->
  forall t', valid t' -> tab m' root t' = if decide (t' = child t k) then Some q else tab m root t'.
Proof.
  intros Hinj Hv Hin Hk Ht Hfree Hnew Hkeep Hq t' Hv'.
  destruct t as [|i|]; [| |done]; simpl in Ht; simpl.
  - injection Ht as ->. destruct t' as [|i'|i' j']; simpl.
    + done.
    + destruct (decide (i' = k)) as [->|Hne].
      * now rewrite decide_True.
      * rewrite decide_False by congruence. apply (Hkeep Root); auto; congruence.
    + destruct Hv' as [Hi' Hj']. destruct (decide (i' = k)) as [->|Hne].
      * rewrite Hnew, Hfree. now apply Hq.
      * rewrite (Hkeep Root p i') by (auto; congruence).
        destruct (nxt m p i') as [p'|] eqn:E; [|done].
        apply (Hkeep (Mid i') p' j'); auto. intros [= -> _].
        now specialize (Hinj Root (Mid i') p I Hi' eq_refl E).
  - assert (root <> p) as Hrp.
    { intros ->. now specialize (Hinj Root (Mid i) p I Hv eq_refl Ht). }
    destruct t' as [|i'|i' j']; simpl.
    + done.
    + apply (Hkeep Root); auto. congruence.
    + destruct Hv' as [Hi' Hj'].
      rewrite (Hkeep Root root i') by (auto; congruence).
      destruct (nxt m root i') as [p'|] eqn:E.
      * destruct (decide ((i', j') = (i, k))) as [[= -> ->]|Hne].
        -- rewrite decide_True by done. congruence.
        -- rewrite decide_False by congruence. apply (Hkeep (Mid i') p' j'); auto.
           intros [= -> ->]. apply Hne. f_equal.
           now specialize (Hinj (Mid i') (Mid i) p Hi' Hv E Ht) as [= ->].
      * rewrite decide_False; [done|]. intros [= -> ->]. congruence.
Qed.

(** Tables see only the entries of tables above the leaves. *)
Lemma tab_same m m' root :
  (forall t p j, valid t -> inner t -> tab m root t = Some p -> idx j -> nxt m' p j = nxt m p j) ->
  forall t, valid t -> tab m' root t = tab m root t.
Proof.
  intros H [|i|i j] Hv; simpl; [done|now apply (H Root)|]. destruct Hv as [Hi Hj].
  rewrite (H Root root i) by done.
  destruct (nxt m root i) as [p|] eqn:E; [|done]. now apply (H (Mid i)).
Qed.

(** ** The state of the allocator and of one table, as calls change them

    [grows fls s fls' s' root n upd]: at most [n] free pages went into new
    tables of [root]; the leaf entries of the addresses in [upd] took the
    values given there and no other entry changed; allocated pages that
    are not tables of [root] kept their contents, and every allocated page
    its reference count. *)
Record grows (fls : list (list Z)) (s : mach) (fls' : list (list Z)) (s' : mach)
    (root : Z) (n : nat) (upd : gmap Z Z) : Prop := {
  g_inv : kmem_inv fls' s';
  g_wf : pt_wf s' root;
  g_pte : forall va, 0 <= va < MAXVA -> va mod 4096 = 0 ->
    pte_of (ram s') root va = default (pte_of (ram s) root va) (upd !! va);
  g_same : same_kernel s s';
  g_free : (length (concat fls) <= length (concat fls') + n)%nat;
  g_sub : forall q, q ∈ concat fls' -> q ∈ concat fls;
  g_ref : forall q, page_ok q -> 0 < ref s q -> ref s' q = ref s q;
  g_mem : forall q a, page_ok q -> 0 < ref s q -> ~ is_table s root q -> q <= a < q + 4096 ->
    rd (ram s') a = rd (ram s) a;
  g_low : forall a, a < end_ -> rd (ram s') a = rd (ram s) a;
  g_tab : forall t p, valid t -> tab (ram s) root t = Some p -> tab (ram s') root t = Some p;
  g_new : forall q, is_table s' root q -> is_table s root q \/ q ∈ concat fls;
}.

Lemma grows_refl fls s root : kmem_inv fls s -> pt_wf s root -> grows fls s fls s root 0 ∅.
Proof. intros. constructor; auto; try reflexivity. lia. Qed.

Lemma grows_trans fls1 s1 fls2 s2 fls3 s3 root n k u1 u2 :
  kmem_inv fls1 s1 ->
  grows fls1 s1 fls2 s2 root n u1 -> grows fls2 s2 fls3 s3 root k u2 ->
  grows fls1 s1 fls3 s3 root (n + k) (u2 ∪ u1).
Proof.
  intros H0 [A1 A2 A3 A4 A5 A6 A7 A8 A9 A10 A11] [B1 B2 B3 B4 B5 B6 B7 B8 B9 B10 B11].
  constructor; auto.
  - intros va H1 H2. rewrite B3, A3 by done. rewrite lookup_union. 
    destruct (u2 !! va), (u1 !! va); done.
  - now rewrite A4.
  - lia.
  - intros q Hq Hr. rewrite B7; auto. now rewrite A7.
  - intros q a Hq Hr Ht Ha. rewrite (B8 q a), (A8 q a); auto; [now rewrite A7|]. intros [t [Hv Htab]].
    destruct (A11 q) as [|Hin]; [now exists t|done|].
    apply (inv_free _ _ H0 q Hq) in Hin. lia.
  - intros a Ha. rewrite B9; auto.
  - intros q Hq. destruct (B11 q Hq) as [Hq'|Hq']; auto.
Qed.

(** The bit [PTE_V] of an entry that points to [q]. *)
Lemma link_pte q : page_ok q ->
  0 <= Z.lor (PA2PTE q) PTE_V < 18446744073709551616 /\
  PTE2PA (Z.lor (PA2PTE q) PTE_V) = q /\ has (Z.lor (PA2PTE q) PTE_V) PTE_V = true.
Proof.
  intros Hq. destruct (page_ok_ram q Hq). pose proof Hq as (Hal & _).
  destruct (pte_split q PTE_V) as [E _]; [lia|done|change PTE_V with 1; lia|].
  split; [|split; [done|]].
  - rewrite PA2PTE_eq by lia. pose proof (lor_low (q / 4096) PTE_V 10) as HL.
    change (2 ^ 10) with 1024 in HL. rewrite HL by (change PTE_V with 1; lia).
    pose proof (Z.div_pos q 4096). pose proof (Z.mul_div_le q 4096).
    change PTE_V with 1. lia.
  - unfold PTE_V at 2. rewrite has_bit by lia. rewrite Z.lor_spec. apply orb_true_r.
Qed.

Lemma rdn_zero n m a : (forall b, a <= b < a + Z.of_nat n -> rd m b = 0) -> rdn n m a = 0.
Proof.
  revert a. induction n as [|n IH]; intros a H; unfold rdn; fold rdn; [done|].
  rewrite (H a), (IH (a + 1)) by (intros; try apply H; lia). done.
Qed.

Lemma not_table_free fls s root q :
  kmem_inv fls s -> pt_wf s root -> q ∈ concat fls -> ~ is_table s root q.
Proof.
  intros Hinv Hwf Hq (t & Hv & Ht). destruct (wf_page _ _ Hwf t q Hv Ht) as [Hp Hr].
  apply (inv_free _ _ Hinv q Hp) in Hq. lia.
Qed.

(** One fresh, zeroed page [q] linked at entry [k] of table [t]. *)
Section LinkPage.
Variables (fls : list (list Z)) (s s1 : mach) (root : Z) (t : tpath) (p k q : Z) (i : nat) (l : list Z) (m : gmap Z Z).
Hypothesis Hinv : kmem_inv fls s.
Hypothesis Hwf : pt_wf s root.
Hypothesis Hv : valid t.
Hypothesis Hin : inner t.
Hypothesis Hk : idx k.
Hypothesis Ht : tab (ram s) root t = Some p.
Hypothesis Hfree : nxt (ram s) p k = None.
Hypothesis Hall : allocated fls s i l q s1.
Hypothesis Hm : forall a, rd m a = if decide (q <= a < q + 4096) then 0 else rd (ram s) a.
Let v : Z := Z.lor (PA2PTE q) PTE_V.
Let m' := wrn 8 m (p + 8 * k) v.

Lemma linked_free : concat fls ≡ₚ q :: concat (<[i := l]> fls).
Proof. destruct Hall as (A1 & _). apply (concat_pop _ _ _ _ A1). Qed.
Lemma linked_page : page_ok q /\ page_ok p /\ q <> p /\ ref s q = 0 /\ ~ is_table s root q.
Proof.
  destruct Hall as (A1 & _ & A3 & _). assert (q ∈ concat fls) as Hqf by (rewrite linked_free; left). destruct (wf_page _ _ Hwf t p Hv Ht) as [Hp Hpr].
  assert (ref s q = 0) as Hq0 by (now apply (inv_free _ _ Hinv q A3)). split; [done|]. split; [done|]. split; [intros ->; lia|]. split; [done|]. now apply (not_table_free fls).
Qed.
Lemma linked_rd a : p <= a < p + 4096 \/ rd m' a = if decide (q <= a < q + 4096) then 0 else rd (ram s) a.
Proof.
  destruct linked_page as (_ & Hp & _). destruct (ent_addr p k Hp Hk) as (_ & _ & ? & ?). destruct (decide (p <= a < p + 4096)); [now left|right].
  unfold m'. rewrite rd_wrn_out by (simpl; lia). apply Hm.
Qed.
(** A page that is neither of the two. *)
Lemma linked_else q' a : page_ok q' -> q' <> q -> q' <> p -> q' <= a < q' + 4096 -> rd m' a = rd (ram s) a.
Proof.
  destruct linked_page as (Hq & Hp & _). intros Hq' H1 H2 Ha. destruct (linked_rd a) as [Hra|Hra]; [destruct (page_disjoint q' p Hq' Hp); auto; lia|].
  rewrite Hra, decide_False; [done|]. destruct (page_disjoint q' q Hq' Hq); auto; lia.
Qed.
Lemma linked_keep p' j : page_ok p' -> p' <> q -> idx j -> (p', j) <> (p, k) -> ent m' p' j = ent (ram s) p' j.
Proof.
  destruct linked_page as (Hq & Hp & _). intros Hp' Hne Hj Hpk. unfold m'. rewrite ent_wrn_ne by done. apply ent_same; [done|].
  intros a Ha. rewrite Hm, decide_False; [done|]. destruct (page_disjoint p' q Hp' Hq Hne); lia.
Qed.
Lemma linked_zero j : idx j -> ent m' q j = 0.
Proof.
  destruct linked_page as (Hq & Hp & Hne & _). intros Hj. unfold m'. rewrite ent_wrn_ne by (auto; congruence).
  unfold ent. apply rdn_zero. intros b Hb. unfold idx in Hj. rewrite Hm, decide_True; [done|lia].
Qed.
Lemma linked_old t' p' : valid t' -> tab (ram s) root t' = Some p' -> page_ok p' /\ p' <> q.
Proof. intros Hv' Ht'. split; [now apply (wf_page _ _ Hwf t')|]. intros ->. apply linked_page. now exists t'. Qed.
Lemma linked_tab t' : valid t' -> tab m' root t' = if decide (t' = child t k) then Some q else tab (ram s) root t'.
Proof.
  destruct linked_page as (Hq & Hp & Hne & _). destruct (link_pte q Hq) as (V1 & V2 & V3). fold v in V1, V2, V3. apply (tab_link (ram s) m' root t p k q); auto.
  - intros. eapply (wf_inj _ _ Hwf); eauto.
  - rewrite nxt_some; unfold m'; rewrite ent_wrn_eq by done; [now rewrite V2|done].
  - intros t1 p' j Hv' Ht' Hj Hn. destruct (linked_old t1 p' Hv' Ht'). unfold nxt. now rewrite linked_keep.
  - intros j Hj. apply nxt_none. now rewrite linked_zero.
Qed.
Lemma linked_child : valid (child t k) /\ tab (ram s) root (child t k) = None.
Proof. split; [destruct t; simpl in *; done|]. destruct t; simpl in *; [congruence|rewrite Ht; done|done]. Qed.

Lemma linked_wf : pt_wf (set_ram m' s1) root.
Proof.
  destruct Hall as (A1 & A2 & A3 & A4 & A5 & A6 & A7). constructor.
  - intros t' p' Hv' Ht'. simpl in Ht'. rewrite linked_tab in Ht' by done.
    destruct (decide (t' = child t k)); [injection Ht' as <-; split; [done|]; change (0 < ref s1 q); lia|].
    destruct (wf_page _ _ Hwf t' p' Hv' Ht'). split; [done|]. change (0 < ref s1 p'). rewrite A6; auto. apply (linked_old t'); auto.
  - intros t1 t2 p' Hv1 Hv2 H1 H2. simpl in H1, H2. rewrite linked_tab in H1, H2 by done.
    destruct (decide (t1 = child t k)) as [->|], (decide (t2 = child t k)) as [->|]; [done|..].
    + injection H1 as <-. exfalso. now apply (linked_old t2 q).
    + injection H2 as <-. exfalso. now apply (linked_old t1 q).
    + eapply (wf_inj _ _ Hwf); eauto.
Qed.
Lemma linked_inv : kmem_inv (<[i := l]> fls) (set_ram m' s1).
Proof.
  destruct Hall as (A1 & A2 & A3 & A4 & A5 & A6 & A7). destruct linked_page as (Hq & Hp & Hqp & Hq0 & _). destruct (wf_page _ _ Hwf t p Hv Ht) as [_ Hpr].
  pose proof linked_free as HP. eapply kmem_inv_frame; [exact A2|done|..].
  - intros p' a Hp' Ha. simpl. rewrite A5. assert (page_ok p') as Hpp by (apply (inv_pages _ _ Hinv); rewrite HP; now right).
    assert (p' <> q) as Hpq by (intros ->; pose proof (inv_nodup _ _ Hinv) as Hnd; rewrite HP in Hnd; now apply NoDup_cons in Hnd as [? _]).
    assert (p' <> p) as Hpp' by (intros ->; assert (ref s p = 0); [apply (inv_free _ _ Hinv p Hp); rewrite HP; now right|lia]).
    rewrite decide_False by (destruct (page_disjoint p' q Hpp A3 Hpq); lia). now apply (linked_else p').
  - intros p' Hp'. split; [apply (inv_ref _ _ A2 p' Hp')|done].
Qed.
(** No mapping has changed. *)
Lemma linked_pte va : pte_of m' root va = pte_of (ram s) root va.
Proof.
  unfold pte_of, leaf. rewrite linked_tab by (split; apply PX_idx). destruct (decide _) as [E|E].
  - rewrite E, (proj2 linked_child). apply (linked_zero (PX 0 va)), PX_idx.
  - destruct (tab (ram s) root (Low (PX 2 va) (PX 1 va))) as [p'|] eqn:E'; [|done].
    destruct (linked_old (Low (PX 2 va) (PX 1 va)) p') as [Hp' Hne]; [split; apply PX_idx|done|].
    apply linked_keep; auto using PX_idx. intros [= -> _]. pose proof (wf_inj _ _ Hwf (Low (PX 2 va) (PX 1 va)) t p) as Ei.
    rewrite <- Ei in Hin; try done. split; apply PX_idx.
Qed.

Lemma link_grows : grows fls s (<[i := l]> fls) (set_ram m' s1) root 1 ∅ /\ tab m' root (child t k) = Some q.
Proof.
  destruct linked_child as [Hvc Hcnone]. split; [|rewrite linked_tab, decide_True; done]. destruct Hall as (A1 & A2 & A3 & A4 & A5 & A6 & A7).
  destruct linked_page as (Hq & Hp & Hqp & Hq0 & _). pose proof linked_free as HP. constructor; auto using linked_wf, linked_inv.
  - intros va _ _. rewrite lookup_empty. apply linked_pte.
  - rewrite HP. simpl. lia.
  - intros q' Hq'. rewrite HP. now right.
  - intros q' Hq' Hr. change (ref s1 q' = ref s q'). apply A6; auto. intros ->. lia.
  - intros q' a Hq' Hr Hnt' Ha. apply (linked_else q'); auto; [intros ->; lia|intros ->; apply Hnt'; now exists t].
  - intros a Ha. pose proof Hp as (_ & Hpe & _). pose proof A3 as (_ & Hqe & _). destruct (linked_rd a) as [Hra|Hra]; [lia|]. simpl. rewrite Hra, decide_False; [done|lia].
  - intros t' p' Hv' Ht'. change (ram (set_ram m' s1)) with m'. rewrite linked_tab by done. rewrite decide_False; [done|]. intros ->. congruence.
  - intros q' (t' & Hv' & Ht'). change (ram (set_ram m' s1)) with m' in Ht'. rewrite linked_tab in Ht' by done.
    destruct (decide _); [injection Ht' as <-; right; rewrite HP; left|left; now exists t'].
Qed.
End LinkPage.

Lemma grows_le fls s fls' s' root n k u :
  (n <= k)%nat -> grows fls s fls' s' root n u -> grows fls s fls' s' root k u.
Proof. intros Hle []. constructor; auto. lia. Qed.

(** One round of the loop of [walk]: follow the entry, or hang a new table
    on it. *)
Lemma walk_from_step l p va root t fls s (Q : Z -> mach -> Prop) :
  let k := PX (Z.of_nat (S l)) va in
  kmem_inv fls s -> quiet 2 s -> pt_wf s root -> concat fls <> [] ->
  valid t -> inner t -> tab (ram s) root t = Some p ->
  (forall fls' s' q, grows fls s fls' s' root 1 ∅ -> tab (ram s') root (child t k) = Some q ->
     wp (walk_from l q va true) Q s') ->
  wp (walk_from (S l) p va true) Q s.
Proof.
  intros k Hinv Hq Hwf Hne Hv Hin Ht HQ. unfold walk_from; fold walk_from. fold k. wsteps.
  destruct (wf_page _ _ Hwf t p Hv Ht) as [Hp _].
  apply wp_ent; [done|apply PX_idx|].
  destruct (has (ent (ram s) p k) PTE_V) eqn:Ev.
  - apply (HQ fls); [apply (grows_le _ _ _ _ _ 0); [lia|]; apply grows_refl; [exact Hinv|exact Hwf]|].
    destruct t; simpl in *; [injection Ht as ->|rewrite Ht|done]; now apply nxt_some.
  - simpl. wsteps. eapply wp_mono; [now apply (kalloc_spec fls)|].
    intros q s1 (j & li & _ & Ha & _). pose proof Ha as (_ & _ & Hqp & _).
    destruct (page_ok_ram q Hqp). destruct (Z.eqb_spec q 0); [lia|]. wsteps.
    eapply wp_mono; [apply memset_spec; lia|]. intros r s2 (-> & m & -> & Hm). wsteps.
    destruct (ent_addr p k Hp (PX_idx _ _)) as (? & ? & _).
    apply wp_st64; [done..|].
    destruct (link_grows fls s s1 root t p k q (Z.to_nat ((hart (lks s) + Z.of_nat j) mod 8)) li m) as [G T]; auto using nxt_none; [apply PX_idx|..].
    + intros a. rewrite Hm. destruct Ha as (_ & _ & _ & _ & Hr & _).
      rewrite Hr. do 2 case_decide; done.
    + exact (HQ _ _ q G T).
Qed.

(** [walk] with allocation: two free pages are enough. *)
Lemma walk_alloc fls s root va :
  kmem_inv fls s -> quiet 2 s -> pt_wf s root -> (2 <= length (concat fls))%nat -> va < MAXVA ->
  wp (walk root va true)
    (fun r s' => exists fls', grows fls s fls' s' root 2 ∅ /\ leaf (ram s') root va = Some r) s.
Proof.
  intros Hinv Hq Hwf Hfree Hva. unfold walk. wsteps.
  { destruct (Z.leb_spec MAXVA va); [lia|done]. }
  apply (walk_from_step 1 _ _ root Root fls); try done; [intros E; rewrite E in Hfree; simpl in Hfree; lia|].
  intros fls1 s1 q1 G1 T1. pose proof (g_free _ _ _ _ _ _ _ G1).
  apply (walk_from_step 0 _ _ root (Mid (PX 2 va)) fls1);
    [apply G1|eapply quiet_same; [exact Hq|apply G1]|apply G1| |apply PX_idx|done|done|].
  { intros E. rewrite E in H. simpl in H. lia. }
  intros fls2 s2 q2 G2 T2. apply wp_ret. exists fls2. split.
  - exact (grows_trans fls s fls1 s1 fls2 s2 root 1 1 ∅ ∅ Hinv G1 G2).
  - change (child (Mid (PX 2 va)) (PX (Z.of_nat 1) va)) with (Low (PX 2 va) (PX 1 va)) in T2.
    unfold leaf. now rewrite T2.
Qed.

Lemma same_kernel_ram s m : same_kernel s (set_ram m s).
Proof. split; [simpl; reflexivity|done]. Qed.

Lemma pte_of_tab m root va p :
  tab m root (Low (PX 2 va) (PX 1 va)) = Some p -> pte_of m root va = ent m p (PX 0 va).
Proof. unfold pte_of, leaf. now intros ->. Qed.

(** Writing the leaf entry of [va] changes that entry alone. *)
Lemma set_leaf fls s root va a v :
  kmem_inv fls s -> pt_wf s root -> 0 <= va < MAXVA -> va mod 4096 = 0 ->
  leaf (ram s) root va = Some a -> 0 <= v < 18446744073709551616 ->
  let s' := set_ram (wrn 8 (ram s) a v) s in
  grows fls s fls s' root 0 {[va := v]} /\ forall t, valid t -> tab (ram s') root t = tab (ram s) root t.
Proof.
  intros Hinv Hwf Hva Hal Hl Hv s'.
  destruct (leaf_addr s root va a Hwf Hl) as (p & Hp & Hpok & ->).
  set (tl := Low (PX 2 va) (PX 1 va)) in *.
  assert (valid tl) as Hvt by (split; apply PX_idx).
  destruct (wf_page _ _ Hwf tl p Hvt Hp) as [_ Hpr].
  destruct (ent_addr p (PX 0 va) Hpok (PX_idx 0 va)) as (_ & _ & Ha1 & Ha2).
  assert (forall q b, page_ok q -> q <> p -> q <= b < q + 4096 -> rd (ram s') b = rd (ram s) b) as Hout.
  { intros q b Hq Hne Hb. simpl. apply rd_wrn_out. simpl.
    destruct (page_disjoint q p Hq Hpok Hne); lia. }
  assert (forall t, valid t -> tab (ram s') root t = tab (ram s) root t) as Htab.
  { apply tab_same. intros t q j Hvq Hin Hq Hj. unfold nxt. rewrite (ent_same (ram s)); [done..|].
    intros b Hb. destruct (wf_page _ _ Hwf t q Hvq Hq) as [Hqok _].
    apply (Hout q); [done| |done]. intros ->.
    rewrite (wf_inj _ _ Hwf t tl p Hvq Hvt Hq Hp) in Hin. done. }
  assert (pt_wf s' root) as Hwf'.
  { constructor.
    - intros t q Hvq Hq. rewrite Htab in Hq by done. now apply (wf_page _ _ Hwf t).
    - intros t1 t2 q H1 H2 Hq1 Hq2. rewrite Htab in Hq1, Hq2 by done. eapply (wf_inj _ _ Hwf); eauto. }
  split; [|done]. constructor; auto; try reflexivity.
  - apply (kmem_inv_frame fls s); [done|done|..].
    + intros q b Hq Hb. apply (Hout q); [now apply (inv_pages _ _ Hinv)| |done]. intros ->.
      apply (inv_free _ _ Hinv p Hpok) in Hq. lia.
    + intros q Hq. split; [now apply (inv_ref _ _ Hinv)|done].
  - intros va' Hva' Hal'. destruct (decide (va = va')) as [<-|Hne].
    + rewrite lookup_singleton_eq. simpl. rewrite (pte_of_tab _ _ _ p) by (now rewrite Htab).
      now apply ent_wrn_eq.
    + rewrite lookup_singleton_ne by done. simpl default. unfold pte_of, leaf.
      rewrite Htab by (split; apply PX_idx).
      destruct (tab (ram s) root (Low (PX 2 va') (PX 1 va'))) as [q|] eqn:E; [|done].
      apply (ent_wrn_ne (ram s) p (PX 0 va) q (PX 0 va') v); auto using PX_idx.
      * apply (wf_page _ _ Hwf (Low (PX 2 va') (PX 1 va'))); [split; apply PX_idx|done].
      * intros [= -> E0].
        assert (Low (PX 2 va') (PX 1 va') = tl) as [= E2 E1].
        { apply (wf_inj _ _ Hwf _ _ p); auto. split; apply PX_idx. }
        apply Hne. apply PX_inj; auto; congruence.
  - apply same_kernel_ram.
  - lia.
  - intros q b Hq Hr Hnt Hb. apply (Hout q); [done| |done]. intros ->. apply Hnt. now exists tl.
  - intros b Hb. pose proof Hpok as (_ & ? & _). apply rd_wrn_out. simpl. lia.
  - intros t q Hvq Hq. now rewrite Htab.
  - intros q (t & Hvq & Hq). rewrite Htab in Hq by done. left. now exists t.
Qed.

(** ** [mappages] *)

(** The entry [mappages] writes. *)
Definition mkpte (pa perm : Z) : Z := Z.lor (Z.lor (PA2PTE pa) perm) PTE_V.

Lemma mkpte_spec pa perm :
  0 <= pa < 72057594037927936 -> pa mod 4096 = 0 -> 0 <= perm < 1024 ->
  0 <= mkpte pa perm < 18446744073709551616 /\ PTE2PA (mkpte pa perm) = pa /\
  PTE_FLAGS (mkpte pa perm) = Z.lor perm PTE_V.
Proof.
  intros Hpa Hal Hp. unfold mkpte. rewrite <- Z.lor_assoc.
  assert (0 <= Z.lor perm PTE_V < 1024) as Hf.
  { change 1024 with (2 ^ 10). split; [apply Z.lor_nonneg; split; [lia|done]|].
    destruct (Z.eq_dec (Z.lor perm PTE_V) 0) as [->|Hne]; [lia|].
    assert (0 <= Z.lor perm PTE_V) by (apply Z.lor_nonneg; split; [lia|done]).
    apply Z.log2_lt_pow2; [lia|]. rewrite Z.log2_lor by (try done; lia).
    apply Z.max_lub_lt; [|done]. destruct (Z.eq_dec perm 0) as [->|]; [done|].
    apply Z.log2_lt_pow2; lia. }
  destruct (pte_split pa (Z.lor perm PTE_V)) as [E1 E2]; auto.
  split; [|done]. rewrite PA2PTE_eq by lia.
  pose proof (lor_low (pa / 4096) (Z.lor perm PTE_V) 10) as HL.
  change (2 ^ 10) with 1024 in HL. rewrite HL by (auto; lia).
  pose proof (Z.div_pos pa 4096). pose proof (Z.mul_div_le pa 4096). lia.
Qed.

(** The entries of [n] pages from [va] and [pa]. *)
Fixpoint seg (n : nat) (va pa perm : Z) : gmap Z Z :=
  match n with
  | O => ∅
  | S n' => <[va := mkpte pa perm]> (seg n' (va + 4096) (pa + 4096) perm)
  end.

Lemma seg_lookup n va pa perm a :
  seg n va pa perm !! a =
    if decide (va <= a < va + 4096 * Z.of_nat n /\ (a - va) mod 4096 = 0)
    then Some (mkpte (pa + (a - va)) perm) else None.
Proof.
  revert va pa. induction n as [|n IH]; intros va pa; simpl.
  - rewrite lookup_empty, decide_False; [done|lia].
  - destruct (decide (a = va)) as [->|Hne].
    + rewrite lookup_insert_eq, decide_True; [do 2 f_equal; lia|].
      split; [lia|]. now rewrite Z.sub_diag.
    + rewrite lookup_insert_ne, IH by done.
      replace (a - va) with (a - (va + 4096) + 1 * 4096) by lia. rewrite Z.mod_add by lia.
      destruct (decide _) as [[H1 H2]|Hn].
      * rewrite decide_True; [do 2 f_equal; lia|]. split; [lia|done].
      * rewrite decide_False; [done|]. intros [H1 H2]. apply Hn. split; [|done].
        pose proof (Z.div_mod (a - (va + 4096)) 4096). lia.
Qed.

Lemma seg_cons n va pa perm :
  seg n (va + 4096) (pa + 4096) perm ∪ {[va := mkpte pa perm]} = seg (S n) va pa perm.
Proof.
  apply map_eq. intros a. rewrite lookup_union. simpl.
  destruct (decide (va = a)) as [->|Hne].
  - rewrite lookup_singleton_eq, lookup_insert_eq, seg_lookup, decide_False; [done|lia].
  - rewrite lookup_singleton_ne, lookup_insert_ne by done. now destruct (seg _ _ _ _ !! a).
Qed.

Lemma concat_ne (fls : list (list Z)) n : (S n <= length (concat fls))%nat -> concat fls <> [].
Proof. intros H E. rewrite E in H. simpl in H. lia. Qed.

(** One round of [mappages]. *)
Lemma map_page fls s root a pa perm (k : M mach Z) (Q : Z -> mach -> Prop) :
  kmem_inv fls s -> quiet 2 s -> pt_wf s root -> (2 <= length (concat fls))%nat ->
  0 <= a < MAXVA -> a mod 4096 = 0 -> 0 <= pa < 72057594037927936 -> pa mod 4096 = 0 -> 0 <= perm < 1024 ->
  has (pte_of (ram s) root a) PTE_V = false ->
  (forall fls' s', grows fls s fls' s' root 2 {[a := mkpte pa perm]} -> wp k Q s') ->
  wp (let! pte := walk root a true in
      if pte =? 0 then ret (-1)
      else
        let! v := ld64 pte in
        do! check (negb (has v PTE_V)) "mappages: remap";
        do! st64 pte (mkpte pa perm); k) Q s.
Proof.
  intros Hinv Hq Hwf Hfree Ha Hal Hpa Hpal Hperm Hunm HQ. wsteps.
  eapply wp_mono; [apply (walk_alloc fls s root a); auto; lia|].
  intros pte s1 (fls1 & G1 & Hl). pose proof (g_wf _ _ _ _ _ _ _ G1) as Hwf1.
  destruct (leaf_pos s1 root a pte Hwf1 Hl) as [Hlo Hhi].
  destruct (Z.eqb_spec pte 0); [lia|]. wsteps. apply wp_ld64; [done..|]. wsteps.
  { pose proof (g_pte _ _ _ _ _ _ _ G1 a Ha Hal) as E. rewrite lookup_empty in E. simpl in E.
    rewrite <- E in Hunm. unfold pte_of in Hunm. rewrite Hl in Hunm. now rewrite Hunm. }
  apply wp_st64; [done..|].
  destruct (set_leaf fls1 s1 root a pte (mkpte pa perm)) as [G2 _];
    [apply G1|done|done|done|done|now apply mkpte_spec|].
  apply (HQ fls1). pose proof (grows_trans _ _ _ _ _ _ _ _ _ _ _ Hinv G1 G2) as G.
  now rewrite (right_id_L ∅ (∪)) in G.
Qed.

Lemma mod_step x k : x mod 4096 = 0 -> (x + 4096 * k) mod 4096 = 0.
Proof. intros H. rewrite Z.mul_comm, Z.mod_add; [done|lia]. Qed.

Lemma mappages_loop_S n root a last pa perm :
  mappages_loop (S n) root a last pa perm =
  (let! pte := walk root a true in
   if pte =? 0 then ret (-1)
   else
     let! v := ld64 pte in
     do! check (negb (has v PTE_V)) "mappages: remap";
     do! st64 pte (mkpte pa perm);
     if a =? last then ret 0
     else mappages_loop n root (u64 (a + PGSIZE)) last (u64 (pa + PGSIZE)) perm).
Proof. reflexivity. Qed.

(** The loop of [mappages] over [n] unmapped pages, with two free pages
    for the tables of each. *)
Lemma mappages_loop_spec n fls s root a pa perm :
  kmem_inv fls s -> quiet 2 s -> pt_wf s root -> (2 * S n <= length (concat fls))%nat ->
  0 <= a -> a mod 4096 = 0 -> a + 4096 * Z.of_nat (S n) <= MAXVA ->
  0 <= pa -> pa mod 4096 = 0 -> pa + 4096 * Z.of_nat (S n) <= 72057594037927936 -> 0 <= perm < 1024 ->
  (forall k, (k < S n)%nat -> has (pte_of (ram s) root (a + 4096 * Z.of_nat k)) PTE_V = false) ->
  wp (mappages_loop (S n) root a (a + 4096 * Z.of_nat n) pa perm)
    (fun r s' => r = 0 /\ exists fls', grows fls s fls' s' root (2 * S n) (seg (S n) a pa perm)) s.
Proof.
  revert fls s a pa. induction n as [|n IH];
    intros fls s a pa Hinv Hq Hwf Hfree Ha Hal Hamax Hpa Hpal Hpmax Hperm Hunm;
    (assert (has (pte_of (ram s) root a) PTE_V = false) as H0
       by (specialize (Hunm O ltac:(lia)); now rewrite Z.mul_0_r, Z.add_0_r in Hunm));
    rewrite mappages_loop_S; (apply (map_page fls); auto; [lia..|]); intros fls1 s1 G.
  - destruct (Z.eqb_spec a (a + 4096 * Z.of_nat 0)); [|lia]. apply wp_ret. split; [done|]. exists fls1.
    exact G.
  - destruct (Z.eqb_spec a (a + 4096 * Z.of_nat (S n))); [lia|].
    pose proof (g_free _ _ _ _ _ _ _ G).
    replace (a + 4096 * Z.of_nat (S n)) with (a + 4096 + 4096 * Z.of_nat n) by lia.
    rewrite !u64_small by lia. change PGSIZE with 4096.
    assert (forall k, (k < S n)%nat ->
      has (pte_of (ram s1) root (a + 4096 + 4096 * Z.of_nat k)) PTE_V = false) as Hunm1.
    { intros k Hk.
      replace (a + 4096 + 4096 * Z.of_nat k) with (a + 4096 * Z.of_nat (S k)) by lia.
      rewrite (g_pte _ _ _ _ _ _ _ G); [|lia|now apply mod_step].
      rewrite lookup_singleton_ne by lia. apply Hunm. lia. }
    eapply wp_mono; [exact (IH fls1 s1 (a + 4096) (pa + 4096) (g_inv _ _ _ _ _ _ _ G)
      (quiet_same _ _ _ Hq (g_same _ _ _ _ _ _ _ G)) (g_wf _ _ _ _ _ _ _ G) ltac:(lia) ltac:(lia)
      (mod_step a 1 Hal) ltac:(lia) ltac:(lia) (mod_step pa 1 Hpal) ltac:(lia) Hperm Hunm1)|].
    intros r s3 [-> (fls3 & G3)]. split; [done|]. exists fls3. rewrite <- seg_cons.
    replace (2 * S (S n))%nat with (2 + 2 * S n)%nat by lia.
    eapply grows_trans; eauto.
Qed.

(** Mapping [n] unmapped pages: the entries are written in order and
    nothing else changes. *)
Lemma mappages_spec n fls s root va pa perm :
  kmem_inv fls s -> quiet 2 s -> pt_wf s root -> (0 < n)%nat -> (2 * n <= length (concat fls))%nat ->
  0 <= va -> va mod 4096 = 0 -> va + 4096 * Z.of_nat n <= MAXVA ->
  0 <= pa -> pa mod 4096 = 0 -> pa + 4096 * Z.of_nat n <= 72057594037927936 -> 0 <= perm < 1024 ->
  (forall k, (k < n)%nat -> has (pte_of (ram s) root (va + 4096 * Z.of_nat k)) PTE_V = false) ->
  wp (mappages root va (4096 * Z.of_nat n) pa perm)
    (fun r s' => r = 0 /\ exists fls', grows fls s fls' s' root (2 * n) (seg n va pa perm)) s.
Proof.
  intros Hinv Hq Hwf Hn Hfree Ha Hal Hamax Hpa Hpal Hpmax Hperm Hunm.
  destruct n as [|n]; [lia|]. unfold mappages. wsteps; change PGSIZE with 4096.
  - rewrite Hal. done.
  - rewrite Z.mul_comm, Z.mod_mul by lia. done.
  - destruct (Z.eqb_spec (4096 * Z.of_nat (S n)) 0); [lia|done].
  - rewrite (Z.mul_comm 4096) at 1. rewrite Z.div_mul, Nat2Z.id by lia.
    rewrite u64_small by lia.
    replace (va + 4096 * Z.of_nat (S n) - 4096) with (va + 4096 * Z.of_nat n) by lia.
    now apply mappages_loop_spec.
Qed.
End Pt.
