(* ===== verification/Uvm.v ===== *)
(** * User address spaces (kernel/vm.c): specifications

    What the operations of [Vm] do to the mappings of [Pagetable]:
    mapping, unmapping, lazy allocation, the copies to and from user
    memory, and copy-on-write sharing. *)

From S2P Require Import Prelude.
From S2P Require Import Mach.
From S2P Require Import Spinlock.
From S2P Require Import Kstring.
From S2P Require Import Kalloc.
From S2P Require Import Vm.
From S2P Require Import Pagetable.

Section Uvm.
Context {L : Layout} {LO : LayoutOk L}.
Implicit Types (s : mach) (m : gmap Z Z) (root va : Z).

(** A table survives what leaves its pages alone. *)
Lemma pt_frame s s' root :
  pt_wf s root ->
  (forall p, is_table s root p -> 0 < ref s' p /\ forall a, p <= a < p + 4096 -> rd (ram s') a = rd (ram s) a) ->
  pt_wf s' root /\ (forall t, valid t -> tab (ram s') root t = tab (ram s) root t) /\
  (forall va, leaf (ram s') root va = leaf (ram s) root va) /\
  (forall va, pte_of (ram s') root va = pte_of (ram s) root va).
Proof.
  intros Hwf H.
  assert (forall t p i, valid t -> tab (ram s) root t = Some p -> idx i -> ent (ram s') p i = ent (ram s) p i) as He.
  { intros t p i Hv Ht Hi. apply ent_same; [done|]. apply H. now exists t. }
  assert (forall t, valid t -> tab (ram s') root t = tab (ram s) root t) as Htab.
  { apply tab_same. intros t p j Hv _ Ht Hj. unfold nxt. now rewrite (He t). }
  assert (forall va, leaf (ram s') root va = leaf (ram s) root va) as Hleaf.
  { intros va. unfold leaf. rewrite Htab; [done|split; apply PX_idx]. }
  split; [|split; [done|split; [done|]]].
  - constructor.
    + intros t p Hv Ht. rewrite Htab in Ht by done. split; [now apply (wf_page _ _ Hwf t)|].
      apply H. now exists t.
    + intros t t' p Hv Hv' Ht Ht'. rewrite Htab in Ht, Ht' by done. eapply (wf_inj _ _ Hwf); eauto.
  - intros va. unfold pte_of. rewrite Hleaf. unfold leaf.
    destruct (tab (ram s) root (Low (PX 2 va) (PX 1 va))) as [p|] eqn:E; [|done].
    apply (He (Low (PX 2 va) (PX 1 va))); [split; apply PX_idx|done|apply PX_idx].
Qed.

Lemma pt_wf_same s s' root :
  pt_wf s root -> ram s' = ram s -> refcnt s' = refcnt s -> pt_wf s' root.
Proof.
  intros Hwf Hm Hr. apply (pt_frame s s'); [done|]. intros p (t & Hv & Ht).
  unfold ref. rewrite Hm, Hr. split; [now apply (wf_page _ _ Hwf t)|done].
Qed.

(** ** Bytes *)

Lemma st_bytes_spec l a s :
  KERNBASE <= a -> a + Z.of_nat (length l) <= PHYSTOP ->
  wp (st_bytes a l) (fun _ s' => exists m, s' = set_ram m s /\
    forall b, rd m b = if decide (a <= b < a + Z.of_nat (length l))
                       then u8 (default 0 (l !! Z.to_nat (b - a))) else rd (ram s) b) s.
Proof.
  revert a s. induction l as [|x l IH]; intros a s Ha Hl; simpl.
  - exists (ram s). split; [now destruct s|]. intros b. rewrite decide_False; [done|simpl; lia].
  - simpl length in Hl. wsteps. apply wp_st8; [lia|].
    eapply wp_mono; [apply (IH (a + 1)); lia|]. intros [] s' (m & -> & Hm). exists m.
    split; [done|]. intros b. rewrite Hm. simpl ram. rewrite rd_wr.
    destruct (decide (a = b)) as [<-|Hne].
    + rewrite decide_False by lia. rewrite decide_True by (simpl length; lia).
      now rewrite Z.sub_diag.
    + destruct (decide (a + 1 <= b < a + 1 + Z.of_nat (length l))).
      * rewrite decide_True by (simpl length; lia).
        replace (Z.to_nat (b - a)) with (S (Z.to_nat (b - (a + 1)))) by lia. done.
      * rewrite decide_False by (simpl length; lia). done.
Qed.

(** ** Copying to user memory *)

(** Where byte [a] of the address space lives in physical memory. *)
Definition uaddr m root (a : Z) : Z := PTE2PA (pte_of m root (a - a mod 4096)) + a mod 4096.

(** The page of byte [a] is mapped for the user, writable, and is not part
    of the table. *)
Definition writable s root (a : Z) : Prop :=
  let v := pte_of (ram s) root (a - a mod 4096) in
  has v PTE_V = true /\ has v PTE_U = true /\ has v PTE_W = true /\
  page_ok (PTE2PA v) /\ ~ is_table s root (PTE2PA v).

Lemma uaddr_ram s root a : writable s root a ->
  let v := pte_of (ram s) root (a - a mod 4096) in
  PTE2PA v <= uaddr (ram s) root a < PTE2PA v + 4096 /\ KERNBASE <= uaddr (ram s) root a < PHYSTOP.
Proof.
  intros (_ & _ & _ & Hp & _). simpl. unfold uaddr. pose proof (Z.mod_pos_bound a 4096).
  destruct (page_ok_ram _ Hp). lia.
Qed.

(** Writing a user page moves no mapping. *)
Lemma user_write s s' root p :
  pt_wf s root -> page_ok p -> ~ is_table s root p -> refcnt s' = refcnt s ->
  (forall a, a < p \/ p + 4096 <= a -> rd (ram s') a = rd (ram s) a) ->
  pt_wf s' root /\ (forall va, pte_of (ram s') root va = pte_of (ram s) root va) /\
  (forall q, is_table s' root q -> is_table s root q).
Proof.
  intros Hwf Hp Hnt Hr Hm.
  destruct (pt_frame s s' root Hwf) as (H1 & H2 & _ & H3).
  - intros q (t & Hv & Ht). destruct (wf_page _ _ Hwf t q Hv Ht) as [Hq Hqr].
    split; [unfold ref; now rewrite Hr|]. intros a Ha. apply Hm.
    assert (q <> p) as Hne by (intros ->; apply Hnt; now exists t).
    destruct (page_disjoint q p Hq Hp Hne); lia.
  - split; [done|]. split; [done|]. intros q (t & Hv & Ht). exists t. rewrite H2 in Ht by done. done.
Qed.

Definition bytes (l : list Z) : Prop := Forall (fun b => 0 <= b < 256) l.

Lemma page_base a k : 0 <= k < 4096 - a mod 4096 -> (a + k) - (a + k) mod 4096 = a - a mod 4096.
Proof.
  intros Hk. pose proof (Z.mod_pos_bound a 4096). pose proof (Z.div_mod a 4096).
  assert ((a + k) mod 4096 = a mod 4096 + k) as ->; [|lia].
  symmetry. apply (Z.mod_unique_pos (a + k) 4096 (a / 4096)); lia.
Qed.

Lemma uaddr_step m root a k : 0 <= k < 4096 - a mod 4096 -> uaddr m root (a + k) = uaddr m root a + k.
Proof.
  intros Hk. unfold uaddr. rewrite page_base by done. pose proof (page_base a k Hk). lia.
Qed.

(** The effect of a copy of [src] to user address [dst]. *)
Definition copied s root dst (src : list Z) (s' : mach) : Prop :=
  exists m, s' = set_ram m s /\
    (forall i x, src !! i = Some x -> rd m (uaddr (ram s) root (dst + Z.of_nat i)) = x) /\
    (forall b, (forall i, (i < length src)%nat -> uaddr (ram s) root (dst + Z.of_nat i) <> b) ->
       rd m b = rd (ram s) b).

(** [copyout] may write [n] bytes at [dst], each to its own place. *)
Definition dest s root dst (n : nat) : Prop :=
  0 <= dst /\ dst + Z.of_nat n <= MAXVA /\
  (forall i, (i < n)%nat -> writable s root (dst + Z.of_nat i)) /\
  (forall i j, (i < n)%nat -> (j < n)%nat ->
     uaddr (ram s) root (dst + Z.of_nat i) = uaddr (ram s) root (dst + Z.of_nat j) -> i = j).

(** One page of [copyout]. *)
Lemma copy_page s root dst l :
  pt_wf s root -> dest s root dst (length l) -> bytes l -> Z.of_nat (length l) <= 4096 - dst mod 4096 ->
  (0 < length l)%nat ->
  wp (st_bytes (uaddr (ram s) root dst) l) (fun _ s' => copied s root dst l s' /\
    pt_wf s' root /\ (forall va, pte_of (ram s') root va = pte_of (ram s) root va) /\
    (forall q, is_table s' root q -> is_table s root q)) s.
Proof.
  intros Hwf (Hd & Hmax & Hw & _) Hb Hlen Hpos.
  specialize (Hw O Hpos). rewrite Z.add_0_r in Hw.
  pose proof Hw as (_ & _ & _ & Hp & Hnt). destruct (uaddr_ram s root dst Hw) as [Hr1 Hr2].
  destruct (page_ok_ram _ Hp) as [Hp1 Hp2]. pose proof (Z.mod_pos_bound dst 4096).
  assert (uaddr (ram s) root dst + Z.of_nat (length l) <=
          PTE2PA (pte_of (ram s) root (dst - dst mod 4096)) + 4096) as Hend by (unfold uaddr; lia).
  eapply wp_mono; [apply st_bytes_spec; lia|]. intros [] s' (m & -> & Hm).
  split.
  - exists m. split; [done|]. split.
    + intros i x Hi. pose proof (lookup_lt_Some _ _ _ Hi). rewrite uaddr_step by lia.
      rewrite Hm, decide_True by lia. rewrite Z.add_simpl_l, Nat2Z.id, Hi. simpl.
      apply u8_small. exact (proj1 (Forall_forall _ _) Hb x (list_elem_of_lookup_2 _ _ _ Hi)).
    + intros b Hne. rewrite Hm. case_decide as Hin; [|done]. exfalso.
      apply (Hne (Z.to_nat (b - uaddr (ram s) root dst))); [lia|]. rewrite uaddr_step by lia. lia.
  - apply (user_write s _ root _ Hwf Hp Hnt); [done|]. intros a Ha. simpl. rewrite Hm.
    rewrite decide_False; [done|lia].
Qed.

(** The pages of two consecutive copies. *)
Lemma copied_app s root dst l1 l2 s1 s2 :
  dest s root dst (length (l1 ++ l2)) ->
  (forall va, pte_of (ram s1) root va = pte_of (ram s) root va) ->
  copied s root dst l1 s1 -> copied s1 root (dst + Z.of_nat (length l1)) l2 s2 ->
  copied s root dst (l1 ++ l2) s2.
Proof.
  intros (_ & _ & _ & Hinj) Hpte (m1 & -> & A1 & A2) (m2 & -> & B1 & B2).
  assert (forall a, uaddr m1 root a = uaddr (ram s) root a) as Hu.
  { intros a. unfold uaddr. simpl in Hpte. now rewrite Hpte. }
  rewrite length_app in Hinj. simpl in B1, B2.
  exists m2. split; [done|]. split.
  - intros i x Hi. destruct (decide (i < length l1)%nat) as [Hlt|Hge].
    + rewrite lookup_app_l in Hi by done. rewrite B2; [now apply A1|].
      intros j Hj. rewrite Hu. replace (dst + Z.of_nat (length l1) + Z.of_nat j)
        with (dst + Z.of_nat (length l1 + j)) by lia.
      intros E. apply Hinj in E; lia.
    + rewrite lookup_app_r in Hi by lia. specialize (B1 _ _ Hi). rewrite Hu in B1.
      replace (dst + Z.of_nat (length l1) + Z.of_nat (i - length l1)) with (dst + Z.of_nat i) in B1 by lia.
      exact B1.
  - intros b Hb. rewrite length_app in Hb. rewrite B2, A2.
    + done.
    + intros i Hi. apply Hb. lia.
    + intros i Hi. rewrite Hu. replace (dst + Z.of_nat (length l1) + Z.of_nat i)
        with (dst + Z.of_nat (length l1 + i)) by lia. apply Hb. lia.
Qed.

Lemma dest_drop s s' root dst n k :
  (k <= n)%nat -> dest s root dst n ->
  (forall va, pte_of (ram s') root va = pte_of (ram s) root va) ->
  (forall q, is_table s' root q -> is_table s root q) ->
  dest s' root (dst + Z.of_nat k) (n - k).
Proof.
  intros Hk (H1 & H2 & H3 & H4) Hpte Ht.
  assert (forall i, dst + Z.of_nat k + Z.of_nat i = dst + Z.of_nat (k + i)) as E by lia.
  split; [lia|]. split; [lia|]. split.
  - intros i Hi. rewrite E. destruct (H3 (k + i)%nat ltac:(lia)) as (A & B & C & D & F).
    unfold writable. rewrite Hpte. repeat split; auto; try apply D.
  - intros i j Hi Hj. unfold uaddr. rewrite !Hpte, !E. intros Eu.
    apply (H4 (k + i)%nat (k + j)%nat) in Eu; lia.
Qed.

Lemma dest_take s root dst n k : (k <= n)%nat -> dest s root dst n -> dest s root dst k.
Proof.
  intros Hk (H1 & H2 & H3 & H4). split; [lia|]. split; [lia|]. split.
  - intros i Hi. apply H3. lia.
  - intros i j Hi Hj. apply H4; lia.
Qed.

Lemma copyout_loop_S f pt dstva src : src <> [] ->
  copyout_loop (S f) pt dstva src =
  (let va0 := PGROUNDDOWN dstva in
   if MAXVA <=? va0 then ret (-1)
   else
     let! pa0 := walkaddr pt va0 in
     let! pa0 := (if pa0 =? 0 then vmfault pt va0 else ret pa0) in
     if pa0 =? 0 then ret (-1)
     else
       let! pte := walk pt va0 false in
       let! v := ld64 pte in
       if negb (has v PTE_W) then ret (-1)
       else
         let n := Z.min (PGSIZE - (dstva - va0)) (Z.of_nat (length src)) in
         do! st_bytes (pa0 + (dstva - va0)) (take (Z.to_nat n) src);
         copyout_loop f pt (u64 (va0 + PGSIZE)) (drop (Z.to_nat n) src)).
Proof. now destruct src. Qed.

Lemma copyout_loop_spec fuel s root dst src :
  (length src <= fuel)%nat -> pt_wf s root -> dest s root dst (length src) -> bytes src ->
  wp (copyout_loop fuel root dst src) (fun r s' => r = 0 /\ copied s root dst src s') s.
Proof.
  revert s dst src. induction fuel as [|fuel IH]; intros s dst src Hf Hwf Hd Hb.
  { destruct src; [|simpl in Hf; lia]. split; [done|]. exists (ram s).
    split; [now destruct s|]. split; [done|]. done. }
  destruct src as [|x src'] eqn:Esrc.
  { split; [done|]. exists (ram s). split; [now destruct s|]. split; [done|]. done. }
  rewrite <- Esrc in *. assert (0 < length src)%nat as Hpos by (rewrite Esrc; simpl; lia).
  pose proof Hd as (Hd0 & Hmax & Hw & _). specialize (Hw O Hpos). rewrite Z.add_0_r in Hw.
  pose proof Hw as (Hv & Hu & Hwr & Hp & Hnt). destruct (page_ok_ram _ Hp) as [Hp1 Hp2].
  pose proof (Z.mod_pos_bound dst 4096 ltac:(lia)) as Hmod.
  assert (dst mod 4096 <= dst) as Hle by (apply Z.mod_le; lia).
  rewrite copyout_loop_S by (rewrite Esrc; discriminate). clear x src' Esrc. cbv zeta. rewrite PGROUNDDOWN_eq.
  destruct (Z.leb_spec MAXVA (dst - dst mod 4096)); [lia|].
  apply wp_bind. unfold wp at 1. rewrite walkaddr_eq by done.
  rewrite (proj2 (Z.ltb_lt _ _)), Hv, Hu by lia. cbv beta iota delta [andb].
  destruct (Z.eqb_spec (PTE2PA (pte_of (ram s) root (dst - dst mod 4096))) 0) as [|_]; [lia|]. wsteps.
  destruct (Z.eqb_spec (PTE2PA (pte_of (ram s) root (dst - dst mod 4096))) 0) as [|_]; [lia|]. wsteps.
  apply wp_walk_noalloc; [done|lia|].
  destruct (leaf (ram s) root (dst - dst mod 4096)) as [a|] eqn:El.
  2: { exfalso. unfold pte_of in Hv. rewrite El in Hv. done. }
  destruct (leaf_pos _ _ _ _ Hwf El). simpl default. wsteps. apply wp_ld64; [done..|].
  assert (rdn 8 (ram s) a = pte_of (ram s) root (dst - dst mod 4096)) as -> by (unfold pte_of; now rewrite El).
  rewrite Hwr. simpl negb. cbv iota.
  replace (dst - (dst - dst mod 4096)) with (dst mod 4096) by lia. change PGSIZE with 4096.
  set (n := Z.to_nat (Z.min (4096 - dst mod 4096) (Z.of_nat (length src)))).
  change (PTE2PA (pte_of (ram s) root (dst - dst mod 4096)) + dst mod 4096) with (uaddr (ram s) root dst).
  assert (Z.of_nat n = Z.min (4096 - dst mod 4096) (Z.of_nat (length src))) as Hnn by (unfold n; lia).
  clearbody n.
  assert (length (take n src) = n) as Hn by (rewrite length_take; lia).
  wsteps. eapply wp_mono.
  - apply copy_page; rewrite ?Hn; auto; try lia.
    + apply (dest_take _ _ _ (length src)); [lia|done].
    + now apply Forall_take.
  - intros [] s1 (C1 & Hwf1 & Hpte1 & Ht1).
    pose proof (dest_drop s s1 root dst (length src) n ltac:(lia) Hd Hpte1 Ht1) as Hd1.
    assert (drop n src = [] \/ u64 (dst - dst mod 4096 + 4096) = dst + Z.of_nat n) as [E|E].
    { destruct (decide (n = length src)) as [->|Hne]; [left; apply drop_all|right].
      rewrite u64_small by lia. lia. }
    + rewrite E. assert (src = take n src) as Es by (rewrite <- (take_drop n src) at 1; rewrite E; apply app_nil_r).
      destruct fuel; simpl; (split; [done|]; now rewrite Es).
    + rewrite E. eapply wp_mono; [apply IH; auto|].
      * rewrite length_drop. lia.
      * now rewrite length_drop.
      * now apply Forall_drop.
      * intros r s2 [-> C2]. split; [done|]. rewrite <- (take_drop n src).
        eapply copied_app; eauto; [now rewrite take_drop|now rewrite Hn].
Qed.

(** C34: [copyout] delivers every byte.  When the destination range is
    mapped writable for the user, on pages of its own, [copyout] returns 0,
    byte [i] of the source ends up where the page table puts address
    [dst + i], and no other byte of memory, lock or process changes. *)
Theorem copyout_correct s root dst src :
  pt_wf s root -> dest s root dst (length src) -> bytes src ->
  wp (copyout root dst src) (fun r s' => r = 0 /\ copied s root dst src s') s.
Proof. intros. now apply copyout_loop_spec. Qed.

(** ** Copying strings from user memory *)

Definition user_mapped s root (a : Z) : Prop :=
  let v := pte_of (ram s) root (a - a mod 4096) in
  has v PTE_V = true /\ has v PTE_U = true /\ page_ok (PTE2PA v).

Lemma copy_nul_spec n p l s :
  Forall (fun b => b <> 0) l ->
  (forall i, (i <= length l)%nat -> (i < n)%nat -> KERNBASE <= p + Z.of_nat i < PHYSTOP /\
     rd (ram s) (p + Z.of_nat i) = default 0 (l !! i)) ->
  copy_nul n p s = Ret (if (length l <? n)%nat then (l ++ [0], true) else (take n l, false)) s.
Proof.
  revert p l. induction n as [|n IH]; intros p l Hnz H; [done|].
  destruct (H O ltac:(lia) ltac:(lia)) as [Hr Hb]. rewrite Z.add_0_r in Hr, Hb.
  simpl. erewrite bind_Ret by (unfold ld8; rewrite (proj2 (in_ram_spec p 1)) by lia; reflexivity).
  rewrite Hb. destruct l as [|x l]; simpl; [done|].
  apply Forall_cons in Hnz as [Hx Hnz]. destruct (Z.eqb_spec x 0); [done|].
  assert (forall i, p + 1 + Z.of_nat i = p + Z.of_nat (S i)) as E by lia.
  erewrite bind_Ret; [|apply (IH (p + 1) l Hnz); intros i H1 H2; rewrite E; apply (H (S i)); simpl; lia].
  change (S (length l) <? S n)%nat with (length l <? n)%nat.
  destruct (Nat.ltb_spec (length l) n); done.
Qed.

Lemma copyinstr_loop_spec fuel s root src l max :
  pt_wf s root -> Forall (fun b => b <> 0) l -> 0 <= src -> src + Z.of_nat (length l) < MAXVA ->
  Z.of_nat (length l) < max -> max < MAXVA -> (length l < fuel)%nat ->
  (forall i, (i <= length l)%nat -> user_mapped s root (src + Z.of_nat i) /\
     rd (ram s) (uaddr (ram s) root (src + Z.of_nat i)) = default 0 (l !! i)) ->
  copyinstr_loop fuel root src max s = Ret (0, l ++ [0]) s.
Proof.
  intros Hwf. revert src l max. induction fuel as [|fuel IH]; intros src l max Hnz Hs Hsmax Hmax Hmm Hf H; [lia|].
  unfold copyinstr_loop; fold copyinstr_loop.
  destruct (Z.leb_spec max 0); [lia|]. rewrite PGROUNDDOWN_eq.
  pose proof (Z.mod_pos_bound src 4096 ltac:(lia)) as Hmod.
  assert (src mod 4096 <= src) as Hle by (apply Z.mod_le; lia).
  destruct (H O ltac:(lia)) as [(Hv & Hu & Hp) _]. rewrite Z.add_0_r in Hv, Hu, Hp.
  destruct (page_ok_ram _ Hp) as [Hp1 Hp2].
  erewrite bind_Ret by (apply walkaddr_eq; done).
  rewrite (proj2 (Z.ltb_lt _ _)), Hv, Hu by lia. cbv beta iota zeta delta [andb].
  destruct (Z.eqb_spec (PTE2PA (pte_of (ram s) root (src - src mod 4096))) 0) as [|_]; [lia|].
  replace (src - (src - src mod 4096)) with (src mod 4096) by lia. change PGSIZE with 4096.
  change (PTE2PA (pte_of (ram s) root (src - src mod 4096)) + src mod 4096) with (uaddr (ram s) root src).
  set (n := Z.min (4096 - src mod 4096) max).
  assert (n = Z.min (4096 - src mod 4096) max) as Hn by done. clearbody n.
  erewrite bind_Ret.
  2: { apply (copy_nul_spec _ _ l); [done|]. intros i Hi Hin.
       rewrite <- uaddr_step by lia. split; [|now apply H].
       rewrite uaddr_step by lia. unfold uaddr. lia. }
  destruct (Nat.ltb_spec (length l) (Z.to_nat n)) as [Hlt|Hge]; [done|]. cbv beta iota delta [fst snd].
  rewrite u64_small by lia.
  replace (src - src mod 4096 + 4096) with (src + Z.of_nat (Z.to_nat n)) by lia.
  erewrite bind_Ret.
  2: { apply (IH _ (drop (Z.to_nat n) l)); rewrite ?length_drop; try lia; [now apply Forall_drop|].
       intros i Hi. replace (src + Z.of_nat (Z.to_nat n) + Z.of_nat i) with (src + Z.of_nat (Z.to_nat n + i)) by lia.
       rewrite lookup_drop. apply H. lia. }
  simpl. unfold ret. do 2 f_equal. now rewrite app_assoc, take_drop.
Qed.

(** A copy to user memory leaves the mappings alone. *)
Lemma copied_pt s root dst src s' :
  pt_wf s root -> dest s root dst (length src) -> copied s root dst src s' ->
  pt_wf s' root /\ (forall va, pte_of (ram s') root va = pte_of (ram s) root va) /\
  (forall q, is_table s' root q -> is_table s root q).
Proof.
  intros Hwf (_ & _ & Hw & _) (m & -> & _ & Hm).
  destruct (pt_frame s (set_ram m s) root Hwf) as (H1 & H3 & _ & H2);
    [|split; [done|]; split; [done|]; intros q (t & Hv & Ht); exists t; rewrite H3 in Ht by done; done].
  intros p (t & Hv & Ht). destruct (wf_page _ _ Hwf t p Hv Ht) as [Hp Hr]. split; [done|].
  intros a Ha. apply Hm. intros i Hi E. destruct (Hw i Hi) as (_ & _ & _ & Hq & Hnt).
  destruct (uaddr_ram s root _ (Hw i Hi)) as [Hua _].
  destruct (decide (p = PTE2PA (pte_of (ram s) root (dst + Z.of_nat i - (dst + Z.of_nat i) mod 4096)))) as [->|Hne].
  - apply Hnt. exact (ex_intro _ t (conj Hv Ht)).
  - destruct (page_disjoint _ _ Hp Hq Hne); lia.
Qed.

(** Strings survive the trip through user memory.  A NUL-terminated
    string that [copyout] stores in a writable range is what [copyinstr]
    reads back from it, with any bound larger than its length, across any
    number of pages. *)
Theorem copyout_copyinstr s root dst l max :
  pt_wf s root -> dest s root dst (length (l ++ [0])) -> bytes l -> Forall (fun b => b <> 0) l ->
  Z.of_nat (length l) < max < MAXVA ->
  wp (do! copyout root dst (l ++ [0]); copyinstr root dst max)
     (fun r s' => r = (0, l ++ [0]) /\ copied s root dst (l ++ [0]) s') s.
Proof.
  intros Hwf Hd Hb Hnz Hmax. wsteps. eapply wp_mono.
  - apply copyout_loop_spec; auto. apply Forall_app. split; [done|]. apply Forall_singleton. lia.
  - intros _ s' [_ Hc]. destruct (copied_pt _ _ _ _ _ Hwf Hd Hc) as (Hwf' & Hpte & _).
    destruct Hd as (Hd0 & Hdm & Hw & _). rewrite length_app in Hdm, Hw. simpl in Hdm, Hw.
    unfold wp, copyinstr. rewrite (copyinstr_loop_spec _ s' root dst l max); try done; try lia.
    intros i Hi. destruct (Hw i ltac:(lia)) as (A & B & _ & C & _).
    split; [unfold user_mapped; now rewrite Hpte|].
    destruct Hc as (m & -> & Hm & _). simpl in Hpte |- *. unfold uaddr. rewrite Hpte.
    apply (Hm i). destruct (decide (i < length l)%nat) as [Hlt|Hge].
    + destruct (lookup_lt_is_Some_2 l i Hlt) as [x Hx]. rewrite lookup_app_l, Hx by done. done.
    + assert (i = length l) as -> by lia. rewrite lookup_app_r, Nat.sub_diag by lia.
      now rewrite (lookup_ge_None_2 l) by lia.
Qed.

(** ** Fresh pages *)

(** [mem] was taken from the free lists and zeroed; nothing else moved. *)
Record fresh fls s root (mem : Z) fls1 s1 : Prop := {
  f_page : page_ok mem;
  f_perm : concat fls ≡ₚ mem :: concat fls1;
  f_inv : kmem_inv fls1 s1;
  f_same : same_kernel s s1;
  f_ref : ref s1 mem = 1;
  f_refs : forall q, page_ok q -> q <> mem -> ref s1 q = ref s q;
  f_mem : forall a, rd (ram s1) a = if decide (mem <= a < mem + 4096) then 0 else rd (ram s) a;
  f_wf : pt_wf s1 root;
  f_tab : forall t, valid t -> tab (ram s1) root t = tab (ram s) root t;
  f_pte : forall va, pte_of (ram s1) root va = pte_of (ram s) root va;
}.

Lemma wp_fresh {A : Type} fls s root (z : M mach A) (k : Z -> M mach A) (Q : A -> mach -> Prop) :
  kmem_inv fls s -> quiet 2 s -> pt_wf s root -> concat fls <> [] ->
  (forall mem fls1 s1, fresh fls s root mem fls1 s1 -> wp (k mem) Q s1) ->
  wp (let! mem := kalloc in if mem =? 0 then z else do! memset mem 0 PGSIZE; k mem) Q s.
Proof.
  intros Hinv Hq Hwf Hne HQ. wsteps. eapply wp_mono; [now apply (kalloc_spec fls)|].
  intros mem s1 (j & l & _ & Ha & _). cbv zeta in Ha. destruct Ha as (A1 & A2 & A3 & A4 & A5 & A6 & A7).
  destruct (page_ok_ram mem A3). destruct (Z.eqb_spec mem 0); [lia|]. wsteps.
  eapply wp_mono; [apply memset_spec; lia|]. intros r s2 (-> & m & -> & Hm).
  pose proof (concat_pop _ _ _ _ A1) as HP.
  assert (forall a, rd m a = if decide (mem <= a < mem + 4096) then 0 else rd (ram s) a) as Hmem.
  { intros a. rewrite Hm, A5. change PGSIZE with 4096. destruct (decide _); done. }
  assert (mem ∈ concat fls) as Hin by (rewrite HP; left).
  pose proof (not_table_free _ _ _ _ Hinv Hwf Hin) as Hnt.
  destruct (pt_frame s (set_ram m s1) root Hwf) as (W1 & W2 & _ & W3).
  { intros p (t & Hv & Ht). destruct (wf_page _ _ Hwf t p Hv Ht) as [Hp Hr].
    assert (p <> mem) as Hpm by (intros ->; apply Hnt; now exists t).
    split; [change (0 < ref s1 p); rewrite A6; done|]. intros a Haa. simpl. rewrite Hmem, decide_False; [done|].
    destruct (page_disjoint p mem Hp A3 Hpm); lia. }
  eapply HQ. constructor; eauto.
  eapply kmem_inv_frame; [exact A2|done|..].
  - intros p a Hp Haa. simpl. rewrite Hmem, A5. case_decide as Hd; [|done].
    exfalso. pose proof (inv_nodup _ _ Hinv) as Hnd. rewrite HP in Hnd. apply NoDup_cons in Hnd as [Hni _].
    assert (p <> mem) as Hpm by (intros ->; done).
    destruct (page_disjoint p mem (inv_pages _ _ A2 p Hp) A3 Hpm); lia.
  - intros p Hp. split; [now apply (inv_ref _ _ A2)|done].
Qed.

(** The process running on this hart. *)
Definition running s (i : nat) (p : proc) : Prop :=
  exists c, cur (lks s) = Some c /\ c_proc c = Some i /\ procs s !! i = Some p.

Lemma wp_curproc d i p (Q : proc -> mach -> Prop) s :
  lk_ok d (lks s) -> 1 <= d -> running s i p ->
  (forall K, lk_eq (lks s) K -> Q p (set_lks K s)) -> wp curproc Q s.
Proof.
  intros Hok Hd (c & Hc & Hcp & Hp) HQ. unfold curproc. wsteps.
  apply (wp_myproc d c); auto. intros K HK. rewrite Hcp.
  unfold wp, getproc, orfault. simpl. rewrite Hp. now apply HQ.
Qed.

(** A free page [mem], zeroed, mapped at [va]: the effect on everything
    else. *)
Definition filled fls s root va perm (mem : Z) s' : Prop :=
  mem ∈ concat fls /\ page_ok mem /\ ref s' mem = 1 /\ same_kernel s s' /\ pt_wf s' root /\
  (exists fls', kmem_inv fls' s' /\ (length (concat fls) <= length (concat fls') + 3)%nat) /\
  (forall va', 0 <= va' < MAXVA -> va' mod 4096 = 0 ->
     pte_of (ram s') root va' = if decide (va' = va) then mkpte mem perm else pte_of (ram s) root va') /\
  (forall a, mem <= a < mem + 4096 -> rd (ram s') a = 0) /\
  (forall q, page_ok q -> 0 < ref s q -> ref s' q = ref s q /\
     (~ is_table s root q -> forall a, q <= a < q + 4096 -> rd (ram s') a = rd (ram s) a)).

(** The middle of [vmfault] and [uvmalloc]. *)
Lemma map_fresh {A : Type} fls s root va perm (z : M mach A) (f k : Z -> M mach A) (Q : A -> mach -> Prop) :
  kmem_inv fls s -> quiet 2 s -> pt_wf s root -> (3 <= length (concat fls))%nat ->
  0 <= va -> va + 4096 <= MAXVA -> va mod 4096 = 0 -> 0 <= perm < 1024 ->
  has (pte_of (ram s) root va) PTE_V = false ->
  (forall mem s', filled fls s root va perm mem s' -> wp (k mem) Q s') ->
  wp (let! mem := kalloc in
      if mem =? 0 then z
      else
        do! memset mem 0 PGSIZE;
        let! e := mappages root va PGSIZE mem perm in
        if negb (e =? 0) then f mem else k mem) Q s.
Proof.
  intros Hinv Hq Hwf Hfree Hva Hmax Hal Hperm Hunm HQ.
  apply (wp_fresh fls s root z (fun mem => let! e := mappages root va PGSIZE mem perm in
    if negb (e =? 0) then f mem else k mem)); auto; [now apply (concat_ne fls 2)|].
  intros mem fls1 s1 F. pose proof (f_page _ _ _ _ _ _ F) as Hp. destruct (page_ok_ram mem Hp).
  pose proof Hp as (Hpal & _). pose proof (Permutation_length (f_perm _ _ _ _ _ _ F)) as Hl. simpl in Hl.
  assert (mem ∈ concat fls) as Hin by (rewrite (f_perm _ _ _ _ _ _ F); left).
  pose proof (not_table_free _ _ _ _ Hinv Hwf Hin) as Hnt.
  assert (forall q, is_table s1 root q -> is_table s root q) as Htab.
  { intros q (t & Hv & Ht). exists t. now rewrite (f_tab _ _ _ _ _ _ F) in Ht. }
  wsteps. eapply wp_mono.
  - apply (mappages_spec 1 fls1 s1 root va mem perm);
      [apply F|eapply quiet_same; [exact Hq|apply F]|apply F|lia|lia|done|done|lia|lia|done|lia|done|].
    intros j Hj. assert (j = O) as -> by lia. rewrite Z.mul_0_r, Z.add_0_r, (f_pte _ _ _ _ _ _ F). done.
  - intros e s2 [-> (fls2 & G)]. simpl negb. cbv iota. apply HQ.
    split; [done|]. split; [done|].
    assert (0 < ref s1 mem) as Hr by (rewrite (f_ref _ _ _ _ _ _ F); lia).
    split; [rewrite (g_ref _ _ _ _ _ _ _ G), (f_ref _ _ _ _ _ _ F); auto|].
    split; [etransitivity; [apply F|apply G]|]. split; [apply G|].
    split; [exists fls2; split; [apply G|pose proof (g_free _ _ _ _ _ _ _ G); lia]|]. split.
    { intros va' H1 H2. rewrite (g_pte _ _ _ _ _ _ _ G), (f_pte _ _ _ _ _ _ F) by done. simpl seg.
      destruct (decide (va' = va)) as [->|Hne].
      - now rewrite lookup_insert_eq.
      - now rewrite lookup_insert_ne, lookup_empty by done. }
    split.
    { intros a Ha. rewrite (g_mem _ _ _ _ _ _ _ G mem a); auto.
      rewrite (f_mem _ _ _ _ _ _ F), decide_True; done. }
    intros q Hqok Hqr.
    assert (q <> mem) as Hne by (intros ->; apply (inv_free _ _ Hinv mem Hp) in Hin; lia).
    pose proof (f_refs _ _ _ _ _ _ F q Hqok Hne) as E.
    split; [rewrite (g_ref _ _ _ _ _ _ _ G); [done|done|lia]|].
    intros Hntq a Ha. rewrite (g_mem _ _ _ _ _ _ _ G q a); auto; [|lia].
    rewrite (f_mem _ _ _ _ _ _ F), decide_False; [done|].
    destruct (page_disjoint q mem Hqok Hp Hne); lia.
Qed.

Lemma filled_lks fls s K root va perm mem s' :
  lk_eq (lks s) K -> filled fls (set_lks K s) root va perm mem s' -> filled fls s root va perm mem s'.
Proof.
  intros HK (A1 & A2 & A3 & (B1 & B2) & A5). split; [done|]. split; [done|]. split; [done|].
  split; [|exact A5]. split; [simpl in B1; now rewrite HK|done].
Qed.

Lemma ismapped_eq s root va : pt_wf s root -> va < MAXVA ->
  ismapped root va s = Ret (has (pte_of (ram s) root va) PTE_V) s.
Proof.
  intros Hwf Hva. unfold ismapped. erewrite bind_Ret by (now apply walk_noalloc).
  unfold pte_of. destruct (leaf (ram s) root va) as [a|] eqn:E; simpl; [|done].
  destruct (leaf_pos s root va a Hwf E). destruct (Z.eqb_spec a 0); [lia|].
  unfold bind, ld64. now rewrite (proj2 (in_ram_spec a 8)) by done.
Qed.

(** C35: a lazily allocated page appears on its first use.  For an address
    below the size of the running process whose page is not mapped yet,
    [vmfault] takes a free page, fills it with zeros and maps it readable
    and writable for the user at the page of [va]; every other mapping,
    every allocated page and every reference count stays. *)
Theorem vmfault_correct fls s i p va :
  let root := pagetable p in
  let va0 := va - va mod 4096 in
  kmem_inv fls s -> quiet 2 s -> pt_wf s root -> running s i p ->
  0 <= va < sz p -> va0 + 4096 <= MAXVA -> has (pte_of (ram s) root va0) PTE_V = false ->
  (3 <= length (concat fls))%nat ->
  wp (vmfault root va)
    (fun mem s' => filled fls s root va0 (Z.lor (Z.lor PTE_W PTE_U) PTE_R) mem s') s.
Proof.
  intros root va0 Hinv Hq Hwf Hrun Hva Hmax Hunm Hfree. unfold vmfault.
  pose proof (Z.mod_pos_bound va 4096). pose proof (Z.mod_le va 4096).
  wsteps. apply (wp_curproc 2 i p); [apply Hq|lia|done|]. intros K HK.
  destruct (Z.leb_spec (sz p) va); [lia|]. rewrite PGROUNDDOWN_eq. fold va0.
  assert (kmem_inv fls (set_lks K s)) by (now apply kmem_inv_lks).
  assert (quiet 2 (set_lks K s)) by (now apply (quiet_eq 2 s)).
  assert (pt_wf (set_lks K s) root) by (now apply (pt_wf_same s)).
  apply wp_bind. unfold wp at 1. rewrite ismapped_eq by (done || lia). simpl ram. rewrite Hunm.
  apply (map_fresh fls (set_lks K s) root va0 (Z.lor (Z.lor PTE_W PTE_U) PTE_R) (ret 0)
    (fun mem => do! kfree mem; ret 0) (fun mem => ret mem)); auto; [lia|unfold va0; rewrite <- PGROUNDDOWN_eq; apply (PGROUNDDOWN_spec va ltac:(lia))|done|].
  intros mem s' Hf. apply wp_ret. now apply (filled_lks _ _ K).
Qed.

(** What [mappages] maps, [walkaddr] finds.  Mapping [n] unmapped pages
    of user memory, with two free pages for the tables of each, returns 0;
    afterwards [walkaddr] translates the [k]-th page of the range to the
    [k]-th physical page, and every other page as before. *)
Theorem mappages_walkaddr n fls s root va pa perm va' :
  kmem_inv fls s -> quiet 2 s -> pt_wf s root -> (0 < n)%nat -> (2 * n <= length (concat fls))%nat ->
  0 <= va -> va mod 4096 = 0 -> va + 4096 * Z.of_nat n <= MAXVA ->
  0 <= pa -> pa mod 4096 = 0 -> pa + 4096 * Z.of_nat n <= 72057594037927936 ->
  0 <= perm < 1024 -> has perm PTE_U = true ->
  (forall k, (k < n)%nat -> has (pte_of (ram s) root (va + 4096 * Z.of_nat k)) PTE_V = false) ->
  0 <= va' < MAXVA -> va' mod 4096 = 0 ->
  wp (let! e := mappages root va (4096 * Z.of_nat n) pa perm in
      let! a := walkaddr root va' in ret (e, a))
     (fun r s' => fst r = 0 /\
        if decide (va <= va' < va + 4096 * Z.of_nat n) then snd r = pa + (va' - va)
        else walkaddr root va' s = Ret (snd r) s) s.
Proof.
  intros Hinv Hq Hwf Hn Hfree Ha Hal Hamax Hpa Hpal Hpmax Hperm Hu Hunm Hva' Hal'. wsteps.
  eapply wp_mono; [now apply (mappages_spec n fls)|]. intros e s1 [-> (fls1 & G)]. wsteps.
  unfold wp at 1. rewrite walkaddr_eq by apply G. apply wp_ret. split; [done|]. cbn [snd].
  rewrite (g_pte _ _ _ _ _ _ _ G), seg_lookup by done.
  assert ((va' - va) mod 4096 = 0) as Hd by (now rewrite Zminus_mod, Hal, Hal').
  destruct (decide (va <= va' < va + 4096 * Z.of_nat n)) as [Hin|Hout].
  - rewrite decide_True by done. change (default ?x (Some ?y)) with y.
    destruct (mkpte_spec (pa + (va' - va)) perm) as (_ & E & Ef); [lia| |done|].
    { now rewrite Zplus_mod, Hpal, Hd. }
    rewrite E. rewrite (proj2 (Z.ltb_lt _ _)) by lia.
    assert (forall b, has (Z.lor (Z.lor b perm) PTE_V) PTE_V = true) as Hv.
    { intros b. unfold PTE_V at 2. rewrite has_bit, Z.lor_spec by lia. apply orb_true_r. }
    assert (forall b, has (Z.lor (Z.lor b perm) PTE_V) PTE_U = true) as Hu'.
    { intros b. unfold PTE_U in *. rewrite has_bit in * by lia. rewrite !Z.lor_spec, Hu.
      now rewrite orb_true_r. }
    unfold mkpte at 1 2. now rewrite Hv, Hu'.
  - rewrite decide_False by tauto. rewrite walkaddr_eq by done. done.
Qed.
End Uvm.
