(* ===== verification/Cow.v ===== *)
(** * Copy-on-write address spaces (kernel/vm.c): sharing and unsharing

    What [uvmcopy] and [uvmunmap] do to two address spaces and to the
    reference counts of the pages they share. *)

From S2P Require Import Prelude.
From S2P Require Import Mach.
From S2P Require Import Spinlock.
From S2P Require Import Kstring.
From S2P Require Import Kalloc.
From S2P Require Import Vm.
From S2P Require Import Pagetable.
From S2P Require Import Uvm.

Section Cow.
Context {L : Layout} {LO : LayoutOk L}.
Implicit Types (s : mach) (m : gmap Z Z) (root old new va : Z).

(** The tables of [a] are not tables of [b]. *)
Definition apart s (a b : Z) : Prop := forall q, is_table s a q -> ~ is_table s b q.

(** An address space does not notice changes of another one. *)
Lemma grows_other fls s fls' s' root n u other :
  kmem_inv fls s -> pt_wf s other -> apart s other root -> grows fls s fls' s' root n u ->
  pt_wf s' other /\ (forall t, valid t -> tab (ram s') other t = tab (ram s) other t) /\
  (forall va, leaf (ram s') other va = leaf (ram s) other va) /\
  (forall va, pte_of (ram s') other va = pte_of (ram s) other va) /\ apart s' other root.
Proof.
  intros Hinv Hwf Hap G.
  destruct (pt_frame s s' other Hwf) as (H1 & H2 & H3 & H4).
  - intros p Hp. pose proof Hp as (t & Hv & Ht). destruct (wf_page _ _ Hwf t p Hv Ht) as [Hpok Hr].
    split; [rewrite (g_ref _ _ _ _ _ _ _ G); done|]. intros a Ha.
    apply (g_mem _ _ _ _ _ _ _ G p); auto.
  - split; [done|]. split; [done|]. split; [done|]. split; [done|].
    intros q (t & Hv & Ht) Hq'. rewrite H2 in Ht by done.
    assert (is_table s other q) as Hq by (now exists t).
    destruct (g_new _ _ _ _ _ _ _ G q Hq') as [Hr|Hf]; [now apply (Hap q)|].
    now apply (not_table_free _ _ _ _ Hinv Hwf Hf).
Qed.

(** ** Reference counts *)

Lemma kaddref_spec fls s p :
  kmem_inv fls s -> quiet 2 s -> page_ok p -> 0 < ref s p < 2147483647 ->
  wp (kaddref p) (fun _ s' => kmem_inv fls s' /\ same_kernel s s' /\ ram s' = ram s /\
    ref s' p = ref s p + 1 /\ forall q, page_ok q -> q <> p -> ref s' q = ref s q) s.
Proof.
  intros Hinv (Hok & Hh & Hlr & Hlk) Hp Hr. unfold kaddref. wsteps.
  apply (wp_acquire _ 2); auto; [lia|]. intros K1 Hok1 Ha1. wsteps.
  apply wp_ref_get; [done|]. change (ref (set_lks K1 s) p) with (ref s p).
  rewrite i32_small by lia. wsteps. apply wp_ref_set; [done|]. wsteps.
  eapply (wp_release _ 2 (lks s) K1); simpl; eauto; [lia|reflexivity|]. intros K2 He.
  match goal with |- kmem_inv _ ?x /\ _ => set (s' := x) end.
  assert (ref s' p = ref s p + 1) as Hself by (unfold ref; simpl; now rewrite lookup_insert_eq).
  assert (forall q, page_ok q -> q <> p -> ref s' q = ref s q) as Hoth.
  { intros q Hq Hne. unfold ref. simpl. rewrite lookup_insert_ne; [done|].
    intros E. apply Hne. symmetry. now apply refidx_inj. }
  split; [|split; [split; [exact He|done]|done]].
  eapply kmem_inv_frame; [exact Hinv|done|done|].
  intros q Hq. destruct (decide (q = p)) as [->|Hne].
  - rewrite Hself. lia.
  - rewrite Hoth by done. split; [now apply (inv_ref _ _ Hinv)|done].
Qed.

(** Only counts changed, and none of a table to 0. *)
Lemma pt_refs s s' root :
  pt_wf s root -> ram s' = ram s -> (forall q, is_table s root q -> 0 < ref s' q) -> pt_wf s' root.
Proof. intros Hwf Hm Hr. apply (pt_frame s s'); [done|]. intros p Hp. rewrite Hm. auto. Qed.

(** ** Sharing *)

(** What [uvmcopy] makes of a parent's entry: writable pages become
    read-only and copy-on-write. *)
Definition cowed (v : Z) : Z := if has v PTE_W then Z.lor (Z.ldiff v PTE_W) PTE_COW else v.

(** A valid entry for a page with count below the maximum. *)
Definition shareable s root (i : Z) : Prop :=
  let v := pte_of (ram s) root i in
  has v PTE_V = true ->
  page_ok (PTE2PA v) /\ 0 < ref s (PTE2PA v) < 2147483647.

Lemma flags_bits v n : 0 <= n < 10 -> Z.testbit (PTE_FLAGS v) n = Z.testbit v n.
Proof.
  intros Hn. unfold PTE_FLAGS. change 1023 with (Z.ones 10). rewrite Z.land_spec, Z.ones_spec_low by lia.
  apply andb_true_r.
Qed.

Lemma flags_range v : 0 <= PTE_FLAGS v < 1024.
Proof. rewrite PTE_FLAGS_eq. now apply Z.mod_pos_bound. Qed.

Lemma has_flags v k : 0 <= k < 10 -> has (PTE_FLAGS v) (Z.shiftl 1 k) = has v (Z.shiftl 1 k).
Proof. intros Hk. rewrite !has_bit by lia. now apply flags_bits. Qed.

Lemma u64_bits v : 0 <= v < 18446744073709551616 <-> 0 <= v /\ forall n, 64 <= n -> Z.testbit v n = false.
Proof.
  change 18446744073709551616 with (2 ^ 64). split.
  - intros [H1 H2]. split; [done|]. intros n Hn. rewrite <- (Z.mod_small v (2 ^ 64)) by done.
    rewrite Z.mod_pow2_bits_high; [done|lia].
  - intros [H1 H2]. split; [done|]. destruct (Z_lt_ge_dec v (2 ^ 64)) as [|Hge]; [done|exfalso].
    assert (64 <= Z.log2 v) as Hl by (apply Z.log2_le_pow2; lia).
    specialize (H2 _ Hl). rewrite Z.bit_log2 in H2; [done|lia].
Qed.

Lemma cowed_range v : 0 <= v < 18446744073709551616 -> 0 <= cowed v < 18446744073709551616.
Proof.
  intros Hv. unfold cowed. destruct (has v PTE_W); [|done]. apply u64_bits in Hv as [H1 H2].
  apply u64_bits. split.
  - apply Z.lor_nonneg. split; [apply Z.ldiff_nonneg; now left|done].
  - intros n Hn. rewrite Z.lor_spec, Z.ldiff_spec, H2 by done. simpl.
    unfold PTE_COW. rewrite Z.shiftl_spec by lia. apply Z.bits_above_log2; [done|]. simpl. lia.
Qed.

Lemma cowed_bits v n : 0 <= n ->
  Z.testbit (cowed v) n =
    if has v PTE_W then (if decide (n = 2) then false else if decide (n = 8) then true else Z.testbit v n)
    else Z.testbit v n.
Proof.
  intros Hn. unfold cowed. destruct (has v PTE_W); [|done].
  rewrite Z.lor_spec, Z.ldiff_spec. unfold PTE_W, PTE_COW.
  rewrite !Z.shiftl_1_l, !Z.pow2_bits_eqb by lia.
  destruct (decide (n = 2)) as [->|H2]; [simpl; now rewrite andb_false_r|].
  rewrite (proj2 (Z.eqb_neq 2 n)) by lia. rewrite andb_true_r.
  destruct (decide (n = 8)) as [->|H8]; [apply orb_true_r|].
  rewrite (proj2 (Z.eqb_neq 8 n)) by lia. apply orb_false_r.
Qed.

Lemma PTE2PA_bits v v' : (forall n, 10 <= n -> Z.testbit v n = Z.testbit v' n) -> PTE2PA v = PTE2PA v'.
Proof.
  intros H. unfold PTE2PA. do 2 f_equal. apply Z.bits_inj'. intros n Hn.
  rewrite !Z.shiftr_spec by lia. apply H. lia.
Qed.

Lemma cowed_pa v : PTE2PA (cowed v) = PTE2PA v.
Proof.
  apply PTE2PA_bits. intros n Hn. rewrite cowed_bits by lia.
  destruct (has v PTE_W); [|done]. rewrite !decide_False by lia. done.
Qed.

Lemma cowed_has v k : 0 <= k -> k <> 2 -> k <> 8 -> has (cowed v) (Z.shiftl 1 k) = has v (Z.shiftl 1 k).
Proof.
  intros Hk H2 H8. rewrite !has_bit by lia. rewrite cowed_bits by lia.
  destruct (has v PTE_W); [|done]. rewrite !decide_False by lia. done.
Qed.

(** [shared ds fls s fls' s' n]: the pages of [old] at the addresses [ds]
    have become copy-on-write and are mapped by [new] too, each with one
    more reference per mapping; at most [n] free pages became tables. *)
Record shared (old new : Z) (ds : list Z) fls s fls' s' (n : nat) : Prop := {
  sh_inv : kmem_inv fls' s';
  sh_same : same_kernel s s';
  sh_wf_old : pt_wf s' old;
  sh_wf_new : pt_wf s' new;
  sh_apart : apart s' old new;
  sh_free : (length (concat fls) <= length (concat fls') + n)%nat;
  sh_old : forall va, 0 <= va < MAXVA -> va mod 4096 = 0 ->
    pte_of (ram s') old va = if decide (va ∈ ds) then cowed (pte_of (ram s) old va) else pte_of (ram s) old va;
  sh_new : forall va, 0 <= va < MAXVA -> va mod 4096 = 0 ->
    pte_of (ram s') new va =
      if decide (va ∈ ds)
      then mkpte (PTE2PA (pte_of (ram s) old va)) (PTE_FLAGS (cowed (pte_of (ram s) old va)))
      else pte_of (ram s) new va;
  sh_ref : forall q, page_ok q -> 0 < ref s q ->
    ref s' q = ref s q + Z.of_nat (length (filter (fun va => PTE2PA (pte_of (ram s) old va) = q) ds));
  sh_mem : forall q a, page_ok q -> 0 < ref s q -> ~ is_table s old q -> ~ is_table s new q ->
    q <= a < q + 4096 -> rd (ram s') a = rd (ram s) a;
  sh_tabs : forall q, is_table s' old q \/ is_table s' new q ->
    is_table s old q \/ is_table s new q \/ q ∈ concat fls;
}.

Lemma count_ext (f g : Z -> Z) (q : Z) (l : list Z) :
  (forall x, x ∈ l -> f x = g x) ->
  length (filter (fun x => f x = q) l) = length (filter (fun x => g x = q) l).
Proof.
  induction l as [|x l IH]; intros H; [done|]. rewrite !filter_cons.
  rewrite (H x) by left. specialize (IH (fun y Hy => H y (list_elem_of_further _ _ _ Hy))).
  destruct (decide _); simpl; congruence.
Qed.

Lemma shared_nil old new fls s :
  kmem_inv fls s -> pt_wf s old -> pt_wf s new -> apart s old new -> shared old new [] fls s fls s 0.
Proof.
  intros. constructor; auto; try reflexivity.
  - lia.
  - intros q Hq Hr. simpl. lia.
  - tauto.
Qed.

Lemma shared_app old new d1 d2 fls1 s1 fls2 s2 fls3 s3 n k :
  kmem_inv fls1 s1 ->
  (forall va, va ∈ d1 ++ d2 -> 0 <= va < MAXVA /\ va mod 4096 = 0) ->
  (forall va, va ∈ d1 -> ~ va ∈ d2) ->
  shared old new d1 fls1 s1 fls2 s2 n -> shared old new d2 fls2 s2 fls3 s3 k ->
  shared old new (d1 ++ d2) fls1 s1 fls3 s3 (n + k).
Proof.
  intros Hinv Hr Hd A B.
  assert (forall va, va ∈ d2 -> pte_of (ram s2) old va = pte_of (ram s1) old va) as Hold2.
  { intros va Hva. destruct (Hr va) as [H1 H2]; [apply elem_of_app; now right|].
    rewrite (sh_old _ _ _ _ _ _ _ _ A) by done. rewrite decide_False; [done|]. intros H3. now apply (Hd va). }
  constructor; try apply B.
  - etransitivity; [apply A|apply B].
  - pose proof (sh_free _ _ _ _ _ _ _ _ A). pose proof (sh_free _ _ _ _ _ _ _ _ B). lia.
  - intros va H1 H2. rewrite (sh_old _ _ _ _ _ _ _ _ B), (sh_old _ _ _ _ _ _ _ _ A) by done.
    destruct (decide (va ∈ d2)) as [H3|H3].
    + rewrite (decide_False (P := va ∈ d1)) by (intros H4; now apply (Hd va)).
      rewrite decide_True by (apply elem_of_app; now right). done.
    + destruct (decide (va ∈ d1)) as [H4|H4].
      * rewrite decide_True by (apply elem_of_app; now left). done.
      * rewrite decide_False; [done|]. rewrite elem_of_app. tauto.
  - intros va H1 H2. rewrite (sh_new _ _ _ _ _ _ _ _ B), (sh_new _ _ _ _ _ _ _ _ A) by done.
    destruct (decide (va ∈ d2)) as [H3|H3].
    + rewrite decide_True by (apply elem_of_app; now right). now rewrite Hold2.
    + destruct (decide (va ∈ d1)) as [H4|H4].
      * rewrite decide_True by (apply elem_of_app; now left). done.
      * rewrite decide_False; [done|]. rewrite elem_of_app. tauto.
  - intros q Hq Hpos. pose proof (sh_ref _ _ _ _ _ _ _ _ A q Hq Hpos) as E1.
    rewrite (sh_ref _ _ _ _ _ _ _ _ B q Hq), E1 by lia. rewrite filter_app, length_app.
    rewrite (count_ext (fun va => PTE2PA (pte_of (ram s2) old va)) (fun va => PTE2PA (pte_of (ram s1) old va)));
      [lia|]. intros va Hi. now rewrite Hold2.
  - intros q a Hq Hpos Ho Hn Ha.
    pose proof (sh_ref _ _ _ _ _ _ _ _ A q Hq Hpos) as E1.
    rewrite (sh_mem _ _ _ _ _ _ _ _ B q a), (sh_mem _ _ _ _ _ _ _ _ A q a); auto; [lia| |];
      intros Ht; (destruct (sh_tabs _ _ _ _ _ _ _ _ A q) as [|[|Hf]]; [tauto|done|done|]);
      apply (inv_free _ _ Hinv q Hq) in Hf; lia.
  - intros q Hq. destruct (sh_tabs _ _ _ _ _ _ _ _ B q Hq) as [Ht|[Ht|Hf]].
    + apply (sh_tabs _ _ _ _ _ _ _ _ A). tauto.
    + apply (sh_tabs _ _ _ _ _ _ _ _ A). tauto.
    + right. right. destruct (decide (q ∈ concat fls1)) as [|Hn]; [done|exfalso].
      pose proof (inv_pages _ _ (sh_inv _ _ _ _ _ _ _ _ A) q Hf) as Hpq.
      assert (ref s1 q <> 0) by (rewrite (inv_free _ _ Hinv q Hpq); done).
      pose proof (inv_ref _ _ Hinv q Hpq).
      pose proof (sh_ref _ _ _ _ _ _ _ _ A q Hpq ltac:(lia)).
      apply (inv_free _ _ (sh_inv _ _ _ _ _ _ _ _ A) q Hpq) in Hf. lia.
Qed.

Lemma grows_0_refs fls s fls' s' root u q :
  kmem_inv fls s -> grows fls s fls' s' root 0 u -> page_ok q -> 0 < ref s q -> 0 < ref s' q.
Proof. intros Hinv G Hq Hr. now rewrite (g_ref _ _ _ _ _ _ _ G). Qed.

(** Rewriting the parent's entry: at most two stores to one leaf. *)
Lemma set_cow fls s root i a v (Q : unit -> mach -> Prop) :
  kmem_inv fls s -> pt_wf s root -> 0 <= i < MAXVA -> i mod 4096 = 0 ->
  leaf (ram s) root i = Some a -> v = pte_of (ram s) root i ->
  (forall s', same_kernel s s' -> grows fls s fls s' root 0 {[i := cowed v]} ->
     (forall t, valid t -> tab (ram s') root t = tab (ram s) root t) ->
     rdn 8 (ram s') a = cowed v -> Q tt s') ->
  wp (if has (PTE_FLAGS v) PTE_W then
        do! (let! w := ld64 a in st64 a (Z.ldiff w PTE_W));
        let! w := ld64 a in st64 a (Z.lor w PTE_COW)
      else ret tt) Q s.
Proof.
  intros Hinv Hwf Hi Hal Hl -> HQ. set (v := pte_of (ram s) root i) in *.
  assert (rdn 8 (ram s) a = v) as Ha by (unfold v, pte_of; now rewrite Hl).
  pose proof (rdn8_range (ram s) a) as Hv. rewrite Ha in Hv.
  destruct (leaf_pos _ _ _ _ Hwf Hl) as [Hlo Hhi].
  pose proof (has_flags v 2 ltac:(lia)) as Ef. change (Z.shiftl 1 2) with PTE_W in Ef. rewrite Ef. clear Ef.
  destruct (has v PTE_W) eqn:Ew.
  - pose proof (cowed_range v Hv) as Hc. unfold cowed in Hc. rewrite Ew in Hc.
    assert (0 <= Z.ldiff v PTE_W < 18446744073709551616) as Hc1.
    { pose proof Hv as Hv'. apply u64_bits in Hv' as [_ Hh]. apply u64_bits.
      split; [apply Z.ldiff_nonneg; left; apply Hv|]. intros n Hn. now rewrite Z.ldiff_spec, Hh. }
    wsteps. apply wp_ld64; [done..|]. rewrite Ha. wsteps. apply wp_st64; [done..|]. wsteps.
    apply wp_ld64; [done..|]. simpl ram. rewrite (rdn_wrn_eq 8) by exact Hc1. wsteps.
    apply wp_st64; [done..|]. simpl ram.
    destruct (set_leaf fls s root i a (Z.ldiff v PTE_W)) as [G1 T1]; auto.
    set (s1 := set_ram (wrn 8 (ram s) a (Z.ldiff v PTE_W)) s) in *.
    assert (leaf (ram s1) root i = Some a) as Hl1.
    { unfold leaf. rewrite T1 by (split; apply PX_idx). exact Hl. }
    destruct (set_leaf fls s1 root i a (Z.lor (Z.ldiff v PTE_W) PTE_COW)) as [G2 T2]; auto; [apply G1|apply G1|].
    pose proof (grows_trans _ _ _ _ _ _ _ _ _ _ _ Hinv G1 G2) as G.
    assert (cowed v = Z.lor (Z.ldiff v PTE_W) PTE_COW) as Ec by (unfold cowed; now rewrite Ew).
    apply HQ.
    + exact (g_same _ _ _ _ _ _ _ G).
    + rewrite Ec. replace ({[i := Z.lor (Z.ldiff v PTE_W) PTE_COW]} : gmap Z Z)
        with ({[i := Z.lor (Z.ldiff v PTE_W) PTE_COW]} ∪ {[i := Z.ldiff v PTE_W]} : gmap Z Z); [exact G|].
      apply map_eq. intros j. rewrite lookup_union. destruct (decide (i = j)) as [<-|Hne].
      * now rewrite !lookup_singleton_eq.
      * now rewrite !lookup_singleton_ne.
    + intros t Ht. etransitivity; [apply T2|apply T1]; done.
    + rewrite Ec. apply (rdn_wrn_eq 8). exact Hc.
  - assert (cowed v = v) as Ec by (unfold cowed; now rewrite Ew).
    apply wp_ret. apply HQ; [reflexivity| |done|congruence].
    destruct (grows_refl fls s root Hinv Hwf) as [B1 B2 B3 B4 B5 B6 B7 B8 B9 B10 B11].
    constructor; auto. intros va Hva Hva'. destruct (decide (i = va)) as [<-|Hne].
    + rewrite lookup_singleton_eq. done.
    + now rewrite lookup_singleton_ne.
Qed.

(** ** One page of [uvmcopy] *)

Definition copy_page_of (old new i : Z) : M mach (option Z) :=
  let! pte := walk old i false in
  if pte =? 0 then ret None
  else
    let! v := ld64 pte in
    if negb (has v PTE_V) then ret None
    else
      let pa := PTE2PA v in
      let flags := PTE_FLAGS v in
      do! (if has flags PTE_W then
             do! (let! w := ld64 pte in st64 pte (Z.ldiff w PTE_W));
             let! w := ld64 pte in st64 pte (Z.lor w PTE_COW)
           else ret tt);
      let! v := ld64 pte in
      let flags := PTE_FLAGS v in
      let! e := mappages new i PGSIZE pa flags in
      if negb (e =? 0) then ret (Some i)
      else do! kaddref pa; ret None.

Lemma apart_sym s a b : apart s a b -> apart s b a.
Proof. intros H q H1 H2. now apply (H q). Qed.

Lemma page_ok_pte p : page_ok p -> 0 <= p < 72057594037927936 /\ p mod 4096 = 0.
Proof. intros Hp. destruct (page_ok_ram p Hp). pose proof Hp as (? & _). lia. Qed.

(** The parent's entry [i] has become copy-on-write in [s1], the child has it
    in [s2], and the page has one reference more in [s3]. *)
Section PageShared.
Variables (fls fls2 : list (list Z)) (s s1 s2 s3 : mach) (old new i : Z).
Let v : Z := pte_of (ram s) old i.
Hypothesis Hinv : kmem_inv fls s.
Hypothesis Hwn : pt_wf s new.
Hypothesis Hap : apart s old new.
Hypothesis G1 : grows fls s fls s1 old 0 {[i := cowed v]}.
Hypothesis T1 : forall t, valid t -> tab (ram s1) old t = tab (ram s) old t.
Hypothesis G2 : grows fls s1 fls2 s2 new 2 (seg 1 i (PTE2PA v) (PTE_FLAGS (cowed v))).
Hypothesis Hpa : page_ok (PTE2PA v).
Hypothesis Href : 0 < ref s (PTE2PA v).
Hypothesis Hinv3 : kmem_inv fls2 s3.
Hypothesis Hs3 : same_kernel s2 s3.
Hypothesis Hm3 : ram s3 = ram s2.
Hypothesis Hself : ref s3 (PTE2PA v) = ref s2 (PTE2PA v) + 1.
Hypothesis Hoth : forall q, page_ok q -> q <> PTE2PA v -> ref s3 q = ref s2 q.

Lemma shared_refs q : page_ok q -> 0 < ref s q -> ref s2 q = ref s q.
Proof. intros Hqok Hqr. pose proof (g_ref _ _ _ _ _ _ _ G1 q Hqok Hqr) as E. rewrite (g_ref _ _ _ _ _ _ _ G2); [done|done|lia]. Qed.
Lemma shared_table root q : pt_wf s2 root -> is_table s2 root q -> 0 < ref s3 q.
Proof.
  intros Hw (t & Ht & Htt). destruct (wf_page _ _ Hw t q Ht Htt) as [Hqok Hqr].
  destruct (decide (q = PTE2PA v)) as [->|Hne]; [rewrite Hself; lia|rewrite Hoth; auto].
Qed.

Lemma page_shared : shared old new [i] fls s fls2 s3 2.
Proof.
  destruct (grows_other _ _ _ _ _ _ _ new Hinv Hwn (apart_sym _ _ _ Hap) G1) as (Wn1 & Tn1 & _ & Pn1 & Ap1).
  destruct (grows_other _ _ _ _ _ _ _ old (g_inv _ _ _ _ _ _ _ G1) (g_wf _ _ _ _ _ _ _ G1) (apart_sym _ _ _ Ap1) G2) as (Wo2 & To2 & _ & Po2 & Ap2).
  pose proof (g_wf _ _ _ _ _ _ _ G2) as Wn2. constructor.
  - exact Hinv3.
  - etransitivity; [apply G1|]. etransitivity; [apply G2|exact Hs3].
  - apply (pt_refs s2); auto. intros q Hq'. now apply (shared_table old).
  - apply (pt_refs s2); auto. intros q Hq'. now apply (shared_table new).
  - intros q (t & Ht & Htt) (t' & Ht' & Htt'). rewrite Hm3 in Htt, Htt'.
    apply (apart_sym _ _ _ Ap2 q); [exact (is_table_intro _ _ _ _ Ht' Htt')|exact (is_table_intro _ _ _ _ Ht Htt)].
  - pose proof (g_free _ _ _ _ _ _ _ G1). pose proof (g_free _ _ _ _ _ _ _ G2). lia.
  - intros va H1 H2. rewrite Hm3, Po2, (g_pte _ _ _ _ _ _ _ G1) by done. destruct (decide (va = i)) as [->|Hne].
    + rewrite lookup_singleton_eq, decide_True; [done|left].
    + rewrite lookup_singleton_ne, decide_False; [done| |done]. intros H3. now apply list_elem_of_singleton in H3.
  - intros va H1 H2. rewrite Hm3, (g_pte _ _ _ _ _ _ _ G2) by done. simpl seg. destruct (decide (va = i)) as [->|Hne].
    + rewrite lookup_insert_eq, decide_True; [done|left].
    + rewrite lookup_insert_ne, lookup_empty, decide_False; [apply Pn1| |done]. intros H3. now apply list_elem_of_singleton in H3.
  - intros q Hqok Hqr. rewrite filter_cons, filter_nil. fold v. destruct (decide (PTE2PA v = q)) as [<-|Hne]; simpl; [rewrite Hself, shared_refs; auto|rewrite Hoth, shared_refs; auto; lia].
  - intros q b Hqok Hqr Ho Hn Hb. rewrite Hm3. rewrite (g_mem _ _ _ _ _ _ _ G2 q b), (g_mem _ _ _ _ _ _ _ G1 q b); auto.
    + rewrite (g_ref _ _ _ _ _ _ _ G1); auto.
    + intros (t & Ht & Htt). rewrite Tn1 in Htt by exact Ht. apply Hn. exact (is_table_intro _ _ _ _ Ht Htt).
  - intros q [(t & Ht & Htt)|(t & Ht & Htt)]; rewrite Hm3 in Htt.
    + rewrite To2, T1 in Htt by exact Ht. left. eapply is_table_intro; eassumption.
    + destruct (g_new _ _ _ _ _ _ _ G2 q (is_table_intro _ _ _ _ Ht Htt)) as [(t' & Ht' & Htt')|Hf]; [|tauto].
      rewrite Tn1 in Htt' by exact Ht'. right. left. exact (is_table_intro _ _ _ _ Ht' Htt').
Qed.
End PageShared.

(** The parent's entry [i] is valid. *)
Lemma share_valid fls s old new i :
  kmem_inv fls s -> quiet 2 s -> pt_wf s old -> pt_wf s new -> apart s old new ->
  0 <= i -> i + 4096 <= MAXVA -> i mod 4096 = 0 -> (2 <= length (concat fls))%nat ->
  has (pte_of (ram s) old i) PTE_V = true -> shareable s old i ->
  has (pte_of (ram s) new i) PTE_V = false ->
  wp (copy_page_of old new i) (fun r s' => r = None /\ exists fls', shared old new [i] fls s fls' s' 2) s.
Proof.
  intros Hinv Hq Hwo Hwn Hap Hi Hmax Hal Hfree Hv Hsh Hnv. unfold copy_page_of.
  destruct (Hsh Hv) as [Hpa Href]. set (v := pte_of (ram s) old i) in *.
  destruct (page_ok_pte _ Hpa) as [Hpr Hpal]. destruct (page_ok_ram _ Hpa) as [_ Hpstop].
  wsteps. apply wp_walk_noalloc; [done|lia|].
  destruct (leaf (ram s) old i) as [a|] eqn:Hl; [|exfalso; unfold v, pte_of in Hv; rewrite Hl in Hv; discriminate Hv].
  simpl default. destruct (leaf_pos _ _ _ _ Hwo Hl) as [Hlo Hhi].
  destruct (Z.eqb_spec a 0) as [|_]; [lia|]. wsteps. apply wp_ld64; [done..|].
  assert (rdn 8 (ram s) a = v) as -> by (unfold v, pte_of; now rewrite Hl).
  rewrite Hv. simpl negb. cbv iota. wsteps.
  apply (set_cow fls s old i a v); auto; [lia|]. intros s1 Hs1 G1 T1 Hr1. wsteps.
  apply wp_ld64; [done..|]. rewrite Hr1. wsteps.
  destruct (grows_other _ _ _ _ _ _ _ new Hinv Hwn (apart_sym _ _ _ Hap) G1) as (Wn1 & Tn1 & _ & Pn1 & Ap1).
  eapply wp_mono; [apply (mappages_spec 1 fls s1 new i (PTE2PA v) (PTE_FLAGS (cowed v)))|].
  { apply G1. } { now apply (quiet_same 2 s). } { done. } { lia. } { lia. } { lia. } { done. } { lia. }
  { lia. } { done. } { lia. } { apply flags_range. }
  { intros k Hk. assert (k = O) as -> by lia. rewrite Z.mul_0_r, Z.add_0_r, Pn1. done. }
  intros e s2 [-> (fls2 & G2)]. simpl negb. cbv iota. wsteps.
  assert (same_kernel s s2) as Hs2 by (etransitivity; [apply G1|apply G2]).
  pose proof (shared_refs fls fls2 s s1 s2 old new i G1 G2 (PTE2PA v) Hpa ltac:(lia)) as Er.
  eapply wp_mono; [apply (kaddref_spec fls2 s2); [apply G2|now apply (quiet_same 2 s)|done|now rewrite Er]|].
  intros _ s3 (Hinv3 & Hs3 & Hm3 & Hself & Hoth). apply wp_ret. split; [done|]. exists fls2.
  apply (page_shared fls fls2 s s1 s2 s3 old new i); auto.
Qed.

(** An entry that is absent or invalid is skipped. *)
Lemma share_invalid s old new i :
  pt_wf s old -> i < MAXVA -> has (pte_of (ram s) old i) PTE_V = false ->
  copy_page_of old new i s = Ret None s.
Proof.
  intros Hwf Hi Hv. unfold copy_page_of. erewrite bind_Ret by (now apply walk_noalloc). cbv beta.
  destruct (leaf (ram s) old i) as [a|] eqn:Hl; [change (default 0 (Some a)) with a|reflexivity].
  destruct (leaf_pos _ _ _ _ Hwf Hl) as [Hlo Hhi]. destruct (Z.eqb_spec a 0) as [|_]; [lia|]. cbv beta iota.
  erewrite bind_Ret by (unfold ld64; rewrite (proj2 (in_ram_spec a 8)) by lia; reflexivity).
  unfold pte_of in Hv. rewrite Hl in Hv. now rewrite Hv.
Qed.

(** The valid pages among the [n] from [base]. *)
Definition valid_pages s root (base : Z) (n : nat) : list Z :=
  filter (fun va => has (pte_of (ram s) root va) PTE_V = true) ((fun k => base + Z.of_nat k * 4096) <$> seq 0 n).

Lemma valid_pages_S s root base n :
  valid_pages s root base (S n) = valid_pages s root base n ++
    (if has (pte_of (ram s) root (base + Z.of_nat n * 4096)) PTE_V then [base + Z.of_nat n * 4096] else []).
Proof.
  unfold valid_pages. rewrite seq_S, fmap_app, filter_app. f_equal. simpl. rewrite filter_cons, filter_nil.
  destruct (has _ _) eqn:E; [rewrite decide_True by done|rewrite decide_False by congruence]; done.
Qed.

Lemma valid_pages_in s root base n va : va ∈ valid_pages s root base n ->
  exists k, (k < n)%nat /\ va = base + Z.of_nat k * 4096 /\ has (pte_of (ram s) root va) PTE_V = true.
Proof.
  unfold valid_pages. rewrite list_elem_of_filter, list_elem_of_fmap. intros (H1 & k & -> & Hk).
  exists k. apply elem_of_seq in Hk. split; [lia|done].
Qed.

(** The next page is none of those before it. *)
Lemma valid_pages_next s root base n : ~ base + Z.of_nat n * 4096 ∈ valid_pages s root base n.
Proof. intros (j & Hj & E & _)%valid_pages_in. lia. Qed.

Lemma filter_length_le (P : Z -> Prop) `{forall x, Decision (P x)} (l : list Z) :
  (length (filter P l) <= length l)%nat.
Proof. induction l as [|x l IH]; [done|]. rewrite filter_cons. destruct (decide _); simpl; lia. Qed.

Lemma valid_pages_length s root base n : (length (valid_pages s root base n) <= n)%nat.
Proof.
  unfold valid_pages. etransitivity; [apply filter_length_le|]. now rewrite length_fmap, length_seq.
Qed.

(** The number of pages of [sz] bytes. *)
Definition npages (sz : Z) : nat := Z.to_nat ((sz + 4095) / 4096).

Lemma npages_spec sz : 0 <= sz ->
  (forall k, (k < npages sz)%nat -> Z.of_nat k * 4096 < sz) /\ sz <= Z.of_nat (npages sz) * 4096.
Proof.
  intros Hsz. unfold npages. pose proof (Z.div_mod (sz + 4095) 4096).
  pose proof (Z.mod_pos_bound (sz + 4095) 4096). pose proof (Z.div_pos (sz + 4095) 4096).
  split; [intros k Hk|]; lia.
Qed.

(** One round, from the invariant of the loop. *)
Lemma share_round fls s old new k s1 :
  let i := 0 + Z.of_nat k * 4096 in
  kmem_inv fls s -> quiet 2 s -> i + 4096 <= MAXVA -> (2 * S k <= length (concat fls))%nat ->
  (has (pte_of (ram s) old i) PTE_V = true -> page_ok (PTE2PA (pte_of (ram s) old i)) /\
     0 < ref s (PTE2PA (pte_of (ram s) old i)) /\
     ref s (PTE2PA (pte_of (ram s) old i)) + Z.of_nat k < 2147483647) ->
  has (pte_of (ram s) new i) PTE_V = false ->
  (exists fls1, shared old new (valid_pages s old 0 k) fls s fls1 s1 (2 * k)) ->
  wp (copy_page_of old new i)
    (fun r s2 => r = None /\ exists fls2, shared old new (valid_pages s old 0 (S k)) fls s fls2 s2 (2 * S k)) s1.
Proof.
  intros i Hinv Hq Hmax Hfree Hv Hn (fls1 & S1).
  assert (i mod 4096 = 0) as Hal by (unfold i; rewrite Z.add_0_l; apply Z.mod_mul; lia).
  pose proof (valid_pages_next s old 0 k) as Hni. fold i in Hni.
  pose proof (sh_old _ _ _ _ _ _ _ _ S1 i ltac:(lia) Hal) as Eo. rewrite decide_False in Eo by done.
  pose proof (sh_new _ _ _ _ _ _ _ _ S1 i ltac:(lia) Hal) as En. rewrite decide_False in En by done.
  pose proof (sh_free _ _ _ _ _ _ _ _ S1) as Hf1.
  rewrite valid_pages_S. fold i. destruct (has (pte_of (ram s) old i) PTE_V) eqn:E.
  - destruct (Hv eq_refl) as (Hp & Hr1 & Hr2).
    eapply wp_mono; [apply (share_valid fls1 s1 old new i);
      [apply S1|apply (quiet_same 2 s); [done|apply S1]|apply S1|apply S1|apply S1|lia|lia|done|lia|congruence|..]|].
    + intros _. rewrite Eo. split; [done|]. rewrite (sh_ref _ _ _ _ _ _ _ _ S1) by done.
      pose proof (filter_length_le (fun va => PTE2PA (pte_of (ram s) old va) = PTE2PA (pte_of (ram s) old i))
        (valid_pages s old 0 k)). pose proof (valid_pages_length s old 0 k). lia.
    + congruence.
    + intros r s2 [-> (fls2 & S2)]. split; [done|]. exists fls2.
      replace (2 * S k)%nat with (2 * k + 2)%nat by lia. eapply shared_app; eauto.
      * intros va [Hva|Hva]%elem_of_app.
        -- apply valid_pages_in in Hva as (j & Hj & -> & _). split; [lia|]. rewrite Z.add_0_l. apply Z.mod_mul. lia.
        -- apply list_elem_of_singleton in Hva as ->. split; [lia|done].
      * intros va Hva Hi. apply list_elem_of_singleton in Hi as ->. done.
  - unfold wp. rewrite share_invalid; [|apply S1|lia|now rewrite Eo]. split; [done|].
    exists fls1. rewrite app_nil_r. destruct S1. constructor; auto. lia.
Qed.

(** C10: [fork] shares memory copy-on-write.  With two free pages per page
    for the child's tables, [uvmcopy] returns 0; every valid page of the
    parent is mapped by the child at the same address; both entries point to
    the same physical page with the same flags, where write permission has
    been exchanged for the COW mark; the reference count of each physical
    page grows by the number of its mappings; page contents, other mappings
    and the rest of the kernel stay. *)
Theorem uvmcopy_shares fls s old new sz :
  let n := npages sz in
  kmem_inv fls s -> quiet 2 s -> pt_wf s old -> pt_wf s new -> apart s old new ->
  0 <= sz -> Z.of_nat n * 4096 <= MAXVA -> (2 * n <= length (concat fls))%nat ->
  (forall k, (k < n)%nat -> let v := pte_of (ram s) old (Z.of_nat k * 4096) in
     has v PTE_V = true -> page_ok (PTE2PA v) /\ 0 < ref s (PTE2PA v) /\
     ref s (PTE2PA v) + Z.of_nat n < 2147483647) ->
  (forall k, (k < n)%nat -> has (pte_of (ram s) new (Z.of_nat k * 4096)) PTE_V = false) ->
  wp (uvmcopy old new sz)
    (fun r s' => r = 0 /\ exists fls', shared old new (valid_pages s old 0 n) fls s fls' s' (2 * n)) s.
Proof.
  intros n Hinv Hq Hwo Hwn Hap Hsz Hmax Hfree Hv Hnv. unfold uvmcopy.
  destruct (npages_spec sz Hsz) as [Hlt Hge]. fold n in Hlt, Hge.
  apply wp_bind. eapply wp_mono.
  - apply (wp_mwhile (R := Z)
      (fun k s' => exists fls', shared old new (valid_pages s old 0 k) fls s fls' s' (2 * k))
      (fun _ _ => False) n _ 0 4096).
    + unfold n, npages. change PGSIZE with 4096. pose proof (Z.div_mod sz 4096). pose proof (Z.mod_pos_bound sz 4096).
      assert ((sz + 4095) / 4096 < sz / 4096 + 1 + 1); [apply Z.div_lt_upper_bound; lia|lia].
    + intros k Hk. apply Z.ltb_lt. specialize (Hlt k Hk). lia.
    + apply Z.ltb_ge. lia.
    + intros k Hk. rewrite u64_small; lia.
    + exists fls. now apply shared_nil.
    + intros k s1 Hk HI.
      change (wp (copy_page_of old new (0 + Z.of_nat k * 4096)) (fun r s'' => match r with Some v => False
        | None => exists fls', shared old new (valid_pages s old 0 (S k)) fls s fls' s'' (2 * S k) end) s1).
      eapply wp_mono; [apply (share_round fls s old new k s1); rewrite ?Z.add_0_l; auto; try lia|].
      * intros Hvk. destruct (Hv k Hk Hvk) as (A & B & C). split; [done|]. split; [done|lia].
      * intros r s2 [-> H2]. exact H2.
  - intros [i|v] s'; [|done]. intros [_ H]. now apply wp_ret.
Qed.

(** ** Unmapping *)

(** The pages at the addresses [ds] are gone from [root], and with [fr]
    each lost a reference per mapping. *)
Record unmapped (root : Z) (fr : bool) (ds : list Z) s fls' s' : Prop := {
  un_inv : kmem_inv fls' s';
  un_same : same_kernel s s';
  un_wf : pt_wf s' root;
  un_tab : forall t, valid t -> tab (ram s') root t = tab (ram s) root t;
  un_pte : forall va, 0 <= va < MAXVA -> va mod 4096 = 0 ->
    pte_of (ram s') root va = if decide (va ∈ ds) then 0 else pte_of (ram s) root va;
  un_ref : forall q, page_ok q -> ref s' q = ref s q -
    if fr then Z.of_nat (length (filter (fun va => PTE2PA (pte_of (ram s) root va) = q) ds)) else 0;
  un_mem : forall q a, page_ok q -> 0 < ref s' q -> ~ is_table s root q ->
    (forall va, va ∈ ds -> PTE2PA (pte_of (ram s) root va) <> q) ->
    q <= a < q + 4096 -> rd (ram s') a = rd (ram s) a;
}.

Definition unmap_page (pt : Z) (do_free : bool) (a : Z) : M mach (option Empty_set) :=
  let! pte := walk pt a false in
  if pte =? 0 then ret None
  else
    let! v := ld64 pte in
    if negb (has v PTE_V) then ret None
    else
      do! (if do_free then kfree (PTE2PA v) else ret tt);
      do! st64 pte 0;
      ret None.

Lemma unmap_invalid s root fr i :
  pt_wf s root -> i < MAXVA -> has (pte_of (ram s) root i) PTE_V = false ->
  unmap_page root fr i s = Ret None s.
Proof.
  intros Hwf Hi Hv. unfold unmap_page. erewrite bind_Ret by (now apply walk_noalloc). cbv beta.
  destruct (leaf (ram s) root i) as [a|] eqn:Hl; [change (default 0 (Some a)) with a|reflexivity].
  destruct (leaf_pos _ _ _ _ Hwf Hl) as [Hlo Hhi]. destruct (Z.eqb_spec a 0) as [|_]; [lia|]. cbv beta iota.
  erewrite bind_Ret by (unfold ld64; rewrite (proj2 (in_ram_spec a 8)) by lia; reflexivity).
  unfold pte_of in Hv. rewrite Hl in Hv. now rewrite Hv.
Qed.

(** The reference given back, or not. *)
Lemma drop_ref (fr : bool) fls s root p :
  kmem_inv fls s -> quiet 2 s -> pt_wf s root -> (fr = true -> page_ok p /\ 0 < ref s p /\ ~ is_table s root p) ->
  wp (if fr then kfree p else ret tt) (fun _ s' =>
    (exists fls', kmem_inv fls' s') /\ same_kernel s s' /\ pt_wf s' root /\
    (forall t, valid t -> tab (ram s') root t = tab (ram s) root t) /\
    (forall va, leaf (ram s') root va = leaf (ram s) root va) /\
    (forall va, pte_of (ram s') root va = pte_of (ram s) root va) /\
    (forall q, page_ok q -> ref s' q = ref s q - if fr then (if decide (p = q) then 1 else 0) else 0) /\
    (forall a, (fr = true -> a < p \/ p + 4096 <= a) -> rd (ram s') a = rd (ram s) a)) s.
Proof.
  intros Hinv Hq Hwf Hp. destruct fr.
  - destruct (Hp eq_refl) as (Hok & Hr & Hnt). eapply wp_mono; [now apply (kfree_spec fls)|].
    intros [] s' (F1 & F2 & F3 & F4 & F5).
    destruct (pt_frame s s' root Hwf) as (W1 & W2 & W3 & W4).
    { intros q Htq. pose proof Htq as (t & Hv & Ht). destruct (wf_page _ _ Hwf t q Hv Ht) as [Hqok Hqr].
      assert (q <> p) as Hne by (intros ->; done).
      split; [now rewrite F3|]. intros a Ha. apply F1. destruct (page_disjoint q p Hqok Hok Hne); lia. }
    split; [destruct (decide (ref s p = 1)); [destruct F5 as (l & _ & F5)|destruct F5 as [F5 _]]; eauto|].
    split; [done|]. split; [done|]. split; [done|]. split; [done|]. split; [done|]. split.
    + intros q Hqok. destruct (decide (p = q)) as [<-|Hne]; [done|]. rewrite F3; auto. lia.
    + intros a Ha. apply F1. auto.
  - apply wp_ret. split; [eauto|]. split; [reflexivity|]. split; [done|].
    repeat split; auto. intros q Hqok. lia.
Qed.

Lemma unmap_valid fls s root fr i :
  kmem_inv fls s -> quiet 2 s -> pt_wf s root -> 0 <= i < MAXVA -> i mod 4096 = 0 ->
  has (pte_of (ram s) root i) PTE_V = true ->
  (fr = true -> page_ok (PTE2PA (pte_of (ram s) root i)) /\ 0 < ref s (PTE2PA (pte_of (ram s) root i)) /\
     ~ is_table s root (PTE2PA (pte_of (ram s) root i))) ->
  wp (unmap_page root fr i) (fun r s' => r = None /\ exists fls', unmapped root fr [i] s fls' s') s.
Proof.
  intros Hinv Hq Hwf Hi Hal Hv Hp. unfold unmap_page. set (v := pte_of (ram s) root i) in *.
  wsteps. apply wp_walk_noalloc; [done|lia|].
  destruct (leaf (ram s) root i) as [a|] eqn:Hl; [|exfalso; unfold v, pte_of in Hv; rewrite Hl in Hv; discriminate Hv].
  change (default 0 (Some a)) with a. destruct (leaf_pos _ _ _ _ Hwf Hl) as [Hlo Hhi].
  destruct (Z.eqb_spec a 0) as [|_]; [lia|]. wsteps. apply wp_ld64; [done..|].
  assert (rdn 8 (ram s) a = v) as -> by (unfold v, pte_of; now rewrite Hl).
  rewrite Hv. change (negb true) with false. cbv iota. wsteps.
  eapply wp_mono; [now apply (drop_ref fr fls s root)|].
  intros _ s1 ((fls1 & I1) & S1 & W1 & T1 & L1 & P1 & R1 & M1). wsteps. apply wp_st64; [done..|]. wsteps.
  split; [done|]. exists fls1.
  destruct (set_leaf fls1 s1 root i a 0) as [G T]; [done|done|done|done|now rewrite L1|lia|].
  constructor; try apply G.
  - etransitivity; [exact S1|apply G].
  - intros t Ht. now rewrite T, T1.
  - intros va H1 H2. rewrite (g_pte _ _ _ _ _ _ _ G) by done.
    destruct (decide (va = i)) as [->|Hne].
    + rewrite lookup_singleton_eq, decide_True; [done|left].
    + rewrite lookup_singleton_ne, decide_False; [apply P1| |done].
      intros H3. now apply list_elem_of_singleton in H3.
  - intros q Hqok. rewrite filter_cons, filter_nil. fold v. change (ref s1 q =
      ref s q - (if fr then Z.of_nat (length (if decide (PTE2PA v = q) then [i] else [])) else 0)).
    rewrite R1 by done. destruct fr; [|done]. destruct (decide _); done.
  - intros q b Hqok Hqr Hnt Hne Hb. specialize (Hne i ltac:(left)). fold v in Hne.
    rewrite (g_mem _ _ _ _ _ _ _ G q b); auto.
    + apply M1. intros Hfr. destruct (Hp Hfr) as (Hpv & _).
      assert (q <> PTE2PA v) as Hne' by congruence. destruct (page_disjoint q _ Hqok Hpv Hne'); lia.
    + intros (t & Ht & Htt). rewrite T1 in Htt by exact Ht. apply Hnt. exact (is_table_intro _ _ _ _ Ht Htt).
Qed.

Lemma unmapped_nil root fr fls s : kmem_inv fls s -> pt_wf s root -> unmapped root fr [] s fls s.
Proof.
  intros. constructor; auto; try reflexivity. intros q Hq. destruct fr; simpl; lia.
Qed.

Lemma unmapped_app root fr d i fls1 s1 s2 fls2 s3 :
  (forall va, va ∈ d ++ [i] -> 0 <= va < MAXVA /\ va mod 4096 = 0) -> ~ i ∈ d ->
  unmapped root fr d s1 fls1 s2 -> unmapped root fr [i] s2 fls2 s3 -> unmapped root fr (d ++ [i]) s1 fls2 s3.
Proof.
  intros Hr Hd A B.
  destruct (Hr i) as [Hi1 Hi2]; [apply elem_of_app; right; left|].
  assert (pte_of (ram s2) root i = pte_of (ram s1) root i) as Ei.
  { rewrite (un_pte _ _ _ _ _ _ A) by done. now rewrite decide_False. }
  assert (forall va, va ∈ [i] <-> va = i) as Hsing by (intros; apply list_elem_of_singleton).
  constructor; try apply B.
  - etransitivity; [apply A|apply B].
  - intros t Ht. now rewrite (un_tab _ _ _ _ _ _ B), (un_tab _ _ _ _ _ _ A).
  - intros va H1 H2. rewrite (un_pte _ _ _ _ _ _ B), (un_pte _ _ _ _ _ _ A) by done.
    destruct (decide (va ∈ [i])), (decide (va ∈ d)), (decide (va ∈ d ++ [i])); try done;
      rewrite elem_of_app in *; tauto.
  - intros q Hq. rewrite (un_ref _ _ _ _ _ _ B), (un_ref _ _ _ _ _ _ A) by done. destruct fr; [|lia].
    rewrite filter_app, length_app.
    rewrite (count_ext (fun va => PTE2PA (pte_of (ram s2) root va)) (fun va => PTE2PA (pte_of (ram s1) root va)) q [i]);
      [lia|]. intros va Hva. apply Hsing in Hva as ->. now rewrite Ei.
  - intros q a Hq Hqr Hnt Hne Ha.
    rewrite (un_mem _ _ _ _ _ _ B q a), (un_mem _ _ _ _ _ _ A q a); auto.
    + pose proof (un_ref _ _ _ _ _ _ B q Hq). destruct fr; lia.
    + intros va Hva. apply Hne, elem_of_app. now left.
    + intros (t & Ht & Htt). rewrite (un_tab _ _ _ _ _ _ A) in Htt by exact Ht. apply Hnt.
      exact (is_table_intro _ _ _ _ Ht Htt).
    + intros va Hva. apply Hsing in Hva as ->. rewrite Ei. apply Hne, elem_of_app. right. left.
Qed.

(** What the mappings of a range say about the pages behind them: they are
    allocated pages outside the table, with a reference for each mapping. *)
Definition backed s root (ds : list Z) : Prop :=
  forall va, va ∈ ds -> let p := PTE2PA (pte_of (ram s) root va) in
    page_ok p /\ ~ is_table s root p /\
    Z.of_nat (length (filter (fun va' => PTE2PA (pte_of (ram s) root va') = p) ds)) <= ref s p.

Lemma unmap_round fls s root fr va k n s1 fls1 :
  let i := va + Z.of_nat k * 4096 in
  kmem_inv fls s -> quiet 2 s -> 0 <= va -> va mod 4096 = 0 -> i < MAXVA -> (k < n)%nat ->
  (fr = true -> backed s root (valid_pages s root va n)) ->
  unmapped root fr (valid_pages s root va k) s fls1 s1 ->
  wp (unmap_page root fr i)
    (fun r s2 => r = None /\ exists fls2, unmapped root fr (valid_pages s root va (S k)) s fls2 s2) s1.
Proof.
  intros i Hinv Hq Hva Hal Hmax Hk Hb U.
  assert (forall j, (va + Z.of_nat j * 4096) mod 4096 = 0) as Hals.
  { intros j. rewrite Z.mod_add by lia. done. }
  pose proof (valid_pages_next s root va k) as Hni. fold i in Hni.
  pose proof (un_pte _ _ _ _ _ _ U i ltac:(lia) (Hals k)) as Ei. rewrite decide_False in Ei by done.
  rewrite valid_pages_S. fold i. destruct (has (pte_of (ram s) root i) PTE_V) eqn:E.
  - eapply wp_mono; [apply (unmap_valid fls1 s1 root fr i);
      [apply U|apply (quiet_same 2 s); [done|apply U]|apply U|lia|apply Hals|congruence|]|].
    + intros Hfr. specialize (Hb Hfr i). rewrite Ei.
      assert (exists l, valid_pages s root va n = valid_pages s root va k ++ [i] ++ l) as (l & El).
      { destruct (seq_app k (n - k) 0) as []. unfold valid_pages.
        replace n with (k + S (n - k - 1))%nat by lia. rewrite seq_app, fmap_app, filter_app. simpl.
        fold i. rewrite filter_cons, decide_True by done.
        eexists. reflexivity. }
      destruct Hb as (H1 & H2 & H3); [rewrite El; apply elem_of_app; right; left|].
      split; [done|]. split.
      * rewrite (un_ref _ _ _ _ _ _ U) by done. rewrite Hfr. rewrite El, !filter_app, !length_app in H3.
        rewrite filter_cons, decide_True in H3 by done. simpl in H3. lia.
      * intros (t & Ht & Htt). rewrite (un_tab _ _ _ _ _ _ U) in Htt by exact Ht. apply H2.
        exact (is_table_intro _ _ _ _ Ht Htt).
    + intros r s2 [-> (fls2 & U2)]. split; [done|]. exists fls2.
      apply (unmapped_app root fr _ i fls1 s s1); auto.
      intros x [Hx|Hx]%elem_of_app.
      * apply valid_pages_in in Hx as (j & Hj & -> & _). split; [lia|apply Hals].
      * apply list_elem_of_singleton in Hx as ->. split; [lia|apply Hals].
  - unfold wp. rewrite unmap_invalid; [|apply U|lia|congruence]. split; [done|].
    exists fls1. now rewrite app_nil_r.
Qed.

(** C36: [uvmunmap] removes exactly the range.  It skips holes, clears the
    leaf entry of every mapped page of the range and, when asked to free,
    gives back one reference per mapping, so that a page shared
    copy-on-write survives; all other mappings, counts, and the contents
    of pages that were not in the range stay. *)
Theorem uvmunmap_correct fls s root va n fr :
  kmem_inv fls s -> quiet 2 s -> pt_wf s root -> 0 <= va -> va mod 4096 = 0 ->
  va + Z.of_nat n * 4096 <= MAXVA ->
  (fr = true -> backed s root (valid_pages s root va n)) ->
  wp (uvmunmap root va (Z.of_nat n) fr)
    (fun _ s' => exists fls', unmapped root fr (valid_pages s root va n) s fls' s') s.
Proof.
  intros Hinv Hq Hwf Hva Hal Hmax Hb. unfold uvmunmap. change PGSIZE with 4096. wsteps.
  { now rewrite Hal. }
  rewrite Nat2Z.id, u64_small by lia. eapply wp_mono.
  - apply (wp_mwhile (R := Empty_set)
      (fun k s' => exists fls', unmapped root fr (valid_pages s root va k) s fls' s')
      (fun _ _ => False) n n va 4096); [done|..].
    + intros k Hk. apply Z.ltb_lt. lia.
    + apply Z.ltb_ge. lia.
    + intros k Hk. rewrite u64_small; lia.
    + exists fls. now apply unmapped_nil.
    + intros k s1 Hk (fls1 & U).
      change (wp (unmap_page root fr (va + Z.of_nat k * 4096)) (fun r s'' => match r with Some v => False
        | None => exists fls', unmapped root fr (valid_pages s root va (S k)) s fls' s'' end) s1).
      eapply wp_mono; [apply (unmap_round fls s root fr va k n s1 fls1); auto; lia|].
      intros r s2 [-> H2]. exact H2.
  - intros [i|v] s'; [|done]. intros [_ H]. now apply wp_ret.
Qed.

(** [kvmunmap] follows a null pointer.  For a kernel page whose leaf
    table does not exist, [walk] returns 0 and the code falls through to the
    store through that pointer. *)
Theorem kvmunmap_faults s root va npages :
  pt_wf s root -> va mod 4096 = 0 -> 0 <= va -> 0 < npages -> va + npages * 4096 <= MAXVA ->
  leaf (ram s) root va = None -> kvmunmap root va npages s = Fault.
Proof.
  intros Hwf Hal Hva Hn Hmax Hl. unfold kvmunmap. change PGSIZE with 4096. rewrite Hal.
  erewrite bind_Ret by reflexivity. apply bind_Fault.
  destruct (Z.to_nat npages) eqn:En; [lia|]. simpl mwhile. rewrite u64_small by lia.
  rewrite (proj2 (Z.ltb_lt _ _)) by lia. apply bind_Fault.
  erewrite bind_Ret by (apply walk_noalloc; [done|lia]). now rewrite Hl.
Qed.
End Cow.
