(* ===== verification/Vmex.v ===== *)
(** * A small concrete machine for the theorems on address spaces

    Eight allocatable pages: a three-level table that maps one user page at
    address 0, a second, empty table, and three free pages on the list of
    CPU 0.  The theorems of [Uvm] and [Cow] are applied to it. *)

From S2P Require Import Prelude.
From S2P Require Import Mach.
From S2P Require Import Spinlock.
From S2P Require Import Kstring.
From S2P Require Import Kalloc.
From S2P Require Import Vm.
From S2P Require Import Pagetable.
From S2P Require Import Uvm.
From S2P Require Import Cow.

#[export] Instance layout1 : Layout := {|
  end_ := PHYSTOP - 32768; etext := KERNBASE + 8192; trampoline := KERNBASE + 4096;
  uservec := KERNBASE + 4096; userret := KERNBASE + 4196; kernelvec := KERNBASE + 64;
  forkret_addr := KERNBASE + 128; usertrap_addr := KERNBASE + 256 |}.
#[export] Instance layout1_ok : LayoutOk layout1.
Proof. constructor; simpl; try lia; reflexivity. Qed.

(** The pages, from the first allocatable one. *)
Definition pgn (k : Z) : Z := PHYSTOP - 32768 + 4096 * k.
Definition rwu : Z := Z.lor (Z.lor PTE_R PTE_W) PTE_U.

Definition mem1 : gmap Z Z :=
  wrn 8 (wrn 8 (wrn 8 (wrn 8 (wrn 8 ∅ (pgn 5) (pgn 6)) (pgn 6) (pgn 7))
    (pgn 0) (Z.lor (PA2PTE (pgn 1)) PTE_V))
    (pgn 1) (Z.lor (PA2PTE (pgn 2)) PTE_V))
    (pgn 2) (mkpte (pgn 3) rwu).
Definition lists1 : list (list Z) := [[pgn 5; pgn 6; pgn 7]; []; []; []; []; []; []; []].
Definition ctx0 : context := Context_ 0 0 [].
Definition proc1 : proc :=
  Proc RUNNING NoChan 0 0 1 None 0 8192 (pgn 0) 0 0 ctx0 [] None [] 0 0 0 0 0 0.
Definition cpu1 : cpu := Cpu (Some 0%nat) ctx0 0 0 (csr Harts.cpu0).
Definition mach1 : mach :=
  Mach (Lockst 0 [cpu1] ∅) mem1 [pgn 5; 0; 0; 0; 0; 0; 0; 0]
    {[ refidx (pgn 0) := 1; refidx (pgn 1) := 1; refidx (pgn 2) := 1; refidx (pgn 3) := 1;
       refidx (pgn 4) := 1 ]} [proc1] 2 None 0.

Lemma pages1 p : page_ok p -> exists k, p = pgn k /\
  (k = 0 \/ k = 1 \/ k = 2 \/ k = 3 \/ k = 4 \/ k = 5 \/ k = 6 \/ k = 7).
Proof.
  intros (H1 & H2 & H3). simpl in H2. pose proof (Z.div_mod p 4096). unfold pgn.
  assert (557048 <= p / 4096) by (apply Z.div_le_lower_bound; lia).
  assert (p / 4096 < 557056) by (apply Z.div_lt_upper_bound; lia).
  exists (p / 4096 - 557048). lia.
Qed.
Lemma pgn_ok k : 0 <= k < 8 -> page_ok (pgn k).
Proof.
  intros Hk. unfold page_ok, pgn. simpl. split; [|lia].
  replace (PHYSTOP - 32768 + 4096 * k) with ((557048 + k) * 4096) by lia. now apply Z.mod_mul.
Qed.

Ltac each_page H := apply pages1 in H as (?k & -> & [->|[->|[->|[->|[->|[->|[->| ->]]]]]]]).

Lemma inv1 : kmem_inv lists1 mach1.
Proof.
  constructor; simpl; try reflexivity.
  - intros [|i] l Hi; [injection Hi as <-; exists (pgn 5); split; [done|]; vm_compute; done|].
    do 8 (destruct i as [|i]; [injection Hi as <- || discriminate Hi; exists 0; done|]).
    discriminate Hi.
  - apply (bool_decide_unpack _). vm_compute. exact I.
  - intros p Hp. rewrite !elem_of_cons, elem_of_nil in Hp.
    destruct Hp as [->|[->|[->|[]]]]; apply pgn_ok; lia.
  - intros p Hp. each_page Hp; vm_compute; intuition discriminate.
  - intros p Hp. rewrite !elem_of_cons, elem_of_nil.
    each_page Hp; (split; [intros H; vm_compute in H; try discriminate H; tauto|
      intros [H|[H|[H|[]]]]; first [discriminate H|reflexivity]]).
Qed.

Lemma quiet1 : quiet 2 mach1.
Proof.
  split; [|split; [simpl; lia|]; split; reflexivity].
  exists cpu1. repeat split; simpl; lia.
Qed.

(** The entries that are not zero. *)
Lemma ent1 k i : 0 <= k < 5 -> idx i -> ent mem1 (pgn k) i =
  if decide (i = 0 /\ k = 0) then Z.lor (PA2PTE (pgn 1)) PTE_V
  else if decide (i = 0 /\ k = 1) then Z.lor (PA2PTE (pgn 2)) PTE_V
  else if decide (i = 0 /\ k = 2) then mkpte (pgn 3) rwu else 0.
Proof.
  intros Hk Hi. unfold idx in Hi. destruct (decide (i = 0)) as [->|Hne].
  - assert (k = 0 \/ k = 1 \/ k = 2 \/ k = 3 \/ k = 4) as [->|[->|[->|[->| ->]]]] by lia;
      vm_compute; reflexivity.
  - rewrite !decide_False by tauto. unfold ent, mem1.
    repeat (rewrite (rdn_wrn_ne 8 8) by (unfold pgn; simpl; lia)).
    apply rdn_zero. intros b _. unfold rd. now rewrite lookup_empty.
Qed.

Lemma nxt1 k i : 0 <= k < 5 -> idx i -> nxt mem1 (pgn k) i =
  if decide (i = 0 /\ k = 0) then Some (pgn 1)
  else if decide (i = 0 /\ k = 1) then Some (pgn 2)
  else if decide (i = 0 /\ k = 2) then Some (pgn 3) else None.
Proof.
  intros Hk Hi. unfold nxt. rewrite ent1 by done.
  repeat (destruct (decide _); [vm_compute; reflexivity|]). reflexivity.
Qed.

Lemma tab1 t p : valid t -> tab mem1 (pgn 0) t = Some p ->
  (t = Root /\ p = pgn 0) \/ (t = Mid 0 /\ p = pgn 1) \/ (t = Low 0 0 /\ p = pgn 2).
Proof.
  destruct t as [|i|i j]; cbn [tab valid]; intros Hv Ht.
  - injection Ht as <-. tauto.
  - rewrite nxt1 in Ht by (done || lia).
    destruct (decide _) as [[-> _]|]; [injection Ht as <-; tauto|].
    rewrite !decide_False in Ht by lia. discriminate Ht.
  - destruct Hv as [Hi Hj]. rewrite nxt1 in Ht by (done || lia).
    destruct (decide _) as [[-> _]|]; [|now rewrite !decide_False in Ht by lia].
    rewrite nxt1 in Ht by (done || lia). rewrite decide_False in Ht by lia.
    destruct (decide _) as [[-> _]|]; [injection Ht as <-; tauto|].
    now rewrite !decide_False in Ht by lia.
Qed.
Lemma tab4 t p : valid t -> tab mem1 (pgn 4) t = Some p -> t = Root /\ p = pgn 4.
Proof.
  destruct t as [|i|i j]; cbn [tab valid]; intros Hv Ht.
  - injection Ht as <-. tauto.
  - rewrite nxt1 in Ht by (done || lia). now rewrite !decide_False in Ht by lia.
  - destruct Hv as [Hi Hj]. rewrite nxt1 in Ht by (done || lia). now rewrite !decide_False in Ht by lia.
Qed.

Lemma wf1 : pt_wf mach1 (pgn 0).
Proof.
  constructor.
  - intros t p Hv Ht. apply tab1 in Ht as [[_ ->]|[[_ ->]|[_ ->]]]; auto; (split; [apply pgn_ok; lia|reflexivity]).
  - intros t t' p Hv Hv' Ht Ht'. apply tab1 in Ht, Ht'; auto.
    destruct Ht as [[-> ->]|[[-> ->]|[-> ->]]], Ht' as [[-> H]|[[-> H]|[-> H]]]; first [reflexivity|discriminate H].
Qed.
Lemma wf4 : pt_wf mach1 (pgn 4).
Proof.
  constructor.
  - intros t p Hv Ht. apply tab4 in Ht as [_ ->]; auto. split; [apply pgn_ok; lia|reflexivity].
  - intros t t' p Hv Hv' Ht Ht'. apply tab4 in Ht as [-> _], Ht' as [-> _]; auto.
Qed.
Lemma not_table3 : ~ is_table mach1 (pgn 0) (pgn 3).
Proof. intros (t & Hv & Ht). apply tab1 in Ht as [[_ H]|[[_ H]|[_ H]]]; [discriminate H..|done]. Qed.
Lemma apart1 : apart mach1 (pgn 0) (pgn 4).
Proof.
  intros q (t & Hv & Ht) (t' & Hv' & Ht'). apply tab4 in Ht' as [_ ->]; auto.
  apply tab1 in Ht as [[_ H]|[[_ H]|[_ H]]]; [discriminate H..|done].
Qed.
Lemma run1 : running mach1 0 proc1.
Proof. exists cpu1. repeat split. Qed.

(** ** The theorems at work *)

Lemma pte1 : pte_of mem1 (pgn 0) 0 = mkpte (pgn 3) rwu.
Proof. vm_compute. reflexivity. Qed.

Lemma dest1 d n : 0 <= d -> d + Z.of_nat n <= 4096 -> dest mach1 (pgn 0) d n.
Proof.
  intros Hd Hn. assert (forall i, (i < n)%nat -> (d + Z.of_nat i) mod 4096 = d + Z.of_nat i) as Hm.
  { intros i Hi. apply Z.mod_small. lia. }
  assert (forall i, (i < n)%nat -> uaddr (ram mach1) (pgn 0) (d + Z.of_nat i) = pgn 3 + (d + Z.of_nat i)) as Hu.
  { intros i Hi. unfold uaddr. rewrite Hm, Z.sub_diag by done.
    change (ram mach1) with mem1. rewrite pte1. reflexivity. }
  split; [done|]. split; [lia|]. split.
  - intros i Hi. unfold writable. rewrite Hm, Z.sub_diag by done. change (ram mach1) with mem1. rewrite pte1.
    assert (PTE2PA (mkpte (pgn 3) rwu) = pgn 3) as -> by (vm_compute; reflexivity).
    split; [vm_compute; reflexivity|]. split; [vm_compute; reflexivity|]. split; [vm_compute; reflexivity|].
    split; [apply pgn_ok; lia|apply not_table3].
  - intros i j Hi Hj. rewrite !Hu by done. lia.
Qed.

Lemma copyout_correct_witness :
  wp (copyout (pgn 0) 100 [7; 8]) (fun r s' => r = 0 /\ copied mach1 (pgn 0) 100 [7; 8] s') mach1.
Proof.
  apply (copyout_correct mach1 (pgn 0) 100 [7; 8]); [apply wf1|apply (dest1 100 2); lia|].
  repeat constructor; lia.
Defined.

Lemma copyout_copyinstr_witness :
  wp (do! copyout (pgn 0) 100 ([72; 105] ++ [0]); copyinstr (pgn 0) 100 10)
     (fun r s' => r = (0, [72; 105] ++ [0]) /\ copied mach1 (pgn 0) 100 ([72; 105] ++ [0]) s') mach1.
Proof.
  apply (copyout_copyinstr mach1 (pgn 0) 100 [72; 105] 10);
    [apply wf1|apply (dest1 100 3); lia|repeat constructor; lia|repeat constructor; lia|simpl; lia].
Defined.

Lemma mappages_walkaddr_witness :
  wp (let! e := mappages (pgn 0) 4096 (4096 * Z.of_nat 1) (pgn 3) rwu in
      let! a := walkaddr (pgn 0) 4096 in ret (e, a)) (fun r s' => fst r = 0 /\
        if decide (4096 <= 4096 < 4096 + 4096 * Z.of_nat 1) then snd r = pgn 3 + (4096 - 4096)
        else walkaddr (pgn 0) 4096 mach1 = Ret (snd r) mach1) mach1.
Proof.
  apply (mappages_walkaddr 1 lists1 mach1 (pgn 0) 4096 (pgn 3) rwu 4096);
    [apply inv1|apply quiet1|apply wf1|lia|simpl; lia|lia|reflexivity|lia|unfold pgn; lia|reflexivity|
     unfold pgn; lia|vm_compute; split; [discriminate|reflexivity]|reflexivity| |lia|reflexivity].
  intros k Hk. assert (k = O) as -> by lia. vm_compute. reflexivity.
Defined.

Lemma vmfault_correct_witness :
  wp (vmfault (pagetable proc1) 5000) (fun mem s' =>
    filled lists1 mach1 (pagetable proc1) (5000 - 5000 mod 4096) (Z.lor (Z.lor PTE_W PTE_U) PTE_R) mem s') mach1.
Proof.
  apply (vmfault_correct lists1 mach1 0 proc1 5000);
    [apply inv1|apply quiet1|apply wf1|apply run1|simpl; lia|vm_compute; discriminate|reflexivity|simpl; lia].
Defined.

Lemma uvmcopy_shares_witness :
  wp (uvmcopy (pgn 0) (pgn 4) 4096) (fun r s' => r = 0 /\ exists fls',
    shared (pgn 0) (pgn 4) (valid_pages mach1 (pgn 0) 0 (npages 4096)) lists1 mach1 fls' s' (2 * npages 4096)) mach1.
Proof.
  apply (uvmcopy_shares lists1 mach1 (pgn 0) (pgn 4) 4096);
    [apply inv1|apply quiet1|apply wf1|apply wf4|apply apart1|lia|vm_compute; discriminate|vm_compute; lia|..].
  - intros k Hk. assert (k = O) as -> by (change (npages 4096) with 1%nat in Hk; lia). intros v _.
    change v with (pte_of mem1 (pgn 0) 0). rewrite pte1.
    assert (PTE2PA (mkpte (pgn 3) rwu) = pgn 3) as -> by (vm_compute; reflexivity).
    split; [apply pgn_ok; lia|]. vm_compute. split; reflexivity.
  - intros k Hk. assert (k = O) as -> by (change (npages 4096) with 1%nat in Hk; lia). vm_compute. reflexivity.
Defined.

Lemma uvmunmap_correct_witness :
  wp (uvmunmap (pgn 0) 0 (Z.of_nat 1) true) (fun _ s' => exists fls',
    unmapped (pgn 0) true (valid_pages mach1 (pgn 0) 0 1) mach1 fls' s') mach1.
Proof.
  apply (uvmunmap_correct lists1 mach1 (pgn 0) 0 1 true);
    [apply inv1|apply quiet1|apply wf1|lia|reflexivity|simpl; lia|].
  intros _ va Hva. apply valid_pages_in in Hva as (k & Hk & -> & _). assert (k = O) as -> by lia.
  change (0 + Z.of_nat 0 * 4096) with 0. change (ram mach1) with mem1. rewrite pte1.
  assert (PTE2PA (mkpte (pgn 3) rwu) = pgn 3) as -> by (vm_compute; reflexivity).
  split; [apply pgn_ok; lia|]. split; [apply not_table3|]. vm_compute. discriminate.
Defined.

Lemma kvmunmap_faults_witness : kvmunmap (pgn 0) 1073741824 1 mach1 = Fault.
Proof.
  apply (kvmunmap_faults mach1 (pgn 0) 1073741824 1); [apply wf1|reflexivity|lia..|vm_compute; reflexivity].
Defined.
