(* ===== verification/Proc.v ===== *)
(** * Processes (kernel/proc.c): states, sleeping and waking, scheduling

    Operations on the process table.  [swtch] is the outcome [Switch]: the
    caller is off the CPU until the scheduler resumes its continuation, in
    whatever state the kernel then has. *)

From S2P Require Import Prelude.
From S2P Require Import Mach.
From S2P Require Import Spinlock.
From S2P Require Import Kstring.
From S2P Require Import Kalloc.
From S2P Require Import Vm.

(** ** Fields of [struct proc] *)

Definition set_state (x : procstate) (p : proc) : proc :=
  Proc x (chan p) (killed_ p) (xstate p) (pid p) (parent p) (kstack p) (sz p) (pagetable p)
    (kpagetable p) (trapframe p) (pcontext p) (ofile p) (cwd p) (pname p) (tracemask p)
    (alarm_ticks p) (alarm_interval p) (alarm_handler p) (alarm_trapframe p) (alarm_active p).
Definition set_chan (x : wchan) (p : proc) : proc :=
  Proc (state p) x (killed_ p) (xstate p) (pid p) (parent p) (kstack p) (sz p) (pagetable p)
    (kpagetable p) (trapframe p) (pcontext p) (ofile p) (cwd p) (pname p) (tracemask p)
    (alarm_ticks p) (alarm_interval p) (alarm_handler p) (alarm_trapframe p) (alarm_active p).
Definition set_killed_ (x : Z) (p : proc) : proc :=
  Proc (state p) (chan p) x (xstate p) (pid p) (parent p) (kstack p) (sz p) (pagetable p)
    (kpagetable p) (trapframe p) (pcontext p) (ofile p) (cwd p) (pname p) (tracemask p)
    (alarm_ticks p) (alarm_interval p) (alarm_handler p) (alarm_trapframe p) (alarm_active p).
Definition set_xstate (x : Z) (p : proc) : proc :=
  Proc (state p) (chan p) (killed_ p) x (pid p) (parent p) (kstack p) (sz p) (pagetable p)
    (kpagetable p) (trapframe p) (pcontext p) (ofile p) (cwd p) (pname p) (tracemask p)
    (alarm_ticks p) (alarm_interval p) (alarm_handler p) (alarm_trapframe p) (alarm_active p).
Definition set_pid (x : Z) (p : proc) : proc :=
  Proc (state p) (chan p) (killed_ p) (xstate p) x (parent p) (kstack p) (sz p) (pagetable p)
    (kpagetable p) (trapframe p) (pcontext p) (ofile p) (cwd p) (pname p) (tracemask p)
    (alarm_ticks p) (alarm_interval p) (alarm_handler p) (alarm_trapframe p) (alarm_active p).
Definition set_parent (x : option nat) (p : proc) : proc :=
  Proc (state p) (chan p) (killed_ p) (xstate p) (pid p) x (kstack p) (sz p) (pagetable p)
    (kpagetable p) (trapframe p) (pcontext p) (ofile p) (cwd p) (pname p) (tracemask p)
    (alarm_ticks p) (alarm_interval p) (alarm_handler p) (alarm_trapframe p) (alarm_active p).
Definition set_kstack (x : Z) (p : proc) : proc :=
  Proc (state p) (chan p) (killed_ p) (xstate p) (pid p) (parent p) x (sz p) (pagetable p)
    (kpagetable p) (trapframe p) (pcontext p) (ofile p) (cwd p) (pname p) (tracemask p)
    (alarm_ticks p) (alarm_interval p) (alarm_handler p) (alarm_trapframe p) (alarm_active p).
Definition set_sz (x : Z) (p : proc) : proc :=
  Proc (state p) (chan p) (killed_ p) (xstate p) (pid p) (parent p) (kstack p) x (pagetable p)
    (kpagetable p) (trapframe p) (pcontext p) (ofile p) (cwd p) (pname p) (tracemask p)
    (alarm_ticks p) (alarm_interval p) (alarm_handler p) (alarm_trapframe p) (alarm_active p).
Definition set_pagetable (x : Z) (p : proc) : proc :=
  Proc (state p) (chan p) (killed_ p) (xstate p) (pid p) (parent p) (kstack p) (sz p) x
    (kpagetable p) (trapframe p) (pcontext p) (ofile p) (cwd p) (pname p) (tracemask p)
    (alarm_ticks p) (alarm_interval p) (alarm_handler p) (alarm_trapframe p) (alarm_active p).
Definition set_kpagetable (x : Z) (p : proc) : proc :=
  Proc (state p) (chan p) (killed_ p) (xstate p) (pid p) (parent p) (kstack p) (sz p) (pagetable p)
    x (trapframe p) (pcontext p) (ofile p) (cwd p) (pname p) (tracemask p)
    (alarm_ticks p) (alarm_interval p) (alarm_handler p) (alarm_trapframe p) (alarm_active p).
Definition set_trapframe (x : Z) (p : proc) : proc :=
  Proc (state p) (chan p) (killed_ p) (xstate p) (pid p) (parent p) (kstack p) (sz p) (pagetable p)
    (kpagetable p) x (pcontext p) (ofile p) (cwd p) (pname p) (tracemask p)
    (alarm_ticks p) (alarm_interval p) (alarm_handler p) (alarm_trapframe p) (alarm_active p).
Definition set_pcontext (x : context) (p : proc) : proc :=
  Proc (state p) (chan p) (killed_ p) (xstate p) (pid p) (parent p) (kstack p) (sz p) (pagetable p)
    (kpagetable p) (trapframe p) x (ofile p) (cwd p) (pname p) (tracemask p)
    (alarm_ticks p) (alarm_interval p) (alarm_handler p) (alarm_trapframe p) (alarm_active p).
Definition set_ofile (x : list (option nat)) (p : proc) : proc :=
  Proc (state p) (chan p) (killed_ p) (xstate p) (pid p) (parent p) (kstack p) (sz p) (pagetable p)
    (kpagetable p) (trapframe p) (pcontext p) x (cwd p) (pname p) (tracemask p)
    (alarm_ticks p) (alarm_interval p) (alarm_handler p) (alarm_trapframe p) (alarm_active p).
Definition set_cwd (x : option nat) (p : proc) : proc :=
  Proc (state p) (chan p) (killed_ p) (xstate p) (pid p) (parent p) (kstack p) (sz p) (pagetable p)
    (kpagetable p) (trapframe p) (pcontext p) (ofile p) x (pname p) (tracemask p)
    (alarm_ticks p) (alarm_interval p) (alarm_handler p) (alarm_trapframe p) (alarm_active p).
Definition set_pname (x : list Z) (p : proc) : proc :=
  Proc (state p) (chan p) (killed_ p) (xstate p) (pid p) (parent p) (kstack p) (sz p) (pagetable p)
    (kpagetable p) (trapframe p) (pcontext p) (ofile p) (cwd p) x (tracemask p)
    (alarm_ticks p) (alarm_interval p) (alarm_handler p) (alarm_trapframe p) (alarm_active p).
Definition set_tracemask (x : Z) (p : proc) : proc :=
  Proc (state p) (chan p) (killed_ p) (xstate p) (pid p) (parent p) (kstack p) (sz p) (pagetable p)
    (kpagetable p) (trapframe p) (pcontext p) (ofile p) (cwd p) (pname p) x
    (alarm_ticks p) (alarm_interval p) (alarm_handler p) (alarm_trapframe p) (alarm_active p).
Definition set_alarm (ticks interval handler : Z) (p : proc) : proc :=
  Proc (state p) (chan p) (killed_ p) (xstate p) (pid p) (parent p) (kstack p) (sz p) (pagetable p)
    (kpagetable p) (trapframe p) (pcontext p) (ofile p) (cwd p) (pname p) (tracemask p)
    ticks interval handler (alarm_trapframe p) (alarm_active p).
Definition set_alarm_trapframe (x : Z) (p : proc) : proc :=
  Proc (state p) (chan p) (killed_ p) (xstate p) (pid p) (parent p) (kstack p) (sz p) (pagetable p)
    (kpagetable p) (trapframe p) (pcontext p) (ofile p) (cwd p) (pname p) (tracemask p)
    (alarm_ticks p) (alarm_interval p) (alarm_handler p) x (alarm_active p).
Definition set_alarm_active (x : Z) (p : proc) : proc :=
  Proc (state p) (chan p) (killed_ p) (xstate p) (pid p) (parent p) (kstack p) (sz p) (pagetable p)
    (kpagetable p) (trapframe p) (pcontext p) (ofile p) (cwd p) (pname p) (tracemask p)
    (alarm_ticks p) (alarm_interval p) (alarm_handler p) (alarm_trapframe p) x.

Definition updproc (i : nat) (f : proc -> proc) : M mach unit :=
  let! p := getproc i in
  modify (fun s => set_procs (<[i := f p]> (procs s)) s).

(** [struct proc *p = myproc()] where [p] is then followed. *)
Definition curp : M mach nat :=
  let! p := myproc in
  match p with Some i => ret i | None => fault end.

(** [for (p = proc; p < &proc[NPROC]; p++)]. *)
Definition for_procs (body : nat -> M mach unit) : M mach unit :=
  mloop (Z.to_nat NPROC) 0 1 (fun i => body (Z.to_nat i)).
Definition find_proc {R : Type} (body : nat -> M mach (option R)) : M mach (option R) :=
  mfor (Z.to_nat NPROC) 0 1 (fun i => body (Z.to_nat i)).

Definition procinit : M mach unit :=
  do! lk (initlock Lpid);
  do! lk (initlock Lwait);
  for_procs (fun i =>
    do! lk (initlock (Lproc i));
    do! updproc i (set_state UNUSED);
    updproc i (set_kstack (KSTACK (Z.of_nat i)))).

Definition allocpid : M mach Z :=
  do! lk (acquire Lpid);
  let! pid := gets nextpid in
  let! n := gets nextpid in
  do! modify (set_nextpid (i32 (n + 1)));
  do! lk (release Lpid);
  ret pid.

(** ** Giving up the CPU *)

(** [swtch(&p->context, &mycpu()->context)]. *)
Definition swtch : M mach unit := fun s => Switch s (fun s' => Ret tt s').

Definition sched : M mach unit :=
  let! p := curp in
  let! h := lk (holding (Lproc p)) in
  do! check h "sched p->lock";
  let! c := lk mycpu in
  do! check (noff c =? 1) "sched locks";
  let! pr := getproc p in
  do! check (negb (bool_decide (state pr = RUNNING))) "sched RUNNING";
  let! on := lk intr_get in
  do! check (negb on) "sched interruptible";
  let! c := lk mycpu in
  let intena := intena c in
  do! swtch;
  lk (upd_cpu (set_intena intena)).

Definition yield : M mach unit :=
  let! p := curp in
  do! lk (acquire (Lproc p));
  do! updproc p (set_state RUNNABLE);
  do! sched;
  lk (release (Lproc p)).

Definition sleep (ch : wchan) (l : lockid) : M mach unit :=
  let! p := curp in
  do! lk (acquire (Lproc p));
  do! lk (release l);
  do! updproc p (set_chan ch);
  do! updproc p (set_state SLEEPING);
  do! sched;
  do! updproc p (set_chan NoChan);
  do! lk (release (Lproc p));
  lk (acquire l).

Definition wakeup (ch : wchan) : M mach unit :=
  for_procs (fun i =>
    let! me := myproc in
    if bool_decide (me = Some i) then ret tt
    else
      do! lk (acquire (Lproc i));
      let! p := getproc i in
      do! (if bool_decide (state p = SLEEPING) && bool_decide (chan p = ch)
           then updproc i (set_state RUNNABLE) else ret tt);
      lk (release (Lproc i))).

(** ** Signals *)

Definition kkill (pid_ : Z) : M mach Z :=
  let! r := find_proc (fun i =>
    do! lk (acquire (Lproc i));
    let! p := getproc i in
    if pid p =? pid_ then
      do! updproc i (set_killed_ 1);
      do! (if bool_decide (state p = SLEEPING) then updproc i (set_state RUNNABLE) else ret tt);
      do! lk (release (Lproc i));
      ret (Some 0)
    else
      do! lk (release (Lproc i));
      ret None) in
  ret (default (-1) r).

(** [nproc] of kalloc.c: how many slots of the table are in use. *)
Fixpoint nproc_loop (k i : nat) (count : Z) : M mach Z :=
  match k with
  | O => ret count
  | S k' =>
    do! lk (acquire (Lproc i));
    let! p := getproc i in
    let count := if negb (bool_decide (state p = UNUSED)) then u64 (count + 1) else count in
    do! lk (release (Lproc i));
    nproc_loop k' (S i) count
  end.
Definition nproc : M mach Z := nproc_loop (Z.to_nat NPROC) 0 0.

Definition setkilled (p : nat) : M mach unit :=
  do! lk (acquire (Lproc p));
  do! updproc p (set_killed_ 1);
  lk (release (Lproc p)).

Definition killed (p : nat) : M mach Z :=
  do! lk (acquire (Lproc p));
  let! pr := getproc p in
  let k := killed_ pr in
  do! lk (release (Lproc p));
  ret k.

(** Children of [p] are given to init. *)
Definition reparent (p : nat) : M mach unit :=
  for_procs (fun i =>
    let! pp := getproc i in
    if bool_decide (parent pp = Some p) then
      let! ip := gets initproc in
      do! updproc i (set_parent ip);
      match ip with Some k => wakeup (ChProc k) | None => wakeup NoChan end
    else ret tt).

(** ** Address spaces of processes *)

(** [ukvmunmap] and [ufreewalk] are called by [kvmfreeproc] and defined
    nowhere in the sources. *)
Class KernelTables : Type := {
  ukvmunmap : Z -> Z -> Z -> M mach unit;
  ufreewalk : Z -> M mach unit;
}.

Section Proc.
Context {L : Layout} {KT : KernelTables}.

Definition kvmfreeproc (i : nat) : M mach unit :=
  let! p := getproc i in
  let kpt := kpagetable p in
  do! ukvmunmap kpt (kstack p) (PGSIZE / PGSIZE);
  do! ukvmunmap kpt TRAMPOLINE (PGSIZE / PGSIZE);
  do! ukvmunmap kpt etext ((PHYSTOP - etext) / PGSIZE);
  do! ukvmunmap kpt KERNBASE ((etext - KERNBASE) / PGSIZE);
  do! ukvmunmap kpt PLIC (4194304 / PGSIZE);
  do! ukvmunmap kpt VIRTIO0 (PGSIZE / PGSIZE);
  do! ukvmunmap kpt UART0 (PGSIZE / PGSIZE);
  ufreewalk kpt.

Definition proc_pagetable (i : nat) : M mach Z :=
  let! pt := uvmcreate in
  if pt =? 0 then ret 0
  else
    let! e := mappages pt TRAMPOLINE PGSIZE trampoline (Z.lor PTE_R PTE_X) in
    if e <? 0 then do! uvmfree pt 0; ret 0
    else
      let! p := getproc i in
      let! e := mappages pt TRAPFRAME PGSIZE (trapframe p) (Z.lor PTE_R PTE_W) in
      if e <? 0 then
        do! uvmunmap pt TRAMPOLINE 1 false;
        do! uvmfree pt 0;
        ret 0
      else ret pt.

Definition proc_freepagetable (pt sz : Z) : M mach unit :=
  do! uvmunmap pt TRAMPOLINE 1 false;
  do! uvmunmap pt TRAPFRAME 1 false;
  uvmfree pt sz.

Definition freeproc (i : nat) : M mach unit :=
  let! p := getproc i in
  do! (if negb (trapframe p =? 0) then kfree (trapframe p) else ret tt);
  do! updproc i (set_trapframe 0);
  let! p := getproc i in
  do! (if negb (pagetable p =? 0) then proc_freepagetable (pagetable p) (sz p) else ret tt);
  do! updproc i (set_pagetable 0);
  do! updproc i (set_sz 0);
  do! updproc i (set_pid 0);
  do! updproc i (fun p => set_pname (<[0%nat := 0]> (pname p)) p);
  do! updproc i (set_chan NoChan);
  do! updproc i (set_killed_ 0);
  do! updproc i (set_xstate 0);
  do! updproc i (set_state UNUSED);
  do! updproc i (set_tracemask 0);
  do! updproc i (set_alarm 0 0 0);
  do! updproc i (set_alarm_trapframe 0);
  let! p := getproc i in
  if negb (kpagetable p =? 0) then
    do! kvmfreeproc i;
    updproc i (set_kpagetable 0)
  else ret tt.

(** The label [found]: the slot is locked. *)
Definition initproc_slot (i : nat) : M mach (option nat) :=
  let fail := (do! freeproc i; do! lk (release (Lproc i)); ret None) in
  let! pid := allocpid in
  do! updproc i (set_pid pid);
  do! updproc i (set_state USED);
  let! tf := kalloc in
  do! updproc i (set_trapframe tf);
  if tf =? 0 then fail
  else
    let! pt := proc_pagetable i in
    do! updproc i (set_pagetable pt);
    let! kpt := kvmmake in
    do! updproc i (set_kpagetable kpt);
    do! (if negb (kpt =? 0) then
           let! pa := kalloc in
           if negb (pa =? 0) then
             do! memset pa 0 PGSIZE;
             let! p := getproc i in
             kvmmap kpt (kstack p) pa PGSIZE (Z.lor PTE_R PTE_W)
           else panic "allocproc: pa kalloc"
         else ret tt);
    if pt =? 0 then fail
    else if kpt =? 0 then fail
    else
      let! p := getproc i in
      do! updproc i (set_pcontext (Context_ forkret_addr (u64 (kstack p + PGSIZE)) (replicate 12 0)));
      do! updproc i (set_tracemask 0);
      do! updproc i (set_alarm 0 0 0);
      let! atf := kalloc in
      do! updproc i (set_alarm_trapframe atf);
      if atf =? 0 then fail
      else
        do! updproc i (set_alarm_active 0);
        ret (Some i).

Definition allocproc : M mach (option nat) :=
  let! f := find_proc (fun i =>
    do! lk (acquire (Lproc i));
    let! p := getproc i in
    if bool_decide (state p = UNUSED) then ret (Some i)
    else do! lk (release (Lproc i)); ret None) in
  match f with
  | None => ret None
  | Some i => initproc_slot i
  end.

Definition growproc (n : Z) : M mach Z :=
  let! i := curp in
  let! p := getproc i in
  let sz0 := sz p in
  let finish (sz1 : Z) :=
    do! copy_proc_to_kernel (pagetable p) (kpagetable p) sz0 sz1;
    do! updproc i (set_sz sz1);
    ret 0 in
  if 0 <? n then
    if TRAPFRAME <? u64 (sz0 + n) then ret (-1)
    else
      let! sz1 := uvmalloc (pagetable p) sz0 (u64 (sz0 + n)) PTE_W in
      if sz1 =? 0 then ret (-1) else finish sz1
  else if n <? 0 then
    let! sz1 := uvmdealloc (pagetable p) sz0 (u64 (sz0 + n)) in
    finish sz1
  else finish sz0.

(** The four bytes of an [int]. *)
Definition int_bytes (x : Z) : list Z :=
  let y := u32 x in [y mod 256; y / 256 mod 256; y / 65536 mod 256; y / 16777216].

(** The pass of [kwait] over the [n] slots from [i]: the value it returns,
    if any, and [havekids]. *)
Fixpoint wait_scan (n i me : nat) (addr : Z) (havekids : bool) : M mach (option Z * bool) :=
  match n with
  | O => ret (None, havekids)
  | S n' =>
    let! pp := getproc i in
    if bool_decide (parent pp = Some me) then
      do! lk (acquire (Lproc i));
      let! pp := getproc i in
      if bool_decide (state pp = ZOMBIE) then
        let pid := pid pp in
        let! p := getproc me in
        let! e := (if negb (addr =? 0) then copyout (pagetable p) addr (int_bytes (xstate pp)) else ret 0) in
        if negb (addr =? 0) && (e <? 0) then
          do! lk (release (Lproc i));
          do! lk (release Lwait);
          ret (Some (-1), true)
        else
          do! updproc i (set_parent None);
          do! freeproc i;
          do! lk (release (Lproc i));
          do! lk (release Lwait);
          ret (Some pid, true)
      else
        do! lk (release (Lproc i));
        wait_scan n' (S i) me addr true
    else wait_scan n' (S i) me addr havekids
  end.

(** [fuel] bounds the number of times the parent is woken. *)
Fixpoint kwait_loop (fuel : nat) (me : nat) (addr : Z) : M mach Z :=
  match fuel with
  | O => fun _ => Spin
  | S f =>
    let! r := wait_scan (Z.to_nat NPROC) 0 me addr false in
    match fst r with
    | Some v => ret v
    | None =>
      let! k := (if snd r then killed me else ret 0) in
      if negb (snd r) || negb (k =? 0) then
        do! lk (release Lwait);
        ret (-1)
      else
        do! sleep (ChProc me) Lwait;
        kwait_loop f me addr
    end
  end.
Definition kwait (fuel : nat) (addr : Z) : M mach Z :=
  let! me := curp in
  do! lk (acquire Lwait);
  kwait_loop fuel me addr.

(** ** The scheduler *)

Definition set_satp (x : Z) (r : csrs) : csrs :=
  Csrs (sstatus r) (sepc r) (scause r) (stval r) (stvec r) x (stimecmp r) (time r).
Definition w_satp (x : Z) : M lockst unit := upd_cpu (fun c => set_csr (set_satp x (csr c)) c).
Definition r_satp : M lockst Z := let! c := mycpu in ret (satp (csr c)).

(** [kernel_pagetable] is set once, by [kvminit], before any process runs. *)
Definition kvminithart (kernel_pagetable : Z) : M mach unit :=
  lk (w_satp (MAKE_SATP kernel_pagetable)).

(** One round of the scheduler's endless loop; [wfi] leaves the state alone. *)
Definition scheduler_round (kernel_pagetable : Z) : M mach unit :=
  do! lk intr_on;
  do! lk intr_off;
  for_procs (fun i =>
    do! lk (acquire (Lproc i));
    let! p := getproc i in
    do! (if bool_decide (state p = RUNNABLE) then
           do! updproc i (set_state RUNNING);
           do! lk (upd_cpu (set_c_proc (Some i)));
           let! p := getproc i in
           do! lk (w_satp (MAKE_SATP (kpagetable p)));
           do! swtch;
           do! kvminithart kernel_pagetable;
           lk (upd_cpu (set_c_proc None))
         else ret tt);
    lk (release (Lproc i))).
Definition scheduler (rounds : nat) (kernel_pagetable : Z) : M mach unit :=
  do! lk (upd_cpu (set_c_proc None));
  mrepeat rounds (scheduler_round kernel_pagetable).
End Proc.

(** ** Lemmas *)

Section Facts.
Implicit Types (s : mach) (K : lockst) (l : lockid) (ps : list proc).

Lemma wp_getproc i p (Q : proc -> mach -> Prop) s : procs s !! i = Some p -> Q p s -> wp (getproc i) Q s.
Proof. intros H HQ. unfold wp, getproc, orfault. now rewrite H. Qed.

Lemma wp_updproc i f p (Q : unit -> mach -> Prop) s :
  procs s !! i = Some p -> Q tt (set_procs (<[i := f p]> (procs s)) s) -> wp (updproc i f) Q s.
Proof. intros H HQ. apply wp_bind, (wp_getproc i p); [done|]. apply wp_modify. done. Qed.

Lemma lk_eq_cur K K' c : lk_eq K K' -> cur K = Some c ->
  exists c', cur K' = Some c' /\ c_proc c' = c_proc c /\ noff c' = noff c.
Proof. intros (_ & _ & _ & _ & H) Hc. destruct (H c Hc) as (c' & Hc' & E1 & _ & E3 & _). exists c'. done. Qed.

Lemma acquired_cur l K K' c : acquired l K K' -> cur K = Some c ->
  exists c', cur K' = Some c' /\ c_proc c' = c_proc c /\ noff c' = noff c + 1 /\
    Z.testbit (sstatus (csr c')) 1 = false /\ csr c' = set_sstatus (Z.ldiff (sstatus (csr c)) SSTATUS_SIE) (csr c).
Proof.
  intros (_ & _ & _ & _ & _ & H) Hc. destruct (H c Hc) as (c' & Hc' & E1 & _ & E3 & E4 & _).
  exists c'. rewrite E4. simpl. split; [done|]. split; [done|]. split; [done|]. split; [apply sie_clear|done].
Qed.

(** Critical sections need not nest: taking [l] and then [p] is taking [p]
    and then [l]. *)
Lemma acquired_swap l p K0 Ka K1 Kb :
  l <> p -> lk_ok 0 K0 -> acquired l K0 Ka -> acquired p Ka K1 -> acquired p K0 Kb -> acquired l Kb K1.
Proof.
  intros Hne (c0 & Hc0 & Hn0 & _) (A1 & A2 & A3 & A4 & A5 & A6) (B1 & B2 & B3 & B4 & B5 & B6) (D1 & D2 & D3 & D4 & D5 & D6).
  split; [congruence|]. split; [rewrite <- B3, A2 by done; congruence|]. split.
  { intros l' Hl'. destruct (decide (l' = p)) as [->|Hp]; [congruence|].
    rewrite <- D3, A3, B3 by done. done. }
  split; [congruence|]. split.
  { intros i Hi. rewrite <- D5, A5, B5 by congruence. done. }
  intros cb Hcb. destruct (A6 c0 Hc0) as (ca & Hca & P1 & P2 & P3 & P4 & P5).
  destruct (B6 ca Hca) as (c1 & Hc1 & Q1 & Q2 & Q3 & Q4 & Q5).
  destruct (D6 c0 Hc0) as (cb' & Hcb' & R1 & R2 & R3 & R4 & R5).
  rewrite Hcb in Hcb'. injection Hcb' as <-. exists c1.
  split; [done|]. split; [congruence|]. split; [congruence|]. split; [lia|].
  split; [rewrite Q4, P4, R4; done|].
  rewrite Q5, P3, R3, P5, R5. destruct (Z.eqb_spec (noff c0 + 1) 0); [lia|done].
Qed.

Lemma acquired_eq l K0 K0' K K' :
  lk_ok 0 K0 -> lk_eq K0 K0' -> acquired l K0' K -> lk_eq K K' -> acquired l K0 K'.
Proof.
  intros (c0 & Hc0 & Hn0 & _) (A1 & A2 & A3 & A4 & A5) (B1 & B2 & B3 & B4 & B5 & B6) (D1 & D2 & D3 & D4 & D5).
  split; [congruence|]. split; [rewrite <- D2, B2; congruence|].
  split; [intros l' Hl'; rewrite A2, B3, D2 by done; done|]. split; [congruence|].
  split; [intros i Hi; rewrite A4, B5, D4 by congruence; done|].
  intros c Hc. rewrite Hc0 in Hc. injection Hc as <-.
  destruct (A5 c0 Hc0) as (c1 & Hc1 & P1 & P2 & P3 & P4 & P5).
  destruct (B6 c1 Hc1) as (c2 & Hc2 & Q1 & Q2 & Q3 & Q4 & Q5).
  destruct (D5 c2 Hc2) as (c3 & Hc3 & R1 & R2 & R3 & R4 & R5).
  exists c3. split; [done|]. split; [congruence|]. split; [congruence|]. split; [congruence|].
  split; [congruence|]. rewrite <- R5, Q5, P3, P4 by lia.
  destruct (Z.eqb_spec (noff c1) 0); [done|]. symmetry. apply P5. lia.
Qed.

(** A loop over the process table, one slot at a time. *)
Lemma wp_for_procs (I : nat -> mach -> Prop) body s :
  I O s -> (forall k s', (k < 64)%nat -> I k s' -> wp (body k) (fun _ s'' => I (S k) s'') s') ->
  wp (for_procs body) (fun _ s' => I 64%nat s') s.
Proof.
  intros H0 Hstep. unfold for_procs. apply (wp_mloop I); [done|].
  intros k s' Hk HI. replace (Z.to_nat (0 + Z.of_nat k * 1)) with k by lia. now apply Hstep.
Qed.

(** No process lock is taken, and the hart can nest [d] levels. *)
Definition procs_free (d : Z) (s : mach) : Prop :=
  lk_ok d (lks s) /\ length (procs s) = 64%nat /\ forall i, getlock (lks s) (Lproc i) = unlocked.

(** What [wakeup] does to slot [i] on a hart that runs [me]. *)
Definition woken (me : option nat) (ch : wchan) (i : nat) (p : proc) : proc :=
  if bool_decide (me = Some i) then p
  else if bool_decide (state p = SLEEPING) && bool_decide (chan p = ch) then set_state RUNNABLE p else p.

(** The table with the slots below [k] done. *)
Definition upto (f : nat -> proc -> proc) (k : nat) ps : list proc :=
  imap (fun i p => if (i <? k)%nat then f i p else p) ps.

Lemma upto_lookup f k ps i : upto f k ps !! i = (fun p => if (i <? k)%nat then f i p else p) <$> ps !! i.
Proof. apply list_lookup_imap. Qed.

Lemma upto_0 f ps : upto f 0 ps = ps.
Proof. apply list_eq. intros i. rewrite upto_lookup. now destruct (ps !! i). Qed.

Lemma upto_all f ps k : (length ps <= k)%nat -> upto f k ps = imap f ps.
Proof.
  intros Hk. apply list_eq. intros i. rewrite upto_lookup, list_lookup_imap.
  destruct (ps !! i) eqn:E; [|done]. apply lookup_lt_Some in E. simpl.
  rewrite (proj2 (Nat.ltb_lt _ _)) by lia. done.
Qed.

Lemma upto_S f ps k p : ps !! k = Some p -> <[k := f k p]> (upto f k ps) = upto f (S k) ps.
Proof.
  intros Hp. apply list_eq. intros i. rewrite upto_lookup. destruct (decide (i = k)) as [->|Hne].
  - rewrite list_lookup_insert_eq, Hp; [simpl; now rewrite (proj2 (Nat.ltb_lt _ _)) by lia|].
    unfold upto. rewrite length_imap. now apply lookup_lt_Some in Hp.
  - rewrite list_lookup_insert_ne, upto_lookup by done. destruct (ps !! i); [|done]. simpl. do 2 f_equal.
    destruct (Nat.ltb_spec i k), (Nat.ltb_spec i (S k)); try done; lia.
Qed.

Lemma upto_S_id f ps k p : ps !! k = Some p -> f k p = p -> upto f k ps = upto f (S k) ps.
Proof.
  intros Hp Hf. rewrite <- (upto_S f ps k p Hp), Hf. symmetry. apply list_insert_id.
  rewrite upto_lookup, Hp. simpl. now rewrite (proj2 (Nat.ltb_ge _ _)) by lia.
Qed.

(** [wakeup] makes runnable the processes that sleep on the channel, and
    touches nothing else. *)
Lemma wakeup_spec d c ch s :
  procs_free d s -> 1 <= d -> cur (lks s) = Some c ->
  wp (wakeup ch) (fun _ s' => exists K, lk_eq (lks s) K /\
    s' = set_lks K (set_procs (imap (woken (c_proc c) ch) (procs s)) s)) s.
Proof.
  intros (Hok & Hlen & Hfree) Hd Hc. set (f := woken (c_proc c) ch). eapply wp_mono.
  - apply (wp_for_procs (fun k s' => exists K, lk_eq (lks s) K /\
      s' = set_lks K (set_procs (upto f k (procs s)) s))).
    + exists (lks s). split; [reflexivity|]. rewrite upto_0. now destruct s.
    + intros k s' Hk (K & HK & ->).
      destruct (lookup_lt_is_Some_2 (procs s) k) as [p Hp]; [lia|].
      assert (upto f k (procs s) !! k = Some p) as Hpk.
      { rewrite upto_lookup, Hp. simpl. now rewrite (proj2 (Nat.ltb_ge _ _)) by lia. }
      destruct (lk_eq_cur _ _ _ HK Hc) as (c1 & Hc1 & Ep & _).
      assert (lk_ok d K) as HokK by (now rewrite <- HK).
      wsteps. apply (wp_myproc d c1); auto. intros K1 HK1. rewrite Ep. simpl in HK1.
      destruct (bool_decide (c_proc c = Some k)) eqn:Eme.
      * apply wp_ret. exists K1. split; [now rewrite HK|].
        rewrite <- (upto_S_id f _ k p Hp); [done|]. unfold f, woken. now rewrite Eme.
      * wsteps. assert (lk_ok d K1) as HokK1 by (now rewrite <- HK1).
        assert (getlock K1 (Lproc k) = unlocked) as Hl.
        { rewrite (lk_eq_getlock _ _ _ HK1), (lk_eq_getlock _ _ _ HK). apply Hfree. }
        apply (wp_acquire _ d); simpl; auto. intros K2 HokK2 Ha. wsteps.
        apply (wp_getproc k p); [exact Hpk|].
        assert (f k p = if bool_decide (state p = SLEEPING) && bool_decide (chan p = ch)
          then set_state RUNNABLE p else p) as Ef by (unfold f, woken; now rewrite Eme).
        destruct (bool_decide (state p = SLEEPING) && bool_decide (chan p = ch)); wsteps.
        -- apply (wp_updproc k _ p); [exact Hpk|]. wsteps. simpl.
           eapply (wp_release _ d K1 K2); simpl; eauto; [reflexivity|]. intros K3 HK3.
           exists K3. split; [now rewrite HK, HK1|]. rewrite <- Ef, (upto_S f _ k p Hp). done.
        -- eapply (wp_release _ d K1 K2); simpl; eauto; [reflexivity|]. intros K3 HK3.
           exists K3. split; [now rewrite HK, HK1|]. rewrite <- (upto_S_id f _ k p Hp Ef). done.
  - intros [] s' (K & HK & ->). exists K. split; [done|]. now rewrite upto_all by lia.
Qed.

Lemma wp_curp d c i (Q : nat -> mach -> Prop) s :
  lk_ok d (lks s) -> 1 <= d -> cur (lks s) = Some c -> c_proc c = Some i ->
  (forall K, lk_eq (lks s) K -> Q i (set_lks K s)) -> wp curp Q s.
Proof.
  intros Hok Hd Hc Hi HQ. apply wp_bind, (wp_myproc d c); auto. intros K HK. rewrite Hi.
  apply wp_ret. now apply HQ.
Qed.

(** [sched] gives up the CPU when only the process's own lock is held; it
    resumes by restoring [intena]. *)
Lemma sched_spec d c i p s :
  lk_ok d (lks s) -> 1 <= d -> cur (lks s) = Some c -> c_proc c = Some i -> noff c = 1 ->
  getlock (lks s) (Lproc i) = Spinlock true (Some (hart (lks s))) ->
  procs s !! i = Some p -> state p <> RUNNING ->
  exists K, lk_eq (lks s) K /\ sched s = Switch (set_lks K s)
    (fun s' => lk (upd_cpu (set_intena (intena c))) s').
Proof.
  intros Hok Hd Hc Hi Hn Hl Hp Hst.
  assert (wp curp (fun r s' => r = i /\ exists K, lk_eq (lks s) K /\ s' = set_lks K s) s) as H.
  { apply (wp_curp d c i); auto. intros K HK. split; [done|]. exists K. done. }
  apply wp_Ret in H as (r & s' & E & -> & K & HK & ->). exists K. split; [done|].
  unfold sched. rewrite (bind_Ret _ _ _ _ _ E).
  pose proof HK as (H1 & H2 & _ & _ & H5). destruct (H5 c Hc) as (c' & Hc' & E1 & E2 & E3 & E4 & E5).
  assert (Z.testbit (sstatus (csr c)) 1 = false) as Hsie.
  { destruct Hok as (c0 & Hc0 & _ & _ & _ & H). rewrite Hc in Hc0. injection Hc0 as <-. apply H. lia. }
  erewrite bind_Ret; [|apply (zoom_Ret lks_lens); reflexivity]. simpl.
  erewrite bind_Ret.
  2: { rewrite <- H2, Hl. simpl. rewrite bool_decide_eq_true_2 by congruence. reflexivity. }
  erewrite bind_Ret; [|apply (zoom_Ret lks_lens); unfold mycpu, orfault; simpl; rewrite Hc'; reflexivity].
  erewrite bind_Ret; [|rewrite <- E3, Hn; reflexivity].
  erewrite bind_Ret; [|unfold getproc, orfault; simpl; rewrite Hp; reflexivity].
  erewrite bind_Ret; [|rewrite bool_decide_eq_false_2 by done; reflexivity].
  erewrite bind_Ret.
  2: { apply (zoom_Ret lks_lens). unfold intr_get, r_sstatus, mycpu, orfault, bind. simpl. rewrite Hc'. reflexivity. }
  erewrite bind_Ret.
  2: { rewrite <- E4. unfold SSTATUS_SIE. rewrite has_bit, Hsie by lia. reflexivity. }
  erewrite bind_Ret; [|apply (zoom_Ret lks_lens); unfold mycpu, orfault; simpl; rewrite Hc'; reflexivity].
  erewrite bind_Switch; [|reflexivity]. rewrite <- E5 by lia. reflexivity.
Qed.

(** A process comes back from [swtch]: on some hart, holding its own lock
    alone, with interrupts off. *)
Definition resumed (i : nat) (c : cpu) (p : proc) (s : mach) : Prop :=
  cur (lks s) = Some c /\ noff c = 1 /\ 0 <= sstatus (csr c) /\ Z.testbit (sstatus (csr c)) 1 = false /\
  getlock (lks s) (Lproc i) = Spinlock true (Some (hart (lks s))) /\ procs s !! i = Some p.

Lemma popped_ok c d : noff c = 1 -> 0 <= sstatus (csr c) -> d <= 2147483647 ->
  0 <= noff (popped c) /\ noff (popped c) + d <= 2147483647 /\ 0 <= sstatus (csr (popped c)) /\
  (0 < noff (popped c) -> Z.testbit (sstatus (csr (popped c))) 1 = false).
Proof.
  intros Hn Hs Hd. unfold popped. simpl. rewrite Hn. change (1 - 1 =? 0) with true.
  split; [lia|]. split; [lia|]. split; [|lia].
  destruct (negb (intena c =? 0)); simpl; [|done]. apply Z.lor_nonneg. split; [done|]. done.
Qed.

(** The second half of [sleep]. *)
(** What a process finds when it is back from [sleep]: it holds [l] and
    nothing else, and is off the channel. *)
Definition woken_up (i : nat) (l : lockid) (c : cpu) (p : proc) (s s' : mach) : Prop :=
  exists K K', s' = set_lks K' (set_procs (<[i := set_chan NoChan p]> (procs s)) s) /\
    lk_ok 3 K /\ acquired l K K' /\ hart K = hart (lks s) /\
    (exists c', cur K = Some c' /\ c_proc c' = c_proc c /\ noff c' = 0) /\
    getlock K (Lproc i) = unlocked /\ forall l', l' <> Lproc i -> getlock K l' = getlock (lks s) l'.

Lemma acquired_ok l K K' : lk_ok 3 K -> acquired l K K' -> lk_ok 2 K'.
Proof.
  intros (c & Hc & H0 & H1 & H2 & H3) (_ & _ & _ & _ & _ & H). destruct (H c Hc) as (c' & Hc' & _ & _ & E1 & E2 & _).
  exists c'. rewrite E1, E2. simpl. repeat split; try lia; [done|now apply ldiff_nonneg|intros _; apply sie_clear].
Qed.

Lemma sleep_resume i l v c p s :
  resumed i c p s -> l <> Lproc i -> getlock (lks s) l = unlocked ->
  wp (do! lk (upd_cpu (set_intena v));
      do! updproc i (set_chan NoChan);
      do! lk (release (Lproc i));
      lk (acquire l))
    (fun _ => woken_up i l c p s) s.
Proof.
  intros (Hc & Hn & Hs & Hsie & Hl & Hp) Hne Hfree. wsteps. apply wp_lk.
  eapply wp_upd_cpu; [exact Hc|]. wsteps. apply (wp_updproc i _ p); [exact Hp|]. wsteps. apply wp_lk. simpl lks.
  set (K1 := put_cur (set_intena v c) (lks s)).
  assert (cur K1 = Some (set_intena v c)) as Hc1 by (eapply cur_put_cur; eauto).
  unfold wp at 1. rewrite (release_eq K1 (Lproc i) (set_intena v c)); [|done|simpl; lia|done|done].
  set (K2 := put_cur (popped (set_intena v c)) _).
  assert (cur K2 = Some (popped (set_intena v c))) as Hc2 by (eapply cur_put_cur; rewrite !cur_putlock; exact Hc1).
  assert (lk_ok 3 K2) as Hok2.
  { exists (popped (set_intena v c)). split; [done|]. now apply popped_ok. }
  assert (forall l', l' <> Lproc i -> getlock K2 l' = getlock (lks s) l') as Hoth.
  { intros l' Hl'. unfold K2. rewrite getlock_put_cur, !getlock_put_ne by done. done. }
  apply (wp_acquire l 3); simpl; auto; [lia|now rewrite Hoth|].
  intros K3 _ Ha. exists K2, K3. split; [done|]. split; [done|]. split; [done|]. split; [done|]. split.
  { eexists. split; [exact Hc2|]. unfold popped. simpl. rewrite Hn. done. }
  split; [|exact Hoth]. unfold K2. now rewrite getlock_put_cur, getlock_put_eq.
Qed.

Lemma sleep_spec ch l i K0 c p s :
  lk_ok 3 K0 -> cur K0 = Some c -> c_proc c = Some i -> noff c = 0 -> l <> Lproc i ->
  getlock K0 l = unlocked -> getlock K0 (Lproc i) = unlocked -> acquired l K0 (lks s) ->
  procs s !! i = Some p ->
  exists K k, sleep ch l s =
      Switch (set_lks K (set_procs (<[i := set_state SLEEPING (set_chan ch p)]> (procs s)) s)) k /\
    acquired (Lproc i) K0 K /\
    (forall s2 c2 p2, resumed i c2 p2 s2 -> getlock (lks s2) l = unlocked ->
      wp k (fun _ => woken_up i l c2 p2 s2) s2).
Proof.
  intros Hok Hc Hci Hn Hne Hl Hpl Ha Hp.
  destruct (acquired_cur _ _ _ _ Ha Hc) as (ca & Hca & Eca & Ena & Sa & _).
  pose proof (acquired_ok _ _ _ Hok Ha) as Hoks.
  assert (wp curp (fun r s' => r = i /\ exists K, lk_eq (lks s) K /\ s' = set_lks K s) s) as H1.
  { apply (wp_curp 2 ca i); [done|lia|done|congruence|]. intros K HK. split; [done|]. exists K. done. }
  apply wp_Ret in H1 as (r & s1 & E1 & -> & Ka & HKa & ->).
  assert (acquired l K0 Ka) as Ha' by (eapply acquired_eq; [apply (lk_ok_mono 3); [done|lia]|reflexivity|exact Ha|done]).
  assert (getlock Ka (Lproc i) = unlocked) as Hpa.
  { rewrite (lk_eq_getlock _ _ _ HKa), (acquired_getlock _ _ _ _ Ha); [done|congruence]. }
  assert (lk_ok 2 Ka) as HokKa by (now rewrite <- HKa).
  assert (wp (lk (acquire (Lproc i))) (fun _ s' => exists K, acquired (Lproc i) Ka K /\ s' = set_lks K s)
    (set_lks Ka s)) as H2.
  { apply (wp_acquire _ 2); [done|lia|done|]. intros K _ HK. exists K. done. }
  apply wp_Ret in H2 as ([] & s2 & E2 & K1 & HK1 & ->).
  pose proof (acquire_spec K0 (Lproc i) 3 Hok ltac:(lia) ltac:(now rewrite Hpl)) as H3.
  apply wp_Ret in H3 as ([] & K01 & _ & Hok01 & HK01).
  assert (acquired l K01 K1) as Hsw.
  { eapply (acquired_swap l (Lproc i) K0 Ka); eauto. apply (lk_ok_mono 3); [done|lia]. }
  assert (wp (lk (release l)) (fun _ s' => exists K, lk_eq K01 K /\ s' = set_lks K s) (set_lks K1 s)) as H4.
  { apply (wp_release l 2 K01 K1); [done|lia| |done|reflexivity|].
    - rewrite (acquired_getlock _ _ _ _ HK01); done.
    - intros K HK. exists K. done. }
  apply wp_Ret in H4 as ([] & s3 & E3 & K4 & HK4 & ->).
  set (s4 := set_procs (<[i := set_state SLEEPING (set_chan ch p)]> (procs s)) (set_lks K4 s)).
  pose proof (lookup_lt_Some _ _ _ Hp) as Hlt.
  assert (updproc i (set_chan ch) (set_lks K4 s) =
    Ret tt (set_procs (<[i := set_chan ch p]> (procs s)) (set_lks K4 s))) as E4.
  { apply wp_unit, (wp_updproc i _ p); done. }
  assert (updproc i (set_state SLEEPING) (set_procs (<[i := set_chan ch p]> (procs s)) (set_lks K4 s)) = Ret tt s4) as E5.
  { apply wp_unit, (wp_updproc i _ (set_chan ch p)); [simpl; now rewrite list_lookup_insert_eq|].
    simpl. unfold s4. now rewrite list_insert_insert_eq. }
  destruct (acquired_cur _ _ _ _ HK01 Hc) as (c1 & Hc1 & P1 & N1 & _ & _).
  destruct (lk_eq_cur _ _ _ HK4 Hc1) as (c4 & Hc4 & P4 & N4).
  destruct (sched_spec 2 c4 i (set_state SLEEPING (set_chan ch p)) s4) as (K5 & HK5 & E6);
    [simpl; now rewrite <- HK4|lia|done|congruence|lia| |simpl; now rewrite list_lookup_insert_eq|done|].
  { simpl. rewrite (lk_eq_getlock _ _ _ HK4), (lk_eq_hart _ _ HK4). destruct HK01 as (Hh & -> & _). congruence. }
  exists K5. eexists. split.
  { unfold sleep. rewrite (bind_Ret _ _ _ _ _ E1), (bind_Ret _ _ _ _ _ E2), (bind_Ret _ _ _ _ _ E3).
    rewrite (bind_Ret _ _ _ _ _ E4), (bind_Ret _ _ _ _ _ E5), (bind_Switch _ _ _ _ _ E6). reflexivity. }
  split.
  - eapply acquired_eq; [apply (lk_ok_mono 3); [exact Hok|lia]|reflexivity|exact HK01|].
    simpl in HK5. now rewrite HK4.
  - intros s5 c5 p5 Hr Hl5. exact (sleep_resume i l (intena c4) c5 p5 s5 Hr Hne Hl5).
Qed.

(** ** [kkill] *)

Lemma wp_find_proc {R : Type} (I : nat -> mach -> Prop) (J : R -> mach -> Prop) body s :
  I O s ->
  (forall k s', (k < 64)%nat -> I k s' ->
     wp (body k) (fun r s'' => match r with Some v => J v s'' | None => I (S k) s'' end) s') ->
  wp (find_proc body) (fun r s' => match r with Some v => J v s' | None => I 64%nat s' end) s.
Proof.
  intros H0 Hstep. unfold find_proc. apply (wp_mfor I J); [done|].
  intros k s' Hk HI. replace (Z.to_nat (0 + Z.of_nat k * 1)) with k by lia. now apply Hstep.
Qed.

(** What a killed process looks like. *)
Definition struck (p : proc) : proc :=
  if bool_decide (state p = SLEEPING) then set_state RUNNABLE (set_killed_ 1 p) else set_killed_ 1 p.

Lemma kkill_spec d s n :
  procs_free d s -> 1 <= d ->
  wp (kkill n) (fun r s' => exists K, lk_eq (lks s) K /\
    ((exists i p, procs s !! i = Some p /\ pid p = n /\ (forall j q, (j < i)%nat -> procs s !! j = Some q -> pid q <> n) /\
        r = 0 /\ s' = set_lks K (set_procs (<[i := struck p]> (procs s)) s)) \/
     ((forall j q, procs s !! j = Some q -> pid q <> n) /\ r = -1 /\ s' = set_lks K s))) s.
Proof.
  intros (Hok & Hlen & Hfree) Hd. unfold kkill. apply wp_bind. eapply wp_mono.
  - apply (wp_find_proc (R := Z)
      (fun k s' => exists K, lk_eq (lks s) K /\ s' = set_lks K s /\
         forall j q, (j < k)%nat -> procs s !! j = Some q -> pid q <> n)
      (fun r s' => r = 0 /\ exists K, lk_eq (lks s) K /\
         exists i p, procs s !! i = Some p /\ pid p = n /\
           (forall j q, (j < i)%nat -> procs s !! j = Some q -> pid q <> n) /\
           s' = set_lks K (set_procs (<[i := struck p]> (procs s)) s))).
    + exists (lks s). split; [reflexivity|]. split; [now destruct s|]. lia.
    + intros k s' Hk (K & HK & -> & Hprev).
      destruct (lookup_lt_is_Some_2 (procs s) k) as [p Hp]; [lia|].
      assert (lk_ok d K) as HokK by (now rewrite <- HK).
      assert (getlock K (Lproc k) = unlocked) as Hl by (rewrite (lk_eq_getlock _ _ _ HK); apply Hfree).
      pose proof (lookup_lt_Some _ _ _ Hp) as Hlt.
      wsteps. apply (wp_acquire _ d); simpl; auto. intros K1 _ Ha. wsteps.
      apply (wp_getproc k p); [exact Hp|]. destruct (Z.eqb_spec (pid p) n) as [Hpid|Hpid].
      * wsteps. apply (wp_updproc k _ p); [exact Hp|]. wsteps. simpl.
        assert (forall Q : unit -> mach -> Prop,
          Q tt (set_procs (<[k := struck p]> (procs s)) (set_lks K1 s)) ->
          wp (if bool_decide (state p = SLEEPING) then updproc k (set_state RUNNABLE) else ret tt) Q
            (set_procs (<[k := set_killed_ 1 p]> (procs s)) (set_lks K1 s))) as Hif.
        { intros Q HQ. unfold struck in HQ. destruct (bool_decide (state p = SLEEPING)); [|exact HQ].
          apply (wp_updproc k _ (set_killed_ 1 p)); [simpl; now rewrite list_lookup_insert_eq|].
          simpl. now rewrite list_insert_insert_eq. }
        apply Hif. wsteps. eapply (wp_release _ d K K1); simpl; eauto; [reflexivity|]. intros K2 HK2. wsteps.
        split; [done|]. exists K2. split; [now rewrite HK|]. exists k, p. done.
      * wsteps. eapply (wp_release _ d K K1); simpl; eauto; [reflexivity|]. intros K2 HK2. wsteps.
        exists K2. split; [now rewrite HK|]. split; [done|]. intros j q Hj Hq.
        destruct (decide (j = k)) as [->|]; [congruence|]. apply (Hprev j); [lia|done].
  - intros [r|] s'; intros H; apply wp_ret.
    + destruct H as (-> & K & HK & H). exists K. split; [done|]. left. destruct H as (i & p & H). exists i, p.
      tauto.
    + destruct H as (K & HK & -> & H). exists K. split; [done|]. right. split; [|done].
      intros j q Hq. apply (H j); [|done]. apply lookup_lt_Some in Hq. lia.
Qed.

(** [nproc] counts the slots in use. *)
Definition used (ps : list proc) : nat := length (filter (fun p => state p <> UNUSED) ps).
Lemma nproc_spec d s : procs_free d s -> 1 <= d ->
  wp nproc (fun r s' => r = Z.of_nat (used (procs s)) /\ exists K, lk_eq (lks s) K /\ s' = set_lks K s) s.
Proof.
  intros (Hok & Hlen & Hfree) Hd. unfold nproc. change (Z.to_nat NPROC) with 64%nat.
  assert (forall k i K count, (k + i = 64)%nat -> lk_eq (lks s) K -> 0 <= count <= Z.of_nat i ->
    wp (nproc_loop k i count) (fun r s' => r = count + Z.of_nat (used (drop i (procs s))) /\
      exists K', lk_eq (lks s) K' /\ s' = set_lks K' s) (set_lks K s)) as H.
  { induction k as [|k IH]; intros i K count Hk HK Hc; simpl.
    - apply wp_ret. rewrite drop_ge by lia. split; [change (used []) with 0%nat; lia|]. now exists K.
    - destruct (lookup_lt_is_Some_2 (procs s) i) as [p Hp]; [lia|]. rewrite (drop_S _ _ _ Hp).
      assert (lk_ok d K) as HokK by (now rewrite <- HK).
      assert (getlock K (Lproc i) = unlocked) as Hl by (rewrite (lk_eq_getlock _ _ _ HK); apply Hfree).
      wsteps. apply (wp_acquire _ d); simpl; auto.
      intros K1 _ Ha. wsteps. apply (wp_getproc i p); [exact Hp|]. wsteps.
      eapply (wp_release _ d K K1); simpl; eauto; [reflexivity|].
      intros K2 HK2. eapply wp_mono; [apply (IH (S i) K2); [lia|etransitivity; eauto|]|].
      + case_bool_decide; simpl; [lia|unfold u64; rewrite Z.mod_small; lia].
      + cbv beta. intros r s' [-> HS]. split; [|done]. unfold used. rewrite filter_cons.
        case_bool_decide as E; simpl; [rewrite decide_False by tauto|rewrite decide_True by done; simpl; unfold u64; rewrite Z.mod_small]; lia. }
  specialize (H 64%nat 0%nat (lks s) 0 ltac:(lia) ltac:(reflexivity) ltac:(lia)).
  replace (set_lks (lks s) s) with s in H by (now destruct s). exact H.
Qed.
End Facts.

Section Properties.

(** What [sleep] leaves behind.  A process that calls [sleep] with the condition
    lock [l] held reaches the context switch with [l] free, its own lock
    held and its slot marked as sleeping on [ch]; a [wakeup] of [ch] by
    another process then makes it runnable.  When it is scheduled again it
    returns holding [l], without its own lock and off the channel.  (What
    other harts may do in between is in [Wakeup].) *)
Theorem sleep_wakeup ch l i K0 c p s :
  lk_ok 3 K0 -> cur K0 = Some c -> c_proc c = Some i -> noff c = 0 -> l <> Lproc i ->
  getlock K0 l = unlocked -> getlock K0 (Lproc i) = unlocked -> acquired l K0 (lks s) ->
  procs s !! i = Some p ->
  exists s1 k, sleep ch l s = Switch s1 k /\
    procs s1 = <[i := set_state SLEEPING (set_chan ch p)]> (procs s) /\ ram s1 = ram s /\
    getlock (lks s1) l = unlocked /\ getlock (lks s1) (Lproc i) = Spinlock true (Some (hart (lks s))) /\
    (forall s2 d c2, procs s2 = procs s1 -> procs_free d s2 -> 1 <= d -> cur (lks s2) = Some c2 ->
       c_proc c2 <> Some i ->
       wp (wakeup ch) (fun _ s3 => exists p3, procs s3 !! i = Some p3 /\ state p3 = RUNNABLE) s2) /\
    (forall s2 c2 p2, resumed i c2 p2 s2 -> getlock (lks s2) l = unlocked ->
       wp k (fun _ s3 => getlock (lks s3) l = Spinlock true (Some (hart (lks s3))) /\
         getlock (lks s3) (Lproc i) = unlocked /\ procs s3 = <[i := set_chan NoChan p2]> (procs s2)) s2).
Proof.
  intros Hok Hc Hci Hn Hne Hl Hpl Ha Hp.
  destruct (sleep_spec ch l i K0 c p s) as (K & k & E & HK & Hres); auto.
  pose proof (lookup_lt_Some _ _ _ Hp) as Hlt.
  exists (set_lks K (set_procs (<[i := set_state SLEEPING (set_chan ch p)]> (procs s)) s)), k.
  split; [exact E|]. split; [done|]. split; [done|]. split.
  { simpl. rewrite (acquired_getlock _ _ _ _ HK); done. }
  split.
  { simpl. destruct HK as (_ & -> & _). destruct Ha as (-> & _). done. }
  split.
  - intros s2 d c2 Hps Hf Hd Hc2 Hci2. eapply wp_mono; [now apply (wakeup_spec d c2)|].
    intros [] s3 (K3 & _ & ->). simpl. rewrite Hps. simpl.
    rewrite list_lookup_imap, list_lookup_insert_eq by done. simpl. eexists. split; [done|].
    unfold woken. rewrite bool_decide_eq_false_2 by done. simpl. now rewrite bool_decide_eq_true_2.
  - intros s2 c2 p2 Hr Hl2. eapply wp_mono; [now apply (Hres s2 c2 p2)|].
    intros [] s3 (Kb & K3 & -> & _ & (A1 & A2 & A3 & _) & _ & _ & H2 & _). simpl.
    split; [congruence|]. split; [rewrite <- A3 by congruence; done|done].
Qed.

(** [wakeup] is exact.  It makes runnable every process, other than the
    caller, that sleeps on the channel, changes no other field and no other
    process, and leaves every lock as it found it. *)
Theorem wakeup_exact d c ch s :
  procs_free d s -> 1 <= d -> cur (lks s) = Some c ->
  wp (wakeup ch) (fun _ s' =>
    (forall l, getlock (lks s') l = getlock (lks s) l) /\ ram s' = ram s /\
    forall i p, procs s !! i = Some p ->
      procs s' !! i = Some (if decide (c_proc c <> Some i /\ state p = SLEEPING /\ chan p = ch)
                            then set_state RUNNABLE p else p)) s.
Proof.
  intros Hf Hd Hc. eapply wp_mono; [now apply (wakeup_spec d c)|].
  intros [] s' (K & HK & ->). simpl. split; [intros l; now apply lk_eq_getlock|]. split; [done|].
  intros i p Hp. rewrite list_lookup_imap, Hp. simpl. f_equal. unfold woken.
  destruct (bool_decide_reflect (c_proc c = Some i)) as [E|E]; [rewrite decide_False; [done|tauto]|].
  destruct (bool_decide_reflect (state p = SLEEPING)) as [E1|E1]; simpl; [|rewrite decide_False; [done|tauto]].
  destruct (bool_decide_reflect (chan p = ch)) as [E2|E2]; [|rewrite decide_False; [done|tauto]].
  now rewrite decide_True.
Qed.

(** [kkill] strikes the first process with the given pid and no other:
    it is marked killed and, if it was asleep, made runnable so that it can
    notice; without such a process the result is -1 and the table is
    unchanged. *)
Theorem kkill_correct d s n :
  procs_free d s -> 1 <= d ->
  wp (kkill n) (fun r s' =>
    (forall l, getlock (lks s') l = getlock (lks s) l) /\
    ((r = 0 /\ exists i p, procs s !! i = Some p /\ pid p = n /\
        (forall j q, (j < i)%nat -> procs s !! j = Some q -> pid q <> n) /\
        exists p', procs s' = <[i := p']> (procs s) /\ killed_ p' = 1 /\ pid p' = n /\
          state p' = if decide (state p = SLEEPING) then RUNNABLE else state p) \/
     (r = -1 /\ (forall j q, procs s !! j = Some q -> pid q <> n) /\ procs s' = procs s))) s.
Proof.
  intros Hf Hd. eapply wp_mono; [now apply (kkill_spec d)|].
  intros r s' (K & HK & H). split.
  { destruct H as [(i & p & _ & _ & _ & _ & ->)|(_ & _ & ->)]; intros l; now apply lk_eq_getlock. }
  destruct H as [(i & p & Hp & Hn & Hf' & -> & ->)|(Hn & -> & ->)]; [left|right; done].
  split; [done|]. exists i, p. split; [done|]. split; [done|]. split; [done|]. exists (struck p).
  unfold struck. case_decide as E; [rewrite bool_decide_eq_true_2 by done|rewrite bool_decide_eq_false_2 by done]; done.
Qed.
End Properties.

(** ** Concrete runs *)

Module Example.
Definition ctx0 : context := Context_ 0 0 [].
Definition proc0 (st : procstate) (ch : wchan) (n : Z) : proc :=
  Proc st ch 0 0 n None 0 0 0 0 0 ctx0 [] None [] 0 0 0 0 0 0.
(** Process 0 runs, process 1 sleeps on the tick counter. *)
Definition table : list proc :=
  proc0 RUNNING NoChan 1 :: proc0 SLEEPING ChTicks 2 :: replicate 62 (proc0 UNUSED NoChan 0).
Definition locks0 : lockst := Lockst 0 [Cpu (Some 0%nat) ctx0 0 0 (csr Harts.cpu0)] ∅.
Definition machine : mach := Mach locks0 ∅ [] ∅ table 3 None 0.
Lemma locks0_ok : lk_ok 3 locks0.
Proof. eexists. split; [reflexivity|]. simpl. repeat split; lia. Qed.
Lemma machine_free : procs_free 3 machine.
Proof. split; [apply locks0_ok|]. split; reflexivity. Qed.

Lemma wakeup_exact_witness :
  wp (wakeup ChTicks) (fun _ s' => exists p, procs s' !! 1%nat = Some p /\ state p = RUNNABLE) machine.
Proof.
  eapply wp_mono.
  - apply (wakeup_exact 3 (Cpu (Some 0%nat) ctx0 0 0 (csr Harts.cpu0)) ChTicks machine);
      [apply machine_free|lia|reflexivity].
  - intros [] s' (_ & _ & H). specialize (H 1%nat _ eq_refl). eexists. split; [exact H|].
    destruct (decide _) as [_|Hn]; [reflexivity|]. exfalso. apply Hn. split; [discriminate|done].
Defined.

Lemma kkill_correct_witness :
  wp (kkill 2) (fun r s' => r = 0 \/ r = -1) machine.
Proof.
  eapply wp_mono; [apply (kkill_correct 3 machine 2); [apply machine_free|lia]|].
  intros r s' (_ & [[-> _]|[-> _]]); tauto.
Defined.

(** Process 0 holds the condition lock and goes to sleep. *)
Definition locks1 : lockst := match acquire Lticks locks0 with Ret _ K => K | _ => locks0 end.
Lemma locks1_acquired : acquired Lticks locks0 locks1.
Proof.
  pose proof (acquire_spec locks0 Lticks 3 locks0_ok ltac:(lia) eq_refl) as H.
  unfold wp, locks1 in *. destruct (acquire Lticks locks0); tauto.
Qed.
Lemma sleep_wakeup_witness :
  exists s1 k, sleep ChTicks Lticks (set_lks locks1 machine) = Switch s1 k /\
    getlock (lks s1) Lticks = unlocked.
Proof.
  destruct (sleep_wakeup ChTicks Lticks 0 locks0 (Cpu (Some 0%nat) ctx0 0 0 (csr Harts.cpu0))
    (proc0 RUNNING NoChan 1) (set_lks locks1 machine)) as (s1 & k & E & _ & _ & Hl & _);
    [apply locks0_ok|reflexivity|reflexivity|reflexivity|discriminate|reflexivity|reflexivity|
     apply locks1_acquired|reflexivity|].
  exists s1, k. split; assumption.
Defined.
End Example.
