(* ===== verification/Wakeup.v ===== *)
(** * No wakeup is lost (kernel/proc.c: sleep, wakeup, the scheduler)

    [sleep] and [wakeup] run on different harts.  Here their code is split at
    its statements ([code]), and a system of harts takes one statement at a
    time, in any order; a hart that spins in [acquire] does not move.
    [run] puts the statements together again: they are the definitions of
    [Proc].  A hart whose process calls [swtch] goes on in the scheduler.
    With the first two calls of [sleep] in the other order a wakeup can be
    lost ([swapped_loses_wakeup]); as they are, it cannot. *)

From S2P Require Import Prelude.
From S2P Require Import Mach.
From S2P Require Import Spinlock.
From S2P Require Import Kalloc.
From S2P Require Import Vm.
From S2P Require Import Proc.

(** ** Code as statements *)

Inductive code : Type :=
| Done
| Act {A : Type} (m : M mach A) (k : A -> code)
| Last (m : M mach unit)
| If (b : bool) (c1 c2 : code)
| Seq (c1 c2 : code).

Fixpoint run (c : code) : M mach unit :=
  match c with
  | Done => ret tt
  | Act m k => let! a := m in run (k a)
  | Last m => m
  | If b c1 c2 => if b then run c1 else run c2
  | Seq c1 c2 => do! run c1; run c2
  end.

(** One statement; what is left to do. *)
Fixpoint cstep (c : code) : M mach code :=
  match c with
  | Done => fun _ => Spin
  | Act m k => let! a := m in ret (k a)
  | Last m => do! m; ret Done
  | If b c1 c2 => ret (if b then c1 else c2)
  | Seq Done c2 => ret c2
  | Seq c1 c2 => let! c1' := cstep c1 in ret (Seq c1' c2)
  end.

(** [for (p = proc; p < &proc[NPROC]; p++)], [n] rounds from [j]. *)
Fixpoint loop (n j : nat) (body : nat -> code) : code :=
  match n with O => Done | S n' => Seq (body j) (loop n' (S j) body) end.

Definition sleep_code (ch : wchan) (l : lockid) : code :=
  Act curp (fun p =>
  Act (lk (acquire (Lproc p))) (fun _ =>
  Act (lk (release l)) (fun _ =>
  Act (updproc p (set_chan ch)) (fun _ =>
  Act (updproc p (set_state SLEEPING)) (fun _ =>
  Act sched (fun _ =>
  Act (updproc p (set_chan NoChan)) (fun _ =>
  Act (lk (release (Lproc p))) (fun _ =>
  Last (lk (acquire l)))))))))).

Definition wake_one (ch : wchan) (j : nat) : code :=
  Act myproc (fun me =>
  If (bool_decide (me = Some j)) Done (
  Act (lk (acquire (Lproc j))) (fun _ =>
  Act (getproc j) (fun p =>
  Act (if bool_decide (state p = SLEEPING) && bool_decide (chan p = ch) then updproc j (set_state RUNNABLE) else ret tt) (fun _ =>
  Last (lk (release (Lproc j)))))))).
Definition wakeup_code (ch : wchan) : code := loop (Z.to_nat NPROC) 0 (wake_one ch).

(** A process or an interrupt handler that has made the condition true under
    the condition lock. *)
Definition waker_code (ch : wchan) (l : lockid) : code :=
  Act (lk (acquire l)) (fun _ => Seq (wakeup_code ch) (Last (lk (release l)))).

(** What [scheduler] does when process [i] has left its CPU. *)
Definition scheduler_code (kernel_pagetable : Z) (i : nat) : code :=
  Act (kvminithart kernel_pagetable) (fun _ =>
  Act (lk (upd_cpu (set_c_proc None))) (fun _ =>
  Last (lk (release (Lproc i))))).

(** ** Several harts *)

Record sys : Type := Sys { mem : mach; codes : gmap Z code }.
Definition at_hart (h : Z) (s : mach) : mach := set_lks (Harts.on h (lks s)) s.

Inductive hstep (kernel_pagetable : Z) : sys -> sys -> Prop :=
| hstep_run h c c' s' y : codes y !! h = Some c -> cstep c (at_hart h (mem y)) = Ret c' s' ->
    hstep kernel_pagetable y (Sys s' (<[h := c']> (codes y)))
| hstep_switch h c s' k c0 i y : codes y !! h = Some c -> cstep c (at_hart h (mem y)) = Switch s' k ->
    cur (lks s') = Some c0 -> c_proc c0 = Some i ->
    hstep kernel_pagetable y (Sys s' (<[h := scheduler_code kernel_pagetable i]> (codes y))).

(** ** The statements are the code *)

Lemma run_loop n body : forall j, run (loop n j body) = mloop n (Z.of_nat j) 1 (fun i => run (body (Z.to_nat i))).
Proof.
  induction n as [|n IH]; intros j; [done|]. cbn [loop run mloop]. rewrite IH, Nat2Z.id. replace (Z.of_nat j + 1) with (Z.of_nat (S j)) by lia. done.
Qed.
Lemma run_sleep ch l : run (sleep_code ch l) = sleep ch l.
Proof. reflexivity. Qed.
Lemma run_wakeup ch : run (wakeup_code ch) = wakeup ch.
Proof. exact (run_loop (Z.to_nat NPROC) (wake_one ch) 0). Qed.

(** ** A statement on one hart *)

Section Hart.
Implicit Types (K : lockst) (s : mach) (h d : Z) (pr : option nat).

(** Hart [h] runs [pr], [d] levels deep in critical sections. *)
Definition cpu_ok h d pr K : Prop :=
  0 <= h /\ exists c, cpus K !! Z.to_nat h = Some c /\ c_proc c = pr /\ noff c = d /\
    0 <= sstatus (csr c) /\ (0 < d -> Z.testbit (sstatus (csr c)) 1 = false).
(** The other harts are as they were. *)
Definition only h K K' : Prop := forall j, j <> Z.to_nat h -> cpus K' !! j = cpus K !! j.
Definition held (h : Z) : spinlock := Spinlock true (Some h).

Lemma cpu_ok_only h h' d pr K K' : cpu_ok h' d pr K -> only h K K' -> 0 <= h -> h <> h' -> cpu_ok h' d pr K'.
Proof. intros [Hh (c & Hc & H)] Ho H0 Hne. split; [done|]. exists c. rewrite Ho by lia. done. Qed.
Lemma cur_on h d pr K : cpu_ok h d pr K -> exists c, cur (Harts.on h K) = Some c /\ c_proc c = pr /\ noff c = d /\
  0 <= sstatus (csr c) /\ (0 < d -> Z.testbit (sstatus (csr c)) 1 = false).
Proof. intros [Hh (c & Hc & H)]. exists c. unfold cur. simpl. rewrite (proj2 (Z.leb_le 0 h)) by done. done. Qed.
Lemma cpu_ok_lk h d pr K : cpu_ok h d pr K -> 0 <= d <= 2 -> lk_ok 3 (Harts.on h K).
Proof. intros H Hd. destruct (cur_on _ _ _ _ H) as (c & Hc & _ & En & Hs & Hi). exists c. rewrite En. split; [done|]. repeat split; try lia; done. Qed.
Lemma cpu_ok_cur h d pr K c : hart K = h -> 0 <= h -> cur K = Some c -> c_proc c = pr -> noff c = d -> 0 <= sstatus (csr c) ->
  (0 < d -> Z.testbit (sstatus (csr c)) 1 = false) -> cpu_ok h d pr K.
Proof. unfold cur. intros <- Hh Hc. rewrite (proj2 (Z.leb_le 0 (hart K))) in Hc by done. intros. split; [done|]. exists c. done. Qed.

Lemma acquire_at h d pr x K : cpu_ok h d pr K -> 0 <= d <= 1 -> getlock K x = unlocked -> exists K',
  acquire x (Harts.on h K) = Ret tt K' /\ cpu_ok h (d + 1) pr K' /\ getlock K' x = held h /\
  (forall x', x' <> x -> getlock K' x' = getlock K x') /\ only h K K'.
Proof.
  intros Hc Hd Hx. pose proof (acquire_spec (Harts.on h K) x 3 ltac:(eapply cpu_ok_lk; [exact Hc|lia]) ltac:(lia)) as H.
  rewrite Harts.getlock_on, Hx in H. apply wp_Ret in H as ([] & K' & E & (c' & Hc' & _ & _ & Hs' & Hi') & A1 & A2 & A3 & _ & A5 & A6); [|done].
  destruct (cur_on _ _ _ _ Hc) as (c & Hcu & Ep & En & _). destruct (A6 c Hcu) as (c2 & Hc2 & E1 & _ & E3 & _). assert (c2 = c') as -> by congruence.
  exists K'. split; [exact E|]. split; [|split; [done|split; [intros x' Hx'; rewrite <- A3; done|]]].
  - apply (cpu_ok_cur _ _ _ _ c'); [done|apply Hc|done|congruence|lia|done|]. intros _. apply Hi'. rewrite E3. lia.
  - intros j Hj. rewrite <- A5; done.
Qed.
Lemma acquire_spins h h' d pr x K : cpu_ok h d pr K -> 0 <= d <= 1 -> getlock K x = held h' -> h' <> h -> acquire x (Harts.on h K) = Spin.
Proof.
  intros Hc Hd Hx Hne. destruct (cur_on _ _ _ _ Hc) as (c & Hcu & _ & En & _). unfold acquire.
  rewrite (bind_Ret _ _ _ _ _ (push_off_eq _ c Hcu ltac:(lia))). unfold holding, cpuid, r_tp, bind, gets, ret, check. simpl.
  rewrite getlock_put_cur, Harts.getlock_on, Hx. simpl. rewrite bool_decide_eq_false_2 by congruence. simpl. unfold xchg_locked.
  rewrite getlock_put_cur, Harts.getlock_on, Hx. done.
Qed.
Lemma release_at h d pr x K : cpu_ok h d pr K -> 1 <= d <= 2 -> getlock K x = held h -> exists K',
  release x (Harts.on h K) = Ret tt K' /\ cpu_ok h (d - 1) pr K' /\ getlock K' x = unlocked /\
  (forall x', x' <> x -> getlock K' x' = getlock K x') /\ only h K K'.
Proof.
  intros Hc Hd Hx. destruct (cur_on _ _ _ _ Hc) as (c & Hcu & Ep & En & Hs & Hi). eexists. split.
  { apply (release_eq _ x c Hcu); [lia|apply Hi; lia|done]. }
  set (K1 := putlock x unlocked _). assert (cur (put_cur (popped c) K1) = Some (popped c)) as Hc1 by (eapply cur_put_cur; exact Hcu).
  split; [|split; [|split]].
  - apply (cpu_ok_cur _ _ _ _ (popped c)); [done|apply Hc|done|done|simpl; lia| |].
    + simpl. destruct (_ && _); simpl; [|done]. apply Z.lor_nonneg. done.
    + intros Hd1. simpl. rewrite (proj2 (Z.eqb_neq _ 0)) by lia. simpl. apply Hi. lia.
  - rewrite getlock_put_cur. apply getlock_put_eq.
  - intros x' Hx'. unfold K1. rewrite getlock_put_cur, !getlock_put_ne by done. done.
  - intros j Hj. exact (put_cur_cpus_ne K1 (popped c) j Hj).
Qed.
(** [myproc] leaves no trace. *)
Lemma lk_eq_at h d pr K K' : cpu_ok h d pr K -> lk_eq (Harts.on h K) K' ->
  cpu_ok h d pr K' /\ (forall x, getlock K' x = getlock K x) /\ only h K K'.
Proof.
  intros Hc HK. destruct (cur_on _ _ _ _ Hc) as (c & Hcu & Ep & En & Hs & Hi). pose proof HK as (E1 & E2 & _ & E4 & E5).
  destruct (E5 c Hcu) as (c' & Hc' & F1 & _ & F3 & F4 & _). split; [|split].
  - apply (cpu_ok_cur _ _ _ _ c'); [done|apply Hc|done|congruence|congruence|now rewrite <- F4|now rewrite <- F4].
  - intros x. now rewrite <- E2.
  - intros j Hj. now rewrite <- E4.
Qed.
Lemma upd_cpu_at h d pr f K : cpu_ok h d pr K -> (forall c, noff (f c) = noff c /\ sstatus (csr (f c)) = sstatus (csr c)) -> exists K' c,
  cpus K !! Z.to_nat h = Some c /\ upd_cpu f (Harts.on h K) = Ret tt K' /\ cpu_ok h d (c_proc (f c)) K' /\ (forall x, getlock K' x = getlock K x) /\ only h K K'.
Proof.
  intros Hc Hf. destruct (cur_on _ _ _ _ Hc) as (c & Hcu & Ep & En & Hs & Hi). exists (put_cur (f c) (Harts.on h K)), c. split; [|split; [|split; [|split]]].
  - unfold cur in Hcu. simpl in Hcu. destruct Hc as [Hh _]. now rewrite (proj2 (Z.leb_le 0 h)) in Hcu by done.
  - apply wp_unit. now apply (wp_upd_cpu _ c).
  - destruct (Hf c) as [F1 F2]. apply (cpu_ok_cur _ _ _ _ (f c)); [done|apply Hc|eapply cur_put_cur; exact Hcu|done|congruence|now rewrite F2|now rewrite F2].
  - done.
  - intros j Hj. exact (put_cur_cpus_ne (Harts.on h K) (f c) j Hj).
Qed.
End Hart.

(** ** The two harts *)

Section Race.
Variables (ch : wchan) (l : lockid) (i : nat) (hs hw : Z) (pw : option nat) (kpt : Z).
Hypothesis Hs0 : 0 <= hs.
Hypothesis Hw0 : 0 <= hw.
Hypothesis Hne : hs <> hw.
Hypothesis Hpw : pw <> Some i.
Hypothesis Hl : forall j, l <> Lproc j.
Implicit Types (s : mach) (K : lockst).

(** Where the sleeping process, and then the scheduler of its hart, is. *)
Definition scode (a : nat) : code :=
  match a with
  | 0 => sleep_code ch l
  | 1 => Act (lk (acquire (Lproc i))) (fun _ => Act (lk (release l)) (fun _ => Act (updproc i (set_chan ch)) (fun _ =>
      Act (updproc i (set_state SLEEPING)) (fun _ => Act sched (fun _ => Act (updproc i (set_chan NoChan)) (fun _ =>
      Act (lk (release (Lproc i))) (fun _ => Last (lk (acquire l)))))))))
  | 2 => Act (lk (release l)) (fun _ => Act (updproc i (set_chan ch)) (fun _ =>
      Act (updproc i (set_state SLEEPING)) (fun _ => Act sched (fun _ => Act (updproc i (set_chan NoChan)) (fun _ =>
      Act (lk (release (Lproc i))) (fun _ => Last (lk (acquire l))))))))
  | 3 => Act (updproc i (set_chan ch)) (fun _ =>
      Act (updproc i (set_state SLEEPING)) (fun _ => Act sched (fun _ => Act (updproc i (set_chan NoChan)) (fun _ =>
      Act (lk (release (Lproc i))) (fun _ => Last (lk (acquire l)))))))
  | 4 => Act (updproc i (set_state SLEEPING)) (fun _ => Act sched (fun _ => Act (updproc i (set_chan NoChan)) (fun _ =>
      Act (lk (release (Lproc i))) (fun _ => Last (lk (acquire l))))))
  | 5 => Act sched (fun _ => Act (updproc i (set_chan NoChan)) (fun _ =>
      Act (lk (release (Lproc i))) (fun _ => Last (lk (acquire l)))))
  | 6 => scheduler_code kpt i
  | 7 => Act (lk (upd_cpu (set_c_proc None))) (fun _ => Last (lk (release (Lproc i))))
  | 8 => Last (lk (release (Lproc i)))
  | _ => Done
  end%nat.
Definition sdepth (a : nat) : Z := if (a =? 2)%nat then 2 else if (a =? 9)%nat then 0 else 1.

(** Where the waking hart is: [n] rounds are left after the one of slot [j]. *)
Inductive wpos : Type :=
| W_start
| W_loop (n j : nat)
| W_test_me (n j : nat)
| W_acquire (n j : nat)
| W_get (n j : nat)
| W_test (n j : nat) (p : proc)
| W_release (n j : nat)
| W_next (n j : nat)
| W_end
| W_done.
#[export] Instance w_done_dec w : Decision (w = W_done).
Proof. destruct w; first [now left|now right]. Defined.
Definition tail : code := Last (lk (release l)).
Definition wcode (w : wpos) : code :=
  let body c n j := Seq (Seq c (loop n (S j) (wake_one ch))) tail in
  let rel j := Last (lk (release (Lproc j))) in
  let test j p := Act (if bool_decide (state p = SLEEPING) && bool_decide (chan p = ch) then updproc j (set_state RUNNABLE) else ret tt) (fun _ => rel j) in
  let get j := Act (getproc j) (test j) in
  let acq j := Act (lk (acquire (Lproc j))) (fun _ => get j) in
  match w with
  | W_start => waker_code ch l
  | W_loop n j => Seq (loop n j (wake_one ch)) tail
  | W_test_me n j => body (If (bool_decide (pw = Some j)) Done (acq j)) n j
  | W_acquire n j => body (acq j) n j
  | W_get n j => body (get j) n j
  | W_test n j p => body (test j p) n j
  | W_release n j => body (rel j) n j
  | W_next n j => body Done n j
  | W_end => tail
  | W_done => Done
  end.
Definition slot (w : wpos) : option nat := match w with W_get _ j | W_test _ j _ | W_release _ j => Some j | _ => None end.
Definition wdepth (w : wpos) : Z := match w with W_start | W_done => 0 | W_get _ _ | W_test _ _ _ | W_release _ _ => 2 | _ => 1 end.
(** Slot [i] has been looked at. *)
Definition passed (w : wpos) : bool :=
  match w with
  | W_start => false
  | W_loop _ j | W_test_me _ j | W_acquire _ j | W_get _ j | W_test _ j _ => (i <? j)%nat
  | W_release _ j | W_next _ j => (i <=? j)%nat
  | W_end | W_done => true
  end.
Definition wpos_ok (w : wpos) : Prop :=
  match w with
  | W_loop n j => (n + j = 64)%nat
  | W_test_me n j | W_acquire n j | W_get n j | W_test n j _ | W_release n j | W_next n j => (n + j = 63)%nat
  | _ => True
  end.
(** How many steps are left. *)
Definition wleft (w : wpos) : nat :=
  match w with
  | W_start => 452 | W_loop n _ => 7 * n + 3 | W_test_me n _ => 7 * n + 9 | W_acquire n _ => 7 * n + 8 | W_get n _ => 7 * n + 7
  | W_test n _ _ => 7 * n + 6 | W_release n _ => 7 * n + 5 | W_next n _ => 7 * n + 4 | W_end => 2 | W_done => 0
  end.
Definition started (w : wpos) : bool := match w with W_start => false | _ => true end.
Definition finished (w : wpos) : bool := match w with W_done => true | _ => false end.

(** Who holds the condition lock and the lock of process [i]. *)
Definition lock_of (a : nat) (w : wpos) : spinlock :=
  if (a <=? 2)%nat then held hs else if started w && negb (finished w) then held hw else unlocked.
Definition plock_of (a : nat) (w : wpos) : spinlock :=
  if (2 <=? a)%nat && (a <=? 8)%nat then held hs else if bool_decide (slot w = Some i) then held hw else unlocked.

Record inv (a : nat) (w : wpos) s : Prop := {
  iv_len : length (procs s) = 64%nat;
  iv_a : (a <= 9)%nat;
  iv_w : wpos_ok w;
  iv_hs : cpu_ok hs (sdepth a) (if (a <=? 7)%nat then Some i else None) (lks s);
  iv_hw : cpu_ok hw (wdepth w) pw (lks s);
  iv_l : getlock (lks s) l = lock_of a w;
  iv_p : getlock (lks s) (Lproc i) = plock_of a w;
  iv_j : forall j, j <> i -> getlock (lks s) (Lproc j) = if bool_decide (slot w = Some j) then held hw else unlocked;
  iv_after : started w = true -> (3 <= a)%nat;
  iv_locked : slot w = Some i \/ passed w = true -> a = 9%nat;
  iv_proc : exists p, procs s !! i = Some p /\ ((4 <= a)%nat -> chan p = ch) /\
    ((5 <= a)%nat -> state p = if passed w then RUNNABLE else SLEEPING) /\
    forall n q, w = W_test n i q -> q = p;
}.

(** *** The sleeping process moves *)

Lemma not_passed a w s : inv a w s -> (a < 9)%nat -> passed w = false /\ slot w <> Some i.
Proof. intros Hi Ha. split; [apply not_true_is_false|]; intros H; pose proof (iv_locked _ _ _ Hi); destruct (iv_locked _ _ _ Hi); auto; lia. Qed.

Lemma inv_sleeper a w s s' p p' : inv a w s -> (a < 9)%nat -> procs s !! i = Some p -> procs s' = <[i := p']> (procs s) ->
  cpu_ok hs (sdepth (S a)) (if (S a <=? 7)%nat then Some i else None) (lks s') -> only hs (lks s) (lks s') ->
  getlock (lks s') l = lock_of (S a) w -> getlock (lks s') (Lproc i) = plock_of (S a) w ->
  (forall j, j <> i -> getlock (lks s') (Lproc j) = getlock (lks s) (Lproc j)) ->
  ((4 <= S a)%nat -> chan p' = ch) -> ((5 <= S a)%nat -> state p' = SLEEPING) -> inv (S a) w s'.
Proof.
  intros Hi Ha Hp Hps Hc Ho H1 H2 H3 H4 H5. destruct (not_passed a w s Hi Ha) as [Hn1 Hn2]. pose proof (lookup_lt_Some _ _ _ Hp) as Hlt. constructor; try done.
  - rewrite Hps, length_insert. apply Hi.
  - apply Hi.
  - apply (cpu_ok_only hs hw _ _ (lks s)); [apply Hi|done|done|done].
  - intros j Hj. rewrite H3 by done. now apply Hi.
  - intros Hs. pose proof (iv_after _ _ _ Hi Hs). lia.
  - intros [H|H]; congruence.
  - exists p'. rewrite Hps, list_lookup_insert_eq by done. split; [done|]. split; [done|]. rewrite Hn1. split; [done|].
    intros n q ->. now simpl in Hn2.
Qed.

Lemma curp_at d s : cpu_ok hs d (Some i) (lks s) -> 0 <= d <= 2 -> exists K, lk_eq (Harts.on hs (lks s)) K /\ curp (at_hart hs s) = Ret i (set_lks K s).
Proof.
  intros Hc Hd. destruct (cur_on _ _ _ _ Hc) as (c & Hcu & Ep & _).
  assert (wp curp (fun r s' => r = i /\ exists K, lk_eq (Harts.on hs (lks s)) K /\ s' = set_lks K s) (at_hart hs s)) as H.
  { apply (wp_curp 3 c i); [eapply cpu_ok_lk; [exact Hc|lia]|lia|done|done|]. intros K HK. split; [done|]. exists K. done. }
  apply wp_Ret in H as (r & s' & E & -> & K & HK & ->). exists K. done.
Qed.

(** A statement on the locks. *)
Lemma lk_step {A : Type} (m : M lockst A) h s a K : m (Harts.on h (lks s)) = Ret a K -> lk m (at_hart h s) = Ret a (set_lks K s).
Proof. intros H. apply (zoom_Ret lks_lens) with (s := at_hart h s). exact H. Qed.
Lemma upd_step h j f q s : procs s !! j = Some q -> updproc j f (at_hart h s) = Ret tt (set_procs (<[j := f q]> (procs s)) (at_hart h s)).
Proof. intros H. apply wp_unit. now apply (wp_updproc j f q). Qed.

Lemma sleeper_moves a w s : inv a w s -> (a < 9)%nat -> exists s', inv (S a) w s' /\
  (cstep (scode a) (at_hart hs s) = Ret (scode (S a)) s' \/
   (a = 5%nat /\ (exists k, cstep (scode a) (at_hart hs s) = Switch s' k) /\ exists c, cur (lks s') = Some c /\ c_proc c = Some i)).
Proof.
  intros Hi Ha. pose proof Hi as [Ilen _ Iw Ihs Ihw Il Ip Ij Iaf Ilo (p & Hp & Hch & Hst & _)]. destruct (not_passed a w s Hi Ha) as [Hn1 Hn2].
  assert (forall K, inv a w s -> procs (set_lks K s) = <[i := p]> (procs s)) as Hsame by (intros K _; simpl; symmetry; now apply list_insert_id).
  assert (plock_of 9 w = unlocked) as Hp9 by (unfold plock_of; simpl; now rewrite bool_decide_eq_false_2).
  assert (forall K, only hs (lks s) K -> (forall x, getlock K x = getlock (lks s) x) -> cpu_ok hs (sdepth (S a)) (if (S a <=? 7)%nat then Some i else None) K ->
    lock_of a w = lock_of (S a) w -> plock_of a w = plock_of (S a) w -> (a <> 3)%nat -> (a <> 4)%nat -> inv (S a) w (set_lks K s)) as Hquiet.
  { intros K Ho HK Hc E1 E2 N3 N4. apply (inv_sleeper a w s _ p p); auto; simpl; [rewrite HK; congruence|rewrite HK; congruence|intros; apply Hch; lia|].
    intros. rewrite Hst by lia. now rewrite Hn1. }
  destruct a as [|[|[|[|[|[|[|[|[|a]]]]]]]]]; [..|lia].
  - (* curp *) destruct (curp_at 1 s Ihs ltac:(lia)) as (K & HK & E). destruct (lk_eq_at _ _ _ _ _ Ihs HK) as (C1 & C2 & C3). exists (set_lks K s). split; [now apply Hquiet|].
    left. cbn [cstep scode sleep_code]. now rewrite (bind_Ret _ _ _ _ _ E).
  - (* acquire(&p->lock) *) assert (started w = false) as Hw by (apply not_true_is_false; intros H; specialize (Iaf H); lia).
    destruct (acquire_at hs 1 (Some i) (Lproc i) (lks s) Ihs ltac:(lia)) as (K & E & C1 & C2 & C3 & C4).
    { rewrite Ip. unfold plock_of. simpl. now rewrite bool_decide_eq_false_2. }
    exists (set_lks K s). split; [|left; cbn [cstep scode]; now rewrite (bind_Ret _ _ _ _ _ (lk_step _ _ _ _ _ E))].
    apply (inv_sleeper 1 w s _ p p); [done|lia|done|now apply Hsame|exact C1|exact C4|..|lia|lia]; simpl; [rewrite C3, Il by apply Hl; done|now rewrite C2|intros j Hj; apply C3; congruence].
  - (* release(lk) *) assert (started w = false) as Hw by (apply not_true_is_false; intros H; specialize (Iaf H); lia).
    destruct (release_at hs 2 (Some i) l (lks s) Ihs ltac:(lia)) as (K & E & C1 & C2 & C3 & C4); [now rewrite Il|].
    exists (set_lks K s). split; [|left; cbn [cstep scode]; now rewrite (bind_Ret _ _ _ _ _ (lk_step _ _ _ _ _ E))].
    apply (inv_sleeper 2 w s _ p p); [done|lia|done|now apply Hsame|exact C1|exact C4|..|lia|lia]; simpl; [rewrite C2; unfold lock_of; simpl; now rewrite Hw|rewrite C3, Ip by (intros E'; now apply (Hl i)); done|intros j Hj; apply C3; intros E'; now apply (Hl j)].
  - (* p->chan = chan *) eexists. split; [|left; cbn [cstep scode]; rewrite (bind_Ret _ _ _ _ _ (upd_step hs i _ p s Hp)); reflexivity].
    apply (inv_sleeper 3 w s _ p (set_chan ch p)); auto; simpl; try lia; done.
  - (* p->state = SLEEPING *) eexists. split; [|left; cbn [cstep scode]; rewrite (bind_Ret _ _ _ _ _ (upd_step hs i _ p s Hp)); reflexivity].
    apply (inv_sleeper 4 w s _ p (set_state SLEEPING p)); auto; simpl; try lia; try done.
  - (* sched *) destruct (cur_on _ _ _ _ Ihs) as (c & Hcu & Ep & En & _).
    destruct (sched_spec 3 c i p (at_hart hs s)) as (K & HK & E); [eapply cpu_ok_lk; [exact Ihs|unfold sdepth; simpl; lia]|lia|done|done|done|simpl; now rewrite Harts.getlock_on, Ip|done|rewrite Hst, Hn1 by lia; done|].
    destruct (lk_eq_at _ _ _ _ _ Ihs HK) as (C1 & C2 & C3). exists (set_lks K s). split; [now apply Hquiet|]. right. split; [done|]. split.
    + eexists. cbn [cstep scode]. rewrite (bind_Switch _ _ _ _ _ E). reflexivity.
    + destruct (lk_eq_cur _ _ _ HK Hcu) as (c' & Hc' & E' & _). exists c'. split; [done|congruence].
  - (* kvminithart *) destruct (upd_cpu_at hs 1 (Some i) (fun c => set_csr (set_satp (MAKE_SATP kpt) (csr c)) c) (lks s) Ihs) as (K & c & Hcc & E & C1 & C2 & C3); [done|].
    destruct (cur_on _ _ _ _ Ihs) as (c2 & Hcu & Ep & _). unfold cur in Hcu. simpl in Hcu. rewrite (proj2 (Z.leb_le 0 hs)) in Hcu by done.
    exists (set_lks K s). split; [apply Hquiet; try done; simpl; simpl in C1; replace (Some i) with (c_proc c) by congruence; exact C1|].
    left. cbn [cstep scode scheduler_code]. unfold kvminithart, w_satp. now rewrite (bind_Ret _ _ _ _ _ (lk_step _ _ _ _ _ E)).
  - (* c->proc = 0 *) destruct (upd_cpu_at hs 1 (Some i) (set_c_proc None) (lks s) Ihs) as (K & c & Hcc & E & C1 & C2 & C3); [done|].
    exists (set_lks K s). split; [now apply Hquiet|]. left. cbn [cstep scode]. now rewrite (bind_Ret _ _ _ _ _ (lk_step _ _ _ _ _ E)).
  - (* release(&p->lock) *) destruct (release_at hs 1 None (Lproc i) (lks s) Ihs ltac:(lia)) as (K & E & C1 & C2 & C3 & C4); [now rewrite Ip|].
    exists (set_lks K s). split; [|left; cbn [cstep scode]; now rewrite (bind_Ret _ _ _ _ _ (lk_step _ _ _ _ _ E))].
    apply (inv_sleeper 8 w s _ p p); [done|lia|done|now apply Hsame|exact C1|exact C4|..]; simpl; [rewrite C3, Il by apply Hl; done|now rewrite C2|intros j Hj; apply C3; congruence|intros _; apply Hch; lia|intros _; rewrite Hst by lia; now rewrite Hn1].
Qed.

(** *** The waking hart moves *)

Lemma seq_ret c1 c2 s c' s' : c1 <> Done -> cstep c1 s = Ret c' s' -> cstep (Seq c1 c2) s = Ret (Seq c' c2) s'.
Proof. intros Hc H. destruct c1; [done|..]; cbn [cstep] in *; now rewrite (bind_Ret _ _ _ _ _ H). Qed.
Lemma seq_spin c1 c2 s : c1 <> Done -> cstep c1 s = Spin -> cstep (Seq c1 c2) s = Spin.
Proof. intros Hc H. destruct c1; [done|..]; cbn [cstep] in *; unfold bind at 1; now rewrite H. Qed.
Lemma act_ret {A : Type} (m : M mach A) k s a s' : m s = Ret a s' -> cstep (Act m k) s = Ret (k a) s'.
Proof. intros H. cbn [cstep]. now rewrite (bind_Ret _ _ _ _ _ H). Qed.
Lemma act_spin {A : Type} (m : M mach A) k s : m s = Spin -> cstep (Act m k) s = Spin.
Proof. intros H. cbn [cstep]. unfold bind. now rewrite H. Qed.
Lemma last_ret m s s' : m s = Ret tt s' -> cstep (Last m) s = Ret Done s'.
Proof. intros H. cbn [cstep]. now rewrite (bind_Ret _ _ _ _ _ H). Qed.

Lemma inv_waker a w s w' s' p p' : inv a w s -> wpos_ok w' -> length (procs s') = length (procs s) ->
  cpu_ok hw (wdepth w') pw (lks s') -> only hw (lks s) (lks s') ->
  getlock (lks s') l = lock_of a w' -> getlock (lks s') (Lproc i) = plock_of a w' ->
  (forall j, j <> i -> getlock (lks s') (Lproc j) = if bool_decide (slot w' = Some j) then held hw else unlocked) ->
  (3 <= a)%nat -> (slot w' = Some i \/ passed w' = true -> a = 9%nat) ->
  procs s !! i = Some p -> procs s' !! i = Some p' -> chan p' = chan p -> state p' = (if passed w' && negb (passed w) then RUNNABLE else state p) ->
  (passed w = true -> passed w' = true) -> (forall n q, w' = W_test n i q -> q = p') -> inv a w' s'.
Proof.
  intros Hi Hw Hlen Hc Ho H1 H2 H3 H4 H5 Hp Hp' Ech Est Hmon Ht. destruct (iv_proc _ _ _ Hi) as (p0 & Hp0 & Q1 & Q2 & _). assert (p0 = p) as -> by congruence.
  constructor; try done.
  - rewrite Hlen. apply Hi.
  - apply Hi.
  - apply (cpu_ok_only hw hs _ _ (lks s)); [apply Hi|done|done|congruence].
  - exists p'. split; [done|]. split; [intros; rewrite Ech; auto|]. split; [|done]. intros Ha. rewrite Est, Q2 by done.
    destruct (passed w); simpl; [rewrite Hmon by done; done|]. rewrite andb_true_r. now destruct (passed w').
Qed.

(** A step that changes no lock and no process. *)
Lemma inv_quiet a w s w' K : inv a w s -> wpos_ok w' -> wdepth w' = wdepth w -> slot w' = slot w -> started w' = started w -> finished w' = finished w ->
  (3 <= a)%nat -> passed w' = passed w -> cpu_ok hw (wdepth w) pw K -> only hw (lks s) K -> (forall x, getlock K x = getlock (lks s) x) ->
  (forall n q, w' = W_test n i q -> procs s !! i = Some q) -> inv a w' (set_lks K s).
Proof.
  intros Hi Hw E1 E2 E3 E4 Ha E5 Hc Ho HK Ht. destruct (iv_proc _ _ _ Hi) as (p & Hp & _).
  apply (inv_waker a w s w' _ p p); try done; simpl; rewrite ?E1, ?E5, ?HK; try done.
  - rewrite (iv_l _ _ _ Hi). unfold lock_of. now rewrite E3, E4.
  - rewrite (iv_p _ _ _ Hi). unfold plock_of. now rewrite E2.
  - intros j Hj. rewrite HK, E2. now apply Hi.
  - rewrite E2. apply Hi.
  - now destruct (passed w).
  - intros n q E. specialize (Ht n q E). congruence.
Qed.
(** The waking hart takes a step that keeps the invariant, or spins while the
    sleeping process is still on its way. *)
Definition moves (a : nat) (w : wpos) s : Prop :=
  (exists w' s', cstep (wcode w) (at_hart hw s) = Ret (wcode w') s' /\ inv a w' s' /\ (wleft w' < wleft w)%nat) \/
  (cstep (wcode w) (at_hart hw s) = Spin /\ (a < 9)%nat).
Lemma slots a w s p : inv a w s -> procs s !! i = Some p -> (i < 64)%nat.
Proof. intros Hi Hp. rewrite <- (iv_len _ _ _ Hi). now apply lookup_lt_Some in Hp. Qed.
#[local] Ltac open_inv Hi :=
  pose proof Hi as [Ilen Ia Iw Ihs Ihw Il Ip Ij Iaf Ilo (p & Hp & Hch & Hst & Htq)]; pose proof (slots _ _ _ _ Hi Hp) as Hi64.

(** [acquire(lk)]. *)
Lemma waker_takes_l a s : inv a W_start s -> moves a W_start s.
Proof.
  intros Hi. open_inv Hi. destruct (decide (a <= 2)%nat) as [Ha|Ha].
  - right. split; [|lia]. cbn [wcode waker_code]. apply act_spin. unfold lk, zoom. simpl.
    rewrite (acquire_spins hw hs 0 pw l (lks s)); [done|done|lia| |done]. rewrite Il. unfold lock_of. now rewrite (proj2 (Nat.leb_le _ _)).
  - left. destruct (acquire_at hw 0 pw l (lks s) Ihw ltac:(lia)) as (K & E & C1 & C2 & C3 & C4).
    { rewrite Il. unfold lock_of. now rewrite (proj2 (Nat.leb_gt _ _)) by lia. }
    exists (W_loop 64 0), (set_lks K s). split; [exact (act_ret _ _ _ _ _ (lk_step _ _ _ _ _ E))|]. split; [|simpl; lia].
    apply (inv_waker a W_start s _ _ p p); try done; try lia.
    + simpl. rewrite C2. unfold lock_of. now rewrite (proj2 (Nat.leb_gt _ _)) by lia.
    + simpl. rewrite C3, Ip by (intros E'; now apply (Hl i)). done.
    + intros j Hj. simpl. rewrite C3 by (intros E'; now apply (Hl j)). now apply Ij.
Qed.
(** The loop. *)
Lemma waker_loop a n j s : inv a (W_loop n j) s -> moves a (W_loop n j) s.
Proof.
  intros Hi. open_inv Hi. left. assert (3 <= a)%nat as Ha by now apply Iaf. destruct n as [|n].
  - simpl in Iw. exists W_end, (at_hart hw s). split; [done|]. split; [|simpl; lia].
    assert (passed (W_loop 0 j) = true) as Hpj by (apply Nat.ltb_lt; lia).
    apply (inv_quiet a (W_loop 0 j) s W_end (Harts.on hw (lks s))); done.
  - destruct (cur_on _ _ _ _ Ihw) as (c & Hcu & Ep & _).
    assert (wp myproc (fun r s' => r = pw /\ exists K, lk_eq (Harts.on hw (lks s)) K /\ s' = set_lks K s) (at_hart hw s)) as H.
    { apply (wp_myproc 3 c); [eapply cpu_ok_lk; [exact Ihw|simpl; lia]|lia|done|]. intros K HK. split; [done|]. exists K. done. }
    apply wp_Ret in H as (r & s' & E & -> & K & HK & ->). destruct (lk_eq_at _ _ _ _ _ Ihw HK) as (C1 & C2 & C3).
    exists (W_test_me n j), (set_lks K s). split; [|split; [|simpl; lia]].
    + cbn [wcode loop]. apply seq_ret; [done|]. apply seq_ret; [done|]. exact (act_ret _ _ _ _ _ E).
    + apply (inv_quiet a (W_loop (S n) j) s); try done. simpl in *. lia.
Qed.
(** [p != myproc()]. *)
Lemma waker_tests_me a n j s : inv a (W_test_me n j) s -> moves a (W_test_me n j) s.
Proof.
  intros Hi. open_inv Hi. left. assert (3 <= a)%nat as Ha by now apply Iaf. destruct (bool_decide_reflect (pw = Some j)) as [Hj|Hj].
  - exists (W_next n j), (at_hart hw s). split; [|split; [|simpl; lia]].
    + cbn [wcode]. rewrite bool_decide_eq_true_2 by done. now apply seq_ret, seq_ret.
    + assert (i <> j) by congruence. apply (inv_quiet a (W_test_me n j) s _ (Harts.on hw (lks s))); try done.
      simpl. destruct (Nat.leb_spec i j), (Nat.ltb_spec i j); try done; lia.
  - exists (W_acquire n j), (at_hart hw s). split; [|split; [|simpl; lia]].
    + cbn [wcode]. rewrite bool_decide_eq_false_2 by done. now apply seq_ret, seq_ret.
    + now apply (inv_quiet a (W_test_me n j) s _ (Harts.on hw (lks s))).
Qed.
(** [acquire(&p->lock)]. *)
Lemma waker_takes_p a n j s : inv a (W_acquire n j) s -> moves a (W_acquire n j) s.
Proof.
  intros Hi. open_inv Hi. assert (3 <= a)%nat as Ha by now apply Iaf.
  destruct (decide (j = i /\ a < 9)%nat) as [[-> Ha9]|Hfree].
  - right. split; [|done]. cbn [wcode]. apply seq_spin; [done|]. apply seq_spin; [done|]. apply act_spin. unfold lk, zoom. simpl.
    rewrite (acquire_spins hw hs 1 pw (Lproc i) (lks s)); [done|done|lia| |done]. rewrite Ip. unfold plock_of.
    now rewrite (proj2 (Nat.leb_le 2 a)), (proj2 (Nat.leb_le a 8)) by lia.
  - left. assert (j = i -> a = 9)%nat as Ha9 by lia.
    destruct (acquire_at hw 1 pw (Lproc j) (lks s) Ihw ltac:(lia)) as (K & E & C1 & C2 & C3 & C4).
    { destruct (decide (j = i)) as [->|Hj]; [rewrite Ip, Ha9 by done|rewrite Ij by done]; done. }
    exists (W_get n j), (set_lks K s). split; [|split; [|simpl; lia]].
    + cbn [wcode]. apply seq_ret; [done|]. apply seq_ret; [done|]. exact (act_ret _ _ _ _ _ (lk_step _ _ _ _ _ E)).
    + apply (inv_waker a (W_acquire n j) s _ _ p p); try done; simpl.
      * rewrite C3 by apply Hl. rewrite Il. done.
      * unfold plock_of. simpl. destruct (decide (j = i)) as [->|Hj].
         -- rewrite C2, Ha9 by done. simpl. now rewrite bool_decide_eq_true_2.
         -- rewrite C3 by congruence. rewrite Ip. unfold plock_of. simpl. rewrite (bool_decide_eq_false_2 (Some j = Some i)) by congruence. done.
      * intros j' Hj'. destruct (decide (j' = j)) as [->|Hjj]; [rewrite bool_decide_eq_true_2 by done; exact C2|].
         rewrite bool_decide_eq_false_2 by congruence. rewrite C3, Ij by congruence. done.
      * intros [[= ->]|H]; [now apply Ha9|]. apply Ilo. now right.
      * now destruct (i <? j)%nat.
Qed.
(** [p->state, p->chan]. *)
Lemma waker_reads_p a n j s : inv a (W_get n j) s -> moves a (W_get n j) s.
Proof.
  intros Hi. open_inv Hi. left. assert (3 <= a)%nat as Ha by now apply Iaf. destruct (lookup_lt_is_Some_2 (procs s) j) as [q Hq]; [simpl in Iw; lia|].
  exists (W_test n j q), (at_hart hw s). split; [|split; [|simpl; lia]].
  - assert (getproc j (at_hart hw s) = Ret q (at_hart hw s)) as Hg by (unfold getproc, orfault; simpl; now rewrite Hq).
    cbn [wcode]. apply seq_ret; [done|]. apply seq_ret; [done|]. exact (act_ret _ _ _ _ _ Hg).
  - apply (inv_quiet a (W_get n j) s _ (Harts.on hw (lks s))); try done. intros n' q' [= _ -> ->]. done.
Qed.
(** The test. *)
Lemma waker_tests_p a n j q s : inv a (W_test n j q) s -> moves a (W_test n j q) s.
Proof.
  intros Hi. open_inv Hi. left. assert (3 <= a)%nat as Ha by now apply Iaf. destruct (lookup_lt_is_Some_2 (procs s) j) as [q' Hq']; [simpl in Iw; lia|].
  set (b := bool_decide (state q = SLEEPING) && bool_decide (chan q = ch)).
  exists (W_release n j), (if b then set_procs (<[j := set_state RUNNABLE q']> (procs s)) (at_hart hw s) else at_hart hw s). split; [|split; [|simpl; lia]].
  - assert ((if b then updproc j (set_state RUNNABLE) else ret tt) (at_hart hw s) =
      Ret tt (if b then set_procs (<[j := set_state RUNNABLE q']> (procs s)) (at_hart hw s) else at_hart hw s)) as Hu by (destruct b; [now apply upd_step|done]).
    cbn [wcode]. apply seq_ret; [done|]. apply seq_ret; [done|]. exact (act_ret _ _ _ _ _ Hu).
  - assert (j = i -> a = 9%nat /\ q' = p /\ b = true) as Hji.
    { intros ->. assert (a = 9%nat) as -> by (apply Ilo; now left). split; [done|]. split; [congruence|]. unfold b. rewrite (Htq n q eq_refl).
      rewrite Hst by lia. rewrite Hch by lia. simpl. rewrite Nat.ltb_irrefl. now rewrite !bool_decide_eq_true_2. }
    pose proof (lookup_lt_Some _ _ _ Hq') as Hjl.
    apply (inv_waker a (W_test n j q) s _ _ p (if decide (j = i) then set_state RUNNABLE p else p)); try done; simpl.
    + destruct b; simpl; [now rewrite length_insert|done].
    + now destruct b.
    + now destruct b.
    + destruct b; exact Il.
    + destruct b; exact Ip.
    + destruct b; exact Ij.
    + intros [H|H]; [apply Ilo; now left|]. apply Nat.leb_le in H. destruct (decide (i = j)) as [->|]; [now apply Hji|]. apply Ilo. right. simpl. apply Nat.ltb_lt. lia.
    + destruct (decide (j = i)) as [Ej|Ej]; [destruct (Hji Ej) as (_ & -> & ->); subst j; simpl; now rewrite list_lookup_insert_eq|].
      destruct b; simpl; [now rewrite list_lookup_insert_ne by done|done].
    + now destruct (decide (j = i)).
    + destruct (decide (j = i)) as [->|Ej]; [rewrite (proj2 (Nat.leb_le i i)), Nat.ltb_irrefl by lia; done|].
      destruct (Nat.leb_spec i j), (Nat.ltb_spec i j); try done; lia.
    + intros H. apply Nat.ltb_lt in H. apply Nat.leb_le. lia.
Qed.
(** [release(&p->lock)]. *)
Lemma waker_gives_p a n j s : inv a (W_release n j) s -> moves a (W_release n j) s.
Proof.
  intros Hi. open_inv Hi. left. assert (3 <= a)%nat as Ha by now apply Iaf. assert (j = i -> a = 9%nat) as Ha9 by (intros ->; apply Ilo; now left).
  destruct (release_at hw 2 pw (Lproc j) (lks s) Ihw ltac:(lia)) as (K & E & C1 & C2 & C3 & C4).
  { destruct (decide (j = i)) as [->|Hj]; [rewrite Ip, Ha9 by done; unfold plock_of; simpl; now rewrite bool_decide_eq_true_2|]. rewrite Ij by done. simpl. now rewrite bool_decide_eq_true_2. }
  exists (W_next n j), (set_lks K s). split; [|split; [|simpl; lia]].
  - cbn [wcode]. apply seq_ret; [done|]. apply seq_ret; [done|]. exact (last_ret _ _ _ (lk_step _ _ _ _ _ E)).
  - apply (inv_waker a (W_release n j) s _ _ p p); try done; simpl.
    + rewrite C3 by apply Hl. exact Il.
    + destruct (decide (j = i)) as [->|Hj]; [rewrite C2, Ha9 by done; done|]. rewrite C3, Ip by congruence. unfold plock_of. simpl.
      now rewrite (bool_decide_eq_false_2 (Some j = Some i)) by congruence.
    + intros j' Hj'. destruct (decide (j' = j)) as [->|Hjj]; [exact C2|]. rewrite C3, Ij by congruence. simpl. now rewrite bool_decide_eq_false_2 by congruence.
    + intros [H|H]; [discriminate H|]. apply Ilo. now right.
    + now destruct (i <=? j)%nat.
Qed.
(** [p++]. *)
Lemma waker_next a n j s : inv a (W_next n j) s -> moves a (W_next n j) s.
Proof.
  intros Hi. open_inv Hi. left. assert (3 <= a)%nat as Ha by now apply Iaf. exists (W_loop n (S j)), (at_hart hw s). split; [cbn [wcode]; now apply seq_ret|]. split; [|simpl; lia].
  apply (inv_quiet a (W_next n j) s _ (Harts.on hw (lks s))); try done. simpl in *. lia.
Qed.
(** [release(lk)]. *)
Lemma waker_gives_l a s : inv a W_end s -> moves a W_end s.
Proof.
  intros Hi. open_inv Hi. left. assert (a = 9%nat) as -> by (apply Ilo; now right). destruct (release_at hw 1 pw l (lks s) Ihw ltac:(lia)) as (K & E & C1 & C2 & C3 & C4); [now rewrite Il|].
  exists W_done, (set_lks K s). split; [exact (last_ret _ _ _ (lk_step _ _ _ _ _ E))|]. split; [|simpl; lia].
  apply (inv_waker 9 W_end s _ _ p p); try done; simpl.
  - rewrite C3, Ip by (intros E'; now apply (Hl i)). done.
  - intros j Hj. rewrite C3 by (intros E'; now apply (Hl j)). now apply Ij.
  - lia.
Qed.
Lemma waker_moves a w s : inv a w s -> w <> W_done -> moves a w s.
Proof.
  destruct w; intros Hi Hd; [now apply waker_takes_l|now apply waker_loop|now apply waker_tests_me|now apply waker_takes_p|now apply waker_reads_p|now apply waker_tests_p|
    now apply waker_gives_p|now apply waker_next|now apply waker_gives_l|done].
Qed.

(** *** All interleavings *)

Definition both (a b : code) : gmap Z code := <[hs := a]> {[ hw := b ]}.
Definition good (a : nat) (w : wpos) (y : sys) : Prop := codes y = both (scode a) (wcode w) /\ inv a w (mem y).
Definition left_to_do (a : nat) (w : wpos) : nat := (9 - a) + wleft w.

Lemma both_cases a b h c : both a b !! h = Some c -> (h = hs /\ c = a) \/ (h = hw /\ c = b).
Proof.
  unfold both. intros H. apply lookup_insert_Some in H as [[<- <-]|[Hh H]]; [now left|]. apply lookup_singleton_Some in H as [<- <-]. now right.
Qed.
Lemma both_s a b : both a b !! hs = Some a.
Proof. apply lookup_insert_eq. Qed.
Lemma both_w a b : both a b !! hw = Some b.
Proof. unfold both. rewrite lookup_insert_ne by done. apply lookup_singleton_eq. Qed.
Lemma both_put_s a b c : <[hs := c]> (both a b) = both c b.
Proof. apply insert_insert_eq. Qed.
Lemma both_put_w a b c : <[hw := c]> (both a b) = both a c.
Proof. unfold both. rewrite insert_insert_ne by congruence. f_equal. apply insert_singleton_eq. Qed.

Lemma good_step a w y y' : good a w y -> hstep kpt y y' -> exists a' w', good a' w' y' /\ (left_to_do a' w' < left_to_do a w)%nat.
Proof.
  intros [Hc Hi] Hstep. assert ((a < 9)%nat \/ scode a = Done) as Ha.
  { pose proof (iv_a _ _ _ Hi). destruct (decide (a = 9%nat)) as [->|]; [now right|left; lia]. }
  destruct Hstep as [h c c' s' y Hh E|h c s' k c0 j y Hh E Hcu Hcp]; rewrite Hc in Hh; apply both_cases in Hh as [[-> ->]|[-> ->]].
  - destruct Ha as [Ha|Ha]; [|rewrite Ha in E; discriminate E]. destruct (sleeper_moves a w _ Hi Ha) as (s2 & Hi2 & [E2|(_ & (k & E2) & _)]); rewrite E in E2; [|discriminate E2].
    injection E2 as -> ->. exists (S a), w. split; [|unfold left_to_do; lia]. split; [simpl; now rewrite Hc, both_put_s|done].
  - destruct (decide (w = W_done)) as [->|Hw]; [discriminate E|]. destruct (waker_moves a w _ Hi Hw) as [(w' & s2 & E2 & Hi2 & Hlt)|[E2 _]]; rewrite E in E2; [|discriminate E2].
    injection E2 as -> ->. exists a, w'. split; [|unfold left_to_do; lia]. split; [simpl; now rewrite Hc, both_put_w|done].
  - destruct Ha as [Ha|Ha]; [|rewrite Ha in E; discriminate E]. destruct (sleeper_moves a w _ Hi Ha) as (s2 & Hi2 & [E2|(-> & (k2 & E2) & c & Hcu2 & Hcp2)]); rewrite E in E2; [discriminate E2|].
    injection E2 as -> _. assert (c = c0) as -> by congruence. assert (j = i) as -> by congruence.
    exists 6%nat, w. split; [|unfold left_to_do; lia]. split; [simpl; rewrite Hc; apply both_put_s|done].
  - destruct (decide (w = W_done)) as [->|Hw]; [discriminate E|]. destruct (waker_moves a w _ Hi Hw) as [(w' & s2 & E2 & _)|[E2 _]]; rewrite E in E2; discriminate E2.
Qed.
Lemma good_progress a w y : good a w y -> (a < 9)%nat \/ w <> W_done -> exists y', hstep kpt y y'.
Proof.
  intros [Hc Hi] H. destruct (decide (a < 9)%nat) as [Ha|Ha].
  - destruct (sleeper_moves a w _ Hi Ha) as (s2 & _ & [E|(_ & (k & E) & c & Hcu & Hcp)]); eexists.
    + eapply hstep_run; [rewrite Hc; apply both_s|exact E].
    + eapply hstep_switch; [rewrite Hc; apply both_s|exact E|exact Hcu|exact Hcp].
  - destruct H as [H|Hw]; [lia|]. destruct (waker_moves a w _ Hi Hw) as [(w' & s2 & E & _)|[_ Ha']]; [|lia].
    eexists. eapply hstep_run; [rewrite Hc; apply both_w|exact E].
Qed.
Lemma good_steps n y y' : nsteps (hstep kpt) n y y' -> forall a w, good a w y -> exists a' w', good a' w' y' /\ (n + left_to_do a' w' <= left_to_do a w)%nat.
Proof.
  induction 1 as [|n y y1 y' Hs _ IH]; intros a w Hg; [exists a, w; split; [done|lia]|]. destruct (good_step a w y y1 Hg Hs) as (a1 & w1 & Hg1 & H1).
  destruct (IH a1 w1 Hg1) as (a' & w' & Hg' & H'). exists a', w'. split; [done|lia].
Qed.
Lemma wcode_done w : wcode w = Done -> w = W_done.
Proof. destruct w; done. Qed.
Lemma good_woken a w y : good a w y -> codes y !! hw = Some Done -> exists p, procs (mem y) !! i = Some p /\ state p = RUNNABLE /\ chan p = ch.
Proof.
  intros [Hc Hi] Hd. rewrite Hc, both_w in Hd. injection Hd as Hd. apply wcode_done in Hd as ->. destruct (iv_proc _ _ _ Hi) as (p & Hp & H1 & H2 & _).
  assert (a = 9%nat) as -> by (apply (iv_locked _ _ _ Hi); now right). exists p. split; [done|]. split; [apply H2; lia|apply H1; lia].
Qed.
End Race.

(** ** Property *)

(** The start: process [i] on hart [hs] holds the condition lock [l], having
    seen its condition false, and calls [sleep]; hart [hw] is about to take
    [l] to make the condition true and call [wakeup]. *)
Record racing (l : lockid) (i : nat) (hs hw : Z) (pw : option nat) (s : mach) : Prop := {
  rc_harts : hs <> hw;
  rc_hs : cpu_ok hs 1 (Some i) (lks s);
  rc_hw : cpu_ok hw 0 pw (lks s);
  rc_other : pw <> Some i;
  rc_l : getlock (lks s) l = held hs /\ forall j, l <> Lproc j;
  rc_procs : (forall j, getlock (lks s) (Lproc j) = unlocked) /\ length (procs s) = 64%nat /\ (i < 64)%nat;
}.
Definition start (ch : wchan) (l : lockid) (hs hw : Z) (s : mach) : sys := Sys s (both hs hw (sleep_code ch l) (waker_code ch l)).

Lemma start_good ch l i hs hw pw kpt s : racing l i hs hw pw s -> good ch l i hs hw pw kpt 0 W_start (start ch l hs hw s).
Proof.
  intros [H1 H2 H3 H4 [H5 H5'] (H6 & H7 & H8)]. split; [done|]. destruct (lookup_lt_is_Some_2 (procs s) i) as [p Hp]; [lia|].
  constructor; try done; simpl; [lia|intros [H|H]; discriminate H|]. exists p. split; [done|]. split; [lia|]. split; [lia|done].
Qed.

(** C31: no wakeup is lost.  A process that holds the condition lock calls
    [sleep] on one hart while another hart is waiting for the lock to call
    [wakeup] on the same channel.  Split at its statements, the code of the
    two is that of [sleep] and [wakeup]; and however the statements of the
    two harts interleave, every execution ends, within 461 steps; it stops
    only when both harts are through, the locks are free again and the process is
    RUNNABLE; and whenever the waking hart is through, the process is
    RUNNABLE. *)
Theorem no_lost_wakeup ch l i hs hw pw kpt s : racing l i hs hw pw s ->
  run (sleep_code ch l) = sleep ch l /\ run (wakeup_code ch) = wakeup ch /\
  (forall n y, nsteps (hstep kpt) n (start ch l hs hw s) y -> (n <= 461)%nat) /\
  (forall y, rtc (hstep kpt) (start ch l hs hw s) y ->
    ((forall y', ~ hstep kpt y y') -> codes y = both hs hw Done Done /\ getlock (lks (mem y)) l = unlocked /\ getlock (lks (mem y)) (Lproc i) = unlocked) /\
    (codes y !! hw = Some Done -> exists p, procs (mem y) !! i = Some p /\ state p = RUNNABLE /\ chan p = ch)).
Proof.
  intros Hr. pose proof (start_good ch l i hs hw pw kpt s Hr) as Hg. destruct Hr as [H1 [H2 _] [H3 _] H4 [_ H5] _].
  split; [apply run_sleep|]. split; [apply run_wakeup|]. split.
  - intros n y Hn. destruct (good_steps ch l i hs hw pw kpt H2 H3 H1 H4 H5 n _ y Hn 0 W_start Hg) as (a & w & _ & H). change (left_to_do 0 W_start) with 461%nat in H. lia.
  - intros y Hy. apply rtc_nsteps in Hy as [n Hn]. destruct (good_steps ch l i hs hw pw kpt H2 H3 H1 H4 H5 n _ y Hn 0 W_start Hg) as (a & w & Hga & _). split.
    + intros Hstop. assert (a = 9%nat /\ w = W_done) as [-> ->].
      { pose proof (iv_a _ _ _ _ _ _ _ _ _ (proj2 Hga)) as Ha. destruct (decide (a = 9%nat /\ w = W_done)) as [|Hn9]; [done|]. exfalso.
        destruct (good_progress ch l i hs hw pw kpt H2 H3 H1 H4 H5 a w y Hga) as [y' Hy']; [|now apply (Hstop y')].
        destruct (decide (a = 9%nat)) as [->|]; [right; tauto|left; lia]. }
      destruct Hga as [Hc Hi]. split; [exact Hc|]. split; [apply Hi|apply Hi].
    + now apply (good_woken ch l i hs hw pw kpt H1 a w).
Qed.

Module Example.
(** Hart 0 runs process 0 with the lock of the tick counter; hart 1 is in the
    timer interrupt. *)
Definition cpu_at (pr : option nat) (n : Z) : cpu := Cpu pr Proc.Example.ctx0 n 0 (set_sstatus 0 (csr Harts.cpu0)).
Definition clocks : mach :=
  set_lks (Lockst 0 [cpu_at (Some 0%nat) 1; cpu_at None 0] {[ Lticks := held 0 ]}) Proc.Example.machine.
Lemma clocks_race : racing Lticks 0 0 1 None clocks.
Proof.
  constructor; [done|..|done|split; done|].
  - split; [lia|]. eexists. split; [reflexivity|]. repeat split; simpl; lia || done.
  - split; [lia|]. eexists. split; [reflexivity|]. repeat split; simpl; lia || done.
  - split; [|split; [reflexivity|lia]]. intros j. unfold getlock. simpl. rewrite lookup_singleton_ne by discriminate. done.
Qed.
Lemma no_lost_wakeup_witness :
  (forall n y, nsteps (hstep 0) n (start ChTicks Lticks 0 1 clocks) y -> (n <= 461)%nat) /\
  (forall y, rtc (hstep 0) (start ChTicks Lticks 0 1 clocks) y -> (forall y', ~ hstep 0 y y') ->
    exists p, procs (mem y) !! 0%nat = Some p /\ state p = RUNNABLE).
Proof.
  destruct (no_lost_wakeup ChTicks Lticks 0 0 1 None 0 clocks clocks_race) as (_ & _ & H1 & H2). split; [exact H1|].
  intros y Hy Hstop. destruct (H2 y Hy) as [H3 H4]. destruct (H3 Hstop) as [Hc _]. destruct H4 as (p & Hp & Hs & _); [rewrite Hc; reflexivity|]. eauto.
Defined.

(** *** The order of the two locks matters *)

(** The harts take turns as [turns] says. *)
Fixpoint play (turns : list Z) (y : sys) : option sys :=
  match turns with
  | [] => Some y
  | h :: turns =>
    c ← codes y !! h;
    match cstep c (at_hart h (mem y)) with
    | Ret c' s' => play turns (Sys s' (<[h := c']> (codes y)))
    | Switch s' _ => c0 ← cur (lks s'); i ← c_proc c0; play turns (Sys s' (<[h := scheduler_code 0 i]> (codes y)))
    | _ => None
    end
  end.
Lemma play_steps turns : forall y y', play turns y = Some y' -> rtc (hstep 0) y y'.
Proof.
  induction turns as [|h turns IH]; intros y y'; simpl; [intros [= ->]; constructor|]. destruct (codes y !! h) as [c|] eqn:Hh; [|done]. simpl.
  destruct (cstep c (at_hart h (mem y))) as [c' s'| | | |s' k] eqn:E; try done.
  - intros H. eapply rtc_l; [eapply hstep_run; eauto|]. now apply IH.
  - destruct (cur (lks s')) as [c0|] eqn:Hc; [|done]. simpl. destruct (c_proc c0) as [i|] eqn:Hi; [|done]. simpl.
    intros H. eapply rtc_l; [eapply hstep_switch; eauto|]. now apply IH.
Qed.

(** [sleep] with its first two calls in the other order. *)
Definition sleep_swapped (ch : wchan) (l : lockid) : code :=
  Act curp (fun p =>
  Act (lk (release l)) (fun _ =>
  Act (lk (acquire (Lproc p))) (fun _ =>
  Act (updproc p (set_chan ch)) (fun _ =>
  Act (updproc p (set_state SLEEPING)) (fun _ =>
  Last sched))))).
Definition asleep (y : sys) : bool :=
  match codes y !! 0, codes y !! 1, procs (mem y) !! 0%nat with
  | Some Done, Some Done, Some p => bool_decide (state p = SLEEPING)
  | _, _, _ => false
  end.
(** The hart that wakes runs between the two calls: the wakeup is lost, and
    the process sleeps when both harts are through. *)
Lemma swapped_loses_wakeup : exists y, rtc (hstep 0) (Sys clocks (both 0 1 (sleep_swapped ChTicks Lticks) (waker_code ChTicks Lticks))) y /\ asleep y = true.
Proof.
  set (turns := replicate 2 0 ++ replicate 451 1 ++ replicate 7 0).
  destruct (play turns (Sys clocks (both 0 1 (sleep_swapped ChTicks Lticks) (waker_code ChTicks Lticks)))) as [y|] eqn:E; [|vm_compute in E; discriminate E].
  exists y. split; [now apply (play_steps turns)|]. apply (f_equal (fun o => asleep <$> o)) in E. vm_compute in E. now injection E.
Qed.
End Example.
