(* ===== verification/Kstate.v ===== *)
(** * The kernel's state above the machine

    Sleep locks, the buffer cache and the disk, the log, the in-memory
    inodes and files, pipes: one record [kern] that contains the machine
    state [mach], so that every component's operations compose. *)

From S2P Require Import Prelude.
From S2P Require Import Mach.
From S2P Require Import Spinlock.
From S2P Require Import Kalloc.
From S2P Require Import Proc.

(** ** On-disk constants (fs.h, stat.h) *)

Definition ROOTINO : Z := 1.
Definition BSIZE : Z := 1024.
Definition FSMAGIC : Z := 270544960.
Definition NDIRECT : Z := 12.
Definition NINDIRECT : Z := BSIZE / 4.
Definition MAXFILE : Z := NDIRECT + NINDIRECT.
Definition IPB : Z := BSIZE / 64.
Definition BPB : Z := BSIZE * 8.
Definition DIRSIZ : Z := 14.
Definition T_DIR : Z := 1.
Definition T_FILE : Z := 2.
Definition T_DEVICE : Z := 3.
Definition PIPESIZE : Z := 512.
#[export] Hint Unfold ROOTINO BSIZE FSMAGIC NDIRECT DIRSIZ T_DIR T_FILE T_DEVICE PIPESIZE BPB : kconst.

(** ** Components *)

(** The fields a sleep lock adds to its spin lock. *)
Record sleeplock : Type := Sleeplock {
  sl_locked : bool;
  sl_pid : Z;
}.
Definition set_sl_locked (x : bool) (r : sleeplock) : sleeplock :=
  Sleeplock x (sl_pid r).
Definition set_sl_pid (x : Z) (r : sleeplock) : sleeplock :=
  Sleeplock (sl_locked r) x.

(** A buffer; its place in the cache list is in [lru] below. *)
Record buf : Type := Buf {
  b_valid : bool;  (* has data been read from disk? *)
  b_disk : bool;  (* does disk own buf? *)
  b_dev : Z;
  b_blockno : Z;
  b_refcnt : Z;
  b_data : list Z;
}.
Definition set_b_valid (x : bool) (r : buf) : buf :=
  Buf x (b_disk r) (b_dev r) (b_blockno r) (b_refcnt r) (b_data r).
Definition set_b_disk (x : bool) (r : buf) : buf :=
  Buf (b_valid r) x (b_dev r) (b_blockno r) (b_refcnt r) (b_data r).
Definition set_b_dev (x : Z) (r : buf) : buf :=
  Buf (b_valid r) (b_disk r) x (b_blockno r) (b_refcnt r) (b_data r).
Definition set_b_blockno (x : Z) (r : buf) : buf :=
  Buf (b_valid r) (b_disk r) (b_dev r) x (b_refcnt r) (b_data r).
Definition set_b_refcnt (x : Z) (r : buf) : buf :=
  Buf (b_valid r) (b_disk r) (b_dev r) (b_blockno r) x (b_data r).
Definition set_b_data (x : list Z) (r : buf) : buf :=
  Buf (b_valid r) (b_disk r) (b_dev r) (b_blockno r) (b_refcnt r) x.


Record log : Type := Log {
  l_start : Z;
  l_outstanding : Z;
  l_committing : bool;
  l_dev : Z;
  l_ncommit : Z;
  l_n : Z;  (* log.lh.n *)
  l_block : list Z;  (* log.lh.block[LOGBLOCKS] *)
}.
Definition set_l_start (x : Z) (r : log) : log :=
  Log x (l_outstanding r) (l_committing r) (l_dev r) (l_ncommit r) (l_n r) (l_block r).
Definition set_l_outstanding (x : Z) (r : log) : log :=
  Log (l_start r) x (l_committing r) (l_dev r) (l_ncommit r) (l_n r) (l_block r).
Definition set_l_committing (x : bool) (r : log) : log :=
  Log (l_start r) (l_outstanding r) x (l_dev r) (l_ncommit r) (l_n r) (l_block r).
Definition set_l_dev (x : Z) (r : log) : log :=
  Log (l_start r) (l_outstanding r) (l_committing r) x (l_ncommit r) (l_n r) (l_block r).
Definition set_l_ncommit (x : Z) (r : log) : log :=
  Log (l_start r) (l_outstanding r) (l_committing r) (l_dev r) x (l_n r) (l_block r).
Definition set_l_n (x : Z) (r : log) : log :=
  Log (l_start r) (l_outstanding r) (l_committing r) (l_dev r) (l_ncommit r) x (l_block r).
Definition set_l_block (x : list Z) (r : log) : log :=
  Log (l_start r) (l_outstanding r) (l_committing r) (l_dev r) (l_ncommit r) (l_n r) x.


Record superblock : Type := Superblock {
  sb_magic : Z;
  sb_size : Z;
  sb_nblocks : Z;
  sb_ninodes : Z;
  sb_nlog : Z;
  sb_logstart : Z;
  sb_inodestart : Z;
  sb_bmapstart : Z;
}.
Definition set_sb_magic (x : Z) (r : superblock) : superblock :=
  Superblock x (sb_size r) (sb_nblocks r) (sb_ninodes r) (sb_nlog r) (sb_logstart r) (sb_inodestart r) (sb_bmapstart r).
Definition set_sb_size (x : Z) (r : superblock) : superblock :=
  Superblock (sb_magic r) x (sb_nblocks r) (sb_ninodes r) (sb_nlog r) (sb_logstart r) (sb_inodestart r) (sb_bmapstart r).
Definition set_sb_nblocks (x : Z) (r : superblock) : superblock :=
  Superblock (sb_magic r) (sb_size r) x (sb_ninodes r) (sb_nlog r) (sb_logstart r) (sb_inodestart r) (sb_bmapstart r).
Definition set_sb_ninodes (x : Z) (r : superblock) : superblock :=
  Superblock (sb_magic r) (sb_size r) (sb_nblocks r) x (sb_nlog r) (sb_logstart r) (sb_inodestart r) (sb_bmapstart r).
Definition set_sb_nlog (x : Z) (r : superblock) : superblock :=
  Superblock (sb_magic r) (sb_size r) (sb_nblocks r) (sb_ninodes r) x (sb_logstart r) (sb_inodestart r) (sb_bmapstart r).
Definition set_sb_logstart (x : Z) (r : superblock) : superblock :=
  Superblock (sb_magic r) (sb_size r) (sb_nblocks r) (sb_ninodes r) (sb_nlog r) x (sb_inodestart r) (sb_bmapstart r).
Definition set_sb_inodestart (x : Z) (r : superblock) : superblock :=
  Superblock (sb_magic r) (sb_size r) (sb_nblocks r) (sb_ninodes r) (sb_nlog r) (sb_logstart r) x (sb_bmapstart r).
Definition set_sb_bmapstart (x : Z) (r : superblock) : superblock :=
  Superblock (sb_magic r) (sb_size r) (sb_nblocks r) (sb_ninodes r) (sb_nlog r) (sb_logstart r) (sb_inodestart r) x.


Record inode : Type := Inode {
  i_dev : Z;
  i_inum : Z;
  i_ref : Z;
  i_valid : bool;
  i_type : Z;
  i_major : Z;
  i_minor : Z;
  i_nlink : Z;
  i_size : Z;
  i_addrs : list Z;  (* addrs[NDIRECT + 1] *)
}.
Definition set_i_dev (x : Z) (r : inode) : inode :=
  Inode x (i_inum r) (i_ref r) (i_valid r) (i_type r) (i_major r) (i_minor r) (i_nlink r) (i_size r) (i_addrs r).
Definition set_i_inum (x : Z) (r : inode) : inode :=
  Inode (i_dev r) x (i_ref r) (i_valid r) (i_type r) (i_major r) (i_minor r) (i_nlink r) (i_size r) (i_addrs r).
Definition set_i_ref (x : Z) (r : inode) : inode :=
  Inode (i_dev r) (i_inum r) x (i_valid r) (i_type r) (i_major r) (i_minor r) (i_nlink r) (i_size r) (i_addrs r).
Definition set_i_valid (x : bool) (r : inode) : inode :=
  Inode (i_dev r) (i_inum r) (i_ref r) x (i_type r) (i_major r) (i_minor r) (i_nlink r) (i_size r) (i_addrs r).
Definition set_i_type (x : Z) (r : inode) : inode :=
  Inode (i_dev r) (i_inum r) (i_ref r) (i_valid r) x (i_major r) (i_minor r) (i_nlink r) (i_size r) (i_addrs r).
Definition set_i_major (x : Z) (r : inode) : inode :=
  Inode (i_dev r) (i_inum r) (i_ref r) (i_valid r) (i_type r) x (i_minor r) (i_nlink r) (i_size r) (i_addrs r).
Definition set_i_minor (x : Z) (r : inode) : inode :=
  Inode (i_dev r) (i_inum r) (i_ref r) (i_valid r) (i_type r) (i_major r) x (i_nlink r) (i_size r) (i_addrs r).
Definition set_i_nlink (x : Z) (r : inode) : inode :=
  Inode (i_dev r) (i_inum r) (i_ref r) (i_valid r) (i_type r) (i_major r) (i_minor r) x (i_size r) (i_addrs r).
Definition set_i_size (x : Z) (r : inode) : inode :=
  Inode (i_dev r) (i_inum r) (i_ref r) (i_valid r) (i_type r) (i_major r) (i_minor r) (i_nlink r) x (i_addrs r).
Definition set_i_addrs (x : list Z) (r : inode) : inode :=
  Inode (i_dev r) (i_inum r) (i_ref r) (i_valid r) (i_type r) (i_major r) (i_minor r) (i_nlink r) (i_size r) x.

Inductive ftype : Type := FD_NONE | FD_PIPE | FD_INODE | FD_DEVICE.
#[export] Instance ftype_eq_dec : EqDecision ftype.
Proof. solve_decision. Defined.


Record file : Type := File {
  f_type : ftype;
  f_ref : Z;
  f_readable : bool;
  f_writable : bool;
  f_pipe : Z;
  f_ip : nat;
  f_off : Z;
  f_major : Z;
}.
Definition set_f_type (x : ftype) (r : file) : file :=
  File x (f_ref r) (f_readable r) (f_writable r) (f_pipe r) (f_ip r) (f_off r) (f_major r).
Definition set_f_ref (x : Z) (r : file) : file :=
  File (f_type r) x (f_readable r) (f_writable r) (f_pipe r) (f_ip r) (f_off r) (f_major r).
Definition set_f_readable (x : bool) (r : file) : file :=
  File (f_type r) (f_ref r) x (f_writable r) (f_pipe r) (f_ip r) (f_off r) (f_major r).
Definition set_f_writable (x : bool) (r : file) : file :=
  File (f_type r) (f_ref r) (f_readable r) x (f_pipe r) (f_ip r) (f_off r) (f_major r).
Definition set_f_pipe (x : Z) (r : file) : file :=
  File (f_type r) (f_ref r) (f_readable r) (f_writable r) x (f_ip r) (f_off r) (f_major r).
Definition set_f_ip (x : nat) (r : file) : file :=
  File (f_type r) (f_ref r) (f_readable r) (f_writable r) (f_pipe r) x (f_off r) (f_major r).
Definition set_f_off (x : Z) (r : file) : file :=
  File (f_type r) (f_ref r) (f_readable r) (f_writable r) (f_pipe r) (f_ip r) x (f_major r).
Definition set_f_major (x : Z) (r : file) : file :=
  File (f_type r) (f_ref r) (f_readable r) (f_writable r) (f_pipe r) (f_ip r) (f_off r) x.

(** A pipe lives in a page of its own; pipes are found by its address. *)
Record pipe : Type := Pipe {
  p_data : list Z;  (* data[PIPESIZE] *)
  p_nread : Z;
  p_nwrite : Z;
  p_readopen : bool;
  p_writeopen : bool;
}.
Definition set_p_data (x : list Z) (r : pipe) : pipe :=
  Pipe x (p_nread r) (p_nwrite r) (p_readopen r) (p_writeopen r).
Definition set_p_nread (x : Z) (r : pipe) : pipe :=
  Pipe (p_data r) x (p_nwrite r) (p_readopen r) (p_writeopen r).
Definition set_p_nwrite (x : Z) (r : pipe) : pipe :=
  Pipe (p_data r) (p_nread r) x (p_readopen r) (p_writeopen r).
Definition set_p_readopen (x : bool) (r : pipe) : pipe :=
  Pipe (p_data r) (p_nread r) (p_nwrite r) x (p_writeopen r).
Definition set_p_writeopen (x : bool) (r : pipe) : pipe :=
  Pipe (p_data r) (p_nread r) (p_nwrite r) (p_readopen r) x.

(** The disk: its contents at power-on and the writes since, oldest first. *)
Record disk : Type := Disk { d_init : gmap Z (list Z); d_hist : list (Z * list Z) }.

Definition zero_block : list Z := replicate (Z.to_nat BSIZE) 0.
Definition dapply (m : gmap Z (list Z)) (w : Z * list Z) : gmap Z (list Z) := <[fst w := snd w]> m.
Definition dmap (d : disk) : gmap Z (list Z) := foldl dapply (d_init d) (d_hist d).
Definition dread (d : disk) (b : Z) : list Z := default zero_block (dmap d !! b).
Definition dwrite (d : disk) (b : Z) (v : list Z) : disk := Disk (d_init d) (d_hist d ++ [(b, v)]).

(** The console: an input line being edited between [w] and [e], lines
    waiting to be read between [r] and [w]. *)
Record console : Type := Console {
  c_buf : list Z;  (* buf[INPUT_BUF_SIZE] *)
  c_r : Z;
  c_w : Z;
  c_e : Z;
}.
Definition set_c_buf (x : list Z) (r : console) : console :=
  Console x (c_r r) (c_w r) (c_e r).
Definition set_c_r (x : Z) (r : console) : console :=
  Console (c_buf r) x (c_w r) (c_e r).
Definition set_c_w (x : Z) (r : console) : console :=
  Console (c_buf r) (c_r r) x (c_e r).
Definition set_c_e (x : Z) (r : console) : console :=
  Console (c_buf r) (c_r r) (c_w r) x.

(** The driver's [tx_busy] and the UART itself: the line status register,
    the bytes received and not yet read, the bytes sent, oldest first. *)
Record uart : Type := Uart {
  tx_busy : bool;
  u_lsr_idle : bool;
  u_in : list Z;
  u_out : list Z;
}.
Definition set_tx_busy (x : bool) (r : uart) : uart :=
  Uart x (u_lsr_idle r) (u_in r) (u_out r).
Definition set_u_in (x : list Z) (r : uart) : uart :=
  Uart (tx_busy r) (u_lsr_idle r) x (u_out r).
Definition set_u_out (x : list Z) (r : uart) : uart :=
  Uart (tx_busy r) (u_lsr_idle r) (u_in r) x.

(** ** The whole *)
Record kern : Type := Kern {
  km : mach;
  slocks : gmap Z sleeplock;  (* by lock *)
  bufs : list buf;  (* bcache.buf *)
  lru : list nat;  (* the cache list, from head.next *)
  dsk : disk;
  lg : log;
  sb : superblock;
  itable : list inode;
  ftable : list file;
  pipes : gmap Z pipe;  (* by the address of their page *)
  cons : console;
  uart_ : uart;
  devsw : list bool;  (* entry i: is it connected to the console? *)
  first : bool;  (* forkret: no process has run yet *)
}.
Definition set_km (x : mach) (r : kern) : kern :=
  Kern x (slocks r) (bufs r) (lru r) (dsk r) (lg r) (sb r) (itable r) (ftable r) (pipes r) (cons r) (uart_ r) (devsw r) (first r).
Definition set_slocks (x : gmap Z sleeplock) (r : kern) : kern :=
  Kern (km r) x (bufs r) (lru r) (dsk r) (lg r) (sb r) (itable r) (ftable r) (pipes r) (cons r) (uart_ r) (devsw r) (first r).
Definition set_bufs (x : list buf) (r : kern) : kern :=
  Kern (km r) (slocks r) x (lru r) (dsk r) (lg r) (sb r) (itable r) (ftable r) (pipes r) (cons r) (uart_ r) (devsw r) (first r).
Definition set_lru (x : list nat) (r : kern) : kern :=
  Kern (km r) (slocks r) (bufs r) x (dsk r) (lg r) (sb r) (itable r) (ftable r) (pipes r) (cons r) (uart_ r) (devsw r) (first r).
Definition set_dsk (x : disk) (r : kern) : kern :=
  Kern (km r) (slocks r) (bufs r) (lru r) x (lg r) (sb r) (itable r) (ftable r) (pipes r) (cons r) (uart_ r) (devsw r) (first r).
Definition set_lg (x : log) (r : kern) : kern :=
  Kern (km r) (slocks r) (bufs r) (lru r) (dsk r) x (sb r) (itable r) (ftable r) (pipes r) (cons r) (uart_ r) (devsw r) (first r).
Definition set_sb (x : superblock) (r : kern) : kern :=
  Kern (km r) (slocks r) (bufs r) (lru r) (dsk r) (lg r) x (itable r) (ftable r) (pipes r) (cons r) (uart_ r) (devsw r) (first r).
Definition set_itable (x : list inode) (r : kern) : kern :=
  Kern (km r) (slocks r) (bufs r) (lru r) (dsk r) (lg r) (sb r) x (ftable r) (pipes r) (cons r) (uart_ r) (devsw r) (first r).
Definition set_ftable (x : list file) (r : kern) : kern :=
  Kern (km r) (slocks r) (bufs r) (lru r) (dsk r) (lg r) (sb r) (itable r) x (pipes r) (cons r) (uart_ r) (devsw r) (first r).
Definition set_pipes (x : gmap Z pipe) (r : kern) : kern :=
  Kern (km r) (slocks r) (bufs r) (lru r) (dsk r) (lg r) (sb r) (itable r) (ftable r) x (cons r) (uart_ r) (devsw r) (first r).
Definition set_cons (x : console) (r : kern) : kern :=
  Kern (km r) (slocks r) (bufs r) (lru r) (dsk r) (lg r) (sb r) (itable r) (ftable r) (pipes r) x (uart_ r) (devsw r) (first r).
Definition set_uart_ (x : uart) (r : kern) : kern :=
  Kern (km r) (slocks r) (bufs r) (lru r) (dsk r) (lg r) (sb r) (itable r) (ftable r) (pipes r) (cons r) x (devsw r) (first r).
Definition set_devsw (x : list bool) (r : kern) : kern :=
  Kern (km r) (slocks r) (bufs r) (lru r) (dsk r) (lg r) (sb r) (itable r) (ftable r) (pipes r) (cons r) (uart_ r) x (first r).
Definition set_first (x : bool) (r : kern) : kern :=
  Kern (km r) (slocks r) (bufs r) (lru r) (dsk r) (lg r) (sb r) (itable r) (ftable r) (pipes r) (cons r) (uart_ r) (devsw r) x.

Definition km_lens : lens kern mach.
Proof. refine (Lens kern mach km set_km _ _ _); [done|now intros []|done]. Defined.

(** Machine-level code, on the kernel's state. *)
Definition mk {A : Type} (m : M mach A) : M kern A := zoom km_lens m.

(** How often a loop that waits is resumed before the model gives up; what
    does not wait does not depend on it. *)
Class Patience : Type := { patience : nat }.

(** Sleep locks: the buffers' first, then the inodes'. *)
Definition buf_lock (i : nat) : Z := Z.of_nat i.
Definition inode_lock (i : nat) : Z := 1000 + Z.of_nat i.

Lemma wp_mk {A : Type} (m : M mach A) (Q : A -> kern -> Prop) s :
  wp m (fun a t => Q a (set_km t s)) (km s) -> wp (mk m) Q s.
Proof. unfold wp, mk, zoom. simpl. destruct (m (km s)); simpl; tauto. Qed.

(** Machine-level code keeps what is true of the layers above. *)
Lemma returns_mk {A : Type} (I : kern -> Prop) (m : M mach A) s :
  (forall s t, I s -> I (set_km t s)) -> I s -> returns I (fun _ s' => I s') (mk m s).
Proof.
  intros HI Hs. unfold mk, zoom. generalize (m (view km_lens s)) as o. intros o. revert s Hs.
  induction o as [| | | |t k IH]; intros s0 Hs; simpl; auto.
Qed.

(** Releasing a lock does not give up the CPU. *)
Lemma returns_release (I Q : kern -> Prop) l s :
  (forall t, Q (set_km t s)) -> returns I (fun _ => Q) (mk (lk (release l)) s).
Proof.
  intros HQ. unfold mk, lk, zoom. simpl.
  assert (match release l (lks (km s)) with Switch _ _ => False | _ => True end) as H.
  { unfold release, holding, cpuid, r_tp, check, pop_off, intr_get, intr_on, s_sstatus, r_sstatus, w_sstatus, upd_cpu, mycpu,
      orfault, bind, gets, modify, ret, fault, panic. repeat (unfold check, ret, panic in *; case_match; simpl in *; simplify_eq; try done). }
  destruct (release l (lks (km s))); simpl; done.
Qed.

(** ** Bytes of on-disk structures *)

(** [n] little-endian bytes of [l] from offset [o], and their update. *)
Fixpoint le_get (n : nat) (l : list Z) (o : nat) : Z :=
  match n with O => 0 | S n' => default 0 (l !! o) + 256 * le_get n' l (S o) end.
Fixpoint le_set (n : nat) (l : list Z) (o : nat) (v : Z) : list Z :=
  match n with O => l | S n' => le_set n' (<[o := v mod 256]> l) (S o) (v / 256) end.

Lemma le_set_length n l o v : length (le_set n l o v) = length l.
Proof.
  revert l o v. induction n as [|n IH]; intros l o v; simpl; [done|]. rewrite IH. apply length_insert.
Qed.

Lemma le_set_lookup n l o v k : (k < o \/ o + n <= k)%nat -> le_set n l o v !! k = l !! k.
Proof.
  revert l o v. induction n as [|n IH]; intros l o v Hk; simpl; [done|].
  rewrite IH by lia. apply list_lookup_insert_ne. lia.
Qed.

Lemma le_get_ext n l l' o : (forall k, (o <= k < o + n)%nat -> l !! k = l' !! k) -> le_get n l o = le_get n l' o.
Proof.
  revert o. induction n as [|n IH]; intros o H; simpl; [done|].
  rewrite H by lia. rewrite (IH (S o)); [done|]. intros k Hk. apply H. lia.
Qed.

Lemma le_get_set_eq n l o v :
  (o + n <= length l)%nat -> 0 <= v < 256 ^ Z.of_nat n -> le_get n (le_set n l o v) o = v.
Proof.
  revert l o v. induction n as [|n IH]; intros l o v Hl Hv; [simpl in *; lia|].
  rewrite Nat2Z.inj_succ, Z.pow_succ_r in Hv by lia. simpl.
  rewrite IH by (rewrite ?length_insert; first [lia|split; [apply Z.div_pos; lia|apply Z.div_lt_upper_bound; lia]]).
  rewrite le_set_lookup by lia. rewrite list_lookup_insert_eq by lia. simpl.
  pose proof (Z.div_mod v 256). lia.
Qed.

Lemma le_get_set_ne n k l o o' v : (o' + k <= o \/ o + n <= o')%nat -> le_get k (le_set n l o v) o' = le_get k l o'.
Proof. intros H. apply le_get_ext. intros j Hj. apply le_set_lookup. lia. Qed.

Lemma le_get_replicate n m o : le_get n (replicate m 0) o = 0.
Proof.
  revert o. induction n as [|n IH]; intros o; simpl; [done|]. rewrite IH. destruct (replicate m 0 !! o) eqn:E; [|done]. now apply lookup_replicate in E as [-> _].
Qed.

#[global] Arguments le_get : simpl never.
#[global] Arguments le_set : simpl never.
