(* ===== verification/Printk.v ===== *)
(** * Console output (kernel/printk.c, the output half of kernel/uart.c and
      kernel/console.c, [procdump] of kernel/proc.c)

    Characters go to the UART one at a time.  [panic] stops the machine (an
    outcome of its own in this development), so the flags [panicking] and
    [panicked] are 0 in every state in which this code runs. *)

From S2P Require Import Prelude.
From S2P Require Import Mach.
From S2P Require Import Spinlock.
From S2P Require Import Kstring.
From S2P Require Import Kalloc.
From S2P Require Import Vm.
From S2P Require Import Proc.
From S2P Require Import Kstate.

Definition upduart (f : uart -> uart) : M kern unit := modify (fun s => set_uart_ (f (uart_ s)) s).

(** Spins until the transmitter is idle. *)
Definition uartputc_sync (c : Z) : M kern unit :=
  do! mk (lk push_off);
  let! u := gets uart_ in
  if negb (u_lsr_idle u) then fun _ => Spin
  else
    do! upduart (fun u => set_u_out (u_out u ++ [u8 c]) u);
    mk (lk pop_off).

Definition BACKSPACE : Z := 256.
Definition consputc (c : Z) : M kern unit :=
  if c =? BACKSPACE then
    do! uartputc_sync 8;
    do! uartputc_sync 32;
    uartputc_sync 8
  else uartputc_sync c.
Fixpoint consputs (l : list Z) : M kern unit :=
  match l with [] => ret tt | c :: l' => do! consputc c; consputs l' end.

(** ** Formatting *)

Definition digits (d : Z) : Z := if d <? 10 then 48 + d else 87 + d.

(** The do-while loop of [printint]: the digits of [x], least significant
    first.  A 64-bit number has 64 digits at most. *)
Fixpoint digit_loop (fuel : nat) (x base : Z) : list Z :=
  match fuel with
  | O => []
  | S f => digits (x mod base) :: (if x / base =? 0 then [] else digit_loop f (x / base) base)
  end.

(** What [printint] leaves in [buf], in the order it is printed. *)
Definition printint (xx base : Z) (sign : bool) : list Z :=
  let neg := sign && (xx <? 0) in
  let x := if neg then u64 (- xx) else u64 xx in
  reverse (digit_loop 64 x base ++ if neg then [45] else []).

Definition printptr (x : Z) : list Z :=
  [48; 120] ++ ((fun i => digits (Z.shiftr (u64 (Z.shiftl x (4 * Z.of_nat i))) 60)) <$> seq 0 16).

(** An argument: a number as it was passed, or a string ([None]: null). *)
Inductive parg : Type := PNum (x : Z) | PStr (s : option (list Z)).

(** The conversion after a percent sign: what it prints, given its
    argument, and how many format characters it takes. *)
Definition directive (fmt : list Z) : option ((Z -> list Z) * nat) :=
  let c k := default 0 (fmt !! k) in
  let c0 := c 0%nat in
  let c1 := if c0 =? 0 then 0 else c 1%nat in
  let c2 := if c1 =? 0 then 0 else c 2%nat in
  if c0 =? 100 then Some (fun x => printint (i32 x) 10 true, 1%nat)
  else if (c0 =? 108) && (c1 =? 100) then Some (fun x => printint (i64 x) 10 true, 2%nat)
  else if (c0 =? 108) && (c1 =? 108) && (c2 =? 100) then Some (fun x => printint (i64 x) 10 true, 3%nat)
  else if c0 =? 117 then Some (fun x => printint (u32 x) 10 false, 1%nat)
  else if (c0 =? 108) && (c1 =? 117) then Some (fun x => printint (i64 x) 10 false, 2%nat)
  else if (c0 =? 108) && (c1 =? 108) && (c2 =? 117) then Some (fun x => printint (i64 x) 10 false, 3%nat)
  else if c0 =? 120 then Some (fun x => printint (u32 x) 16 false, 1%nat)
  else if (c0 =? 108) && (c1 =? 120) then Some (fun x => printint (i64 x) 16 false, 2%nat)
  else if (c0 =? 108) && (c1 =? 108) && (c2 =? 120) then Some (fun x => printint (i64 x) 16 false, 3%nat)
  else if c0 =? 112 then Some (fun x => printptr (u64 x), 1%nat)
  else if c0 =? 99 then Some (fun x => [u32 x], 1%nat)
  else None.

(** The characters [printk] prints; [None] when an argument is missing or
    of the wrong kind.  The format ends at a NUL or with the list. *)
Fixpoint format (fuel : nat) (fmt : list Z) (args : list parg) : option (list Z) :=
  match fuel with
  | O => Some []
  | S f =>
    match fmt with
    | [] => Some []
    | cx :: fmt' =>
      if cx =? 0 then Some []
      else if negb (cx =? 37) then (cx ::.) <$> format f fmt' args
      else
        match directive fmt' with
        | Some (conv, k) =>
          match args with
          | PNum x :: args' => (conv x ++.) <$> format f (drop k fmt') args'
          | _ => None
          end
        | None =>
          let c0 := default 0 (head fmt') in
          if c0 =? 115 then
            match args with
            | PStr s :: args' =>
              (default [40; 110; 117; 108; 108; 41] s ++.) <$> format f (drop 1 fmt') args'
            | _ => None
            end
          else if c0 =? 37 then (37 ::.) <$> format f (drop 1 fmt') args
          else if c0 =? 0 then Some []
          else ((37 :: [c0]) ++.) <$> format f (drop 1 fmt') args
        end
    end
  end.

Definition printk (fmt : list Z) (args : list parg) : M kern Z :=
  do! mk (lk (acquire Lpr));
  let! out := orfault (format (S (length fmt)) fmt args) in
  do! consputs out;
  do! mk (lk (release Lpr));
  ret 0.

Definition printkinit : M kern unit := mk (lk (initlock Lpr)).

(** ** [procdump] *)

Definition str (s : string) : list Z := (fun c => Z.of_N (Ascii.N_of_ascii c)) <$> String.list_ascii_of_string s.

Definition state_name (st : procstate) : list Z :=
  str (match st with
       | UNUSED => "unused" | USED => "used" | SLEEPING => "sleep "
       | RUNNABLE => "runble" | RUNNING => "run   " | ZOMBIE => "zombie"
       end).

Definition procdump : M kern unit :=
  do! printk [10] [];
  mloop (Z.to_nat NPROC) 0 1 (fun i =>
    let! p := mk (getproc (Z.to_nat i)) in
    if bool_decide (state p = UNUSED) then ret tt
    else
      do! printk (str "%d %s %s") [PNum (pid p); PStr (Some (state_name (state p))); PStr (Some (cstr (pname p)))];
      do! printk [10] [];
      ret tt).

(** ** Properties *)

(** What printing does to the machine: the UART has sent [l], and nothing
    else has changed. *)
Definition printed (l : list Z) (s s' : kern) : Prop :=
  exists K, lk_eq (lks (km s)) K /\
    s' = set_km (set_lks K (km s)) (set_uart_ (set_u_out (u_out (uart_ s) ++ l) (uart_ s)) s).
(** A spin-lock level to spare and an idle transmitter. *)
Definition can_print (d : Z) (s : kern) : Prop :=
  lk_ok d (lks (km s)) /\ 1 <= d /\ u_lsr_idle (uart_ s) = true.
(** What the terminal receives for a character. *)
Definition echo (c : Z) : list Z := if c =? BACKSPACE then [8; 32; 8] else [u8 c].

Lemma printed_nil s : printed [] s s.
Proof.
  exists (lks (km s)). split; [reflexivity|]. rewrite app_nil_r. destruct s as [[] ? ? ? ? ? ? ? ? ? ? [] ? ?]. done.
Qed.
Lemma printed_trans l1 l2 s1 s2 s3 : printed l1 s1 s2 -> printed l2 s2 s3 -> printed (l1 ++ l2) s1 s3.
Proof.
  intros (K1 & H1 & ->) (K2 & H2 & ->). exists K2. split; [etransitivity; [exact H1|exact H2]|]. simpl. now rewrite app_assoc.
Qed.
Lemma can_print_printed d l s s' : can_print d s -> printed l s s' -> can_print d s'.
Proof. intros (H1 & H2 & H3) (K & HK & ->). split; [simpl; now rewrite <- HK|done]. Qed.

Lemma uartputc_sync_spec d s c : can_print d s -> wp (uartputc_sync c) (fun _ => printed [u8 c] s) s.
Proof.
  intros (Hok & Hd & Hi). unfold uartputc_sync. wsteps. apply wp_mk. apply (wp_push_off d); auto. intros K Hp _ _ _. wsteps.
  simpl uart_. rewrite Hi. simpl negb. cbv iota. wsteps. apply wp_mk.
  apply (wp_pop_off d (lks (km s)) K); [done|done|done|reflexivity|]. intros K2 HK2. exists K2. done.
Qed.
Lemma consputc_spec d s c : can_print d s -> wp (consputc c) (fun _ => printed (echo c) s) s.
Proof.
  intros Hc. unfold consputc, echo. destruct (c =? BACKSPACE); [|now apply (uartputc_sync_spec d)].
  wsteps. eapply wp_mono; [now apply (uartputc_sync_spec d)|]. intros [] s1 H1. wsteps.
  eapply wp_mono; [apply (uartputc_sync_spec d); eapply can_print_printed; eauto|]. intros [] s2 H2.
  pose proof (printed_trans _ _ _ _ _ H1 H2) as H12.
  eapply wp_mono; [apply (uartputc_sync_spec d); eapply can_print_printed; eauto|]. intros [] s3 H3.
  exact (printed_trans _ _ _ _ _ H12 H3).
Qed.
Lemma consputs_spec d l : forall s, can_print d s -> wp (consputs l) (fun _ s' => exists o, printed o s s') s.
Proof.
  induction l as [|c l IH]; intros s Hc; simpl; [apply wp_ret; exists []; apply printed_nil|].
  wsteps. eapply wp_mono; [now apply (consputc_spec d)|]. intros [] s1 H1.
  eapply wp_mono; [apply IH; eapply can_print_printed; eauto|]. intros [] s2 [o H2]. eexists. eapply printed_trans; eauto.
Qed.

Lemma printk_spec d s fmt args :
  can_print d s -> 2 <= d -> getlock (lks (km s)) Lpr = unlocked -> is_Some (format (S (length fmt)) fmt args) ->
  wp (printk fmt args) (fun _ s' => exists o, printed o s s') s.
Proof.
  intros (Hok & _ & Hi) Hd Hl [out Ho]. unfold printk. wsteps. apply wp_mk. apply (wp_acquire _ d); [done|lia|done|].
  intros K1 HokK1 Ha. wsteps. rewrite Ho. simpl orfault. wsteps.
  eapply wp_mono; [apply (consputs_spec (d - 1)); split; [exact HokK1|split; [lia|done]]|]. intros [] s1 (o & K2 & HK2 & ->). wsteps.
  apply wp_mk. eapply (wp_release _ d (lks (km s)) K1); [done|lia|done|done|exact HK2|]. intros K3 HK3. wsteps.
  exists o, K3. done.
Qed.

Lemma procdump_format a x y : is_Some (format 9 (str "%d %s %s") [PNum a; PStr (Some x); PStr (Some y)]).
Proof. eexists. reflexivity. Qed.

Lemma procdump_spec d s :
  can_print d s -> 2 <= d -> getlock (lks (km s)) Lpr = unlocked -> length (procs (km s)) = Z.to_nat NPROC ->
  wp procdump (fun _ s' => exists o, printed o s s') s.
Proof.
  intros Hc Hd Hl Hlen.
  assert (forall s1 fmt args, (exists o, printed o s s1) -> is_Some (format (S (length fmt)) fmt args) ->
    wp (printk fmt args) (fun _ s' => exists o, printed o s s') s1) as Hp.
  { intros s1 fmt args [o H1] Hf. eapply wp_mono.
    - apply (printk_spec d); auto; [eapply can_print_printed; eauto|]. destruct H1 as (K & HK & ->). simpl. now rewrite (lk_eq_getlock _ _ _ HK).
    - intros r s2 [o2 H2]. exists (o ++ o2). eapply printed_trans; eauto. }
  unfold procdump. wsteps. eapply wp_mono; [apply Hp; [exists []; apply printed_nil|eexists; reflexivity]|]. intros r0 s0 H0.
  apply (wp_mloop (fun _ s' => exists o, printed o s s')); [done|]. intros k s1 Hk H1.
  replace (0 + Z.of_nat k * 1) with (Z.of_nat k) by lia. rewrite Nat2Z.id.
  destruct (lookup_lt_is_Some_2 (procs (km s)) k) as [p Hpk]; [lia|].
  wsteps. apply wp_mk, (wp_getproc k p); [destruct H1 as (o & K & _ & ->); exact Hpk|].
  assert (set_km (km s1) s1 = s1) as -> by (now destruct s1).
  destruct (bool_decide (state p = UNUSED)); [now apply wp_ret|].
  wsteps. eapply wp_mono; [apply Hp; [done|apply procdump_format]|]. intros r2 s2 H2. wsteps.
  eapply wp_mono; [apply Hp; [done|eexists; reflexivity]|]. intros r3 s3 H3. now wsteps.
Qed.

(** The number a row of digits denotes, most significant first. *)
Definition digit_value (c : Z) : Z := if c <? 58 then c - 48 else c - 87.
Definition number (base : Z) (l : list Z) : Z := foldl (fun a c => a * base + digit_value c) 0 l.

Lemma number_snoc base l c : number base (l ++ [c]) = number base l * base + digit_value c.
Proof. unfold number. now rewrite foldl_app. Qed.

Lemma digit_value_digits d : 0 <= d < 16 -> digit_value (digits d) = d.
Proof.
  intros H. unfold digits, digit_value. destruct (Z.ltb_spec d 10).
  - destruct (Z.ltb_spec (48 + d) 58); lia.
  - destruct (Z.ltb_spec (87 + d) 58); lia.
Qed.

Lemma digit_loop_number f x base :
  1 < base <= 16 -> 0 <= x < base ^ Z.of_nat (S f) -> number base (reverse (digit_loop (S f) x base)) = x.
Proof.
  intros Hb. revert x. induction f as [|f IH]; intros x Hx; simpl digit_loop.
  - change (Z.of_nat 1) with 1 in Hx. rewrite Z.pow_1_r in Hx. assert (x / base = 0) as -> by (apply Z.div_small; lia).
    rewrite (Z.mod_small x) by lia. simpl. unfold number. simpl. rewrite digit_value_digits by lia. lia.
  - pose proof (Z.mod_pos_bound x base ltac:(lia)) as Hm. pose proof (Z.div_mod x base ltac:(lia)) as Hd.
    rewrite reverse_cons, number_snoc, digit_value_digits by lia.
    destruct (Z.eqb_spec (x / base) 0) as [E|E]; [simpl; unfold number; simpl; lia|].
    change (digits ((x / base) mod base) :: (if x / base / base =? 0 then [] else digit_loop f (x / base / base) base))
      with (digit_loop (S f) (x / base) base).
    rewrite IH; [lia|]. rewrite Nat2Z.inj_succ, Z.pow_succ_r in Hx by lia.
    split; [apply Z.div_pos; lia|apply Z.div_lt_upper_bound; lia].
Qed.

Lemma digit_loop_length f x base k :
  1 < base -> 0 <= x < base ^ Z.of_nat (S k) -> (length (digit_loop f x base) <= S k)%nat.
Proof.
  intros Hb. revert f x. induction k as [|k IH]; intros f x Hx; (destruct f as [|f]; [simpl; lia|]); simpl.
  - change (Z.of_nat 1) with 1 in Hx. rewrite Z.pow_1_r in Hx. assert (x / base = 0) as -> by (apply Z.div_small; lia). simpl. lia.
  - destruct (Z.eqb_spec (x / base) 0) as [E|E]; [simpl; lia|].
    specialize (IH f (x / base)). rewrite Nat2Z.inj_succ, Z.pow_succ_r in Hx by lia.
    enough (length (digit_loop f (x / base) base) <= S k)%nat by lia. apply IH.
    split; [apply Z.div_pos; lia|apply Z.div_lt_upper_bound; lia].
Qed.

(** [printint] prints the number and stays in its buffer.  For a 64-bit
    argument, in base 10 or 16, the characters printed are a minus sign
    exactly when the number is printed as signed and is negative, followed by
    digits that denote its absolute value (its value as an unsigned number
    when it is not printed as signed); there are at most 20 of them, the size
    of [buf]. *)
Theorem printint_correct xx base sign :
  base = 10 \/ base = 16 /\ sign = false -> -9223372036854775808 <= xx < 9223372036854775808 ->
  exists ds, printint xx base sign = (if sign && (xx <? 0) then 45 :: ds else ds) /\
    number base ds = (if sign then Z.abs xx else u64 xx) /\
    (length (printint xx base sign) <= 20)%nat.
Proof.
  intros Hb Hx. unfold printint. set (neg := sign && (xx <? 0)). set (x := if neg then u64 (- xx) else u64 xx).
  assert (0 <= x < 18446744073709551616) as Hr by (unfold x; destruct neg; apply u64_range).
  exists (reverse (digit_loop 64 x base)). split; [|split].
  - rewrite reverse_app. destruct neg; [now rewrite reverse_singleton|done].
  - rewrite digit_loop_number; [|lia|].
    + unfold x, neg. destruct sign; simpl; [|done]. destruct (Z.ltb_spec xx 0); rewrite u64_small; lia.
    + split; [lia|]. destruct Hb as [->|[-> _]]; apply (Z.lt_le_trans _ 18446744073709551616); try lia; vm_compute; discriminate.
  - rewrite length_reverse, length_app.
    assert (neg = true -> sign = true /\ x <= 9223372036854775808) as Hneg.
    { unfold x, neg. destruct sign; [|done]. simpl. destruct (Z.ltb_spec xx 0); [|done]. intros _. split; [done|].
      rewrite u64_small by lia. lia. }
    destruct neg; [change (length [45]) with 1%nat|change (length (@nil Z)) with 0%nat].
    + destruct (Hneg eq_refl) as [-> Hle]. destruct Hb as [->|[_ E]]; [|discriminate E].
      enough (length (digit_loop 64 x 10) <= 19)%nat by lia. apply (digit_loop_length 64 x 10 18); [lia|].
      change (10 ^ Z.of_nat 19) with 10000000000000000000. lia.
    + enough (length (digit_loop 64 x base) <= 20)%nat by lia. apply (digit_loop_length 64 x base 19); [lia|].
      split; [lia|]. destruct Hb as [->|[-> _]]; apply (Z.lt_le_trans _ 18446744073709551616); try lia; vm_compute; discriminate.
Qed.

Lemma printint_correct_witness :
  printint (-9223372036854775808) 10 true = str "-9223372036854775808" /\
  (length (printint (-9223372036854775808) 10 true) <= 20)%nat.
Proof.
  split; [vm_compute; reflexivity|].
  destruct (printint_correct (-9223372036854775808) 10 true) as (ds & _ & _ & H); [now left|lia|exact H].
Defined.
