(* ===== verification/Sleeplock.v ===== *)
(** * Sleep locks (kernel/sleeplock.c)

    Locks held across disk operations: a process that finds one taken
    sleeps on it.  [calm] is what the operations of this and the upper
    layers do to the machine: nothing but waking processes up. *)

From S2P Require Import Prelude.
From S2P Require Import Mach.
From S2P Require Import Spinlock.
From S2P Require Import Kalloc.
From S2P Require Import Vm.
From S2P Require Import Proc.
From S2P Require Import Kstate.

Definition getsl (s : kern) (id : Z) : sleeplock := default (Sleeplock false 0) (slocks s !! id).
Definition putsl (id : Z) (l : sleeplock) : M kern unit :=
  modify (fun s => set_slocks (<[id := l]> (slocks s)) s).

Definition initsleeplock (id : Z) : M kern unit :=
  do! mk (lk (initlock (Lsleep id)));
  putsl id (Sleeplock false 0).

(** [while (lk->locked) sleep(lk, &lk->lk)]. *)
Fixpoint await_free (fuel : nat) (id : Z) : M kern unit :=
  let! l := gets (fun s => getsl s id) in
  if sl_locked l then
    match fuel with
    | O => fun _ => Spin
    | S f => do! mk (sleep (ChLock id) (Lsleep id)); await_free f id
    end
  else ret tt.

Section Sleeplock.
Context {P : Patience}.

Definition acquiresleep (id : Z) : M kern unit :=
  do! mk (lk (acquire (Lsleep id)));
  do! await_free patience id;
  let! l := gets (fun s => getsl s id) in
  do! putsl id (set_sl_locked true l);
  let! p := mk curproc in
  let! l := gets (fun s => getsl s id) in
  do! putsl id (set_sl_pid (pid p) l);
  mk (lk (release (Lsleep id))).

Definition releasesleep (id : Z) : M kern unit :=
  do! mk (lk (acquire (Lsleep id)));
  let! l := gets (fun s => getsl s id) in
  do! putsl id (set_sl_locked false l);
  let! l := gets (fun s => getsl s id) in
  do! putsl id (set_sl_pid 0 l);
  do! mk (wakeup (ChLock id));
  mk (lk (release (Lsleep id))).

Definition holdingsleep (id : Z) : M kern bool :=
  do! mk (lk (acquire (Lsleep id)));
  let! l := gets (fun s => getsl s id) in
  let! r := (if sl_locked l then let! p := mk curproc in ret (sl_pid l =? pid p) else ret false) in
  do! mk (lk (release (Lsleep id)));
  ret r.
End Sleeplock.

(** ** What the machine looks like between operations *)

(** The running process has index [i] and pid [n]; no spin lock is held. *)
Definition ready (i : nat) (n : Z) (s : mach) : Prop :=
  lk_ok 3 (lks s) /\ length (procs s) = 64%nat /\ (forall l, getlock (lks s) l = unlocked) /\
  exists c p, cur (lks s) = Some c /\ c_proc c = Some i /\ procs s !! i = Some p /\ pid p = n.

(** Nothing happened, except that sleeping processes were woken. *)
Definition calm (s s' : mach) : Prop :=
  lk_eq (lks s) (lks s') /\ ram s' = ram s /\ freelist s' = freelist s /\ refcnt s' = refcnt s /\
  nextpid s' = nextpid s /\ initproc s' = initproc s /\ ticks s' = ticks s /\
  length (procs s') = length (procs s) /\
  forall j p, procs s !! j = Some p ->
    exists p', procs s' !! j = Some p' /\ (p' = p \/ (state p = SLEEPING /\ p' = set_state RUNNABLE p)).

#[export] Instance calm_refl : Reflexive calm.
Proof. intros s. split; [reflexivity|]. repeat split; auto. intros j p Hp. exists p. auto. Qed.
#[export] Instance calm_trans : Transitive calm.
Proof.
  intros s1 s2 s3 (A1 & A2 & A3 & A4 & A5 & A6 & A7 & A8 & A9) (B1 & B2 & B3 & B4 & B5 & B6 & B7 & B8 & B9).
  split; [now rewrite A1|]. do 7 (split; [congruence|]).
  intros j p Hp. destruct (A9 j p Hp) as (p1 & Hp1 & E1). destruct (B9 j p1 Hp1) as (p2 & Hp2 & E2).
  exists p2. split; [done|]. destruct E1 as [->|[S1 ->]], E2 as [->|[S2 ->]]; auto.
Qed.

Lemma calm_lks s K : lk_eq (lks s) K -> calm s (set_lks K s).
Proof. intros HK. split; [done|]. repeat split; auto. intros j p Hp. exists p. auto. Qed.

Lemma ready_calm i n s s' : ready i n s -> calm s s' -> ready i n s'.
Proof.
  intros (H1 & H2 & H3 & c & p & H4 & H5 & H6 & H7) (A1 & _ & _ & _ & _ & _ & _ & A8 & A9).
  destruct (lk_eq_cur _ _ _ A1 H4) as (c' & Hc' & E1 & _). destruct (A9 i p H6) as (p' & Hp' & E).
  split; [now rewrite <- A1|]. split; [congruence|].
  split; [intros l; rewrite (lk_eq_getlock _ _ _ A1); apply H3|].
  exists c', p'. split; [done|]. split; [congruence|]. split; [done|].
  destruct E as [->|[_ ->]]; done.
Qed.

Lemma calm_wakeup s c ch K :
  lk_eq (lks s) K -> calm s (set_lks K (set_procs (imap (woken (c_proc c) ch) (procs s)) s)).
Proof.
  intros HK. split; [done|]. do 6 (split; [done|]). split; [simpl; apply length_imap|].
  intros j p Hp. simpl. rewrite list_lookup_imap, Hp. simpl. eexists. split; [done|].
  unfold woken. destruct (bool_decide (c_proc c = Some j)); [now left|].
  destruct (bool_decide_reflect (state p = SLEEPING)) as [E|E]; simpl; [|now left].
  destruct (bool_decide (chan p = ch)); auto.
Qed.

(** The running process inside a critical section. *)
Lemma wp_curproc_in i n l K (Q : proc -> mach -> Prop) s :
  ready i n s -> acquired l (lks s) K ->
  (forall p K', pid p = n -> lk_eq K K' -> Q p (set_lks K' s)) -> wp curproc Q (set_lks K s).
Proof.
  intros (H1 & _ & _ & c & p & H4 & H5 & H6 & H7) Ha HQ.
  destruct (acquired_cur _ _ _ _ Ha H4) as (c1 & Hc1 & E1 & E2 & _ & E3).
  assert (lk_ok 2 K) as Hok.
  { destruct H1 as (c0 & Hc0 & P1 & P2 & P3 & P4). rewrite H4 in Hc0. injection Hc0 as <-.
    exists c1. rewrite E2, E3. simpl. repeat split; try lia; [done|now apply ldiff_nonneg|intros _; apply sie_clear]. }
  unfold curproc. wsteps. apply (wp_myproc 2 c1); [done|lia|done|]. intros K' HK'.
  rewrite E1, H5. apply (wp_getproc i p); [done|]. now apply HQ.
Qed.

(** [wakeup] inside a critical section. *)
Lemma wakeup_in_exact i n l K m ch :
  ready i n m -> lk_ok 2 K -> acquired l (lks m) K -> (forall j, Lproc j <> l) ->
  wp (wakeup ch) (fun _ m' => exists K', lk_eq K K' /\
    m' = set_lks K' (set_procs (imap (woken (Some i) ch) (procs m)) m)) (set_lks K m).
Proof.
  intros Hr Hok Ha Hl. pose proof Hr as (_ & Hlen & Hfree & c & p & Hc & Hci & _).
  destruct (acquired_cur _ _ _ _ Ha Hc) as (c1 & Hc1 & E1 & _).
  eapply wp_mono; [apply (wakeup_spec 2 c1)|].
  - split; [done|]. split; [done|]. intros j. simpl. rewrite (acquired_getlock _ _ _ _ Ha); [apply Hfree|apply Hl].
  - lia.
  - done.
  - intros [] m' (K2 & HK2 & ->). simpl in HK2. exists K2. split; [done|]. now rewrite E1, Hci.
Qed.
Lemma wakeup_in i n l K m ch :
  ready i n m -> lk_ok 2 K -> acquired l (lks m) K -> (forall j, Lproc j <> l) ->
  wp (wakeup ch) (fun _ m' => exists K' ps, lk_eq K K' /\ m' = set_lks K' (set_procs ps m) /\
    forall K2, lk_eq (lks m) K2 -> calm m (set_lks K2 (set_procs ps m))) (set_lks K m).
Proof.
  intros Hr Hok Ha Hl. eapply wp_mono; [now apply (wakeup_in_exact i n l)|]. intros [] m' (K' & HK' & ->). exists K'. eexists.
  split; [done|]. split; [done|]. intros K2 HK2. pose proof Hr as (_ & _ & _ & c & q & _ & Hci & _). rewrite <- Hci. now apply calm_wakeup.
Qed.

(** What [wakeup] of [ch] by process [i] does to the process in slot [j]. *)
Definition wakes (i : nat) (ch : wchan) (s s' : mach) : Prop :=
  forall j p, procs s !! j = Some p ->
    procs s' !! j = Some (if decide (j <> i /\ state p = SLEEPING /\ chan p = ch) then set_state RUNNABLE p else p).
Lemma wakes_imap i ch s K : wakes i ch s (set_lks K (set_procs (imap (woken (Some i) ch) (procs s)) s)).
Proof.
  intros j p Hp. simpl. rewrite list_lookup_imap, Hp. simpl. f_equal. unfold woken.
  destruct (bool_decide_reflect (Some i = Some j)) as [[= ->]|E]; [rewrite decide_False; [done|tauto]|].
  destruct (bool_decide_reflect (state p = SLEEPING)) as [E1|E1]; simpl; [|rewrite decide_False; [done|tauto]].
  destruct (bool_decide_reflect (chan p = ch)) as [E2|E2]; [|rewrite decide_False; [done|tauto]].
  rewrite decide_True; [done|]. split; [congruence|done].
Qed.

Section Specs.
Context {P : Patience}.
Implicit Types s : kern.

Lemma wp_putsl id l (Q : unit -> kern -> Prop) s :
  Q tt (set_slocks (<[id := l]> (slocks s)) s) -> wp (putsl id l) Q s.
Proof. intros. now apply wp_modify. Qed.

Lemma getsl_put id l s : getsl (set_slocks (<[id := l]> (slocks s)) s) id = l.
Proof. unfold getsl. simpl. now rewrite lookup_insert_eq. Qed.

(** [acquiresleep] of a free lock does not wait, also when the caller holds
    other spin locks. *)
Lemma acquiresleep_at d i p c id s :
  lk_ok d (lks (km s)) -> 2 <= d -> getlock (lks (km s)) (Lsleep id) = unlocked ->
  cur (lks (km s)) = Some c -> c_proc c = Some i -> procs (km s) !! i = Some p -> sl_locked (getsl s id) = false ->
  wp (acquiresleep id) (fun _ s' => exists K, lk_eq (lks (km s)) K /\
    s' = set_slocks (<[id := Sleeplock true (pid p)]> (slocks s)) (set_km (set_lks K (km s)) s)) s.
Proof.
  intros Hok Hd Hl Hc Hci Hp Hf. unfold acquiresleep. wsteps. apply wp_mk.
  apply (wp_acquire _ d); [done|lia|done|]. intros K1 HokK1 Ha. wsteps. destruct (acquired_cur _ _ _ _ Ha Hc) as (c1 & Hc1 & E1 & _).
  unfold await_free. destruct patience; simpl; wsteps;
    (change (getsl (set_km (set_lks K1 (km s)) s) id) with (getsl s id); rewrite Hf; wsteps).
  all: apply wp_putsl; wsteps; apply wp_mk; unfold curproc; wsteps; apply (wp_myproc (d - 1) c1); [done|lia|done|]; intros K2 HK2; rewrite E1, Hci;
    apply (wp_getproc i p); [done|]; wsteps.
  all: apply wp_putsl; wsteps; apply wp_mk; eapply (wp_release _ d (lks (km s)) K1); [done|lia|done|done|exact HK2|]; intros K3 HK3.
  all: exists K3; split; [done|].
  all: unfold set_slocks, set_km; simpl; rewrite insert_insert_eq; unfold getsl; simpl;
    rewrite lookup_insert_eq; simpl; unfold set_sl_pid, set_sl_locked; simpl; done.
Qed.
Lemma acquiresleep_spec i n id s :
  ready i n (km s) -> sl_locked (getsl s id) = false ->
  wp (acquiresleep id) (fun _ s' => exists m, calm (km s) m /\
    s' = set_slocks (<[id := Sleeplock true n]> (slocks s)) (set_km m s)) s.
Proof.
  intros (Hok & _ & Hfree & c & p & Hc & Hci & Hp & <-) Hf. eapply wp_mono; [apply (acquiresleep_at 3 i p c); auto; lia|].
  intros [] s' (K & HK & ->). exists (set_lks K (km s)). split; [now apply calm_lks|done].
Qed.

Lemma releasesleep_spec i n id s :
  ready i n (km s) ->
  wp (releasesleep id) (fun _ s' => exists m, calm (km s) m /\
    s' = set_slocks (<[id := Sleeplock false 0]> (slocks s)) (set_km m s)) s.
Proof.
  intros Hr. pose proof Hr as (Hok & Hlen & Hfree & c & p & Hc & Hci & _). unfold releasesleep. wsteps. apply wp_mk.
  apply (wp_acquire _ 3); [done|lia|apply Hfree|]. intros K1 HokK1 Ha. wsteps.
  apply wp_putsl. wsteps. apply wp_putsl. wsteps. apply wp_mk.
  eapply wp_mono; [now apply (wakeup_in i n (Lsleep id) K1 (km s))|]. intros [] m (K2 & ps & HK2 & -> & Hcalm).
  wsteps. apply wp_mk. eapply (wp_release _ 3 (lks (km s)) K1); [done|lia|apply Hfree|done|exact HK2|]. intros K3 HK3.
  exists (set_lks K3 (set_procs ps (km s))). split; [now apply Hcalm|].
  unfold set_slocks, set_km; simpl. rewrite insert_insert_eq. unfold getsl. simpl.
  rewrite lookup_insert_eq. done.
Qed.

Lemma holdingsleep_spec i n id s :
  ready i n (km s) ->
  wp (holdingsleep id) (fun r s' => r = sl_locked (getsl s id) && (sl_pid (getsl s id) =? n) /\
    exists m, calm (km s) m /\ s' = set_km m s) s.
Proof.
  intros Hr. pose proof Hr as (Hok & Hlen & Hfree & _). unfold holdingsleep. wsteps. apply wp_mk.
  apply (wp_acquire _ 3); [done|lia|apply Hfree|]. intros K1 HokK1 Ha. wsteps.
  change (getsl (set_km (set_lks K1 (km s)) s) id) with (getsl s id).
  destruct (sl_locked (getsl s id)); wsteps.
  - apply wp_mk. apply (wp_curproc_in i n (Lsleep id)); auto. intros p K2 Hpid HK2. wsteps. apply wp_mk.
    eapply (wp_release _ 3 (lks (km s)) K1); [done|lia|apply Hfree|done|exact HK2|]. intros K3 HK3. wsteps.
    split; [now rewrite Hpid|]. exists (set_lks K3 (km s)). split; [now apply calm_lks|done].
  - apply wp_mk. eapply (wp_release _ 3 (lks (km s)) K1); [done|lia|apply Hfree|done|reflexivity|].
    intros K3 HK3. wsteps. split; [done|]. exists (set_lks K3 (km s)). split; [now apply calm_lks|done].
Qed.
End Specs.
