(* ===== verification/Bio.v ===== *)
(** * The buffer cache (kernel/bio.c)

    Thirty buffers on a list sorted by recent use.  The specifications
    describe the cache by [bview], the contents of a block as a reader of
    the cache sees it, and by which buffers are held ([H]) and pinned by
    the log ([Pn]). *)

From S2P Require Import Prelude.
From S2P Require Import Mach.
From S2P Require Import Spinlock.
From S2P Require Import Kalloc.
From S2P Require Import Vm.
From S2P Require Import Proc.
From S2P Require Import Kstate.
From S2P Require Import Sleeplock.

Definition getbuf (i : nat) : M kern buf := fun s => orfault (bufs s !! i) s.
Definition updbuf (i : nat) (f : buf -> buf) : M kern unit :=
  let! b := getbuf i in
  modify (fun s => set_bufs (<[i := f b]> (bufs s)) s).

(** What the disk driver (virtio_disk.c) offers: transfer buffer [i] to
    ([true]) or from ([false]) its block; its interrupt handler. *)
Class DiskDriver : Type := {
  virtio_disk_rw : nat -> bool -> M kern unit;
  virtio_disk_intr : M kern unit;
}.

(** A loop over the cache list that stops at the first buffer with [c]. *)
Fixpoint bscan (l : list nat) (c : buf -> bool) : M kern (option nat) :=
  match l with
  | [] => ret None
  | i :: l' => let! b := getbuf i in if c b then ret (Some i) else bscan l' c
  end.

Definition is_block (dev blockno : Z) (b : buf) : bool := (b_dev b =? dev) && (b_blockno b =? blockno).

Section Bio.
Context {P : Patience} {D : DiskDriver}.

(** Every buffer is put at the head of the list in turn. *)
Definition binit : M kern unit :=
  do! mk (lk (initlock Lbcache));
  do! modify (set_lru []);
  mloop (Z.to_nat NBUF) 0 1 (fun i =>
    do! initsleeplock (buf_lock (Z.to_nat i));
    let! l := gets lru in
    modify (set_lru (Z.to_nat i :: l))).

Definition bget (dev blockno : Z) : M kern nat :=
  do! mk (lk (acquire Lbcache));
  let! l := gets lru in
  let! r := bscan l (is_block dev blockno) in
  match r with
  | Some i =>
    do! updbuf i (fun b => set_b_refcnt (u32 (b_refcnt b + 1)) b);
    do! mk (lk (release Lbcache));
    do! acquiresleep (buf_lock i);
    ret i
  | None =>
    let! r := bscan (reverse l) (fun b => b_refcnt b =? 0) in
    match r with
    | Some i =>
      do! updbuf i (set_b_dev dev);
      do! updbuf i (set_b_blockno blockno);
      do! updbuf i (set_b_valid false);
      do! updbuf i (set_b_refcnt 1);
      do! mk (lk (release Lbcache));
      do! acquiresleep (buf_lock i);
      ret i
    | None => panic "bget: no buffers"
    end
  end.

Definition bread (dev blockno : Z) : M kern nat :=
  let! i := bget dev blockno in
  let! b := getbuf i in
  do! (if negb (b_valid b) then
         do! virtio_disk_rw i false;
         updbuf i (set_b_valid true)
       else ret tt);
  ret i.

Definition bwrite (i : nat) : M kern unit :=
  let! h := holdingsleep (buf_lock i) in
  do! check h "bwrite";
  virtio_disk_rw i true.

Definition brelse (i : nat) : M kern unit :=
  let! h := holdingsleep (buf_lock i) in
  do! check h "brelse";
  do! releasesleep (buf_lock i);
  do! mk (lk (acquire Lbcache));
  do! updbuf i (fun b => set_b_refcnt (u32 (b_refcnt b - 1)) b);
  let! b := getbuf i in
  do! (if b_refcnt b =? 0
       then modify (fun s => set_lru (i :: filter (fun j => j <> i) (lru s)) s)
       else ret tt);
  mk (lk (release Lbcache)).

Definition bpin (i : nat) : M kern unit :=
  do! mk (lk (acquire Lbcache));
  do! updbuf i (fun b => set_b_refcnt (u32 (b_refcnt b + 1)) b);
  mk (lk (release Lbcache)).

Definition bunpin (i : nat) : M kern unit :=
  do! mk (lk (acquire Lbcache));
  do! updbuf i (fun b => set_b_refcnt (u32 (b_refcnt b - 1)) b);
  mk (lk (release Lbcache)).
End Bio.

(** ** The interface to the disk *)

(** For a buffer of the cache, and outside critical sections, the driver
    transfers the block and wakes processes up, no more. *)
Class DiskOk (D : DiskDriver) : Prop := {
  disk_read : forall i n k b s, ready i n (km s) -> bufs s !! k = Some b ->
    wp (virtio_disk_rw k false) (fun _ s' => exists m, calm (km s) m /\
      s' = set_km m (set_bufs (<[k := set_b_data (dread (dsk s) (b_blockno b)) b]> (bufs s)) s)) s;
  disk_write : forall i n k b s, ready i n (km s) -> bufs s !! k = Some b ->
    wp (virtio_disk_rw k true) (fun _ s' => exists m, calm (km s) m /\
      s' = set_km m (set_dsk (dwrite (dsk s) (b_blockno b) (b_data b)) s)) s;
}.

(** A driver that transfers at once. *)
Definition ideal_rw (k : nat) (w : bool) : M kern unit :=
  let! b := getbuf k in
  if w then modify (fun s => set_dsk (dwrite (dsk s) (b_blockno b) (b_data b)) s)
  else
    let! d := gets dsk in
    updbuf k (set_b_data (dread d (b_blockno b))).
#[export] Instance ideal_disk : DiskDriver := {| virtio_disk_rw := ideal_rw; virtio_disk_intr := ret tt |}.

Lemma wp_getbuf k b (Q : buf -> kern -> Prop) s : bufs s !! k = Some b -> Q b s -> wp (getbuf k) Q s.
Proof. intros H HQ. unfold wp, getbuf, orfault. now rewrite H. Qed.
Lemma wp_updbuf k f b (Q : unit -> kern -> Prop) s :
  bufs s !! k = Some b -> Q tt (set_bufs (<[k := f b]> (bufs s)) s) -> wp (updbuf k f) Q s.
Proof. intros H HQ. apply wp_bind, (wp_getbuf k b); [done|]. now apply wp_modify. Qed.

#[export] Instance ideal_disk_ok : DiskOk ideal_disk.
Proof.
  constructor; intros i n k b s _ Hb; simpl; unfold ideal_rw; wsteps; (apply (wp_getbuf k b); [done|]); wsteps.
  - apply (wp_updbuf k _ b); [done|]. exists (km s). split; [reflexivity|]. now destruct s.
  - exists (km s). split; [reflexivity|]. now destruct s.
Qed.

(** ** The cache's invariant *)

Definition one (b : bool) : Z := if b then 1 else 0.

(** [H]: buffers held by the running process (pid [n]); [Pn]: buffers
    pinned by the log.  The cache holds one copy of a block at most; a
    buffer nobody uses agrees with the disk. *)
Record binv (n : Z) (H Pn : list nat) (s : kern) : Prop := {
  bi_len : length (bufs s) = 30%nat;
  bi_lru : lru s ≡ₚ seq 0 30;
  bi_H : NoDup H; bi_P : NoDup Pn;
  bi_ref : forall i b, bufs s !! i = Some b ->
    b_refcnt b = one (bool_decide (i ∈ H)) + one (bool_decide (i ∈ Pn));
  bi_lock : forall i, (i < 30)%nat ->
    getsl s (buf_lock i) = if bool_decide (i ∈ H) then Sleeplock true n else Sleeplock false 0;
  bi_used : forall i b, bufs s !! i = Some b -> i ∈ H \/ i ∈ Pn -> b_valid b = true;
  bi_dev : forall i b, bufs s !! i = Some b -> b_valid b = true -> b_dev b = ROOTDEV;
  bi_range : forall i, i ∈ H \/ i ∈ Pn -> (i < 30)%nat;
  bi_uniq : forall i j bi bj, bufs s !! i = Some bi -> bufs s !! j = Some bj ->
    b_dev bi = ROOTDEV -> b_dev bj = ROOTDEV -> b_blockno bi = b_blockno bj -> i = j;
  bi_clean : forall i b, bufs s !! i = Some b -> ~ i ∈ H -> ~ i ∈ Pn -> b_valid b = true ->
    b_data b = dread (dsk s) (b_blockno b);
}.

(** Block [blk] as seen through the cache. *)
Definition bview (s : kern) (blk : Z) : list Z :=
  match filter (fun b => is_block ROOTDEV blk b = true /\ b_valid b = true) (bufs s) with
  | b :: _ => b_data b
  | [] => dread (dsk s) blk
  end.

(** The state no layer of the file system touches. *)
Definition rest (s : kern) := (pipes s, cons s, uart_ s, devsw s, first s).

(** The layers above the cache are left alone. *)
Definition upper (s s' : kern) : Prop :=
  calm (km s) (km s') /\ lg s' = lg s /\ sb s' = sb s /\ itable s' = itable s /\
  ftable s' = ftable s /\ rest s' = rest s /\
  forall id, 30 <= id -> getsl s' id = getsl s id.

#[export] Instance upper_refl : Reflexive upper.
Proof. intros s. split; [reflexivity|]. done. Qed.
#[export] Instance upper_trans : Transitive upper.
Proof.
  intros s1 s2 s3 (A1 & A2 & A3 & A4 & A5 & A6 & A7) (B1 & B2 & B3 & B4 & B5 & B6 & B7).
  split; [now rewrite A1|]. do 5 (split; [congruence|]). intros id Hid. rewrite B7, A7; done.
Qed.

Section Facts.
Context {P : Patience} {D : DiskDriver} {DO : DiskOk D}.
Implicit Types (s : kern) (H Pn : list nat) (b : buf) (blk n : Z).

Lemma is_block_spec dev blk b : is_block dev blk b = true <-> b_dev b = dev /\ b_blockno b = blk.
Proof. unfold is_block. rewrite andb_true_iff, !Z.eqb_eq. done. Qed.

Lemma binv_perm n H H' Pn s : H ≡ₚ H' -> binv n H Pn s -> binv n H' Pn s.
Proof.
  intros HP [A1 A2 A3 A4 A5 A6 A7 A8 A9 A10 A11].
  assert (forall i, i ∈ H <-> i ∈ H') as E by (intros; now rewrite HP).
  constructor; auto.
  - now rewrite <- HP.
  - intros i b Hb. rewrite (A5 i b Hb). f_equal. f_equal. apply bool_decide_ext, E.
  - intros i Hi. rewrite A6 by done. rewrite (bool_decide_ext _ _ (E i)). done.
  - intros i b Hb. rewrite <- E. now apply A7.
  - intros i. rewrite <- E. apply A9.
  - intros i b Hb. rewrite <- E. now apply A11.
Qed.

(** The view through a cached block, and without one. *)
Lemma bview_cached n H Pn s i b blk :
  binv n H Pn s -> bufs s !! i = Some b -> b_valid b = true -> b_blockno b = blk -> bview s blk = b_data b.
Proof.
  intros Hinv Hi Hv <-. pose proof (bi_dev _ _ _ _ Hinv i b Hi Hv) as Hd. unfold bview.
  destruct (filter _ (bufs s)) as [|b0 l] eqn:E.
  - exfalso. apply (not_elem_of_nil b). rewrite <- E. apply list_elem_of_filter.
    split; [split; [now apply is_block_spec|done]|now apply list_elem_of_lookup_2 in Hi].
  - assert (b0 ∈ filter (fun b1 => is_block ROOTDEV (b_blockno b) b1 = true /\ b_valid b1 = true) (bufs s)) as Hin
      by (rewrite E; left).
    apply list_elem_of_filter in Hin as [[Hb0 Hv0] Hin]. apply is_block_spec in Hb0 as [Hd0 Hb0].
    apply list_elem_of_lookup in Hin as [j Hj].
    assert (i = j) as <- by (eapply (bi_uniq _ _ _ _ Hinv); eauto; congruence). congruence.
Qed.

Lemma bview_uncached s blk :
  (forall j b, bufs s !! j = Some b -> b_valid b = true -> is_block ROOTDEV blk b = false) ->
  bview s blk = dread (dsk s) blk.
Proof.
  intros Hn. unfold bview. destruct (filter _ (bufs s)) as [|b0 l] eqn:E; [done|]. exfalso.
  assert (b0 ∈ filter (fun b1 => is_block ROOTDEV blk b1 = true /\ b_valid b1 = true) (bufs s)) as Hin
    by (rewrite E; left).
  apply list_elem_of_filter in Hin as [[Hb0 Hv0] Hin]. apply list_elem_of_lookup in Hin as [j Hj].
  rewrite (Hn j b0) in Hb0; done.
Qed.

(** Either some valid buffer holds the block, or none does. *)
Lemma cached_dec s blk :
  (exists i b, bufs s !! i = Some b /\ b_valid b = true /\ is_block ROOTDEV blk b = true) \/
  (forall j b, bufs s !! j = Some b -> b_valid b = true -> is_block ROOTDEV blk b = false).
Proof.
  destruct (decide (Exists (fun b => b_valid b = true /\ is_block ROOTDEV blk b = true) (bufs s))) as [E|E].
  - left. apply Exists_exists in E as (b & Hb & Hv & Hi). apply list_elem_of_lookup in Hb as [i Hi'].
    exists i, b. done.
  - right. intros j b Hj Hv. apply not_true_iff_false. intros Hi. apply E, Exists_exists.
    exists b. split; [now apply list_elem_of_lookup_2 in Hj|done].
Qed.

(** The search loops find the first match of the list. *)
Lemma bscan_spec l c s :
  (forall i, i ∈ l -> is_Some (bufs s !! i)) ->
  wp (bscan l c) (fun r s' => s' = s /\
    match r with
    | Some i => exists l1 l2 b, l = l1 ++ i :: l2 /\ bufs s !! i = Some b /\ c b = true /\
        (forall j b', j ∈ l1 -> bufs s !! j = Some b' -> c b' = false)
    | None => forall j b', j ∈ l -> bufs s !! j = Some b' -> c b' = false
    end) s.
Proof.
  induction l as [|i l IH]; intros Hl; simpl.
  - split; [done|]. intros j b' Hj. now apply not_elem_of_nil in Hj.
  - destruct (Hl i ltac:(left)) as [b Hb]. wsteps. apply (wp_getbuf i b); [done|].
    destruct (c b) eqn:Ec.
    + apply wp_ret. split; [done|]. exists [], l, b. split; [done|]. split; [done|]. split; [done|].
      intros j b' Hj. now apply not_elem_of_nil in Hj.
    + eapply wp_mono; [apply IH; intros j Hj; apply Hl; now right|].
      intros [k|] s' [-> H]; split; try done.
      * destruct H as (l1 & l2 & bk & -> & H1 & H2 & H3). exists (i :: l1), l2, bk.
        split; [done|]. split; [done|]. split; [done|]. intros j b' Hj Hb'.
        apply elem_of_cons in Hj as [->|Hj]; [congruence|]. now apply (H3 j).
      * intros j b' Hj Hb'. apply elem_of_cons in Hj as [->|Hj]; [congruence|]. now apply (H j).
Qed.

Lemma lru_in n H Pn s i : binv n H Pn s -> i ∈ lru s <-> (i < 30)%nat.
Proof. intros Hinv. rewrite (bi_lru _ _ _ _ Hinv), elem_of_seq. lia. Qed.

Lemma buf_exists n H Pn s i : binv n H Pn s -> (i < 30)%nat -> is_Some (bufs s !! i).
Proof. intros Hinv Hi. apply lookup_lt_is_Some_2. rewrite (bi_len _ _ _ _ Hinv). done. Qed.

(** With fewer than thirty buffers in use, one is free. *)
Lemma free_buf n H Pn s :
  binv n H Pn s -> (length H + length Pn < 30)%nat -> exists i b, bufs s !! i = Some b /\ ~ i ∈ H /\ ~ i ∈ Pn.
Proof.
  intros Hinv Hlt. destruct (decide (Exists (fun i => ~ i ∈ H ++ Pn) (seq 0 30))) as [E|E].
  - apply Exists_exists in E as (i & Hi & Hn). apply elem_of_seq in Hi. rewrite elem_of_app in Hn.
    destruct (buf_exists _ _ _ _ i Hinv) as [b Hb]; [lia|]. exists i, b. tauto.
  - exfalso. assert (seq 0 30 ⊆+ H ++ Pn) as Hsub.
    { apply NoDup_submseteq; [apply NoDup_seq|]. intros i Hi. destruct (decide (i ∈ H ++ Pn)); [done|].
      exfalso. apply E, Exists_exists. exists i. done. }
    apply submseteq_length in Hsub. rewrite length_seq, length_app in Hsub. lia.
Qed.

Lemma refcnt_0 n H Pn s i b :
  binv n H Pn s -> bufs s !! i = Some b -> b_refcnt b = 0 <-> ~ i ∈ H /\ ~ i ∈ Pn.
Proof.
  intros Hinv Hb. rewrite (bi_ref _ _ _ _ Hinv i b Hb).
  destruct (bool_decide_reflect (i ∈ H)), (bool_decide_reflect (i ∈ Pn)); simpl; split; try lia; try tauto.
Qed.

(** ** [bget] *)

(** No buffer holds the block and none is free. *)
Definition available s blk H Pn : Prop :=
  (exists i b, bufs s !! i = Some b /\ is_block ROOTDEV blk b = true) \/ (length H + length Pn < 30)%nat.

(** Buffer [k], as [bget] hands it out. *)
Definition got s n blk H Pn (k : nat) (s' : kern) : Prop :=
  exists m b b', calm (km s) m /\ bufs s !! k = Some b /\ ~ k ∈ H /\
    b_dev b' = ROOTDEV /\ b_blockno b' = blk /\ b_refcnt b' = 1 + one (bool_decide (k ∈ Pn)) /\
    ((is_block ROOTDEV blk b = true /\ b_valid b' = b_valid b /\ b_data b' = b_data b) \/
     (b_valid b' = false /\ ~ k ∈ Pn /\
      forall j bj, bufs s !! j = Some bj -> is_block ROOTDEV blk bj = false)) /\
    s' = set_slocks (<[buf_lock k := Sleeplock true n]> (slocks s))
           (set_bufs (<[k := b']> (bufs s)) (set_km m s)).

Lemma acquire_buf i n k H Pn s s1 :
  ready i n (km s1) -> binv n H Pn s -> (k < 30)%nat -> ~ k ∈ H -> slocks s1 = slocks s ->
  wp (do! acquiresleep (buf_lock k); ret k) (fun r s' => r = k /\ exists m, calm (km s1) m /\
    s' = set_slocks (<[buf_lock k := Sleeplock true n]> (slocks s)) (set_km m s1)) s1.
Proof.
  intros Hr Hinv Hk Hn Hs. wsteps. eapply wp_mono.
  - apply (acquiresleep_spec i n); [done|]. unfold getsl. rewrite Hs. fold (getsl s (buf_lock k)).
    rewrite (bi_lock _ _ _ _ Hinv k Hk). now rewrite bool_decide_eq_false_2.
  - intros [] s' (m & Hm & ->). apply wp_ret. split; [done|]. exists m. split; [done|]. now rewrite Hs.
Qed.

(** A block that no buffer has finds a free buffer. *)
Lemma buf_for_block n H Pn s blk : binv n H Pn s -> available s blk H Pn ->
  (forall j bj, bufs s !! j = Some bj -> is_block ROOTDEV blk bj = false) -> exists j b, j ∈ lru s /\ bufs s !! j = Some b /\ b_refcnt b = 0.
Proof.
  intros Hinv Hav Hnone. destruct Hav as [(j & b & Hb & Hbl)|Hlt]; [rewrite (Hnone j b Hb) in Hbl; done|].
  destruct (free_buf _ _ _ _ Hinv Hlt) as (j & b & Hb & H1 & H2). exists j, b.
  split; [apply (lru_in _ _ _ _ _ Hinv); rewrite <- (bi_len _ _ _ _ Hinv); now apply lookup_lt_Some in Hb|]. split; [done|].
  now apply (refcnt_0 _ _ _ _ _ _ Hinv Hb).
Qed.

Lemma bget_spec i n H Pn s blk :
  ready i n (km s) -> binv n H Pn s -> available s blk H Pn ->
  (forall k b, k ∈ H -> bufs s !! k = Some b -> b_blockno b <> blk) ->
  wp (bget ROOTDEV blk) (got s n blk H Pn) s.
Proof.
  intros Hr Hinv Hav Hheld. pose proof Hr as (Hok & Hlen & Hfree & _). unfold bget. wsteps. apply wp_mk.
  apply (wp_acquire _ 3); [done|lia|apply Hfree|]. intros K1 HokK1 Ha. wsteps. simpl lru.
  set (s1 := set_km (set_lks K1 (km s)) s).
  assert (forall i, i ∈ lru s -> is_Some (bufs s !! i)) as Hsome.
  { intros j Hj. apply (lru_in _ _ _ _ _ Hinv) in Hj. eapply buf_exists; eauto. }
  eapply wp_mono; [apply (bscan_spec (lru s) (is_block ROOTDEV blk) s1); exact Hsome|].
  intros [k|] s2 [-> Hk].
  - destruct Hk as (l1 & l2 & b & El & Hb & Hc & _). simpl in Hb.
    assert (k < 30)%nat as Hk30 by (rewrite <- (bi_len _ _ _ _ Hinv); now apply lookup_lt_Some in Hb).
    assert (~ k ∈ H) as HkH.
    { intros Hin. apply is_block_spec in Hc as [_ Hc]. now apply (Hheld k b Hin). }
    wsteps. apply (wp_updbuf k _ b); [done|]. wsteps. apply wp_mk.
    eapply (wp_release _ 3 (lks (km s)) K1); [done|lia|apply Hfree|done|reflexivity|]. intros K2 HK2.
    set (b' := set_b_refcnt _ b).
    match goal with |- wp _ _ ?x => set (s3 := x) end.
    pose proof (calm_lks (km s) K2 HK2 : calm (km s) (km s3)) as Hcalm3.
    eapply wp_mono; [apply (acquire_buf i n k H Pn s s3); auto; now apply (ready_calm i n (km s))|].
    intros r s4 (-> & m & Hm & ->). exists m, b, b'. split; [etransitivity; [exact Hcalm3|exact Hm]|].
    pose proof (proj1 (is_block_spec _ _ _) Hc) as [Hd Hbl].
    split; [done|]. split; [done|]. split; [done|]. split; [done|]. split.
    { unfold b'. simpl. rewrite (bi_ref _ _ _ _ Hinv k b Hb). rewrite bool_decide_eq_false_2 by done.
      rewrite u32_small; unfold one; destruct (bool_decide (k ∈ Pn)); lia. }
    split; [left; done|]. done.
  - wsteps. eapply wp_mono; [apply (bscan_spec (reverse (lru s)) (fun b => b_refcnt b =? 0) s1)|].
    { intros j Hj. apply Hsome. now rewrite elem_of_reverse in Hj. }
    assert (forall j bj, bufs s !! j = Some bj -> is_block ROOTDEV blk bj = false) as Hnone.
    { intros j bj Hj. apply (Hk j bj); [|done]. apply (lru_in _ _ _ _ _ Hinv).
      rewrite <- (bi_len _ _ _ _ Hinv). now apply lookup_lt_Some in Hj. }
    intros [k|] s2 [-> Hk2].
    + destruct Hk2 as (l1 & l2 & b & El & Hb & Hc & _). simpl in Hb. apply Z.eqb_eq in Hc.
      assert (k < 30)%nat as Hk30 by (rewrite <- (bi_len _ _ _ _ Hinv); now apply lookup_lt_Some in Hb).
      apply (refcnt_0 _ _ _ _ _ _ Hinv Hb) in Hc as [HkH HkP].
      pose proof (lookup_lt_Some _ _ _ Hb) as Hlt.
      wsteps. apply (wp_updbuf k _ b); [done|]. wsteps.
      eapply wp_updbuf; [simpl; now rewrite list_lookup_insert_eq|]. simpl. rewrite list_insert_insert_eq. wsteps.
      eapply wp_updbuf; [simpl; now rewrite list_lookup_insert_eq|]. simpl. rewrite list_insert_insert_eq. wsteps.
      eapply wp_updbuf; [simpl; now rewrite list_lookup_insert_eq|]. simpl. rewrite list_insert_insert_eq. wsteps.
      apply wp_mk.
      eapply (wp_release _ 3 (lks (km s)) K1); [done|lia|apply Hfree|done|reflexivity|]. intros K2 HK2.
      match goal with |- wp _ _ ?x => set (s3 := x) end.
      pose proof (calm_lks (km s) K2 HK2 : calm (km s) (km s3)) as Hcalm3.
    eapply wp_mono; [apply (acquire_buf i n k H Pn s s3); auto; now apply (ready_calm i n (km s))|].
      intros r s4 (-> & m & Hm & ->). exists m, b, (set_b_refcnt 1 (set_b_valid false (set_b_blockno blk (set_b_dev ROOTDEV b)))). split; [etransitivity; [exact Hcalm3|exact Hm]|].
      split; [done|]. split; [done|]. split; [reflexivity|]. split; [reflexivity|].
      split; [simpl; now rewrite bool_decide_eq_false_2 by done|]. split; [right; done|]. reflexivity.
    + exfalso. destruct (buf_for_block _ _ _ _ _ Hinv Hav Hnone) as (j & b & Hj & Hb & E). specialize (Hk2 j b). rewrite E in Hk2.
      discriminate Hk2; [|done]. now rewrite elem_of_reverse.
Qed.

(** ** [bread] *)

Lemma buf_lock_inj i j : buf_lock i = buf_lock j -> i = j.
Proof. unfold buf_lock. lia. Qed.

Lemma one_cons k H i : one (bool_decide (i ∈ k :: H)) = if decide (i = k) then 1 else one (bool_decide (i ∈ H)).
Proof.
  destruct (decide (i = k)) as [->|Hne].
  - rewrite bool_decide_eq_true_2 by left. done.
  - f_equal. apply bool_decide_ext. rewrite elem_of_cons. tauto.
Qed.

(** Buffer [k] of [s] becomes [b'], valid and held, for block [blk]. *)
Record holds n H Pn s (k : nat) b b' (s' : kern) : Prop := {
  ho_old : bufs s !! k = Some b; ho_new : ~ k ∈ H;
  ho_bufs : bufs s' = <[k := b']> (bufs s); ho_lru : lru s' = lru s; ho_dsk : dsk s' = dsk s;
  ho_lock : slocks s' = <[buf_lock k := Sleeplock true n]> (slocks s);
  ho_dev : b_dev b' = ROOTDEV; ho_valid : b_valid b' = true;
  ho_ref : b_refcnt b' = 1 + one (bool_decide (k ∈ Pn));
  ho_case : is_block ROOTDEV (b_blockno b') b = true \/
    (~ k ∈ Pn /\ forall j bj, bufs s !! j = Some bj -> is_block ROOTDEV (b_blockno b') bj = false);
}.

Lemma holds_lookup n H Pn s k b b' s' i : binv n H Pn s -> holds n H Pn s k b b' s' ->
  bufs s' !! i = if decide (i = k) then Some b' else bufs s !! i.
Proof.
  intros Hinv Ho. rewrite (ho_bufs _ _ _ _ _ _ _ _ Ho). destruct (decide (i = k)) as [->|Hne].
  - apply list_lookup_insert_eq. exact (lookup_lt_Some _ _ _ (ho_old _ _ _ _ _ _ _ _ Ho)).
  - now apply list_lookup_insert_ne.
Qed.

Lemma holds_inv n H Pn s k b b' s' : binv n H Pn s -> holds n H Pn s k b b' s' -> binv n (k :: H) Pn s'.
Proof.
  intros Hinv Ho. pose proof (fun i => holds_lookup _ _ _ _ _ _ _ _ i Hinv Ho) as Hl.
  destruct Ho as [H1 H2 H3 H4 H5 H6 H7 H8 H9 H10].
  assert (k < 30)%nat as Hk30 by (rewrite <- (bi_len _ _ _ _ Hinv); now apply lookup_lt_Some in H1).
  assert (forall j bj, j <> k -> bufs s !! j = Some bj -> b_dev bj = ROOTDEV -> b_blockno bj <> b_blockno b') as Hothers.
  { intros j bj Hne Hj Hd Hb. destruct H10 as [Hc|[_ Hc]].
    - apply is_block_spec in Hc as [Hc1 Hc2]. apply Hne. eapply (bi_uniq _ _ _ _ Hinv); eauto. congruence.
    - specialize (Hc j bj Hj). rewrite (proj2 (is_block_spec _ _ _)) in Hc; [discriminate Hc|done]. }
  constructor.
  - rewrite H3, length_insert. apply Hinv.
  - rewrite H4. apply Hinv.
  - apply NoDup_cons. split; [done|apply Hinv].
  - apply Hinv.
  - intros i bi. rewrite Hl, one_cons. destruct (decide (i = k)) as [->|Hne]; [intros [= <-]; done|apply Hinv].
  - intros i Hi. unfold getsl. rewrite H6. destruct (decide (i = k)) as [->|Hne].
    + rewrite lookup_insert_eq, bool_decide_eq_true_2 by left. done.
    + rewrite lookup_insert_ne by (intros E; apply Hne; symmetry; now apply buf_lock_inj).
      fold (getsl s (buf_lock i)). rewrite (bi_lock _ _ _ _ Hinv i Hi).
      erewrite bool_decide_ext; [reflexivity|]. rewrite elem_of_cons. tauto.
  - intros i bi. rewrite Hl. destruct (decide (i = k)) as [->|Hne]; [intros [= <-] _; done|].
    intros Hi Hin. apply (bi_used _ _ _ _ Hinv i bi Hi). rewrite elem_of_cons in Hin. tauto.
  - intros i bi. rewrite Hl. destruct (decide (i = k)) as [->|Hne]; [intros [= <-] _; done|apply Hinv].
  - intros i. rewrite elem_of_cons. intros [[->|Hin]|Hin]; [done|..]; apply (bi_range _ _ _ _ Hinv); tauto.
  - intros i j bi bj. rewrite !Hl. destruct (decide (i = k)) as [->|Hi], (decide (j = k)) as [->|Hj]; [done|..].
    + intros [= <-] Hbj _ Hd Hb. exfalso. now apply (Hothers j bj).
    + intros Hbi [= <-] Hd _ Hb. exfalso. now apply (Hothers i bi).
    + intros Hbi Hbj. now apply (bi_uniq _ _ _ _ Hinv).
  - intros i bi. rewrite Hl. destruct (decide (i = k)) as [->|Hne]; [intros _ Hn; exfalso; apply Hn; left|].
    intros Hi Hn HP. rewrite H5. apply (bi_clean _ _ _ _ Hinv i bi Hi); [|done]. intros Hin. apply Hn. now right.
Qed.

Lemma holds_view n H Pn s k b b' s' blk :
  binv n H Pn s -> holds n H Pn s k b b' s' -> b_data b' = bview s (b_blockno b') -> bview s' blk = bview s blk.
Proof.
  intros Hinv Ho Hd. pose proof (holds_inv _ _ _ _ _ _ _ _ Hinv Ho) as Hinv'.
  pose proof (fun i => holds_lookup _ _ _ _ _ _ _ _ i Hinv Ho) as Hl.
  destruct Ho as [H1 H2 H3 H4 H5 H6 H7 H8 H9 H10].
  destruct (decide (blk = b_blockno b')) as [->|Hne].
  { rewrite (bview_cached _ _ _ s' k b' _ Hinv'); [done| |done|done]. rewrite Hl, decide_True; done. }
  destruct (cached_dec s' blk) as [(j & bj & Hj & Hv & Hb)|Hno].
  - apply is_block_spec in Hb as [_ Hb]. rewrite (bview_cached _ _ _ s' j bj _ Hinv') by done.
    rewrite Hl in Hj. destruct (decide (j = k)) as [->|Hjk]; [congruence|].
    now rewrite (bview_cached _ _ _ s j bj _ Hinv).
  - rewrite (bview_uncached s') by done. rewrite H5.
    destruct (cached_dec s blk) as [(j & bj & Hj & Hv & Hb)|Hno']; [|now rewrite bview_uncached].
    rewrite (bview_cached _ _ _ s j bj _ Hinv); auto; [|now apply is_block_spec in Hb as [_ ?]].
    destruct (decide (j = k)) as [->|Hjk].
    + rewrite H1 in Hj. injection Hj as <-. apply is_block_spec in Hb as [Hbd Hb]. subst blk.
      destruct H10 as [Hc|[HP _]]; [apply is_block_spec in Hc; tauto|].
      symmetry. now apply (bi_clean _ _ _ _ Hinv k).
    + rewrite (Hno j bj) in Hb; [discriminate Hb| |done]. rewrite Hl, decide_False; done.
Qed.

(** [bread] returns a held buffer with the contents of the block. *)
Definition was_read s n blk H Pn (k : nat) (s' : kern) : Prop :=
  exists b b', holds n H Pn s k b b' s' /\ b_blockno b' = blk /\ b_data b' = bview s blk /\ upper s s'.

Lemma bread_spec i n H Pn s blk :
  ready i n (km s) -> binv n H Pn s -> available s blk H Pn ->
  (forall k b, k ∈ H -> bufs s !! k = Some b -> b_blockno b <> blk) ->
  wp (bread ROOTDEV blk) (was_read s n blk H Pn) s.
Proof.
  intros Hr Hinv Hav Hheld. unfold bread. wsteps. eapply wp_mono; [now apply (bget_spec i n H Pn)|].
  intros k s1 (m & b & b' & Hm & Hb & HkH & G1 & G2 & G3 & G4 & ->).
  pose proof (lookup_lt_Some _ _ _ Hb) as Hlt. wsteps.
  eapply wp_getbuf; [simpl; now rewrite list_lookup_insert_eq|].
  assert (forall id, 30 <= id -> buf_lock k <> id) as Hid.
  { intros id Hid. unfold buf_lock. rewrite (bi_len _ _ _ _ Hinv) in Hlt. lia. }
  assert (is_block ROOTDEV (b_blockno b') b = true \/ ~ k ∈ Pn /\
    (forall j bj, bufs s !! j = Some bj -> is_block ROOTDEV (b_blockno b') bj = false)) as Hcase
    by (rewrite G2; destruct G4 as [[? _]|(_ & ? & ?)]; auto).
  assert (b_valid b' = false -> bview s blk = dread (dsk s) blk) as Hdisk.
  { intros Hv. apply bview_uncached. intros j bj Hj Hvj. destruct G4 as [(Hc & Hvv & _)|(_ & _ & Hn)]; [|now apply (Hn j)].
    apply not_true_iff_false. intros Hc'. apply is_block_spec in Hc as [Hc1 Hc2], Hc' as [Hc3 Hc4].
    assert (j = k) as -> by (eapply (bi_uniq _ _ _ _ Hinv); eauto; congruence). congruence. }
  destruct (b_valid b') eqn:Ev; simpl negb; cbv iota.
  - wsteps. exists b, b'. split; [constructor; auto|]. split; [done|]. split.
    + destruct G4 as [(Hc & Hvv & ->)|(E & _)]; [|discriminate E]. symmetry.
      apply is_block_spec in Hc as [_ Hc]. eapply bview_cached; eauto.
    + split; [exact Hm|]. do 5 (split; [done|]). intros id Hi. unfold getsl. simpl.
      rewrite lookup_insert_ne by auto. done.
  - wsteps. eapply wp_mono; [apply (disk_read i n k b')|].
    { now apply (ready_calm i n (km s)). }
    { simpl. now rewrite list_lookup_insert_eq. }
    intros [] s2 (m2 & Hm2 & ->). simpl. rewrite list_insert_insert_eq.
    eapply wp_updbuf; [simpl; now rewrite list_lookup_insert_eq|]. simpl. rewrite list_insert_insert_eq. wsteps.
    exists b, (set_b_valid true (set_b_data (dread (dsk s) (b_blockno b')) b')).
    split; [constructor; auto|]. split; [done|]. split; [simpl; rewrite G2; now rewrite Hdisk|].
    split; [simpl; etransitivity; [exact Hm|exact Hm2]|]. do 5 (split; [done|]). intros id Hi. unfold getsl. simpl.
    rewrite lookup_insert_ne by auto. done.
Qed.

(** ** Writing and releasing *)

Lemma dread_dwrite d (x y : Z) v : dread (dwrite d x v) y = if decide (x = y) then v else dread d y.
Proof.
  unfold dread, dmap, dwrite. simpl. rewrite foldl_app. simpl. unfold dapply at 1. simpl.
  destruct (decide (x = y)) as [->|Hne]; [now rewrite lookup_insert_eq|now rewrite lookup_insert_ne].
Qed.

(** The view depends on the buffers and, for blocks without one, the disk. *)
Lemma bview_ext s s' blk :
  bufs s' = bufs s ->
  ((forall j b, bufs s !! j = Some b -> b_valid b = true -> is_block ROOTDEV blk b = false) ->
   dread (dsk s') blk = dread (dsk s) blk) ->
  bview s' blk = bview s blk.
Proof.
  intros Hb Hd. destruct (cached_dec s blk) as [(j & bj & Hj & Hv & Hc)|Hno].
  - unfold bview. rewrite Hb. destruct (filter _ (bufs s)) as [|b0 l] eqn:E; [|done].
    exfalso. apply (not_elem_of_nil bj). rewrite <- E. apply list_elem_of_filter.
    split; [done|now apply list_elem_of_lookup_2 in Hj].
  - rewrite (bview_uncached s'), (bview_uncached s) by (try rewrite Hb; done). auto.
Qed.

Lemma bwrite_spec i n H Pn s k b :
  ready i n (km s) -> binv n H Pn s -> k ∈ H -> bufs s !! k = Some b ->
  wp (bwrite k) (fun _ s' => exists m, calm (km s) m /\
    s' = set_km m (set_dsk (dwrite (dsk s) (b_blockno b) (b_data b)) s) /\
    binv n H Pn s' /\ forall blk, bview s' blk = bview s blk) s.
Proof.
  intros Hr Hinv Hk Hb. unfold bwrite. wsteps. eapply wp_mono; [now apply (holdingsleep_spec i n)|].
  intros r s1 (-> & m & Hm & ->). wsteps.
  { rewrite (bi_lock _ _ _ _ Hinv k) by (apply (bi_range _ _ _ _ Hinv); now left).
    rewrite bool_decide_eq_true_2 by done. simpl. apply Z.eqb_refl. }
  eapply wp_mono; [apply (disk_write i n k b); [now apply (ready_calm i n (km s))|done]|].
  intros [] s2 (m2 & Hm2 & ->). exists m2. split; [etransitivity; [exact Hm|exact Hm2]|]. split; [done|].
  pose proof (bi_used _ _ _ _ Hinv k b Hb ltac:(now left)) as Hv.
  pose proof (bi_dev _ _ _ _ Hinv k b Hb Hv) as Hd. split.
  - destruct Hinv as [A1 A2 A3 A4 A5 A6 A7 A7' A8 A9 A10]. constructor; auto.
    intros j bj Hj Hn HP Hvj. simpl. rewrite dread_dwrite, decide_False; [now apply (A10 j)|].
    intros E. assert (k = j) as <- by (eapply A9; eauto). done.
  - intros blk. apply bview_ext; [done|]. intros Hno. simpl. rewrite dread_dwrite, decide_False; [done|].
    intros <-. specialize (Hno k b Hb Hv). rewrite (proj2 (is_block_spec _ _ _)) in Hno; done.
Qed.

(** The running process changes the data of a buffer it holds. *)
Lemma data_spec n H Pn s k b v :
  binv n H Pn s -> k ∈ H -> bufs s !! k = Some b ->
  let s' := set_bufs (<[k := set_b_data v b]> (bufs s)) s in
  binv n H Pn s' /\ forall blk, bview s' blk = if decide (blk = b_blockno b) then v else bview s blk.
Proof.
  intros Hinv Hk Hb s'. pose proof (lookup_lt_Some _ _ _ Hb) as Hlt.
  assert (forall i, bufs s' !! i = if decide (i = k) then Some (set_b_data v b) else bufs s !! i) as Hl.
  { intros i. simpl. destruct (decide (i = k)) as [->|]; [now apply list_lookup_insert_eq|now apply list_lookup_insert_ne]. }
  assert (forall i bi, bufs s' !! i = Some bi -> exists bo, bufs s !! i = Some bo /\
    b_dev bi = b_dev bo /\ b_blockno bi = b_blockno bo /\ b_valid bi = b_valid bo /\ b_refcnt bi = b_refcnt bo /\
    (i <> k -> bi = bo)) as Hold.
  { intros i bi. rewrite Hl. destruct (decide (i = k)) as [->|Hne]; [intros [= <-]; exists b|intros Hi; exists bi]; done. }
  pose proof (bi_used _ _ _ _ Hinv k b Hb ltac:(now left)) as Hv.
  assert (binv n H Pn s') as Hinv'.
  { constructor; try apply Hinv.
    - simpl. rewrite length_insert. apply Hinv.
    - intros i bi Hi. destruct (Hold i bi Hi) as (bo & Ho & _ & _ & _ & -> & _). now apply (bi_ref _ _ _ _ Hinv).
    - intros i bi Hi. destruct (Hold i bi Hi) as (bo & Ho & _ & _ & -> & _ & _). now apply (bi_used _ _ _ _ Hinv).
    - intros i bi Hi. destruct (Hold i bi Hi) as (bo & Ho & -> & _ & -> & _ & _). now apply (bi_dev _ _ _ _ Hinv i).
    - intros i j bi bj Hi Hj. destruct (Hold i bi Hi) as (bo & Ho & -> & -> & _).
      destruct (Hold j bj Hj) as (bo' & Ho' & -> & -> & _). now apply (bi_uniq _ _ _ _ Hinv).
    - intros i bi Hi Hn. destruct (Hold i bi Hi) as (bo & Ho & _ & _ & _ & _ & E).
      rewrite E by (intros ->; done). now apply (bi_clean _ _ _ _ Hinv). }
  split; [done|]. intros blk. destruct (decide (blk = b_blockno b)) as [->|Hne].
  - now rewrite (bview_cached _ _ _ s' k (set_b_data v b) _ Hinv') by (rewrite ?Hl, ?decide_True; done).
  - destruct (cached_dec s blk) as [(j & bj & Hj & Hvj & Hc)|Hno].
    + apply is_block_spec in Hc as [_ Hc]. assert (j <> k) as Hjk by (intros ->; congruence).
      rewrite (bview_cached _ _ _ s j bj _ Hinv), (bview_cached _ _ _ s' j bj _ Hinv'); auto.
      rewrite Hl, decide_False; done.
    + rewrite (bview_uncached s), (bview_uncached s') by (try done; intros j bj Hj Hvj;
        destruct (Hold j bj Hj) as (bo & Ho & E1 & E2 & E3 & _ & _); unfold is_block; rewrite E1, E2;
        apply (Hno j bo Ho); congruence). done.
Qed.

(** The reference count of buffer [k] changes, with its holders. *)
Lemma binv_ref n H Pn H' Pn' s s' k b r :
  binv n H Pn s -> bufs s !! k = Some b -> b_valid b = true ->
  bufs s' = <[k := set_b_refcnt r b]> (bufs s) -> lru s' ≡ₚ seq 0 30 -> dsk s' = dsk s ->
  NoDup H' -> NoDup Pn' -> (forall i, i <> k -> (i ∈ H' <-> i ∈ H) /\ (i ∈ Pn' <-> i ∈ Pn)) ->
  r = one (bool_decide (k ∈ H')) + one (bool_decide (k ∈ Pn')) ->
  (forall i, (i < 30)%nat -> getsl s' (buf_lock i) = if bool_decide (i ∈ H') then Sleeplock true n else Sleeplock false 0) ->
  (~ k ∈ H' -> ~ k ∈ Pn' -> b_data b = dread (dsk s) (b_blockno b)) ->
  binv n H' Pn' s' /\ forall blk, bview s' blk = bview s blk.
Proof.
  intros Hinv Hb Hv Hbufs Hlru Hdsk HnH HnP Hin Hr Hlock Hclean.
  pose proof (lookup_lt_Some _ _ _ Hb) as Hlt.
  assert (forall i, bufs s' !! i = if decide (i = k) then Some (set_b_refcnt r b) else bufs s !! i) as Hl.
  { intros i. rewrite Hbufs. destruct (decide (i = k)) as [->|]; [now apply list_lookup_insert_eq|now apply list_lookup_insert_ne]. }
  assert (forall i bi, bufs s' !! i = Some bi -> exists bo, bufs s !! i = Some bo /\
    b_dev bi = b_dev bo /\ b_blockno bi = b_blockno bo /\ b_valid bi = b_valid bo /\ b_data bi = b_data bo) as Hold.
  { intros i bi. rewrite Hl. destruct (decide (i = k)) as [->|Hne]; [intros [= <-]; exists b|intros Hi; exists bi]; done. }
  assert (binv n H' Pn' s') as Hinv'.
  { constructor; auto.
    - rewrite Hbufs, length_insert. apply Hinv.
    - intros i bi. rewrite Hl. destruct (decide (i = k)) as [->|Hne]; [intros [= <-]; done|]. intros Hi.
      rewrite (bi_ref _ _ _ _ Hinv i bi Hi). destruct (Hin i Hne) as [E1 E2].
      now rewrite (bool_decide_ext _ _ E1), (bool_decide_ext _ _ E2).
    - intros i bi. rewrite Hl. destruct (decide (i = k)) as [->|Hne]; [intros [= <-]; done|]. intros Hi.
      destruct (Hin i Hne) as [-> ->]. now apply (bi_used _ _ _ _ Hinv).
    - intros i bi Hi. destruct (Hold i bi Hi) as (bo & Ho & -> & _ & -> & _). now apply (bi_dev _ _ _ _ Hinv i).
    - intros i Hi. destruct (decide (i = k)) as [->|Hne]; [rewrite <- (bi_len _ _ _ _ Hinv); done|].
      destruct (Hin i Hne) as [E1 E2]. rewrite E1, E2 in Hi. now apply (bi_range _ _ _ _ Hinv).
    - intros i j bi bj Hi Hj. destruct (Hold i bi Hi) as (bo & Ho & -> & -> & _).
      destruct (Hold j bj Hj) as (bo' & Ho' & -> & -> & _). now apply (bi_uniq _ _ _ _ Hinv).
    - intros i bi. rewrite Hl, Hdsk. destruct (decide (i = k)) as [->|Hne]; [intros [= <-]; simpl; auto|]. intros Hi.
      destruct (Hin i Hne) as [-> ->]. now apply (bi_clean _ _ _ _ Hinv). }
  split; [done|]. intros blk.
  destruct (cached_dec s' blk) as [(j & bj & Hj & Hvj & Hc)|Hno].
  - apply is_block_spec in Hc as [_ Hc]. destruct (Hold j bj Hj) as (bo & Ho & E1 & E2 & E3 & E4).
    rewrite (bview_cached _ _ _ s' j bj _ Hinv'), (bview_cached _ _ _ s j bo _ Hinv); congruence.
  - rewrite (bview_uncached s') by done. rewrite Hdsk, (bview_uncached s); [done|].
    intros j bo Ho Hvo. destruct (decide (j = k)) as [->|Hne].
    + specialize (Hno k (set_b_refcnt r b)). rewrite Hl, decide_True in Hno by done.
      rewrite Hb in Ho. injection Ho as <-. now apply Hno.
    + apply (Hno j bo); [|done]. rewrite Hl, decide_False; done.
Qed.

Lemma lru_move k (l : list nat) : k ∈ l -> NoDup l -> k :: filter (fun j => j <> k) l ≡ₚ l.
Proof.
  induction l as [|x l IH]; intros Hk Hnd; [now apply not_elem_of_nil in Hk|].
  apply NoDup_cons in Hnd as [Hx Hnd]. rewrite filter_cons. destruct (decide (x <> k)) as [Hne|He].
  - rewrite Permutation_swap. constructor. apply IH; [|done]. apply elem_of_cons in Hk as [->|?]; done.
  - assert (x = k) as -> by (destruct (decide (x = k)); tauto). constructor.
    clear IH Hk. induction l as [|y l IH]; [done|]. apply NoDup_cons in Hnd as [Hy Hnd].
    rewrite filter_cons, decide_True; [constructor; apply IH; [intros Hin; apply Hx; now right|done]|].
    intros ->. apply Hx. left.
Qed.

Lemma brelse_spec i n H Pn s k b :
  ready i n (km s) -> binv n (k :: H) Pn s -> bufs s !! k = Some b ->
  (k ∈ Pn \/ b_data b = dread (dsk s) (b_blockno b)) ->
  wp (brelse k) (fun _ s' => upper s s' /\ dsk s' = dsk s /\
    bufs s' = <[k := set_b_refcnt (one (bool_decide (k ∈ Pn))) b]> (bufs s) /\
    lru s' = (if bool_decide (k ∈ Pn) then lru s else k :: filter (fun j => j <> k) (lru s)) /\
    binv n H Pn s' /\ forall blk, bview s' blk = bview s blk) s.
Proof.
  intros Hr Hinv Hb Hcl. unfold brelse. wsteps. eapply wp_mono; [now apply (holdingsleep_spec i n)|].
  intros r s1 (-> & m & Hm & ->). pose proof (bi_range _ _ _ _ Hinv k ltac:(left; left)) as Hk30. wsteps.
  { rewrite (bi_lock _ _ _ _ Hinv k Hk30). rewrite bool_decide_eq_true_2 by left. simpl. apply Z.eqb_refl. }
  pose proof (ready_calm i n _ _ Hr Hm) as Hr1.
  eapply wp_mono; [now apply (releasesleep_spec i n)|]. intros [] s2 (m2 & Hm2 & ->). simpl in Hm2. wsteps. apply wp_mk.
  pose proof (ready_calm i n _ _ Hr1 Hm2) as (Hok & _ & Hfree & _).
  apply (wp_acquire _ 3); [done|lia|apply Hfree|]. intros K1 HokK1 Ha. wsteps.
  eapply wp_updbuf; [exact Hb|]. wsteps. pose proof (lookup_lt_Some _ _ _ Hb) as Hlt.
  eapply wp_getbuf; [simpl; now rewrite list_lookup_insert_eq|]. simpl.
  pose proof (bi_H _ _ _ _ Hinv) as HnH. apply NoDup_cons in HnH as [HkH HnH].
  assert (u32 (b_refcnt b - 1) = one (bool_decide (k ∈ Pn))) as Er.
  { rewrite (bi_ref _ _ _ _ Hinv k b Hb), one_cons, decide_True by done.
    unfold one. destruct (bool_decide (k ∈ Pn)); reflexivity. }
  rewrite Er.
  assert (forall K2, lk_eq (lks m2) K2 -> forall l',
    l' = (if bool_decide (k ∈ Pn) then lru s else k :: filter (fun j => j <> k) (lru s)) ->
    let s' := Kern (set_lks K2 m2) (<[buf_lock k := Sleeplock false 0]> (slocks s))
      (<[k := set_b_refcnt (one (bool_decide (k ∈ Pn))) b]> (bufs s)) l' (dsk s) (lg s) (sb s) (itable s) (ftable s) (pipes s) (cons s) (uart_ s) (devsw s) (first s) in
    upper s s' /\ dsk s' = dsk s /\ bufs s' = <[k := set_b_refcnt (one (bool_decide (k ∈ Pn))) b]> (bufs s) /\
    lru s' = l' /\ binv n H Pn s' /\ forall blk, bview s' blk = bview s blk) as Hfin.
  { intros K2 HK2 l' Hl' s'. split.
    - split; [simpl; etransitivity; [exact Hm|]; etransitivity; [exact Hm2|now apply calm_lks]|].
      do 5 (split; [done|]). intros id Hid. unfold getsl. simpl. rewrite lookup_insert_ne; [done|]. unfold buf_lock. lia.
    - split; [done|]. split; [done|]. split; [done|].
      apply (binv_ref n (k :: H) Pn H Pn s s' k b (one (bool_decide (k ∈ Pn)))); auto.
      + apply (bi_used _ _ _ _ Hinv k b Hb). left. left.
      + simpl. rewrite Hl'. destruct (bool_decide (k ∈ Pn)); [apply Hinv|].
        rewrite lru_move; [apply Hinv|now apply (lru_in _ _ _ _ _ Hinv)|].
        rewrite (bi_lru _ _ _ _ Hinv). apply NoDup_seq.
      + apply Hinv.
      + intros j Hj. rewrite elem_of_cons. tauto.
      + rewrite (bool_decide_eq_false_2 (k ∈ H)) by done. simpl. lia.
      + intros j Hj. unfold getsl. simpl. destruct (decide (j = k)) as [->|Hne].
        * now rewrite lookup_insert_eq, (bool_decide_eq_false_2 (k ∈ H)) by done.
        * rewrite lookup_insert_ne by (intros E; apply Hne; symmetry; now apply buf_lock_inj).
          fold (getsl s (buf_lock j)). rewrite (bi_lock _ _ _ _ Hinv j Hj).
          erewrite bool_decide_ext; [reflexivity|]. rewrite elem_of_cons. tauto.
      + intros _ HP. destruct Hcl; [tauto|done]. }
  destruct (bool_decide (k ∈ Pn)) eqn:EP.
  - simpl. wsteps. apply wp_mk. eapply (wp_release _ 3 (lks m2) K1); [done|lia|apply Hfree|done|reflexivity|].
    intros K2 HK2. exact (Hfin K2 HK2 _ eq_refl).
  - simpl. wsteps. apply wp_mk. eapply (wp_release _ 3 (lks m2) K1); [done|lia|apply Hfree|done|reflexivity|].
    intros K2 HK2. exact (Hfin K2 HK2 _ eq_refl).
Qed.

(** [bpin] and [bunpin], also inside the log's critical section. *)
Lemma pin_spec d k b f s :
  lk_ok d (lks (km s)) -> 1 <= d -> getlock (lks (km s)) Lbcache = unlocked -> bufs s !! k = Some b ->
  wp (do! mk (lk (acquire Lbcache)); do! updbuf k f; mk (lk (release Lbcache)))
    (fun _ s' => exists K, lk_eq (lks (km s)) K /\
      s' = set_km (set_lks K (km s)) (set_bufs (<[k := f b]> (bufs s)) s)) s.
Proof.
  intros Hok Hd Hl Hb. wsteps. apply wp_mk. apply (wp_acquire _ d); auto. intros K1 HokK1 Ha. wsteps.
  apply (wp_updbuf k f b); [done|]. wsteps. apply wp_mk.
  apply (wp_release _ d (lks (km s)) K1); [done|done|done|done|reflexivity|]. intros K2 HK2. exists K2. done.
Qed.
End Facts.

Section Properties.
Context {P : Patience} {D : DiskDriver} {DO : DiskOk D}.
Implicit Types (s : kern) (H Pn : list nat).

(** C7: the cache is coherent.  [bread] returns a buffer, held by the caller
    alone, whose data is the current contents of the block: the cached copy
    if there is one, the disk's otherwise.  The block seen through the cache
    is the same before and after for every block number, although an unused
    buffer may have been recycled, and the cache's invariant (one copy per
    block, unused copies equal to the disk) holds again. *)
Theorem bread_coherent i n H Pn s blk :
  ready i n (km s) -> binv n H Pn s -> available s blk H Pn ->
  (forall k b, k ∈ H -> bufs s !! k = Some b -> b_blockno b <> blk) ->
  wp (bread ROOTDEV blk) (fun k s' => upper s s' /\ dsk s' = dsk s /\ ~ k ∈ H /\
    (exists b, bufs s' !! k = Some b /\ b_blockno b = blk /\ b_valid b = true /\ b_data b = bview s blk) /\
    binv n (k :: H) Pn s' /\ forall blk', bview s' blk' = bview s blk') s.
Proof.
  intros Hr Hinv Hav Hh. eapply wp_mono; [now apply (bread_spec i n H Pn)|].
  intros k s' (b & b' & Ho & Hb & Hd & Hu). split; [done|]. split; [apply Ho|]. split; [apply Ho|]. split.
  { exists b'. rewrite (holds_lookup _ _ _ _ _ _ _ _ k Hinv Ho), decide_True by done.
    split; [done|]. split; [done|]. split; [apply Ho|done]. }
  split; [eapply holds_inv; eauto|]. intros blk'. eapply holds_view; eauto. now rewrite Hb.
Qed.

(** What is written is what is read.  A process that reads a block,
    replaces its data, writes it and releases it finds the new data on its
    next [bread], in the buffer as on the disk, and no other block has
    changed. *)
Theorem bwrite_bread i n s blk v :
  ready i n (km s) -> binv n [] [] s ->
  wp (let! k := bread ROOTDEV blk in
      do! updbuf k (set_b_data v);
      do! bwrite k;
      do! brelse k;
      bread ROOTDEV blk)
    (fun k s' => (exists b, bufs s' !! k = Some b /\ b_blockno b = blk /\ b_data b = v) /\
       binv n [k] [] s' /\ dread (dsk s') blk = v /\
       forall blk', blk' <> blk -> bview s' blk' = bview s blk' /\ dread (dsk s') blk' = dread (dsk s) blk') s.
Proof.
  intros Hr Hinv. wsteps. eapply wp_mono.
  { apply (bread_spec i n [] []); auto; [right; simpl; lia|]. intros k b Hk. now apply not_elem_of_nil in Hk. }
  intros k s1 (b & b1 & Ho & Hbl & Hd & Hu). pose proof (holds_inv _ _ _ _ _ _ _ _ Hinv Ho) as Hinv1.
  assert (bufs s1 !! k = Some b1) as Hk1 by (rewrite (holds_lookup _ _ _ _ _ _ _ _ k Hinv Ho), decide_True; done).
  assert (forall blk', bview s1 blk' = bview s blk') as V1 by (intros; eapply holds_view; eauto; now rewrite Hbl).
  wsteps. apply (wp_updbuf k _ b1); [done|]. wsteps.
  destruct (data_spec n [k] [] s1 k b1 v Hinv1 ltac:(left) Hk1) as [Hinv2 V2].
  set (s2 := set_bufs _ s1) in *. rewrite Hbl in V2. pose proof (lookup_lt_Some _ _ _ Hk1) as Hlt.
  assert (bufs s2 !! k = Some (set_b_data v b1)) as Hk2 by (now apply list_lookup_insert_eq).
  assert (ready i n (km s2)) as Hr2 by (apply (ready_calm i n (km s)); [done|apply Hu]).
  eapply wp_mono; [apply (bwrite_spec i n [k] [] s2 k (set_b_data v b1)); auto; left|].
  intros _ s3 (m & Hm & -> & Hinv3 & V3). wsteps.
  assert (dsk s2 = dsk s) as Ed by (apply Ho). simpl b_blockno. simpl b_data.
  eapply wp_mono; [apply (brelse_spec i n [] [] _ k (set_b_data v b1)); auto|].
  { now apply (ready_calm i n (km s2)). }
  { right. simpl. rewrite dread_dwrite, decide_True; done. }
  intros _ s4 (Hu4 & Hd4 & Hb4 & _ & Hinv4 & V4).
  assert (ready i n (km s4)) as Hr4.
  { apply (ready_calm i n m); [now apply (ready_calm i n (km s2))|]. exact (proj1 Hu4). }
  eapply wp_mono.
  { apply (bread_spec i n [] []); auto; [right; simpl; lia|]. intros j bj Hj. now apply not_elem_of_nil in Hj. }
  intros k5 s5 (b4 & b5 & Ho5 & Hbl5 & Hd5 & Hu5).
  assert (forall blk', bview s5 blk' = if decide (blk' = blk) then v else bview s blk') as V5.
  { intros blk'. rewrite (holds_view _ _ _ _ _ _ _ _ blk' Hinv4 Ho5) by (now rewrite Hbl5).
    rewrite V4, V3, V2, V1. done. }
  assert (forall blk', dread (dsk s5) blk' = if decide (blk = blk') then v else dread (dsk s) blk') as D5.
  { intros blk'. rewrite (ho_dsk _ _ _ _ _ _ _ _ Ho5), Hd4. simpl. rewrite dread_dwrite, Hbl.
    change (dsk s1) with (dsk s2). now rewrite Ed. }
  split; [|split; [eapply holds_inv; eauto|split; [rewrite D5, decide_True; done|]]].
  - exists b5. rewrite (holds_lookup _ _ _ _ _ _ _ _ k5 Hinv4 Ho5), decide_True by done.
    split; [done|]. split; [done|]. rewrite Hd5, V4, V3, V2, decide_True; done.
  - intros blk' Hne. rewrite V5, D5, !decide_False by congruence. done.
Qed.

(** The cache can be exhausted.  When every buffer is in use and none
    holds the block, [bget] panics. *)
Theorem bget_no_buffers s blk :
  lk_ok 3 (lks (km s)) -> getlock (lks (km s)) Lbcache = unlocked ->
  (forall i, i ∈ lru s -> exists b, bufs s !! i = Some b /\ is_block ROOTDEV blk b = false /\ b_refcnt b <> 0) ->
  bget ROOTDEV blk s = Panic "bget: no buffers".
Proof.
  intros Hok Hl Hall. unfold bget.
  assert (wp (mk (lk (acquire Lbcache))) (fun _ s' => exists K, s' = set_km (set_lks K (km s)) s) s) as H1.
  { apply wp_mk. apply (wp_acquire _ 3); [done|lia|done|]. intros K _ _. exists K. done. }
  apply wp_Ret in H1 as ([] & s1 & E1 & K & ->). rewrite (bind_Ret _ _ _ _ _ E1).
  erewrite bind_Ret by reflexivity. simpl lru.
  set (s1 := set_km (set_lks K (km s)) s).
  assert (wp (bscan (lru s) (is_block ROOTDEV blk)) (fun r s' => r = None /\ s' = s1) s1) as H2.
  { eapply wp_mono; [apply bscan_spec; intros i Hi; destruct (Hall i Hi) as (b & Hb & _); exact (mk_is_Some _ _ Hb)|].
    intros [k|] s' [-> Hk]; [|done]. destruct Hk as (l1 & l2 & b & El & Hb & Hc & _).
    destruct (Hall k) as (b' & Hb' & Hc' & _); [rewrite El; apply elem_of_app; right; left|]. simpl in Hb. congruence. }
  apply wp_Ret in H2 as (r & s' & E2 & -> & ->). rewrite (bind_Ret _ _ _ _ _ E2).
  assert (wp (bscan (reverse (lru s)) (fun b => b_refcnt b =? 0)) (fun r s' => r = None /\ s' = s1) s1) as H3.
  { eapply wp_mono; [apply bscan_spec; intros i Hi; rewrite elem_of_reverse in Hi; destruct (Hall i Hi) as (b & Hb & _); exact (mk_is_Some _ _ Hb)|].
    intros [k|] s' [-> Hk]; [|done]. destruct Hk as (l1 & l2 & b & El & Hb & Hc & _). apply Z.eqb_eq in Hc.
    destruct (Hall k) as (b' & Hb' & _ & Hc'); [rewrite <- elem_of_reverse, El; apply elem_of_app; right; left|].
    simpl in Hb. congruence. }
  apply wp_Ret in H3 as (r & s' & E3 & -> & ->). now rewrite (bind_Ret _ _ _ _ _ E3).
Qed.
End Properties.
