(* ===== verification/Log.v ===== *)
(** * The redo log (kernel/log.c)

    Transactions of the file system: [begin_op], [log_write], [end_op], the
    commit and the recovery after a crash. *)

From S2P Require Import Prelude.
From S2P Require Import Mach.
From S2P Require Import Spinlock.
From S2P Require Import Kalloc.
From S2P Require Import Vm.
From S2P Require Import Proc.
From S2P Require Import Kstate.
From S2P Require Import Printk.
From S2P Require Import Sleeplock.
From S2P Require Import Bio.

Definition updlog (f : log -> log) : M kern unit := modify (fun s => set_lg (f (lg s)) s).

(** [log.lh.block[i]]. *)
Definition getblock (i : Z) : M kern Z := fun s =>
  if 0 <=? i then orfault (l_block (lg s) !! Z.to_nat i) s else Fault.
Definition setblock (i v : Z) : M kern unit := fun s =>
  if (0 <=? i) && (Z.to_nat i <? length (l_block (lg s)))%nat
  then updlog (fun l => set_l_block (<[Z.to_nat i := v]> (l_block l)) l) s else Fault.

(** Entry [i] of the header in a block: [n] first, then [block[]]. *)
Definition head_n (d : list Z) : Z := i32 (le_get 4 d 0).
Definition head_block (d : list Z) (i : Z) : Z := i32 (le_get 4 d (Z.to_nat (4 + 4 * i))).
Definition put_n (n : Z) (d : list Z) : list Z := le_set 4 d 0 (u32 n).
Definition put_block (i v : Z) (d : list Z) : list Z := le_set 4 d (Z.to_nat (4 + 4 * i)) (u32 v).

Section Log.
Context {P : Patience} {D : DiskDriver}.

Definition install_trans (recovering : bool) : M kern unit :=
  let! l := gets lg in
  mloop (Z.to_nat (l_n l)) 0 1 (fun tail =>
    do! (if recovering then
      let! dst := getblock tail in
      do! printk (str "recovering tail %d dst %d" ++ [10]) [PNum tail; PNum dst];
      ret tt
    else ret tt);
    let! l := gets lg in
    let! lbuf := bread (l_dev l) (l_start l + tail + 1) in
    let! dst := getblock tail in
    let! dbuf := bread (l_dev l) dst in
    let! lb := getbuf lbuf in
    do! updbuf dbuf (set_b_data (b_data lb));
    do! bwrite dbuf;
    do! (if negb recovering then bunpin dbuf else ret tt);
    do! brelse lbuf;
    brelse dbuf).

Definition read_head : M kern unit :=
  let! l := gets lg in
  let! k := bread (l_dev l) (l_start l) in
  let! b := getbuf k in
  do! updlog (set_l_n (head_n (b_data b)));
  do! mloop (Z.to_nat (head_n (b_data b))) 0 1 (fun i =>
    let! b := getbuf k in
    setblock i (head_block (b_data b) i));
  brelse k.

Definition write_head : M kern unit :=
  let! l := gets lg in
  let! k := bread (l_dev l) (l_start l) in
  do! updbuf k (fun b => set_b_data (put_n (l_n l) (b_data b)) b);
  do! mloop (Z.to_nat (l_n l)) 0 1 (fun i =>
    let! v := getblock i in
    updbuf k (fun b => set_b_data (put_block i v (b_data b)) b));
  do! bwrite k;
  brelse k.

Definition recover_from_log : M kern unit :=
  do! read_head;
  do! install_trans true;
  do! updlog (set_l_n 0);
  write_head.

(** [sizeof(struct logheader)] is 124, less than [BSIZE]. *)
Definition initlog (dev : Z) : M kern unit :=
  do! mk (lk (initlock Llog));
  let! b := gets sb in
  do! updlog (set_l_start (i32 (sb_logstart b)));
  do! updlog (set_l_dev dev);
  recover_from_log.

Definition write_log : M kern unit :=
  let! l := gets lg in
  mloop (Z.to_nat (l_n l)) 0 1 (fun tail =>
    let! l := gets lg in
    let! to := bread (l_dev l) (l_start l + tail + 1) in
    let! src := getblock tail in
    let! from := bread (l_dev l) src in
    let! fb := getbuf from in
    do! updbuf to (set_b_data (b_data fb));
    do! bwrite to;
    do! brelse from;
    brelse to).

Definition commit : M kern unit :=
  let! l := gets lg in
  if 0 <? l_n l then
    do! write_log;
    do! write_head;
    do! install_trans false;
    do! updlog (set_l_n 0);
    write_head
  else ret tt.

(** The loop of [begin_op]; the log's lock is held. *)
Fixpoint begin_op_loop (fuel : nat) : M kern unit :=
  let! l := gets lg in
  let wait := match fuel with
              | O => fun _ => Spin
              | S f => do! mk (sleep ChLog Llog); begin_op_loop f
              end in
  if l_committing l then wait
  else if LOGBLOCKS <? l_n l + (l_outstanding l + 1) * MAXOPBLOCKS then wait
  else
    do! updlog (fun l => set_l_outstanding (i32 (l_outstanding l + 1)) l);
    mk (lk (release Llog)).
Definition begin_op : M kern unit :=
  do! mk (lk (acquire Llog));
  begin_op_loop patience.

Definition end_op : M kern unit :=
  do! mk (lk (acquire Llog));
  do! updlog (fun l => set_l_outstanding (i32 (l_outstanding l - 1)) l);
  let! l := gets lg in
  do! check (negb (l_committing l)) "log.committing";
  let do_commit := l_outstanding l =? 0 in
  do! (if do_commit then updlog (set_l_committing true) else mk (wakeup ChLog));
  do! mk (lk (release Llog));
  if do_commit then
    do! commit;
    do! mk (lk (acquire Llog));
    do! updlog (set_l_committing false);
    do! updlog (fun l => set_l_ncommit (i32 (l_ncommit l + 1)) l);
    do! mk (wakeup ChLog);
    mk (lk (release Llog))
  else ret tt.

Definition log_write (k : nat) : M kern unit :=
  do! mk (lk (acquire Llog));
  let! l := gets lg in
  do! check (negb (LOGBLOCKS <=? l_n l)) "too big a transaction";
  do! check (negb (l_outstanding l <? 1)) "log_write outside of trans";
  let! b := getbuf k in
  let! r := mfor (Z.to_nat (l_n l)) 0 1 (fun i =>
    let! v := getblock i in
    ret (if u32 v =? b_blockno b then Some i else None)) in
  let i := default (l_n l) r in
  do! setblock i (i32 (b_blockno b));
  do! (if i =? l_n l then
         do! bpin k;
         updlog (fun l => set_l_n (i32 (l_n l + 1)) l)
       else ret tt);
  mk (lk (release Llog)).

Fixpoint await_commit (fuel : nat) (n : Z) : M kern unit :=
  let! l := gets lg in
  if l_ncommit l <? n then
    match fuel with
    | O => fun _ => Spin
    | S f => do! mk (sleep ChLog Llog); await_commit f n
    end
  else ret tt.
Definition sys_sync : M kern Z :=
  do! mk (lk (acquire Llog));
  let! l := gets lg in
  do! (if l_committing l || (0 <? l_outstanding l)
       then await_commit patience (i32 (l_ncommit l + 1)) else ret tt);
  do! mk (lk (release Llog));
  ret 0.
End Log.

(** ** Headers *)

(** The header with entries [bs] over the bytes [d]. *)
Fixpoint put_blocks (i : Z) (bs : list Z) (d : list Z) : list Z :=
  match bs with [] => d | v :: bs' => put_blocks (i + 1) bs' (put_block i v d) end.
Definition header (bs : list Z) (d : list Z) : list Z :=
  put_blocks 0 bs (put_n (Z.of_nat (length bs)) d).

Lemma put_block_length i v d : length (put_block i v d) = length d.
Proof. apply le_set_length. Qed.
Lemma put_blocks_length i bs d : length (put_blocks i bs d) = length d.
Proof. revert i d. induction bs as [|v bs IH]; intros i d; simpl; [done|]. now rewrite IH, put_block_length. Qed.
Lemma header_length bs d : length (header bs d) = length d.
Proof. unfold header, put_n. now rewrite put_blocks_length, le_set_length. Qed.

Lemma put_blocks_below i bs d k n : (k + n <= Z.to_nat (4 + 4 * i))%nat -> 0 <= i ->
  le_get n (put_blocks i bs d) k = le_get n d k.
Proof.
  revert i d. induction bs as [|v bs IH]; intros i d Hk Hi; simpl; [done|].
  rewrite IH by lia. apply le_get_set_ne. lia.
Qed.

Lemma put_blocks_get i bs d j v :
  0 <= i -> 4 + 4 * (i + Z.of_nat (length bs)) <= Z.of_nat (length d) -> bs !! j = Some v ->
  le_get 4 (put_blocks i bs d) (Z.to_nat (4 + 4 * (i + Z.of_nat j))) = u32 v.
Proof.
  revert i d j. induction bs as [|x bs IH]; intros i d j Hi Hl Hj; [now rewrite lookup_nil in Hj|].
  simpl length in Hl. destruct j as [|j]; simpl in *.
  - injection Hj as ->. rewrite put_blocks_below by lia. rewrite Z.add_0_r.
    apply le_get_set_eq; [lia|]. apply u32_range.
  - replace (i + Z.of_nat (S j)) with (i + 1 + Z.of_nat j) by lia. apply IH; [lia| |done].
    rewrite put_block_length. lia.
Qed.

Lemma i32_u32 x : -2147483648 <= x < 2147483648 -> i32 (u32 x) = x.
Proof.
  intros Hx. transitivity (i32 x); [|now apply i32_small]. unfold i32.
  assert (u32 (u32 x) = u32 x) as -> by (unfold u32; apply Z.mod_mod; lia). done.
Qed.

(** What [read_head] reads is what [write_head] wrote. *)
Lemma header_n bs d : (length bs <= 30)%nat -> length d = 1024%nat -> head_n (header bs d) = Z.of_nat (length bs).
Proof.
  intros Hb Hd. unfold head_n, header. rewrite put_blocks_below by lia.
  unfold put_n. rewrite le_get_set_eq; [|lia|apply u32_range]. apply i32_u32. lia.
Qed.

Lemma header_block bs d j v : (length bs <= 30)%nat -> length d = 1024%nat -> bs !! j = Some v ->
  0 <= v < 2147483648 -> head_block (header bs d) (Z.of_nat j) = v.
Proof.
  intros Hb Hd Hj Hv. unfold head_block, header.
  pose proof (put_blocks_get 0 bs (put_n (Z.of_nat (length bs)) d) j v) as E. rewrite !Z.add_0_l in E.
  rewrite E; [apply i32_u32; lia|lia|unfold put_n; rewrite le_set_length; lia|done].
Qed.

(** ** One block *)

Section Blocks.
Context {P : Patience} {D : DiskDriver} {DO : DiskOk D}.
Variables (i : nat) (n : Z).
Implicit Types (s : kern) (H Pn : list nat) (blk L : Z) (bs : list Z).

(** The disk after the writes [ws]. *)
Definition wrote s (ws : list (Z * list Z)) (s' : kern) : Prop :=
  d_init (dsk s') = d_init (dsk s) /\ d_hist (dsk s') = d_hist (dsk s) ++ ws.

Lemma wrote_nil s s' : dsk s' = dsk s -> wrote s [] s'.
Proof. intros E. unfold wrote. rewrite E. split; [done|]. now rewrite app_nil_r. Qed.
Lemma wrote_app s1 s2 s3 w1 w2 : wrote s1 w1 s2 -> wrote s2 w2 s3 -> wrote s1 (w1 ++ w2) s3.
Proof. intros [A1 A2] [B1 B2]. split; [congruence|]. now rewrite B2, A2, app_assoc. Qed.
Lemma wrote_one s s' blk v : dsk s' = dwrite (dsk s) blk v -> wrote s [(blk, v)] s'.
Proof. intros E. unfold wrote. now rewrite E. Qed.

(** Each block of the transaction is in a buffer pinned for it. *)
Definition pinned s bs Pn : Prop :=
  length Pn = length bs /\
  forall j k blk, Pn !! j = Some k -> bs !! j = Some blk -> exists b, bufs s !! k = Some b /\ b_blockno b = blk.

(** Cache operations keep the pinned buffers where they are. *)
Definition keeps Pn s s' : Prop :=
  forall k b, k ∈ Pn -> bufs s !! k = Some b -> exists b', bufs s' !! k = Some b' /\ b_blockno b' = b_blockno b.

Lemma keeps_trans Pn s1 s2 s3 : keeps Pn s1 s2 -> keeps Pn s2 s3 -> keeps Pn s1 s3.
Proof.
  intros A B k b Hk Hb. destruct (A k b Hk Hb) as (b1 & Hb1 & E1). destruct (B k b1 Hk Hb1) as (b2 & Hb2 & E2).
  exists b2. split; [done|congruence].
Qed.
Lemma keeps_insert Pn s s' k b b' :
  bufs s !! k = Some b -> bufs s' = <[k := b']> (bufs s) -> b_blockno b' = b_blockno b -> keeps Pn s s'.
Proof.
  intros Hb Hs He j bj Hj Hbj. rewrite Hs. destruct (decide (j = k)) as [->|Hne].
  - exists b'. rewrite list_lookup_insert_eq by (now apply lookup_lt_Some in Hb). split; [done|congruence].
  - exists bj. rewrite list_lookup_insert_ne by done. done.
Qed.
Lemma keeps_same Pn s s' : bufs s' = bufs s -> keeps Pn s s'.
Proof. intros E k b Hk Hb. rewrite E. exists b. done. Qed.
Lemma keeps_holds H Pn s k b b' s' : holds n H Pn s k b b' s' -> keeps Pn s s'.
Proof.
  intros [H1 H2 H3 H4 H5 H6 H7 H8 H9 H10]. destruct H10 as [Hc|[HP _]].
  - apply is_block_spec in Hc as [_ Hc]. eapply keeps_insert; eauto.
  - intros j bj Hj Hbj. rewrite H3. rewrite list_lookup_insert_ne by (intros ->; done). exists bj. done.
Qed.
Lemma pinned_keeps s s' bs Pn : keeps Pn s s' -> pinned s bs Pn -> pinned s' bs Pn.
Proof.
  intros Hk [Hl Hp]. split; [done|]. intros j k blk Hj Hb. destruct (Hp j k blk Hj Hb) as (b & Hkb & <-).
  apply (Hk k b); [|done]. now apply list_elem_of_lookup_2 in Hj.
Qed.

(** The state of the log between operations: it occupies the blocks from
    [L], is on the root device, and the transaction writes [bs], of which
    [ps] are pinned, in the buffers [Pn]. *)
Record linv L bs ps Pn s : Prop := {
  li_start : l_start (lg s) = L;
  li_dev : l_dev (lg s) = ROOTDEV;
  li_n : l_n (lg s) = Z.of_nat (length bs);
  li_size : length (l_block (lg s)) = 30%nat;
  li_blocks : forall j blk, bs !! j = Some blk -> l_block (lg s) !! j = Some blk;
  li_inv : binv n [] Pn s;
  li_pins : pinned s ps Pn;
  li_ready : ready i n (km s);
}.

(** The blocks of a transaction are distinct, outside the log, and leave
    a buffer free. *)
Definition bs_ok L bs : Prop :=
  NoDup bs /\ (length bs <= 29)%nat /\ 0 <= L /\ L + 31 < 2147483648 /\
  forall blk, blk ∈ bs -> 0 <= blk < 2147483648 /\ (blk < L \/ L + 30 < blk).

Lemma linv_step L bs ps Pn s ps' Pn' s' :
  linv L bs ps Pn s -> upper s s' -> binv n [] Pn' s' -> pinned s' ps' Pn' -> linv L bs ps' Pn' s'.
Proof.
  intros [A1 A2 A3 A4 A5 A6 A7 A8] (B1 & B2 & _) Hinv Hk.
  constructor; rewrite ?B2; auto. eapply ready_calm; eauto.
Qed.

(** The buffer that holds a pinned block is the pinned one. *)
Lemma pinned_at H Pn s ps j blk k b :
  binv n H Pn s -> pinned s ps Pn -> ps !! j = Some blk -> k ∈ H -> bufs s !! k = Some b -> b_blockno b = blk ->
  Pn !! j = Some k.
Proof.
  intros Hinv [Hl Hp] Hj Hk Hb E. pose proof (bi_used _ _ _ _ Hinv k b Hb ltac:(now left)) as Hv.
  destruct (lookup_lt_is_Some_2 Pn j) as [k0 Hk0]; [rewrite Hl; now apply lookup_lt_Some in Hj|].
  destruct (Hp j k0 blk Hk0 Hj) as (b0 & Hb0 & E0). pose proof (list_elem_of_lookup_2 _ _ _ Hk0) as Hin.
  pose proof (bi_used _ _ _ _ Hinv k0 b0 Hb0 ltac:(now right)) as Hv0.
  rewrite Hk0. f_equal. eapply (bi_uniq _ _ _ _ Hinv); eauto; [|..|congruence]; eapply (bi_dev _ _ _ _ Hinv); eauto.
Qed.

Lemma pinned_available s ps Pn H j blk : pinned s ps Pn -> binv n H Pn s -> ps !! j = Some blk -> available s blk H Pn.
Proof.
  intros [Hl Hp] Hinv Hj. left.
  destruct (lookup_lt_is_Some_2 Pn j) as [k0 Hk0]; [rewrite Hl; now apply lookup_lt_Some in Hj|].
  destruct (Hp j k0 blk Hk0 Hj) as (b0 & Hb0 & E0). exists k0, b0. split; [done|]. apply is_block_spec.
  split; [|done]. apply (bi_dev _ _ _ _ Hinv k0 b0 Hb0). apply (bi_used _ _ _ _ Hinv k0 b0 Hb0). right.
  now apply list_elem_of_lookup_2 in Hk0.
Qed.

Lemma wp_getblock j v (Q : Z -> kern -> Prop) s :
  l_block (lg s) !! j = Some v -> Q v s -> wp (getblock (Z.of_nat j)) Q s.
Proof.
  intros H HQ. unfold wp, getblock. rewrite (proj2 (Z.leb_le _ _)) by lia. rewrite Nat2Z.id. unfold orfault.
  now rewrite H.
Qed.

Lemma holds_at H Pn s k b b' s' : binv n H Pn s -> holds n H Pn s k b b' s' -> bufs s' !! k = Some b'.
Proof. intros Hinv Ho. rewrite (holds_lookup _ _ _ _ _ _ _ _ k Hinv Ho). now rewrite decide_True. Qed.

Lemma not_held_nil s blk : forall k b, k ∈ ([] : list nat) -> bufs s !! k = Some b -> b_blockno b <> blk.
Proof. intros k b Hk. now apply not_elem_of_nil in Hk. Qed.

(** Blocks [x] and [y] are held in the buffers [t] and [f]. *)
Record pair_held Pn s x y (t f : nat) (bt bf : buf) s' : Prop := {
  ph_inv : binv n [f; t] Pn s'; ph_upper : upper s s'; ph_dsk : dsk s' = dsk s;
  ph_t : bufs s' !! t = Some bt; ph_f : bufs s' !! f = Some bf; ph_ne : f <> t;
  ph_tb : b_blockno bt = x; ph_fb : b_blockno bf = y;
  ph_tv : b_data bt = bview s x; ph_fv : b_data bf = bview s y;
  ph_view : forall z, bview s' z = bview s z; ph_keeps : keeps Pn s s';
}.

(** The start of both copy loops: read a log block and a home block. *)
Lemma wp_read_pair {A : Type} Pn s x y j (k : nat -> nat -> M kern A) (Q : A -> kern -> Prop) :
  ready i n (km s) -> binv n [] Pn s -> x <> y -> (length Pn < 30)%nat -> l_block (lg s) !! j = Some y ->
  (forall t s1, keeps Pn s s1 -> binv n [t] Pn s1 -> available s1 y [t] Pn) ->
  (forall t f bt bf s2, pair_held Pn s x y t f bt bf s2 -> wp (k t f) Q s2) ->
  wp (let! t := bread ROOTDEV x in let! b := getblock (Z.of_nat j) in let! f := bread ROOTDEV b in k t f) Q s.
Proof.
  intros Hr Hinv Hne Hlen Hj Hav HQ. wsteps. eapply wp_mono.
  { apply (bread_spec i n [] Pn); [done|done|right; simpl; lia|apply not_held_nil]. }
  intros t s1 (bt & bt' & Ho1 & Hbt & Hdt & Hu1). pose proof (holds_inv _ _ _ _ _ _ _ _ Hinv Ho1) as Hinv1.
  pose proof (holds_at _ _ _ _ _ _ _ Hinv Ho1) as Ht1. wsteps.
  apply (wp_getblock j y); [now rewrite (proj1 (proj2 Hu1))|]. wsteps.
  pose proof (keeps_holds _ _ _ _ _ _ _ Ho1) as K1. eapply wp_mono.
  { apply (bread_spec i n [t] Pn); auto; [eapply ready_calm; [exact Hr|apply Hu1]|].
    intros k0 b Hk Hb. apply list_elem_of_singleton in Hk as ->. congruence. }
  intros f s2 (bf & bf' & Ho2 & Hbf & Hdf & Hu2).
  assert (f <> t) as Hft by (intros ->; apply (ho_new _ _ _ _ _ _ _ _ Ho2); left).
  assert (forall z, bview s1 z = bview s z) as V1 by (intros z; apply (holds_view _ _ _ _ _ _ _ _ z Hinv Ho1); now rewrite Hbt).
  apply (HQ t f bt' bf'). constructor; auto.
  - eapply holds_inv; eauto.
  - now rewrite Hu1.
  - rewrite (ho_dsk _ _ _ _ _ _ _ _ Ho2). apply Ho1.
  - rewrite (holds_lookup _ _ _ _ _ _ _ _ t Hinv1 Ho2), decide_False by congruence. done.
  - exact (holds_at _ _ _ _ _ _ _ Hinv1 Ho2).
  - now rewrite Hdf.
  - intros z. rewrite (holds_view _ _ _ _ _ _ _ _ z Hinv1 Ho2) by (now rewrite Hbf). apply V1.
  - eapply keeps_trans; [exact K1|]. eapply keeps_holds; exact Ho2.
Qed.

(** Buffer [t], held, gets the data [v] and is written. *)
Record overwritten Pn s (t : nat) (bt : buf) (v : list Z) s' : Prop := {
  ow_upper : upper s s'; ow_dsk : dsk s' = dwrite (dsk s) (b_blockno bt) v;
  ow_bufs : bufs s' = <[t := set_b_data v bt]> (bufs s); ow_lru : lru s' = lru s; ow_slocks : slocks s' = slocks s;
  ow_view : forall x, bview s' x = if decide (x = b_blockno bt) then v else bview s x;
  ow_keeps : keeps Pn s s';
}.

Lemma wp_bwrite {A : Type} H Pn s t bt v (k : M kern A) (Q : A -> kern -> Prop) :
  ready i n (km s) -> binv n H Pn s -> t ∈ H -> bufs s !! t = Some bt ->
  (forall s', overwritten Pn s t bt v s' -> binv n H Pn s' -> wp k Q s') ->
  wp (do! bwrite t; k) Q (set_bufs (<[t := set_b_data v bt]> (bufs s)) s).
Proof.
  intros Hr Hinv Ht Hb HQ. wsteps.
  destruct (data_spec n H Pn s t bt v Hinv Ht Hb) as [Hinv2 V2]. pose proof (lookup_lt_Some _ _ _ Hb) as Hlt.
  eapply wp_mono; [eapply (bwrite_spec i n H Pn _ t); [exact Hr|exact Hinv2|exact Ht|simpl; now apply list_lookup_insert_eq]|].
  intros _ s' (m & Hm & -> & Hinv3 & V3). apply HQ; [|done]. constructor; try done.
  - intros x. etransitivity; [apply V3|apply V2].
  - eapply keeps_insert; [exact Hb|reflexivity|done].
Qed.

Lemma wp_overwrite {A : Type} H Pn s t bt v (k : M kern A) (Q : A -> kern -> Prop) :
  ready i n (km s) -> binv n H Pn s -> t ∈ H -> bufs s !! t = Some bt ->
  (forall s', overwritten Pn s t bt v s' -> binv n H Pn s' -> wp k Q s') ->
  wp (do! updbuf t (set_b_data v); do! bwrite t; k) Q s.
Proof. intros Hr Hinv Ht Hb HQ. apply wp_bind, (wp_updbuf t _ bt); [done|]. eapply wp_bwrite; eauto. Qed.

(** The body of [write_log]: copy block [blk] of the cache to log block
    [j]. *)
Lemma write_log_step L bs Pn s j blk :
  linv L bs bs Pn s -> bs_ok L bs -> bs !! j = Some blk ->
  wp (let! l := gets lg in
      let! to := bread (l_dev l) (l_start l + Z.of_nat j + 1) in
      let! src := getblock (Z.of_nat j) in
      let! from := bread (l_dev l) src in
      let! fb := getbuf from in
      do! updbuf to (set_b_data (b_data fb));
      do! bwrite to;
      do! brelse from;
      brelse to)
    (fun _ s' => linv L bs bs Pn s' /\ upper s s' /\ wrote s [(L + Z.of_nat j + 1, bview s blk)] s' /\
       forall x, bview s' x = if decide (x = L + Z.of_nat j + 1) then bview s blk else bview s x) s.
Proof.
  intros HL (Hnd & Hlen & HL0 & HLm & Hbs) Hj. pose proof HL as [A1 A2 A3 A4 A5 Hinv A7 Hr].
  pose proof (lookup_lt_Some _ _ _ Hj) as Hjl. pose proof A7 as [Hpl Hp].
  destruct (Hbs blk ltac:(now apply list_elem_of_lookup_2 in Hj)) as [_ Hout].
  apply wp_bind, wp_gets. cbv beta. rewrite A1, A2. apply (wp_read_pair Pn s _ blk j); auto; [lia|lia| |].
  { intros t s1 K1 Hinv1. eapply pinned_available; eauto. eapply pinned_keeps; eauto. }
  intros t f bt bf s2 Hp2. pose proof Hp2 as [Hinv2 Hu2 Hd2 Ht2 Hf2 Hft Etb Efb Etv Efv V2 K2].
  assert (f ∈ Pn) as HfP.
  { eapply list_elem_of_lookup_2, (pinned_at [f; t] Pn s2 bs j blk); eauto; [eapply pinned_keeps; eauto|left]. }
  pose proof (ready_calm i n _ _ Hr (proj1 Hu2)) as Hr2.
  apply wp_bind, (wp_getbuf f bf); [done|]. apply (wp_overwrite [f; t] Pn s2 t bt); auto; [right; left|].
  intros s4 [Hu4 Hd4 Hb4 _ _ V4 K4] Hinv4. wsteps.
  assert (bufs s4 !! f = Some bf) as Hf4 by (rewrite Hb4, list_lookup_insert_ne; done).
  assert (bufs s4 !! t = Some (set_b_data (b_data bf) bt)) as Ht4
    by (rewrite Hb4; apply list_lookup_insert_eq; now apply lookup_lt_Some in Ht2).
  pose proof (ready_calm i n _ _ Hr2 (proj1 Hu4)) as Hr4.
  eapply wp_mono; [apply (brelse_spec i n [t] Pn s4 f bf); auto|].
  intros _ s5 (Hu5 & Hd5 & Hb5 & _ & Hinv5 & V5). wsteps.
  assert (bufs s5 !! t = Some (set_b_data (b_data bf) bt)) as Ht5 by (rewrite Hb5, list_lookup_insert_ne; done).
  pose proof (ready_calm i n _ _ Hr4 (proj1 Hu5)) as Hr5.
  eapply wp_mono; [apply (brelse_spec i n [] Pn s5 t (set_b_data (b_data bf) bt)); auto|].
  { right. rewrite Hd5, Hd4. simpl. now rewrite dread_dwrite, decide_True. }
  intros _ s6 (Hu6 & Hd6 & Hb6 & _ & Hinv6 & V6).
  assert (upper s s6) as Hup by (now rewrite Hu2, Hu4, Hu5).
  split; [|split; [done|split]].
  - apply (linv_step L bs bs Pn s); auto. apply (pinned_keeps s); [|done].
    eapply keeps_trans; [exact K2|]. eapply keeps_trans; [exact K4|].
    eapply keeps_trans; [eapply (keeps_insert _ s4 s5 f bf); [exact Hf4|exact Hb5|done]|].
    eapply (keeps_insert _ s5 s6 t); [exact Ht5|exact Hb6|done].
  - apply wrote_one. now rewrite Hd6, Hd5, Hd4, Hd2, Etb, Efv.
  - intros x. now rewrite V6, V5, V4, V2, Etb, Efv.
Qed.

(** The end of the body of [install_trans]: both buffers are released, the
    home block's after its pin, if it has one. *)
Lemma install_release Pn Pn' s t f bt bf (recovering : bool) :
  ready i n (km s) -> binv n [f; t] Pn s -> bufs s !! t = Some bt -> bufs s !! f = Some bf -> f <> t ->
  ~ t ∈ Pn -> b_data bt = dread (dsk s) (b_blockno bt) -> b_data bf = dread (dsk s) (b_blockno bf) ->
  (if recovering then Pn' = Pn /\ ~ f ∈ Pn else Pn = f :: Pn') ->
  wp (do! (if negb recovering then bunpin f else ret tt); do! brelse t; brelse f)
    (fun _ s' => upper s s' /\ dsk s' = dsk s /\ binv n [] Pn' s' /\ keeps Pn' s s' /\
       forall x, bview s' x = bview s x) s.
Proof.
  intros Hr Hinv Ht Hf Hft HtP Dt Df Hrec. wsteps.
  assert (wp (if negb recovering then bunpin f else ret tt)
    (fun _ s' => upper s s' /\ dsk s' = dsk s /\ binv n [f; t] Pn' s' /\ keeps Pn' s s' /\ bufs s' !! t = Some bt /\
       (exists r, bufs s' !! f = Some (set_b_refcnt r bf)) /\ forall x, bview s' x = bview s x) s) as H1.
  { destruct recovering; simpl.
    - destruct Hrec as [-> _]. apply wp_ret. do 2 (split; [reflexivity|]). split; [done|]. split; [now apply keeps_same|].
      split; [done|]. split; [exists (b_refcnt bf); now destruct bf|done].
    - subst Pn. pose proof Hr as (Hok & _ & Hfree & _).
      pose proof (bi_P _ _ _ _ Hinv) as HnP. apply NoDup_cons in HnP as [HfP HnP].
      assert (u32 (b_refcnt bf - 1) = 1) as Er.
      { rewrite (bi_ref _ _ _ _ Hinv f bf Hf), !bool_decide_eq_true_2 by left. done. }
      eapply wp_mono; [apply (pin_spec 3 f bf); auto; lia|]. intros _ s' (K & HK & ->). rewrite Er.
      split; [split; [now apply calm_lks|]; do 5 (split; [done|]); done|]. split; [done|].
      destruct (binv_ref n [f; t] (f :: Pn') [f; t] Pn' s
        (set_km (set_lks K (km s)) (set_bufs (<[f := set_b_refcnt 1 bf]> (bufs s)) s)) f bf 1) as [Hinv' V]; auto; try apply Hinv.
      + now apply (bi_used _ _ _ _ Hinv f); [|left; left].
      + intros j Hj. rewrite (elem_of_cons Pn'). tauto.
      + rewrite bool_decide_eq_true_2 by left. now rewrite bool_decide_eq_false_2.
      + split; [done|]. split; [eapply keeps_insert; [exact Hf|reflexivity|done]|]. simpl.
        rewrite list_lookup_insert_ne, list_lookup_insert_eq by (try done; now apply lookup_lt_Some in Hf). eauto. }
  eapply wp_mono; [exact H1|]. intros _ s1 (Hu1 & Hd1 & Hinv1 & K1 & Ht1 & (r & Hf1) & V1). wsteps.
  assert (~ t ∈ Pn' /\ ~ f ∈ Pn') as [HtP' HfP'].
  { destruct recovering; [destruct Hrec; now subst|]. subst Pn. pose proof (bi_P _ _ _ _ Hinv) as HnP.
    apply NoDup_cons in HnP as [HfP HnP]. split; [|done]. intros Hin. apply HtP. now right. }
  pose proof (ready_calm i n _ _ Hr (proj1 Hu1)) as Hr1.
  eapply wp_mono; [apply (brelse_spec i n [f] Pn' s1 t bt); auto|].
  { eapply binv_perm; [|exact Hinv1]. apply Permutation_swap. }
  { right. now rewrite Hd1. }
  intros _ s2 (Hu2 & Hd2 & Hb2 & _ & Hinv2 & V2). pose proof (ready_calm i n _ _ Hr1 (proj1 Hu2)) as Hr2.
  assert (bufs s2 !! f = Some (set_b_refcnt r bf)) as Hf2 by (rewrite Hb2, list_lookup_insert_ne; done).
  eapply wp_mono; [apply (brelse_spec i n [] Pn' s2 f (set_b_refcnt r bf)); auto|].
  { right. now rewrite Hd2, Hd1. }
  intros _ s3 (Hu3 & Hd3 & Hb3 & _ & Hinv3 & V3).
  split; [now rewrite Hu1, Hu2|]. split; [congruence|]. split; [done|].
  split; [|intros x; now rewrite V3, V2, V1].
  eapply keeps_trans; [exact K1|]. eapply keeps_trans; [eapply keeps_insert; [exact Ht1|exact Hb2|done]|].
  eapply keeps_insert; [exact Hf2|exact Hb3|done].
Qed.
(** A block that is not pinned is on the disk. *)
Lemma unpinned_view s ps Pn x : binv n [] Pn s -> pinned s ps Pn -> ~ x ∈ ps -> bview s x = dread (dsk s) x.
Proof.
  intros Hinv [Hl Hp] Hx. destruct (cached_dec s x) as [(k & b & Hb & Hv & Hc)|Hno]; [|now apply bview_uncached].
  apply is_block_spec in Hc as [_ Hc]. rewrite (bview_cached _ _ _ s k b x Hinv) by done. rewrite <- Hc.
  apply (bi_clean _ _ _ _ Hinv k b Hb); [apply not_elem_of_nil| |done].
  intros Hin. apply list_elem_of_lookup in Hin as [m Hm].
  destruct (lookup_lt_is_Some_2 ps m) as [y Hy]; [rewrite <- Hl; now apply lookup_lt_Some in Hm|].
  destruct (Hp m k y Hm Hy) as (b' & Hb' & E). apply Hx. rewrite <- Hc. replace b with b' by congruence. rewrite E.
  now apply list_elem_of_lookup_2 in Hy.
Qed.

Lemma not_pinned s ps Pn t b : pinned s ps Pn -> bufs s !! t = Some b -> ~ b_blockno b ∈ ps -> ~ t ∈ Pn.
Proof.
  intros [Hl Hp] Hb Hn Hin. apply list_elem_of_lookup in Hin as [m Hm].
  destruct (lookup_lt_is_Some_2 ps m) as [y Hy]; [rewrite <- Hl; now apply lookup_lt_Some in Hm|].
  destruct (Hp m t y Hm Hy) as (b' & Hb' & E). apply Hn. replace b with b' by congruence. rewrite E.
  now apply list_elem_of_lookup_2 in Hy.
Qed.

Lemma pinned_snoc s ps Pn k b x :
  pinned s ps Pn -> bufs s !! k = Some b -> b_blockno b = x -> pinned s (ps ++ [x]) (Pn ++ [k]).
Proof.
  intros [Hl Hp] Hb <-. split; [rewrite !length_app; simpl; lia|]. intros j k0 blk Hj Hx.
  apply lookup_app_Some in Hj as [Hj|[Hle Hj]].
  - rewrite lookup_app_l in Hx by (rewrite <- Hl; now apply lookup_lt_Some in Hj). eauto.
  - rewrite lookup_app_r in Hx by lia. apply list_lookup_singleton_Some in Hj as [Hj <-].
    rewrite <- Hl, Hj in Hx. injection Hx as <-. eauto.
Qed.

Lemma pinned_tail s x ps k Pn : pinned s (x :: ps) (k :: Pn) -> pinned s ps Pn.
Proof. intros [Hl Hp]. split; [simpl in Hl; lia|]. intros j m blk Hm Hb. now apply (Hp (S j)). Qed.

(** The body of [install_trans]: copy log block [j] home. *)
Lemma install_step L bs ps ps' Pn s j blk (recovering : bool) :
  linv L bs ps Pn s -> bs_ok L bs -> bs !! j = Some blk -> suffix ps bs ->
  (if recovering then ps = [] /\ ps' = [] else ps = blk :: ps') ->
  wp (let! l := gets lg in
      let! lbuf := bread (l_dev l) (l_start l + Z.of_nat j + 1) in
      let! dst := getblock (Z.of_nat j) in
      let! dbuf := bread (l_dev l) dst in
      let! lb := getbuf lbuf in
      do! updbuf dbuf (set_b_data (b_data lb));
      do! bwrite dbuf;
      do! (if negb recovering then bunpin dbuf else ret tt);
      do! brelse lbuf;
      brelse dbuf)
    (fun _ s' => (exists Pn', linv L bs ps' Pn' s') /\ upper s s' /\ wrote s [(blk, bview s (L + Z.of_nat j + 1))] s' /\
       forall x, bview s' x = if decide (x = blk) then bview s (L + Z.of_nat j + 1) else bview s x) s.
Proof.
  intros HL (Hnd & Hlen & HL0 & HLm & Hbs) Hj Hsub Hrec. pose proof HL as [A1 A2 A3 A4 A5 Hinv A7 Hr].
  pose proof (lookup_lt_Some _ _ _ Hj) as Hjl. pose proof A7 as [Hpl Hp].
  destruct (Hbs blk ltac:(now apply list_elem_of_lookup_2 in Hj)) as [_ Hout].
  assert (length Pn < 30)%nat as HP30 by (rewrite Hpl; apply suffix_length in Hsub; lia).
  assert (~ L + Z.of_nat j + 1 ∈ ps) as Hlog.
  { intros Hin. destruct (Hbs (L + Z.of_nat j + 1)); [|lia]. destruct Hsub as [q ->]. apply elem_of_app. now right. }
  apply wp_bind, wp_gets. cbv beta. rewrite A1, A2. apply (wp_read_pair Pn s _ blk j); auto; [lia| |].
  { intros t s1 K1 Hinv1. destruct recovering.
    - right. destruct Hrec as [-> _]. rewrite Hpl. simpl. lia.
    - subst ps. eapply (pinned_available _ (blk :: ps') _ _ 0); eauto. eapply pinned_keeps; eauto. }
  intros t f bt bf s2 Hp2. pose proof Hp2 as [Hinv2 Hu2 Hd2 Ht2 Hf2 Hft Etb Efb Etv Efv V2 K2].
  pose proof (pinned_keeps _ _ _ _ K2 A7) as Hpin2. pose proof (ready_calm i n _ _ Hr (proj1 Hu2)) as Hr2.
  assert (~ t ∈ Pn) as HtP by (eapply not_pinned; eauto; now rewrite Etb).
  apply wp_bind, (wp_getbuf t bt); [done|]. apply (wp_overwrite [f; t] Pn s2 f bf); auto; [left|].
  intros s4 [Hu4 Hd4 Hb4 _ _ V4 K4] Hinv4.
  assert (bufs s4 !! t = Some bt) as Ht4 by (rewrite Hb4, list_lookup_insert_ne; done).
  assert (bufs s4 !! f = Some (set_b_data (b_data bt) bf)) as Hf4
    by (rewrite Hb4; apply list_lookup_insert_eq; now apply lookup_lt_Some in Hf2).
  pose proof (ready_calm i n _ _ Hr2 (proj1 Hu4)) as Hr4. pose proof (pinned_keeps _ _ _ _ K4 Hpin2) as Hpin4.
  assert (exists Pn', (if recovering then Pn' = Pn /\ ~ f ∈ Pn else Pn = f :: Pn') /\ pinned s4 ps' Pn') as (Pn' & HPn' & Hpin').
  { destruct recovering.
    - destruct Hrec as [-> ->]. exists Pn. split; [|done]. split; [done|]. destruct Pn; [apply not_elem_of_nil|discriminate Hpl].
    - subst ps. assert (Pn !! 0%nat = Some f) as Hf0
        by (apply (pinned_at [f; t] Pn s2 (blk :: ps') 0 blk f bf); auto; left).
      destruct Pn as [|f' Pn']; [discriminate Hf0|]. injection Hf0 as ->. exists Pn'. split; [done|].
      eapply pinned_tail; eauto. }
  eapply wp_mono; [apply (install_release Pn Pn' s4 t f bt (set_b_data (b_data bt) bf) recovering); auto|].
  { rewrite Etv, Etb, Hd4, Hd2. rewrite dread_dwrite, decide_False by (rewrite Efb; lia). eapply unpinned_view; eauto. }
  { rewrite Hd4. simpl. now rewrite dread_dwrite, decide_True. }
  intros _ s5 (Hu5 & Hd5 & Hinv5 & K5 & V5). assert (upper s s5) as Hup by (now rewrite Hu2, Hu4).
  split; [|split; [done|split]].
  - exists Pn'. eapply (linv_step L bs ps Pn s); eauto. eapply pinned_keeps; eauto.
  - apply wrote_one. now rewrite Hd5, Hd4, Hd2, Efb, Etv.
  - intros x. now rewrite V5, V4, V2, Efb, Etv.
Qed.

(** ** The copy loops *)

(** The writes of [write_log] and of [install_trans]. *)
Definition log_writes L (vs : list (list Z)) : list (Z * list Z) := imap (fun j v => (L + Z.of_nat j + 1, v)) vs.

Lemma log_writes_snoc L vs v : log_writes L (vs ++ [v]) = log_writes L vs ++ [(L + Z.of_nat (length vs) + 1, v)].
Proof. unfold log_writes. rewrite imap_app. simpl. now rewrite Nat.add_0_r. Qed.

Lemma out_of_log L bs blk : bs_ok L bs -> blk ∈ bs -> blk < L \/ L + 30 < blk.
Proof. intros (_ & _ & _ & _ & H) Hb. now apply H. Qed.

Lemma write_log_spec L bs Pn s :
  linv L bs bs Pn s -> bs_ok L bs ->
  wp write_log (fun _ s' => linv L bs bs Pn s' /\ upper s s' /\ wrote s (log_writes L (bview s <$> bs)) s' /\
    (forall x, x < L + 1 \/ L + 30 < x -> bview s' x = bview s x) /\
    (forall j blk, bs !! j = Some blk -> bview s' (L + Z.of_nat j + 1) = bview s blk)) s.
Proof.
  intros HL Hok. unfold write_log. wsteps. rewrite (li_n _ _ _ _ _ HL), Nat2Z.id.
  eapply wp_mono.
  - apply (wp_mloop (fun k s' => linv L bs bs Pn s' /\ upper s s' /\ wrote s (log_writes L (bview s <$> take k bs)) s' /\
      (forall x, x < L + 1 \/ L + 30 < x -> bview s' x = bview s x) /\
      (forall j blk, (j < k)%nat -> bs !! j = Some blk -> bview s' (L + Z.of_nat j + 1) = bview s blk))).
    { split; [done|]. split; [reflexivity|]. split; [now apply wrote_nil|]. split; [done|]. intros j blk Hj. lia. }
    intros k s' Hk (HL' & Hu & Hw & V & VL). destruct (lookup_lt_is_Some_2 bs k Hk) as [blk Hb].
    replace (0 + Z.of_nat k * 1) with (Z.of_nat k) by lia.
    eapply wp_mono; [apply (write_log_step L bs Pn s' k blk); done|]. cbv beta.
    intros _ s2 (HL2 & Hu2 & Hw2 & V2). destruct Hok as (_ & Hlen & _ & _ & Hbs).
    destruct (Hbs blk ltac:(now apply list_elem_of_lookup_2 in Hb)) as [_ Hout].
    rewrite (V blk) in Hw2, V2 by lia.
    split; [done|]. split; [now rewrite Hu|]. split.
    + rewrite (take_S_r _ _ _ Hb), fmap_app. simpl fmap at 2. rewrite log_writes_snoc.
      rewrite length_fmap, length_take, Nat.min_l by lia. eapply wrote_app; eauto.
    + split; [intros x Hx; rewrite V2, decide_False by lia; now apply V|].
      intros j b Hj Hjb. rewrite V2. destruct (decide (j = k)) as [->|Hne].
      * rewrite decide_True by done. congruence.
      * rewrite decide_False by lia. apply VL; [lia|done].
  - intros _ s' (HL' & Hu & Hw & V & VL). rewrite take_ge in Hw by lia. split; [done|]. split; [done|].
    split; [done|]. split; [done|]. intros j blk Hj. apply VL; [now apply lookup_lt_Some in Hj|done].
Qed.

(** *** Console output during recovery *)

(** The transmitter has sent [o] more. *)
Definition say (o : list Z) s : kern := set_uart_ (set_u_out (u_out (uart_ s) ++ o) (uart_ s)) s.
Definition tx_idle s : Prop := u_lsr_idle (uart_ s) = true.

Lemma say_nil s : say [] s = s.
Proof. unfold say. rewrite app_nil_r. destruct s as [? ? ? ? ? ? ? ? ? ? ? [] ? ?]. done. Qed.
Lemma say_say o1 o2 s s' : upper (say o1 s) s' -> upper (say (o1 ++ o2) s) (say o2 s').
Proof.
  intros (A1 & A2 & A3 & A4 & A5 & A6 & A7). unfold rest in A6. simpl in A6. injection A6 as E1 E2 E3 E4 E5.
  split; [done|]. do 4 (split; [done|]). split; [|done]. unfold rest. simpl. rewrite E1, E2, E3, E4, E5. simpl. now rewrite app_assoc.
Qed.
Lemma say_upper o s s' : upper s s' -> upper (say o s) (say o s').
Proof. intros H. apply (say_say [] o). now rewrite say_nil. Qed.
Lemma tx_idle_say o s s' : tx_idle s -> upper (say o s) s' -> tx_idle s'.
Proof. intros H (_ & _ & _ & _ & _ & E & _). unfold rest in E. injection E as _ _ E _ _. unfold tx_idle. now rewrite E. Qed.
Lemma printed_say o s s' : printed o s s' -> upper (say o s) s'.
Proof. intros (K & HK & ->). split; [|done]. split; [done|]. do 7 (split; [done|]). intros j p Hp. exists p. auto. Qed.
Lemma linv_printed L bs ps Pn o s s' : linv L bs ps Pn s -> printed o s s' -> linv L bs ps Pn s'.
Proof.
  intros [A1 A2 A3 A4 A5 A6 A7 A8] Hp. pose proof (printed_say _ _ _ Hp) as (Hc & _). destruct Hp as (K & HK & ->).
  constructor; try done; [destruct A6; constructor; done|]. exact (ready_calm i n _ _ A8 Hc).
Qed.

Lemma recovering_format tail dst :
  is_Some (format (S (length (str "recovering tail %d dst %d" ++ [10]))) (str "recovering tail %d dst %d" ++ [10]) [PNum tail; PNum dst]).
Proof. eexists. reflexivity. Qed.

(** The line [install_trans] prints for log block [j]. *)
Lemma announce_spec L bs ps Pn s (recovering : bool) j blk :
  linv L bs ps Pn s -> bs !! j = Some blk -> (recovering = true -> tx_idle s) ->
  wp (if recovering then
        let! dst := getblock (Z.of_nat j) in
        do! printk (str "recovering tail %d dst %d" ++ [10]) [PNum (Z.of_nat j); PNum dst]; ret tt
      else ret tt)
    (fun _ s' => exists o, (recovering = false -> o = []) /\ printed o s s') s.
Proof.
  intros HL Hj Ht. destruct recovering; [|apply wp_ret; exists []; split; [done|apply printed_nil]].
  destruct (li_ready _ _ _ _ _ HL) as (Hok & _ & Hfree & _).
  wsteps. apply (wp_getblock j blk); [now apply (li_blocks _ _ _ _ _ HL)|]. wsteps.
  eapply wp_mono; [apply (printk_spec 3); [split; [done|split; [lia|now apply Ht]]|lia|apply Hfree|apply recovering_format]|].
  intros r s' [o Ho]. wsteps. now exists o.
Qed.

Lemma install_spec L bs Pn s (recovering : bool) vs :
  linv L bs (if recovering then [] else bs) Pn s -> bs_ok L bs -> (recovering = true -> tx_idle s) ->
  vs = (fun j => bview s (L + Z.of_nat j + 1)) <$> seq 0 (length bs) ->
  wp (install_trans recovering) (fun _ s' => linv L bs [] [] s' /\
    (exists o, (recovering = false -> o = []) /\ upper (say o s) s') /\ wrote s (zip bs vs) s' /\
    forall x, ~ x ∈ bs -> bview s' x = bview s x) s.
Proof.
  intros HL Hok Ht Hvs. unfold install_trans. wsteps. rewrite (li_n _ _ _ _ _ HL), Nat2Z.id.
  eapply wp_mono.
  - apply (wp_mloop (fun k s' => (exists Pn', linv L bs (if recovering then [] else drop k bs) Pn' s') /\
      (exists o, (recovering = false -> o = []) /\ upper (say o s) s') /\
      wrote s (zip (take k bs) (take k vs)) s' /\ forall x, ~ x ∈ take k bs -> bview s' x = bview s x)).
    { split; [exists Pn; done|]. split; [exists []; rewrite say_nil; split; reflexivity|]. split; [now apply wrote_nil|]. done. }
    intros k s0 Hk ((Pn' & HL0) & (o & Ho & Hu0) & Hw & V). destruct (lookup_lt_is_Some_2 bs k Hk) as [blk Hb].
    replace (0 + Z.of_nat k * 1) with (Z.of_nat k) by lia. apply wp_bind.
    eapply wp_mono; [apply (announce_spec L bs _ Pn' s0 recovering k blk HL0 Hb); intros E; eapply tx_idle_say; eauto|].
    intros [] s' (o1 & Ho1 & Hp). pose proof (linv_printed _ _ _ _ _ _ _ HL0 Hp) as HL'.
    assert (upper (say (o ++ o1) s) s') as Hu by (transitivity (say o1 s0); [now apply say_say|now apply printed_say]).
    assert (dsk s' = dsk s0) as Ed by (destruct Hp as (? & _ & ->); done).
    assert (forall x, bview s' x = bview s0 x) as Eb by (destruct Hp as (? & _ & ->); done).
    assert (vs !! k = Some (bview s' (L + Z.of_nat k + 1))) as Hv.
    { rewrite Hvs, list_lookup_fmap, lookup_seq_lt by lia. simpl. rewrite Eb, V; [done|]. intros Hin.
      apply elem_of_take in Hin as (m & Hm & _). apply list_elem_of_lookup_2 in Hm.
      destruct (out_of_log L bs _ Hok Hm); destruct Hok; lia. }
    eapply wp_mono; [apply (install_step L bs _ (if recovering then [] else drop (S k) bs) Pn' s' k blk recovering HL' Hok Hb)|].
    { destruct recovering; [apply suffix_nil|apply suffix_drop]. }
    { destruct recovering; [done|]. now apply drop_S. }
    cbv beta. intros _ s2 (HL2 & Hu2 & Hw2 & V2). split; [done|]. split; [|split].
    + exists (o ++ o1). split; [intros E; now rewrite Ho, Ho1 by done|now rewrite Hu].
    + unfold wrote in Hw2. rewrite Ed in Hw2. rewrite (take_S_r _ _ _ Hb), (take_S_r _ _ _ Hv), zip_with_app; [eapply wrote_app; eauto|].
      rewrite !length_take, Hvs, length_fmap, length_seq. done.
    + intros x Hx. rewrite (take_S_r _ _ _ Hb), elem_of_app, list_elem_of_singleton in Hx.
      rewrite V2, decide_False, Eb by tauto. apply V. tauto.
  - cbv beta. intros _ s' ((Pn' & HL') & Hu & Hw & V). rewrite drop_ge in HL' by lia.
    assert (linv L bs [] Pn' s') as HL'' by (destruct recovering; done).
    assert (Pn' = []) as -> by (destruct (li_pins _ _ _ _ _ HL'') as [E _]; destruct Pn'; [done|discriminate E]).
    rewrite (take_ge vs) in Hw by (rewrite Hvs, length_fmap, length_seq; done). rewrite take_ge in Hw, V by lia. done.
Qed.

(** ** The header *)

Lemma put_blocks_snoc k bs v d : put_blocks k (bs ++ [v]) d = put_block (k + Z.of_nat (length bs)) v (put_blocks k bs d).
Proof.
  revert k d. induction bs as [|x bs IH]; intros k d; simpl; [now rewrite Z.add_0_r|]. rewrite IH. f_equal. lia.
Qed.

Lemma write_head_spec L bs ps Pn s :
  linv L bs ps Pn s -> bs_ok L bs -> (length Pn <= 29)%nat -> ~ L ∈ ps ->
  wp write_head (fun _ s' => linv L bs ps Pn s' /\ upper s s' /\ wrote s [(L, header bs (bview s L))] s' /\
    forall x, bview s' x = if decide (x = L) then header bs (bview s L) else bview s x) s.
Proof.
  intros HL Hok HP HLp. pose proof HL as [A1 A2 A3 A4 A5 Hinv A7 Hr]. unfold write_head. wsteps.
  rewrite A1, A2, A3, Nat2Z.id. eapply wp_mono.
  { apply (bread_spec i n [] Pn); [done|done|right; simpl; lia|apply not_held_nil]. }
  intros k s1 (b & b1 & Ho & Hb & Hd & Hu). pose proof (holds_inv _ _ _ _ _ _ _ _ Hinv Ho) as Hinv1.
  pose proof (holds_at _ _ _ _ _ _ _ Hinv Ho) as Hk1. pose proof (keeps_holds _ _ _ _ _ _ _ Ho) as K1.
  pose proof (lookup_lt_Some _ _ _ Hk1) as Hlt. pose proof (ready_calm i n _ _ Hr (proj1 Hu)) as Hr1.
  assert (forall x, bview s1 x = bview s x) as V1 by (intros x; apply (holds_view _ _ _ _ _ _ _ _ x Hinv Ho); now rewrite Hb).
  wsteps. apply (wp_updbuf k _ b1); [done|]. wsteps.
  eapply wp_mono; [apply (wp_mloop (fun j s' => s' = set_bufs (<[k := set_b_data (put_blocks 0 (take j bs)
    (put_n (Z.of_nat (length bs)) (b_data b1))) b1]> (bufs s1)) s1))|].
  { done. }
  { intros j s' Hj ->. destruct (lookup_lt_is_Some_2 bs j Hj) as [v Hv].
    replace (0 + Z.of_nat j * 1) with (Z.of_nat j) by lia. wsteps.
    apply (wp_getblock j v); [change (l_block (lg s1) !! j = Some v); rewrite (proj1 (proj2 Hu)); now apply A5|].
    eapply wp_updbuf; [simpl; now apply list_lookup_insert_eq|]. simpl. rewrite list_insert_insert_eq.
    rewrite (take_S_r _ _ _ Hv), put_blocks_snoc, length_take, Nat.min_l, Z.add_0_l by lia. done. }
  cbv beta. intros _ s' ->. rewrite take_ge by lia. fold (header bs (b_data b1)).
  apply (wp_bwrite [k] Pn s1 k b1); auto; [left|]. intros s2 [Hu2 Hd2 Hb2 _ _ V2 K2] Hinv2.
  assert (bufs s2 !! k = Some (set_b_data (header bs (b_data b1)) b1)) as Hk2 by (rewrite Hb2; now apply list_lookup_insert_eq).
  eapply wp_mono; [apply (brelse_spec i n [] Pn s2 k (set_b_data (header bs (b_data b1)) b1)); auto|].
  { eapply ready_calm; [exact Hr1|apply Hu2]. }
  { right. rewrite Hd2. simpl. now rewrite dread_dwrite, decide_True. }
  intros _ s3 (Hu3 & Hd3 & Hb3 & _ & Hinv3 & V3). assert (upper s s3) as Hup by (now rewrite Hu, Hu2).
  split; [|split; [done|split]].
  - eapply (linv_step L bs ps Pn s); eauto. apply (pinned_keeps s); [|done]. eapply keeps_trans; [exact K1|].
    eapply keeps_trans; [exact K2|]. eapply keeps_insert; [exact Hk2|exact Hb3|done].
  - apply wrote_one. now rewrite Hd3, Hd2, Hb, Hd, (ho_dsk _ _ _ _ _ _ _ _ Ho).
  - intros x. now rewrite V3, V2, V1, Hb, Hd.
Qed.

(** The blocks the header [d] names. *)
Definition head_blocks (d : list Z) : list Z :=
  (fun j => head_block d (Z.of_nat j)) <$> seq 0 (Z.to_nat (head_n d)).

Lemma head_blocks_length d : length (head_blocks d) = Z.to_nat (head_n d).
Proof. unfold head_blocks. now rewrite length_fmap, length_seq. Qed.

Lemma head_blocks_header bs d :
  (length bs <= 30)%nat -> length d = 1024%nat -> (forall blk, blk ∈ bs -> 0 <= blk < 2147483648) ->
  head_blocks (header bs d) = bs.
Proof.
  intros Hl Hd Hb. apply list_eq. intros j. unfold head_blocks. rewrite header_n, Nat2Z.id, list_lookup_fmap by done.
  destruct (bs !! j) as [v|] eqn:E.
  - rewrite lookup_seq_lt by (now apply lookup_lt_Some in E). simpl. f_equal.
    apply header_block; auto. apply Hb. now apply list_elem_of_lookup_2 in E.
  - rewrite lookup_seq_ge by (now apply lookup_ge_None in E). done.
Qed.

(** Everything but the log's own state is as [upper] says. *)
Definition beside s s' : Prop := upper (set_lg (lg s') s) s'.

Lemma upper_beside s s' : upper s s' -> beside s s'.
Proof. intros (A1 & A2 & A3). split; [done|]. split; [done|]. exact A3. Qed.
Lemma beside_lg s l : beside s (set_lg l s).
Proof. unfold beside. reflexivity. Qed.
#[export] Instance beside_trans : Transitive beside.
Proof.
  intros s1 s2 s3 (A1 & A2 & A3 & A4 & A5 & A6 & A7) (B1 & B2 & B3 & B4 & B5 & B6 & B7). unfold rest in *. simpl in *.
  split; [simpl; now rewrite A1|]. split; [done|]. unfold rest. simpl. do 4 (split; [congruence|]).
  intros id Hid. rewrite B7 by done. now apply A7.
Qed.

Lemma binv_lg H Pn s l : binv n H Pn s -> binv n H Pn (set_lg l s).
Proof. intros []. constructor; auto. Qed.

Lemma wp_updlog f (Q : unit -> kern -> Prop) s : Q tt (set_lg (f (lg s)) s) -> wp (updlog f) Q s.
Proof. exact (wp_modify _ Q s). Qed.
Lemma wp_setblock j v (Q : unit -> kern -> Prop) s :
  (j < length (l_block (lg s)))%nat -> Q tt (set_lg (set_l_block (<[j := v]> (l_block (lg s))) (lg s)) s) ->
  wp (setblock (Z.of_nat j) v) Q s.
Proof.
  intros Hj HQ. unfold wp, setblock. rewrite (proj2 (Z.leb_le _ _)) by lia. rewrite Nat2Z.id.
  destruct (Nat.ltb_spec j (length (l_block (lg s)))); [exact HQ|lia].
Qed.

Lemma read_head_spec L s :
  linv L [] [] [] s -> 0 <= head_n (dread (dsk s) L) <= 30 ->
  wp read_head (fun _ s' => linv L (head_blocks (dread (dsk s) L)) [] [] s' /\ beside s s' /\ dsk s' = dsk s /\
    forall x, bview s' x = bview s x) s.
Proof.
  intros HL Hn. pose proof HL as [A1 A2 A3 A4 _ Hinv A7 Hr]. unfold read_head. wsteps.
  rewrite A1, A2. eapply wp_mono.
  { apply (bread_spec i n [] []); [done|done|right; simpl; lia|apply not_held_nil]. }
  intros k s1 (b & b1 & Ho & Hb & Hd & Hu). pose proof (holds_inv _ _ _ _ _ _ _ _ Hinv Ho) as Hinv1.
  pose proof (holds_at _ _ _ _ _ _ _ Hinv Ho) as Hk1. pose proof (ready_calm i n _ _ Hr (proj1 Hu)) as Hr1.
  assert (forall x, bview s1 x = bview s x) as V1 by (intros x; apply (holds_view _ _ _ _ _ _ _ _ x Hinv Ho); now rewrite Hb).
  assert (b_data b1 = dread (dsk s) L) as E1
    by (rewrite Hd; apply (unpinned_view s [] []); auto; apply not_elem_of_nil).
  assert (lg s1 = lg s) as El by apply Hu. pose proof (ho_dsk _ _ _ _ _ _ _ _ Ho) as Ed.
  wsteps. apply (wp_getbuf k b1); [done|]. wsteps. apply wp_updlog. wsteps. rewrite E1. set (d := dread (dsk s) L) in *.
  eapply wp_mono; [apply (wp_mloop (fun j s' => exists lb, length lb = 30%nat /\
    (forall m, (m < j)%nat -> lb !! m = Some (head_block d (Z.of_nat m))) /\
    s' = set_lg (set_l_block lb (set_l_n (head_n d) (lg s1))) s1))|].
  { exists (l_block (lg s1)). rewrite El. split; [done|]. split; [intros m Hm; lia|]. now rewrite <- El. }
  { intros j s' Hj (lb & Hlb & Hm & ->). replace (0 + Z.of_nat j * 1) with (Z.of_nat j) by lia. wsteps.
    apply (wp_getbuf k b1); [done|]. rewrite E1. apply wp_setblock; [simpl; lia|]. simpl.
    exists (<[j := head_block d (Z.of_nat j)]> lb). split; [now rewrite length_insert|]. split; [|done].
    intros m Hmj. destruct (decide (m = j)) as [->|Hne]; [apply list_lookup_insert_eq; lia|].
    rewrite list_lookup_insert_ne by done. apply Hm. lia. }
  cbv beta. intros _ s' (lb & Hlb & Hm & ->).
  eapply wp_mono; [apply (brelse_spec i n [] [] _ k b1); auto|].
  { now apply binv_lg. }
  { right. simpl. now rewrite E1, Ed, Hb. }
  intros _ s3 (Hu3 & Hd3 & Hb3 & _ & Hinv3 & V3). pose proof (proj1 (proj2 Hu3)) as El3. simpl in El3.
  split; [|split; [|split]].
  - constructor; auto; rewrite ?El3; simpl; auto; [now rewrite El|now rewrite El|rewrite head_blocks_length; lia|..].
    + intros j blk Hj. pose proof (lookup_lt_Some _ _ _ Hj) as Hjl. rewrite head_blocks_length in Hjl. rewrite Hm by done.
      unfold head_blocks in Hj. rewrite list_lookup_fmap, lookup_seq_lt in Hj by done. done.
    + split; [done|]. intros j k0 blk Hj. now rewrite lookup_nil in Hj.
    + eapply ready_calm; [exact Hr1|apply Hu3].
  - transitivity s1; [now apply upper_beside|]. etransitivity; [apply beside_lg|exact (upper_beside _ _ Hu3)].
  - now rewrite Hd3.
  - intros x. rewrite V3. apply V1.
Qed.

(** ** Commit and recovery *)

(** A disk after more writes. *)
Definition after (d : disk) (ws : list (Z * list Z)) : disk := Disk (d_init d) (d_hist d ++ ws).

Lemma wrote_after s ws s' : wrote s ws s' -> dsk s' = after (dsk s) ws.
Proof. intros [H1 H2]. unfold after. rewrite <- H1, <- H2. now destruct (dsk s'). Qed.
Lemma after_app d w1 w2 : after (after d w1) w2 = after d (w1 ++ w2).
Proof. unfold after. simpl. now rewrite app_assoc. Qed.
Lemma after_nil d : after d [] = d.
Proof. unfold after. rewrite app_nil_r. now destruct d. Qed.
Lemma dread_after_snoc d ws x v y : dread (after d (ws ++ [(x, v)])) y = if decide (x = y) then v else dread (after d ws) y.
Proof. rewrite <- after_app. apply dread_dwrite. Qed.
Lemma dread_after_ne d ws y : ~ y ∈ ws.*1 -> dread (after d ws) y = dread d y.
Proof.
  induction ws as [|[x v] ws IH] using rev_ind; [now rewrite after_nil|]. rewrite fmap_app, elem_of_app. simpl.
  rewrite list_elem_of_singleton. intros H. rewrite dread_after_snoc, decide_False by (intros ->; tauto). apply IH. tauto.
Qed.

(** Writes to distinct blocks. *)
Lemma dread_after_take d ws k j x v :
  NoDup ws.*1 -> ws !! j = Some (x, v) -> dread (after d (take k ws)) x = if decide (j < k)%nat then v else dread d x.
Proof.
  intros Hnd Hj. induction k as [|k IH]; [now rewrite after_nil, decide_False by lia|].
  destruct (ws !! k) as [[y w]|] eqn:Ek.
  - rewrite (take_S_r _ _ _ Ek), dread_after_snoc, IH. destruct (decide (y = x)) as [->|Hne].
    + assert (j = k) as ->; [|rewrite decide_True by lia; congruence].
      eapply (NoDup_lookup ws.*1); eauto; rewrite list_lookup_fmap; [now rewrite Hj|now rewrite Ek].
    + assert (j <> k) by (intros ->; congruence).
      destruct (decide (j < k)%nat), (decide (j < S k)%nat); try done; lia.
  - pose proof (lookup_lt_Some _ _ _ Hj). apply lookup_ge_None in Ek. rewrite take_ge in IH |- * by lia.
    rewrite IH, !decide_True by lia. done.
Qed.

Lemma lookup_zip_bs (bs : list Z) (vs : list (list Z)) j x v :
  bs !! j = Some x -> vs !! j = Some v -> zip bs vs !! j = Some (x, v).
Proof. intros H1 H2. rewrite lookup_zip_with, H1. simpl. now rewrite H2. Qed.

Lemma dread_zip d bs vs j x v : NoDup bs -> length vs = length bs -> bs !! j = Some x -> vs !! j = Some v ->
  dread (after d (zip bs vs)) x = v.
Proof.
  intros Hnd Hl Hb Hv. rewrite <- (take_ge (zip bs vs) (length bs)) by (rewrite length_zip_with; lia).
  rewrite (dread_after_take d _ _ j x v); [|now rewrite fst_zip by lia|now apply lookup_zip_bs].
  rewrite decide_True; [done|]. now apply lookup_lt_Some in Hb.
Qed.

(** The writes of [commit] for the blocks [bs] with contents [vs], over the
    header [h]. *)
Definition commit_writes L bs (vs : list (list Z)) (h : list Z) : list (Z * list Z) :=
  log_writes L vs ++ [(L, header bs h)] ++ zip bs vs ++ [(L, header [] (header bs h))].

Lemma linv_n0 L bs s : linv L bs [] [] s -> linv L [] [] [] (set_lg (set_l_n 0 (lg s)) s).
Proof. intros [A1 A2 A3 A4 A5 A6 A7 A8]. constructor; auto; [intros j blk Hj; now rewrite lookup_nil in Hj|now apply binv_lg]. Qed.

Lemma bs_ok_nil L bs : bs_ok L bs -> bs_ok L [].
Proof.
  intros (H1 & H2 & H3 & H4 & H5). split; [constructor|]. simpl. split; [lia|]. split; [done|]. split; [done|].
  intros blk Hb. now apply not_elem_of_nil in Hb.
Qed.

Lemma not_in_log L bs x : bs_ok L bs -> L <= x <= L + 30 -> ~ x ∈ bs.
Proof. intros Hok Hx Hin. destruct (out_of_log L bs x Hok Hin); lia. Qed.

Lemma commit_spec L bs Pn s :
  linv L bs bs Pn s -> bs_ok L bs -> bs <> [] ->
  wp commit (fun _ s' => linv L [] [] [] s' /\ beside s s' /\ lg s' = set_l_n 0 (lg s) /\
    wrote s (commit_writes L bs (bview s <$> bs) (dread (dsk s) L)) s' /\
    forall x, x < L \/ L + 30 < x -> bview s' x = bview s x) s.
Proof.
  intros HL Hok Hne. unfold commit. wsteps. rewrite (li_n _ _ _ _ _ HL).
  assert ((0 <? Z.of_nat (length bs)) = true) as -> by (apply Z.ltb_lt; destruct bs; [done|simpl; lia]).
  assert (length Pn <= 29)%nat as HP by (destruct (li_pins _ _ _ _ _ HL) as [-> _]; apply Hok).
  assert (~ L ∈ bs) as HLb by (eapply not_in_log; eauto; lia).
  pose proof (unpinned_view s bs Pn L (li_inv _ _ _ _ _ HL) (li_pins _ _ _ _ _ HL) HLb) as EL.
  wsteps. eapply wp_mono; [now apply (write_log_spec L bs Pn)|]. cbv beta. intros _ s1 (HL1 & Hu1 & Hw1 & V1 & VL1).
  wsteps. eapply wp_mono; [now apply (write_head_spec L bs bs Pn)|]. cbv beta. intros _ s2 (HL2 & Hu2 & Hw2 & V2).
  wsteps. rewrite (V1 L), EL in Hw2, V2 by lia.
  eapply wp_mono; [now apply (install_spec L bs Pn s2 false _ HL2 Hok ltac:(discriminate) eq_refl)|]. cbv beta.
  intros _ s3 (HL3 & (o & Ho & Hu3) & Hw3 & V3). rewrite (Ho eq_refl), say_nil in Hu3.
  wsteps. apply wp_updlog. pose proof (linv_n0 _ _ _ HL3) as HL4. wsteps.
  eapply wp_mono; [apply (write_head_spec L [] [] []); [done|now apply (bs_ok_nil L bs)|simpl; lia|apply not_elem_of_nil]|].
  intros _ s5 (HL5 & Hu5 & Hw5 & V5).
  change (bview (set_lg (set_l_n 0 (lg s3)) s3)) with (bview s3) in Hw5, V5.
  rewrite (V3 L HLb), V2, decide_True in Hw5, V5 by done.
  assert (((fun j => bview s2 (L + Z.of_nat j + 1)) <$> seq 0 (length bs)) = (bview s <$> bs)) as Evs.
  { apply list_eq. intros j. rewrite !list_lookup_fmap. destruct (bs !! j) as [blk|] eqn:Ej.
    - rewrite lookup_seq_lt by (now apply lookup_lt_Some in Ej). simpl. rewrite V2, decide_False by lia.
      now rewrite (VL1 j blk Ej).
    - rewrite lookup_seq_ge by (now apply lookup_ge_None in Ej). done. }
  rewrite Evs in Hw3. split; [done|]. split; [|split; [|split]].
  - transitivity s3; [apply upper_beside; now rewrite Hu1, Hu2|].
    etransitivity; [apply beside_lg|exact (upper_beside _ _ Hu5)].
  - rewrite (proj1 (proj2 Hu5)). simpl. f_equal. now rewrite (proj1 (proj2 Hu3)), (proj1 (proj2 Hu2)), (proj1 (proj2 Hu1)).
  - unfold commit_writes. eapply wrote_app; [exact Hw1|]. eapply wrote_app; [exact Hw2|]. eapply wrote_app; [exact Hw3|].
    exact Hw5.
  - intros x Hx. rewrite V5, decide_False by lia. destruct (decide (x ∈ bs)) as [Hin|Hout].
    + pose proof (unpinned_view s3 [] [] x (li_inv _ _ _ _ _ HL3) (li_pins _ _ _ _ _ HL3)) as E3.
      rewrite E3 by apply not_elem_of_nil. rewrite (wrote_after _ _ _ Hw3).
      apply list_elem_of_lookup in Hin as [j Hj]. apply (dread_zip _ bs _ j); [apply Hok|now rewrite length_fmap|done|].
      now rewrite list_lookup_fmap, Hj.
    + rewrite V3 by done. rewrite V2, decide_False by lia. apply V1. lia.
Qed.

(** *** The disk as recovery leaves it *)

(** Block [x] after the log of [d] has been installed. *)
Definition durable L (d : disk) (x : Z) : list Z :=
  match list_find (fun b => b = x) (head_blocks (dread d L)) with
  | Some (j, _) => dread d (L + Z.of_nat j + 1)
  | None => dread d x
  end.

(** The header of [d] is one that [write_head] wrote. *)
Definition log_ok L (d : disk) : Prop :=
  0 <= head_n (dread d L) /\ bs_ok L (head_blocks (dread d L)) /\ length (dread d L) = 1024%nat.

(** The writes of a recovery from [d]. *)
Definition recover_writes L (d : disk) : list (Z * list Z) :=
  zip (head_blocks (dread d L)) ((fun j => dread d (L + Z.of_nat j + 1)) <$> seq 0 (length (head_blocks (dread d L)))) ++
  [(L, header [] (dread d L))].

Lemma beside_say o s s' : beside s s' -> beside (say o s) (say o s').
Proof. intros H. unfold beside. exact (say_upper o _ _ H). Qed.
Lemma beside_tx_idle s s' : tx_idle s -> beside s s' -> tx_idle s'.
Proof. intros H Hb. apply (tx_idle_say [] (set_lg (lg s') s)); [done|now rewrite say_nil]. Qed.

Lemma recover_spec L s :
  linv L [] [] [] s -> log_ok L (dsk s) -> tx_idle s ->
  wp recover_from_log (fun _ s' => linv L [] [] [] s' /\ (exists o, beside (say o s) s') /\ wrote s (recover_writes L (dsk s)) s') s.
Proof.
  intros HL (Hn & Hok & _) Ht. unfold recover_from_log. wsteps.
  assert (forall x, bview s x = dread (dsk s) x) as V0.
  { intros x. apply (unpinned_view s [] [] x (li_inv _ _ _ _ _ HL) (li_pins _ _ _ _ _ HL)), not_elem_of_nil. }
  pose proof (head_blocks_length (dread (dsk s) L)) as Hlen.
  assert (head_n (dread (dsk s) L) <= 29) by (destruct Hok as (_ & ? & _); lia).
  eapply wp_mono; [apply (read_head_spec L); [done|lia]|]. cbv beta. intros _ s1 (HL1 & Hu1 & Hd1 & V1). wsteps.
  eapply wp_mono; [apply (install_spec L _ [] s1 true _ HL1 Hok (fun _ => beside_tx_idle s s1 Ht Hu1) eq_refl)|]. cbv beta.
  intros _ s2 (HL2 & (o & _ & Hu2) & Hw2 & V2).
  wsteps. apply wp_updlog. pose proof (linv_n0 _ _ _ HL2) as HL3. wsteps.
  eapply wp_mono; [apply (write_head_spec L [] [] []); [done|eapply bs_ok_nil; eauto|simpl; lia|apply not_elem_of_nil]|].
  intros _ s4 (HL4 & Hu4 & Hw4 & _). change (bview (set_lg (set_l_n 0 (lg s2)) s2)) with (bview s2) in Hw4.
  rewrite V2, V1, V0 in Hw4 by (eapply not_in_log; eauto; lia).
  split; [done|]. split.
  - exists o. transitivity (say o s1); [now apply beside_say|]. transitivity s2; [now apply upper_beside|].
    etransitivity; [apply beside_lg|exact (upper_beside _ _ Hu4)].
  - unfold recover_writes. apply (wrote_app _ s2); [|exact Hw4].
    destruct Hw2 as [W1 W2]. split; [now rewrite W1, Hd1|]. rewrite W2, Hd1. do 2 f_equal.
    apply list_fmap_ext. intros _ j _. now rewrite V1, V0.
Qed.

(** With an empty header the disk is what it says. *)
Lemma durable_empty L d x : head_n (dread d L) = 0 -> durable L d x = dread d x.
Proof. intros H. unfold durable, head_blocks. now rewrite H. Qed.

Lemma durable_header L d bs h x :
  dread d L = header bs h -> length h = 1024%nat -> bs_ok L bs ->
  durable L d x = match list_find (fun b => b = x) bs with Some (j, _) => dread d (L + Z.of_nat j + 1) | None => dread d x end.
Proof.
  intros E Hh (H1 & H2 & H3 & H4 & H5). unfold durable. rewrite E, head_blocks_header; [done|lia|done|].
  intros blk Hb. now apply H5.
Qed.

Lemma find_here (bs : list Z) x j y : list_find (fun b => b = x) bs = Some (j, y) -> bs !! j = Some x.
Proof. rewrite list_find_Some. intros (H & -> & _). done. Qed.
Lemma find_not (bs : list Z) x : list_find (fun b => b = x) bs = None -> ~ x ∈ bs.
Proof. rewrite list_find_None, Forall_forall. intros H Hin. now apply (H x). Qed.

(** Installing, wherever it stops, changes nothing of the durable disk. *)
Lemma durable_install L d k x :
  log_ok L d -> x < L \/ L + 30 < x -> let ws := take k (recover_writes L d) in
  durable L (after d ws) x = durable L d x /\ log_ok L (after d ws).
Proof.
  intros (Hn & Hok & Hl) Hx ws. unfold ws, recover_writes. clear ws. set (bs := head_blocks (dread d L)) in *.
  set (vs := (fun j => dread d (L + Z.of_nat j + 1)) <$> seq 0 (length bs)).
  assert (length vs = length bs) as Hvs by (unfold vs; now rewrite length_fmap, length_seq).
  assert (length (zip bs vs) = length bs) as Hz by (rewrite length_zip_with; lia).
  assert (forall m y, ~ y ∈ bs -> dread (after d (take m (zip bs vs))) y = dread d y) as Hout.
  { intros m y Hy. apply dread_after_ne. rewrite fmap_take, fst_zip by lia. intros Hin. apply Hy.
    apply elem_of_take in Hin as (q & Hq & _). now apply list_elem_of_lookup_2 in Hq. }
  destruct (decide (k <= length bs)%nat) as [Hk|Hk].
  - rewrite take_app_le by lia. pose proof (Hout k L ltac:(eapply not_in_log; eauto; lia)) as EL.
    split; [|unfold log_ok; rewrite EL; done]. unfold durable. rewrite EL. fold bs.
    destruct (list_find _ bs) as [[j y]|] eqn:E; [|now apply Hout, find_not].
    apply find_here in E. apply Hout. apply (not_in_log L bs); [done|]. apply lookup_lt_Some in E. destruct Hok. lia.
  - rewrite take_ge by (rewrite length_app; simpl; lia).
    assert (dread (after d (zip bs vs ++ [(L, header [] (dread d L))])) L = header [] (dread d L)) as EL
      by (now rewrite dread_after_snoc, decide_True).
    split.
    + rewrite durable_empty by (rewrite EL; apply (header_n []); [simpl; lia|done]).
      rewrite dread_after_snoc, decide_False by lia. unfold durable. fold bs.
      destruct (list_find _ bs) as [[j y]|] eqn:E.
      * apply find_here in E. apply (dread_zip _ bs vs j); [apply Hok|done|done|].
        unfold vs. rewrite list_lookup_fmap, lookup_seq_lt; [done|]. now apply lookup_lt_Some in E.
      * rewrite <- (take_ge (zip bs vs) (length bs)) by lia. now apply Hout, find_not.
    + unfold log_ok. rewrite EL. rewrite (header_n [] _ ltac:(simpl; lia) Hl), header_length.
      split; [done|]. split; [|done]. unfold head_blocks. rewrite (header_n [] _ ltac:(simpl; lia) Hl).
      now apply (bs_ok_nil L bs).
Qed.

(** After all the writes of a recovery the blocks are home. *)
Lemma recovered_durable L d x :
  log_ok L d -> x < L \/ L + 30 < x -> dread (after d (recover_writes L d)) x = durable L d x.
Proof.
  intros Hok Hx. destruct (durable_install L d (length (recover_writes L d)) x Hok Hx) as [<- _].
  rewrite take_ge by lia. symmetry. apply durable_empty. unfold recover_writes.
  rewrite dread_after_snoc, decide_True by done. apply (header_n []); [simpl; lia|apply Hok].
Qed.

Lemma log_writes_fst L vs : NoDup (log_writes L vs).*1 /\
  forall y, y ∈ (log_writes L vs).*1 -> L < y <= L + Z.of_nat (length vs).
Proof.
  induction vs as [|v vs [IH1 IH2]] using rev_ind.
  - split; [constructor|]. intros y Hy. now apply not_elem_of_nil in Hy.
  - rewrite log_writes_snoc, fmap_app, length_app. simpl. split.
    + apply NoDup_app. split; [done|]. split; [|apply NoDup_singleton].
      intros y Hy. apply IH2 in Hy. rewrite list_elem_of_singleton. lia.
    + intros y. rewrite elem_of_app, list_elem_of_singleton. intros [Hy| ->]; [apply IH2 in Hy; lia|lia].
Qed.

(** The commit point: before the header is written the durable disk is the
    old one, from then on the new one. *)
Lemma durable_commit L d bs vs k x :
  head_n (dread d L) = 0 -> length (dread d L) = 1024%nat -> bs_ok L bs -> length vs = length bs ->
  x < L \/ L + 30 < x -> let ws := take k (commit_writes L bs vs (dread d L)) in
  log_ok L (after d ws) /\
  durable L (after d ws) x =
    if decide (k <= length bs)%nat then dread d x
    else match list_find (fun b => b = x) bs with Some (j, _) => default [] (vs !! j) | None => dread d x end.
Proof.
  intros Hn Hl Hok Hvs Hx ws. unfold ws, commit_writes. clear ws. destruct (log_writes_fst L vs) as [HN HF].
  assert (length (log_writes L vs) = length bs) as Hlen by (unfold log_writes; now rewrite length_imap).
  assert (Hb : (length bs <= 29)%nat) by apply Hok.
  assert (forall m y, y <= L \/ L + 30 < y -> dread (after d (take m (log_writes L vs))) y = dread d y) as Hout.
  { intros m y Hy. apply dread_after_ne. rewrite fmap_take. intros Hin. apply elem_of_take in Hin as (q & Hq & _).
    apply list_elem_of_lookup_2, HF in Hq. lia. }
  case_decide as Hk.
  - rewrite take_app_le by lia. pose proof (Hout k L ltac:(lia)) as EL. split.
    + unfold log_ok. rewrite EL. split; [lia|]. split; [|done]. unfold head_blocks. rewrite Hn. now apply (bs_ok_nil L bs).
    + rewrite durable_empty by (now rewrite EL). apply Hout. lia.
  - rewrite take_app_ge by lia. rewrite Hlen, <- after_app.
    set (h := header bs (dread d L)).
    set (d1 := after d (log_writes L vs ++ [(L, h)])).
    assert (dread d1 L = h) as E1 by (unfold d1; now rewrite dread_after_snoc, decide_True).
    assert (log_ok L d1) as Hok1.
    { unfold log_ok. rewrite E1. unfold h. rewrite header_n by (auto; lia).
      rewrite head_blocks_header; [|lia|done|intros b Hin; now apply Hok]. rewrite header_length. split; [lia|done]. }
    assert (forall y, L <= y -> y <> L -> dread d1 y = dread (after d (log_writes L vs)) y) as E2
      by (intros y _ Hy; unfold d1; now rewrite dread_after_snoc, decide_False).
    assert (forall j v, vs !! j = Some v -> dread d1 (L + Z.of_nat j + 1) = v) as E3.
    { intros j v Hj. rewrite E2 by lia. rewrite <- (take_ge (log_writes L vs) (length bs)) by lia.
      rewrite (dread_after_take d _ _ j _ v HN); [|unfold log_writes; now rewrite list_lookup_imap, Hj].
      rewrite decide_True; [done|]. rewrite <- Hvs. now apply lookup_lt_Some in Hj. }
    assert (head_blocks (dread d1 L) = bs) as Ehb by (rewrite E1; unfold h; rewrite head_blocks_header; [done|lia|done|intros b Hin; now apply Hok]).
    assert (zip bs vs ++ [(L, header [] h)] = recover_writes L d1) as Erw.
    { unfold recover_writes. rewrite Ehb, E1. do 2 f_equal. apply list_eq. intros j. rewrite list_lookup_fmap.
      destruct (vs !! j) as [v|] eqn:Ej.
      - rewrite lookup_seq_lt by (rewrite <- Hvs; now apply lookup_lt_Some in Ej). simpl. now rewrite (E3 j v).
      - rewrite lookup_seq_ge by (rewrite <- Hvs; now apply lookup_ge_None in Ej). done. }
    assert (after (after d (log_writes L vs)) (take (k - length bs) ([(L, h)] ++ zip bs vs ++ [(L, header [] h)])) =
      after d1 (take (k - length bs - 1) (recover_writes L d1))) as ->.
    { rewrite Erw. unfold d1. rewrite !after_app, <- app_assoc. do 2 f_equal.
      destruct (k - length bs)%nat as [|m] eqn:Em; [lia|]. simpl. now rewrite Nat.sub_0_r. }
    destruct (durable_install L d1 (k - length bs - 1) x Hok1 Hx) as [-> ?]. split; [done|].
    rewrite (durable_header L d1 bs (dread d L)) by done.
    destruct (list_find _ bs) as [[j y]|] eqn:E.
    + apply find_here in E. destruct (lookup_lt_is_Some_2 vs j) as [v Hv]; [rewrite Hvs; now apply lookup_lt_Some in E|].
      rewrite Hv. now apply E3.
    + unfold d1. rewrite dread_after_snoc, decide_False by lia.
      rewrite <- (take_ge (log_writes L vs) (length bs)) by lia. apply Hout. lia.
Qed.
End Blocks.

(** ** Properties *)

(** A crash during recovery: of its writes, only the first [k] reach the
    disk. *)
Inductive crash_step {P : Patience} {D : DiskDriver} (L : Z) : disk -> disk -> Prop :=
| crash i n s s' ws k :
    linv i n L [] [] [] s -> tx_idle s -> recover_from_log s = Ret tt s' -> wrote s ws s' ->
    crash_step L (dsk s) (after (dsk s) (take k ws)).

Section Properties.
Context {P : Patience} {D : DiskDriver} {DO : DiskOk D}.

Lemma wrote_inj s ws ws' s' : wrote s ws s' -> wrote s ws' s' -> ws = ws'.
Proof. intros [_ H1] [_ H2]. rewrite H1 in H2. now apply app_inv_head in H2. Qed.

(** Crashed recoveries do not change the durable disk. *)
Lemma crashes_durable L d d' x :
  rtc (crash_step L) d d' -> log_ok L d -> x < L \/ L + 30 < x -> log_ok L d' /\ durable L d' x = durable L d x.
Proof.
  intros Hr. induction Hr as [d|d1 d2 d3 Hs _ IH]; intros Hok Hx; [done|].
  destruct Hs as [i n s s' ws k HL Ht Hrun Hw]. pose proof (recover_spec i n L s HL Hok Ht) as Hsp.
  unfold wp in Hsp. rewrite Hrun in Hsp. destruct Hsp as (_ & _ & Hw').
  rewrite (wrote_inj _ _ _ _ Hw Hw') in *. destruct (durable_install L (dsk s) k x Hok Hx) as [E Hok2].
  destruct (IH Hok2 Hx) as [? E2]. split; [done|congruence].
Qed.

(** The transaction's blocks after [log_write] of [blk]. *)
Definition absorb (blk : Z) (bs : list Z) : list Z := if decide (blk ∈ bs) then bs else bs ++ [blk].

(** The log's memory while operations are under way: as [linv], with
    buffers [H] held. *)
Record tinv i n L bs H Pn s : Prop := {
  ti_start : l_start (lg s) = L;
  ti_dev : l_dev (lg s) = ROOTDEV;
  ti_n : l_n (lg s) = Z.of_nat (length bs);
  ti_size : length (l_block (lg s)) = 30%nat;
  ti_blocks : forall j blk, bs !! j = Some blk -> l_block (lg s) !! j = Some blk;
  ti_inv : binv n H Pn s;
  ti_pins : pinned s bs Pn;
  ti_ready : ready i n (km s);
}.

Lemma tinv_linv i n L bs Pn s : tinv i n L bs [] Pn s <-> linv i n L bs bs Pn s.
Proof. split; intros []; constructor; auto. Qed.

Lemma tinv_frame i n L bs H Pn s s' H' :
  tinv i n L bs H Pn s -> upper s s' -> binv n H' Pn s' -> keeps Pn s s' -> tinv i n L bs H' Pn s'.
Proof.
  intros [A1 A2 A3 A4 A5 A6 A7 A8] (B1 & B2 & _) Hinv Hk.
  constructor; rewrite ?B2; auto; [eapply pinned_keeps; eauto|eapply ready_calm; eauto].
Qed.

(** The search of [log_write]. *)
Lemma find_block_spec bs blk s :
  (forall j v, bs !! j = Some v -> l_block (lg s) !! j = Some v) -> (forall v, v ∈ bs -> 0 <= v < 2147483648) ->
  wp (mfor (length bs) 0 1 (fun i => let! v := getblock i in ret (if u32 v =? blk then Some i else None)))
    (fun r s' => s' = s /\ match r with
       | Some i => exists j, i = Z.of_nat j /\ bs !! j = Some blk
       | None => ~ blk ∈ bs end) s.
Proof.
  intros Hb Hr. eapply wp_mono.
  - apply (wp_mfor (fun k s' => s' = s /\ ~ blk ∈ take k bs)
      (fun i s' => s' = s /\ exists j, i = Z.of_nat j /\ bs !! j = Some blk)).
    { split; [done|]. apply not_elem_of_nil. }
    intros k s' Hk [-> Hn]. destruct (lookup_lt_is_Some_2 bs k Hk) as [v Hv].
    replace (0 + Z.of_nat k * 1) with (Z.of_nat k) by lia. wsteps. apply (wp_getblock k v); [now apply Hb|]. wsteps.
    rewrite u32_small by (pose proof (Hr v ltac:(now apply list_elem_of_lookup_2 in Hv)); lia).
    destruct (Z.eqb_spec v blk) as [->|Hne]; [eauto|]. split; [done|].
    rewrite (take_S_r _ _ _ Hv), elem_of_app, list_elem_of_singleton. intros [?|?]; congruence.
  - intros [i|] s'; [intros [-> H]; done|]. intros [-> H]. rewrite take_ge in H by lia. done.
Qed.

(** A new block at the end of the transaction, pinned in buffer [k]. *)
Lemma append_block i n L bs H Pn s s' k b :
  tinv i n L bs H Pn s -> k ∈ H -> bufs s !! k = Some b -> ~ b_blockno b ∈ bs -> NoDup bs -> (length bs < 30)%nat ->
  bufs s' = <[k := set_b_refcnt (u32 (b_refcnt b + 1)) b]> (bufs s) ->
  lg s' = set_l_n (Z.of_nat (length bs) + 1) (set_l_block (<[length bs := b_blockno b]> (l_block (lg s))) (lg s)) ->
  (slocks s', lru s', dsk s', sb s', itable s', ftable s', rest s') =
  (slocks s, lru s, dsk s, sb s, itable s, ftable s, rest s) -> calm (km s) (km s') ->
  beside s s' /\ dsk s' = dsk s /\ NoDup (absorb (b_blockno b) bs) /\
  (exists Pn', k ∈ Pn' /\ tinv i n L (absorb (b_blockno b) bs) H Pn' s') /\ forall x, bview s' x = bview s x.
Proof.
  intros HT Hk Hb Hnew Hnd Hlen Ebufs Elg Eq Hcalm. injection Eq as E1 E2 E3 E4 E5 E6 E7 E8 E9 E10 E11. pose proof HT as [A1 A2 A3 A4 A5 Hinv A7 Hr].
  assert (~ k ∈ Pn) as HkP by (eapply not_pinned; eauto).
  assert (forall {A : Type} (l : list A) x, NoDup l -> ~ x ∈ l -> NoDup (l ++ [x])) as Happ.
  { intros A l x Hl Hx. apply NoDup_app. split; [done|]. split; [|apply NoDup_singleton].
    intros y Hy. rewrite list_elem_of_singleton. intros ->. done. }
  assert (u32 (b_refcnt b + 1) = 2) as Er.
  { rewrite (bi_ref _ _ _ _ Hinv k b Hb), bool_decide_eq_true_2, bool_decide_eq_false_2 by done. done. }
  rewrite Er in Ebufs.
  destruct (binv_ref n H Pn H (Pn ++ [k]) s s' k b 2) as [Hinv' V]; auto; try apply Hinv.
  { now apply (bi_used _ _ _ _ Hinv k); [|left]. }
  { rewrite E2. apply Hinv. }
  { apply Happ; [apply Hinv|done]. }
  { intros j Hj'. rewrite elem_of_app, list_elem_of_singleton. tauto. }
  { rewrite !bool_decide_eq_true_2; [done|rewrite elem_of_app, list_elem_of_singleton; now right|done]. }
  { intros j Hj. unfold getsl. rewrite E1. now apply Hinv. }
  { intros Hn. done. }
  unfold absorb. rewrite decide_False by done.
  split; [split; [done|]; unfold rest; simpl; do 5 (split; [congruence|]); intros id _; unfold getsl; simpl; now rewrite E1|].
  split; [done|]. split; [now apply Happ|]. split; [|done].
  exists (Pn ++ [k]). split; [rewrite elem_of_app, list_elem_of_singleton; now right|].
  constructor; rewrite ?Elg; try done; simpl.
  - rewrite length_app. simpl. lia.
  - now rewrite length_insert.
  - intros j blk Hj'. apply lookup_app_Some in Hj' as [Hj'|[Hle Hj']].
    { pose proof (lookup_lt_Some _ _ _ Hj'). rewrite list_lookup_insert_ne by lia. now apply A5. }
    apply list_lookup_singleton_Some in Hj' as [Hj0 <-]. replace j with (length bs) by lia.
    apply list_lookup_insert_eq. lia.
  - apply pinned_snoc with (b := set_b_refcnt 2 b); [|rewrite Ebufs; apply list_lookup_insert_eq; now apply lookup_lt_Some in Hb|done].
    eapply pinned_keeps; [|exact A7]. eapply keeps_insert; [exact Hb|exact Ebufs|done].
  - eapply ready_calm; eauto.
Qed.

(** The counters of operations and commits. *)
Definition counters (l : log) : Z * bool * Z := (l_outstanding l, l_committing l, l_ncommit l).

Lemma log_write_spec i n L bs H Pn s k b :
  tinv i n L bs H Pn s -> k ∈ H -> bufs s !! k = Some b -> (length bs < 30)%nat -> NoDup bs ->
  1 <= l_outstanding (lg s) -> (forall v, v ∈ b_blockno b :: bs -> 0 <= v < 2147483648) ->
  wp (log_write k) (fun _ s' => beside s s' /\ dsk s' = dsk s /\ NoDup (absorb (b_blockno b) bs) /\
    (exists Pn', k ∈ Pn' /\ tinv i n L (absorb (b_blockno b) bs) H Pn' s') /\
    (forall x, bview s' x = bview s x) /\
    counters (lg s') = counters (lg s) /\ forall j, j <> k -> bufs s' !! j = bufs s !! j) s.
Proof.
  intros HT Hk Hb Hlen Hnd Hout Hrange. pose proof HT as [A1 A2 A3 A4 A5 Hinv A7 Hr].
  pose proof Hr as (Hok & _ & Hfree & _). unfold log_write. wsteps. apply wp_mk.
  apply (wp_acquire _ 3); [done|lia|apply Hfree|]. intros K1 HokK1 Ha. wsteps.
  { simpl. rewrite A3. apply negb_true_iff, Z.leb_gt. lia. }
  { simpl. apply negb_true_iff, Z.ltb_ge. lia. }
  apply (wp_getbuf k b); [done|]. wsteps. simpl lg. rewrite A3, Nat2Z.id.
  set (s1 := set_km (set_lks K1 (km s)) s).
  eapply wp_mono; [apply (find_block_spec bs (b_blockno b) s1); [exact A5|intros v Hv; apply Hrange; now right]|].
  pose proof (Hrange (b_blockno b) ltac:(left)) as Hbr.
  intros [j|] s2 [-> Hj]; cbv beta; wsteps; simpl default; rewrite (i32_small (b_blockno b)) by lia.
  - destruct Hj as (j' & -> & Hj). pose proof (lookup_lt_Some _ _ _ Hj) as Hjl.
    apply wp_setblock; [simpl; lia|]. simpl. rewrite list_insert_id by (now apply A5). wsteps.
    destruct (Z.eqb_spec (Z.of_nat j') (Z.of_nat (length bs))); [lia|]. wsteps. apply wp_mk.
    eapply (wp_release _ 3 (lks (km s)) K1); [done|lia|apply Hfree|done|reflexivity|]. intros K2 HK2.
    assert (b_blockno b ∈ bs) as Hin by (now apply list_elem_of_lookup_2 in Hj). unfold absorb. rewrite decide_True by done.
    set (s' := set_km _ _). assert (upper s s') as Hu.
    { split; [exact (calm_lks (km s) K2 HK2)|]. split; [simpl; now destruct (lg s)|]. do 4 (split; [done|]). done. }
    assert (binv n H Pn s') as Hinv' by (destruct Hinv; constructor; auto).
    split; [now apply upper_beside|]. split; [done|]. split; [done|]. split; [|split; [done|split; [simpl; now destruct (lg s)|done]]].
    exists Pn. split; [eapply list_elem_of_lookup_2, (pinned_at n H Pn s bs j'); eauto|].
    eapply tinv_frame; eauto. now apply keeps_same.
  - apply wp_setblock; [simpl; lia|]. wsteps. rewrite Z.eqb_refl. wsteps.
    eapply wp_mono; [apply (pin_spec 2 k b); [exact HokK1|lia|simpl; rewrite (acquired_getlock _ _ _ _ Ha); [apply Hfree|discriminate]|done]|].
    intros _ s3 (K2 & HK2 & ->). simpl in HK2. wsteps. apply wp_updlog. wsteps. apply wp_mk.
    eapply (wp_release _ 3 (lks (km s)) K1); [done|lia|apply Hfree|done|exact HK2|]. intros K3 HK3.
    simpl. rewrite A3, i32_small by lia.
    match goal with |- beside s ?x /\ _ => edestruct (append_block i n L bs H Pn s x k b) as (E1 & E2 & E3 & E4 & E5) end;
      [exact HT|done..|exact (calm_lks (km s) K3 HK3)|].
    do 5 (split; [done|]). split; [done|]. intros m Hm. simpl. now rewrite list_lookup_insert_ne by congruence.
Qed.

(** C26: [log_write] records a block once.  In a transaction with room, for a
    buffer the caller holds, it adds the block to the transaction and pins
    the buffer if the block is not in it yet, and otherwise changes nothing
    (absorption); the block contents seen through the cache and the disk
    stay the same, and the transaction's invariant holds for the extended
    list of blocks. *)
Theorem log_write_absorbs i n L bs H Pn s k b :
  tinv i n L bs H Pn s -> k ∈ H -> bufs s !! k = Some b -> (length bs < 30)%nat -> NoDup bs ->
  1 <= l_outstanding (lg s) -> (forall v, v ∈ b_blockno b :: bs -> 0 <= v < 2147483648) ->
  wp (log_write k) (fun _ s' => beside s s' /\ dsk s' = dsk s /\ NoDup (absorb (b_blockno b) bs) /\
    (exists Pn', k ∈ Pn' /\ tinv i n L (absorb (b_blockno b) bs) H Pn' s') /\ forall x, bview s' x = bview s x) s.
Proof.
  intros. eapply wp_mono; [now apply (log_write_spec i n L bs H Pn s k b)|].
  intros [] s' (E1 & E2 & E3 & E4 & E5 & _). auto.
Qed.

(** The log's counters make sense. *)
Definition counts_ok (s : kern) : Prop := 0 <= l_n (lg s) /\ 0 <= l_outstanding (lg s).

(** The operations under way can all fill their share of the log. *)
Definition reserved (s : kern) : Prop :=
  l_committing (lg s) = false /\ 1 <= l_outstanding (lg s) /\
  l_n (lg s) + l_outstanding (lg s) * MAXOPBLOCKS <= LOGBLOCKS.

Lemma begin_op_loop_reserves fuel s : counts_ok s -> returns counts_ok (fun _ => reserved) (begin_op_loop fuel s).
Proof.
  assert (forall (w : M kern unit) s, counts_ok s -> returns counts_ok (fun _ => reserved) (w s) ->
    returns counts_ok (fun _ => reserved)
      ((if l_committing (lg s) then w else if LOGBLOCKS <? l_n (lg s) + (l_outstanding (lg s) + 1) * MAXOPBLOCKS then w else
        do! updlog (fun l => set_l_outstanding (i32 (l_outstanding l + 1)) l); mk (lk (release Llog))) s)) as Hstep.
  { intros w s0 [H1 H2] Hw. destruct (l_committing (lg s0)) eqn:Ec; [done|].
    destruct (Z.ltb_spec LOGBLOCKS (l_n (lg s0) + (l_outstanding (lg s0) + 1) * MAXOPBLOCKS)) as [|Hr]; [done|].
    apply returns_bind. simpl. apply returns_release. intros t. unfold reserved. simpl.
    rewrite i32_small by lia. repeat split; [done|lia|lia]. }
  revert s. induction fuel as [|f IH]; intros s Hs; simpl; apply returns_bind; simpl; apply Hstep; try done.
  apply returns_bind. eapply returns_mono; [apply (returns_mk counts_ok); done|]. intros [] s' Hs'. now apply IH.
Qed.

(** [begin_op] when it need not wait. *)
Lemma begin_op_enters i n s :
  ready i n (km s) -> counts_ok s -> l_committing (lg s) = false -> l_n (lg s) + (l_outstanding (lg s) + 1) * MAXOPBLOCKS <= LOGBLOCKS ->
  wp begin_op (fun _ s' => reserved s' /\ exists m, calm (km s) m /\
    s' = set_km m (set_lg (set_l_outstanding (l_outstanding (lg s) + 1) (lg s)) s)) s.
Proof.
  intros Hr Hc Hn Hroom. pose proof Hr as (Hok & _ & Hfree & _). unfold begin_op. wsteps. apply wp_mk.
  apply (wp_acquire _ 3); [done|lia|apply Hfree|]. intros K1 HokK1 Ha. destruct Hc as [Hc1 Hc2].
  destruct patience; simpl; wsteps; simpl lg; rewrite Hn;
    (destruct (Z.ltb_spec LOGBLOCKS (l_n (lg s) + (l_outstanding (lg s) + 1) * MAXOPBLOCKS)); [lia|]); wsteps;
    apply wp_updlog; wsteps; apply wp_mk;
    (eapply (wp_release _ 3 (lks (km s)) K1); [done|lia|apply Hfree|done|reflexivity|]); intros K2 HK2;
    simpl; rewrite i32_small by lia;
    (split; [unfold reserved; simpl; repeat split; [done|lia|lia]|]);
    exists (set_lks K2 (km s)); (split; [now apply calm_lks|done]).
Qed.

(** C30: [begin_op] admits an operation only with room for it.  It returns at
    once when no commit is under way and the log has space for one more
    operation; and whenever it returns, after any number of sleeps and
    whatever other processes did meanwhile, every operation under way can
    still write MAXOPBLOCKS blocks without exceeding LOGBLOCKS, and no commit
    is in progress. *)
Theorem begin_op_reserves i n s :
  ready i n (km s) -> counts_ok s ->
  returns counts_ok (fun _ => reserved) (begin_op s) /\
  (l_committing (lg s) = false -> l_n (lg s) + (l_outstanding (lg s) + 1) * MAXOPBLOCKS <= LOGBLOCKS ->
   wp begin_op (fun _ s' => reserved s' /\ exists m, calm (km s) m /\
     s' = set_km m (set_lg (set_l_outstanding (l_outstanding (lg s) + 1) (lg s)) s)) s).
Proof.
  intros Hr Hc. split.
  - apply returns_bind. eapply returns_mono; [apply (returns_mk counts_ok); done|].
    intros [] s' Hs'. now apply begin_op_loop_reserves.
  - intros Hn Hroom. now apply (begin_op_enters i n).
Qed.

(** A crash after any number of the writes [ws], then crashes of any number of
    recoveries: the first recovery that completes finds every block outside
    the log as [old] says, up to [c] writes, and as [new] says from then on. *)
Definition all_or_nothing L (d : disk) (ws : list (Z * list Z)) (c : nat) (old new : Z -> list Z) : Prop :=
  forall k d' i n s, rtc (crash_step L) (after d (take k ws)) d' -> linv i n L [] [] [] s -> tx_idle s -> dsk s = d' ->
    wp recover_from_log (fun _ s' => forall x, x < L \/ L + 30 < x -> dread (dsk s') x = if decide (k <= c)%nat then old x else new x) s.
Definition empty_log L (d : disk) : Prop := head_n (dread d L) = 0 /\ length (dread d L) = 1024%nat.

Lemma recovers L d (f : Z -> list Z) : (forall x, x < L \/ L + 30 < x -> log_ok L d /\ durable L d x = f x) ->
  forall d' i n s, rtc (crash_step L) d d' -> linv i n L [] [] [] s -> tx_idle s -> dsk s = d' ->
  wp recover_from_log (fun _ s' => forall x, x < L \/ L + 30 < x -> dread (dsk s') x = f x) s.
Proof.
  intros Hf d' i n s Hr HL Ht <-. pose proof (proj1 (Hf (L - 1) ltac:(lia))) as Hok.
  destruct (crashes_durable L _ _ (L - 1) Hr Hok ltac:(lia)) as [Hok2 _].
  eapply wp_mono; [now apply (recover_spec i n L s)|]. intros _ s' (_ & _ & Hw) x Hx.
  rewrite (wrote_after _ _ _ Hw), recovered_durable by done. destruct (crashes_durable L _ _ x Hr Hok Hx) as [_ ->]. now apply Hf.
Qed.
Lemma idle_view i n L s : linv i n L [] [] [] s -> forall x, bview s x = dread (dsk s) x.
Proof. intros HL x. apply (unpinned_view n s [] [] x (li_inv _ _ _ _ _ _ _ HL) (li_pins _ _ _ _ _ _ _ HL)), not_elem_of_nil. Qed.

(** The writes of a commit, as crashes see them. *)
Lemma commit_writes_atomic i n L bs Pn s : linv i n L bs bs Pn s -> bs_ok L bs -> empty_log L (dsk s) ->
  all_or_nothing L (dsk s) (commit_writes L bs (bview s <$> bs) (dread (dsk s) L)) (length bs) (dread (dsk s)) (bview s).
Proof.
  intros HL Hok [Hn Hl] k. apply recovers. intros x Hx.
  destruct (durable_commit L (dsk s) bs (bview s <$> bs) k x Hn Hl Hok ltac:(now rewrite length_fmap) Hx) as [Hok1 E1]. split; [done|]. rewrite E1. case_decide; [done|].
  destruct (list_find _ bs) as [[j y]|] eqn:E.
  - apply find_here in E. now rewrite list_lookup_fmap, E.
  - symmetry. apply (unpinned_view n s bs Pn x (li_inv _ _ _ _ _ _ _ HL) (li_pins _ _ _ _ _ _ _ HL)). now apply find_not.
Qed.

(** How a commit, or the end of the last operation, goes from [s] to [s']. *)
Record committed L s s' : Prop := {
  cm_beside : beside s s';
  cm_disk : forall x, x < L \/ L + 30 < x -> dread (dsk s') x = bview s x;
  cm_atomic : empty_log L (dsk s) -> empty_log L (dsk s') /\ exists ws c, wrote s ws s' /\ (ws = [] \/ (c < length ws)%nat) /\
    all_or_nothing L (dsk s) ws c (dread (dsk s)) (bview s);
}.

(** [commit], also of an empty transaction. *)
Lemma commit_any i n L bs Pn s :
  linv i n L bs bs Pn s -> bs_ok L bs ->
  wp commit (fun _ s' => linv i n L [] [] [] s' /\ lg s' = set_l_n 0 (lg s) /\ committed L s s') s.
Proof.
  intros HL Hok. destruct (decide (bs = [])) as [->|Hne].
  - assert (Pn = []) as -> by (destruct (li_pins _ _ _ _ _ _ _ HL) as [E _]; destruct Pn; done). pose proof (idle_view i n L s HL) as V.
    unfold commit. wsteps. pose proof (li_n _ _ _ _ _ _ _ HL) as En. rewrite En. simpl. wsteps.
    split; [done|]. split; [destruct (lg s); simpl in En; now subst|]. constructor; [apply upper_beside; reflexivity|done|].
    intros He. split; [done|]. exists [], 0%nat. split; [now apply wrote_nil|]. split; [now left|]. intros k. rewrite take_nil, after_nil. apply recovers.
    intros x Hx. rewrite V. destruct (durable_commit L (dsk s) [] [] 0 x (proj1 He) (proj2 He) Hok eq_refl Hx) as [H1 H2]. simpl take in H1, H2. rewrite after_nil in H1, H2.
    split; [done|]. rewrite H2. now destruct (decide (k <= 0)%nat).
  - eapply wp_mono; [now apply (commit_spec i n L bs Pn)|]. intros _ s' (HL' & HB & El & Hw & V).
    split; [done|]. split; [done|]. constructor; [done|intros x Hx; rewrite <- (V x Hx); symmetry; now apply (idle_view i n L)|]. intros He. split.
    + rewrite (wrote_after _ _ _ Hw). unfold commit_writes, empty_log. rewrite !app_assoc, dread_after_snoc, decide_True by done.
      rewrite header_n, !header_length by (rewrite ?header_length; simpl; lia || apply He). split; [done|]. apply He.
    + eexists _, (length bs). split; [exact Hw|]. split; [right; unfold commit_writes; rewrite !length_app; simpl; unfold log_writes; rewrite length_imap, length_fmap; lia|].
      now apply (commit_writes_atomic i n L bs Pn).
Qed.

Lemma linv_lg i n L bs ps Pn s m l :
  linv i n L bs ps Pn s -> calm (km s) m ->
  l_start l = l_start (lg s) -> l_dev l = l_dev (lg s) -> l_n l = l_n (lg s) -> l_block l = l_block (lg s) ->
  linv i n L bs ps Pn (set_km m (set_lg l s)).
Proof.
  intros [A1 A2 A3 A4 A5 A6 A7 A8] Hm E1 E2 E3 E4. constructor; simpl; rewrite ?E1, ?E2, ?E3, ?E4; auto.
  - destruct A6; constructor; auto.
  - eapply ready_calm; eauto.
Qed.

Lemma end_op_spec i n L bs Pn s :
  linv i n L bs bs Pn s -> bs_ok L bs -> l_committing (lg s) = false ->
  1 <= l_outstanding (lg s) < 2147483648 -> 0 <= l_ncommit (lg s) < 2147483647 ->
  wp end_op (fun _ s' =>
    if decide (l_outstanding (lg s) = 1) then
      linv i n L [] [] [] s' /\ counters (lg s') = (0, false, l_ncommit (lg s) + 1) /\ committed L s s'
    else exists m, calm (km s) m /\
      s' = set_km m (set_lg (set_l_outstanding (l_outstanding (lg s) - 1) (lg s)) s)) s.
Proof.
  intros HL Hok Hc Ho Hnc. pose proof (li_ready _ _ _ _ _ _ _ HL) as Hr. pose proof Hr as (Hlk & _ & Hfree & _).
  unfold end_op. wsteps. apply wp_mk.
  apply (wp_acquire _ 3); [done|lia|apply Hfree|]. intros K1 HokK1 Ha. wsteps. apply wp_updlog. wsteps.
  { simpl. now rewrite Hc. }
  simpl l_outstanding. rewrite i32_small by lia. destruct (decide (l_outstanding (lg s) = 1)) as [E|E].
  - rewrite E. change (1 - 1 =? 0) with true. cbv iota. apply wp_updlog. wsteps. apply wp_mk.
    eapply (wp_release _ 3 (lks (km s)) K1); [done|lia|apply Hfree|done|reflexivity|]. intros K2 HK2. apply wp_bind.
    match goal with |- wp commit _ ?x => set (s1 := x) end.
    assert (linv i n L bs bs Pn s1) as HL1.
    { apply (linv_lg i n L bs bs Pn s (set_lks K2 (km s)) (lg s1)); [done|now apply calm_lks|done..]. }
    eapply wp_mono; [now apply (commit_any i n L bs Pn)|]. intros _ s2 (HL2 & El & HC). cbv beta.
    pose proof (li_ready _ _ _ _ _ _ _ HL2) as Hr2. pose proof Hr2 as (Hlk2 & _ & Hfree2 & _). wsteps. apply wp_mk.
    apply (wp_acquire _ 3); [done|lia|apply Hfree2|]. intros K3 HokK3 Ha3. wsteps.
    apply wp_updlog. wsteps. apply wp_updlog. wsteps. apply wp_mk.
    eapply wp_mono; [now apply (wakeup_in i n Llog K3 (km s2))|]. intros [] m (K4 & ps & HK4 & -> & Hcalm).
    wsteps. apply wp_mk. eapply (wp_release _ 3 (lks (km s2)) K3); [done|lia|apply Hfree2|done|exact HK4|]. intros K5 HK5.
    split; [|split; [unfold counters; simpl; rewrite El; simpl; rewrite !i32_small by lia; done|]].
    2:{ destruct HC as [C1 C2 C3]. constructor; [|exact C2|exact C3]. transitivity s1; [split; [exact (calm_lks (km s) K2 HK2)|done]|]. transitivity s2; [exact C1|]. split; [exact (Hcalm K5 HK5)|done]. }
    apply (linv_lg i n L [] [] [] s2 (set_lks K5 (set_procs ps (km s2)))); [done|now apply Hcalm|done..].
  - destruct (Z.eqb_spec (l_outstanding (lg s) - 1) 0) as [E'|_]; [lia|]. wsteps. apply wp_mk.
    eapply wp_mono; [now apply (wakeup_in i n Llog K1 (km s))|]. intros [] m (K2 & ps & HK2 & -> & Hcalm).
    wsteps. apply wp_mk. eapply (wp_release _ 3 (lks (km s)) K1); [done|lia|apply Hfree|done|exact HK2|]. intros K3 HK3.
    wsteps. exists (set_lks K3 (set_procs ps (km s))). split; [now apply Hcalm|].
    done.
Qed.

(** [end_op] ends an operation.  While others are under way it only
    gives back the reservation; the last one commits: it returns with the
    log empty, the commit counted, and every block the transaction wrote on
    the disk. *)
Theorem end_op_commits i n L bs Pn s :
  linv i n L bs bs Pn s -> bs_ok L bs -> l_committing (lg s) = false ->
  1 <= l_outstanding (lg s) < 2147483648 -> 0 <= l_ncommit (lg s) < 2147483647 ->
  wp end_op (fun _ s' =>
    if decide (l_outstanding (lg s) = 1) then
      linv i n L [] [] [] s' /\ l_outstanding (lg s') = 0 /\ l_committing (lg s') = false /\
      l_ncommit (lg s') = l_ncommit (lg s) + 1 /\ forall x, x < L \/ L + 30 < x -> dread (dsk s') x = bview s x
    else exists m, calm (km s) m /\
      s' = set_km m (set_lg (set_l_outstanding (l_outstanding (lg s) - 1) (lg s)) s)) s.
Proof.
  intros HL Hok Hc Ho Hnc. eapply wp_mono; [now apply (end_op_spec i n L bs Pn)|]. intros [] s' H. destruct (decide _); [|done].
  destruct H as (HL' & E & [_ V _]). injection E as E1 E2 E3. auto.
Qed.

(** C1: transactions are atomic across crashes.  [commit] of the blocks [bs],
    whose new contents are in pinned buffers, returns with the new contents
    on the disk.  If the machine stops after any number [k] of the disk
    writes it makes, and stops again during any number of recoveries, the
    first recovery that completes leaves every block outside the log either
    as it was before the transaction (when the header had not been written)
    or with the contents of the transaction (when it had): never a mixture.
    A recovery prints what it installs, so the transmitter is idle. *)
Theorem commit_crash_safe i n L bs Pn s :
  linv i n L bs bs Pn s -> bs_ok L bs -> bs <> [] ->
  head_n (dread (dsk s) L) = 0 -> length (dread (dsk s) L) = 1024%nat ->
  wp commit (fun _ s' => linv i n L [] [] [] s' /\
    (forall x, x < L \/ L + 30 < x -> dread (dsk s') x = bview s x) /\
    exists ws, wrote s ws s' /\
      forall k d i' n' s2, rtc (crash_step L) (after (dsk s) (take k ws)) d -> linv i' n' L [] [] [] s2 -> tx_idle s2 -> dsk s2 = d ->
        wp recover_from_log (fun _ s3 => forall x, x < L \/ L + 30 < x ->
          dread (dsk s3) x = if decide (k <= length bs)%nat then dread (dsk s) x else bview s x) s2) s.
Proof.
  intros HL Hok Hne Hn Hl. eapply wp_mono; [now apply (commit_spec i n L bs Pn)|].
  intros _ s' (HL' & _ & _ & Hw & V). split; [done|]. split.
  { intros x Hx. rewrite <- (V x Hx). symmetry. now apply (idle_view i n L). }
  eexists. split; [exact Hw|]. exact (commit_writes_atomic i n L bs Pn s HL Hok (conj Hn Hl)).
Qed.
End Properties.
