(* ===== verification/Logex.v ===== *)
(** * A small concrete file system state

    One process, a cache whose buffer 0 holds block 100 (clean, pinned by
    the log, or held), an empty on-disk log that starts at block 2.  The
    theorems of [Bio] and [Log] are applied to it. *)

From S2P Require Import Prelude.
From S2P Require Import Mach.
From S2P Require Import Spinlock.
From S2P Require Import Kalloc.
From S2P Require Import Vm.
From S2P Require Import Proc.
From S2P Require Import Kstate.
From S2P Require Import Sleeplock.
From S2P Require Import Bio.
From S2P Require Import Log.

#[export] Instance patience1 : Patience := {| patience := 1 |}.

Definition sevens : list Z := replicate 1024 7.
Definition disk1 : disk := Disk {[ 2 := zero_block; 100 := zero_block ]} [].
Definition no_buf : buf := Buf false false 0 0 0 [].
Definition buf1 (r : Z) (d : list Z) : buf := Buf true false ROOTDEV 100 r d.
Definition log1 (n out : Z) (bs : list Z) : log := Log 2 out false ROOTDEV 0 n bs.
Definition sb1 : superblock := Superblock FSMAGIC 2000 1954 200 31 2 33 46.

Definition cons1 : console := Console (replicate 128 0) 0 0 0.
Definition uart1 : uart := Uart false true [] [].

Definition kern1 (b : buf) (sl : gmap Z sleeplock) (l : log) : kern :=
  Kern Example.machine sl (b :: replicate 29 no_buf) (seq 0 30) disk1 l sb1 [] [] ∅ cons1 uart1 (replicate 10 false) false.

Lemma ready1 : ready 0 1 Example.machine.
Proof.
  split; [apply Example.locks0_ok|]. split; [reflexivity|]. split; [reflexivity|].
  eexists _, _. split; [reflexivity|]. split; [reflexivity|]. split; reflexivity.
Qed.

Lemma bufs1 b sl l k b' : bufs (kern1 b sl l) !! k = Some b' -> (k = 0%nat /\ b' = b) \/ ((0 < k < 30)%nat /\ b' = no_buf).
Proof.
  destruct k as [|k]; [intros [= ->]; now left|]. intros H. change (replicate 29 no_buf !! k = Some b') in H. apply lookup_replicate in H as [-> H]. right. split; [lia|done].
Qed.

Lemma binv1 H Pn b sl l :
  (H = [] \/ H = [0%nat]) -> (Pn = [] \/ Pn = [0%nat]) ->
  b_valid b = true -> b_dev b = ROOTDEV ->
  b_refcnt b = one (bool_decide (0%nat ∈ H)) + one (bool_decide (0%nat ∈ Pn)) ->
  (H = [] -> Pn = [] -> b_data b = dread disk1 (b_blockno b)) ->
  sl = (if bool_decide (0%nat ∈ H) then {[ 0 := Sleeplock true 1 ]} else ∅) ->
  binv 1 H Pn (kern1 b sl l).
Proof.
  intros HH HP Hv Hd Hr Hc Hsl.
  assert (forall k, (0 < k)%nat -> ~ k ∈ H /\ ~ k ∈ Pn) as Hn.
  { intros k Hk. destruct HH as [-> | ->], HP as [-> | ->]; rewrite ?list_elem_of_singleton, ?elem_of_nil; split; lia || tauto. }
  constructor; try done.
  - destruct HH as [-> | ->]; [constructor|apply NoDup_singleton].
  - destruct HP as [-> | ->]; [constructor|apply NoDup_singleton].
  - intros k b' Hb. apply bufs1 in Hb as [[-> ->]|[Hk ->]]; [done|]. destruct (Hn k) as [N1 N2]; [lia|].
    rewrite !bool_decide_eq_false_2 by done. done.
  - intros k Hk. unfold getsl. simpl. rewrite Hsl. destruct (decide (k = 0)%nat) as [->|Hne].
    + change (buf_lock 0) with 0. destruct (bool_decide (0%nat ∈ H)); reflexivity.
    + rewrite (bool_decide_eq_false_2 (k ∈ H)) by (apply Hn; lia).
      destruct (bool_decide (0%nat ∈ H)); [|done]. rewrite lookup_singleton_ne by (unfold buf_lock; lia). done.
  - intros k b' Hb Hin. apply bufs1 in Hb as [[-> ->]|[Hk ->]]; [done|]. destruct (Hn k); [lia|tauto].
  - intros k b' Hb Hin. apply bufs1 in Hb as [[-> ->]|[Hk ->]]; [done|discriminate Hin].
  - intros k Hin. destruct (decide (0 < k)%nat) as [Hk|Hk]; [destruct (Hn k); tauto|lia].
  - intros k j bk bj Hk Hj. apply bufs1 in Hk as [[-> ->]|[Hk ->]], Hj as [[-> ->]|[Hj ->]]; try done.
  - intros k b' Hb N1 N2 Hvb. apply bufs1 in Hb as [[-> ->]|[Hk ->]]; [|discriminate Hvb]. apply Hc.
    + destruct HH as [-> | ->]; [done|]. exfalso. apply N1. left.
    + destruct HP as [-> | ->]; [done|]. exfalso. apply N2. left.
Qed.

(** Nothing held, nothing pinned. *)
Definition idle : kern := kern1 (buf1 0 zero_block) ∅ (log1 0 0 (replicate 30 0)).
Lemma idle_inv : binv 1 [] [] idle.
Proof. apply binv1; auto. Qed.

Lemma bread_coherent_witness :
  wp (bread ROOTDEV 5) (fun k s' => (exists b, bufs s' !! k = Some b /\ b_blockno b = 5 /\ b_data b = bview idle 5)) idle.
Proof.
  eapply wp_mono; [apply (bread_coherent 0 1 [] [] idle 5); [apply ready1|apply idle_inv|right; simpl; lia|]|].
  - intros k b Hk. now apply not_elem_of_nil in Hk.
  - intros k s' (_ & _ & _ & (b & H1 & H2 & _ & H3) & _). exists b. auto.
Defined.

Lemma bwrite_bread_witness :
  wp (let! k := bread ROOTDEV 100 in
      do! updbuf k (set_b_data sevens);
      do! bwrite k;
      do! brelse k;
      bread ROOTDEV 100)
    (fun k s' => dread (dsk s') 100 = sevens) idle.
Proof.
  eapply wp_mono; [apply (bwrite_bread 0 1 idle 100 sevens); [apply ready1|apply idle_inv]|].
  intros k s' (_ & _ & H & _). exact H.
Defined.

(** Every buffer pinned: thirty blocks in one transaction. *)
Definition full : kern :=
  Kern Example.machine ∅ ((fun i => Buf true false ROOTDEV (100 + Z.of_nat i) 1 zero_block) <$> seq 0 30)
    (seq 0 30) disk1 (log1 30 1 (replicate 30 0)) sb1 [] [] ∅ cons1 uart1 (replicate 10 false) false.
Lemma bget_no_buffers_witness : bget ROOTDEV 3 full = Panic "bget: no buffers".
Proof.
  apply bget_no_buffers; [apply Example.locks0_ok|reflexivity|].
  intros i Hi. apply elem_of_seq in Hi. exists (Buf true false ROOTDEV (100 + Z.of_nat i) 1 zero_block).
  split; [unfold full, bufs; rewrite list_lookup_fmap, lookup_seq_lt by lia; reflexivity|]. split; [|discriminate].
  unfold is_block. simpl. apply Z.eqb_neq. lia.
Defined.

(** A transaction that wrote sevens to block 100. *)
Definition writing : kern := kern1 (buf1 1 sevens) ∅ (log1 1 1 (100 :: replicate 29 0)).
Lemma writing_inv : linv 0 1 2 [100] [100] [0%nat] writing.
Proof.
  constructor; try done.
  - intros [|j] blk Hj; [now injection Hj as <-|discriminate Hj].
  - apply binv1; auto; try done.
  - split; [done|]. intros [|j] k blk Hk Hb; [|discriminate Hk].
    injection Hk as <-. injection Hb as <-. eexists. split; reflexivity.
  - apply ready1.
Qed.
Lemma writing_ok : bs_ok 2 [100].
Proof.
  split; [apply NoDup_singleton|]. simpl. split; [lia|]. split; [lia|]. split; [lia|].
  intros blk Hb. apply list_elem_of_singleton in Hb as ->. lia.
Qed.

Lemma commit_crash_safe_witness :
  wp commit (fun _ s' => dread (dsk s') 100 = sevens /\ dread (dsk s') 50 = zero_block) writing.
Proof.
  eapply wp_mono; [apply (commit_crash_safe 0 1 2 [100] [0%nat] writing);
    [apply writing_inv|apply writing_ok|discriminate|vm_compute; reflexivity|vm_compute; reflexivity]|].
  intros _ s' (_ & H & _). split; rewrite H by lia; vm_compute; reflexivity.
Defined.

Lemma end_op_commits_witness :
  wp end_op (fun _ s' => l_outstanding (lg s') = 0 /\ dread (dsk s') 100 = sevens) writing.
Proof.
  eapply wp_mono; [apply (end_op_commits 0 1 2 [100] [0%nat] writing);
    [apply writing_inv|apply writing_ok|reflexivity|simpl; lia|simpl; lia]|].
  intros [] s' H. change (decide (l_outstanding (lg writing) = 1)) with (decide (1 = 1)) in H.
  destruct (decide (1 = 1)) as [_|Hne]; [|done].
  destruct H as (_ & H1 & _ & _ & H2). split; [done|]. rewrite H2 by lia. vm_compute. reflexivity.
Defined.

(** Block 100 held, changed, and not yet in the transaction. *)
Definition changed : kern := kern1 (buf1 1 sevens) {[ 0 := Sleeplock true 1 ]} (log1 0 1 (replicate 30 0)).
Lemma changed_inv : tinv 0 1 2 [] [0%nat] [] changed.
Proof.
  constructor; try done.
  - apply binv1; auto; try done.
  - apply ready1.
Qed.
Lemma log_write_absorbs_witness :
  wp (log_write 0) (fun _ s' => exists Pn', 0%nat ∈ Pn' /\ tinv 0 1 2 [100] [0%nat] Pn' s') changed.
Proof.
  eapply wp_mono; [apply (log_write_absorbs 0 1 2 [] [0%nat] [] changed 0 (buf1 1 sevens));
    [apply changed_inv|left|reflexivity|simpl; lia|constructor|simpl; lia|]|].
  - intros v Hv. apply list_elem_of_singleton in Hv as ->. simpl. lia.
  - intros _ s' (_ & _ & _ & H & _). exact H.
Defined.

Lemma begin_op_reserves_witness : wp begin_op (fun _ s' => reserved s') idle.
Proof.
  eapply wp_mono; [apply (begin_op_reserves 0 1 idle); [apply ready1|split; simpl; lia|reflexivity|simpl; lia]|].
  intros _ s' [H _]. exact H.
Defined.
