(* ===== verification/Virtio.v ===== *)
(** * The disk driver (kernel/virtio_disk.c, kernel/virtio.h)

    The driver and the device share a table of descriptors and two rings in
    memory.  A request is a chain of three descriptors: its header, the data
    of the buffer, a byte for the status.  The model keeps this memory beside
    RAM, and a DMA address is what it points to.  The device is hardware: its
    registers ([Mmio]) and its processing of a request ([Device]) are
    parameters with the behaviour the virtio specification gives them. *)

From S2P Require Import Prelude.
From S2P Require Import Mach.
From S2P Require Import Spinlock.
From S2P Require Import Kstring.
From S2P Require Import Kalloc.
From S2P Require Import Proc.
From S2P Require Import Kstate.
From S2P Require Import Sleeplock.
From S2P Require Import Bio.
From S2P Require Import Log.
From S2P Require Import Logex.

(** ** Data *)

Definition NUM : Z := 8.
#[export] Hint Unfold NUM : kconst.
Definition VRING_DESC_F_NEXT : Z := 1.
Definition VRING_DESC_F_WRITE : Z := 2.
Definition VIRTIO_BLK_T_IN : Z := 0.
Definition VIRTIO_BLK_T_OUT : Z := 1.

(** Registers, as offsets from [VIRTIO0]; bits of the status register. *)
Definition VIRTIO_MMIO_MAGIC_VALUE : Z := 0x000.
Definition VIRTIO_MMIO_VERSION : Z := 0x004.
Definition VIRTIO_MMIO_DEVICE_ID : Z := 0x008.
Definition VIRTIO_MMIO_VENDOR_ID : Z := 0x00c.
Definition VIRTIO_MMIO_DEVICE_FEATURES : Z := 0x010.
Definition VIRTIO_MMIO_DRIVER_FEATURES : Z := 0x020.
Definition VIRTIO_MMIO_QUEUE_SEL : Z := 0x030.
Definition VIRTIO_MMIO_QUEUE_NUM_MAX : Z := 0x034.
Definition VIRTIO_MMIO_QUEUE_NUM : Z := 0x038.
Definition VIRTIO_MMIO_QUEUE_READY : Z := 0x044.
Definition VIRTIO_MMIO_QUEUE_NOTIFY : Z := 0x050.
Definition VIRTIO_MMIO_INTERRUPT_STATUS : Z := 0x060.
Definition VIRTIO_MMIO_INTERRUPT_ACK : Z := 0x064.
Definition VIRTIO_MMIO_STATUS : Z := 0x070.
Definition VIRTIO_MMIO_QUEUE_DESC_LOW : Z := 0x080.
Definition VIRTIO_MMIO_QUEUE_DESC_HIGH : Z := 0x084.
Definition VIRTIO_MMIO_DRIVER_DESC_LOW : Z := 0x090.
Definition VIRTIO_MMIO_DRIVER_DESC_HIGH : Z := 0x094.
Definition VIRTIO_MMIO_DEVICE_DESC_LOW : Z := 0x0a0.
Definition VIRTIO_MMIO_DEVICE_DESC_HIGH : Z := 0x0a4.
Definition VIRTIO_CONFIG_S_ACKNOWLEDGE : Z := 1.
Definition VIRTIO_CONFIG_S_DRIVER : Z := 2.
Definition VIRTIO_CONFIG_S_DRIVER_OK : Z := 4.
Definition VIRTIO_CONFIG_S_FEATURES_OK : Z := 8.
Definition VIRTIO_BLK_F_RO : Z := 5.
Definition VIRTIO_BLK_F_SCSI : Z := 7.
Definition VIRTIO_BLK_F_CONFIG_WCE : Z := 11.
Definition VIRTIO_BLK_F_MQ : Z := 12.
Definition VIRTIO_F_ANY_LAYOUT : Z := 27.
Definition VIRTIO_RING_F_INDIRECT_DESC : Z := 28.
Definition VIRTIO_RING_F_EVENT_IDX : Z := 29.

(** What a descriptor points to. *)
Inductive dma : Type :=
| Null
| Header (i : nat)   (* &disk.ops[i] *)
| Data (k : nat)     (* bcache.buf[k].data *)
| Status (i : nat).  (* &disk.info[i].status *)

Record virtq_desc : Type := Desc { d_addr : dma; d_len : Z; d_flags : Z; d_next : Z }.
Record virtio_blk_req : Type := Req { r_type : Z; r_reserved : Z; r_sector : Z }.
(** [info[i]]: the buffer of a request, and the status the device writes. *)
Record vinfo : Type := Info { in_b : option nat; in_status : Z }.

Record vdisk : Type := Vdisk {
  desc : list virtq_desc;
  av_idx : Z; av_ring : list Z;  (* avail *)
  us_idx : Z; us_ring : list Z;  (* used: the ids of its entries *)
  dfree : list bool;
  used_idx : Z;
  dinfo : list vinfo;
  ops : list virtio_blk_req;
  pages : Z * Z * Z;  (* where desc, avail and used are *)
}.
Definition set_desc x (v : vdisk) := Vdisk x (av_idx v) (av_ring v) (us_idx v) (us_ring v) (dfree v) (used_idx v) (dinfo v) (ops v) (pages v).
Definition set_av_idx x (v : vdisk) := Vdisk (desc v) x (av_ring v) (us_idx v) (us_ring v) (dfree v) (used_idx v) (dinfo v) (ops v) (pages v).
Definition set_av_ring x (v : vdisk) := Vdisk (desc v) (av_idx v) x (us_idx v) (us_ring v) (dfree v) (used_idx v) (dinfo v) (ops v) (pages v).
Definition set_us x y (v : vdisk) := Vdisk (desc v) (av_idx v) (av_ring v) x y (dfree v) (used_idx v) (dinfo v) (ops v) (pages v).
Definition set_dfree x (v : vdisk) := Vdisk (desc v) (av_idx v) (av_ring v) (us_idx v) (us_ring v) x (used_idx v) (dinfo v) (ops v) (pages v).
Definition set_used_idx x (v : vdisk) := Vdisk (desc v) (av_idx v) (av_ring v) (us_idx v) (us_ring v) (dfree v) x (dinfo v) (ops v) (pages v).
Definition set_dinfo x (v : vdisk) := Vdisk (desc v) (av_idx v) (av_ring v) (us_idx v) (us_ring v) (dfree v) (used_idx v) x (ops v) (pages v).
Definition set_ops x (v : vdisk) := Vdisk (desc v) (av_idx v) (av_ring v) (us_idx v) (us_ring v) (dfree v) (used_idx v) (dinfo v) x (pages v).
Definition set_pages x (v : vdisk) := Vdisk (desc v) (av_idx v) (av_ring v) (us_idx v) (us_ring v) (dfree v) (used_idx v) (dinfo v) (ops v) x.

(** The kernel with the driver's data. *)
Record vkern : Type := VK { vk : kern; vd : vdisk }.
Definition set_vk (x : kern) (s : vkern) : vkern := VK x (vd s).
Definition set_vd (x : vdisk) (s : vkern) : vkern := VK (vk s) x.
Definition vk_lens : lens vkern kern.
Proof. refine (Lens _ _ vk set_vk _ _ _); [done|now intros []|done]. Defined.
Definition inkern {A : Type} (m : M kern A) : M vkern A := zoom vk_lens m.
Definition inmach {A : Type} (m : M mach A) : M vkern A := inkern (mk m).

(** Elements of the driver's arrays; outside is a memory error. *)
Definition upd_desc (i : Z) (f : virtq_desc -> virtq_desc) : M vkern unit := fun s =>
  match desc (vd s) !! Z.to_nat i with
  | Some d => if 0 <=? i then Ret tt (set_vd (set_desc (<[Z.to_nat i := f d]> (desc (vd s))) (vd s)) s) else Fault
  | None => Fault
  end.
Definition get_desc (i : Z) : M vkern virtq_desc := fun s =>
  if 0 <=? i then orfault (desc (vd s) !! Z.to_nat i) s else Fault.
Definition upd_info (i : Z) (f : vinfo -> vinfo) : M vkern unit := fun s =>
  match dinfo (vd s) !! Z.to_nat i with
  | Some d => if 0 <=? i then Ret tt (set_vd (set_dinfo (<[Z.to_nat i := f d]> (dinfo (vd s))) (vd s)) s) else Fault
  | None => Fault
  end.
Definition get_info (i : Z) : M vkern vinfo := fun s =>
  if 0 <=? i then orfault (dinfo (vd s) !! Z.to_nat i) s else Fault.
Definition get_free (i : Z) : M vkern bool := fun s =>
  if 0 <=? i then orfault (dfree (vd s) !! Z.to_nat i) s else Fault.
Definition updv (f : vdisk -> vdisk) : M vkern unit := modify (fun s => set_vd (f (vd s)) s).

(** ** The driver *)

(** The device's registers. *)
Class Mmio : Type := {
  reg_read : Z -> M vkern Z;
  reg_write : Z -> Z -> M vkern unit;
}.

Section Driver.
Context {L : Layout} {P : Patience} {R : Mmio}.

(** Is it a virtio disk of the right version? *)
Definition found_disk : M vkern bool :=
  let! magic := reg_read VIRTIO_MMIO_MAGIC_VALUE in
  if negb (magic =? 0x74726976) then ret false
  else
    let! version := reg_read VIRTIO_MMIO_VERSION in
    if negb (version =? 2) then ret false
    else
      let! id := reg_read VIRTIO_MMIO_DEVICE_ID in
      if negb (id =? 2) then ret false
      else let! vendor := reg_read VIRTIO_MMIO_VENDOR_ID in ret (vendor =? 0x554d4551).

(** The features the driver does not use: read-only, SCSI, write cache,
    several queues, any layout, event index, indirect descriptors. *)
Definition unused_features : list Z := [VIRTIO_BLK_F_RO; VIRTIO_BLK_F_SCSI; VIRTIO_BLK_F_CONFIG_WCE; VIRTIO_BLK_F_MQ;
  VIRTIO_F_ANY_LAYOUT; VIRTIO_RING_F_EVENT_IDX; VIRTIO_RING_F_INDIRECT_DESC].

Definition virtio_disk_init : M vkern unit :=
  do! inmach (lk (initlock Ldisk));
  let! ok := found_disk in
  do! check ok "could not find virtio disk";
  do! reg_write VIRTIO_MMIO_STATUS 0;
  let status := VIRTIO_CONFIG_S_ACKNOWLEDGE in
  do! reg_write VIRTIO_MMIO_STATUS status;
  let status := Z.lor status VIRTIO_CONFIG_S_DRIVER in
  do! reg_write VIRTIO_MMIO_STATUS status;
  let! features := reg_read VIRTIO_MMIO_DEVICE_FEATURES in
  do! reg_write VIRTIO_MMIO_DRIVER_FEATURES (foldl (fun f k => Z.ldiff f (Z.shiftl 1 k)) features unused_features);
  let status := Z.lor status VIRTIO_CONFIG_S_FEATURES_OK in
  do! reg_write VIRTIO_MMIO_STATUS status;
  let! status := reg_read VIRTIO_MMIO_STATUS in
  do! check (has status VIRTIO_CONFIG_S_FEATURES_OK) "virtio disk FEATURES_OK unset";
  do! reg_write VIRTIO_MMIO_QUEUE_SEL 0;
  let! busy := reg_read VIRTIO_MMIO_QUEUE_READY in
  do! check (busy =? 0) "virtio disk should not be ready";
  let! max := reg_read VIRTIO_MMIO_QUEUE_NUM_MAX in
  do! check (negb (max =? 0)) "virtio disk has no queue 0";
  do! check (negb (max <? NUM)) "virtio disk max queue too short";
  let! d := inmach kalloc in
  let! a := inmach kalloc in
  let! u := inmach kalloc in
  do! updv (set_pages (d, a, u));
  do! check (negb ((d =? 0) || (a =? 0) || (u =? 0))) "virtio disk kalloc";
  do! inmach (memset d 0 PGSIZE);
  do! inmach (memset a 0 PGSIZE);
  do! inmach (memset u 0 PGSIZE);
  do! updv (fun v => set_desc (replicate 8 (Desc Null 0 0 0)) (set_av_idx 0 (set_av_ring (replicate 8 0) (set_us 0 (replicate 8 0) v))));
  do! reg_write VIRTIO_MMIO_QUEUE_NUM NUM;
  do! reg_write VIRTIO_MMIO_QUEUE_DESC_LOW (u32 d);
  do! reg_write VIRTIO_MMIO_QUEUE_DESC_HIGH (u32 (Z.shiftr d 32));
  do! reg_write VIRTIO_MMIO_DRIVER_DESC_LOW (u32 a);
  do! reg_write VIRTIO_MMIO_DRIVER_DESC_HIGH (u32 (Z.shiftr a 32));
  do! reg_write VIRTIO_MMIO_DEVICE_DESC_LOW (u32 u);
  do! reg_write VIRTIO_MMIO_DEVICE_DESC_HIGH (u32 (Z.shiftr u 32));
  do! reg_write VIRTIO_MMIO_QUEUE_READY 1;
  do! updv (set_dfree (replicate 8 true));
  reg_write VIRTIO_MMIO_STATUS (Z.lor status VIRTIO_CONFIG_S_DRIVER_OK).

Definition alloc_desc : M vkern Z :=
  let! r := mfor (Z.to_nat NUM) 0 1 (fun i =>
    let! f := get_free i in
    if f then do! updv (fun v => set_dfree (<[Z.to_nat i := false]> (dfree v)) v); ret (Some i)
    else ret None) in
  ret (default (-1) r).

Definition free_desc (i : Z) : M vkern unit :=
  do! check (negb (NUM <=? i)) "free_desc 1";
  let! f := get_free i in
  do! check (negb f) "free_desc 2";
  do! upd_desc i (fun _ => Desc Null 0 0 0);
  do! updv (fun v => set_dfree (<[Z.to_nat i := true]> (dfree v)) v);
  inmach (wakeup ChDisk).

(** A chain has at most [NUM] descriptors. *)
Fixpoint free_chain (fuel : nat) (i : Z) : M vkern unit :=
  match fuel with
  | O => fun _ => Spin
  | S f =>
    let! d := get_desc i in
    do! free_desc i;
    if has (d_flags d) VRING_DESC_F_NEXT then free_chain f (d_next d) else ret tt
  end.

(** The three indices, or nothing ([-1]) with what was allocated freed. *)
Definition alloc3_desc : M vkern (option (Z * Z * Z)) :=
  let! a := alloc_desc in
  if a <? 0 then ret None
  else
    let! b := alloc_desc in
    if b <? 0 then do! free_desc a; ret None
    else
      let! c := alloc_desc in
      if c <? 0 then do! free_desc a; do! free_desc b; ret None
      else ret (Some (a, b, c)).

Fixpoint await_desc (fuel : nat) : M vkern (Z * Z * Z) :=
  let! r := alloc3_desc in
  match r with
  | Some idx => ret idx
  | None =>
    match fuel with
    | O => fun _ => Spin
    | S f => do! inmach (sleep ChDisk Ldisk); await_desc f
    end
  end.

(** Format the three descriptors and put the chain in the ring. *)
Definition submit (k : nat) (sector : Z) (write : bool) (idx : Z * Z * Z) : M vkern unit :=
  let '(i0, i1, i2) := idx in
  do! updv (fun v => set_ops (<[Z.to_nat i0 := Req (if write then VIRTIO_BLK_T_OUT else VIRTIO_BLK_T_IN) 0 sector]> (ops v)) v);
  do! upd_desc i0 (fun _ => Desc (Header (Z.to_nat i0)) 16 VRING_DESC_F_NEXT (u16 i1));
  do! upd_desc i1 (fun _ => Desc (Data k) BSIZE (Z.lor (if write then 0 else VRING_DESC_F_WRITE) VRING_DESC_F_NEXT) (u16 i2));
  do! upd_info i0 (fun x => Info (in_b x) 255);
  do! upd_desc i2 (fun _ => Desc (Status (Z.to_nat i0)) 1 VRING_DESC_F_WRITE 0);
  do! inkern (updbuf k (set_b_disk true));
  do! upd_info i0 (fun x => Info (Some k) (in_status x));
  do! updv (fun v => set_av_ring (<[Z.to_nat (av_idx v mod NUM) := u16 i0]> (av_ring v)) v);
  do! updv (fun v => set_av_idx (u16 (av_idx v + 1)) v);
  reg_write VIRTIO_MMIO_QUEUE_NOTIFY 0.

Fixpoint await_done (fuel k : nat) : M vkern unit :=
  let! b := inkern (getbuf k) in
  if b_disk b then
    match fuel with
    | O => fun _ => Spin
    | S f => do! inmach (sleep (ChBuf k) Ldisk); await_done f k
    end
  else ret tt.

Definition virtio_disk_rw (k : nat) (write : bool) : M vkern unit :=
  let! b := inkern (getbuf k) in
  let sector := u32 (b_blockno b * (BSIZE / 512)) in
  do! inmach (lk (acquire Ldisk));
  let! idx := await_desc patience in
  do! submit k sector write idx;
  do! await_done patience k;
  do! upd_info (fst (fst idx)) (fun x => Info None (in_status x));
  do! free_chain (Z.to_nat NUM) (fst (fst idx));
  inmach (lk (release Ldisk)).

(** The loop of the interrupt handler: [used_idx] has not reached the device's
    index. *)
Fixpoint intr_loop (fuel : nat) : M vkern unit :=
  let! v := gets vd in
  if negb (used_idx v =? us_idx v) then
    match fuel with
    | O => fun _ => Spin
    | S f =>
      let! id := orfault (us_ring v !! Z.to_nat (used_idx v mod NUM)) in
      let! x := get_info id in
      do! check (in_status x =? 0) "virtio_disk_intr status";
      match in_b x with
      | None => fun _ => Fault
      | Some k =>
        do! inkern (updbuf k (set_b_disk false));
        do! inmach (wakeup (ChBuf k));
        do! updv (fun v => set_used_idx (u16 (used_idx v + 1)) v);
        intr_loop f
      end
    end
  else ret tt.
Definition virtio_disk_intr : M vkern unit :=
  do! inmach (lk (acquire Ldisk));
  let! st := reg_read VIRTIO_MMIO_INTERRUPT_STATUS in
  do! reg_write VIRTIO_MMIO_INTERRUPT_ACK (Z.land st 3);
  let! v := gets vd in
  do! intr_loop (Z.to_nat (u16 (us_idx v - used_idx v)));
  inmach (lk (release Ldisk)).
End Driver.

(** ** The device *)

(** A request as the device reads it from the chain that starts at [h]: is it
    a write, the sector, the buffer, where the status goes. *)
Definition chain (v : vdisk) (h : Z) : option (bool * Z * nat * nat) :=
  d0 ← desc v !! Z.to_nat h;
  d1 ← desc v !! Z.to_nat (d_next d0);
  d2 ← desc v !! Z.to_nat (d_next d1);
  match d_addr d0, d_addr d1, d_addr d2 with
  | Header i, Data k, Status j =>
    r ← ops v !! i;
    let w := r_type r =? VIRTIO_BLK_T_OUT in
    if (d_len d0 =? 16) && (d_len d1 =? BSIZE) && (d_len d2 =? 1) &&
       (d_flags d0 =? VRING_DESC_F_NEXT) &&
       (d_flags d1 =? Z.lor (if w then 0 else VRING_DESC_F_WRITE) VRING_DESC_F_NEXT) &&
       (d_flags d2 =? VRING_DESC_F_WRITE)
    then Some (w, r_sector r, k, j) else None
  | _, _, _ => None
  end.

(** The data transfer of a request; a sector has 512 bytes. *)
Definition transfer (w : bool) (sector : Z) (k : nat) (b : buf) (s : kern) : kern :=
  if w then set_dsk (dwrite (dsk s) (sector / 2) (b_data b)) s
  else set_bufs (<[k := set_b_data (dread (dsk s) (sector / 2)) b]> (bufs s)) s.

(** The device has processed the chain that starts at [h], an entry of the
    avail ring it has not processed before: the data is transferred, the
    status is 0, and the used ring has a new entry. *)
Inductive device_step (h : Z) : vkern -> vkern -> Prop :=
| device_done s w sector k j b x :
    (exists a, av_ring (vd s) !! Z.to_nat (a mod NUM) = Some h /\ 0 < u16 (av_idx (vd s) - a) <= NUM) ->
    chain (vd s) h = Some (w, sector, k, j) ->
    bufs (vk s) !! k = Some b -> dinfo (vd s) !! j = Some x ->
    device_step h s
      (VK (transfer w sector k b (vk s))
          (set_us (u16 (us_idx (vd s) + 1)) (<[Z.to_nat (us_idx (vd s) mod NUM) := h]> (us_ring (vd s)))
             (set_dinfo (<[j := Info (in_b x) 0]> (dinfo (vd s))) (vd s)))).

(** ** Facts *)

(** Registers are not memory. *)
Class MmioOk (R : Mmio) : Prop := {
  reg_read_ok : forall r s, exists v, reg_read r s = Ret v s;
  reg_write_ok : forall r v s, reg_write r v s = Ret tt s;
}.

Lemma wp_inkern {A : Type} (m : M kern A) (Q : A -> vkern -> Prop) s :
  wp m (fun a t => Q a (set_vk t s)) (vk s) -> wp (inkern m) Q s.
Proof. unfold wp, inkern, zoom. simpl. destruct (m (vk s)); simpl; tauto. Qed.
Lemma wp_inmach {A : Type} (m : M mach A) (Q : A -> vkern -> Prop) s :
  wp m (fun a t => Q a (set_vk (set_km t (vk s)) s)) (km (vk s)) -> wp (inmach m) Q s.
Proof. intros H. apply wp_inkern, wp_mk, H. Qed.
Lemma wp_updv f (Q : unit -> vkern -> Prop) s : Q tt (set_vd (f (vd s)) s) -> wp (updv f) Q s.
Proof. intros H. exact H. Qed.

(** The arrays have their sizes. *)
Record vwf (v : vdisk) : Prop := {
  wf_desc : length (desc v) = 8%nat; wf_av : length (av_ring v) = 8%nat; wf_us : length (us_ring v) = 8%nat;
  wf_free : length (dfree v) = 8%nat; wf_info : length (dinfo v) = 8%nat; wf_ops : length (ops v) = 8%nat;
}.

Lemma wp_upd_desc i f d (Q : unit -> vkern -> Prop) s : 0 <= i -> desc (vd s) !! Z.to_nat i = Some d ->
  Q tt (set_vd (set_desc (<[Z.to_nat i := f d]> (desc (vd s))) (vd s)) s) -> wp (upd_desc i f) Q s.
Proof. intros Hi Hd HQ. unfold wp, upd_desc. rewrite Hd, (proj2 (Z.leb_le 0 i)) by done. exact HQ. Qed.
Lemma wp_get_desc i d (Q : virtq_desc -> vkern -> Prop) s : 0 <= i -> desc (vd s) !! Z.to_nat i = Some d -> Q d s -> wp (get_desc i) Q s.
Proof. intros Hi Hd HQ. unfold wp, get_desc, orfault. rewrite (proj2 (Z.leb_le 0 i)), Hd by done. exact HQ. Qed.
Lemma wp_upd_info i f d (Q : unit -> vkern -> Prop) s : 0 <= i -> dinfo (vd s) !! Z.to_nat i = Some d ->
  Q tt (set_vd (set_dinfo (<[Z.to_nat i := f d]> (dinfo (vd s))) (vd s)) s) -> wp (upd_info i f) Q s.
Proof. intros Hi Hd HQ. unfold wp, upd_info. rewrite Hd, (proj2 (Z.leb_le 0 i)) by done. exact HQ. Qed.
Lemma wp_get_info i d (Q : vinfo -> vkern -> Prop) s : 0 <= i -> dinfo (vd s) !! Z.to_nat i = Some d -> Q d s -> wp (get_info i) Q s.
Proof. intros Hi Hd HQ. unfold wp, get_info, orfault. rewrite (proj2 (Z.leb_le 0 i)), Hd by done. exact HQ. Qed.
Lemma wp_get_free i d (Q : bool -> vkern -> Prop) s : 0 <= i -> dfree (vd s) !! Z.to_nat i = Some d -> Q d s -> wp (get_free i) Q s.
Proof. intros Hi Hd HQ. unfold wp, get_free, orfault. rewrite (proj2 (Z.leb_le 0 i)), Hd by done. exact HQ. Qed.

(** *** Allocating descriptors *)

Definition frees (l : list bool) : nat := length (filter (fun b => b = true) l).
Lemma frees_take l i : l !! i = Some true -> frees (<[i := false]> l) = (frees l - 1)%nat /\ (0 < frees l)%nat.
Proof.
  unfold frees. revert i. induction l as [|b l IH]; intros i Hi; [done|]. destruct i as [|i]; simpl in *.
  - injection Hi as ->. rewrite !filter_cons, decide_False, decide_True by done. simpl. lia.
  - destruct (IH i Hi) as [E H]. rewrite !filter_cons. destruct (decide (b = true)); simpl; lia.
Qed.
Lemma frees_pos l : (0 < frees l)%nat -> exists i, l !! i = Some true.
Proof.
  unfold frees. induction l as [|b l IH]; simpl; [lia|]. rewrite filter_cons. case_decide as Hb; [intros _; exists O; now subst|].
  intros H. destruct (IH H) as [i Hi]. now exists (S i).
Qed.

Section Facts.
Context {L : Layout} {P : Patience} {R : Mmio} {RO : MmioOk R}.

Lemma alloc_desc_spec s : vwf (vd s) -> (0 < frees (dfree (vd s)))%nat ->
  wp alloc_desc (fun r s' => exists a, r = Z.of_nat a /\ (a < 8)%nat /\ dfree (vd s) !! a = Some true /\
    s' = set_vd (set_dfree (<[a := false]> (dfree (vd s))) (vd s)) s) s.
Proof.
  intros Hwf Hf. unfold alloc_desc. wsteps. eapply wp_mono.
  - apply (wp_mfor (R := Z) (fun k s' => s' = s /\ forall j, (j < k)%nat -> dfree (vd s) !! j <> Some true)
      (fun r s' => exists a, r = Z.of_nat a /\ (a < 8)%nat /\ dfree (vd s) !! a = Some true /\
        s' = set_vd (set_dfree (<[a := false]> (dfree (vd s))) (vd s)) s)).
    + split; [done|]. lia.
    + intros k s' Hk [-> Hj]. change (Z.to_nat NUM) with 8%nat in Hk. replace (0 + Z.of_nat k * 1) with (Z.of_nat k) by lia.
      destruct (lookup_lt_is_Some_2 (dfree (vd s)) k) as [f Ef]; [rewrite (wf_free _ Hwf); lia|].
      wsteps. apply (wp_get_free _ f); [lia|now rewrite Nat2Z.id|]. destruct f.
      * wsteps. apply wp_updv. wsteps. exists k. rewrite Nat2Z.id. done.
      * wsteps. split; [done|]. intros j Hj'. destruct (decide (j = k)) as [->|]; [congruence|]. apply Hj. lia.
  - intros [r|] s' H; [exact H|]. destruct H as [_ H]. destruct (frees_pos _ Hf) as [j Hj].
    exfalso. apply (H j); [|done]. apply lookup_lt_Some in Hj. rewrite (wf_free _ Hwf) in Hj. exact Hj.
Qed.

(** Three descriptors that were free. *)
Definition fresh3 (l : list bool) (a b c : nat) : Prop :=
  a <> b /\ a <> c /\ b <> c /\ (a < 8)%nat /\ (b < 8)%nat /\ (c < 8)%nat /\
  l !! a = Some true /\ l !! b = Some true /\ l !! c = Some true.
Definition taken (l : list bool) (a b c : nat) : list bool := <[c := false]> (<[b := false]> (<[a := false]> l)).

Lemma vwf_free l v : vwf v -> length l = 8%nat -> vwf (set_dfree l v).
Proof. intros [] H. constructor; done. Qed.

Lemma alloc3_desc_spec s : vwf (vd s) -> (3 <= frees (dfree (vd s)))%nat ->
  wp alloc3_desc (fun r s' => exists a b c, r = Some (Z.of_nat a, Z.of_nat b, Z.of_nat c) /\ fresh3 (dfree (vd s)) a b c /\
    s' = set_vd (set_dfree (taken (dfree (vd s)) a b c) (vd s)) s) s.
Proof.
  intros Hwf Hf. unfold alloc3_desc. wsteps. eapply wp_mono; [apply alloc_desc_spec; [done|lia]|].
  intros r s1 (a & -> & Ha & Fa & ->). rewrite (proj2 (Z.ltb_ge _ 0)) by lia. destruct (frees_take _ _ Fa) as [Ea _].
  wsteps. eapply wp_mono; [apply alloc_desc_spec; [apply vwf_free; [done|rewrite length_insert; apply Hwf]|simpl; lia]|].
  intros r s2 (b & -> & Hb & Fb & ->). rewrite (proj2 (Z.ltb_ge _ 0)) by lia. simpl in Fb. destruct (frees_take _ _ Fb) as [Eb _].
  wsteps. eapply wp_mono; [apply alloc_desc_spec; [|simpl; lia]|].
  { apply vwf_free; [apply vwf_free; [done|]|]; simpl; rewrite !length_insert; apply Hwf. }
  intros r s3 (c & -> & Hc & Fc & ->). rewrite (proj2 (Z.ltb_ge _ 0)) by lia. simpl in Fc. wsteps.
  pose proof (wf_free _ Hwf) as Hlen.
  assert (a <> b) as Hab by (intros ->; rewrite list_lookup_insert_eq in Fb by lia; done). rewrite list_lookup_insert_ne in Fb by done.
  assert (b <> c) as Hbc by (intros ->; rewrite list_lookup_insert_eq in Fc by (rewrite length_insert; lia); done).
  rewrite list_lookup_insert_ne in Fc by done.
  assert (a <> c) as Hac by (intros ->; rewrite list_lookup_insert_eq in Fc by lia; done). rewrite list_lookup_insert_ne in Fc by done.
  exists a, b, c. split; [done|]. split; [|done]. unfold fresh3. split_and!; done.
Qed.

(** *** Publishing a request *)

Definition submitted (v : vdisk) (k : nat) (sector : Z) (w : bool) (a b c : nat) : vdisk :=
  set_av_idx (u16 (av_idx v + 1))
    (set_av_ring (<[Z.to_nat (av_idx v mod NUM) := Z.of_nat a]> (av_ring v))
      (set_dinfo (<[a := Info (Some k) 255]> (dinfo v))
        (set_desc (<[c := Desc (Status a) 1 VRING_DESC_F_WRITE 0]>
                    (<[b := Desc (Data k) BSIZE (Z.lor (if w then 0 else VRING_DESC_F_WRITE) VRING_DESC_F_NEXT) (Z.of_nat c)]>
                      (<[a := Desc (Header a) 16 VRING_DESC_F_NEXT (Z.of_nat b)]> (desc v))))
          (set_ops (<[a := Req (if w then VIRTIO_BLK_T_OUT else VIRTIO_BLK_T_IN) 0 sector]> (ops v)) v)))).

Lemma u16_small x : (x < 8)%nat -> u16 (Z.of_nat x) = Z.of_nat x.
Proof. intros H. unfold u16. apply Z.mod_small. lia. Qed.

Lemma submit_spec s k bf sector w a b c : vwf (vd s) -> fresh3 (dfree (vd s)) a b c \/ fresh3 (replicate 8 true) a b c ->
  bufs (vk s) !! k = Some bf ->
  wp (submit k sector w (Z.of_nat a, Z.of_nat b, Z.of_nat c))
    (fun _ s' => s' = VK (set_bufs (<[k := set_b_disk true bf]> (bufs (vk s))) (vk s)) (submitted (vd s) k sector w a b c)) s.
Proof.
  intros Hwf Hf3 Hb. assert (a <> b /\ a <> c /\ b <> c /\ a < 8 /\ b < 8 /\ c < 8)%nat as (Hab & Hac & Hbc & Ha & Hbb & Hc).
  { unfold fresh3 in Hf3. intuition lia. }
  destruct (lookup_lt_is_Some_2 (desc (vd s)) a) as [da Ea]; [rewrite (wf_desc _ Hwf); lia|].
  destruct (lookup_lt_is_Some_2 (desc (vd s)) b) as [db Eb]; [rewrite (wf_desc _ Hwf); lia|].
  destruct (lookup_lt_is_Some_2 (desc (vd s)) c) as [dc Ec]; [rewrite (wf_desc _ Hwf); lia|].
  destruct (lookup_lt_is_Some_2 (dinfo (vd s)) a) as [x Ex]; [rewrite (wf_info _ Hwf); lia|].
  unfold submit. rewrite !Nat2Z.id, !u16_small by done. wsteps. apply wp_updv. wsteps.
  apply (wp_upd_desc _ _ da); [lia|now rewrite Nat2Z.id|]. wsteps.
  apply (wp_upd_desc _ _ db); [lia|rewrite !Nat2Z.id; simpl; now rewrite list_lookup_insert_ne|]. wsteps.
  apply (wp_upd_info _ _ x); [lia|now rewrite !Nat2Z.id|]. wsteps.
  apply (wp_upd_desc _ _ dc); [lia|rewrite !Nat2Z.id; simpl; now rewrite !list_lookup_insert_ne|]. wsteps.
  apply wp_inkern, (wp_updbuf k _ bf); [done|]. wsteps.
  apply (wp_upd_info _ _ (Info (in_b x) 255)); [lia|rewrite !Nat2Z.id; simpl; rewrite list_lookup_insert_eq; [done|rewrite (wf_info _ Hwf); lia]|]. wsteps.
  apply wp_updv. wsteps. apply wp_updv. wsteps. unfold wp. rewrite reg_write_ok. rewrite !Nat2Z.id.
  unfold submitted, set_vd, set_vk. simpl. rewrite list_insert_insert_eq. reflexivity.
Qed.

(** The device reads the request the driver meant. *)
Lemma chain_submitted v k sector w a b c : vwf v -> a <> b -> a <> c -> b <> c -> (a < 8)%nat -> (b < 8)%nat -> (c < 8)%nat ->
  chain (submitted v k sector w a b c) (Z.of_nat a) = Some (w, sector, k, a).
Proof.
  intros Hwf Hab Hac Hbc Ha Hb Hc. unfold chain, submitted. simpl. rewrite Nat2Z.id.
  rewrite !list_lookup_insert_ne, list_lookup_insert_eq by (rewrite ?length_insert, ?(wf_desc _ Hwf); lia). simpl. rewrite Nat2Z.id.
  rewrite (list_lookup_insert_ne _ c b), (list_lookup_insert_eq _ b) by (rewrite ?length_insert, ?(wf_desc _ Hwf); lia). simpl. rewrite Nat2Z.id.
  rewrite (list_lookup_insert_eq _ c) by (rewrite ?length_insert, ?(wf_desc _ Hwf); lia). simpl.
  rewrite list_lookup_insert_eq by (rewrite (wf_ops _ Hwf); lia). simpl. now destruct w.
Qed.

(** *** Finishing a request *)

(** Process [i] runs and holds the driver's lock, and no other; without it
    the machine would be [m]. *)
Definition held (i : nat) (n : Z) (m : mach) (K : lockst) : Prop :=
  ready i n m /\ lk_ok 2 K /\ acquired Ldisk (lks m) K.

Lemma held_wakeup i n m K ch (Q : unit -> mach -> Prop) : held i n m K ->
  (forall m' K', held i n m' K' -> calm m m' -> Q tt (set_lks K' m')) -> wp (wakeup ch) Q (set_lks K m).
Proof.
  intros (Hr & Hok & Ha) HQ. eapply wp_mono; [now apply (wakeup_in i n Ldisk K m)|].
  intros [] m1 (K' & ps & HK & -> & Hc). pose proof (Hc (lks m) ltac:(reflexivity)) as Hcalm.
  change (set_lks K' (set_procs ps m)) with (set_lks K' (set_lks (lks m) (set_procs ps m))). apply HQ; [|done].
  split; [eapply ready_calm; eauto|]. split; [now rewrite <- HK|]. simpl.
  eapply acquired_eq; [apply (lk_ok_mono 3); [apply Hr|lia]|reflexivity|exact Ha|done].
Qed.

Definition freed (a : nat) (v : vdisk) : vdisk :=
  set_dfree (<[a := true]> (dfree v)) (set_desc (<[a := Desc Null 0 0 0]> (desc v)) v).

Lemma free_desc_spec i n m K s a d (Q : unit -> vkern -> Prop) : held i n m K -> km (vk s) = set_lks K m -> (a < 8)%nat ->
  desc (vd s) !! a = Some d -> dfree (vd s) !! a = Some false ->
  (forall m' K', held i n m' K' -> calm m m' -> Q tt (VK (set_km (set_lks K' m') (vk s)) (freed a (vd s)))) ->
  wp (free_desc (Z.of_nat a)) Q s.
Proof.
  intros Hh Em Ha Hd Hf HQ. unfold free_desc. wsteps; [now rewrite (proj2 (Z.leb_gt _ _)) by lia|].
  apply (wp_get_free _ false); [lia|now rewrite Nat2Z.id|]. wsteps; [done|].
  apply (wp_upd_desc _ _ d); [lia|now rewrite Nat2Z.id|]. wsteps. apply wp_updv. wsteps. apply wp_inmach. simpl. rewrite Em.
  apply (held_wakeup i n); [done|]. intros m' K' Hh' Hc. specialize (HQ m' K' Hh' Hc). rewrite !Nat2Z.id. exact HQ.
Qed.

Lemma free_chain_spec i n m K s k (w : bool) a b c : held i n m K -> km (vk s) = set_lks K m -> vwf (vd s) ->
  a <> b -> a <> c -> b <> c -> (a < 8)%nat -> (b < 8)%nat -> (c < 8)%nat ->
  desc (vd s) !! a = Some (Desc (Header a) 16 VRING_DESC_F_NEXT (Z.of_nat b)) ->
  desc (vd s) !! b = Some (Desc (Data k) BSIZE (Z.lor (if w then 0 else VRING_DESC_F_WRITE) VRING_DESC_F_NEXT) (Z.of_nat c)) ->
  desc (vd s) !! c = Some (Desc (Status a) 1 VRING_DESC_F_WRITE 0) ->
  dfree (vd s) !! a = Some false -> dfree (vd s) !! b = Some false -> dfree (vd s) !! c = Some false ->
  wp (free_chain (Z.to_nat NUM) (Z.of_nat a)) (fun _ s' => exists m' K', held i n m' K' /\ calm m m' /\
    s' = VK (set_km (set_lks K' m') (vk s)) (freed c (freed b (freed a (vd s))))) s.
Proof.
  intros Hh Em Hwf Hab Hac Hbc Ha Hb Hc Da Db Dc Fa Fb Fc. change (Z.to_nat NUM) with (S (S (S 5))). cbn [free_chain].
  wsteps. eapply wp_get_desc; [lia|rewrite Nat2Z.id; exact Da|]. wsteps.
  eapply (free_desc_spec i n m K); [done|done|done|exact Da|done|]. intros m1 K1 Hh1 C1. cbn [d_flags d_next].
  change (has VRING_DESC_F_NEXT VRING_DESC_F_NEXT) with true. cbv iota. wsteps.
  assert (desc (freed a (vd s)) !! b = desc (vd s) !! b) as Eb by (simpl; now rewrite list_lookup_insert_ne by done).
  apply (wp_get_desc _ (Desc (Data k) BSIZE (Z.lor (if w then 0 else VRING_DESC_F_WRITE) VRING_DESC_F_NEXT) (Z.of_nat c)));
    [lia|rewrite Nat2Z.id; simpl vd; now rewrite Eb|]. wsteps.
  eapply (free_desc_spec i n m1 K1); [done|done|done|simpl vd; rewrite Eb; exact Db|simpl; now rewrite list_lookup_insert_ne by done|].
  intros m2 K2 Hh2 C2. cbn [d_flags d_next].
  replace (has (Z.lor (if w then 0 else VRING_DESC_F_WRITE) VRING_DESC_F_NEXT) VRING_DESC_F_NEXT) with true by (now destruct w). cbv iota. wsteps.
  assert (desc (freed b (freed a (vd s))) !! c = desc (vd s) !! c) as Ec by (simpl; now rewrite !list_lookup_insert_ne by done).
  apply (wp_get_desc _ (Desc (Status a) 1 VRING_DESC_F_WRITE 0)); [lia|rewrite Nat2Z.id; simpl vd; now rewrite Ec|]. wsteps.
  eapply (free_desc_spec i n m2 K2); [done|done|done|simpl vd; rewrite Ec; exact Dc|simpl; now rewrite !list_lookup_insert_ne by done|].
  intros m3 K3 Hh3 C3. cbn [d_flags]. change (has VRING_DESC_F_WRITE VRING_DESC_F_NEXT) with false. cbv iota. wsteps.
  exists m3, K3. split; [done|]. split; [now rewrite C1, C2|done].
Qed.

(** What is left of [virtio_disk_rw] when the process is woken. *)
Definition finish (f k : nat) (i0 : Z) : M vkern unit :=
  do! await_done f k;
  do! upd_info i0 (fun x => Info None (in_status x));
  do! free_chain (Z.to_nat NUM) i0;
  inmach (lk (release Ldisk)).

(** A request of [k] is in the descriptors [a], [b] and [c]. *)
Record in_flight (k : nat) (w : bool) (a b c : nat) (v : vdisk) : Prop := {
  fl_wf : vwf v;
  fl_ne : a <> b /\ a <> c /\ b <> c /\ (a < 8)%nat /\ (b < 8)%nat /\ (c < 8)%nat;
  fl_a : desc v !! a = Some (Desc (Header a) 16 VRING_DESC_F_NEXT (Z.of_nat b));
  fl_b : desc v !! b = Some (Desc (Data k) BSIZE (Z.lor (if w then 0 else VRING_DESC_F_WRITE) VRING_DESC_F_NEXT) (Z.of_nat c));
  fl_c : desc v !! c = Some (Desc (Status a) 1 VRING_DESC_F_WRITE 0);
  fl_free : dfree v !! a = Some false /\ dfree v !! b = Some false /\ dfree v !! c = Some false;
}.
(** The driver's data when the request is over. *)
Definition over_ (a b c : nat) (v : vdisk) : vdisk :=
  freed c (freed b (freed a (set_dinfo (alter (fun x => Info None (in_status x)) a (dinfo v)) v))).

Lemma finish_spec i n m K s f k bf w a b c : held i n m K -> km (vk s) = set_lks K m -> in_flight k w a b c (vd s) ->
  bufs (vk s) !! k = Some bf -> b_disk bf = false ->
  wp (finish f k (Z.of_nat a)) (fun _ s' => exists m', calm m m' /\ s' = VK (set_km m' (vk s)) (over_ a b c (vd s))) s.
Proof.
  intros Hh Em [Hwf (Hab & Hac & Hbc & Ha & Hb & Hc) Da Db Dc (Fa & Fb & Fc)] Hk Hd. unfold finish. wsteps.
  assert (wp (await_done f k) (fun _ s' => s' = s) s) as Hw.
  { destruct f; cbn [await_done]; wsteps; apply wp_inkern, (wp_getbuf k bf); try done; rewrite Hd; wsteps; now destruct s. }
  eapply wp_mono; [exact Hw|]. intros [] s' ->. wsteps.
  destruct (lookup_lt_is_Some_2 (dinfo (vd s)) a) as [x Ex]; [rewrite (wf_info _ Hwf); lia|].
  apply (wp_upd_info _ _ x); [lia|now rewrite Nat2Z.id|]. wsteps. rewrite Nat2Z.id.
  assert (alter (fun x => Info None (in_status x)) a (dinfo (vd s)) = <[a := Info None (in_status x)]> (dinfo (vd s))) as Ealt.
  { apply list_eq. intros j. destruct (decide (j = a)) as [->|Hne].
    - rewrite list_lookup_alter_eq, Ex, list_lookup_insert_eq; [done|]. now apply lookup_lt_Some in Ex.
    - now rewrite list_lookup_alter_ne, list_lookup_insert_ne. }
  eapply wp_mono; [eapply (free_chain_spec i n m K _ k w a b c); try done; destruct Hwf; constructor; simpl; rewrite ?length_insert; done|].
  intros [] s1 (m1 & K1 & Hh1 & C1 & ->). apply wp_inmach. destruct Hh1 as ((Hok & Hlen & Hfree & Hrest) & HokK & Ha1).
  eapply (wp_release _ 3 (lks m1) K1); [done|lia|apply Hfree|done|reflexivity|]. intros K2 HK2.
  exists (set_lks K2 m1). split; [rewrite C1; now apply calm_lks|]. unfold over_. rewrite Ealt. done.
Qed.

(** *** The interrupt *)

Lemma reg_read_wp r (Q : Z -> vkern -> Prop) s : (forall v, Q v s) -> wp (reg_read r) Q s.
Proof. intros H. destruct (reg_read_ok r s) as [v E]. unfold wp. now rewrite E. Qed.
Lemma reg_write_wp r v (Q : unit -> vkern -> Prop) s : Q tt s -> wp (reg_write r v) Q s.
Proof. intros H. unfold wp. now rewrite reg_write_ok. Qed.

Lemma intr_spec j n s k bf id st : ready j n (km (vk s)) -> vwf (vd s) ->
  0 <= used_idx (vd s) < 65536 -> us_idx (vd s) = u16 (used_idx (vd s) + 1) ->
  us_ring (vd s) !! Z.to_nat (used_idx (vd s) mod NUM) = Some id -> 0 <= id ->
  dinfo (vd s) !! Z.to_nat id = Some (Info (Some k) 0) -> bufs (vk s) !! k = Some bf -> st = us_idx (vd s) ->
  wp virtio_disk_intr (fun _ s' => exists K, lk_eq (lks (km (vk s))) K /\
    s' = VK (set_km (set_lks K (set_procs (imap (woken (Some j) (ChBuf k)) (procs (km (vk s)))) (km (vk s))))
               (set_bufs (<[k := set_b_disk false bf]> (bufs (vk s))) (vk s)))
            (set_used_idx st (vd s))) s.
Proof.
  intros Hr Hwf Hu Hus Hring Hid Hx Hb ->. pose proof Hr as (Hok & Hlen & Hfree & c & p & Hc & Hci & _).
  unfold virtio_disk_intr. wsteps. apply wp_inmach. apply (wp_acquire _ 3); [done|lia|apply Hfree|]. intros K1 HokK1 Ha. wsteps.
  apply reg_read_wp. intros v. wsteps. apply reg_write_wp. wsteps. simpl vd.
  assert (u16 (us_idx (vd s) - used_idx (vd s)) = 1) as E1.
  { rewrite Hus. unfold u16. rewrite Zminus_mod_idemp_l. replace (used_idx (vd s) + 1 - used_idx (vd s)) with 1 by lia. done. }
  assert (used_idx (vd s) <> us_idx (vd s)) as Hne by (intros E; rewrite E, Z.sub_diag in E1; done).
  rewrite E1. change (Z.to_nat 1) with 1%nat. cbn [intr_loop]. wsteps. simpl vd. rewrite (proj2 (Z.eqb_neq _ _)) by done. cbn [negb].
  wsteps. unfold orfault at 1. rewrite Hring. unfold wp at 1. cbv beta iota.
  change (wp (let! x := get_info id in
    do! check (in_status x =? 0) "virtio_disk_intr status";
    match in_b x with
    | Some k => do! inkern (updbuf k (set_b_disk false)); do! inmach (wakeup (ChBuf k));
      do! updv (fun v => set_used_idx (u16 (used_idx v + 1)) v);
      let! v := gets vd in if negb (used_idx v =? us_idx v) then fun _ => Spin else ret tt
    | None => fun _ => Fault
    end) (fun _ => wp (inmach (lk (release Ldisk))) (fun _ s' => exists K, lk_eq (lks (km (vk s))) K /\
    s' = VK (set_km (set_lks K (set_procs (imap (woken (Some j) (ChBuf k)) (procs (km (vk s)))) (km (vk s))))
               (set_bufs (<[k := set_b_disk false bf]> (bufs (vk s))) (vk s)))
            (set_used_idx (us_idx (vd s)) (vd s)))) (set_vk (set_km (set_lks K1 (km (vk s))) (vk s)) s)).
  wsteps. apply (wp_get_info _ (Info (Some k) 0)); [done|done|]. wsteps; [done|]. cbn [in_b]. wsteps.
  apply wp_inkern, (wp_updbuf k _ bf); [done|]. wsteps. apply wp_inmach. simpl km.
  destruct (acquired_cur _ _ _ _ Ha Hc) as (c1 & Hc1 & Ec1 & _).
  eapply wp_mono; [apply (wakeup_spec 2 c1)|].
  { split; [done|]. split; [done|]. intros l. simpl. rewrite (acquired_getlock _ _ _ _ Ha); [apply Hfree|done]. } { lia. } { done. }
  intros [] m2 (K2 & HK2 & ->). simpl in HK2. wsteps. apply wp_updv. wsteps. simpl vd. simpl used_idx. simpl us_idx.
  rewrite <- Hus, Z.eqb_refl. cbn [negb]. wsteps. apply wp_inmach. simpl km.
  eapply (wp_release _ 3 (lks (km (vk s))) K1); [done|lia|apply Hfree|done|exact HK2|]. intros K3 HK3. exists K3. split; [done|].
  assert (c_proc c1 = Some j) as <- by congruence. reflexivity.
Qed.

(** *** A request from the call to the return *)

(** The driver has room for a request and no completion to collect. *)
Record vready (v : vdisk) : Prop := {
  vr_wf : vwf v;
  vr_room : (3 <= frees (dfree v))%nat;
  vr_used : 0 <= used_idx v < 65536;
  vr_us : us_idx v = used_idx v;
}.

Lemma bind_wp {S A B : Type} (m : M S A) (f : A -> M S B) s (Q : A -> S -> Prop) (o : outcome S B -> Prop) :
  wp m Q s -> (forall a s', Q a s' -> o (f a s')) -> o (bind m f s).
Proof. intros H Hf. apply wp_Ret in H as (a & s' & E & HQ). rewrite (bind_Ret _ _ _ _ _ E). now apply Hf. Qed.

Lemma await_desc_spec f s : vwf (vd s) -> (3 <= frees (dfree (vd s)))%nat ->
  wp (await_desc f) (fun r s' => exists a b c, r = (Z.of_nat a, Z.of_nat b, Z.of_nat c) /\ fresh3 (dfree (vd s)) a b c /\
    s' = set_vd (set_dfree (taken (dfree (vd s)) a b c) (vd s)) s) s.
Proof.
  intros Hwf Hf. destruct f; cbn [await_desc]; wsteps; (eapply wp_mono; [apply alloc3_desc_spec; [done|lia]|]);
    intros r s' (a & b & c & -> & H3 & ->); wsteps; exists a, b, c; done.
Qed.

Lemma fresh3_all l a b c : fresh3 l a b c -> fresh3 (replicate 8 true) a b c.
Proof. unfold fresh3. intros (? & ? & ? & ? & ? & ? & _). split_and!; try done; now apply lookup_replicate_2. Qed.

(** What the first part leaves: the request is published, the process sleeps
    on the buffer, and what is to come is [finish]. *)
Definition sent (i k : nat) (bf : buf) (w : bool) (a b c : nat) (s s1 : vkern) (kont : M vkern unit) : Prop :=
  (exists p K, procs (km (vk s)) !! i = Some p /\ acquired (Lproc i) (lks (km (vk s))) K /\
    s1 = VK (set_km (set_lks K (set_procs (<[i := set_state SLEEPING (set_chan (ChBuf k) p)]> (procs (km (vk s)))) (km (vk s))))
              (set_bufs (<[k := set_b_disk true bf]> (bufs (vk s))) (vk s)))
            (submitted (set_dfree (taken (dfree (vd s)) a b c) (vd s)) k (u32 (b_blockno bf * 2)) w a b c)) /\
  (exists f, forall s2 c2 p2 (Q : unit -> vkern -> Prop), resumed i c2 p2 (km (vk s2)) ->
    getlock (lks (km (vk s2))) Ldisk = unlocked ->
    (forall m', woken_up i Ldisk c2 p2 (km (vk s2)) m' -> wp (finish f k (Z.of_nat a)) Q (set_vk (set_km m' (vk s2)) s2)) ->
    wp kont Q s2).

Lemma inmach_Switch {A : Type} (m : M mach A) s s' k :
  m (km (vk s)) = Switch s' k ->
  inmach m s = Switch (VK (set_km s' (vk s)) (vd s)) (fun t => inmach k t).
Proof. intros H. unfold inmach, inkern, mk, zoom. simpl. rewrite H. reflexivity. Qed.

Definition sends (i k : nat) (bf : buf) (w : bool) (s : vkern) (o : outcome vkern unit) : Prop :=
  exists a b c s1 kont, fresh3 (dfree (vd s)) a b c /\ o = Switch s1 kont /\ sent i k bf w a b c s s1 kont.

Lemma rw_sends i n s k bf w c0 : ready i n (km (vk s)) -> cur (lks (km (vk s))) = Some c0 -> noff c0 = 0 ->
  vwf (vd s) -> (3 <= frees (dfree (vd s)))%nat -> bufs (vk s) !! k = Some bf -> (1 <= patience)%nat ->
  sends i k bf w s (virtio_disk_rw k w s).
Proof.
  intros (Hok & Hlen & Hfree & c & p & Hc & Hci & Hp & Hpid) Hc0 Hn Hwf Hf Hb Hpat.
  rewrite Hc in Hc0. injection Hc0 as <-.
  destruct patience as [|f] eqn:Ef; [lia|]. unfold virtio_disk_rw. rewrite Ef.
  apply (bind_wp _ _ _ (fun r s' => r = bf /\ s' = s)).
  { apply wp_inkern, (wp_getbuf k bf); [done|]. split; [done|now destruct s]. }
  intros b' s' [-> ->]. cbv zeta. change (BSIZE / 512) with 2.
  apply (bind_wp _ _ _ (fun _ s' => exists K, acquired Ldisk (lks (km (vk s))) K /\
    s' = set_vk (set_km (set_lks K (km (vk s))) (vk s)) s)).
  { apply wp_inmach, (wp_acquire _ 3); [done|lia|apply Hfree|]. intros K _ HK. exists K. done. }
  intros [] s' (K1 & Ha & ->).
  eapply bind_wp; [now apply await_desc_spec|]. simpl. intros r s' (a & b & c' & -> & H3 & ->).
  eapply bind_wp.
  { apply (submit_spec _ k bf); [|right; apply (fresh3_all _ _ _ _ H3)|done].
    apply vwf_free; [done|]. unfold taken. rewrite !length_insert. apply Hwf. }
  simpl. intros [] s' ->.
  edestruct (sleep_spec (ChBuf k) Ldisk i (lks (km (vk s))) c p (set_lks K1 (km (vk s)))) as (K & kk & Es & HaK & Hk); try done.
  exists a, b, c'. do 2 eexists. split; [done|]. split.
  - apply bind_Switch. cbn [await_done].
    match goal with |- bind ?m ?g ?t = _ => rewrite (bind_Ret m g t (set_b_disk true bf) t) end.
    2:{ unfold inkern, zoom, getbuf, orfault. simpl. rewrite list_lookup_insert_eq by now apply lookup_lt_Some in Hb. done. }
    cbn [b_disk set_b_disk]. apply bind_Switch, inmach_Switch. exact Es.
  - split; [exists p, K; done|]. exists f. intros s2 c2 p2 Q Hr Hl HQ.
    change (wp (do! (do! inmach kk; await_done f k);
      do! upd_info (fst (fst (Z.of_nat a, Z.of_nat b, Z.of_nat c'))) (fun x => Info None (in_status x));
      do! free_chain (Z.to_nat NUM) (Z.of_nat a); inmach (lk (release Ldisk))) Q s2).
    wsteps. apply wp_inmach. eapply wp_mono; [exact (Hk _ _ _ Hr Hl)|]. intros [] m' Hm'. specialize (HQ m' Hm').
    now apply wp_bind_inv in HQ.
Qed.

Lemma vwf_submitted v k sector w a b c : vwf v -> vwf (submitted v k sector w a b c).
Proof. intros []. constructor; simpl; rewrite ?length_insert; done. Qed.

Lemma taken_lookup l a b c : fresh3 l a b c -> length l = 8%nat ->
  taken l a b c !! a = Some false /\ taken l a b c !! b = Some false /\ taken l a b c !! c = Some false.
Proof.
  intros (Hab & Hac & Hbc & Ha & Hb & Hc & _) Hl. unfold taken. split_and!.
  - rewrite !list_lookup_insert_ne, list_lookup_insert_eq by (rewrite ?length_insert; lia || done). done.
  - rewrite list_lookup_insert_ne, list_lookup_insert_eq by (rewrite ?length_insert; lia || done). done.
  - rewrite list_lookup_insert_eq by (rewrite ?length_insert; lia). done.
Qed.
Lemma taken_back l a b c : fresh3 l a b c -> <[c := true]> (<[b := true]> (<[a := true]> (taken l a b c))) = l.
Proof.
  intros (Hab & Hac & Hbc & Ha & Hb & Hc & Fa & Fb & Fc). apply list_eq. intros j. unfold taken.
  destruct (decide (j = c)) as [->|]; [rewrite list_lookup_insert_eq; [done|rewrite !length_insert; now apply lookup_lt_Some in Fc]|].
  rewrite list_lookup_insert_ne by done.
  destruct (decide (j = b)) as [->|]; [rewrite list_lookup_insert_eq; [done|rewrite !length_insert; now apply lookup_lt_Some in Fb]|].
  rewrite list_lookup_insert_ne by done.
  destruct (decide (j = a)) as [->|]; [rewrite list_lookup_insert_eq; [done|rewrite !length_insert; now apply lookup_lt_Some in Fa]|].
  now rewrite !list_lookup_insert_ne by done.
Qed.

(** The driver's data when the device is done with the request. *)
Definition served (a : nat) (k : nat) (v : vdisk) : vdisk :=
  set_us (u16 (us_idx v + 1)) (<[Z.to_nat (us_idx v mod NUM) := Z.of_nat a]> (us_ring v))
    (set_dinfo (<[a := Info (Some k) 0]> (dinfo v)) v).

Lemma submitted_flight v k sector w a b c : vwf v -> fresh3 (dfree v) a b c ->
  let v' := submitted (set_dfree (taken (dfree v) a b c) v) k sector w a b c in in_flight k w a b c v'.
Proof.
  intros Hwf H3 v'. pose proof H3 as (Hab & Hac & Hbc & Ha & Hb & Hc & _). pose proof (wf_desc _ Hwf) as Hd.
  constructor; [|done| | | |now apply taken_lookup; [|apply Hwf]].
  - apply vwf_submitted, vwf_free; [done|]. unfold taken. rewrite !length_insert. apply Hwf.
  - simpl. rewrite !list_lookup_insert_ne, list_lookup_insert_eq by (rewrite ?length_insert; lia || done). done.
  - simpl. rewrite list_lookup_insert_ne, list_lookup_insert_eq by (rewrite ?length_insert; lia || done). done.
  - simpl. rewrite list_lookup_insert_eq by (rewrite ?length_insert; lia). done.
Qed.

(** The device can serve the request, and there is one way to. *)
Lemma device_serves s1 v k bf sector w a b c : vwf v -> fresh3 (dfree v) a b c ->
  vd s1 = submitted (set_dfree (taken (dfree v) a b c) v) k sector w a b c -> bufs (vk s1) !! k = Some bf ->
  device_step (Z.of_nat a) s1 (VK (transfer w sector k bf (vk s1)) (served a k (vd s1))) /\
  forall s2, device_step (Z.of_nat a) s1 s2 -> s2 = VK (transfer w sector k bf (vk s1)) (served a k (vd s1)).
Proof.
  intros Hwf H3 Ev Hb. pose proof H3 as (Hab & Hac & Hbc & Ha & Hbb & Hc & _).
  pose proof (submitted_flight v k sector w a b c Hwf H3) as [Hwf1 _ _ _ _ _]. rewrite <- Ev in Hwf1.
  assert (chain (vd s1) (Z.of_nat a) = Some (w, sector, k, a)) as Ech.
  { rewrite Ev. apply chain_submitted; try done. apply vwf_free; [done|]. unfold taken. rewrite !length_insert. apply Hwf. }
  assert (dinfo (vd s1) !! a = Some (Info (Some k) 255)) as Ex.
  { rewrite Ev. simpl. apply list_lookup_insert_eq. rewrite (wf_info _ Hwf). lia. }
  split.
  - apply (device_done _ _ w sector k a bf (Info (Some k) 255)); try done. exists (av_idx v). rewrite Ev. simpl. split.
    + apply list_lookup_insert_eq. rewrite (wf_av _ Hwf). pose proof (Z.mod_pos_bound (av_idx v) NUM ltac:(done)). lia.
    + unfold u16. rewrite Zminus_mod_idemp_l. replace (av_idx v + 1 - av_idx v) with 1 by lia. change (1 mod 65536) with 1. lia.
  - intros s2 H. inversion H as [s' w' sec' k' j' b' x' _ E1 E2 E3 E4 E5]. subst s'. rewrite Ech in E1. simplify_eq. done.
Qed.

Lemma sector_block x : 0 <= x < 2147483648 -> u32 (x * 2) / 2 = x.
Proof. intros H. unfold u32. rewrite Z.mod_small by lia. apply Z.div_mul. lia. Qed.

(** The transfer, and the buffer back to the driver: what the ideal driver
    does. *)
Lemma transfer_ideal k bf w t m : bufs t !! k = Some bf -> b_disk bf = false -> 0 <= b_blockno bf < 2147483648 ->
  exists t' bf', ideal_rw k w t = Ret tt t' /\
    let t1 := transfer w (u32 (b_blockno bf * 2)) k (set_b_disk true bf) (set_km m (set_bufs (<[k := set_b_disk true bf]> (bufs t)) t)) in
    bufs t1 !! k = Some bf' /\ forall m', set_km m' (set_bufs (<[k := set_b_disk false bf']> (bufs t1)) t1) = set_km m' t'.
Proof.
  intros Hb Hd Hn. pose proof (lookup_lt_Some _ _ _ Hb) as Hlt. unfold ideal_rw, getbuf, updbuf, bind, gets, modify, orfault.
  unfold transfer. rewrite sector_block by done. cbn. unfold getbuf, orfault, bind, obind. rewrite Hb. destruct w; cbn.
  - eexists _, _. split; [done|]. cbv zeta. cbn. rewrite list_lookup_insert_eq by done. split; [done|]. intros m'.
    destruct bf, t. cbn in *. subst. rewrite list_insert_insert_eq. unfold set_b_disk. cbn. rewrite list_insert_id by done. done.
  - rewrite Hb. eexists _, _. split; [done|]. cbv zeta. cbn. rewrite list_insert_insert_eq, list_lookup_insert_eq by done.
    split; [done|]. intros m'. destruct bf, t. cbn in *. subst. rewrite list_insert_insert_eq. done.
Qed.

(** Back from [sleep]: the process holds the driver's lock. *)
Lemma woken_up_held i n c p m m' : resumed i c p m -> woken_up i Ldisk c p m m' ->
  (forall l, l <> Lproc i -> getlock (lks m) l = unlocked) -> length (procs m) = 64%nat -> c_proc c = Some i -> pid p = n ->
  exists m0 K, m' = set_lks K m0 /\ held i n m0 K.
Proof.
  intros (_ & _ & _ & _ & _ & Hp) (K & K' & -> & Hok & Ha & _ & (c' & Hc' & Eci & _) & Hli & Hl) Hfree Hlen Hci Hpid.
  exists (set_lks K (set_procs (<[i := set_chan NoChan p]> (procs m)) m)), K'. split; [done|]. split; [|split; [|done]].
  - split; [done|]. simpl. split; [now rewrite length_insert|]. split.
    + intros l. destruct (decide (l = Lproc i)) as [->|Hne]; [done|]. rewrite Hl by done. now apply Hfree.
    + exists c', (set_chan NoChan p). split; [done|]. split; [congruence|]. split; [|done].
      apply list_lookup_insert_eq. now apply lookup_lt_Some in Hp.
  - exact (acquired_ok _ _ _ Hok Ha).
Qed.

(** The driver's data while the request is in the ring, when it is served and
    collected. *)
Definition collected (a k : nat) (v : vdisk) : vdisk := set_used_idx (u16 (us_idx v + 1)) (served a k v).

Lemma collected_flight v k w a b c : in_flight k w a b c v -> in_flight k w a b c (collected a k v).
Proof. intros [[] ? ? ? ? ?]. constructor; try done. constructor; simpl; rewrite ?length_insert; done. Qed.

Lemma collected_over v k sector w a b c : vready v -> fresh3 (dfree v) a b c ->
  let v' := over_ a b c (collected a k (submitted (set_dfree (taken (dfree v) a b c) v) k sector w a b c)) in
  vready v' /\ dfree v' = dfree v.
Proof.
  intros [[] Hroom Hu Hus] H3 v'. assert (dfree v' = dfree v) as E by (now apply taken_back). split; [|done].
  constructor; [|now rewrite E| |done].
  - constructor; simpl; rewrite ?length_insert, ?length_alter, ?length_insert; try done. unfold taken. now rewrite !length_insert.
  - simpl. unfold u16. apply Z.mod_pos_bound. lia.
Qed.

(** The interrupt collects the one completion. *)
Lemma intr_collects j n t v m k bf a : ready j n m -> vwf v -> 0 <= used_idx v < 65536 -> us_idx v = used_idx v ->
  (a < 8)%nat -> bufs t !! k = Some bf ->
  wp virtio_disk_intr (fun _ s' => exists K, lk_eq (lks m) K /\
    s' = VK (set_km (set_lks K (set_procs (imap (woken (Some j) (ChBuf k)) (procs m)) m))
               (set_bufs (<[k := set_b_disk false bf]> (bufs t)) t)) (collected a k v)) (VK (set_km m t) (served a k v)).
Proof.
  intros Hr Hwf Hu Hus Ha Hb. pose proof (Z.mod_pos_bound (used_idx v) NUM ltac:(done)) as Hm.
  eapply wp_mono; [apply (intr_spec j n (VK (set_km m t) (served a k v)) k bf (Z.of_nat a) (u16 (us_idx v + 1))); simpl; try done|].
  - destruct Hwf. constructor; simpl; rewrite ?length_insert; done.
  - now rewrite Hus.
  - rewrite Hus. apply list_lookup_insert_eq. rewrite (wf_us _ Hwf). lia.
  - lia.
  - rewrite Nat2Z.id. apply list_lookup_insert_eq. rewrite (wf_info _ Hwf). lia.
  - intros [] s' (K & HK & ->). exists K. done.
Qed.

(** C11: the driver carries a request out the way the ideal driver of the buffer
    cache does, with the machine free meanwhile.  [virtio_disk_rw] puts the
    request in the ring and the process to sleep on its buffer with no lock
    but its own held; the device can then serve the request, in one way; the
    interrupt, which may come while any other process runs, makes the process
    runnable, and when it runs again [virtio_disk_rw] returns: the disk and
    the buffers are as the ideal driver leaves them, the descriptors are free
    again, no lock is held. *)
Theorem disk_request i n s k bf w c0 :
  ready i n (km (vk s)) -> cur (lks (km (vk s))) = Some c0 -> noff c0 = 0 -> vready (vd s) ->
  bufs (vk s) !! k = Some bf -> b_disk bf = false -> 0 <= b_blockno bf < 2147483648 -> (1 <= patience)%nat ->
  exists s1 kont h, virtio_disk_rw k w s = Switch s1 kont /\
    (exists p, procs (km (vk s1)) !! i = Some p /\ state p = SLEEPING /\ chan p = ChBuf k) /\
    (forall l, l <> Lproc i -> getlock (lks (km (vk s1))) l = unlocked) /\
    (exists s2, device_step h s1 s2) /\
    forall s2, device_step h s1 s2 ->
    forall j nj mj, ready j nj mj -> j <> i -> procs mj !! i = procs (km (vk s1)) !! i ->
    wp virtio_disk_intr (fun _ s3 =>
      (exists p, procs (km (vk s3)) !! i = Some p /\ state p = RUNNABLE) /\
      forall c4 p4 m4, resumed i c4 p4 m4 -> (forall l, l <> Lproc i -> getlock (lks m4) l = unlocked) ->
      length (procs m4) = 64%nat -> c_proc c4 = Some i -> pid p4 = n ->
      wp kont (fun _ s5 => exists t m5, ideal_rw k w (vk s) = Ret tt t /\ vk s5 = set_km m5 t /\ ready i n m5 /\
          vready (vd s5) /\ dfree (vd s5) = dfree (vd s))
        (VK (set_km m4 (vk s3)) (vd s3)))
      (VK (set_km mj (vk s2)) (vd s2)).
Proof.
  intros Hr Hc Hn [Hwf Hroom Hu Hus] Hb Hd Hbn Hpat.
  destruct (rw_sends i n s k bf w c0 Hr Hc Hn Hwf Hroom Hb Hpat) as (a & b & c & s1 & kont & H3 & Erw & Hsent & f & Hkont).
  destruct Hsent as (p & K & Hp & HaK & ->). pose proof (lookup_lt_Some _ _ _ Hp) as Hlt. pose proof (lookup_lt_Some _ _ _ Hb) as Hltb.
  set (s1 := VK _ _) in *. destruct (device_serves s1 (vd s) k (set_b_disk true bf) (u32 (b_blockno bf * 2)) w a b c) as [Hcan Hdet]; try done.
  { now apply list_lookup_insert_eq. }
  exists s1, kont, (Z.of_nat a). split; [done|]. split; [|split; [|split; [eauto|]]].
  - exists (set_state SLEEPING (set_chan (ChBuf k) p)). split; [now apply list_lookup_insert_eq|done].
  - intros l Hl. cbn. rewrite (acquired_getlock _ _ _ _ HaK); [apply Hr|done].
  - intros s2 H2 j nj mj Hrj Hji Hpi. apply Hdet in H2 as ->.
    assert (procs mj !! i = Some (set_state SLEEPING (set_chan (ChBuf k) p))) as Hpj.
    { rewrite Hpi. now apply list_lookup_insert_eq. }
    destruct (transfer_ideal k bf w (vk s) (km (vk s1)) Hb Hd Hbn) as (t & bf' & Et & Hbf' & Hfin).
    pose proof (submitted_flight (vd s) k (u32 (b_blockno bf * 2)) w a b c Hwf H3) as Hfl.
    set (v1 := submitted _ _ _ _ _ _ _) in *. change (vd s1) with v1. pose proof Hfl as [Hwf1 Hne _ _ _ _].
    eapply wp_mono; [apply (intr_collects j nj _ v1 mj k bf' a Hrj Hwf1); [exact Hu|exact Hus|apply Hne|exact Hbf']|].
    intros [] s3 (K3 & HK3 & ->). split.
    + exists (set_state RUNNABLE (set_state SLEEPING (set_chan (ChBuf k) p))). split; [|done].
      cbn. rewrite list_lookup_imap, Hpj. cbn. unfold woken. rewrite bool_decide_eq_false_2 by congruence.
      cbn. rewrite !bool_decide_eq_true_2 by done. done.
    + intros c4 p4 m4 Hres Hl4 Hlen4 Hc4 Hp4. apply (Hkont _ c4 p4); [done|now apply Hl4|]. intros m' Hw.
      destruct (woken_up_held _ n _ _ _ _ Hres Hw) as (m0 & K0 & -> & Hheld); try done.
      eapply wp_mono; [apply (finish_spec i n m0 K0 _ f k (set_b_disk false bf') w a b c Hheld); try done|].
      * now apply collected_flight.
      * apply list_lookup_insert_eq. now apply lookup_lt_Some in Hbf'.
      * intros [] s5 (m5 & Hcalm & ->). exists t, m5. split; [done|]. split; [|split; [now apply (ready_calm i n m0); [apply Hheld|]|]].
        -- exact (Hfin m5).
        -- now apply collected_over.
Qed.
End Facts.

(** ** A concrete disk *)

(** Registers that hold nothing. *)
#[export] Instance mute : Mmio := {| reg_read := fun _ => ret 0; reg_write := fun _ _ => ret tt |}.
#[export] Instance mute_ok : MmioOk mute.
Proof. constructor; intros; [eexists|]; reflexivity. Qed.

Definition vdisk1 : vdisk :=
  Vdisk (replicate 8 (Desc Null 0 0 0)) 65535 (replicate 8 0) 65535 (replicate 8 0) (replicate 8 true) 65535
    (replicate 8 (Info None 0)) (replicate 8 (Req 0 0 0)) (0, 0, 0).
Lemma vdisk1_ready : vready vdisk1.
Proof. constructor; [constructor; reflexivity|vm_compute; lia|simpl; lia|reflexivity]. Qed.

(** A write of block 100 when the ring's indices wrap around; the interrupt
    comes while process 1 runs. *)
Definition write100 : vkern := VK (kern1 (buf1 1 sevens) ∅ (log1 0 0 (replicate 30 0))) vdisk1.
Definition other : lockst := Lockst 0 [Cpu (Some 1%nat) Example.ctx0 0 0 (csr Harts.cpu0)] ∅.
Lemma disk_request_witness :
  exists s1 kont h s2 p, virtio_disk_rw 0 true write100 = Switch s1 kont /\ device_step h s1 s2 /\
    procs (km (vk s1)) !! 0%nat = Some p /\
    wp virtio_disk_intr (fun _ s3 => exists p, procs (km (vk s3)) !! 0%nat = Some p /\ state p = RUNNABLE)
      (VK (set_km (set_lks other (set_procs (<[0%nat := p]> Example.table) Example.machine)) (vk s2)) (vd s2)).
Proof.
  destruct (disk_request 0 1 write100 0 (buf1 1 sevens) true (Cpu (Some 0%nat) Example.ctx0 0 0 (csr Harts.cpu0)))
    as (s1 & kont & h & H1 & (p & Hp & _) & _ & (s2 & H2) & H3);
    [apply ready1|reflexivity|reflexivity|apply vdisk1_ready|reflexivity|reflexivity|simpl; lia|simpl; lia|].
  exists s1, kont, h, s2, p. split; [exact H1|]. split; [exact H2|]. split; [exact Hp|].
  eapply wp_mono; [apply (H3 s2 H2 1%nat (pid (nth 1 Example.table (Example.proc0 UNUSED NoChan 0))))|intros [] s3 [H _]; exact H].
  - split; [eexists; split; [reflexivity|]; simpl; repeat split; lia|]. split; [reflexivity|]. split; [reflexivity|].
    eexists _, _. split; [reflexivity|]. split; [reflexivity|]. split; reflexivity.
  - discriminate.
  - rewrite Hp. reflexivity.
Defined.
