(* ===== verification/Fs.v ===== *)
(** * The file system (kernel/fs.c)

    Blocks, inodes, directories and path names.  An inode pointer is an
    index of the inode table; a pointer to a buffer of the kernel stack is
    the list of its bytes. *)

From S2P Require Import Prelude.
From S2P Require Import Mach.
From S2P Require Import Spinlock.
From S2P Require Import Kalloc.
From S2P Require Import Vm.
From S2P Require Import Proc.
From S2P Require Import Kstate.
From S2P Require Import Printk.
From S2P Require Import Sleeplock.
From S2P Require Import Bio.
From S2P Require Import Log.

(** ** Data *)

(** The on-disk inode: 64 bytes. *)
Record dinode : Type := Dinode {
  d_type : Z; d_major : Z; d_minor : Z; d_nlink : Z;
  d_size : Z;
  d_addrs : list Z;
}.
Definition get_dinode (d : list Z) (o : nat) : dinode :=
  Dinode (i16 (le_get 2 d o)) (i16 (le_get 2 d (o + 2))) (i16 (le_get 2 d (o + 4))) (i16 (le_get 2 d (o + 6)))
    (le_get 4 d (o + 8)) ((fun j => le_get 4 d (o + 12 + 4 * j)) <$> seq 0 13).
Fixpoint put_words (l : list Z) (d : list Z) (o : nat) : list Z :=
  match l with [] => d | v :: l' => put_words l' (le_set 4 d o (u32 v)) (o + 4) end.
Definition put_dinode (x : dinode) (d : list Z) (o : nat) : list Z :=
  put_words (d_addrs x)
    (le_set 4 (le_set 2 (le_set 2 (le_set 2 (le_set 2 d o (u16 (d_type x))) (o + 2) (u16 (d_major x)))
      (o + 4) (u16 (d_minor x))) (o + 6) (u16 (d_nlink x))) (o + 8) (u32 (d_size x))) (o + 12).

(** A directory entry: 16 bytes. *)
Record dirent : Type := Dirent { de_inum : Z; de_name : list Z }.
Definition DIRENT : Z := 16.
#[export] Hint Unfold DIRENT : kconst.
Definition get_dirent (d : list Z) : dirent := Dirent (le_get 2 d 0) (take 14 (drop 2 d)).
Definition put_dirent (x : dirent) : list Z := le_set 2 [0; 0] 0 (u16 (de_inum x)) ++ de_name x.

(** Block of the inode, block of the bitmap. *)
Definition IBLOCK (i : Z) (b : superblock) : Z := u32 (i / IPB + sb_inodestart b).
Definition BBLOCK (x : Z) (b : superblock) : Z := u32 (x / BPB + sb_bmapstart b).

(** Where data is copied to or from: a user address, a kernel address, or a
    buffer on the kernel stack. *)
Inductive place : Type := User (va : Z) | Ram (pa : Z) | Local (l : list Z).

(** [bp->data[i]]. *)
Definition getdata (k : nat) (i : Z) : M kern Z :=
  let! b := getbuf k in orfault (b_data b !! Z.to_nat i).
Definition setdata (k : nat) (i v : Z) : M kern unit :=
  let! b := getbuf k in
  if (Z.to_nat i <? length (b_data b))%nat
  then updbuf k (set_b_data (<[Z.to_nat i := v]> (b_data b))) else fault.
(** [memmove(bp->data + o, src, length)]. *)
Definition splice (o : nat) (l d : list Z) : list Z := take o d ++ l ++ drop (o + length l) d.

Definition getinode (i : nat) : M kern inode := fun s => orfault (itable s !! i) s.
Definition updinode (i : nat) (f : inode -> inode) : M kern unit :=
  let! x := getinode i in modify (fun s => set_itable (<[i := f x]> (itable s)) s).
(** [ip->addrs[j]]. *)
Definition getaddr (i : nat) (j : Z) : M kern Z :=
  let! x := getinode i in orfault (i_addrs x !! Z.to_nat j).
Definition setaddr (i : nat) (j v : Z) : M kern unit :=
  updinode i (fun x => set_i_addrs (<[Z.to_nat j := v]> (i_addrs x)) x).

Definition inode_of (x : inode) : dinode :=
  Dinode (i_type x) (i_major x) (i_minor x) (i_nlink x) (i_size x) (i_addrs x).
Definition load_inode (d : dinode) (x : inode) : inode :=
  set_i_addrs (d_addrs d) (set_i_size (d_size d) (set_i_nlink (d_nlink d)
    (set_i_minor (d_minor d) (set_i_major (d_major d) (set_i_type (d_type d) x))))).
(** [(struct dinode * )bp->data + inum % IPB]. *)
Definition islot (inum : Z) : nat := Z.to_nat (64 * (inum mod IPB)).

(** [strncmp] and [strncpy] of string.c on buffers of the kernel stack; a
    list that ends is read as a string that ends. *)
Fixpoint strncmp_l (n : nat) (p q : list Z) : Z :=
  match n with
  | O => 0
  | S n' =>
    let a := default 0 (head p) in
    let b := default 0 (head q) in
    if negb (a =? 0) && (a =? b) then strncmp_l n' (tail p) (tail q) else a - b
  end.
Fixpoint strncpy_l (n : nat) (t : list Z) : list Z :=
  match n with
  | O => []
  | S n' => let c := default 0 (head t) in c :: strncpy_l n' (if c =? 0 then [] else tail t)
  end.

Definition namecmp (s t : list Z) : Z := strncmp_l (Z.to_nat DIRSIZ) s t.

(** ** Paths *)

Fixpoint skip_slashes (path : list Z) : list Z :=
  match path with c :: p => if c =? 47 then skip_slashes p else path | [] => [] end.
(** The characters up to a slash or the end, and the rest. *)
Fixpoint span_elem (path : list Z) : list Z * list Z :=
  match path with
  | c :: p => if (c =? 47) || (c =? 0) then ([], path) else let r := span_elem p in (c :: fst r, snd r)
  | [] => ([], [])
  end.
(** [name] is the buffer of DIRSIZ bytes before the call; the result is the
    new path and the buffer. *)
Definition skipelem (path name : list Z) : option (list Z * list Z) :=
  let path := skip_slashes path in
  if default 0 (head path) =? 0 then None
  else
    let s := fst (span_elem path) in
    let len := Z.of_nat (length s) in
    let name := if DIRSIZ <=? len then splice 0 (take 14 s) name else splice 0 (s ++ [0]) name in
    Some (skip_slashes (snd (span_elem path)), name).

Section Fs.
Context {L : Layout} {P : Patience} {D : DiskDriver}.

(** [proc.c]: copies to or from either kind of address; for a buffer on the
    kernel stack the bytes are the result. *)
Definition either_copyout (dst : place) (off : Z) (src : list Z) : M mach Z :=
  let! p := myproc in
  match dst with
  | User va => match p with Some i => let! q := getproc i in copyout (pagetable q) (u64 (va + off)) src | None => fault end
  | Ram pa => do! st_bytes (pa + off) src; ret 0
  | Local _ => ret 0
  end.
Definition either_copyin (src : place) (off len : Z) : M mach (Z * list Z) :=
  let! p := myproc in
  match src with
  | User va => match p with Some i => let! q := getproc i in copyin (pagetable q) (u64 (va + off)) len | None => fault end
  | Ram pa => let! l := ld_bytes (Z.to_nat len) (pa + off) in ret (0, l)
  | Local l => ret (0, take (Z.to_nat len) (drop (Z.to_nat off) l))
  end.

(** ** Blocks *)

Definition readsb (dev : Z) : M kern unit :=
  let! bp := bread dev 1 in
  let! b := getbuf bp in
  let w := fun j => le_get 4 (b_data b) (4 * j) in
  do! modify (set_sb (Superblock (w 0%nat) (w 1%nat) (w 2%nat) (w 3%nat) (w 4%nat) (w 5%nat) (w 6%nat) (w 7%nat)));
  brelse bp.

Definition bzero (dev bno : Z) : M kern unit :=
  let! bp := bread dev (u32 bno) in
  do! updbuf bp (set_b_data (replicate (Z.to_nat BSIZE) 0));
  do! log_write bp;
  brelse bp.

(** The inner loop of [balloc], over the bits of one bitmap block. *)
Definition balloc_block (dev b : Z) (bp : nat) (size : Z) : M kern (Z + Z) :=
  mwhile (Z.to_nat BPB) (fun bi => (bi <? BPB) && (u32 (b + bi) <? size)) (fun bi => bi + 1) (fun bi =>
    let m := Z.shiftl 1 (bi mod 8) in
    let! d := getdata bp (bi / 8) in
    if Z.land d m =? 0 then
      do! setdata bp (bi / 8) (Z.lor d m);
      do! log_write bp;
      do! brelse bp;
      do! bzero dev (b + bi);
      ret (Some (u32 (b + bi)))
    else ret None) 0.
Definition balloc (dev : Z) : M kern Z :=
  let! s := gets sb in
  let! r := mwhile (Z.to_nat (sb_size s / BPB + 1)) (fun b => u32 b <? sb_size s) (fun b => i32 (b + BPB)) (fun b =>
    let! bp := bread dev (BBLOCK b s) in
    let! r := balloc_block dev b bp (sb_size s) in
    match r with
    | inr x => ret (Some x)
    | inl _ => do! brelse bp; ret None
    end) 0 in
  match r with
  | inr x => ret x
  | inl _ => do! printk (str "balloc: out of blocks" ++ [10]) []; ret 0
  end.

Definition bfree (dev b : Z) : M kern unit :=
  let! s := gets sb in
  let! bp := bread dev (BBLOCK b s) in
  let bi := b mod BPB in
  let m := Z.shiftl 1 (bi mod 8) in
  let! d := getdata bp (bi / 8) in
  do! check (negb (Z.land d m =? 0)) "freeing free block";
  do! setdata bp (bi / 8) (Z.ldiff d m);
  do! log_write bp;
  brelse bp.

(** ** Inodes *)

Definition iinit : M kern unit :=
  do! mk (lk (initlock Litable));
  mloop (Z.to_nat NINODE) 0 1 (fun i => initsleeplock (inode_lock (Z.to_nat i))).

Definition iupdate (i : nat) : M kern unit :=
  let! ip := getinode i in
  let! s := gets sb in
  let! bp := bread (i_dev ip) (IBLOCK (i_inum ip) s) in
  do! updbuf bp (fun b => set_b_data (put_dinode (inode_of ip) (b_data b) (islot (i_inum ip))) b);
  do! log_write bp;
  brelse bp.

(** The scan of the inode table: the entry, or the first empty slot. *)
Fixpoint iget_scan (n : nat) (i : nat) (dev inum : Z) (empty : option nat) : M kern (option nat * option nat) :=
  match n with
  | O => ret (None, empty)
  | S n' =>
    let! ip := getinode i in
    if (0 <? i_ref ip) && (i_dev ip =? dev) && (i_inum ip =? inum) then ret (Some i, empty)
    else
      iget_scan n' (S i) dev inum
        (match empty with None => if i_ref ip =? 0 then Some i else None | Some e => Some e end)
  end.
Definition iget (dev inum : Z) : M kern nat :=
  do! mk (lk (acquire Litable));
  let! r := iget_scan (Z.to_nat NINODE) 0 dev inum None in
  match r with
  | (Some i, _) =>
    do! updinode i (fun x => set_i_ref (i32 (i_ref x + 1)) x);
    do! mk (lk (release Litable));
    ret i
  | (None, None) => panic "iget: no inodes"
  | (None, Some i) =>
    do! updinode i (set_i_dev dev);
    do! updinode i (set_i_inum inum);
    do! updinode i (set_i_ref 1);
    do! updinode i (set_i_valid false);
    do! mk (lk (release Litable));
    ret i
  end.

Definition ialloc (dev type : Z) : M kern (option nat) :=
  let! s := gets sb in
  let! r := mwhile (Z.to_nat (sb_ninodes s)) (fun inum => inum <? sb_ninodes s) (fun inum => inum + 1) (fun inum =>
    let! bp := bread dev (IBLOCK inum s) in
    let! b := getbuf bp in
    let dip := get_dinode (b_data b) (islot inum) in
    if d_type dip =? 0 then
      do! updbuf bp (fun b => set_b_data
            (put_dinode (Dinode type 0 0 0 0 (replicate 13 0)) (b_data b) (islot inum)) b);
      do! log_write bp;
      do! brelse bp;
      let! i := iget dev inum in
      ret (Some i)
    else
      do! brelse bp;
      ret None) 1 in
  match r with
  | inr i => ret (Some i)
  | inl _ => do! printk (str "ialloc: no inodes" ++ [10]) []; ret None
  end.

Definition idup (i : nat) : M kern nat :=
  do! mk (lk (acquire Litable));
  do! updinode i (fun x => set_i_ref (i32 (i_ref x + 1)) x);
  do! mk (lk (release Litable));
  ret i.

Definition ilock (i : nat) : M kern unit :=
  let! ip := getinode i in
  do! check (negb (i_ref ip <? 1)) "ilock";
  do! acquiresleep (inode_lock i);
  let! ip := getinode i in
  if negb (i_valid ip) then
    let! s := gets sb in
    let! bp := bread (i_dev ip) (IBLOCK (i_inum ip) s) in
    let! b := getbuf bp in
    do! updinode i (load_inode (get_dinode (b_data b) (islot (i_inum ip))));
    do! brelse bp;
    do! updinode i (set_i_valid true);
    let! ip := getinode i in
    check (negb (i_type ip =? 0)) "ilock: no type"
  else ret tt.

Definition iunlock (i : nat) : M kern unit :=
  let! h := holdingsleep (inode_lock i) in
  let! ip := getinode i in
  do! check (h && negb (i_ref ip <? 1)) "iunlock";
  releasesleep (inode_lock i).

(** ** Contents *)

Definition bmap (i : nat) (bn : Z) : M kern Z :=
  let! ip := getinode i in
  if bn <? NDIRECT then
    let! addr := getaddr i bn in
    if addr =? 0 then
      let! addr := balloc (i_dev ip) in
      if addr =? 0 then ret 0 else do! setaddr i bn addr; ret addr
    else ret addr
  else
    let bn := u32 (bn - NDIRECT) in
    if bn <? NINDIRECT then
      let! addr := getaddr i NDIRECT in
      let! addr := (if addr =? 0 then
                      let! addr := balloc (i_dev ip) in
                      if addr =? 0 then ret 0 else do! setaddr i NDIRECT addr; ret addr
                    else ret addr) in
      if addr =? 0 then ret 0
      else
        let! bp := bread (i_dev ip) addr in
        let! b := getbuf bp in
        let addr := le_get 4 (b_data b) (Z.to_nat (4 * bn)) in
        let! addr := (if addr =? 0 then
                        let! addr := balloc (i_dev ip) in
                        do! (if negb (addr =? 0) then
                               do! updbuf bp (fun b => set_b_data (le_set 4 (b_data b) (Z.to_nat (4 * bn)) addr) b);
                               log_write bp
                             else ret tt);
                        ret addr
                      else ret addr) in
        do! brelse bp;
        ret addr
    else panic "bmap: out of range".

Definition itrunc (i : nat) : M kern unit :=
  let! ip := getinode i in
  do! mloop (Z.to_nat NDIRECT) 0 1 (fun j =>
    let! a := getaddr i j in
    if negb (a =? 0) then do! bfree (i_dev ip) a; setaddr i j 0 else ret tt);
  let! ind := getaddr i NDIRECT in
  do! (if negb (ind =? 0) then
         let! bp := bread (i_dev ip) ind in
         do! mloop (Z.to_nat NINDIRECT) 0 1 (fun j =>
           let! b := getbuf bp in
           let a := le_get 4 (b_data b) (Z.to_nat (4 * j)) in
           if negb (a =? 0) then bfree (i_dev ip) a else ret tt);
         do! brelse bp;
         do! bfree (i_dev ip) ind;
         setaddr i NDIRECT 0
       else ret tt);
  do! updinode i (set_i_size 0);
  iupdate i.

Definition iput (i : nat) : M kern unit :=
  do! mk (lk (acquire Litable));
  let! ip := getinode i in
  do! (if (i_ref ip =? 1) && i_valid ip && (i_nlink ip =? 0) then
         do! acquiresleep (inode_lock i);
         do! mk (lk (release Litable));
         do! itrunc i;
         do! updinode i (set_i_type 0);
         do! iupdate i;
         do! updinode i (set_i_valid false);
         do! releasesleep (inode_lock i);
         mk (lk (acquire Litable))
       else ret tt);
  do! updinode i (fun x => set_i_ref (i32 (i_ref x - 1)) x);
  mk (lk (release Litable)).

Definition iunlockput (i : nat) : M kern unit := do! iunlock i; iput i.

Definition ireclaim (dev : Z) : M kern unit :=
  let! s := gets sb in
  do! mwhile (R := Empty_set) (Z.to_nat (sb_ninodes s)) (fun inum => inum <? sb_ninodes s) (fun inum => inum + 1) (fun inum =>
    let! bp := bread dev (IBLOCK inum s) in
    let! b := getbuf bp in
    let dip := get_dinode (b_data b) (islot inum) in
    let! ip := (if negb (d_type dip =? 0) && (d_nlink dip =? 0)
                then
                  do! printk (str "ireclaim: orphaned inode %d" ++ [10]) [PNum inum];
                  let! i := iget dev inum in ret (Some i)
                else ret None) in
    do! brelse bp;
    do! match ip with
        | Some i => do! begin_op; do! ilock i; do! iunlock i; do! iput i; end_op
        | None => ret tt
        end;
    ret None) 1;
  ret tt.

Definition fsinit (dev : Z) : M kern unit :=
  do! readsb dev;
  let! s := gets sb in
  do! check (sb_magic s =? FSMAGIC) "invalid file system";
  do! initlog dev;
  ireclaim dev.

(** [stati]: the fields of [struct stat], then its 24 bytes (four of them
    padding). *)
Record stat : Type := Stat { st_dev : Z; st_ino : Z; st_type : Z; st_nlink : Z; st_size : Z }.
Definition stati (i : nat) : M kern stat :=
  let! ip := getinode i in
  ret (Stat (i32 (i_dev ip)) (i_inum ip) (i_type ip) (i_nlink ip) (i_size ip)).
Definition stat_bytes (st : stat) : list Z :=
  let z := replicate 24 0 in
  le_set 8 (le_set 2 (le_set 2 (le_set 4 (le_set 4 z 0 (u32 (st_dev st))) 4 (st_ino st))
    8 (u16 (st_type st))) 10 (u16 (st_nlink st))) 16 (st_size st).

(** The loop of [readi]; [acc] is what a buffer on the kernel stack has
    received.  Every round copies a byte at least. *)
Fixpoint readi_loop (fuel : nat) (i : nat) (dst : place) (off n tot : Z) (acc : list Z) : M kern (Z * list Z) :=
  if tot <? n then
    match fuel with
    | O => fun _ => Spin
    | S f =>
      let! addr := bmap i (off / BSIZE) in
      if addr =? 0 then ret (tot, acc)
      else
        let! ip := getinode i in
        let! bp := bread (i_dev ip) addr in
        let! b := getbuf bp in
        let m := Z.min (n - tot) (BSIZE - off mod BSIZE) in
        let src := take (Z.to_nat m) (drop (Z.to_nat (off mod BSIZE)) (b_data b)) in
        let! r := mk (either_copyout dst tot src) in
        if r =? -1 then do! brelse bp; ret (-1, acc)
        else
          do! brelse bp;
          readi_loop f i dst (u32 (off + m)) n (tot + m) (acc ++ src)
    end
  else ret (tot, acc).
Definition readi (i : nat) (dst : place) (off n : Z) : M kern (Z * list Z) :=
  let! ip := getinode i in
  if (i_size ip <? off) || (u32 (off + n) <? off) then ret (0, [])
  else
    let n := if i_size ip <? u32 (off + n) then u32 (i_size ip - off) else n in
    let! r := readi_loop (Z.to_nat n) i dst off n 0 [] in
    ret (i32 (fst r), snd r).

Fixpoint writei_loop (fuel : nat) (i : nat) (src : place) (off n tot : Z) : M kern (Z * Z) :=
  if tot <? n then
    match fuel with
    | O => fun _ => Spin
    | S f =>
      let! addr := bmap i (off / BSIZE) in
      if addr =? 0 then ret (tot, off)
      else
        let! ip := getinode i in
        let! bp := bread (i_dev ip) addr in
        let m := Z.min (n - tot) (BSIZE - off mod BSIZE) in
        let! r := mk (either_copyin src tot m) in
        do! updbuf bp (fun b => set_b_data (splice (Z.to_nat (off mod BSIZE)) (snd r) (b_data b)) b);
        if fst r =? -1 then do! log_write bp; do! brelse bp; ret (tot, off)
        else
          do! log_write bp;
          do! brelse bp;
          writei_loop f i src (u32 (off + m)) n (tot + m)
    end
  else ret (tot, off).
Definition writei (i : nat) (src : place) (off n : Z) : M kern Z :=
  let! ip := getinode i in
  if (i_size ip <? off) || (u32 (off + n) <? off) then ret (-1)
  else if MAXFILE * BSIZE <? u32 (off + n) then ret (-1)
  else
    let! r := writei_loop (Z.to_nat n) i src off n 0 in
    let! ip := getinode i in
    do! (if i_size ip <? snd r then updinode i (set_i_size (snd r)) else ret tt);
    do! iupdate i;
    ret (i32 (fst r)).

(** ** Directories *)

(** The inode named [name] and the offset of its entry. *)
Fixpoint dirlookup_loop (fuel : nat) (dp : nat) (name : list Z) (off : Z) : M kern (option (nat * Z)) :=
  let! x := getinode dp in
  if off <? i_size x then
    match fuel with
    | O => fun _ => Spin
    | S f =>
      let! r := readi dp (Local []) off DIRENT in
      do! check (fst r =? DIRENT) "dirlookup read";
      let de := get_dirent (snd r) in
      if de_inum de =? 0 then dirlookup_loop f dp name (u32 (off + DIRENT))
      else if namecmp name (de_name de) =? 0 then
        let! i := iget (i_dev x) (de_inum de) in
        ret (Some (i, off))
      else dirlookup_loop f dp name (u32 (off + DIRENT))
    end
  else ret None.
Definition dirlookup (dp : nat) (name : list Z) : M kern (option (nat * Z)) :=
  let! x := getinode dp in
  do! check (i_type x =? T_DIR) "dirlookup not DIR";
  dirlookup_loop (Z.to_nat (i_size x / DIRENT + 1)) dp name 0.

(** The offset of the first free entry, or the end. *)
Fixpoint dirlink_scan (fuel : nat) (dp : nat) (off : Z) : M kern Z :=
  let! x := getinode dp in
  if u32 off <? i_size x then
    match fuel with
    | O => fun _ => Spin
    | S f =>
      let! r := readi dp (Local []) (u32 off) DIRENT in
      do! check (fst r =? DIRENT) "dirlink read";
      if de_inum (get_dirent (snd r)) =? 0 then ret off
      else dirlink_scan f dp (i32 (off + DIRENT))
    end
  else ret off.
Definition dirlink (dp : nat) (name : list Z) (inum : Z) : M kern Z :=
  let! r := dirlookup dp name in
  match r with
  | Some (i, _) => do! iput i; ret (-1)
  | None =>
    let! x := getinode dp in
    let! off := dirlink_scan (Z.to_nat (i_size x / DIRENT + 1)) dp 0 in
    let de := Dirent (u16 inum) (strncpy_l (Z.to_nat DIRSIZ) name) in
    let! n := writei dp (Local (put_dirent de)) (u32 off) DIRENT in
    if negb (n =? DIRENT) then ret (-1) else ret 0
  end.

(** ** Name lookup *)

(** The inode, and the buffer with the last element.  Every round removes
    an element of the path. *)
Fixpoint namex_loop (fuel : nat) (i : nat) (path : list Z) (nameiparent : bool) (name : list Z) : M kern (option nat * list Z) :=
  match skipelem path name with
  | None =>
    if nameiparent then do! iput i; ret (None, name) else ret (Some i, name)
  | Some (path, name) =>
    match fuel with
    | O => fun _ => Spin
    | S f =>
      do! ilock i;
      let! ip := getinode i in
      if negb (i_type ip =? T_DIR) then do! iunlockput i; ret (None, name)
      else if nameiparent && (default 0 (head path) =? 0) then do! iunlock i; ret (Some i, name)
      else
        let! next := dirlookup i name in
        match next with
        | None => do! iunlockput i; ret (None, name)
        | Some (j, _) => do! iunlockput i; namex_loop f j path nameiparent name
        end
    end
  end.
Definition namex (path : list Z) (nameiparent : bool) (name : list Z) : M kern (option nat * list Z) :=
  let! i := (if default 0 (head path) =? 47 then iget ROOTDEV ROOTINO
             else let! p := mk curproc in match cwd p with Some c => idup c | None => fault end) in
  namex_loop (length path) i path nameiparent name.
Definition namei (path : list Z) : M kern (option nat) :=
  let! r := namex path false (replicate 14 0) in ret (fst r).
Definition nameiparent (path : list Z) : M kern (option nat * list Z) := namex path true (replicate 14 0).
End Fs.
