(* ===== verification/Fsread.v ===== *)
(** * Reading the file system (kernel/fs.c)

    What the reading half of fs.c promises, in terms of the blocks as the
    cache shows them: [block_addr] is where block [bn] of a file is,
    [contents] the bytes of a file.  [readi] refines a read of [contents]. *)

From S2P Require Import Prelude.
From S2P Require Import Mach.
From S2P Require Import Spinlock.
From S2P Require Import Kalloc.
From S2P Require Import Vm.
From S2P Require Import Proc.
From S2P Require Import Kstate.
From S2P Require Import Sleeplock.
From S2P Require Import Bio.
From S2P Require Import Log.
From S2P Require Import Fs.

(** ** One block *)

(** Only the cache moved: the layers above and every block are the same. *)
Record looked (n : Z) (H Pn : list nat) (s s' : kern) : Prop := {
  lo_upper : upper s s';
  lo_dsk : dsk s' = dsk s;
  lo_inv : binv n H Pn s';
  lo_view : forall blk, bview s' blk = bview s blk;
  lo_keeps : keeps Pn s s';  (* buffers pinned by the log stay where they are *)
}.

Lemma looked_refl n H Pn s : binv n H Pn s -> looked n H Pn s s.
Proof. intros Hinv. constructor; try done. now apply keeps_same. Qed.
Lemma looked_trans n H1 H2 Pn s1 s2 s3 : looked n H1 Pn s1 s2 -> looked n H2 Pn s2 s3 -> looked n H2 Pn s1 s3.
Proof.
  intros [A1 A2 A3 A4 A5] [B1 B2 B3 B4 B5]. constructor; [now rewrite A1|congruence|done| |].
  - intros blk. now rewrite B4, A4.
  - eapply keeps_trans; eauto.
Qed.
Lemma looked_ready i n H Pn s s' : ready i n (km s) -> looked n H Pn s s' -> ready i n (km s').
Proof. intros Hr [[Hu _] _ _ _ _]. now apply (ready_calm i n (km s)). Qed.
Lemma looked_itable n H Pn s s' : looked n H Pn s s' -> itable s' = itable s.
Proof. intros [(_ & _ & _ & E & _) _ _ _ _]. exact E. Qed.

Lemma looked_calm n H Pn s m : binv n H Pn s -> calm (km s) m -> looked n H Pn s (set_km m s).
Proof. intros Hinv Hm. constructor; [now split|done|destruct Hinv; now constructor|done|now apply keeps_same]. Qed.

(** Buffer [k] holds block [blk]; unless the log has pinned it, it agrees
    with the disk. *)
Definition holding_block (s : kern) (Pn : list nat) (k : nat) (blk : Z) (d : list Z) : Prop :=
  exists b, bufs s !! k = Some b /\ b_blockno b = blk /\ b_data b = d /\
    (k ∈ Pn \/ b_data b = dread (dsk s) (b_blockno b)).

(** The buffers [B] are left alone. *)
Definition steady (B : list nat) (s s' : kern) : Prop := forall j, j ∈ B -> bufs s' !! j = bufs s !! j.
#[export] Instance steady_trans B : Transitive (steady B).
Proof. intros s1 s2 s3 H1 H2 j Hj. now rewrite H2, H1. Qed.

Section Block.
Context {P : Patience} {D : DiskDriver} {DO : DiskOk D}.
Variables (i : nat) (n : Z).
Implicit Types (s : kern) (H Pn : list nat) (blk : Z).

Lemma unpinned_clean H Pn s k b b' s' :
  binv n H Pn s -> holds n H Pn s k b b' s' -> ~ k ∈ Pn ->
  bview s (b_blockno b') = dread (dsk s) (b_blockno b').
Proof.
  intros Hinv Ho HkP. destruct (cached_dec s (b_blockno b')) as [(j & bj & Hj & Hv & Hc)|Hno]; [|now apply bview_uncached].
  pose proof (proj1 (is_block_spec _ _ _) Hc) as [Hdj Hbj].
  rewrite (bview_cached _ _ _ s j bj _ Hinv) by done. rewrite <- Hbj.
  assert (j = k) as ->.
  { destruct (ho_case _ _ _ _ _ _ _ _ Ho) as [Hk|[_ Hn]]; [|rewrite (Hn j bj Hj) in Hc; discriminate Hc].
    apply is_block_spec in Hk as [Hdk Hbk]. eapply (bi_uniq _ _ _ _ Hinv); eauto using ho_old. congruence. }
  apply (bi_clean _ _ _ _ Hinv k); auto. apply Ho.
Qed.

Lemma bread_held H Pn s blk :
  ready i n (km s) -> binv n H Pn s -> available s blk H Pn ->
  (forall k b, k ∈ H -> bufs s !! k = Some b -> b_blockno b <> blk) ->
  wp (bread ROOTDEV blk) (fun k s' => ~ k ∈ H /\ looked n (k :: H) Pn s s' /\
    holding_block s' Pn k blk (bview s blk) /\ steady H s s') s.
Proof.
  intros Hr Hinv Hav Hh. eapply wp_mono; [now apply (bread_spec i n H Pn)|].
  intros k s' (b & b' & Ho & Hb & Hd & Hu). split; [apply Ho|]. split; [|split].
  - constructor; [done|apply Ho|eapply holds_inv; eauto| |eapply keeps_holds; eauto]. intros blk'. eapply holds_view; eauto. now rewrite Hb.
  - exists b'. split; [eapply holds_at; eauto|]. split; [done|]. split; [done|].
    destruct (decide (k ∈ Pn)) as [|HkP]; [now left|right].
    rewrite Hd, (ho_dsk _ _ _ _ _ _ _ _ Ho), <- Hb. eapply unpinned_clean; eauto.
  - intros j Hj. rewrite (holds_lookup _ _ _ _ _ _ _ _ j Hinv Ho), decide_False; [done|]. intros ->. now destruct (ho_new _ _ _ _ _ _ _ _ Ho).
Qed.

Lemma brelse_held H Pn s k blk d :
  ready i n (km s) -> binv n (k :: H) Pn s -> holding_block s Pn k blk d ->
  wp (brelse k) (fun _ s' => looked n H Pn s s' /\ steady H s s') s.
Proof.
  intros Hr Hinv (b & Hb & _ & _ & Hc). eapply wp_mono; [now apply (brelse_spec i n H Pn s k b)|].
  intros [] s' (Hu & Hd & Eb & _ & Hinv' & V). split; [constructor; try done; eapply keeps_insert; eauto|].
  pose proof (bi_H _ _ _ _ Hinv) as [Hk _]%NoDup_cons. intros j Hj. rewrite Eb. apply list_lookup_insert_ne. now intros ->.
Qed.

(** Nothing held and a buffer to spare. *)
Definition calmly Pn s : Prop := ready i n (km s) /\ binv n [] Pn s /\ (length Pn < 30)%nat.

Lemma calmly_looked Pn s s' : calmly Pn s -> looked n [] Pn s s' -> calmly Pn s'.
Proof. intros (Hr & _ & Hl) Hk. split; [eapply looked_ready; eauto|]. split; [apply Hk|done]. Qed.

Lemma bread_calm Pn s blk :
  calmly Pn s -> wp (bread ROOTDEV blk) (fun k s' => looked n [k] Pn s s' /\ holding_block s' Pn k blk (bview s blk)) s.
Proof.
  intros (Hr & Hinv & Hl). eapply wp_mono; [apply (bread_held [] Pn); auto; [right; simpl; lia|apply not_held_nil]|].
  intros k s' (_ & H1 & H2 & _). done.
Qed.

Lemma brelse_calm Pn s0 s k blk d :
  calmly Pn s0 -> looked n [k] Pn s0 s -> holding_block s Pn k blk d -> wp (brelse k) (fun _ s' => looked n [] Pn s0 s') s.
Proof.
  intros (Hr & _ & _) Hk Hh. eapply wp_mono.
  - apply (brelse_held [] Pn s k blk d); [eapply looked_ready; eauto|apply Hk|done].
  - intros [] s' [H' _]. eapply looked_trans; eauto.
Qed.
End Block.

(** ** Files *)

(** The address of block [bn] of a file, 0 when it has none. *)
Definition block_addr (s : kern) (ip : inode) (bn : Z) : Z :=
  if bn <? NDIRECT then default 0 (i_addrs ip !! Z.to_nat bn)
  else
    let ind := default 0 (i_addrs ip !! Z.to_nat NDIRECT) in
    if ind =? 0 then 0 else le_get 4 (bview s ind) (Z.to_nat (4 * (bn - NDIRECT))).

(** Byte [o] of a file, the bytes from [o], all of it. *)
Definition fbyte (s : kern) (ip : inode) (o : Z) : Z :=
  default 0 (bview s (block_addr s ip (o / BSIZE)) !! Z.to_nat (o mod BSIZE)).
Definition bytes_at (s : kern) (ip : inode) (o len : Z) : list Z := fbyte s ip <$> seqZ o len.
Definition contents (s : kern) (ip : inode) : list Z := bytes_at s ip 0 (i_size ip).

(** A file without holes, within the limits of the on-disk format. *)
Record file_ok (s : kern) (ip : inode) : Prop := {
  fo_dev : i_dev ip = ROOTDEV;
  fo_addrs : length (i_addrs ip) = 13%nat;
  fo_size : 0 <= i_size ip <= MAXFILE * BSIZE;
  fo_blocks : forall bn, 0 <= bn -> bn * BSIZE < i_size ip ->
    block_addr s ip bn <> 0 /\ length (bview s (block_addr s ip bn)) = Z.to_nat BSIZE;
}.

Lemma block_addr_view s s' ip bn : (forall blk, bview s' blk = bview s blk) -> block_addr s' ip bn = block_addr s ip bn.
Proof. intros V. unfold block_addr. now rewrite V. Qed.
Lemma fbyte_view s s' ip o : (forall blk, bview s' blk = bview s blk) -> fbyte s' ip o = fbyte s ip o.
Proof. intros V. unfold fbyte. rewrite (block_addr_view s) by done. now rewrite V. Qed.
Lemma bytes_at_view s s' ip o len : (forall blk, bview s' blk = bview s blk) -> bytes_at s' ip o len = bytes_at s ip o len.
Proof. intros V. unfold bytes_at. apply list_fmap_ext. intros j x _. now apply fbyte_view. Qed.
Lemma file_ok_view s s' ip : (forall blk, bview s' blk = bview s blk) -> file_ok s ip -> file_ok s' ip.
Proof.
  intros V [A1 A2 A3 A4]. constructor; auto. intros bn H1 H2. rewrite (block_addr_view s) by done. rewrite V. auto.
Qed.

Lemma bytes_at_app s ip o l1 l2 : 0 <= l1 -> 0 <= l2 -> bytes_at s ip o (l1 + l2) = bytes_at s ip o l1 ++ bytes_at s ip (o + l1) l2.
Proof. intros. unfold bytes_at. rewrite seqZ_app by lia. apply fmap_app. Qed.
Lemma bytes_at_length s ip o len : length (bytes_at s ip o len) = Z.to_nat len.
Proof. unfold bytes_at. now rewrite length_fmap, length_seqZ. Qed.

(** Part of one block. *)
Lemma bytes_at_block s ip o m :
  0 <= o -> 0 <= m -> o mod BSIZE + m <= BSIZE -> length (bview s (block_addr s ip (o / BSIZE))) = Z.to_nat BSIZE ->
  take (Z.to_nat m) (drop (Z.to_nat (o mod BSIZE)) (bview s (block_addr s ip (o / BSIZE)))) = bytes_at s ip o m.
Proof.
  intros Ho Hm Hb Hl. assert (0 <= o mod BSIZE < BSIZE) as Hr by (apply Z.mod_pos_bound; reflexivity).
  apply list_eq_same_length with (n := Z.to_nat m); [now rewrite bytes_at_length|rewrite length_take, length_drop, Hl; lia|].
  intros j x y Hj Hx Hy. unfold bytes_at in Hy. rewrite list_lookup_fmap in Hy.
  rewrite lookup_take_lt in Hx by lia. rewrite lookup_drop in Hx.
  rewrite lookup_seqZ_lt in Hy by lia. injection Hy as <-. unfold fbyte.
  assert ((o + Z.of_nat j) / BSIZE = o / BSIZE) as ->.
  { symmetry. apply (Z.div_unique _ _ _ (o mod BSIZE + Z.of_nat j)); [left; lia|]. pose proof (Z.div_mod o BSIZE). lia. }
  assert ((o + Z.of_nat j) mod BSIZE = o mod BSIZE + Z.of_nat j) as ->.
  { symmetry. apply (Z.mod_unique _ _ (o / BSIZE)); [left; lia|]. pose proof (Z.div_mod o BSIZE). lia. }
  replace (Z.to_nat (o mod BSIZE + Z.of_nat j)) with (Z.to_nat (o mod BSIZE) + j)%nat by lia. now rewrite Hx.
Qed.

Section Read.
Context {L : Layout} {P : Patience} {D : DiskDriver} {DO : DiskOk D}.
Variables (i : nat) (n : Z).
Implicit Types (s : kern) (Pn : list nat).

Lemma wp_getinode k ip (Q : inode -> kern -> Prop) s : itable s !! k = Some ip -> Q ip s -> wp (getinode k) Q s.
Proof. intros H HQ. unfold wp, getinode, orfault. now rewrite H. Qed.
Lemma wp_getaddr k ip j a (Q : Z -> kern -> Prop) s :
  itable s !! k = Some ip -> i_addrs ip !! Z.to_nat j = Some a -> Q a s -> wp (getaddr k j) Q s.
Proof. intros H1 H2 HQ. apply wp_bind, (wp_getinode k ip); [done|]. unfold wp, orfault. now rewrite H2. Qed.

(** [bmap] of a block the file has. *)
Lemma bmap_mapped Pn s k ip bn :
  calmly i n Pn s -> itable s !! k = Some ip -> i_dev ip = ROOTDEV -> length (i_addrs ip) = 13%nat ->
  0 <= bn < MAXFILE -> block_addr s ip bn <> 0 ->
  wp (bmap k bn) (fun a s' => a = block_addr s ip bn /\ looked n [] Pn s s') s.
Proof.
  intros Hc Hip Hdev Hlen Hbn. unfold block_addr, bmap. pose proof Hc as (_ & Hinv & _).
  assert (forall j, 0 <= j < 13 -> exists a, i_addrs ip !! Z.to_nat j = Some a) as Ha.
  { intros j Hj. apply lookup_lt_is_Some_2. lia. }
  destruct (Z.ltb_spec bn NDIRECT) as [Hd|Hd].
  - destruct (Ha bn ltac:(lia)) as [a Ea]. rewrite Ea. simpl default. intros Hne.
    wsteps. apply (wp_getinode k ip); [done|]. wsteps. apply (wp_getaddr k ip bn a); [done|done|].
    destruct (Z.eqb_spec a 0); [done|]. wsteps. split; [done|]. now apply looked_refl.
  - destruct (Ha NDIRECT ltac:(lia)) as [a Ea]. rewrite Ea. simpl default.
    destruct (Z.eqb_spec a 0) as [|Hne]; [done|]. intros Hb.
    assert (MAXFILE = 268) as EM by reflexivity. change NINDIRECT with 256. rewrite (u32_small (bn - NDIRECT)) by lia.
    wsteps. apply (wp_getinode k ip); [done|]. rewrite (proj2 (Z.ltb_lt _ _)) by lia.
    wsteps. apply (wp_getaddr k ip NDIRECT a); [done|done|]. wsteps. rewrite (proj2 (Z.eqb_neq a 0)) by done. wsteps.
    rewrite (proj2 (Z.eqb_neq a 0)) by done. rewrite Hdev. wsteps.
    eapply wp_mono; [apply (bread_calm i n Pn s a Hc)|]. intros bp s1 [Hl Hh]. pose proof Hh as (b & Eb & _ & Ed & _).
    wsteps. apply (wp_getbuf bp b); [done|]. rewrite Ed, (proj2 (Z.eqb_neq _ 0)) by done. wsteps.
    eapply wp_mono; [now apply (brelse_calm i n Pn s s1 bp a (bview s a))|]. intros [] s2 Hl2. now wsteps.
Qed.

(** A copy to a buffer on the kernel stack. *)
Lemma wp_copyout_local H Pn s s0 l off src :
  ready i n (km s0) -> looked n H Pn s0 s ->
  wp (mk (either_copyout (Local l) off src)) (fun r s' => r = 0 /\ bufs s' = bufs s /\ dsk s' = dsk s /\ looked n H Pn s0 s') s.
Proof.
  intros Hr Hl. pose proof (looked_ready i n _ _ _ _ Hr Hl) as (Hok & _ & _ & c & _ & Hc & _).
  apply wp_mk. unfold either_copyout. wsteps. apply (wp_myproc 3 c); [done|lia|done|]. intros K HK. wsteps.
  split; [done|]. split; [done|]. split; [done|]. eapply looked_trans; [exact Hl|]. apply looked_calm; [apply Hl|now apply calm_lks].
Qed.

Lemma readi_loop_spec Pn k ip l fuel : forall s0 s off cnt tot acc,
  calmly i n Pn s0 -> looked n [] Pn s0 s -> itable s !! k = Some ip -> file_ok s0 ip ->
  0 <= off -> 0 <= tot <= cnt -> cnt - tot <= Z.of_nat fuel -> off + (cnt - tot) <= i_size ip ->
  wp (readi_loop fuel k (Local l) off cnt tot acc) (fun r s' =>
    r = (cnt, acc ++ bytes_at s0 ip off (cnt - tot)) /\ looked n [] Pn s0 s') s.
Proof.
  induction fuel as [|fuel IH]; intros s0 s off cnt tot acc Hc Hl Hip Hf Hoff Htot Hfuel Hsize.
  - assert (tot = cnt) as -> by lia. simpl. rewrite Z.ltb_irrefl. apply wp_ret. rewrite Z.sub_diag. now rewrite app_nil_r.
  - simpl. destruct (Z.ltb_spec tot cnt) as [Hlt|Hge].
    2: { assert (tot = cnt) as -> by lia. apply wp_ret. rewrite Z.sub_diag. now rewrite app_nil_r. }
    pose proof (fo_size _ _ Hf) as Hs. assert (MAXFILE = 268) as EM by reflexivity.
    assert (0 <= off mod BSIZE < BSIZE) as Hmod by (apply Z.mod_pos_bound; reflexivity).
    pose proof (Z.div_mod off BSIZE ltac:(discriminate)) as Hdm.
    assert (0 <= off / BSIZE) as Hbn by (apply Z.div_pos; lia).
    destruct (fo_blocks _ _ Hf (off / BSIZE) Hbn ltac:(lia)) as [Hne Hlen].
    assert (block_addr s ip (off / BSIZE) = block_addr s0 ip (off / BSIZE)) as Eb by (apply block_addr_view, Hl).
    wsteps. eapply wp_mono.
    { apply (bmap_mapped Pn s k ip); [eapply calmly_looked; eauto|done|apply Hf|apply Hf|lia|now rewrite Eb]. }
    intros a s1 [-> Hl1]. rewrite Eb. destruct (Z.eqb_spec (block_addr s0 ip (off / BSIZE)) 0) as [|_]; [done|].
    pose proof (looked_trans _ _ _ _ _ _ _ Hl Hl1) as Hl01. pose proof (calmly_looked i n _ _ _ Hc Hl01) as Hc1.
    wsteps. apply (wp_getinode k ip); [now rewrite (looked_itable _ _ _ _ _ Hl1)|]. rewrite (fo_dev _ _ Hf). wsteps.
    eapply wp_mono; [apply (bread_calm i n Pn s1 _ Hc1)|]. intros bp s2 [Hl2 Hh].
    pose proof Hh as (b & Hb & Hbk & Hd & Hcl). rewrite (lo_view _ _ _ _ _ Hl01) in Hd.
    wsteps. apply (wp_getbuf bp b); [done|]. wsteps.
    eapply wp_mono; [eapply (wp_copyout_local [bp] Pn s2 s1); [apply Hc1|done]|].
    intros r s3 (-> & Eb3 & Ed3 & Hl3). rewrite (proj2 (Z.eqb_neq 0 (-1))) by lia. wsteps.
    eapply wp_mono; [eapply (brelse_calm i n Pn s1 s3 bp _ (b_data b)); [done|done|]; exists b; rewrite Eb3, Ed3; eauto|].
    intros [] s4 Hl4. set (m := Z.min (cnt - tot) (BSIZE - off mod BSIZE)). rewrite u32_small by lia.
    eapply wp_mono.
    { apply (IH s0 s4 (off + m) cnt (tot + m)); [done|eapply looked_trans; eauto| |done|lia..].
      now rewrite (looked_itable _ _ _ _ _ Hl4), (looked_itable _ _ _ _ _ Hl1). }
    intros r s5 [-> Hl5]. split; [|done]. f_equal. rewrite Hd, bytes_at_block by (done || lia).
    replace (cnt - tot) with (m + (cnt - (tot + m))) by lia. rewrite bytes_at_app by lia. now rewrite app_assoc.
Qed.

Lemma readi_spec Pn s k ip l off cnt :
  calmly i n Pn s -> itable s !! k = Some ip -> file_ok s ip -> 0 <= off < 4294967296 -> 0 <= cnt < 4294967296 ->
  wp (readi k (Local l) off cnt) (fun r s' => looked n [] Pn s s' /\
    r = (if (i_size ip <? off) || (4294967296 <=? off + cnt) then (0, [])
         else (Z.min cnt (i_size ip - off), bytes_at s ip off (Z.min cnt (i_size ip - off))))) s.
Proof.
  intros Hc Hip Hf Hoff Hcnt. pose proof (fo_size _ _ Hf) as Hs. assert (MAXFILE = 268) as EM by reflexivity.
  unfold readi. wsteps. apply (wp_getinode k ip); [done|].
  assert ((u32 (off + cnt) <? off) = (4294967296 <=? off + cnt)) as ->.
  { destruct (Z.leb_spec 4294967296 (off + cnt)) as [Hb|Hb].
    - apply Z.ltb_lt. unfold u32. replace (off + cnt) with (off + cnt - 4294967296 + 1 * 4294967296) by lia.
      rewrite Z.mod_add, Z.mod_small by lia. lia.
    - apply Z.ltb_ge. rewrite u32_small by lia. lia. }
  destruct (Z.ltb_spec (i_size ip) off) as [Hlt|Hge]; simpl orb; cbv iota; [wsteps; split; [apply looked_refl, Hc|done]|].
  destruct (Z.leb_spec 4294967296 (off + cnt)) as [Hb|Hb]; [wsteps; split; [apply looked_refl, Hc|done]|].
  rewrite u32_small by lia. set (c := if i_size ip <? off + cnt then u32 (i_size ip - off) else cnt).
  assert (c = Z.min cnt (i_size ip - off)) as ->.
  { unfold c. destruct (Z.ltb_spec (i_size ip) (off + cnt)); [rewrite u32_small|]; lia. }
  wsteps. eapply wp_mono; [apply (readi_loop_spec Pn k ip l _ s s); auto; [apply looked_refl, Hc|lia..]|].
  intros r s' [-> Hl]. wsteps. split; [done|]. simpl. rewrite Z.sub_0_r, i32_small by lia. done.
Qed.

Lemma take_drop_seqZ {A : Type} (f : Z -> A) size off c : 0 <= off -> 0 <= c ->
  take (Z.to_nat c) (drop (Z.to_nat off) (f <$> seqZ 0 size)) = f <$> seqZ off (Z.min c (Z.max 0 (size - off))).
Proof.
  intros Ho Hc. apply list_eq. intros j. rewrite list_lookup_fmap.
  destruct (decide (Z.of_nat j < Z.min c (Z.max 0 (size - off)))) as [Hj|Hj].
  - rewrite lookup_take_lt, lookup_drop, list_lookup_fmap by lia. rewrite !lookup_seqZ_lt by lia. simpl. do 2 f_equal. lia.
  - rewrite (lookup_seqZ_ge off) by lia. destruct (decide (j < Z.to_nat c)%nat) as [Hc'|Hc'].
    + rewrite lookup_take_lt, lookup_drop, list_lookup_fmap, lookup_seqZ_ge by lia. done.
    + rewrite lookup_take_ge by lia. done.
Qed.

(** C8: [readi] reads the file.  For a file without holes, a read of [cnt]
    bytes at [off] into a kernel buffer returns the bytes of the file's
    contents from [off], as many as there are up to [cnt], and their number;
    a read that starts beyond the end, or whose end overflows 32 bits,
    returns nothing.  The contents are those of the direct and the indirect
    blocks as the cache shows them; the inode, the disk and every block are
    as before, and no buffer stays held. *)
Theorem readi_refines Pn s k ip l off cnt :
  calmly i n Pn s -> itable s !! k = Some ip -> file_ok s ip -> 0 <= off < 4294967296 -> 0 <= cnt < 4294967296 ->
  wp (readi k (Local l) off cnt) (fun r s' => looked n [] Pn s s' /\
    snd r = (if off + cnt <? 4294967296 then take (Z.to_nat cnt) (drop (Z.to_nat off) (contents s ip)) else []) /\
    fst r = Z.of_nat (length (snd r))) s.
Proof.
  intros Hc Hip Hf Hoff Hcnt. pose proof (fo_size _ _ Hf) as Hs. eapply wp_mono; [now apply (readi_spec Pn s k ip)|].
  intros r s' [Hl ->]. split; [done|]. unfold contents, bytes_at. rewrite take_drop_seqZ by lia.
  destruct (Z.ltb_spec (i_size ip) off), (Z.leb_spec 4294967296 (off + cnt)), (Z.ltb_spec (off + cnt) 4294967296); try lia; simpl; auto.
  - rewrite Z.min_r, Z.max_l by lia. done.
  - rewrite (Z.max_r 0) by lia. split; [done|]. rewrite length_fmap, length_seqZ. lia.
Qed.
End Read.
