(* ===== verification/Dir.v ===== *)
(** * The inode table, directories and path names (kernel/fs.c)

    [iinv] is the well-formedness of the inode table: one entry per inode.
    A directory is the list of its [entries]; [dirlookup] finds the first
    one with the name.  Paths are split into their elements ([elems]). *)

From S2P Require Import Prelude.
From S2P Require Import Kstring.
From S2P Require Import Mach.
From S2P Require Import Spinlock.
From S2P Require Import Kalloc.
From S2P Require Import Vm.
From S2P Require Import Proc.
From S2P Require Import Kstate.
From S2P Require Import Printk.
From S2P Require Import Sleeplock.
From S2P Require Import Bio.
From S2P Require Import Log.
From S2P Require Import Fs.
From S2P Require Import Fsread.
From Stdlib Require Import FunctionalExtensionality.

(** ** The inode table *)

(** The entry is in use for inode [inum] of [dev]. *)
Definition entry_for (dev inum : Z) (ip : inode) : Prop := 0 < i_ref ip /\ i_dev ip = dev /\ i_inum ip = inum.
#[export] Instance entry_for_dec dev inum ip : Decision (entry_for dev inum ip).
Proof. unfold entry_for. apply _. Defined.

(** Fifty entries, reference counts that fit an [int], and at most one
    entry in use per inode. *)
Record iinv (t : list inode) : Prop := {
  ii_len : length t = Z.to_nat NINODE;
  ii_ref : forall k ip, t !! k = Some ip -> 0 <= i_ref ip < 2147483648;
  ii_uniq : forall j k x y dev inum, t !! j = Some x -> t !! k = Some y ->
    entry_for dev inum x -> entry_for dev inum y -> j = k;
}.

(** What [iget] does to the table: one more reference to the entry of the
    inode, or a fresh entry in the first unused slot. *)
Definition iget_table (dev inum : Z) (t : list inode) (k : nat) (t' : list inode) : Prop :=
  exists ip ip', t !! k = Some ip /\ t' = <[k := ip']> t /\
    ((entry_for dev inum ip /\ ip' = set_i_ref (i_ref ip + 1) ip) \/
     (Forall (fun x => ~ entry_for dev inum x) t /\ i_ref ip = 0 /\ Forall (fun x => i_ref x <> 0) (take k t) /\
      ip' = set_i_valid false (set_i_ref 1 (set_i_inum inum (set_i_dev dev ip))))).

(** [iget] finds an entry, or a slot for one, without overflow. *)
Definition iget_ok (dev inum : Z) (t : list inode) : Prop :=
  Exists (fun x => entry_for dev inum x \/ i_ref x = 0) t /\
  Forall (fun x => entry_for dev inum x -> i_ref x + 1 < 2147483648) t.

Lemma iget_table_inv dev inum t k t' : iinv t -> iget_ok dev inum t -> iget_table dev inum t k t' -> iinv t'.
Proof.
  intros [A1 A2 A3] [_ Hov] (ip & ip' & Hk & -> & Hc). pose proof (lookup_lt_Some _ _ _ Hk) as Hlt.
  rewrite Forall_lookup in Hov. pose proof (A2 k ip Hk).
  assert (forall j x, <[k := ip']> t !! j = Some x -> (j = k /\ x = ip') \/ (j <> k /\ t !! j = Some x)) as Hl.
  { intros j x. destruct (decide (j = k)) as [->|Hne]; [rewrite list_lookup_insert_eq by done; intros [= <-]; auto|].
    rewrite list_lookup_insert_ne by done. auto. }
  assert (forall d m, entry_for d m ip' -> (entry_for d m ip \/ ((d, m) = (dev, inum) /\ Forall (fun x => ~ entry_for dev inum x) t))) as He.
  { intros d m (H1 & H2 & H3). destruct Hc as [[(E1 & E2 & E3) ->]|(Hn & _ & _ & ->)]; simpl in *; subst; [left; done|right; done]. }
  constructor.
  - now rewrite length_insert.
  - intros j x Hj. apply Hl in Hj as [[-> ->]|[_ Hj]]; [|now apply (A2 j)].
    destruct Hc as [[E ->]|(_ & _ & _ & ->)]; simpl; [specialize (Hov k ip Hk E)|]; lia.
  - assert (forall j x d m, j <> k -> t !! j = Some x -> entry_for d m x -> ~ entry_for d m ip') as Hno.
    { intros j x d m Hne Hj Hx Hi. apply He in Hi as [Hi|[[= -> ->] Hn]].
      - now apply Hne, (A3 j k x ip d m).
      - rewrite Forall_lookup in Hn. now apply (Hn j x). }
    intros j1 j2 x y d m H1 H2 X Y. apply Hl in H1 as [[-> ->]|[N1 H1]], H2 as [[-> ->]|[N2 H2]]; [done|..].
    + exfalso. now apply (Hno j2 y d m).
    + exfalso. now apply (Hno j1 x d m).
    + now apply (A3 j1 j2 x y d m).
Qed.

Section Iget.
Context {L : Layout} {P : Patience} {D : DiskDriver} {DO : DiskOk D}.
Variables (i : nat) (n : Z).
Implicit Types (s : kern).

(** The first slot with no references among the first [k]. *)
Definition first_empty (k : nat) (t : list inode) : option nat :=
  fst <$> list_find (fun x => i_ref x = 0) (take k t).

Lemma first_empty_S k t ip : t !! k = Some ip ->
  first_empty (S k) t = match first_empty k t with Some e => Some e | None => if i_ref ip =? 0 then Some k else None end.
Proof.
  intros Hk. unfold first_empty. rewrite (take_S_r _ _ _ Hk).
  destruct (list_find _ (take k t)) as [[e x]|] eqn:E.
  - rewrite (list_find_app_l _ _ _ _ _ E). done.
  - rewrite list_find_app_r by done. simpl. pose proof (lookup_lt_Some _ _ _ Hk). rewrite length_take, Nat.min_l by lia.
    destruct (decide (i_ref ip = 0)) as [Hr|Hr]; [rewrite Hr; simpl; f_equal; lia|].
    now rewrite (proj2 (Z.eqb_neq _ _)).
Qed.

Lemma iget_scan_spec dev inum s f : forall k, (k + f = length (itable s))%nat ->
  (forall j x, (j < k)%nat -> itable s !! j = Some x -> ~ entry_for dev inum x) ->
  wp (iget_scan f k dev inum (first_empty k (itable s))) (fun r s' => s' = s /\
    match fst r with
    | Some j => exists ip, itable s !! j = Some ip /\ entry_for dev inum ip
    | None => Forall (fun x => ~ entry_for dev inum x) (itable s) /\ snd r = first_empty (length (itable s)) (itable s)
    end) s.
Proof.
  induction f as [|f IH]; intros k Hk Hno; simpl.
  - wsteps. split; [done|]. simpl. rewrite Nat.add_0_r in Hk. split; [|now rewrite Hk].
    apply Forall_lookup. intros j x Hj. apply (Hno j x); [|done]. pose proof (lookup_lt_Some _ _ _ Hj). lia.
  - destruct (lookup_lt_is_Some_2 (itable s) k ltac:(lia)) as [ip Hip]. wsteps. apply (wp_getinode k ip); [done|].
    destruct (decide (entry_for dev inum ip)) as [He|He].
    + pose proof He as (H1 & H2 & H3). rewrite (proj2 (Z.ltb_lt _ _)), !(proj2 (Z.eqb_eq _ _)) by done. simpl.
      wsteps. split; [done|]. simpl. eauto.
    + assert ((0 <? i_ref ip) && (i_dev ip =? dev) && (i_inum ip =? inum) = false) as ->.
      { apply not_true_iff_false. rewrite !andb_true_iff, Z.ltb_lt, !Z.eqb_eq. unfold entry_for in He. tauto. }
      rewrite <- (first_empty_S k (itable s) ip Hip). apply (IH (S k)); [lia|]. intros j x Hj Hx.
      destruct (decide (j = k)) as [->|]; [congruence|]. apply (Hno j x); [lia|done].
Qed.

Lemma wp_updinode k f ip (Q : unit -> kern -> Prop) s :
  itable s !! k = Some ip -> Q tt (set_itable (<[k := f ip]> (itable s)) s) -> wp (updinode k f) Q s.
Proof. intros H HQ. apply wp_bind, (wp_getinode k ip); [done|]. now apply wp_modify. Qed.

Lemma iget_spec dev inum s :
  ready i n (km s) -> iinv (itable s) -> iget_ok dev inum (itable s) ->
  wp (iget dev inum) (fun k s' => exists m t', calm (km s) m /\ s' = set_km m (set_itable t' s) /\
    iget_table dev inum (itable s) k t') s.
Proof.
  intros Hr Hi [Hex Hov]. pose proof Hr as (Hok & _ & Hfree & _). unfold iget. wsteps. apply wp_mk.
  apply (wp_acquire _ 3); [done|lia|apply Hfree|]. intros K1 HokK1 Ha. wsteps.
  set (s1 := set_km (set_lks K1 (km s)) s). change (@None nat) with (first_empty 0 (itable s1)).
  eapply wp_mono; [apply (iget_scan_spec dev inum s1 _ 0); [symmetry; apply Hi|intros; lia]|].
  intros [[k|] e] s2 [-> Hk]; simpl in Hk.
  - destruct Hk as (ip & Hip & He). wsteps. apply (wp_updinode k _ ip); [done|]. wsteps. apply wp_mk.
    eapply (wp_release _ 3 (lks (km s)) K1); [done|lia|apply Hfree|done|reflexivity|]. intros K2 HK2. wsteps.
    eexists (set_lks K2 (km s)), _. split; [now apply calm_lks|]. split; [reflexivity|].
    exists ip, (set_i_ref (i_ref ip + 1) ip). split; [done|]. rewrite Forall_lookup in Hov.
    pose proof (ii_ref _ Hi k ip Hip). pose proof (Hov k ip Hip He). rewrite i32_small by lia. auto.
  - destruct Hk as [Hn ->]. destruct (first_empty (length (itable s)) (itable s)) as [k|] eqn:E; unfold first_empty in E; rewrite take_ge in E by lia.
    + apply fmap_Some in E as ([k' ip] & E & ->). apply list_find_Some in E as (Hip & Hz & Hfst). simpl.
      pose proof (lookup_lt_Some _ _ _ Hip) as Hlt. simpl in Hlt.
      wsteps. apply (wp_updinode k' _ ip); [done|]. wsteps.
      do 3 (eapply wp_updinode; [simpl; now rewrite list_lookup_insert_eq|]; simpl; rewrite list_insert_insert_eq; wsteps).
      apply wp_mk. eapply (wp_release _ 3 (lks (km s)) K1); [done|lia|apply Hfree|done|reflexivity|]. intros K2 HK2. wsteps.
      eexists (set_lks K2 (km s)), _. split; [now apply calm_lks|]. split; [reflexivity|].
      exists ip. eexists. split; [done|]. split; [reflexivity|]. right. split; [done|]. split; [done|]. split; [|done].
      apply Forall_lookup. intros j x Hj. apply lookup_take_Some in Hj as [Hj Hlt']. now apply (Hfst j x).
    + exfalso. apply fmap_None, list_find_None in E. apply Exists_exists in Hex as (x & Hx & Hc).
      apply list_elem_of_lookup in Hx as [j Hx]. rewrite Forall_lookup in Hn, E. destruct Hc as [Hc|Hc]; [now apply (Hn j x)|now apply (E j x)].
Qed.

(** C32: the inode table stays well formed.  [iget] of an inode returns the
    index of its only entry in the table: the one that was in use, with one
    more reference, or the first unused slot, now for this inode, with one
    reference and not yet read from disk; nothing else changes, and at most
    one entry is in use per inode again. *)
Theorem iget_correct dev inum s :
  ready i n (km s) -> iinv (itable s) -> iget_ok dev inum (itable s) ->
  wp (iget dev inum) (fun k s' => iget_table dev inum (itable s) k (itable s') /\ iinv (itable s') /\
    (exists ip, itable s' !! k = Some ip /\ entry_for dev inum ip) /\
    calm (km s) (km s') /\ s' = set_km (km s') (set_itable (itable s') s)) s.
Proof.
  intros Hr Hi Hok. eapply wp_mono; [now apply iget_spec|]. intros k s' (m & t' & Hm & -> & Ht). simpl.
  split; [done|]. split; [now apply (iget_table_inv dev inum (itable s) k)|]. split; [|done].
  destruct Ht as (ip & ip' & Hk & -> & Hc). exists ip'. split; [apply list_lookup_insert_eq; now apply lookup_lt_Some in Hk|].
  destruct Hc as [[(H1 & H2 & H3) ->]|(_ & _ & _ & ->)]; unfold entry_for; simpl; split; try done; lia.
Qed.
End Iget.

(** ** Names *)

(** A name as a directory entry stores it: up to a NUL or [DIRSIZ] bytes. *)
Definition name_of (l : list Z) : list Z := cstr (take (Z.to_nat DIRSIZ) l).

Lemma strncmp_l_eq n p q : strncmp_l n p q = 0 <-> cstr (take n p) = cstr (take n q).
Proof.
  revert p q. induction n as [|n IH]; intros p q; [done|]. simpl.
  assert (forall l : list Z, cstr (take (S n) l) =
    if default 0 (head l) =? 0 then [] else default 0 (head l) :: cstr (take n (tail l))) as E.
  { intros [|x l]; simpl; [done|]. now destruct (x =? 0). }
  change (strncmp_l (S n) p q = 0 <-> cstr (take (S n) p) = cstr (take (S n) q)). rewrite (E p), (E q). simpl.
  set (a := default 0 (head p)). set (b := default 0 (head q)).
  destruct (Z.eqb_spec a 0) as [Ha|Ha]; simpl.
  - rewrite Ha. destruct (Z.eqb_spec b 0) as [Hb|Hb]; [rewrite Hb; tauto|]. split; [lia|discriminate].
  - destruct (Z.eqb_spec a b) as [Hab|Hab].
    + rewrite <- Hab. rewrite (proj2 (Z.eqb_neq a 0)) by done. rewrite IH. split; [intros ->; done|intros E2; now injection E2].
    + split; [intros E2; lia|]. destruct (Z.eqb_spec b 0); [discriminate|]. intros E2. injection E2. done.
Qed.

Lemma cstr_cut n l : cstr (take n (strncpy_l n l)) = cstr (take n l).
Proof.
  revert l. induction n as [|n IH]; intros l; [done|]. simpl. destruct l as [|x l]; simpl; [done|].
  destruct (Z.eqb_spec x 0); [done|]. now rewrite IH.
Qed.
Lemma strncpy_l_length n l : length (strncpy_l n l) = n.
Proof. revert l. induction n; intros l; simpl; auto. Qed.

(** [namecmp] is equality of names.  The byte-by-byte comparison of fs.c
    returns 0 exactly when the two arguments, cut at the first NUL and at
    [DIRSIZ] bytes, are the same string; and the entry [dirlink] stores for a
    name compares equal to another name exactly when the names are equal in
    this sense, so that no stored name is mistaken for another. *)
Theorem namecmp_equivalent s t :
  (namecmp s t = 0 <-> name_of s = name_of t) /\
  (forall inum, namecmp s (de_name (get_dirent (put_dirent (Dirent inum (strncpy_l (Z.to_nat DIRSIZ) t))))) = 0 <->
     name_of s = name_of t).
Proof.
  split; [apply strncmp_l_eq|]. intros inum.
  assert (de_name (get_dirent (put_dirent (Dirent inum (strncpy_l (Z.to_nat DIRSIZ) t)))) = strncpy_l (Z.to_nat DIRSIZ) t) as ->.
  { unfold get_dirent, put_dirent. cbn [de_name]. rewrite drop_app_length' by (now rewrite le_set_length).
    apply take_ge. rewrite strncpy_l_length. lia. }
  unfold namecmp, name_of. rewrite strncmp_l_eq. now rewrite cstr_cut.
Qed.

(** ** Directories *)


Definition entry_at (s : kern) (ip : inode) (j : nat) : dirent := get_dirent (bytes_at s ip (16 * Z.of_nat j) 16).
Definition entries (s : kern) (ip : inode) : list dirent := entry_at s ip <$> seq 0 (Z.to_nat (i_size ip / 16)).
Definition named (name : list Z) (de : dirent) : Prop := de_inum de <> 0 /\ name_of name = name_of (de_name de).
#[export] Instance named_dec name de : Decision (named name de).
Proof. unfold named. apply _. Defined.

(** A directory: a file of whole entries. *)
Record dir_ok (s : kern) (ip : inode) : Prop := {
  do_file : file_ok s ip;
  do_type : i_type ip = T_DIR;
  do_size : i_size ip mod 16 = 0;
}.

Lemma entries_length s ip : length (entries s ip) = Z.to_nat (i_size ip / 16).
Proof. unfold entries. now rewrite length_fmap, length_seq. Qed.
Lemma entries_lookup s ip j : (j < Z.to_nat (i_size ip / 16))%nat -> entries s ip !! j = Some (entry_at s ip j).
Proof. intros Hj. unfold entries. rewrite list_lookup_fmap, lookup_seq_lt by done. done. Qed.

Section Dirlookup.
Context {L : Layout} {P : Patience} {D : DiskDriver} {DO : DiskOk D}.
Variables (i : nat) (n : Z).
Implicit Types (s : kern) (Pn : list nat).

(** The entry found, with a reference to its inode. *)
Definition looked_up Pn s (j : nat) (de : dirent) (r : option (nat * Z)) s' : Prop :=
  exists k s1 m t', r = Some (k, 16 * Z.of_nat j) /\ looked n [] Pn s s1 /\ calm (km s1) m /\
    s' = set_km m (set_itable t' s1) /\ iget_table ROOTDEV (de_inum de) (itable s) k t'.

Lemma dirlookup_loop_spec Pn s0 dp ip name fuel : forall s j,
  calmly i n Pn s0 -> looked n [] Pn s0 s -> itable s0 !! dp = Some ip -> dir_ok s0 ip -> iinv (itable s0) ->
  (forall de, de ∈ entries s0 ip -> iget_ok ROOTDEV (de_inum de) (itable s0)) ->
  (j <= Z.to_nat (i_size ip / 16))%nat -> (Z.to_nat (i_size ip / 16) - j <= fuel)%nat ->
  wp (dirlookup_loop fuel dp name (16 * Z.of_nat j)) (fun r s' =>
    match list_find (named name) (drop j (entries s0 ip)) with
    | Some (d, de) => looked_up Pn s0 (j + d) de r s'
    | None => r = None /\ looked n [] Pn s0 s'
    end) s.
Proof.
  induction fuel as [|fuel IH]; intros s j Hc Hl Hip Hd Hi Hg Hj Hf.
  all: pose proof (do_size _ _ Hd) as Hm; pose proof (Z.div_mod (i_size ip) 16 ltac:(lia)) as Hdm.
  all: pose proof (fo_size _ _ (do_file _ _ Hd)) as Hs; assert (MAXFILE = 268) as EM by reflexivity.
  all: cbn [dirlookup_loop]; wsteps; apply (wp_getinode dp ip); [now rewrite (looked_itable _ _ _ _ _ Hl)|].
  1: { assert (i_size ip <= 16 * Z.of_nat j) by lia. rewrite (proj2 (Z.ltb_ge _ _)) by lia. wsteps.
       rewrite drop_ge by (rewrite entries_length; lia). simpl. done. }
  destruct (Z.ltb_spec (16 * Z.of_nat j) (i_size ip)) as [Hlt|Hge].
  2: { wsteps. rewrite drop_ge by (rewrite entries_length; lia). simpl. done. }
  assert (j < Z.to_nat (i_size ip / 16))%nat as Hjlt by lia. pose proof (entries_lookup s0 ip j Hjlt) as He.
  rewrite (drop_S _ _ _ He). simpl list_find. wsteps. eapply wp_mono.
  { apply (readi_spec i n Pn s dp ip); [eapply calmly_looked; eauto|now rewrite (looked_itable _ _ _ _ _ Hl)| |lia..].
    eapply file_ok_view; [apply Hl|apply Hd]. }
  intros r s1 [Hl1 ->]. change DIRENT with 16.
  rewrite (proj2 (Z.ltb_ge (i_size ip) (16 * Z.of_nat j))) by lia.
  rewrite (proj2 (Z.leb_gt 4294967296 (16 * Z.of_nat j + 16))) by lia. simpl orb. cbv iota.
  rewrite Z.min_l by lia. simpl fst. simpl snd. wsteps. { reflexivity. }
  rewrite (bytes_at_view s0) by apply Hl. fold (entry_at s0 ip j). pose proof (looked_trans _ _ _ _ _ _ _ Hl Hl1) as Hl01.
  assert (~ named name (entry_at s0 ip j) ->
    wp (dirlookup_loop fuel dp name (u32 (16 * Z.of_nat j + 16))) (fun r s' =>
      match (prod_map S id) <$> list_find (named name) (drop (S j) (entries s0 ip)) with
      | Some (d, de) => looked_up Pn s0 (j + d) de r s'
      | None => r = None /\ looked n [] Pn s0 s'
      end) s1) as Hnext.
  { intros _. rewrite u32_small by lia. replace (16 * Z.of_nat j + 16) with (16 * Z.of_nat (S j)) by lia.
    eapply wp_mono; [apply (IH s1 (S j)); auto; lia|]. intros r s2.
    destruct (list_find _ (drop (S j) (entries s0 ip))) as [[d de]|]; simpl; [|done].
    now replace (j + S d)%nat with (S j + d)%nat by lia. }
  destruct (Z.eqb_spec (de_inum (entry_at s0 ip j)) 0) as [Hz|Hz].
  { rewrite decide_False by (intros [? _]; done). apply Hnext. intros [? _]. done. }
  destruct (Z.eqb_spec (namecmp name (de_name (entry_at s0 ip j))) 0) as [Hn|Hn].
  - apply strncmp_l_eq in Hn. rewrite decide_True by done. wsteps. rewrite (fo_dev _ _ (do_file _ _ Hd)).
    pose proof (looked_itable _ _ _ _ _ Hl01) as Et. eapply wp_mono.
    { apply (iget_spec i n); [eapply looked_ready; eauto; apply Hc|now rewrite Et|rewrite Et; apply Hg].
      now apply list_elem_of_lookup_2 in He. }
    intros k s2 (m & t' & Hm2 & -> & Ht). wsteps. exists k, s1, m, t'. rewrite Nat.add_0_r. rewrite <- Et. done.
  - rewrite decide_False by (intros [_ ?]; apply Hn; now apply strncmp_l_eq). apply Hnext. intros [_ ?]. apply Hn. now apply strncmp_l_eq.
Qed.

(** [dirlookup] finds the first entry with the name.  In a well-formed
    directory it returns the inode of the first entry that is in use and has
    the name (up to a NUL and [DIRSIZ] bytes), with one more reference in the
    inode table, and the offset of that entry; without such an entry it
    returns nothing.  It never panics, and neither the disk nor any block
    nor the rest of the table changes. *)
Theorem dirlookup_spec Pn s dp ip name :
  calmly i n Pn s -> itable s !! dp = Some ip -> dir_ok s ip -> iinv (itable s) ->
  (forall de, de ∈ entries s ip -> iget_ok ROOTDEV (de_inum de) (itable s)) ->
  wp (dirlookup dp name) (fun r s' =>
    match list_find (named name) (entries s ip) with
    | Some (j, de) => looked_up Pn s j de r s'
    | None => r = None /\ looked n [] Pn s s'
    end) s.
Proof.
  intros Hc Hip Hd Hi Hg. pose proof (fo_size _ _ (do_file _ _ Hd)) as Hs.
  pose proof (Z.div_pos (i_size ip) 16 ltac:(lia) ltac:(lia)). unfold dirlookup. wsteps. apply (wp_getinode dp ip); [done|]. wsteps.
  { rewrite (do_type _ _ Hd). reflexivity. }
  change 0 with (16 * Z.of_nat 0). change (entries s ip) with (drop 0 (entries s ip)).
  apply (dirlookup_loop_spec Pn s dp ip name); auto; [apply looked_refl, Hc|lia|]. change DIRENT with 16. lia.
Qed.

End Dirlookup.

(** ** Paths *)

(** The elements of a path: the non-empty pieces between slashes, up to a
    NUL.  [cur] is the piece read so far. *)
Definition piece (cur : list Z) : list (list Z) := match cur with [] => [] | _ => [cur] end.
Fixpoint split (path cur : list Z) : list (list Z) :=
  match path with
  | [] => piece cur
  | c :: p => if c =? 0 then piece cur else if c =? 47 then piece cur ++ split p [] else split p (cur ++ [c])
  end.
Definition elems (path : list Z) : list (list Z) := split path [].

Lemma elems_skip path : elems (skip_slashes path) = elems path.
Proof.
  unfold elems. induction path as [|c p IH]; [done|]. simpl. destruct (Z.eqb_spec c 47) as [->|Hc]; [|simpl; now rewrite (proj2 (Z.eqb_neq c 47))].
  change (47 =? 0) with false. simpl. exact IH.
Qed.
Lemma skip_head path c p : skip_slashes path = c :: p -> c <> 47.
Proof. induction path as [|x l IH]; simpl; [done|]. destruct (Z.eqb_spec x 47); [apply IH|]. intros [= <- _]. done. Qed.
Lemma skip_length path : (length (skip_slashes path) <= length path)%nat.
Proof. induction path as [|x l IH]; simpl; [done|]. destruct (x =? 47); simpl; lia. Qed.

Lemma split_span path cur : cur <> [] -> split path cur = (cur ++ fst (span_elem path)) :: elems (snd (span_elem path)).
Proof.
  assert (forall c, c <> [] -> piece c = [c]) as Hp by (now intros []).
  revert cur. induction path as [|c p IH]; intros cur Hc; simpl; [rewrite Hp, app_nil_r; done|].
  destruct (Z.eqb_spec c 0) as [->|H0].
  - simpl. rewrite app_nil_r, Hp by done. done.
  - destruct (Z.eqb_spec c 47) as [->|H1]; simpl.
    + rewrite app_nil_r, Hp by done. done.
    + rewrite IH by (now destruct cur). now rewrite <- app_assoc.
Qed.
Lemma span_length path : (length (snd (span_elem path)) <= length path)%nat.
Proof. induction path as [|x l IH]; simpl; [done|]. destruct ((x =? 47) || (x =? 0)); simpl; lia. Qed.

(** The buffer [name] after an element has been copied to it. *)
Definition name_buf (e name : list Z) : list Z :=
  if DIRSIZ <=? Z.of_nat (length e) then splice 0 (take 14 e) name else splice 0 (e ++ [0]) name.

Lemma skipelem_spec path name :
  match elems path with
  | [] => skipelem path name = None
  | e :: es => exists p, skipelem path name = Some (p, name_buf e name) /\ elems p = es /\
      (length p < length path)%nat /\ default 0 (head p) <> 47
  end.
Proof.
  rewrite <- elems_skip. unfold skipelem. pose proof (skip_length path) as Hl.
  destruct (skip_slashes path) as [|c p] eqn:E; [done|]. apply skip_head in E as Hc. simpl default.
  unfold elems. simpl. destruct (Z.eqb_spec c 0) as [->|H0]; [done|].
  rewrite (proj2 (Z.eqb_neq c 47)) by done. simpl. rewrite split_span by done.
  exists (skip_slashes (snd (span_elem p))). split; [done|]. split; [apply elems_skip|].
  pose proof (skip_length (snd (span_elem p))). pose proof (span_length p). simpl in Hl. split; [lia|].
  destruct (skip_slashes (snd (span_elem p))) as [|x l] eqn:E2; [done|]. now apply skip_head in E2.
Qed.

Lemma elems_length path : (length (elems path) <= length path)%nat.
Proof.
  remember (length path) as m eqn:E. revert path E. induction m as [m IH] using lt_wf_ind. intros path ->.
  pose proof (skipelem_spec path []) as H. destruct (elems path) as [|e es] eqn:E; simpl; [lia|].
  destruct H as (p & _ & <- & Hlt & _). specialize (IH (length p) Hlt p eq_refl). lia.
Qed.

Lemma bind_ext {S A B : Type} (m : M S A) (f g : A -> M S B) : (forall a, f a = g a) -> bind m f = bind m g.
Proof. intros H. f_equal. now apply functional_extensionality. Qed.

Section Namex.
Context {L : Layout} {P : Patience} {D : DiskDriver}.

Lemma namex_loop_fuel f : forall k i path parent name,
  (length (elems path) <= f)%nat -> (f <= k)%nat -> namex_loop k i path parent name = namex_loop f i path parent name.
Proof.
  induction f as [|f IH]; intros k i path parent name Hf Hk; pose proof (skipelem_spec path name) as Hs;
    destruct (elems path) as [|e es]; simpl in Hf; try lia.
  1-2: destruct k; simpl; now rewrite Hs.
  destruct k as [|k]; [lia|]. destruct Hs as (p & Hs & <- & _). simpl. rewrite Hs.
  apply bind_ext. intros _. apply bind_ext. intros ip. destruct (negb (i_type ip =? T_DIR)); [done|].
  destruct (parent && (default 0 (head p) =? 0)); [done|]. apply bind_ext. intros [[j o]|]; [|done].
  apply bind_ext. intros _. apply IH; lia.
Qed.

(** Path lookup terminates.  The loop of [namex] takes one round for each
    element of the path, however the directories look and whatever other
    processes do meanwhile: with as many rounds as the path has elements
    (never more than its length, the bound [namex] gives it) the loop behaves
    as with any larger number.  Every round's [skipelem] removes the first
    element, copies at most [DIRSIZ] bytes of it, and leaves a strictly
    shorter path without leading slashes. *)
Theorem namex_terminates path :
  (forall k i parent name, (length path <= k)%nat ->
     namex_loop k i path parent name = namex_loop (length (elems path)) i path parent name) /\
  (forall name, match elems path with
   | [] => skipelem path name = None
   | e :: es => exists p, skipelem path name = Some (p, name_buf e name) /\ elems p = es /\
       (length p < length path)%nat /\ default 0 (head p) <> 47
   end).
Proof.
  split; [|intros; apply skipelem_spec]. intros k i parent name Hk. apply namex_loop_fuel; [done|].
  pose proof (elems_length path). lia.
Qed.
End Namex.
