(* ===== verification/Fswrite.v ===== *)
(** * Writing the file system (kernel/fs.c)

    What the writing half of fs.c promises inside a transaction: a block
    that is changed and logged is seen changed by every later reader, and
    no other block is. *)

From S2P Require Import Prelude.
From S2P Require Import Mach.
From S2P Require Import Spinlock.
From S2P Require Import Kalloc.
From S2P Require Import Vm.
From S2P Require Import Proc.
From S2P Require Import Kstate.
From S2P Require Import Printk.
From S2P Require Import Sleeplock.
From S2P Require Import Bio.
From S2P Require Import Log.
From S2P Require Import Fs.
From S2P Require Import Fsread.
From S2P Require Import Dir.

(** ** One logged block *)

(** A block that may be written: not one of the log at [L]. *)
Definition blockno_ok (L blk : Z) : Prop := 0 <= blk < 2147483648 /\ (blk < L \/ L + 30 < blk).

(** What stays the same in a transaction: where the log is, the disk, the
    counters of operations and commits, and the open files. *)
Record oplog : Type := Oplog { o_start :> Z; o_disk : disk; o_counters : Z * bool * Z; o_files : list file }.
Record under (L : oplog) (s : kern) : Prop := {
  un_sb : sb_logstart (sb s) = L;
  un_dsk : dsk s = o_disk L;
  un_counters : counters (lg s) = o_counters L;
  un_files : ftable s = o_files L;
}.
Lemma under_beside (L : oplog) s s' : under L s -> beside s s' -> dsk s' = dsk s -> counters (lg s') = counters (lg s) -> under L s'.
Proof. intros [A1 A2 A3 A4] (_ & _ & E & _ & F & _) D C. simpl in E, F. constructor; congruence. Qed.

(** In these lemmas [B] are buffers that an outer operation holds: it keeps
    them, and its blocks are not touched. *)
Section Held.
Context {P : Patience} {D : DiskDriver} {DO : DiskOk D}.
Variables (i : nat) (n : Z) (L : oplog) (B : list nat).
Implicit Types (s : kern) (Pn : list nat) (bs : list Z).

(** A transaction that has written the blocks [bs]. *)
Record htxn bs Pn s : Prop := {
  tx_inv : tinv i n L bs B Pn s;
  tx_nodup : NoDup bs;
  tx_range : Forall (blockno_ok L) bs;
  tx_out : 1 <= l_outstanding (lg s);
  tx_under : under L s;
}.
(** There is room in the log, and so in the cache. *)
Definition room bs : Prop := (length bs + length B < 30)%nat.
Definition apart s (blk : Z) : Prop := forall k b, k ∈ B -> bufs s !! k = Some b -> b_blockno b <> blk.

Lemma htxn_pins bs Pn s : htxn bs Pn s -> length Pn = length bs.
Proof. intros [HT _ _ _ _]. apply (ti_pins _ _ _ _ _ _ _ HT). Qed.
Lemma htxn_looked bs Pn s s' : htxn bs Pn s -> looked n B Pn s s' -> htxn bs Pn s'.
Proof.
  intros [HT H1 H2 H3 H4] [A1 A2 A3 A4 A5]. constructor; auto; [eapply tinv_frame; eauto|destruct A1 as (_ & -> & _); done|].
  eapply under_beside; [exact H4|now apply upper_beside|done|]. now destruct A1 as (_ & -> & _).
Qed.
Lemma tinv_looked bs H Pn s s' : tinv i n L bs B Pn s -> looked n H Pn s s' -> tinv i n L bs H Pn s'.
Proof. intros HT [A1 A2 A3 A4 A5]. eapply tinv_frame; eauto. Qed.
Lemma apart_steady s s' blk : apart s blk -> steady B s s' -> apart s' blk.
Proof. intros Ha Hs k b Hk Hb. rewrite Hs in Hb by done. eauto. Qed.

(** The effect of an operation on the blocks: [f] gives the new contents of
    those it wrote. *)
Record hlogged s (f : Z -> list Z) bs' s' : Prop := {
  lw_beside : beside s s';
  lw_dsk : dsk s' = dsk s;
  lw_txn : exists Pn', htxn bs' Pn' s';
  lw_view : forall x, bview s' x = f x;
  lw_steady : steady B s s';
}.

Lemma bread_in bs Pn s blk : htxn bs Pn s -> room bs -> apart s blk ->
  wp (bread ROOTDEV blk) (fun k s' => looked n (k :: B) Pn s s' /\ holding_block s' Pn k blk (bview s blk) /\ steady B s s') s.
Proof.
  intros HT Hr Ha. pose proof (htxn_pins _ _ _ HT) as Hp. eapply wp_mono; [apply (bread_held i n B Pn s blk); auto; [apply HT..|right; unfold room in Hr; lia]|].
  intros k s' (_ & H). exact H.
Qed.
Lemma brelse_in bs Pn s0 s k blk d : htxn bs Pn s0 -> looked n (k :: B) Pn s0 s -> holding_block s Pn k blk d ->
  wp (brelse k) (fun _ s' => looked n B Pn s0 s' /\ steady B s s') s.
Proof.
  intros HT Hk Hh. eapply wp_mono; [apply (brelse_held i n B Pn s k blk d); [eapply looked_ready; eauto; apply HT|apply Hk|done]|].
  intros [] s' [H1 H2]. split; [eapply looked_trans; eauto|done].
Qed.

End Held.

Section HeldWrite.
Context {P : Patience} {D : DiskDriver} {DO : DiskOk D}.
Variables (i : nat) (n : Z) (L : oplog) (B : list nat).
Implicit Types (s : kern) (Pn : list nat) (bs : list Z).
Local Abbreviation htxn := (htxn i n L B).
Local Abbreviation hlogged := (hlogged i n L B).

Lemma htxn_enter H bs Pn s s' : htxn bs Pn s -> looked n H Pn s s' -> Fswrite.htxn i n L H bs Pn s'.
Proof.
  intros [HT H1 H2 H3 H4] Hl. destruct (lo_upper _ _ _ _ _ Hl) as (_ & E & _). constructor; auto; [eapply tinv_looked; eauto|now rewrite E|].
  eapply under_beside; [exact H4|apply upper_beside, Hl|apply Hl|now rewrite E].
Qed.

(** The caller's buffer has been changed: log it and let it go. *)
Lemma write_brelse bs Pn s k b v :
  Fswrite.htxn i n L (k :: B) bs Pn s -> (length bs < 30)%nat -> bufs s !! k = Some b -> blockno_ok L (b_blockno b) ->
  wp (do! log_write k; brelse k)
    (fun _ => hlogged s (fun x => if decide (x = b_blockno b) then v else bview s x) (absorb (b_blockno b) bs))
    (set_bufs (<[k := set_b_data v b]> (bufs s)) s).
Proof.
  intros [HTs Hnd Hrg Hout Hun] Hlen Hb Hok. set (s1 := set_bufs _ s).
  destruct (data_spec n (k :: B) Pn s k b v (ti_inv _ _ _ _ _ _ _ HTs) ltac:(left) Hb) as [Hinv1 V1]. fold s1 in Hinv1, V1.
  pose proof (lookup_lt_Some _ _ _ Hb) as Hlt. pose proof (bi_H _ _ _ _ Hinv1) as [HkB _]%NoDup_cons.
  assert (bufs s1 !! k = Some (set_b_data v b)) as Hk1 by (now apply list_lookup_insert_eq).
  assert (upper s s1) as Hu1 by (split; [reflexivity|done]).
  assert (tinv i n L bs (k :: B) Pn s1) as HT1.
  { eapply tinv_frame; eauto. eapply (keeps_insert Pn s s1 k b); eauto. }
  wsteps. eapply wp_mono.
  { apply (log_write_spec i n L bs (k :: B) Pn s1 k (set_b_data v b)); auto; [left|].
    intros x Hx. apply elem_of_cons in Hx as [->|Hx]; [apply Hok|]. rewrite Forall_forall in Hrg. now apply Hrg. }
  intros [] s2 (B2 & D2 & N2 & (Pn' & Hk2 & HT2) & V2 & O2 & F2). simpl b_blockno in *.
  destruct (lookup_lt_is_Some_2 (bufs s2) k) as [b2 Hb2].
  { rewrite (bi_len _ _ _ _ (ti_inv _ _ _ _ _ _ _ HT2)). apply (bi_range _ _ _ _ (ti_inv _ _ _ _ _ _ _ HT2)). left. left. }
  eapply wp_mono; [apply (brelse_spec i n B Pn' s2 k b2); [apply HT2|apply HT2|done|now left]|].
  intros [] s3 (U3 & D3 & E3 & _ & Hinv3 & V3). constructor.
  - transitivity s1; [now apply upper_beside|]. etransitivity; [exact B2|now apply upper_beside].
  - rewrite D3, D2. done.
  - exists Pn'. constructor; [|done| | |].
    + eapply tinv_frame; eauto. eapply keeps_insert; eauto.
    + unfold absorb. destruct (decide (b_blockno b ∈ bs)); [done|]. apply Forall_app. split; [done|]. now constructor.
    + destruct U3 as (_ & -> & _). injection O2 as -> _ _. done.
    + eapply under_beside; [exact Hun|transitivity s1; [now apply upper_beside|]; etransitivity; [exact B2|now apply upper_beside]|rewrite D3, D2; done|].
      destruct U3 as (_ & -> & _). exact O2.
  - intros x. now rewrite V3, V2, V1.
  - intros j Hj. assert (k <> j) as Hne by (now intros ->). rewrite E3, list_lookup_insert_ne, F2 by auto. simpl. now rewrite list_lookup_insert_ne.
Qed.

Lemma hlog_brelse bs Pn s0 s k b v :
  htxn bs Pn s0 -> (length bs < 30)%nat -> looked n (k :: B) Pn s0 s -> steady B s0 s -> bufs s !! k = Some b -> blockno_ok L (b_blockno b) ->
  wp (do! log_write k; brelse k)
    (fun _ => hlogged s0 (fun x => if decide (x = b_blockno b) then v else bview s0 x) (absorb (b_blockno b) bs))
    (set_bufs (<[k := set_b_data v b]> (bufs s)) s).
Proof.
  intros HT Hlen Hlk Hst Hb Hok. eapply wp_mono; [apply (write_brelse bs Pn s k b v); auto; eapply htxn_enter; eauto|].
  intros [] s' [A1 A2 A3 A4 A5]. constructor; [|rewrite A2; apply Hlk|done| |etransitivity; eauto].
  - etransitivity; [apply upper_beside, Hlk|done].
  - intros x. now rewrite A4, (lo_view _ _ _ _ _ Hlk).
Qed.

(** Read a block, change it, log it. *)
Lemma hwp_logged bs Pn s blk (f : list Z -> list Z) :
  htxn bs Pn s -> room B bs -> apart B s blk -> blockno_ok L blk ->
  wp (let! bp := bread ROOTDEV blk in
      do! updbuf bp (fun b => set_b_data (f (b_data b)) b);
      do! log_write bp;
      brelse bp)
    (fun _ => hlogged s (fun x => if decide (x = blk) then f (bview s blk) else bview s x) (absorb blk bs)) s.
Proof.
  intros HT Hlen Ha Hblk. wsteps. eapply wp_mono; [now apply (bread_in i n L B bs Pn s blk)|].
  intros k s1 (Hlk & (b & Hb & Hbk & Hd & _) & Hst). wsteps. apply (wp_updbuf k _ b); [done|]. cbv beta.
  rewrite Hd, <- Hbk. apply (hlog_brelse bs Pn); auto; [unfold room in Hlen; lia|now rewrite Hbk].
Qed.
End HeldWrite.

(** Between operations nothing is held. *)
Abbreviation txn i n L := (htxn i n L []).
Abbreviation logged i n L := (hlogged i n L []).

Section Logged.
Context {P : Patience} {D : DiskDriver} {DO : DiskOk D}.
Variables (i : nat) (n : Z) (L : oplog).
Implicit Types (s : kern) (Pn : list nat) (bs : list Z).

Lemma room_nil bs : (length bs < 30)%nat -> room [] bs.
Proof. unfold room. simpl. lia. Qed.
Lemma apart_nil s blk : apart [] s blk.
Proof. intros k b Hk. now apply not_elem_of_nil in Hk. Qed.
Lemma steady_nil s s' : steady [] s s'.
Proof. intros j Hj. now apply not_elem_of_nil in Hj. Qed.

Lemma txn_calmly bs Pn s : txn i n L bs Pn s -> (length bs < 30)%nat -> calmly i n Pn s.
Proof.
  intros HT Hl. pose proof (htxn_pins _ _ _ _ _ _ _ HT). destruct HT as [HT _ _ _ _].
  split; [apply HT|]. split; [apply HT|lia].
Qed.
Lemma txn_looked bs Pn s s' : txn i n L bs Pn s -> looked n [] Pn s s' -> txn i n L bs Pn s'.
Proof. apply htxn_looked. Qed.
Lemma log_brelse bs Pn s0 s k b v :
  txn i n L bs Pn s0 -> (length bs < 30)%nat -> looked n [k] Pn s0 s -> bufs s !! k = Some b -> blockno_ok L (b_blockno b) ->
  wp (do! log_write k; brelse k)
    (fun _ => logged i n L s0 (fun x => if decide (x = b_blockno b) then v else bview s0 x) (absorb (b_blockno b) bs))
    (set_bufs (<[k := set_b_data v b]> (bufs s)) s).
Proof. intros. apply (hlog_brelse i n L [] bs Pn); auto using steady_nil. Qed.
Lemma wp_logged bs Pn s blk (f : list Z -> list Z) :
  txn i n L bs Pn s -> (length bs < 30)%nat -> blockno_ok L blk ->
  wp (let! bp := bread ROOTDEV blk in
      do! updbuf bp (fun b => set_b_data (f (b_data b)) b);
      do! log_write bp;
      brelse bp)
    (fun _ => logged i n L s (fun x => if decide (x = blk) then f (bview s blk) else bview s x) (absorb blk bs)) s.
Proof. intros. apply (hwp_logged i n L [] bs Pn); auto using room_nil, apart_nil. Qed.
End Logged.

(** ** On-disk inodes *)

Definition short (x : Z) : Prop := -32768 <= x < 32768.
Definition word (x : Z) : Prop := 0 <= x < 4294967296.

(** The fields of an inode have the types the source gives them. *)
Record dinode_typed (x : dinode) : Prop := {
  dt_type : short (d_type x); dt_major : short (d_major x); dt_minor : short (d_minor x); dt_nlink : short (d_nlink x);
  dt_size : word (d_size x);
  dt_len : length (d_addrs x) = 13%nat; dt_addrs : Forall word (d_addrs x);
}.

Lemma i16_u16 x : short x -> i16 (u16 x) = x.
Proof.
  unfold short, i16, u16. intros H. rewrite Z.mod_mod by lia. destruct (Z_lt_ge_dec x 0).
  - rewrite <- (Z_mod_plus_full x 1), Z.mod_small by lia. destruct (Z.ltb_spec (x + 1 * 65536) 32768); lia.
  - rewrite Z.mod_small by lia. destruct (Z.ltb_spec x 32768); lia.
Qed.
Lemma u16_range x : 0 <= u16 x < 256 ^ Z.of_nat 2.
Proof. unfold u16. change (256 ^ Z.of_nat 2) with 65536. apply Z.mod_pos_bound. lia. Qed.
Lemma u32_word x : 0 <= u32 x < 256 ^ Z.of_nat 4.
Proof. change (256 ^ Z.of_nat 4) with 4294967296. apply u32_range. Qed.

Lemma put_words_length l d o : length (put_words l d o) = length d.
Proof. revert d o. induction l as [|v l IH]; intros d o; simpl; [done|]. now rewrite IH, le_set_length. Qed.
Lemma put_words_ne l d o k o' : (o' + k <= o \/ o + 4 * length l <= o')%nat -> le_get k (put_words l d o) o' = le_get k d o'.
Proof.
  revert d o. induction l as [|v l IH]; intros d o H; simpl in *; [done|]. rewrite IH by lia. apply le_get_set_ne. lia.
Qed.
Lemma put_words_eq l d o j v : (o + 4 * length l <= length d)%nat -> l !! j = Some v -> word v ->
  le_get 4 (put_words l d o) (o + 4 * j) = v.
Proof.
  revert d o j. induction l as [|w l IH]; intros d o j Hl Hj Hv; [done|]. cbn [put_words length] in *. destruct j as [|j].
  - injection Hj as ->. rewrite put_words_ne by lia. replace (o + 4 * 0)%nat with o by lia.
    rewrite le_get_set_eq; [now apply u32_small|lia|apply u32_word].
  - replace (o + 4 * S j)%nat with (o + 4 + 4 * j)%nat by lia. apply IH; [rewrite le_set_length; lia|done|done].
Qed.

Lemma put_dinode_length x d o : length (put_dinode x d o) = length d.
Proof. unfold put_dinode. now rewrite put_words_length, !le_set_length. Qed.

Lemma get_put_dinode x d o : dinode_typed x -> (o + 64 <= length d)%nat -> get_dinode (put_dinode x d o) o = x.
Proof.
  intros [T1 T2 T3 T4 T5 T6 T7] Hl. unfold get_dinode, put_dinode.
  rewrite !(put_words_ne _ _ _ _ (o + _)), (put_words_ne _ _ _ _ o) by lia.
  repeat (rewrite (le_get_set_ne 4) by lia). rewrite (le_get_set_eq 4) by (rewrite ?le_set_length; first [lia|apply u32_word]).
  repeat first [rewrite (le_get_set_ne 2 2 _ (o + 6)) by lia|rewrite (le_get_set_ne 2 2 _ (o + 4)) by lia|
                rewrite (le_get_set_ne 2 2 _ (o + 2)) by lia|rewrite (le_get_set_ne 2 2 _ o) by lia].
  rewrite !(le_get_set_eq 2) by (rewrite ?le_set_length; first [lia|apply u16_range]).
  rewrite !i16_u16, u32_small by done. destruct x as [t ma mi nl sz ad]. cbn [d_type d_major d_minor d_nlink d_size d_addrs] in *. f_equal.
  apply list_eq. intros j. rewrite list_lookup_fmap. destruct (decide (j < 13)%nat) as [Hj|Hj].
  - rewrite lookup_seq_lt by done. destruct (lookup_lt_is_Some_2 ad j) as [v Hv]; [lia|]. rewrite Hv. simpl. f_equal.
    apply put_words_eq; [rewrite !le_set_length; lia|done|]. rewrite Forall_lookup in T7. now apply (T7 j).
  - rewrite lookup_seq_ge by lia. simpl. symmetry. apply lookup_ge_None_2. lia.
Qed.

Lemma get_put_dinode_ne x d o o' : length (d_addrs x) = 13%nat -> (o' + 64 <= o \/ o + 64 <= o')%nat ->
  get_dinode (put_dinode x d o) o' = get_dinode d o'.
Proof.
  intros Hl Ho. unfold get_dinode, put_dinode.
  assert (forall k j, (j + k <= 64)%nat -> le_get k (put_words (d_addrs x)
    (le_set 4 (le_set 2 (le_set 2 (le_set 2 (le_set 2 d o (u16 (d_type x))) (o + 2) (u16 (d_major x)))
      (o + 4) (u16 (d_minor x))) (o + 6) (u16 (d_nlink x))) (o + 8) (u32 (d_size x))) (o + 12)) (o' + j) = le_get k d (o' + j)) as E.
  { intros k j Hj. rewrite put_words_ne by lia. now rewrite !le_get_set_ne by lia. }
  rewrite !E by lia. pose proof (E 2%nat 0%nat) as E0. rewrite Nat.add_0_r in E0. rewrite E0 by lia. f_equal.
  apply list_fmap_ext. intros a y Hy. apply lookup_seq in Hy as [-> Hy]. replace (o' + 12 + 4 * (0 + a))%nat with (o' + (12 + 4 * a))%nat by lia.
  apply E. lia.
Qed.

(** Inode [inum] as it is on the disk, seen through the cache. *)
Definition disk_inode (s : kern) (inum : Z) : dinode := get_dinode (bview s (IBLOCK inum (sb s))) (islot inum).

Lemma islot_bound inum : (islot inum + 64 <= 1024)%nat.
Proof. unfold islot. change IPB with 16. pose proof (Z.mod_pos_bound inum 16). lia. Qed.

Lemma islot_ne s x y : 0 <= x < 4294967296 -> 0 <= y < 4294967296 -> 0 <= sb_inodestart (sb s) < 2147483648 ->
  x <> y -> IBLOCK x (sb s) = IBLOCK y (sb s) -> (islot x + 64 <= islot y \/ islot y + 64 <= islot x)%nat.
Proof.
  unfold IBLOCK, islot. change IPB with 16. intros Hx Hy Hs Hne.
  pose proof (Z.div_mod x 16). pose proof (Z.div_mod y 16).
  pose proof (Z.mod_pos_bound x 16). pose proof (Z.mod_pos_bound y 16).
  rewrite !u32_small by lia. lia.
Qed.

Section Inodes.
Context {LL : Layout} {P : Patience} {D : DiskDriver} {DO : DiskOk D}.
Variables (i : nat) (n : Z) (L : oplog).
Implicit Types (s : kern) (Pn : list nat) (bs : list Z).

Lemma iupdate_spec bs Pn s k ip :
  txn i n L bs Pn s -> (length bs < 30)%nat -> itable s !! k = Some ip -> i_dev ip = ROOTDEV ->
  blockno_ok L (IBLOCK (i_inum ip) (sb s)) ->
  wp (iupdate k) (fun _ => logged i n L s (fun x => if decide (x = IBLOCK (i_inum ip) (sb s))
      then put_dinode (inode_of ip) (bview s (IBLOCK (i_inum ip) (sb s))) (islot (i_inum ip)) else bview s x)
    (absorb (IBLOCK (i_inum ip) (sb s)) bs)) s.
Proof.
  intros HT Hl Hip Hdev Hblk. unfold iupdate. wsteps. apply (wp_getinode k ip); [done|]. do 2 wstep. rewrite Hdev.
  now apply (wp_logged i n L bs Pn s _ (fun d => put_dinode (inode_of ip) d (islot (i_inum ip)))).
Qed.

(** [iupdate] stores the inode and leaves the others alone. *)
Lemma iupdate_inodes s s' ip :
  dinode_typed (inode_of ip) -> 0 <= i_inum ip < 4294967296 -> 0 <= sb_inodestart (sb s) < 2147483648 ->
  length (bview s (IBLOCK (i_inum ip) (sb s))) = 1024%nat -> sb s' = sb s ->
  (forall x, bview s' x = if decide (x = IBLOCK (i_inum ip) (sb s))
     then put_dinode (inode_of ip) (bview s (IBLOCK (i_inum ip) (sb s))) (islot (i_inum ip)) else bview s x) ->
  forall x, 0 <= x < 4294967296 -> disk_inode s' x = if decide (x = i_inum ip) then inode_of ip else disk_inode s x.
Proof.
  intros Ht Hin Hst Hlen Hsb V x Hx. unfold disk_inode. rewrite Hsb, V. pose proof (islot_bound (i_inum ip)).
  destruct (decide (x = i_inum ip)) as [->|Hne]; [rewrite decide_True by done; apply get_put_dinode; [done|lia]|].
  destruct (decide (IBLOCK x (sb s) = IBLOCK (i_inum ip) (sb s))) as [E|E]; [|done].
  rewrite get_put_dinode_ne; [now rewrite E|apply Ht|]. now apply (islot_ne s).
Qed.

(** The sleep lock of an inode is not a buffer's. *)
Lemma looked_slock Pn s m l k : binv n [] Pn s -> calm (km s) m ->
  let s' := set_slocks (<[inode_lock k := l]> (slocks s)) (set_km m s) in
  binv n [] Pn s' /\ forall blk, bview s' blk = bview s blk.
Proof.
  intros Hinv Hm s'. split; [|done]. destruct Hinv. constructor; auto. intros j Hj. unfold getsl. simpl.
  rewrite lookup_insert_ne by (unfold inode_lock, buf_lock; lia). now apply bi_lock.
Qed.

Lemma ilock_spec Pn s k ip :
  calmly i n Pn s -> itable s !! k = Some ip -> i_dev ip = ROOTDEV -> 1 <= i_ref ip ->
  sl_locked (getsl s (inode_lock k)) = false -> i_valid ip = false -> d_type (disk_inode s (i_inum ip)) <> 0 ->
  wp (ilock k) (fun _ s' => itable s' = <[k := set_i_valid true (load_inode (disk_inode s (i_inum ip)) ip)]> (itable s) /\
    getsl s' (inode_lock k) = Sleeplock true n /\ calmly i n Pn s' /\ sb s' = sb s /\
    forall blk, bview s' blk = bview s blk) s.
Proof.
  intros (Hr & Hinv & Hl) Hip Hdev Href Hfree Hv Ht. unfold ilock. wsteps. apply (wp_getinode k ip); [done|]. wsteps.
  { apply negb_true_iff, Z.ltb_ge. lia. }
  eapply wp_mono; [now apply (acquiresleep_spec i n)|]. intros [] s1 (m & Hm & ->).
  destruct (looked_slock Pn s m (Sleeplock true n) k Hinv Hm) as [Hinv1 V1]. set (s1 := set_slocks _ _) in *.
  assert (calmly i n Pn s1) as Hc1 by (split; [now apply (ready_calm i n (km s))|done]).
  wsteps. apply (wp_getinode k ip); [done|]. rewrite Hv. simpl negb. cbv iota. wsteps. rewrite Hdev.
  eapply wp_mono; [apply (bread_calm i n Pn s1 _ Hc1)|]. intros bp s2 [Hl2 Hh]. pose proof Hh as (b & Hb & _ & Hd & _).
  pose proof (looked_itable _ _ _ _ _ Hl2) as Et. pose proof (lookup_lt_Some _ _ _ Hip) as Hlt.
  wsteps. apply (wp_getbuf bp b); [done|]. wsteps. apply (wp_updinode k _ ip); [now rewrite Et|]. wsteps.
  rewrite Hd, V1. change (sb s1) with (sb s). fold (disk_inode s (i_inum ip)).
  set (ip' := load_inode _ ip). set (s3 := set_itable _ s2).
  assert (binv n [bp] Pn s3) as Hinv3 by (pose proof (lo_inv _ _ _ _ _ Hl2) as []; constructor; auto).
  eapply wp_mono; [apply (brelse_held i n [] Pn s3 bp (b_blockno b) (b_data b)); [exact (looked_ready i n _ _ _ _ (proj1 Hc1) Hl2)|done|]|].
  { destruct Hh as (b' & Hb' & _ & _ & Hcl). rewrite Hb in Hb'. injection Hb' as <-. exists b. auto. }
  intros [] s4 [Hl4 _]. pose proof (looked_itable _ _ _ _ _ Hl4) as Et4. simpl in Et4. rewrite Et in Et4. change (itable s1) with (itable s) in Et4.
  wsteps. apply (wp_updinode k _ ip'); [rewrite Et4; now apply list_lookup_insert_eq|]. wsteps.
  apply (wp_getinode k (set_i_valid true ip')); [simpl; apply list_lookup_insert_eq; rewrite Et4, length_insert; done|].
  apply wp_check; [apply negb_true_iff, Z.eqb_neq; exact Ht|]. simpl. rewrite Et4, list_insert_insert_eq. split; [done|].
  assert (forall blk, bview s4 blk = bview s blk) as V4.
  { intros blk. rewrite (lo_view _ _ _ _ _ Hl4). change (bview s3 blk) with (bview s2 blk). now rewrite (lo_view _ _ _ _ _ Hl2). }
  destruct (lo_upper _ _ _ _ _ Hl2) as (C2 & _ & S2 & _ & _ & _ & G2), (lo_upper _ _ _ _ _ Hl4) as (C4 & _ & S4 & _ & _ & _ & G4).
  split; [|split; [|split; [exact (eq_trans S4 S2)|exact V4]]].
  - change (getsl s4 (inode_lock k) = Sleeplock true n). assert (30 <= inode_lock k) by (unfold inode_lock; lia).
    rewrite G4 by done. change (getsl s2 (inode_lock k) = Sleeplock true n). rewrite G2 by done.
    unfold getsl. simpl. now rewrite lookup_insert_eq.
  - split; [|split; [pose proof (lo_inv _ _ _ _ _ Hl4) as []; now constructor|done]].
    apply (ready_calm i n (km s2)); [|exact C4]. apply (ready_calm i n (km s1)); [apply Hc1|exact C2].
Qed.

(** C37: what [iupdate] writes is what [ilock] reads.  Inside a transaction
    with room, write an inode to disk, lose the in-memory copy (its entry is
    marked invalid and its fields hold anything), and lock it again: the
    entry is what it was, the inode's sleep lock is held by the caller, and
    every other inode on the disk is unchanged, also those in the same
    block. *)
Theorem iupdate_ilock bs Pn s k ip d :
  txn i n L bs Pn s -> (length bs < 29)%nat -> itable s !! k = Some ip -> i_dev ip = ROOTDEV -> 1 <= i_ref ip ->
  0 <= i_inum ip < 4294967296 -> 0 <= sb_inodestart (sb s) < 1073741824 -> blockno_ok L (IBLOCK (i_inum ip) (sb s)) ->
  dinode_typed (inode_of ip) -> i_type ip <> 0 -> length (bview s (IBLOCK (i_inum ip) (sb s))) = 1024%nat ->
  sl_locked (getsl s (inode_lock k)) = false ->
  wp (do! iupdate k; do! updinode k (fun x => set_i_valid false (load_inode d x)); ilock k)
    (fun _ s' => itable s' = <[k := set_i_valid true ip]> (itable s) /\ getsl s' (inode_lock k) = Sleeplock true n /\
      forall x, 0 <= x < 4294967296 -> disk_inode s' x = if decide (x = i_inum ip) then inode_of ip else disk_inode s x) s.
Proof.
  intros HT Hl Hip Hdev Href Hin Hst Hblk Hty Hne Hlen Hfree.
  wsteps. eapply wp_mono; [apply (iupdate_spec bs Pn s k ip); auto; lia|]. intros [] s1 [(C1 & _ & S1 & I1 & _ & _ & G1) D1 (Pn1 & HT1) V1].
  simpl in S1, I1. pose proof (lookup_lt_Some _ _ _ Hip) as Hlt. pose proof (iupdate_inodes s s1 ip Hty Hin ltac:(lia) Hlen S1 V1) as DI.
  wsteps. apply (wp_updinode k _ ip); [now rewrite I1|]. cbv beta. set (ip1 := set_i_valid false (load_inode d ip)). set (s2 := set_itable _ s1).
  assert (calmly i n Pn1 s1) as Hc1.
  { eapply txn_calmly; eauto. unfold absorb. destruct (decide _); [lia|]. rewrite length_app. simpl. lia. }
  assert (calmly i n Pn1 s2) as Hc2.
  { destruct Hc1 as (A & B & C). split; [done|]. split; [destruct B; now constructor|done]. }
  assert (disk_inode s2 (i_inum ip) = inode_of ip) as E2.
  { change (disk_inode s2 (i_inum ip)) with (disk_inode s1 (i_inum ip)). rewrite DI, decide_True; done. }
  eapply wp_mono.
  { apply (ilock_spec Pn1 s2 k ip1); auto; [simpl; rewrite I1; now apply list_lookup_insert_eq| |].
    - change (sl_locked (getsl s1 (inode_lock k)) = false). rewrite G1; [done|]. unfold inode_lock. lia.
    - change (i_inum ip1) with (i_inum ip). now rewrite E2. }
  intros [] s3 (I3 & L3 & _ & S3 & V3). change (i_inum ip1) with (i_inum ip) in I3. rewrite E2 in I3. split; [|split; [done|]].
  - rewrite I3. simpl. rewrite I1, list_insert_insert_eq. now destruct ip.
  - intros x Hx. rewrite <- DI by done. unfold disk_inode. rewrite S3, V3. done.
Qed.
End Inodes.

(** ** Writing a file *)

(** Blocks 0 to [upto] (in bytes) of a file: allocated, distinct, and
    neither the indirect block nor the block of the inode. *)
Record file_blocks (s : kern) (ip : inode) (upto : Z) : Prop := {
  fb_dev : i_dev ip = ROOTDEV;
  fb_len : length (i_addrs ip) = 13%nat;
  fb_upto : upto <= MAXFILE * BSIZE;
  fb_ok : forall bn, 0 <= bn -> bn * BSIZE < upto ->
    block_addr s ip bn <> 0 /\ blockno_ok (sb_logstart (sb s)) (block_addr s ip bn) /\
    length (bview s (block_addr s ip bn)) = Z.to_nat BSIZE /\
    block_addr s ip bn <> default 0 (i_addrs ip !! Z.to_nat NDIRECT) /\
    block_addr s ip bn <> IBLOCK (i_inum ip) (sb s);
  fb_inj : forall a b, 0 <= a -> 0 <= b -> a * BSIZE < upto -> b * BSIZE < upto ->
    block_addr s ip a = block_addr s ip b -> a = b;
}.

(** The file after [data] has been written at [off]. *)
Definition overwrite (off : Z) (data old : list Z) : list Z :=
  take (Z.to_nat off) old ++ data ++ drop (Z.to_nat off + length data) old.

(** Bytes [off, off + m) of the file are [chunk], the others unchanged; no
    block that is not the file's has changed. *)
Record written (s : kern) (ip : inode) (upto off : Z) (chunk : list Z) (s' : kern) : Prop := {
  wr_bytes : forall o, 0 <= o < upto ->
    fbyte s' ip o = if decide (off <= o < off + Z.of_nat (length chunk)) then default 0 (chunk !! Z.to_nat (o - off)) else fbyte s ip o;
  wr_addr : forall bn, block_addr s' ip bn = block_addr s ip bn;
  wr_len : forall bn, 0 <= bn -> bn * BSIZE < upto -> length (bview s' (block_addr s ip bn)) = Z.to_nat BSIZE;
  wr_other : forall x, (forall bn, 0 <= bn -> bn * BSIZE < upto -> x <> block_addr s ip bn) -> bview s' x = bview s x;
}.

Lemma block_of o : 0 <= o -> 0 <= o / BSIZE /\ o / BSIZE * BSIZE <= o /\ 0 <= o mod BSIZE < BSIZE /\
  o = BSIZE * (o / BSIZE) + o mod BSIZE.
Proof.
  intros Ho. pose proof (Z.div_mod o BSIZE ltac:(discriminate)). pose proof (Z.mod_pos_bound o BSIZE ltac:(reflexivity)).
  pose proof (Z.div_pos o BSIZE ltac:(lia) ltac:(reflexivity)). lia.
Qed.

Lemma written_nil s ip upto off : file_blocks s ip upto -> written s ip upto off [] s.
Proof.
  intros Hf. constructor; try done.
  - intros o Ho. rewrite decide_False; [done|]. simpl. lia.
  - intros bn H1 H2. now apply (fb_ok _ _ _ Hf).
Qed.

Lemma splice_length o l d : (o + length l <= length d)%nat -> length (splice o l d) = length d.
Proof. intros H. unfold splice. rewrite !length_app, length_take, length_drop. lia. Qed.
Lemma splice_lookup o l d j : (o + length l <= length d)%nat ->
  splice o l d !! j = if decide (o <= j < o + length l)%nat then l !! (j - o)%nat else d !! j.
Proof.
  intros H. unfold splice. destruct (decide (j < o)%nat) as [Hj|Hj].
  - rewrite lookup_app_l by (rewrite length_take; lia). rewrite lookup_take_lt, decide_False by lia. done.
  - rewrite lookup_app_r, length_take, Nat.min_l by (rewrite ?length_take; lia).
    destruct (decide (o <= j < o + length l)%nat) as [Hi|Hi]; [now rewrite lookup_app_l by lia|].
    rewrite lookup_app_r, lookup_drop by lia. f_equal. lia.
Qed.

(** One block of the write. *)
Lemma written_step s s1 s2 ip upto off0 done_ chunk :
  file_blocks s ip upto -> written s ip upto off0 done_ s1 -> 0 <= off0 ->
  let off := off0 + Z.of_nat (length done_) in
  off mod BSIZE + Z.of_nat (length chunk) <= BSIZE -> off + Z.of_nat (length chunk) <= upto -> (0 < length chunk)%nat ->
  (forall x, bview s2 x = if decide (x = block_addr s ip (off / BSIZE))
     then splice (Z.to_nat (off mod BSIZE)) chunk (bview s1 x) else bview s1 x) ->
  written s ip upto off0 (done_ ++ chunk) s2.
Proof.
  intros Hf [W1 W2 W3 W4] Hoff0 off Hfit Hup Hpos V. assert (0 <= off) as Hoff by lia.
  destruct (block_of off Hoff) as (B1 & B2 & B3 & B4). set (bn := off / BSIZE) in *. set (p := off mod BSIZE) in *.
  assert (bn * BSIZE < upto) as Hbn by lia.
  assert (forall x, (forall bn, 0 <= bn -> bn * BSIZE < upto -> x <> block_addr s ip bn) -> bview s2 x = bview s x) as W4'.
  { intros x Hx. rewrite V, decide_False; [now apply W4|]. now apply Hx. }
  assert (forall b, block_addr s2 ip b = block_addr s ip b) as W2'.
  { intros b. unfold block_addr. destruct (b <? NDIRECT); [done|]. destruct (_ =? 0); [done|].
    rewrite W4'; [done|]. intros b' Hb' Hu. now destruct (fb_ok _ _ _ Hf b' Hb' Hu) as (_ & _ & _ & Hn & _). }
  assert (length (bview s1 (block_addr s ip bn)) = Z.to_nat BSIZE) as Hlen by (now apply W3).
  constructor; auto.
  - intros o Ho. destruct (block_of o ltac:(lia)) as (O1 & O2 & O3 & O4). unfold fbyte. rewrite W2', V.
    assert (default 0 (bview s1 (block_addr s ip (o / BSIZE)) !! Z.to_nat (o mod BSIZE)) = fbyte s1 ip o) as E1.
    { unfold fbyte. now rewrite W2. }
    destruct (decide (block_addr s ip (o / BSIZE) = block_addr s ip bn)) as [E|E].
    + apply (fb_inj _ _ _ Hf) in E as E'; [|lia..]. rewrite splice_lookup by (rewrite E, Hlen; lia).
      destruct (decide (Z.to_nat p <= Z.to_nat (o mod BSIZE) < Z.to_nat p + length chunk)%nat) as [Hin|Hin].
      * rewrite decide_True by (rewrite length_app; lia). rewrite lookup_app_r by lia. do 2 f_equal. lia.
      * rewrite E1, W1 by lia. rewrite length_app. destruct (decide (off0 <= o < off0 + Z.of_nat (length done_))) as [H1|H1].
        -- rewrite decide_True by lia. now rewrite lookup_app_l by lia.
        -- rewrite decide_False by lia. done.
    + rewrite E1, W1 by lia. rewrite length_app.
      assert (~ (off <= o < off + Z.of_nat (length chunk))) as Hno.
      { intros Ho'. apply E. f_equal. unfold bn. symmetry. apply (Z.div_unique _ _ _ (p + (o - off))); [left; lia|]. lia. }
      destruct (decide (off0 <= o < off0 + Z.of_nat (length done_))) as [H1|H1].
      * rewrite decide_True by lia. now rewrite lookup_app_l by lia.
      * rewrite decide_False by lia. done.
  - intros b Hb Hu. rewrite V. destruct (decide (block_addr s ip b = block_addr s ip bn)) as [E|E]; [|now apply W3].
    rewrite splice_length; rewrite E, Hlen; lia.
Qed.

Section Writei.
Context {LL : Layout} {P : Patience} {D : DiskDriver} {DO : DiskOk D}.
Variables (i : nat) (n : Z) (L : oplog).
Implicit Types (s : kern) (Pn : list nat) (bs : list Z).

(** A copy from a buffer on the kernel stack. *)
Lemma wp_copyin_local H Pn s s0 l off len :
  ready i n (km s0) -> looked n H Pn s0 s ->
  wp (mk (either_copyin (Local l) off len)) (fun r s' => r = (0, take (Z.to_nat len) (drop (Z.to_nat off) l)) /\
    bufs s' = bufs s /\ looked n H Pn s0 s') s.
Proof.
  intros Hr Hl. pose proof (looked_ready i n _ _ _ _ Hr Hl) as (Hok & _ & _ & c & _ & Hc & _).
  apply wp_mk. unfold either_copyin. wsteps. apply (wp_myproc 3 c); [done|lia|done|]. intros K HK. wsteps.
  split; [done|]. split; [done|]. eapply looked_trans; [exact Hl|]. apply looked_calm; [apply Hl|now apply calm_lks].
Qed.

(** The blocks that remain to be written, rounded outwards. *)
Definition blocks_left (off stop : Z) : Z := (stop + BSIZE - 1) / BSIZE - off / BSIZE.

Lemma blocks_left_step off m stop : 0 <= off -> 0 < m -> off + m < stop -> m = BSIZE - off mod BSIZE ->
  blocks_left (off + m) stop = blocks_left off stop - 1.
Proof.
  intros Ho Hm Hs ->. destruct (block_of off Ho) as (B1 & B2 & B3 & B4). unfold blocks_left.
  assert ((off + (BSIZE - off mod BSIZE)) / BSIZE = off / BSIZE + 1) as ->; [|lia].
  symmetry. apply (Z.div_unique _ _ _ 0); [left; lia|]. lia.
Qed.
Lemma blocks_left_pos off stop : 0 <= off < stop -> 1 <= blocks_left off stop.
Proof.
  intros Ho. destruct (block_of off ltac:(lia)) as (B1 & B2 & B3 & B4). unfold blocks_left.
  enough (off / BSIZE + 1 <= (stop + BSIZE - 1) / BSIZE) by lia. apply Z.div_le_lower_bound; lia.
Qed.
Lemma absorb_length x bs : (length (absorb x bs) <= S (length bs))%nat.
Proof. unfold absorb. destruct (decide _); [lia|]. rewrite length_app. simpl. lia. Qed.

(** The state of the write after some rounds. *)
Record progress s0 k ip upto off0 (data : list Z) bs s : Prop := {
  pg_beside : beside s0 s;
  pg_txn : exists Pn, txn i n L bs Pn s;
  pg_written : written s0 ip upto off0 data s;
  pg_inode : itable s !! k = Some ip;
}.

(** One round of the loop. *)
Lemma writei_round f s0 s k ip upto off0 done_ data bs (Q : Z * Z -> kern -> Prop) :
  file_blocks s0 ip upto -> progress s0 k ip upto off0 done_ bs s -> (length bs < 30)%nat -> 0 <= off0 ->
  let tot := Z.of_nat (length done_) in
  let off := off0 + tot in
  let cnt := Z.of_nat (length data) in
  let m := Z.min (cnt - tot) (BSIZE - off mod BSIZE) in
  tot < cnt -> off + m <= upto ->
  (forall bs' s', (length bs' <= S (length bs))%nat ->
     progress s0 k ip upto off0 (done_ ++ take (Z.to_nat m) (drop (Z.to_nat tot) data)) bs' s' ->
     wp (writei_loop f k (Local data) (off + m) cnt (tot + m)) Q s') ->
  wp (writei_loop (S f) k (Local data) off cnt tot) Q s.
Proof.
  intros Hf [Hb (Pn & HT) HW Hip] Hlen Hoff0 tot off cnt m Hlt Hup Hnext. assert (0 <= off) as Hoff by lia.
  destruct (block_of off Hoff) as (B1 & B2 & B3 & B4). assert (0 < m <= cnt - tot /\ off mod BSIZE + m <= BSIZE) as [Hm Hfit] by lia. pose proof (fb_upto _ _ _ Hf). assert (MAXFILE = 268) as EM by reflexivity.
  destruct (fb_ok _ _ _ Hf (off / BSIZE) B1 ltac:(lia)) as (F1 & F2 & F3 & _).
  assert (sb_logstart (sb s0) = L) as Est by (destruct Hb as (_ & _ & E & _); simpl in E; rewrite <- E; apply HT). rewrite Est in F2.
  pose proof (wr_addr _ _ _ _ _ _ HW (off / BSIZE)) as EA. pose proof (txn_calmly i n L bs Pn s HT Hlen) as Hc.
  cbn [writei_loop]. rewrite (proj2 (Z.ltb_lt tot cnt)) by done.
  wsteps. eapply wp_mono; [apply (bmap_mapped i n Pn s k ip); auto; [apply Hf|apply Hf|lia|now rewrite EA]|].
  intros a s1 [-> Hl1]. rewrite EA, (proj2 (Z.eqb_neq _ 0)) by done.
  wsteps. apply (wp_getinode k ip); [now rewrite (looked_itable _ _ _ _ _ Hl1)|]. rewrite (fb_dev _ _ _ Hf). wsteps.
  pose proof (txn_looked i n L bs Pn s s1 HT Hl1) as HT1. pose proof (txn_calmly i n L bs Pn s1 HT1 Hlen) as Hc1.
  eapply wp_mono; [apply (bread_calm i n Pn s1 _ Hc1)|]. intros bp s2 [Hl2 (b & Hb2 & Hbk & Hd & _)]. wsteps.
  eapply wp_mono; [eapply (wp_copyin_local [bp] Pn s2 s1); [apply Hc1|done]|]. intros r s3 (-> & Eb3 & Hl3). wsteps.
  apply (wp_updbuf bp _ b); [now rewrite Eb3|]. cbv beta. simpl fst. simpl snd. rewrite (proj2 (Z.eqb_neq 0 (-1))) by lia. cbv iota.
  set (chunk := take (Z.to_nat m) (drop (Z.to_nat tot) data)).
  assert (length chunk = Z.to_nat m) as Hcl by (unfold chunk; rewrite length_take, length_drop; lia).
  pose proof (log_brelse i n L bs Pn s1 s3 bp b (splice (Z.to_nat (off mod BSIZE)) chunk (b_data b)) HT1 Hlen Hl3
    ltac:(now rewrite Eb3) ltac:(now rewrite Hbk)) as HL.
  rewrite Eb3 in HL. apply wp_bind_inv in HL. rewrite Eb3. wsteps. eapply wp_mono; [exact HL|]. intros [] s4 H4. wsteps.
  eapply wp_mono; [exact H4|]. intros [] s5 [LB LD LT LV]. rewrite u32_small by lia. apply (Hnext (absorb (b_blockno b) bs)); [apply absorb_length|]. constructor; [|done| |].
  - etransitivity; [exact Hb|]. etransitivity; [apply upper_beside, Hl1|done].
  - fold chunk. apply (written_step s0 s s5); auto; fold tot off; [lia..|]. intros x. rewrite LV, Hbk.
    destruct (decide (x = block_addr s0 ip (off / BSIZE))) as [->|]; rewrite ?Hd, (lo_view _ _ _ _ _ Hl1); done.
  - destruct LB as (_ & _ & _ & -> & _). simpl. now rewrite (looked_itable _ _ _ _ _ Hl1).
Qed.

Lemma writei_loop_spec s0 k ip upto off0 data fuel : forall s done_ bs,
  let tot := Z.of_nat (length done_) in
  let cnt := Z.of_nat (length data) in
  file_blocks s0 ip upto -> progress s0 k ip upto off0 done_ bs s -> 0 <= off0 -> off0 + cnt <= upto ->
  done_ = take (length done_) data -> (length data - length done_ <= fuel)%nat ->
  (length bs <= 29)%nat -> (tot < cnt -> Z.of_nat (length bs) + blocks_left (off0 + tot) (off0 + cnt) <= 29) ->
  wp (writei_loop fuel k (Local data) (off0 + tot) cnt tot) (fun r s' => r = (cnt, off0 + cnt) /\
    exists bs', (length bs' <= 29)%nat /\ progress s0 k ip upto off0 data bs' s') s.
Proof.
  induction fuel as [|fuel IH]; intros s done_ bs tot cnt Hf Hp Hoff Hup Hd Hfuel Hbs Hroom.
  all: assert (length done_ <= length data)%nat as Hle by (rewrite Hd, length_take; lia).
  all: destruct (decide (tot < cnt)) as [Hlt|Hge];
    [|assert (length done_ = length data) as E by lia; assert (tot = cnt) as -> by lia;
      rewrite E, take_ge in Hd by lia; subst done_; simpl; rewrite Z.ltb_irrefl; wsteps; eauto].
  { exfalso. lia. }
  assert (0 <= off0 + tot) as Hot by lia. destruct (block_of (off0 + tot) Hot) as (_ & _ & B3 & _).
  apply (writei_round fuel s0 s k ip upto off0 done_ data bs); auto; [lia|lia|].
  fold tot cnt. set (m := Z.min (cnt - tot) (BSIZE - (off0 + tot) mod BSIZE)). intros bs' s' Hbs' Hp'.
  set (chunk := take (Z.to_nat m) (drop (Z.to_nat tot) data)) in *.
  assert (length (done_ ++ chunk) = length done_ + Z.to_nat m)%nat as El.
  { unfold chunk. rewrite length_app, length_take, length_drop. lia. }
  pose proof (blocks_left_pos (off0 + tot) (off0 + cnt) ltac:(lia)).
  specialize (IH s' (done_ ++ chunk) bs'). cbv zeta in IH. rewrite El in IH.
  replace (Z.of_nat (length done_ + Z.to_nat m)) with (tot + m) in IH by lia.
  replace (off0 + (tot + m)) with (off0 + tot + m) in IH by lia. apply IH; auto; try lia.
  - unfold chunk. rewrite Hd at 1. replace (Z.to_nat tot) with (length done_) by lia. now rewrite take_take_drop.
  - fold cnt. intros Hlt2. rewrite blocks_left_step by lia. specialize (Hroom Hlt). lia.
Qed.

Lemma overwrite_contents s s' ip ip' upto off data :
  (forall o, 0 <= o < upto -> fbyte s' ip' o = if decide (off <= o < off + Z.of_nat (length data))
     then default 0 (data !! Z.to_nat (o - off)) else fbyte s ip o) ->
  0 <= off <= i_size ip -> i_size ip <= upto -> off + Z.of_nat (length data) <= upto ->
  i_size ip' = Z.max (i_size ip) (off + Z.of_nat (length data)) ->
  contents s' ip' = overwrite off data (contents s ip).
Proof.
  intros HW Hoff Hsz Hup Hs.
  apply list_eq. intros j. unfold contents, bytes_at, overwrite. rewrite list_lookup_fmap.
  assert (forall j, (j < Z.to_nat (i_size ip))%nat -> (fbyte s ip <$> seqZ 0 (i_size ip)) !! j = Some (fbyte s ip (Z.of_nat j))) as Hold.
  { intros a Ha'. rewrite list_lookup_fmap, lookup_seqZ_lt by lia. done. }
  assert (length (fbyte s ip <$> seqZ 0 (i_size ip)) = Z.to_nat (i_size ip)) as Hlen by (now rewrite length_fmap, length_seqZ).
  destruct (decide (Z.of_nat j < i_size ip')) as [Hj|Hj].
  2: { rewrite lookup_seqZ_ge by lia. symmetry. apply lookup_ge_None_2.
       rewrite !length_app, length_take, length_drop, Hlen. lia. }
  rewrite lookup_seqZ_lt by lia. simpl. rewrite HW by lia. rewrite Z.add_0_l.
  destruct (decide (off <= Z.of_nat j < off + Z.of_nat (length data))) as [Hin|Hin].
  - rewrite lookup_app_r by (rewrite length_take, Hlen; lia). rewrite length_take, Hlen, Nat.min_l by lia.
    rewrite lookup_app_l by lia. destruct (lookup_lt_is_Some_2 data (j - Z.to_nat off)) as [v Hv]; [lia|].
    rewrite Hv. replace (Z.to_nat (Z.of_nat j - off)) with (j - Z.to_nat off)%nat by lia. now rewrite Hv.
  - destruct (decide (Z.of_nat j < off)) as [Hl|Hl].
    + rewrite lookup_app_l by (rewrite length_take, Hlen; lia). rewrite lookup_take_lt, Hold by lia. done.
    + rewrite lookup_app_r by (rewrite length_take, Hlen; lia). rewrite length_take, Hlen, Nat.min_l by lia.
      rewrite lookup_app_r, lookup_drop by lia. rewrite Hold by lia. do 2 f_equal. lia.
Qed.

(** [writei] writes the file.  Inside a transaction with room, a write of
    [data] from a kernel buffer at [off], not beyond the end, to blocks the
    file has, returns the number of bytes and leaves the file with [data] at
    [off], everything else as it was, and the larger of the two sizes, in
    memory as in the inode's block; blocks that belong neither to the file
    nor to its inode are unchanged, and the transaction's invariant holds
    again. *)
Theorem writei_correct bs Pn s k ip data off upto :
  txn i n L bs Pn s -> itable s !! k = Some ip -> file_blocks s ip upto -> dinode_typed (inode_of ip) ->
  0 <= off <= i_size ip -> i_size ip <= upto -> off + Z.of_nat (length data) <= upto ->
  Z.of_nat (length bs) + blocks_left off (off + Z.of_nat (length data)) <= 29 -> (length bs <= 29)%nat ->
  blockno_ok L (IBLOCK (i_inum ip) (sb s)) -> length (bview s (IBLOCK (i_inum ip) (sb s))) = 1024%nat ->
  i_addrs ip !! Z.to_nat NDIRECT <> Some (IBLOCK (i_inum ip) (sb s)) ->
  wp (writei k (Local data) off (Z.of_nat (length data))) (fun r s' => r = Z.of_nat (length data) /\
    (exists ip', itable s' = <[k := ip']> (itable s) /\ contents s' ip' = overwrite off data (contents s ip) /\
       disk_inode s' (i_inum ip) = inode_of ip') /\
    (exists bs' Pn', txn i n L bs' Pn' s') /\
    forall x, x <> IBLOCK (i_inum ip) (sb s) -> (forall bn, 0 <= bn -> bn * BSIZE < upto -> x <> block_addr s ip bn) ->
      bview s' x = bview s x) s.
Proof.
  intros HT Hip Hf Hty Hoff Hsz Hup Hroom Hbs Hblk Hilen Hind. set (cnt := Z.of_nat (length data)) in *.
  pose proof (fb_upto _ _ _ Hf). assert (MAXFILE = 268) as EM by reflexivity.
  unfold writei. wsteps. apply (wp_getinode k ip); [done|]. rewrite u32_small by lia.
  rewrite (proj2 (Z.ltb_ge (i_size ip) off)), (proj2 (Z.ltb_ge (off + cnt) off)), (proj2 (Z.ltb_ge (MAXFILE * BSIZE) (off + cnt))) by lia.
  simpl orb. cbv iota. wsteps. eapply wp_mono.
  { pose proof (writei_loop_spec s k ip upto off data (Z.to_nat cnt) s [] bs) as HL. cbv zeta in HL.
    change (Z.of_nat (length (@nil Z))) with 0 in HL. rewrite Z.add_0_r in HL. apply HL; auto; [|lia..].
    constructor; [apply upper_beside; reflexivity|eauto|now apply written_nil|done]. }
  intros r s1 [-> (bs1 & Hb1 & [P1 (Pn1 & P2) P3 P4])]. simpl fst. simpl snd. wsteps. apply (wp_getinode k ip); [done|].
  set (ip' := set_i_size (Z.max (i_size ip) (off + cnt)) ip). pose proof (lookup_lt_Some _ _ _ P4) as Hlt1.
  assert (itable s1 = itable s) as EI by (destruct P1 as (_ & _ & _ & E & _); exact E).
  assert (sb s1 = sb s) as ES by (destruct P1 as (_ & _ & E & _); exact E).
  apply wp_bind. apply (wp_mono _ (fun _ s' => s' = set_itable (<[k := ip']> (itable s1)) s1)).
  { fold cnt. unfold ip'. destruct (Z.ltb_spec (i_size ip) (off + cnt)).
    - apply (wp_updinode k _ ip); [done|]. now rewrite Z.max_r by lia.
    - apply wp_ret. rewrite Z.max_l by lia. rewrite list_insert_id; [now destruct s1|]. rewrite P4. now destruct ip. }
  intros [] s2 ->. set (s2 := set_itable _ s1).
  assert (itable s2 !! k = Some ip') as Hip2 by (now apply list_lookup_insert_eq).
  assert (txn i n L bs1 Pn1 s2) as HT2.
  { destruct P2 as [[A1 A2 A3 A4 A5 A6 A7 A8] T2 T3 T4 []]. constructor; auto; [|now constructor]. constructor; auto. destruct A6. now constructor. }
  assert (dinode_typed (inode_of ip')) as Hty'.
  { destruct Hty as [T1 T2 T3 T4 T5 T6 T7]. constructor; auto. unfold word. simpl. lia. }
  assert (bview s1 (IBLOCK (i_inum ip) (sb s)) = bview s (IBLOCK (i_inum ip) (sb s))) as EB.
  { apply (wr_other _ _ _ _ _ _ P3). intros bn H1 H2. destruct (fb_ok _ _ _ Hf bn H1 H2) as (_ & _ & _ & _ & Hn). auto. }
  wsteps. eapply wp_mono; [apply (iupdate_spec i n L bs1 Pn1 s2 k ip'); auto; [lia|apply Hf|simpl; now rewrite ES]|].
  intros [] s3 [B3 D3 (Pn3 & HT3) V3]. wsteps. change (sb s2) with (sb s1) in V3. change (i_inum ip') with (i_inum ip) in V3. rewrite ES in V3.
  change (forall x, bview s3 x = if decide (x = IBLOCK (i_inum ip) (sb s)) then
    put_dinode (inode_of ip') (bview s1 (IBLOCK (i_inum ip) (sb s))) (islot (i_inum ip)) else bview s1 x) in V3.
  pose proof B3 as (_ & _ & S3 & I3 & _). simpl in S3, I3. split; [apply i32_small; lia|]. split; [|split; [eauto|]].
  - exists ip'. split; [now rewrite I3, EI|]. split.
    + apply (overwrite_contents s s3 ip ip' upto); auto.
      assert (forall bn, block_addr s3 ip bn = block_addr s ip bn) as EA.
      { intros bn. rewrite <- (wr_addr _ _ _ _ _ _ P3 bn). unfold block_addr. destruct (bn <? NDIRECT); [done|].
        destruct (lookup_lt_is_Some_2 (i_addrs ip) (Z.to_nat NDIRECT)) as [a Ea]; [rewrite (fb_len _ _ _ Hf); lia|]. rewrite Ea. simpl default.
        rewrite V3, decide_False; [done|]. intros ->. done. }
      intros o Ho. rewrite <- (wr_bytes _ _ _ _ _ _ P3) by done. destruct (block_of o ltac:(lia)) as (O1 & O2 & O3 & O4).
      change (fbyte s3 ip' o) with (fbyte s3 ip o). unfold fbyte. rewrite EA, (wr_addr _ _ _ _ _ _ P3), V3, decide_False; [done|].
      destruct (fb_ok _ _ _ Hf (o / BSIZE) O1 ltac:(lia)) as (_ & _ & _ & _ & Hn). auto.
    + unfold disk_inode. rewrite S3, ES, V3, decide_True by done. apply get_put_dinode; [done|]. rewrite EB, Hilen. apply islot_bound.
  - intros x Hx Hbn. rewrite V3, decide_False by done. now apply (wr_other _ _ _ _ _ _ P3).
Qed.
End Writei.
