(* ===== verification/Fsalloc.v ===== *)
(** * Allocating blocks (kernel/fs.c)

    The bitmap as a predicate on block numbers.  Inside a transaction
    [balloc] takes the first free block, [bfree] gives a block back; neither
    touches anything else, and both keep to blocks that the log covers. *)

From S2P Require Import Prelude.
From S2P Require Import Mach.
From S2P Require Import Spinlock.
From S2P Require Import Kalloc.
From S2P Require Import Vm.
From S2P Require Import Proc.
From S2P Require Import Kstate.
From S2P Require Import Printk.
From S2P Require Import Sleeplock.
From S2P Require Import Bio.
From S2P Require Import Log.
From S2P Require Import Fs.
From S2P Require Import Fsread.
From S2P Require Import Dir.
From S2P Require Import Fswrite.

(** Block [b] is marked in the bitmap. *)
Definition bitmap_byte (v : Z -> list Z) (sb : superblock) (b : Z) : Z := default 0 (v (BBLOCK b sb) !! Z.to_nat (b mod BPB / 8)).
Definition in_use (v : Z -> list Z) (sb : superblock) (b : Z) : bool := Z.testbit (bitmap_byte v sb b) (b mod BPB mod 8).

(** The bitmap blocks are whole, none of them is free, and they are apart
    from the log, whose blocks are not free either. *)
Definition off_log (sb : superblock) (x : Z) : Prop := x < sb_logstart sb \/ sb_logstart sb + 30 < x.
Record bitmap_ok (v : Z -> list Z) (sb : superblock) : Prop := {
  bm_size : 0 <= sb_size sb < 1073741824;
  bm_start : 0 <= sb_bmapstart sb < 1073741824;
  bm_len : forall b, 0 <= b < sb_size sb -> length (v (BBLOCK b sb)) = 1024%nat;
  bm_self : forall b b', 0 <= b < sb_size sb -> 0 <= b' < sb_size sb -> in_use v sb b = false -> BBLOCK b' sb <> b;
  bm_log : forall b, 0 <= b < sb_size sb -> off_log sb (BBLOCK b sb);
  bm_logged : forall b, 0 <= b < sb_size sb -> in_use v sb b = false -> off_log sb b;
}.

Lemma bitmap_ok_view v v' sb : bitmap_ok v sb -> (forall x, v' x = v x) -> bitmap_ok v' sb.
Proof.
  intros [H1 H2 H3 H4 H5 H6] V. assert (forall b, in_use v' sb b = in_use v sb b) as E by (intros b; unfold in_use, bitmap_byte; now rewrite V).
  constructor; auto; intros b; [rewrite V|rewrite E|rewrite E]; auto.
Qed.

(** ** Bits *)

Lemma bit_test d k : 0 <= k -> (Z.land d (Z.shiftl 1 k) =? 0) = negb (Z.testbit d k).
Proof.
  intros Hk. rewrite land_bit by done. destruct (Z.testbit d k); [|done]. rewrite Z.shiftl_mul_pow2 by done. pose proof (Z.pow_pos_nonneg 2 k ltac:(lia) Hk). simpl. apply Z.eqb_neq. lia.
Qed.
Lemma shift_testbit k n : 0 <= k -> 0 <= n -> Z.testbit (Z.shiftl 1 k) n = (n =? k).
Proof.
  intros Hk Hn. rewrite Z.shiftl_mul_pow2, Z.mul_1_l by done. destruct (Z.eqb_spec n k) as [->|Hne]; [now apply Z.pow2_bits_true|]. apply Z.pow2_bits_false. congruence.
Qed.

(** The position of a block in the bitmap. *)
Lemma block_position b : 0 <= b -> 0 <= b mod BPB < BPB /\ 0 <= b mod BPB mod 8 < 8 /\ b mod BPB = 8 * (b mod BPB / 8) + b mod BPB mod 8 /\ 0 <= b mod BPB / 8 < 1024.
Proof.
  intros Hb. change BPB with 8192. pose proof (Z.mod_pos_bound b 8192). pose proof (Z.mod_pos_bound (b mod 8192) 8). pose proof (Z.div_mod (b mod 8192) 8). lia.
Qed.
Lemma BBLOCK_inj sb b b' : 0 <= b < 1073741824 -> 0 <= b' < 1073741824 -> 0 <= sb_bmapstart sb < 1073741824 -> BBLOCK b sb = BBLOCK b' sb -> b / BPB = b' / BPB.
Proof.
  unfold BBLOCK. change BPB with 8192. intros Hb Hb' Hs. pose proof (Z.div_mod b 8192). pose proof (Z.mod_pos_bound b 8192). pose proof (Z.div_mod b' 8192). pose proof (Z.mod_pos_bound b' 8192).
  rewrite !u32_small by lia. lia.
Qed.

(** Changing the byte of block [b] with [f] changes its bit, and no other. *)
Lemma change_bit v v' sb b (f : Z -> Z) : bitmap_ok v sb -> 0 <= b < sb_size sb ->
  (forall b', 0 <= b' < sb_size sb -> v' (BBLOCK b' sb) = if decide (BBLOCK b' sb = BBLOCK b sb) then <[Z.to_nat (b mod BPB / 8) := f (bitmap_byte v sb b)]> (v (BBLOCK b sb)) else v (BBLOCK b' sb)) ->
  (forall n, 0 <= n < 8 -> n <> b mod BPB mod 8 -> Z.testbit (f (bitmap_byte v sb b)) n = Z.testbit (bitmap_byte v sb b) n) ->
  forall b', 0 <= b' < sb_size sb -> in_use v' sb b' = if decide (b' = b) then Z.testbit (f (bitmap_byte v sb b)) (b mod BPB mod 8) else in_use v sb b'.
Proof.
  intros Hok Hb Hv Hf b' Hb'. pose proof (bm_size _ _ Hok). pose proof (bm_start _ _ Hok). destruct (block_position b ltac:(lia)) as (P1 & P2 & P3 & P4). destruct (block_position b' ltac:(lia)) as (Q1 & Q2 & Q3 & Q4).
  pose proof (bm_len _ _ Hok b Hb) as Hlen. unfold in_use at 1, bitmap_byte at 1. rewrite Hv by done. destruct (decide (BBLOCK b' sb = BBLOCK b sb)) as [E|E].
  - apply BBLOCK_inj in E as E'; [|lia..]. destruct (decide (Z.to_nat (b' mod BPB / 8) = Z.to_nat (b mod BPB / 8))) as [Ej|Ej].
    + rewrite Ej, list_lookup_insert_eq by lia. cbn [default]. destruct (decide (b' = b)) as [->|Hne]; [done|].
      change (default 0 (Some ?x)) with x. rewrite Hf; [unfold in_use, bitmap_byte; now rewrite E, Ej|lia|].
      intros Em. apply Hne. pose proof (Z.div_mod b BPB). pose proof (Z.div_mod b' BPB). change BPB with 8192 in *. lia.
    + rewrite list_lookup_insert_ne by congruence. rewrite decide_False by congruence. unfold in_use, bitmap_byte. now rewrite E.
  - rewrite decide_False by congruence. done.
Qed.

(** ** Scanning the bitmap *)

(** What [balloc] leaves in the blocks when it takes [b]. *)
Definition zeroed : list Z := replicate (Z.to_nat BSIZE) 0.
Definition marked (v : Z -> list Z) (sb : superblock) (f : Z -> Z) (b : Z) : list Z :=
  <[Z.to_nat (b mod BPB / 8) := f (bitmap_byte v sb b)]> (v (BBLOCK b sb)).
Definition mask (b : Z) : Z := Z.shiftl 1 (b mod BPB mod 8).

Section Scan.
Context {P : Patience} {D : DiskDriver} {DO : DiskOk D}.
Variables (i : nat) (n : Z) (L : oplog) (B : list nat) (bs : list Z) (Pn : list nat) (s0 : kern).
Hypothesis Hok : bitmap_ok (bview s0) (sb s0).
Let v : Z -> list Z := bview s0.
Let z : superblock := sb s0.

(** The buffer of block [b]'s part of the bitmap. *)
Definition at_bitmap (k : nat) (b : Z) (s : kern) : Prop :=
  looked n (k :: B) Pn s0 s /\ holding_block s Pn k (BBLOCK b z) (v (BBLOCK b z)) /\ steady B s0 s.
Definition taken (b : Z) (s : kern) : Prop :=
  hlogged i n L B s0 (fun x => if decide (x = b) then zeroed else if decide (x = BBLOCK b z) then marked v z (fun d => Z.lor d (mask b)) b else v x)
    (absorb b (absorb (BBLOCK b z) bs)) s.

Lemma bitmap_blockno (l : Z) b : sb_logstart z = l -> 0 <= b < sb_size z -> blockno_ok l (BBLOCK b z).
Proof.
  intros <- Hb. split; [|now apply Hok]. pose proof (bm_size _ _ Hok). pose proof (bm_start _ _ Hok). unfold z in *. unfold BBLOCK. change BPB with 8192.
  pose proof (Z.div_mod b 8192). pose proof (Z.mod_pos_bound b 8192). rewrite u32_small; lia.
Qed.

Lemma wp_getbit k b s (Q : Z -> kern -> Prop) : 0 <= b < sb_size z -> at_bitmap k b s ->
  Q (bitmap_byte v z b) s -> wp (getdata k (b mod BPB / 8)) Q s.
Proof.
  intros Hb (_ & (b1 & HB & _ & Hd & _) & _) HQ. destruct (block_position b ltac:(lia)) as (_ & _ & _ & Hp). pose proof (bm_len _ _ Hok b Hb) as Hl.
  unfold getdata. wsteps. apply (wp_getbuf k b1); [done|]. rewrite Hd. unfold bitmap_byte in HQ.
  destruct (lookup_lt_is_Some_2 (v (BBLOCK b z)) (Z.to_nat (b mod BPB / 8))) as [x Hx]; [unfold v, z; lia|].
  rewrite Hx in HQ |- *. now apply wp_ret.
Qed.

Lemma bit_free b : 0 <= b -> (Z.land (bitmap_byte v z b) (mask b) =? 0) = negb (in_use v z b).
Proof. intros Hb. destruct (block_position b Hb) as (_ & Hp & _). unfold mask. now rewrite bit_test by lia. Qed.

Hypothesis HT : htxn i n L B bs Pn s0.
Hypothesis Hroom1 : (length bs < 30)%nat.
Hypothesis Hfar : forall b, 0 <= b < sb_size z -> apart B s0 (BBLOCK b z).

(** Change the byte of block [b] in the buffer, log it and let it go. *)
Lemma wp_mark k b s (f : Z -> Z) : 0 <= b < sb_size z -> at_bitmap k b s ->
  wp (do! setdata k (b mod BPB / 8) (f (bitmap_byte v z b)); do! log_write k; brelse k)
    (fun _ => hlogged i n L B s0 (fun x => if decide (x = BBLOCK b z) then marked v z f b else v x) (absorb (BBLOCK b z) bs)) s.
Proof.
  intros Hb (Hl & (b1 & HB & Hbk & Hd & _) & Hst). destruct (block_position b ltac:(lia)) as (_ & _ & _ & Hp). pose proof (bm_len _ _ Hok b Hb) as Hlen.
  unfold setdata. wsteps. apply (wp_getbuf k b1); [done|]. rewrite Hd, (proj2 (Nat.ltb_lt _ _)) by (unfold v, z; lia).
  apply (wp_updbuf k _ b1); [done|]. pose proof (hlog_brelse i n L B bs Pn s0 s k b1 (marked v z f b)) as HL. rewrite Hbk in HL.
  apply HL; auto. apply bitmap_blockno; [apply HT|done].
Qed.

Hypothesis Hroom : (length bs + length B < 29)%nat.
Hypothesis Hfar0 : forall b, 0 <= b < sb_size z -> in_use v z b = false -> apart B s0 b.

(** The block is free: mark it, then clear it. *)
Lemma wp_take k b s : 0 <= b < sb_size z -> in_use v z b = false -> at_bitmap k b s ->
  wp (do! setdata k (b mod BPB / 8) (Z.lor (bitmap_byte v z b) (mask b)); do! log_write k; do! brelse k; do! bzero ROOTDEV b; ret (Some (u32 b)))
    (fun r s' => r = Some b /\ taken b s') s.
Proof.
  intros Hb Hfree Hat. pose proof (bm_size _ _ Hok) as Hsz. fold z in Hsz.
  pose proof (wp_mark k b s (fun d => Z.lor d (mask b)) Hb Hat) as HM. cbv beta in HM. apply wp_bind_inv in HM.
  wsteps. eapply wp_mono; [exact HM|]. intros [] s1 H1. apply wp_bind_inv in H1.
  wsteps. eapply wp_mono; [exact H1|]. intros [] s2 H2. wsteps. eapply wp_mono; [exact H2|]. intros [] s3 [LB LD (Pn' & LT) LV LS].
  wsteps. unfold bzero. pose proof (absorb_length (BBLOCK b z) bs).
  eapply wp_mono; [apply (hwp_logged i n L B (absorb (BBLOCK b z) bs) Pn' s3 (u32 b) (fun _ => zeroed)); rewrite ?u32_small; unfold room; [exact LT|lia|eapply apart_steady; eauto|lia| |lia..]|].
  { split; [lia|]. rewrite <- (un_sb _ _ (tx_under _ _ _ _ _ _ _ HT)). now apply (bm_logged _ _ Hok). }
  intros [] s4 [MB MD MT MV MS]. wsteps. rewrite u32_small in * by lia. split; [done|]. constructor; [etransitivity; eauto|congruence|done| |etransitivity; eauto].
  intros x. rewrite MV, LV. done.
Qed.

Lemma in_chunk b0 k : b0 mod BPB = 0 -> 0 <= k < BPB -> (b0 + k) mod BPB = k /\ BBLOCK (b0 + k) z = BBLOCK b0 z.
Proof.
  intros Hm Hk. unfold BBLOCK. change BPB with 8192 in *. assert ((b0 + k) mod 8192 = k /\ (b0 + k) / 8192 = b0 / 8192) as [-> ->]; [|done].
  pose proof (Z.div_mod b0 8192). pose proof (Z.div_mod (b0 + k) 8192). pose proof (Z.mod_pos_bound (b0 + k) 8192). lia.
Qed.
(** [b] is the first free block from [b0] on. *)
Definition first_free (b0 b : Z) : Prop :=
  b0 <= b < sb_size z /\ in_use v z b = false /\ forall b', b0 <= b' < b -> in_use v z b' = true.

(** The bits of one block of the bitmap. *)
Lemma scan_block k b0 s : b0 mod BPB = 0 -> 0 <= b0 < sb_size z -> at_bitmap k b0 s ->
  wp (balloc_block ROOTDEV b0 k (sb_size z))
    (fun r s' => match r with
       | inl _ => s' = s /\ forall b', b0 <= b' < Z.min (sb_size z) (b0 + BPB) -> in_use v z b' = true
       | inr b => first_free b0 b /\ taken b s'
       end) s.
Proof.
  intros Hm Hb0 Hat. pose proof (bm_size _ _ Hok) as Hsz. fold z in Hsz. set (N := Z.to_nat (Z.min (sb_size z - b0) BPB)).
  assert (BPB = 8192) as EB by reflexivity. unfold balloc_block. eapply wp_mono.
  - apply (wp_mwhile (fun k s' => s' = s /\ forall b', b0 <= b' < b0 + Z.of_nat k -> in_use v z b' = true) (fun b s' => first_free b0 b /\ taken b s') N _ 0 1).
    + lia.
    + intros j Hj. rewrite u32_small by lia. apply andb_true_intro. split; apply Z.ltb_lt; lia.
    + rewrite u32_small by lia. apply andb_false_iff. rewrite !Z.ltb_ge. lia.
    + lia.
    + split; [done|]. lia.
    + intros j s' Hj (-> & Hbusy). replace (0 + Z.of_nat j * 1) with (Z.of_nat j) by lia. set (b := b0 + Z.of_nat j).
      destruct (in_chunk b0 (Z.of_nat j) Hm ltac:(lia)) as [Ej EB0]. fold b in Ej, EB0.
      assert (at_bitmap k b s) as Hatb by (unfold at_bitmap; now rewrite EB0). rewrite <- Ej.
      wsteps. apply (wp_getbit k b s); [lia|done|]. fold (mask b). rewrite bit_free by lia. destruct (in_use v z b) eqn:Eb; simpl negb; cbv iota.
      * wsteps. split; [done|]. intros b' Hb'. destruct (decide (b' = b)) as [->|]; [done|]. apply Hbusy. lia.
      * rewrite Ej. fold b. rewrite <- Ej at 1. eapply wp_mono; [apply (wp_take k b s); [lia|done|done]|].
        intros r s' [-> Ht]. split; [|done]. split; [lia|]. split; [done|]. intros b' Hb'. apply Hbusy. lia.
  - intros [j|b] s' H; [|exact H]. destruct H as (_ & -> & H). split; [done|]. intros b' Hb'. apply H. lia.
Qed.

(** The blocks of the bitmap, in turn. *)
Lemma scan_bitmap : 
  wp (mwhile (Z.to_nat (sb_size z / BPB + 1)) (fun b => u32 b <? sb_size z) (fun b => i32 (b + BPB)) (fun b =>
        let! bp := bread ROOTDEV (BBLOCK b z) in
        let! r := balloc_block ROOTDEV b bp (sb_size z) in
        match r with inr x => ret (Some x) | inl _ => do! brelse bp; ret None end) 0)
    (fun r s' => match r with
       | inl _ => looked n B Pn s0 s' /\ steady B s0 s' /\ forall b, 0 <= b < sb_size z -> in_use v z b = true
       | inr b => first_free 0 b /\ taken b s'
       end) s0.
Proof.
  pose proof (bm_size _ _ Hok) as Hsz. fold z in Hsz. assert (BPB = 8192) as EB by reflexivity.
  set (N := Z.to_nat ((sb_size z + 8191) / 8192)). pose proof (Z.div_mod (sb_size z + 8191) 8192) as D1. pose proof (Z.mod_pos_bound (sb_size z + 8191) 8192) as D2.
  pose proof (Z.div_mod (sb_size z) 8192) as D3. pose proof (Z.mod_pos_bound (sb_size z) 8192) as D4.
  eapply wp_mono.
  - apply (wp_mwhile (fun k s' => looked n B Pn s0 s' /\ steady B s0 s' /\ forall b, 0 <= b < Z.min (sb_size z) (Z.of_nat k * BPB) -> in_use v z b = true) (fun b s' => first_free 0 b /\ taken b s') N _ 0 BPB).
    + rewrite EB. lia.
    + intros j Hj. rewrite u32_small by lia. apply Z.ltb_lt. lia.
    + rewrite u32_small by lia. apply Z.ltb_ge. lia.
    + intros j Hj. rewrite i32_small by lia. lia.
    + split; [apply looked_refl, HT|]. split; [done|]. lia.
    + intros j s Hj (Hl & Hst & Hbusy). set (b0 := 0 + Z.of_nat j * BPB). assert (b0 mod BPB = 0) as Hm by (unfold b0; rewrite Z.add_0_l; now apply Z.mod_mul).
      pose proof (htxn_looked i n L B bs Pn s0 s HT Hl) as HTs.
      wsteps. eapply wp_mono; [apply (bread_in i n L B bs Pn s (BBLOCK b0 z)); [done|unfold room; lia|eapply apart_steady; [apply Hfar; lia|done]]|].
      intros bp s1 (Hl1 & Hh & Hst1). assert (steady B s0 s1) as Hst01 by (etransitivity; eauto). pose proof (looked_trans _ _ _ _ _ _ _ Hl Hl1) as Hl01. rewrite (lo_view _ _ _ _ _ Hl) in Hh.
      wsteps. eapply wp_mono; [apply (scan_block bp b0 s1 Hm); [lia|done]|]. intros [?|b] s2 H2.
      * destruct H2 as [-> H2]. wsteps. eapply wp_mono; [eapply (brelse_in i n L B bs Pn s0 s1); eauto|]. intros [] s3 [H3 H3s]. wsteps.
        split; [done|]. split; [etransitivity; eauto|]. intros b Hb. destruct (decide (b < b0)); [apply Hbusy; lia|apply H2; lia].
      * wsteps. destruct H2 as [(F1 & F2 & F3) H2]. split; [|done]. split; [lia|]. split; [done|]. intros b' Hb'. destruct (decide (b' < b0)); [apply Hbusy; lia|apply F3; lia].
  - intros [j|b] s' H; [|exact H]. destruct H as (_ & Hl & Hst & H). split; [done|]. split; [done|]. intros b' Hb'. apply H. lia.
Qed.
End Scan.

(** ** The allocator *)

Section Alloc.
Context {P : Patience} {D : DiskDriver} {DO : DiskOk D}.
Variables (i : nat) (n : Z) (L : oplog) (B : list nat).
Implicit Types (s : kern) (Pn : list nat) (bs : list Z).

Lemma logged_sb s f bs' s' : hlogged i n L B s f bs' s' -> sb s' = sb s.
Proof. intros [(_ & _ & E & _) _ _ _ _]. exact E. Qed.
Lemma txn_printed bs Pn o s s' : htxn i n L B bs Pn s -> printed o s s' -> htxn i n L B bs Pn s'.
Proof.
  intros [[A1 A2 A3 A4 A5 A6 A7 A8] H1 H2 H3 []] Hp. pose proof (printed_say _ _ _ Hp) as (Hc & _). destruct Hp as (K & HK & ->).
  constructor; auto; [|now constructor]. constructor; try done; [destruct A6; constructor; done|]. exact (ready_calm i n _ _ A8 Hc).
Qed.
Lemma printed_view o s s' : printed o s s' -> sb s' = sb s /\ forall x, bview s' x = bview s x.
Proof. now intros (K & _ & ->). Qed.

(** Only the bitmap's block changed among the blocks of the bitmap, and it
    is as long as it was. *)
Lemma marked_bits s v' b f : bitmap_ok (bview s) (sb s) -> 0 <= b < sb_size (sb s) ->
  (forall b', 0 <= b' < sb_size (sb s) -> v' (BBLOCK b' (sb s)) = if decide (BBLOCK b' (sb s) = BBLOCK b (sb s)) then marked (bview s) (sb s) f b else bview s (BBLOCK b' (sb s))) ->
  (forall m, 0 <= m < 8 -> m <> b mod BPB mod 8 -> Z.testbit (f (bitmap_byte (bview s) (sb s) b)) m = Z.testbit (bitmap_byte (bview s) (sb s) b) m) ->
  (forall b', 0 <= b' < sb_size (sb s) -> in_use v' (sb s) b' = if decide (b' = b) then Z.testbit (f (bitmap_byte (bview s) (sb s) b)) (b mod BPB mod 8) else in_use (bview s) (sb s) b') /\
  forall b', 0 <= b' < sb_size (sb s) -> length (v' (BBLOCK b' (sb s))) = 1024%nat.
Proof.
  intros Hok Hb Hv Hf. split; [now apply (change_bit (bview s))|].
  intros b' Hb'. rewrite Hv by done. destruct (decide _); [unfold marked; rewrite length_insert|]; now apply Hok.
Qed.

(** What taking block [b] means for the file system. *)
Record allocated s bs b s' : Prop := {
  al_zero : bview s' b = zeroed;
  al_sb : sb s' = sb s;
  al_bits : forall b', 0 <= b' < sb_size (sb s) -> in_use (bview s') (sb s) b' = (b' =? b) || in_use (bview s) (sb s) b';
  al_ok : bitmap_ok (bview s') (sb s);
  al_same : forall x, x <> b -> x <> BBLOCK b (sb s) -> bview s' x = bview s x;
  al_beside : beside s s';
  al_txn : exists bs' Pn', (length bs' <= length bs + 2)%nat /\ htxn i n L B bs' Pn' s';
  al_steady : steady B s s';
}.

Lemma taken_allocated bs s b s' : bitmap_ok (bview s) (sb s) -> first_free s 0 b -> taken i n L B bs s b s' -> allocated s bs b s'.
Proof.
  intros Hok (Hb & Hfree & _) HL. pose proof (logged_sb _ _ _ _ HL) as Esb. destruct HL as [LB LD (Pn' & LT) LV LS].
  destruct (block_position b ltac:(lia)) as (_ & Hp & _).
  destruct (marked_bits s (bview s') b (fun d => Z.lor d (mask b)) Hok Hb) as [Hbits Hlen].
  { intros b' Hb'. rewrite LV. rewrite decide_False by (now apply (bm_self _ _ Hok)). done. }
  { intros m Hm Hne. unfold mask. rewrite Z.lor_spec, shift_testbit by lia. rewrite (proj2 (Z.eqb_neq _ _)) by done. apply orb_false_r. }
  assert (forall b', 0 <= b' < sb_size (sb s) -> in_use (bview s') (sb s) b' = (b' =? b) || in_use (bview s) (sb s) b') as Hbits'.
  { intros b' Hb'. rewrite Hbits by done. destruct (decide (b' = b)) as [->|Hne]; [|now rewrite (proj2 (Z.eqb_neq _ _))].
    unfold mask. rewrite Z.eqb_refl, Z.lor_spec, shift_testbit, Z.eqb_refl by lia. now rewrite orb_true_r. }
  constructor; auto.
  - now rewrite LV, decide_True.
  - constructor; [apply Hok..|done| |apply Hok|]; intros c; [intros c' Hc Hc' E|intros Hc E]; rewrite Hbits' in E by done; apply orb_false_iff in E as [_ E]; now apply Hok.
  - intros x H1 H2. now rewrite LV, !decide_False.
  - exists (absorb b (absorb (BBLOCK b (sb s)) bs)), Pn'. split; [|done]. pose proof (absorb_length b (absorb (BBLOCK b (sb s)) bs)). pose proof (absorb_length (BBLOCK b (sb s)) bs). lia.
Qed.

(** The buffers held are of blocks in use outside the bitmap. *)
Definition far s : Prop := forall k b, k ∈ B -> bufs s !! k = Some b ->
  forall x, 0 <= x < sb_size (sb s) -> b_blockno b <> BBLOCK x (sb s) /\ (in_use (bview s) (sb s) x = false -> b_blockno b <> x).

Lemma balloc_spec bs Pn s :
  htxn i n L B bs Pn s -> (length bs + length B < 29)%nat -> bitmap_ok (bview s) (sb s) -> tx_idle s -> far s ->
  wp (balloc ROOTDEV) (fun r s' =>
    (first_free s 0 r /\ allocated s bs r s') \/
    (r = 0 /\ (forall b, 0 <= b < sb_size (sb s) -> in_use (bview s) (sb s) b = true) /\
     exists s1 o, looked n B Pn s s1 /\ steady B s s1 /\ printed o s1 s')) s.
Proof.
  intros HT Hroom Hok Hidle Hfar. unfold balloc. wsteps.
  eapply wp_mono; [apply (scan_bitmap i n L B bs Pn s); auto with lia; intros b Hb; [|intros Hu]; intros k bf Hk Hbf; now apply (Hfar k bf Hk Hbf b)|].
  intros [j|b] s1 H; wsteps; [|left; destruct H as [Hf Ht]; split; [done|now apply taken_allocated]]. destruct H as (Hl & Hst & Hall).
  pose proof (htxn_looked i n L B bs Pn s s1 HT Hl) as HT1. destruct (ti_ready _ _ _ _ _ _ _ (tx_inv _ _ _ _ _ _ _ HT1)) as (Hlk & _ & Hfree & _).
  eapply wp_mono; [apply (printk_spec 3); [split; [done|split; [lia|]]|lia|apply Hfree|eexists; reflexivity]|].
  - destruct (lo_upper _ _ _ _ _ Hl) as (_ & _ & _ & _ & _ & E & _). unfold rest in E. injection E as _ _ E _ _. now rewrite E.
  - intros r s2 [o Ho]. wsteps. right. eauto 10.
Qed.

(** *** As a set of blocks *)

Definition used s : gset Z := list_to_set (filter (fun b => in_use (bview s) (sb s) b = true) (seqZ 0 (sb_size (sb s)))).

Lemma elem_of_used s b : b ∈ used s <-> 0 <= b < sb_size (sb s) /\ in_use (bview s) (sb s) b = true.
Proof. unfold used. rewrite elem_of_list_to_set, list_elem_of_filter, elem_of_seqZ. split; intros []; split; done || lia. Qed.
(** *** Giving a block back *)

(** What freeing block [b] means for the file system. *)
Record freed s bs b s' : Prop := {
  fr_sb : sb s' = sb s;
  fr_bits : forall b', 0 <= b' < sb_size (sb s) -> in_use (bview s') (sb s) b' = negb (b' =? b) && in_use (bview s) (sb s) b';
  fr_ok : (forall b', 0 <= b' < sb_size (sb s) -> BBLOCK b' (sb s) <> b) -> off_log (sb s) b -> bitmap_ok (bview s') (sb s);
  fr_same : forall x, x <> BBLOCK b (sb s) -> bview s' x = bview s x;
  fr_beside : beside s s';
  fr_dsk : dsk s' = dsk s;
  fr_txn : exists Pn', htxn i n L B (absorb (BBLOCK b (sb s)) bs) Pn' s';
  fr_steady : steady B s s';
}.

Lemma bfree_read bs Pn s b :
  htxn i n L B bs Pn s -> room B bs -> apart B s (BBLOCK b (sb s)) -> wp (bread ROOTDEV (BBLOCK b (sb s))) (fun k s' => at_bitmap n B Pn s k b s') s.
Proof. apply (bread_in i n L B bs Pn s). Qed.

Lemma bfree_spec bs Pn s b :
  htxn i n L B bs Pn s -> room B bs -> bitmap_ok (bview s) (sb s) -> apart B s (BBLOCK b (sb s)) ->
  0 <= b < sb_size (sb s) -> in_use (bview s) (sb s) b = true ->
  wp (bfree ROOTDEV b) (fun _ => freed s bs b) s.
Proof.
  intros HT Hroom Hok Hap Hb Huse. destruct (block_position b ltac:(lia)) as (_ & Hp & _). assert (length bs < 30)%nat as Hlt by (unfold room in Hroom; lia).
  unfold bfree. wsteps. eapply wp_mono; [now apply (bfree_read bs Pn)|]. intros k s1 Hat.
  wsteps. apply (wp_getbit n B Pn s Hok k b s1); [done..|]. wsteps. 1: fold (mask b); now rewrite bit_free, Huse by (done || lia).
  pose proof (wp_mark i n L B bs Pn s Hok HT Hlt k b s1 (fun d => Z.ldiff d (mask b)) Hb Hat) as HM. cbv beta in HM. apply wp_bind_inv in HM.
  eapply wp_mono; [exact HM|]. intros [] s2 H2. eapply wp_mono; [exact H2|].
  intros [] s4 HL. pose proof (logged_sb _ _ _ _ HL) as Esb. destruct HL as [LB LD (Pn' & LT) LV LS].
  destruct (marked_bits s (bview s4) b (fun d => Z.ldiff d (mask b)) Hok Hb) as [Hbits Hlen]; [intros b' _; apply LV| |].
  { intros m Hm Hne. unfold mask. rewrite Z.ldiff_spec, shift_testbit by lia. rewrite (proj2 (Z.eqb_neq _ _)) by done. apply andb_true_r. }
  assert (forall b', 0 <= b' < sb_size (sb s) -> in_use (bview s4) (sb s) b' = negb (b' =? b) && in_use (bview s) (sb s) b') as Hbits'.
  { intros b' Hb'. rewrite Hbits by done. destruct (decide (b' = b)) as [->|Hne]; [|now rewrite (proj2 (Z.eqb_neq _ _))].
    unfold mask. rewrite Z.eqb_refl, Z.ldiff_spec, shift_testbit, Z.eqb_refl by lia. apply andb_false_r. }
  constructor; eauto.
  - intros Hself Hlog. constructor; [apply Hok..|done| |apply Hok|]; intros c; [intros c' Hc Hc' E|intros Hc E]; rewrite Hbits' in E by done;
      (destruct (Z.eqb_spec c b) as [->|]; [auto|now apply Hok]).
  - intros x Hx. now rewrite LV, decide_False.
Qed.
End Alloc.

Section Blocks.
Context {P : Patience} {D : DiskDriver} {DO : DiskOk D}.
Variables (i : nat) (n : Z) (L : oplog).
Implicit Types (s : kern) (Pn : list nat) (bs : list Z).

Lemma far_nil s : far [] s.
Proof. intros k b Hk. now apply not_elem_of_nil in Hk. Qed.

(** C13: [balloc] is a block allocator.  Inside a transaction with room for
    two more blocks, on a well-formed bitmap, it returns the least block
    number that is not in use and adds exactly that block to the set of
    blocks in use; the block is zeroed, and no block changes but it and its
    bitmap block.  When every block is in use it reports so and returns 0,
    with nothing changed.  In both cases the bitmap is well formed and the
    transaction's invariant holds again, with at most two blocks more in the
    log. *)
Theorem balloc_correct bs Pn s :
  txn i n L bs Pn s -> (length bs < 29)%nat -> bitmap_ok (bview s) (sb s) -> tx_idle s ->
  wp (balloc ROOTDEV) (fun r s' =>
    sb s' = sb s /\ bitmap_ok (bview s') (sb s') /\
    (exists bs' Pn', (length bs' <= length bs + 2)%nat /\ txn i n L bs' Pn' s') /\
    ((0 <= r < sb_size (sb s) /\ (r ∉ used s) /\ (forall b, 0 <= b < r -> b ∈ used s) /\ (used s' = {[r]} ∪ used s) /\
      bview s' r = replicate 1024 0 /\ forall x, x <> r -> x <> BBLOCK r (sb s) -> bview s' x = bview s x) \/
     (r = 0 /\ (forall b, 0 <= b < sb_size (sb s) -> b ∈ used s) /\ forall x, bview s' x = bview s x))) s.
Proof.
  intros HT Hroom Hok Hidle. eapply wp_mono; [apply (balloc_spec i n L [] bs Pn s); simpl; auto using far_nil with lia|]. intros r s' [[(Hr & Hfree & Hlow) [A1 A2 A3 A4 A5 A6 A7 _]]|(-> & Hall & s1 & o & Hl & _ & Ho)].
  - rewrite A2. do 3 (split; [done|]). left. split; [done|]. split; [rewrite elem_of_used, Hfree; now intros []|].
    split; [intros b Hb; apply elem_of_used; split; [lia|now apply Hlow]|]. split; [|done].
    apply set_eq. intros b. rewrite elem_of_union, elem_of_singleton, !elem_of_used, A2.
    split; [intros [Hb E]; rewrite A3 in E by done|intros [->|[Hb E]]; split; try done; rewrite A3 by done].
    + apply orb_true_iff in E as [E|E]; [left; now apply Z.eqb_eq|now right].
    + now rewrite Z.eqb_refl.
    + rewrite E. apply orb_true_r.
  - destruct (printed_view _ _ _ Ho) as [E1 E2]. destruct (lo_upper _ _ _ _ _ Hl) as (_ & _ & E3 & _).
    assert (sb s' = sb s) as E by congruence. assert (forall x, bview s' x = bview s x) as V by (intros x; rewrite E2; apply Hl).
    rewrite E. split; [done|]. split; [now apply (bitmap_ok_view (bview s))|split].
    + exists bs, Pn. split; [lia|]. eapply txn_printed; [eapply txn_looked|]; eauto.
    + right. split; [done|]. split; [|done]. intros b Hb. apply elem_of_used. auto.
Qed.

(** [bfree] gives a block back.  Inside a transaction with room for one
    more block it removes exactly block [b] from the set of blocks in use and
    changes no block but [b]'s bitmap block, keeping the bitmap well formed
    unless [b] belongs to it or to the log, and the transaction's invariant holds again. *)
Theorem bfree_correct bs Pn s b :
  txn i n L bs Pn s -> (length bs < 30)%nat -> bitmap_ok (bview s) (sb s) -> b ∈ used s ->
  wp (bfree ROOTDEV b) (fun _ s' =>
    sb s' = sb s /\ used s' = used s ∖ {[b]} /\ (forall x, x <> BBLOCK b (sb s) -> bview s' x = bview s x) /\
    ((forall b', 0 <= b' < sb_size (sb s) -> BBLOCK b' (sb s) <> b) -> off_log (sb s) b -> bitmap_ok (bview s') (sb s')) /\
    exists bs' Pn', (length bs' <= length bs + 1)%nat /\ txn i n L bs' Pn' s') s.
Proof.
  intros HT Hroom Hok [Hb Huse]%elem_of_used. eapply wp_mono; [apply (bfree_spec i n L [] bs Pn s b); auto using room_nil, apart_nil|].
  intros [] s' [A1 A2 A3 A4 _ _ (Pn' & HT') _]. rewrite A1. split; [done|]. split; [|split; [done|split; [done|]]].
  - apply set_eq. intros b'. rewrite elem_of_difference, elem_of_singleton, !elem_of_used, A1.
    destruct (decide (0 <= b' < sb_size (sb s))) as [Hb'|]; [|tauto]. rewrite A2 by done. destruct (Z.eqb_spec b' b); simpl; naive_solver.
  - eexists _, Pn'. split; [|exact HT']. pose proof (absorb_length (BBLOCK b (sb s)) bs). lia.
Qed.

(** Freeing a block that is not in use is caught: [bfree] panics. *)
Theorem bfree_panics bs Pn s b :
  txn i n L bs Pn s -> (length bs < 30)%nat -> bitmap_ok (bview s) (sb s) -> 0 <= b < sb_size (sb s) -> b ∉ used s ->
  bfree ROOTDEV b s = Panic "freeing free block".
Proof.
  intros HT Hroom Hok Hb Hfree. assert (in_use (bview s) (sb s) b = false) as Hf.
  { destruct (in_use _ _ b) eqn:E; [|done]. destruct Hfree. now apply elem_of_used. }
  unfold bfree. eapply wp_bind_panic; [apply (wp_gets sb (fun z s' => z = sb s /\ s' = s)); done|]. intros ? ? [-> ->].
  eapply wp_bind_panic; [apply (bfree_read i n L [] bs Pn); auto using room_nil, apart_nil|]. intros k s1 Hat.
  eapply wp_bind_panic; [apply (wp_getbit n [] Pn s Hok k b s1 (fun d _ => d = bitmap_byte (bview s) (sb s) b)); done|]. intros ? s2 ->.
  apply bind_Panic. fold (mask b). rewrite bit_free, Hf by lia. done.
Qed.
End Blocks.
