(* ===== verification/Fsmap.v ===== *)
(** * The blocks of a growing file (kernel/fs.c)

    [bmap] finds the address of a file's block and, in a transaction, gives
    the file a block where it has none: a direct one, or one of the indirect
    block's, which it allocates first if need be. *)

From S2P Require Import Prelude.
From S2P Require Import Mach.
From S2P Require Import Spinlock.
From S2P Require Import Kalloc.
From S2P Require Import Vm.
From S2P Require Import Proc.
From S2P Require Import Kstate.
From S2P Require Import Printk.
From S2P Require Import Sleeplock.
From S2P Require Import Bio.
From S2P Require Import Log.
From S2P Require Import Fs.
From S2P Require Import Fsread.
From S2P Require Import Dir.
From S2P Require Import Fswrite.
From S2P Require Import Fsalloc.

(** A block that belongs to something: marked in use, outside the bitmap and
    the log. *)
Definition data_block (s : kern) (x : Z) : Prop :=
  0 < x < sb_size (sb s) /\ in_use (bview s) (sb s) x = true /\ off_log (sb s) x /\ forall b, 0 <= b < sb_size (sb s) -> BBLOCK b (sb s) <> x.
Definition fresh_block (s : kern) (x : Z) : Prop := 0 < x < sb_size (sb s) /\ in_use (bview s) (sb s) x = false.
Definition disk_full (s : kern) : Prop := forall b, 0 <= b < sb_size (sb s) -> in_use (bview s) (sb s) b = true.

Definition ind_of (ip : inode) : Z := default 0 (i_addrs ip !! Z.to_nat NDIRECT).

(** What the file system needs to hand out blocks. *)
Record can_grow (s : kern) : Prop := {
  cg_bitmap : bitmap_ok (bview s) (sb s);
  cg_zero : in_use (bview s) (sb s) 0 = true;
  cg_idle : tx_idle s;
}.

Section Grow.
Context {L : Layout} {P : Patience} {D : DiskDriver} {DO : DiskOk D}.
Variables (i : nat) (n : Z) (LS : oplog).
Implicit Types (s : kern) (Pn B : list nat) (bs X : list Z).

(** At most [m] blocks more in the log; of the blocks that belong to
    something, only those of [X] have changed. *)
Record grows X s bs (m : nat) s' bs' : Prop := {
  gr_sb : sb s' = sb s;
  gr_can : can_grow s';
  gr_used : forall x, 0 <= x < sb_size (sb s) -> in_use (bview s) (sb s) x = true -> in_use (bview s') (sb s) x = true;
  gr_same : forall x, data_block s x -> x ∉ X -> bview s' x = bview s x;
  gr_len : (length bs' <= length bs + m)%nat;
}.

Lemma grows_data X s bs m s' bs' x : grows X s bs m s' bs' -> data_block s x -> data_block s' x.
Proof. intros [E _ Hu _ _] (H1 & H2 & H3 & H4). unfold data_block. rewrite E. auto with lia. Qed.
Lemma grows_then X s1 bs1 m s2 bs2 m' s3 bs3 : grows X s1 bs1 m s2 bs2 -> grows X s2 bs2 m' s3 bs3 -> grows X s1 bs1 (m + m') s3 bs3.
Proof.
  intros G1 G2. pose proof (fun x => grows_data _ _ _ _ _ _ x G1) as Hd. destruct G1 as [A1 A2 A3 A4 A5], G2 as [B1 B2 B3 B4 B5].
  constructor; [congruence|done| | |lia].
  - intros x Hx Hu. rewrite A1 in B3. auto.
  - intros x Hx Hn. rewrite B4, A4; auto.
Qed.
Lemma grows_weaken X Y s bs m m' s' bs' : X ⊆ Y -> (m <= m')%nat -> grows X s bs m s' bs' -> grows Y s bs m' s' bs'.
Proof. intros HX Hm [A1 A2 A3 A4 A5]. constructor; [done|done|done| |lia]. intros x Hx Hn. apply A4; [done|]. intros H. apply Hn. now apply HX. Qed.

(** Out of blocks: nothing has happened but a message. *)
Definition stuck B Pn s s' : Prop := exists s1 o, looked n B Pn s s1 /\ steady B s s1 /\ printed o s1 s'.

Lemma stuck_same B Pn s s' : stuck B Pn s s' ->
  sb s' = sb s /\ itable s' = itable s /\ dsk s' = dsk s /\ steady B s s' /\ (forall x, bview s' x = bview s x) /\ (tx_idle s -> tx_idle s').
Proof.
  intros (s1 & o & Hl & Hst & Hp). destruct (printed_view _ _ _ Hp) as [E1 E2]. destruct (lo_upper _ _ _ _ _ Hl) as (_ & _ & U1 & U2 & _ & U3 & _).
  unfold rest in U3. injection U3 as _ _ U3 _ _. pose proof (lo_dsk _ _ _ _ _ Hl). pose proof (lo_view _ _ _ _ _ Hl) as V. destruct Hp as (K & _ & ->).
  split; [done|]. split; [done|]. split; [done|]. split; [exact Hst|]. split; [intros x; now rewrite E2|]. unfold tx_idle. simpl. now rewrite U3.
Qed.
Lemma stuck_txn B bs Pn s s' : htxn i n LS B bs Pn s -> stuck B Pn s s' -> htxn i n LS B bs Pn s'.
Proof. intros HT (s1 & o & Hl & _ & Hp). eapply txn_printed; [eapply htxn_looked; eauto|done]. Qed.

Lemma in_use_view s s' b : sb s' = sb s -> (forall x, bview s' x = bview s x) -> in_use (bview s') (sb s') b = in_use (bview s) (sb s) b.
Proof. intros E V. unfold in_use, bitmap_byte. now rewrite E, V. Qed.
Lemma same_grows X s bs s' : can_grow s -> sb s' = sb s -> (forall x, bview s' x = bview s x) -> (tx_idle s -> tx_idle s') -> grows X s bs 0 s' bs.
Proof.
  intros [C1 C2 C3] E V Hi. constructor; auto; [|intros x Hx Hu; rewrite <- E; now rewrite (in_use_view s)|lia].
  constructor; [rewrite E; now apply (bitmap_ok_view (bview s))|now rewrite (in_use_view s)|auto].
Qed.

(** [balloc], when block 0 is in use. *)
Lemma balloc_grows B bs Pn s :
  htxn i n LS B bs Pn s -> (length bs + length B < 29)%nat -> can_grow s -> far B s ->
  wp (balloc ROOTDEV) (fun r s' => itable s' = itable s /\ steady B s s' /\
    ((r = 0 /\ disk_full s /\ stuck B Pn s s') \/
     (fresh_block s r /\ data_block s' r /\ bview s' r = zeroed /\
      exists bs' Pn', htxn i n LS B bs' Pn' s' /\ grows [] s bs 2 s' bs'))) s.
Proof.
  intros HT Hr [C1 C2 C3] Hfar. eapply wp_mono; [now apply (balloc_spec i n LS B bs Pn s)|].
  intros r s' [[(Hr0 & Hf & _) [A1 A2 A3 A4 A5 A6 (bs' & Pn' & Hlen & HT') A8]]|(-> & Hall & Hst)].
  - destruct A6 as (_ & _ & _ & U2 & _ & U3 & _). unfold rest in U3. injection U3 as _ _ U3 _ _. simpl in U2.
    assert (r <> 0) as Hne by congruence. split; [done|]. split; [done|]. right. split; [unfold fresh_block; auto with lia|].
    split; [split; [rewrite A2; lia|]; rewrite A2, A3 by lia; rewrite Z.eqb_refl; split; [done|]; split; [now apply C1|]; intros b Hb; now apply (bm_self _ _ C1)|].
    split; [done|]. exists bs', Pn'. split; [done|]. constructor; [done| | | |done].
    + constructor; [now rewrite A2|rewrite A2, A3, C2, orb_true_r by lia; done|unfold tx_idle in *; simpl in U3; now rewrite U3].
    + intros x Hx Hu. rewrite A3, Hu by done. apply orb_true_r.
    + intros x (Hx1 & Hx2 & _ & Hx3) _. apply A5; [congruence|]. intros ->. now apply (Hx3 r).
  - destruct (stuck_same _ _ _ _ Hst) as (E1 & E2 & E3 & E4 & E5 & E6). split; [done|]. split; [done|]. left. auto.
Qed.

Lemma looked_same H Pn s s' : looked n H Pn s s' -> sb s' = sb s /\ itable s' = itable s /\ (forall x, bview s' x = bview s x) /\ (tx_idle s -> tx_idle s').
Proof.
  intros Hl. destruct (lo_upper _ _ _ _ _ Hl) as (_ & _ & U1 & U2 & _ & U3 & _). unfold rest in U3. injection U3 as _ _ U3 _ _.
  split; [done|]. split; [done|]. split; [apply Hl|]. unfold tx_idle. now rewrite U3.
Qed.
Lemma looked_grows X H Pn s bs s' : can_grow s -> looked n H Pn s s' -> grows X s bs 0 s' bs.
Proof. intros Hc Hl. destruct (looked_same _ _ _ _ Hl) as (E1 & _ & E2 & E3). now apply same_grows. Qed.

(** Writing a block that belongs to something. *)
Lemma write_grows B s ind v bs s' : can_grow s -> data_block s ind ->
  hlogged i n LS B s (fun x => if decide (x = ind) then v else bview s x) (absorb ind bs) s' ->
  grows [ind] s bs 1 s' (absorb ind bs) /\ itable s' = itable s /\ bview s' ind = v /\ (forall x, x <> ind -> bview s' x = bview s x).
Proof.
  intros [C1 C2 C3] (I1 & I2 & _ & I3) HL. pose proof (logged_sb _ _ _ _ _ _ _ _ HL) as Esb. destruct HL as [(_ & _ & _ & U2 & _ & U3 & _) LD _ LV _].
  unfold rest in U3. injection U3 as _ _ U3 _ _. simpl in U2, U3.
  assert (forall x, x <> ind -> bview s' x = bview s x) as V by (intros x Hx; now rewrite LV, decide_False).
  assert (forall x, 0 <= x < sb_size (sb s) -> in_use (bview s') (sb s) x = in_use (bview s) (sb s) x) as Hu.
  { intros x Hx. unfold in_use, bitmap_byte. rewrite V; [done|now apply I3]. }
  split; [|split; [done|split; [now rewrite LV, decide_True|done]]]. constructor; [done| | | |pose proof (absorb_length ind bs); lia].
  - destruct C1 as [B1 B2 B3 B4 B5 B6]. constructor; [rewrite Esb; constructor; auto| |].
    + intros x Hx. rewrite V; auto.
    + intros x x' Hx Hx'. rewrite Hu by done. auto.
    + intros x Hx. rewrite Hu by done. auto.
    + rewrite Esb, Hu; [done|lia].
    + unfold tx_idle in *. now rewrite U3.
  - intros x Hx. now rewrite Hu.
  - intros x _ Hn. apply V. intros ->. apply Hn. left.
Qed.

Lemma data_blockno bs Pn s B x : htxn i n LS B bs Pn s -> can_grow s -> data_block s x -> blockno_ok LS x.
Proof.
  intros HT Hc (H1 & _ & H2 & _). pose proof (bm_size _ _ (cg_bitmap _ Hc)). split; [lia|]. rewrite <- (un_sb _ _ (tx_under _ _ _ _ _ _ _ HT)). exact H2.
Qed.

(** The new entry of the indirect block, held meanwhile. *)
Definition bmap_slot (bp : nat) (m : Z) : M kern Z :=
  let! addr := balloc ROOTDEV in
  do! (if negb (addr =? 0) then
         do! updbuf bp (fun b => set_b_data (le_set 4 (b_data b) (Z.to_nat (4 * m)) addr) b);
         log_write bp
       else ret tt);
  ret addr.

(** The outcome of giving a file a block: none was free, or it has [a]. *)
Definition outcome_of s a s' (Q : Prop) : Prop :=
  (a = 0 /\ disk_full s /\ forall x, bview s' x = bview s x) \/
  (fresh_block s a /\ data_block s' a /\ bview s' a = zeroed /\ Q).

Lemma bmap_slot_spec bs Pn s s1 bp ind m :
  txn i n LS bs Pn s -> (length bs < 26)%nat -> can_grow s -> data_block s ind -> looked n [bp] Pn s s1 -> holding_block s1 Pn bp ind (bview s ind) ->
  wp (let! a := bmap_slot bp m in do! brelse bp; ret a) (fun a s' => itable s' = itable s /\ exists bs' Pn', txn i n LS bs' Pn' s' /\ grows [ind] s bs 3 s' bs' /\
    outcome_of s a s' (bview s' ind = le_set 4 (bview s ind) (Z.to_nat (4 * m)) a)) s1.
Proof.
  intros HT Hlen Hc Hind Hl Hh. destruct (looked_same _ _ _ _ Hl) as (E1 & Et1 & V1 & _). pose proof (looked_grows [ind] _ _ _ bs _ Hc Hl) as G1.
  pose proof (htxn_enter i n LS [] [bp] bs Pn s s1 HT Hl) as HT1. pose proof Hh as (b & Hb & Hbk & Hd & Hcl). pose proof Hind as (I1 & I2 & Il & I3).
  pose proof (data_blockno bs Pn s [] ind HT Hc Hind) as Hio.
  unfold bmap_slot. wsteps. eapply wp_mono; [apply (balloc_grows [bp] bs Pn s1 HT1); [simpl; lia|apply G1|]|].
  { intros k bk Hk Hbk' x Hx. apply list_elem_of_singleton in Hk as ->. rewrite Hb in Hbk'. injection Hbk' as <-. rewrite Hbk, E1 in *.
    split; [now apply not_eq_sym, I3|]. intros Hu ->. rewrite <- E1, (in_use_view s) in Hu by done. congruence. }
  intros a s2 (Et2 & Hst & [(-> & Hfull & Hstk)|(Hf & Hdb & Hz & bs' & Pn' & HT2 & G2)]).
  - simpl negb. cbv iota. wsteps. destruct (stuck_same _ _ _ _ Hstk) as (E2 & _ & D2 & _ & V2 & _). pose proof (stuck_txn _ _ _ _ _ HT1 Hstk) as HT2.
    eapply wp_mono; [apply (brelse_held i n [] Pn s2 bp ind (bview s ind)); [apply HT2..|]|].
    { exists b. rewrite Hst, D2 by now left. auto. }
    intros [] s3 [Hl3 _]. wsteps. destruct (looked_same _ _ _ _ Hl3) as (E3 & Et3 & V3 & I3'). destruct (stuck_same _ _ _ _ Hstk) as (_ & _ & _ & _ & _ & I2').
    assert (forall x, bview s3 x = bview s x) as V by (intros x; now rewrite V3, V2, V1). split; [congruence|]. exists bs, Pn. split; [eapply htxn_enter; eauto|].
    split; [|left; split; [done|]; split; [|done]; intros x Hx; rewrite <- (in_use_view s s1) by done; apply Hfull; now rewrite E1].
    apply (grows_weaken [ind] [ind] s bs 0); [done|lia|]. apply same_grows; auto; [congruence|]. intros Hi. apply I3', I2', (cg_idle _ (gr_can _ _ _ _ _ _ G1)).
  - assert (a <> 0) as Hne by (destruct Hf; lia). rewrite (proj2 (Z.eqb_neq a 0)) by done. simpl negb. cbv iota. wsteps.
    assert (bufs s2 !! bp = Some b) as Hb2 by (rewrite Hst; [done|now left]). apply (wp_updbuf bp _ b); [done|]. cbv beta.
    pose proof (write_brelse i n LS [] bs' Pn' s2 bp b (le_set 4 (b_data b) (Z.to_nat (4 * m)) a) HT2 ltac:(pose proof (gr_len _ _ _ _ _ _ G2); lia) Hb2 ltac:(now rewrite Hbk)) as HW.
    apply wp_bind_inv in HW. eapply wp_mono; [exact HW|]. intros [] s3 H3. wsteps. eapply wp_mono; [exact H3|]. intros [] s4 HL. wsteps.
    rewrite Hbk, Hd in *. pose proof HL as [_ _ (Pn4 & LT) _ _]. pose proof (grows_data _ _ _ _ _ _ _ G1 Hind) as Hind1. pose proof (grows_data _ _ _ _ _ _ _ G2 Hind1) as Hind2.
    assert (a <> ind) as Hai. { intros ->. destruct Hf as [_ Hf]. rewrite (in_use_view s) in Hf by done. congruence. }
    destruct (write_grows [] s2 ind _ bs' s4 (gr_can _ _ _ _ _ _ G2) Hind2 HL) as (G3 & Et4 & Vi & Vo).
    split; [congruence|]. exists (absorb ind bs'), Pn4. split; [done|].
    split; [exact (grows_then _ _ _ _ _ _ _ _ _ (grows_then _ _ _ _ _ _ _ _ _ G1 (grows_weaken [] [ind] _ _ 2 2 _ _ (list_subseteq_nil _) (le_n _) G2)) G3)|].
    right. split; [destruct Hf as [F1 F2]; split; [now rewrite <- E1|now rewrite <- (in_use_view s s1)]|]. split; [now apply (grows_data _ _ _ _ _ _ _ G3)|].
    split; [now rewrite Vo|done].
Qed.

(** The indirect block, if there is one, is whole. *)
Definition index_ok s ip : Prop := ind_of ip = 0 \/ (data_block s (ind_of ip) /\ length (bview s (ind_of ip)) = 1024%nat).

(** What [bmap] does for block [bn] of the file [ip] at [k]: [a] is its
    address now, the other addresses are the same, and a new block is one
    that was free, zeroed. *)
Record maps_to s bs k ip bn a s' ip' bs' : Prop := {
  mp_table : itable s' = <[k := ip']> (itable s);
  mp_ip : exists l, ip' = set_i_addrs l ip;
  mp_len : length (i_addrs ip') = 13%nat;
  mp_words : Forall word (i_addrs ip) -> Forall word (i_addrs ip');
  mp_index : index_ok s' ip';
  mp_grows : grows [ind_of ip] s bs 5 s' bs';
  mp_addr : block_addr s' ip' bn = a;
  mp_other : forall bn', 0 <= bn' < MAXFILE -> bn' <> bn -> block_addr s' ip' bn' = block_addr s ip bn';
  mp_ind : ind_of ip' = ind_of ip \/ fresh_block s (ind_of ip');
  mp_new : if decide (block_addr s ip bn = 0)
    then (a = 0 /\ disk_full s') \/ (fresh_block s a /\ data_block s' a /\ bview s' a = zeroed /\ a <> ind_of ip')
    else a = block_addr s ip bn /\ ip' = ip /\ forall x, bview s' x = bview s x;
}.
Definition maps s bs k ip bn a s' : Prop := exists ip' bs' Pn', txn i n LS bs' Pn' s' /\ maps_to s bs k ip bn a s' ip' bs'.

Lemma set_addrs_id ip : set_i_addrs (i_addrs ip) ip = ip.
Proof. now destruct ip. Qed.
Lemma index_grows X s bs m s' bs' ip : grows X s bs m s' bs' -> index_ok s ip -> length (bview s' (ind_of ip)) = length (bview s (ind_of ip)) -> index_ok s' ip.
Proof. intros G [H|[H1 H2]] E; [now left|right]. split; [now apply (grows_data _ _ _ _ _ _ _ G)|congruence]. Qed.

(** The in-memory inodes are no part of this. *)
Lemma htxn_itable B bs Pn s T : htxn i n LS B bs Pn s -> htxn i n LS B bs Pn (set_itable T s).
Proof. intros [[A1 A2 A3 A4 A5 [] A7 A8] H1 H2 H3 []]. constructor; auto; [|now constructor]. constructor; auto. constructor; auto. Qed.
Lemma grows_itable X s bs m s' bs' T : grows X s bs m s' bs' -> grows X s bs m (set_itable T s') bs'.
Proof. intros [A1 [] A3 A4 A5]. constructor; auto. constructor; auto. Qed.

(** Nothing changed. *)
Lemma same_maps bs s k ip bn a s' :
  can_grow s -> itable s !! k = Some ip -> length (i_addrs ip) = 13%nat -> index_ok s ip ->
  sb s' = sb s -> itable s' = itable s -> (forall x, bview s' x = bview s x) -> (tx_idle s -> tx_idle s') -> a = block_addr s ip bn ->
  (if decide (block_addr s ip bn = 0)
   then (a = 0 /\ disk_full s') \/ (fresh_block s a /\ data_block s' a /\ bview s' a = zeroed /\ a <> ind_of ip)
   else a = block_addr s ip bn /\ ip = ip /\ forall x, bview s' x = bview s x) -> maps_to s bs k ip bn a s' ip bs.
Proof.
  intros Hc Hip Hl Hix E1 Et V I1 -> Hnew. pose proof (same_grows [ind_of ip] s bs s' Hc E1 V I1) as G. constructor; auto.
  - now rewrite list_insert_id.
  - exists (i_addrs ip). now rewrite set_addrs_id.
  - eapply index_grows; eauto. now rewrite V.
  - apply (grows_weaken [ind_of ip] _ _ _ 0); [done|lia|done].
  - now apply block_addr_view.
  - intros. now apply block_addr_view.
Qed.
Lemma fresh_word s a : can_grow s -> fresh_block s a -> word a.
Proof. intros Hc [Ha _]. pose proof (bm_size _ _ (cg_bitmap _ Hc)). unfold word. lia. Qed.

(** No block for it. *)
Lemma stuck_maps bs Pn s k ip bn s1 :
  txn i n LS bs Pn s -> can_grow s -> itable s !! k = Some ip -> length (i_addrs ip) = 13%nat -> index_ok s ip ->
  block_addr s ip bn = 0 -> disk_full s -> stuck [] Pn s s1 -> maps s bs k ip bn 0 s1.
Proof.
  intros HT Hc Hip Hl Hix Ha Hfull Hstk. destruct (stuck_same _ _ _ _ Hstk) as (E1 & Et & _ & _ & V & I1).
  exists ip, bs, Pn. split; [eapply stuck_txn; eauto|]. apply same_maps; auto. rewrite decide_True by done. left. split; [done|].
  intros b Hb. rewrite (in_use_view s) by done. apply Hfull. congruence.
Qed.

(** A hole among the direct blocks. *)
Lemma bmap_direct bs Pn s k ip bn :
  txn i n LS bs Pn s -> (length bs < 24)%nat -> can_grow s -> itable s !! k = Some ip -> i_dev ip = ROOTDEV -> length (i_addrs ip) = 13%nat ->
  index_ok s ip -> 0 <= bn < NDIRECT -> block_addr s ip bn = 0 -> wp (bmap k bn) (maps s bs k ip bn) s.
Proof.
  intros HT Hlen Hc Hip Hdev Hl Hix Hbn Ha. unfold bmap. wsteps. apply (wp_getinode k ip); [done|]. rewrite (proj2 (Z.ltb_lt _ _)) by lia.
  destruct (lookup_lt_is_Some_2 (i_addrs ip) (Z.to_nat bn)) as [a Ea]; [lia|]. pose proof Ha as Ha'. unfold block_addr in Ha'.
  rewrite (proj2 (Z.ltb_lt _ _)), Ea in Ha' by lia. simpl in Ha'. subst a. wsteps. apply (wp_getaddr k ip bn 0); [done|done|]. rewrite Z.eqb_refl, Hdev. wsteps.
  eapply wp_mono; [apply (balloc_grows [] bs Pn s HT); [simpl; lia|done|apply far_nil]|].
  intros a s1 (Et & _ & [(-> & Hfull & Hstk)|(Hf & Hdb & Hz & bs' & Pn' & HT' & G)]).
  - wsteps. now apply (stuck_maps bs Pn s k ip bn).
  - assert (a <> 0) as Hne by (destruct Hf; lia). rewrite (proj2 (Z.eqb_neq a 0)) by done. unfold setaddr. wsteps.
    apply (wp_updinode k _ ip); [congruence|]. wsteps. set (ip' := set_i_addrs _ ip).
    assert (ind_of ip' = ind_of ip) as Ei by (unfold ind_of, ip'; simpl; now rewrite list_lookup_insert_ne by (unfold NDIRECT in *; lia)).
    assert (ind_of ip <> 0 -> bview s1 (ind_of ip) = bview s (ind_of ip)) as Vi.
    { intros Hi. destruct Hix as [?|[Hd _]]; [done|]. apply (gr_same _ _ _ _ _ _ G); [done|apply not_elem_of_nil]. }
    exists ip', bs', Pn'. split; [now apply htxn_itable|]. constructor; simpl.
    + now rewrite Et.
    + eauto.
    + now rewrite length_insert.
    + intros Hw. apply Forall_insert; [done|]. now apply (fresh_word s).
    + destruct Hix as [?|[Hd Hn]]; [left; congruence|right]. rewrite Ei. split; [now apply (grows_data _ _ _ _ _ _ _ G) in Hd|].
      change (bview (set_itable ?T ?x) ?y) with (bview x y). rewrite Vi; [done|]. destruct Hd; lia.
    + apply grows_itable, (grows_weaken [] _ _ _ 2); [apply list_subseteq_nil|lia|done].
    + unfold block_addr, ip'. rewrite (proj2 (Z.ltb_lt _ _)) by lia. simpl. rewrite list_lookup_insert_eq; [done|lia].
    + intros bn' Hb' Hn. unfold block_addr. change (default 0 (i_addrs ip' !! Z.to_nat NDIRECT)) with (ind_of ip'). fold (ind_of ip). rewrite Ei.
      destruct (bn' <? NDIRECT); [unfold ip'; simpl; now rewrite list_lookup_insert_ne by lia|]. destruct (Z.eqb_spec (ind_of ip) 0); [done|].
      change (bview (set_itable ?T ?x) ?y) with (bview x y). now rewrite Vi.
    + now left.
    + rewrite decide_True by done. right. split; [done|]. split; [done|]. split; [done|]. rewrite Ei. intros ->. destruct Hix as [?|[(_ & Hu & _) _]]; [done|]. destruct Hf. congruence.
Qed.

(** ** A hole among the blocks of the indirect block *)

(** [bmap] once it has the address of the indirect block. *)
Definition bmap_entry (addr m : Z) : M kern Z :=
  let! bp := bread ROOTDEV addr in
  let! b := getbuf bp in
  let a := le_get 4 (b_data b) (Z.to_nat (4 * m)) in
  let! a := (if a =? 0 then bmap_slot bp m else ret a) in
  do! brelse bp;
  ret a.

Lemma bmap_entry_spec bs Pn s ip bn :
  txn i n LS bs Pn s -> (length bs < 26)%nat -> can_grow s -> index_ok s ip -> ind_of ip <> 0 -> NDIRECT <= bn < MAXFILE -> block_addr s ip bn = 0 ->
  wp (bmap_entry (ind_of ip) (bn - NDIRECT)) (fun a s' => itable s' = itable s /\ exists bs' Pn', txn i n LS bs' Pn' s' /\ index_ok s' ip /\
    grows [ind_of ip] s bs 3 s' bs' /\ block_addr s' ip bn = a /\
    (forall bn', 0 <= bn' < MAXFILE -> bn' <> bn -> block_addr s' ip bn' = block_addr s ip bn') /\
    ((a = 0 /\ disk_full s') \/ (fresh_block s a /\ data_block s' a /\ bview s' a = zeroed /\ a <> ind_of ip))) s.
Proof.
  intros HT Hlen Hc [?|[Hd Hl]] Hne Hbn Ha; [done|]. assert (MAXFILE = 268) as EM by reflexivity. unfold bmap_entry.
  apply wp_bind. eapply wp_mono; [apply (bread_calm i n Pn s (ind_of ip)), (txn_calmly i n LS bs); [done|lia]|]. intros bp s1 [Hlk Hh].
  pose proof Hh as (b & Hb & _ & Hbd & _). apply wp_bind, (wp_getbuf bp b); [done|]. cbv zeta. pose proof Ha as Ha'. unfold block_addr in Ha'. fold (ind_of ip) in Ha'.
  rewrite (proj2 (Z.ltb_ge _ _)), (proj2 (Z.eqb_neq (ind_of ip) 0)) in Ha' by lia. rewrite Hbd, Ha', Z.eqb_refl.
  eapply wp_mono; [now apply (bmap_slot_spec bs Pn s s1 bp (ind_of ip))|]. intros a s' (Et & bs' & Pn' & HT' & G & Ho). split; [done|]. exists bs', Pn'. split; [done|].
  destruct Ho as [(-> & Hfull & V)|(Hf & Hdb & Hz & Vi)].
  - split; [eapply index_grows; eauto; [now right|now rewrite V]|]. split; [done|]. split; [now rewrite (block_addr_view s)|]. split; [intros; now apply block_addr_view|].
    left. split; [done|]. intros x Hx. rewrite (in_use_view s) by (done || apply G). apply Hfull. now rewrite <- (gr_sb _ _ _ _ _ _ G).
  - assert (Z.to_nat (4 * (bn - NDIRECT)) + 4 <= 1024)%nat as Hfit by lia. pose proof (bm_size _ _ (cg_bitmap _ Hc)).
    split; [eapply index_grows; eauto; [now right|now rewrite Vi, le_set_length]|]. split; [done|].
    assert (a <> ind_of ip) as Hai by (intros ->; destruct Hf, Hd as (_ & ? & _); congruence).
    split; [|split; [|right; auto]]; [|intros bn' Hb' Hn]; unfold block_addr; fold (ind_of ip); rewrite (proj2 (Z.eqb_neq (ind_of ip) 0)), Vi by done.
    + rewrite (proj2 (Z.ltb_ge _ _)) by lia. apply le_get_set_eq; [lia|]. destruct Hf. change (256 ^ Z.of_nat 4) with 4294967296. lia.
    + destruct (Z.ltb_spec bn' NDIRECT); [done|]. apply le_get_set_ne. lia.
Qed.

Lemma grows_fresh X s bs m s1 bs1 a m' s2 bs2 : grows [] s bs m s1 bs1 -> fresh_block s a -> grows [a] s1 bs1 m' s2 bs2 -> grows X s bs (m + m') s2 bs2.
Proof.
  intros G1 [_ Ha] G2. pose proof (fun x => grows_data _ _ _ _ _ _ x G1) as Hd. destruct G1 as [A1 A2 A3 A4 A5], G2 as [B1 B2 B3 B4 B5].
  constructor; [congruence|done| | |lia].
  - intros x Hx Hu. rewrite A1 in B3. auto.
  - intros x Hx _. rewrite B4; [apply A4; [done|apply not_elem_of_nil]|auto|]. rewrite list_elem_of_singleton. intros ->. destruct Hx as (_ & Hx & _). congruence.
Qed.
Lemma fresh_before X s bs m s' bs' a : grows X s bs m s' bs' -> fresh_block s' a -> fresh_block s a.
Proof.
  intros [E _ Hu _ _] [H1 H2]. rewrite E in *. split; [done|]. destruct (in_use (bview s) (sb s) a) eqn:Ea; [|done]. rewrite Hu in H2; [done|lia|done].
Qed.

Lemma bmap_old_index bs Pn s k ip bn :
  txn i n LS bs Pn s -> (length bs < 24)%nat -> can_grow s -> itable s !! k = Some ip -> i_dev ip = ROOTDEV -> length (i_addrs ip) = 13%nat ->
  index_ok s ip -> ind_of ip <> 0 -> NDIRECT <= bn < MAXFILE -> block_addr s ip bn = 0 -> wp (bmap_entry (ind_of ip) (bn - NDIRECT)) (maps s bs k ip bn) s.
Proof.
  intros HT Hlen Hc Hip Hdev Hl Hix Hne Hbn Ha. eapply wp_mono; [apply (bmap_entry_spec bs Pn s ip bn); auto; lia|].
  intros a s' (Et & bs' & Pn' & HT' & Hix' & G & H1 & H2 & H3). exists ip, bs', Pn'. split; [done|].
  constructor; auto; [now rewrite list_insert_id|exists (i_addrs ip); now rewrite set_addrs_id|apply (grows_weaken [ind_of ip] _ _ _ 3); [done|lia|done]|].
  now rewrite decide_True.
Qed.

(** The indirect block itself is new. *)
Lemma bmap_new_index bs Pn s k ip bn ind s1 bs1 Pn1 :
  (length bs < 24)%nat -> can_grow s -> itable s !! k = Some ip -> i_dev ip = ROOTDEV -> length (i_addrs ip) = 13%nat ->
  ind_of ip = 0 -> NDIRECT <= bn < MAXFILE ->
  itable s1 = itable s -> fresh_block s ind -> data_block s1 ind -> bview s1 ind = zeroed -> txn i n LS bs1 Pn1 s1 -> grows [] s bs 2 s1 bs1 ->
  wp (bmap_entry ind (bn - NDIRECT)) (maps s bs k ip bn)
    (set_itable (<[k := set_i_addrs (<[Z.to_nat NDIRECT := ind]> (i_addrs ip)) ip]> (itable s1)) s1).
Proof.
  intros Hlen Hc Hip Hdev Hl Hi Hbn Et Hf Hdb Hz HT1 G1. set (ip' := set_i_addrs _ ip). set (s2 := set_itable _ s1). assert (MAXFILE = 268) as EM by reflexivity.
  assert (ind_of ip' = ind) as Ei by (unfold ind_of, ip'; simpl; rewrite list_lookup_insert_eq; [done|unfold NDIRECT; lia]).
  assert (ind <> 0) as Hne by (destruct Hf; lia). pose proof (gr_len _ _ _ _ _ _ G1).
  assert (index_ok s2 ip') as Hix by (right; rewrite Ei; split; [done|]; change (bview s2 ind) with (bview s1 ind); rewrite Hz; apply length_replicate).
  assert (forall bn', 0 <= bn' < MAXFILE -> block_addr s2 ip' bn' = block_addr s ip bn') as Hsame.
  { intros bn' Hb'. unfold block_addr. fold (ind_of ip) (ind_of ip'). rewrite Ei, Hi, (proj2 (Z.eqb_neq ind 0)) by done. simpl Z.eqb. cbv iota.
    destruct (Z.ltb_spec bn' NDIRECT); [unfold ip'; simpl; now rewrite list_lookup_insert_ne by (unfold NDIRECT in *; lia)|].
    change (bview s2 ind) with (bview s1 ind). rewrite Hz. apply le_get_replicate. }
  assert (block_addr s ip bn = 0) as Ha by (unfold block_addr; fold (ind_of ip); rewrite Hi, (proj2 (Z.ltb_ge _ _)) by lia; done).
  rewrite <- Ei at 1. eapply wp_mono; [apply (bmap_entry_spec bs1 Pn1 s2 ip' bn); auto; [now apply htxn_itable|lia|apply (gr_can _ _ _ _ _ _ (grows_itable _ _ _ _ _ _ _ G1))|congruence|now rewrite Hsame by lia]|].
  intros a s' (Et' & bs' & Pn' & HT' & Hix' & G & H1 & H2 & H3). rewrite Ei in G. exists ip', bs', Pn'.
  pose proof (grows_itable _ _ _ _ _ _ (<[k := ip']> (itable s1)) G1) as G1'. fold s2 in G1'. split; [done|]. constructor; auto.
  - rewrite Et'. simpl. now rewrite Et.
  - eexists. reflexivity.
  - unfold ip'. simpl. now rewrite length_insert.
  - intros Hw. unfold ip'. simpl. apply Forall_insert; [done|]. now apply (fresh_word s).
  - eapply (grows_fresh _ s bs 2 s2 bs1 ind 3); eauto.
  - intros bn' Hb' Hn. rewrite H2 by done. now apply Hsame.
  - right. now rewrite Ei.
  - rewrite decide_True by done. destruct H3 as [?|(F1 & F2)]; [now left|right]. split; [now apply (fresh_before _ _ _ _ _ _ _ G1')|done].
Qed.

Lemma bmap_indirect bs Pn s k ip bn :
  txn i n LS bs Pn s -> (length bs < 24)%nat -> can_grow s -> itable s !! k = Some ip -> i_dev ip = ROOTDEV -> length (i_addrs ip) = 13%nat ->
  index_ok s ip -> NDIRECT <= bn < MAXFILE -> block_addr s ip bn = 0 -> wp (bmap k bn) (maps s bs k ip bn) s.
Proof.
  intros HT Hlen Hc Hip Hdev Hl Hix Hbn Ha. assert (MAXFILE = 268) as EM by reflexivity. unfold bmap. apply wp_bind, (wp_getinode k ip); [done|].
  rewrite (proj2 (Z.ltb_ge _ _)) by lia. rewrite u32_small by lia. change NINDIRECT with 256. rewrite (proj2 (Z.ltb_lt _ _)), Hdev by lia.
  destruct (lookup_lt_is_Some_2 (i_addrs ip) (Z.to_nat NDIRECT)) as [ind Ei]; [unfold NDIRECT; lia|]. assert (ind_of ip = ind) as Ei' by (unfold ind_of; now rewrite Ei).
  apply wp_bind, (wp_getaddr k ip NDIRECT ind); [done|done|]. destruct (Z.eqb_spec ind 0) as [->|Hne].
  - wsteps. eapply wp_mono; [apply (balloc_grows [] bs Pn s HT); [simpl; lia|done|apply far_nil]|].
    intros a s1 (Et & _ & [(-> & Hfull & Hstk)|(Hf & Hdb & Hz & bs' & Pn' & HT' & G)]).
    + wsteps. now apply (stuck_maps bs Pn s k ip bn).
    + assert (a <> 0) as Hna by (destruct Hf; lia). rewrite (proj2 (Z.eqb_neq a 0)) by done. unfold setaddr. wsteps.
      apply (wp_updinode k _ ip); [congruence|]. wsteps. rewrite (proj2 (Z.eqb_neq a 0)) by done. 
      eapply (bmap_new_index bs Pn s k ip bn a s1 bs' Pn'); eauto.
  - apply wp_bind, wp_ret. rewrite (proj2 (Z.eqb_neq ind 0)) by done. rewrite <- Ei' in *. apply (bmap_old_index bs Pn s k ip bn); auto.
Qed.

Lemma bmap_spec bs Pn s k ip bn :
  txn i n LS bs Pn s -> (length bs < 24)%nat -> can_grow s ->
  itable s !! k = Some ip -> i_dev ip = ROOTDEV -> length (i_addrs ip) = 13%nat -> index_ok s ip -> 0 <= bn < MAXFILE ->
  wp (bmap k bn) (maps s bs k ip bn) s.
Proof.
  intros HT Hlen Hc Hip Hdev Hl Hix Hbn. destruct (decide (block_addr s ip bn = 0)) as [Ha|Ha].
  - destruct (Z_lt_ge_dec bn NDIRECT); [now apply (bmap_direct bs Pn)|]. apply (bmap_indirect bs Pn); auto with lia.
  - eapply wp_mono; [apply (bmap_mapped i n Pn s k ip bn); auto; apply (txn_calmly i n LS bs); [done|lia]|]. intros a s' [-> Hlk].
    destruct (looked_same _ _ _ _ Hlk) as (E1 & Et & V & I1).
    exists ip, bs, Pn. split; [eapply txn_looked; eauto|]. apply same_maps; auto. now rewrite decide_False.
Qed.
End Grow.
