(* ===== verification/Ialloc.v ===== *)
(** * Allocating inodes (kernel/fs.c)

    [ialloc] in a transaction: the first inode on disk that is free becomes
    one of the given type, and gets an entry in the table in memory. *)

From S2P Require Import Prelude.
From S2P Require Import Mach.
From S2P Require Import Spinlock.
From S2P Require Import Kalloc.
From S2P Require Import Vm.
From S2P Require Import Proc.
From S2P Require Import Kstate.
From S2P Require Import Printk.
From S2P Require Import Sleeplock.
From S2P Require Import Bio.
From S2P Require Import Log.
From S2P Require Import Fs.
From S2P Require Import Fsread.
From S2P Require Import Dir.
From S2P Require Import Fswrite.
From S2P Require Import Fsalloc.
From S2P Require Import Fsmap.

(** An inode with no blocks and no links. *)
Definition new_dinode (type : Z) : dinode := Dinode type 0 0 0 0 (replicate 13 0).

(** The inode blocks are whole and outside the log, and the inode numbers
    fit. *)
Record inodes_ok (s : kern) : Prop := {
  io_count : 1 <= sb_ninodes (sb s) < 1073741824;
  io_start : 0 <= sb_inodestart (sb s) < 1073741824;
  io_len : forall inum, 1 <= inum < sb_ninodes (sb s) -> length (bview s (IBLOCK inum (sb s))) = 1024%nat;
  io_log : forall inum, 1 <= inum < sb_ninodes (sb s) -> off_log (sb s) (IBLOCK inum (sb s));
}.

Section Ialloc.
Context {LL : Layout} {P : Patience} {D : DiskDriver} {DO : DiskOk D}.
Variables (i : nat) (n : Z) (LS : oplog) (bs : list Z) (Pn : list nat) (s0 : kern) (type : Z).
Hypothesis HT : txn i n LS bs Pn s0.
Hypothesis Hroom : (length bs < 30)%nat.
Hypothesis Hok : inodes_ok s0.
Hypothesis Htype : short type.
Hypothesis Hinv : iinv (itable s0).
Hypothesis Hget : forall inum, 1 <= inum < sb_ninodes (sb s0) -> iget_ok ROOTDEV inum (itable s0).

(** Inode [inum] is the first free one and has been taken, at entry [k]. *)
Record itaken (inum : Z) (k : nat) (s : kern) : Prop := {
  it_range : 1 <= inum < sb_ninodes (sb s0);
  it_free : d_type (disk_inode s0 inum) = 0;
  it_first : forall j, 1 <= j < inum -> d_type (disk_inode s0 j) <> 0;
  it_inodes : forall x, 0 <= x < 4294967296 -> disk_inode s x = if decide (x = inum) then new_dinode type else disk_inode s0 x;
  it_blocks : forall x, x <> IBLOCK inum (sb s0) -> bview s x = bview s0 x;
  it_table : iget_table ROOTDEV inum (itable s0) k (itable s);
  it_txn : exists Pn', txn i n LS (absorb (IBLOCK inum (sb s0)) bs) Pn' s;
}.

Lemma new_typed : dinode_typed (new_dinode type).
Proof. constructor; simpl; unfold short, word; try lia; [exact Htype|]. repeat constructor; lia. Qed.
Lemma iblock_ok inum : 1 <= inum < sb_ninodes (sb s0) -> blockno_ok LS (IBLOCK inum (sb s0)).
Proof.
  intros Hi. split; [|rewrite <- (un_sb _ _ (tx_under _ _ _ _ _ _ _ HT)); now apply Hok]. pose proof (io_count _ Hok). pose proof (io_start _ Hok). unfold IBLOCK. change IPB with 16.
  pose proof (Z.div_mod inum 16). pose proof (Z.mod_pos_bound inum 16). rewrite u32_small; lia.
Qed.

(** The rest of the round, once the inode is written. *)
Lemma take_inode inum s1 : 1 <= inum < sb_ninodes (sb s0) -> d_type (disk_inode s0 inum) = 0 -> (forall j, 1 <= j < inum -> d_type (disk_inode s0 j) <> 0) ->
  logged i n LS s0 (fun x => if decide (x = IBLOCK inum (sb s0)) then put_dinode (new_dinode type) (bview s0 (IBLOCK inum (sb s0))) (islot inum) else bview s0 x)
    (absorb (IBLOCK inum (sb s0)) bs) s1 ->
  wp (let! k := iget ROOTDEV inum in ret (Some k)) (fun r s' => match r with Some k => itaken inum k s' | None => False end) s1.
Proof.
  intros Hi Hfree Hfst HL. pose proof (logged_sb _ _ _ _ _ _ _ _ HL) as Esb. destruct HL as [(_ & _ & _ & Et & _) _ (Pn1 & HT1) V _]. simpl in Et.
  wsteps. eapply wp_mono; [apply (iget_spec i n ROOTDEV inum s1); [apply HT1|now rewrite Et|rewrite Et; now apply Hget]|].
  intros k s' (m & t' & Hm & -> & Ht). wsteps. rewrite Et in Ht. constructor; auto.
  - pose proof (io_count _ Hok). pose proof (io_start _ Hok).
    exact (iupdate_inodes s0 s1 (Inode ROOTDEV inum 0 false type 0 0 0 0 (replicate 13 0)) new_typed ltac:(simpl; lia) ltac:(lia) (io_len _ Hok inum Hi) Esb V).
  - intros x Hx. exact (eq_trans (V x) (decide_False _ _ Hx)).
  - exists Pn1. apply (htxn_itable i n LS [] _ Pn1 _ t') in HT1. destruct HT1 as [[A1 A2 A3 A4 A5 [] A7 A8] H1 H2 H3 []].
    constructor; auto; [|now constructor]. constructor; auto; [constructor; auto|]. exact (ready_calm i n _ _ A8 Hm).
Qed.

Lemma ialloc_scan :
  wp (mwhile (Z.to_nat (sb_ninodes (sb s0))) (fun inum => inum <? sb_ninodes (sb s0)) (fun inum => inum + 1) (fun inum =>
        let! bp := bread ROOTDEV (IBLOCK inum (sb s0)) in
        let! b := getbuf bp in
        if d_type (get_dinode (b_data b) (islot inum)) =? 0 then
          do! updbuf bp (fun b => set_b_data (put_dinode (new_dinode type) (b_data b) (islot inum)) b);
          do! log_write bp;
          do! brelse bp;
          let! k := iget ROOTDEV inum in
          ret (Some k)
        else do! brelse bp; ret None) 1)
    (fun r s' => match r with
       | inr k => exists inum, itaken inum k s'
       | inl _ => looked n [] Pn s0 s' /\ forall j, 1 <= j < sb_ninodes (sb s0) -> d_type (disk_inode s0 j) <> 0
       end) s0.
Proof.
  pose proof (io_count _ Hok) as Hcnt. eapply wp_mono.
  - apply (wp_mwhile (fun k s' => looked n [] Pn s0 s' /\ forall j, 1 <= j < 1 + Z.of_nat k -> d_type (disk_inode s0 j) <> 0)
      (fun k s' => exists inum, itaken inum k s') (Z.to_nat (sb_ninodes (sb s0) - 1)) _ 1 1); [lia|intros k Hk; apply Z.ltb_lt; lia|apply Z.ltb_ge; lia|lia|split; [apply looked_refl, HT|lia]|].
    intros j s Hj [Hl Hbusy]. replace (1 + Z.of_nat j * 1) with (1 + Z.of_nat j) by lia. set (inum := 1 + Z.of_nat j) in *.
    pose proof (txn_looked i n LS bs Pn s0 s HT Hl) as HTs. wsteps. eapply wp_mono; [apply (bread_calm i n Pn s (IBLOCK inum (sb s0))), (txn_calmly i n LS bs); done|].
    intros bp s1 [Hl1 Hh]. pose proof (looked_trans _ _ _ _ _ _ _ Hl Hl1) as Hl01. rewrite (lo_view _ _ _ _ _ Hl) in Hh. pose proof Hh as (b & Hb & Hbk & Hd & _).
    wsteps. apply (wp_getbuf bp b); [done|]. rewrite Hd. fold (disk_inode s0 inum). destruct (Z.eqb_spec (d_type (disk_inode s0 inum)) 0) as [Hz|Hz].
    + wsteps. apply (wp_updbuf bp _ b); [done|]. cbv beta.
      pose proof (log_brelse i n LS bs Pn s0 s1 bp b (put_dinode (new_dinode type) (b_data b) (islot inum)) HT Hroom Hl01 Hb ltac:(rewrite Hbk; apply iblock_ok; lia)) as HL.
      apply wp_bind_inv in HL. apply wp_bind. eapply wp_mono; [exact HL|]. intros [] s2 H2. apply wp_bind. eapply wp_mono; [exact H2|]. intros [] s3 H3. rewrite Hbk, Hd in H3.
      eapply wp_mono; [apply (take_inode inum s3); [lia|done|intros j' Hj'; apply Hbusy; lia|exact H3]|]. intros [k|] s' H; [eauto|done].
    + wsteps. eapply wp_mono; [eapply (brelse_calm i n Pn s0 s1); [now apply (txn_calmly i n LS bs)|done|done]|]. intros [] s2 H2. wsteps.
      split; [done|]. intros j' Hj'. destruct (decide (j' = inum)) as [->|]; [done|]. apply Hbusy. lia.
  - intros [j|k] s' H; [|exact H]. destruct H as (_ & Hl & H). split; [done|]. intros j' Hj'. apply H. lia.
Qed.

(** C25: [ialloc] allocates the first free inode.  In a transaction with room
    for one more block it turns the inode with the least number among those
    of type 0 into one of the given type, with no links and no blocks, and
    returns the entry of that inode in the table in memory, with a reference;
    the other inodes on disk, the other blocks and the other entries are as
    they were.  When every inode is in use it reports so and returns nothing,
    with nothing changed. *)
Theorem ialloc_correct : tx_idle s0 ->
  wp (ialloc ROOTDEV type) (fun r s' => match r with
    | Some k => exists inum, 1 <= inum < sb_ninodes (sb s0) /\ d_type (disk_inode s0 inum) = 0 /\ (forall j, 1 <= j < inum -> d_type (disk_inode s0 j) <> 0) /\
        (forall x, 0 <= x < 4294967296 -> disk_inode s' x = if decide (x = inum) then new_dinode type else disk_inode s0 x) /\
        (forall x, x <> IBLOCK inum (sb s0) -> bview s' x = bview s0 x) /\
        iget_table ROOTDEV inum (itable s0) k (itable s') /\ iinv (itable s') /\ exists bs' Pn', (length bs' <= length bs + 1)%nat /\ txn i n LS bs' Pn' s'
    | None => (forall j, 1 <= j < sb_ninodes (sb s0) -> d_type (disk_inode s0 j) <> 0) /\
        itable s' = itable s0 /\ (forall x, bview s' x = bview s0 x) /\ txn i n LS bs Pn s'
    end) s0.
Proof.
  intros Hidle. unfold ialloc. wsteps. eapply wp_mono; [apply ialloc_scan|]. intros [j|k] s1 H; wsteps.
  - destruct H as [Hl Hall]. pose proof (txn_looked i n LS bs Pn s0 s1 HT Hl) as HT1. destruct (ti_ready _ _ _ _ _ _ _ (tx_inv _ _ _ _ _ _ _ HT1)) as (Hlk & _ & Hfree & _).
    destruct (looked_same _ _ _ _ _ Hl) as (_ & _ & _ & Hi).
    eapply wp_mono; [apply (printk_spec 3); [split; [done|split; [lia|exact (Hi Hidle)]]|lia|apply Hfree|eexists; reflexivity]|].
    intros r s2 [o Ho]. wsteps. assert (stuck n [] Pn s0 s2) as Hs by (exists s1, o; split; [done|split; [apply steady_nil|done]]).
    destruct (stuck_same _ _ _ _ _ Hs) as (_ & E2 & _ & _ & V & _). split; [done|]. split; [done|]. split; [done|]. exact (stuck_txn i n LS [] bs Pn s0 s2 HT Hs).
  - destruct H as (inum & [A1 A2 A3 A4 A5 A6 (Pn' & A7)]). exists inum. do 6 (split; [done|]).
    split; [apply (iget_table_inv ROOTDEV inum (itable s0) k); auto|]. exists (absorb (IBLOCK inum (sb s0)) bs), Pn'. split; [|done]. pose proof (absorb_length (IBLOCK inum (sb s0)) bs). lia.
Qed.
End Ialloc.
