(* ===== verification/Fsgrow.v ===== *)
(** * Writing past the end of a file (kernel/fs.c)

    [writei] on a file that may need new blocks: the allocator ([Fsalloc.v]),
    the block map ([Fsmap.v]) and the transaction ([Fswrite.v]) put together.
    A file owns its blocks; a write keeps it so, and no other file, inode or
    block that is in use is affected. *)

From S2P Require Import Prelude.
From S2P Require Import Mach.
From S2P Require Import Spinlock.
From S2P Require Import Kalloc.
From S2P Require Import Vm.
From S2P Require Import Proc.
From S2P Require Import Kstate.
From S2P Require Import Printk.
From S2P Require Import Sleeplock.
From S2P Require Import Bio.
From S2P Require Import Log.
From S2P Require Import Fs.
From S2P Require Import Fsread.
From S2P Require Import Dir.
From S2P Require Import Fswrite.
From S2P Require Import Fsalloc.
From S2P Require Import Fsmap.

(** The block of the file's inode. *)
Definition home (s : kern) (ip : inode) : Z := IBLOCK (i_inum ip) (sb s).

(** The file's blocks are in use, whole, and no two the same. *)
Record owns (s : kern) (ip : inode) : Prop := {
  ow_dev : i_dev ip = ROOTDEV;
  ow_len : length (i_addrs ip) = 13%nat;
  ow_index : index_ok s ip;
  ow_blocks : forall bn, 0 <= bn < MAXFILE -> block_addr s ip bn <> 0 ->
    data_block s (block_addr s ip bn) /\ length (bview s (block_addr s ip bn)) = 1024%nat /\
    block_addr s ip bn <> ind_of ip /\ block_addr s ip bn <> home s ip;
  ow_inj : forall a b, 0 <= a < MAXFILE -> 0 <= b < MAXFILE -> block_addr s ip a <> 0 -> block_addr s ip a = block_addr s ip b -> a = b;
  ow_home : data_block s (home s ip);
  ow_apart : ind_of ip <> home s ip;
}.
(** The bytes before [stop] have blocks. *)
Definition filled (s : kern) (ip : inode) (stop : Z) : Prop := forall o, 0 <= o < stop -> block_addr s ip (o / BSIZE) <> 0.
(** Block [x] belongs to something else. *)
Definition foreign (s : kern) (ip : inode) (x : Z) : Prop :=
  data_block s x /\ x <> ind_of ip /\ forall bn, 0 <= bn < MAXFILE -> x <> block_addr s ip bn.

Lemma data_not_fresh s x y : data_block s x -> fresh_block s y -> x <> y.
Proof. intros (_ & H1 & _) [_ H2] ->. congruence. Qed.
Lemma file_block_range o : 0 <= o < MAXFILE * BSIZE -> 0 <= o / BSIZE < MAXFILE.
Proof. intros H. split; [apply Z.div_pos; [lia|reflexivity]|]. apply Z.div_lt_upper_bound; [reflexivity|lia]. Qed.

(** ** After [bmap] *)

Section Mapped.
Variables (s : kern) (bs : list Z) (k : nat) (ip : inode) (bn a : Z) (s' : kern) (ip' : inode) (bs' : list Z).
Hypothesis Ho : owns s ip.
Hypothesis Hbn : 0 <= bn < MAXFILE.
Hypothesis Hm : maps_to s bs k ip bn a s' ip' bs'.
Let G := mp_grows _ _ _ _ _ _ _ _ _ Hm.

Lemma home_mapped : home s' ip' = home s ip.
Proof. destruct (mp_ip _ _ _ _ _ _ _ _ _ Hm) as [l ->]. unfold home. now rewrite (gr_sb _ _ _ _ _ _ G). Qed.

(** Blocks the file had keep address and contents. *)
Lemma mapped_old b : 0 <= b < MAXFILE -> block_addr s ip b <> 0 ->
  block_addr s' ip' b = block_addr s ip b /\ bview s' (block_addr s ip b) = bview s (block_addr s ip b).
Proof.
  intros Hb Hne. destruct (ow_blocks _ _ Ho b Hb Hne) as (Hd & _ & Hi & _). split.
  - destruct (decide (b = bn)) as [->|Hn]; [|now apply (mp_other _ _ _ _ _ _ _ _ _ Hm)].
    pose proof (mp_new _ _ _ _ _ _ _ _ _ Hm) as H. rewrite decide_False in H by done. rewrite (mp_addr _ _ _ _ _ _ _ _ _ Hm). apply H.
  - apply (gr_same _ _ _ _ _ _ G); [done|]. rewrite list_elem_of_singleton. done.
Qed.
(** A new one was free. *)
Lemma mapped_new b : 0 <= b < MAXFILE -> block_addr s' ip' b <> 0 ->
  block_addr s ip b <> 0 \/ (b = bn /\ block_addr s ip bn = 0 /\ block_addr s' ip' b = a /\ fresh_block s a /\ data_block s' a /\ bview s' a = zeroed /\ a <> ind_of ip').
Proof.
  intros Hb Hne. destruct (decide (b = bn)) as [->|Hn]; [|left; now rewrite <- (mp_other _ _ _ _ _ _ _ _ _ Hm b)].
  pose proof (mp_addr _ _ _ _ _ _ _ _ _ Hm) as Ea. pose proof (mp_new _ _ _ _ _ _ _ _ _ Hm) as H. destruct (decide (block_addr s ip bn = 0)) as [E|E]; [|now left].
  right. destruct H as [[-> _]|H]; [congruence|]. tauto.
Qed.

Lemma owns_mapped : owns s' ip'.
Proof.
  pose proof home_mapped as Eh. pose proof (grows_data _ _ _ _ _ _ (home s ip) G (ow_home _ _ Ho)) as Hhome. constructor.
  - destruct (mp_ip _ _ _ _ _ _ _ _ _ Hm) as [l ->]. apply Ho.
  - apply Hm.
  - apply Hm.
  - intros b Hb Hne. destruct (mapped_new b Hb Hne) as [Hold|(-> & E0 & -> & Hf & Hd & Hz & Hi)].
    + destruct (mapped_old b Hb Hold) as [-> V]. destruct (ow_blocks _ _ Ho b Hb Hold) as (H1 & H2 & H3 & H4). rewrite V, Eh.
      split; [now apply (grows_data _ _ _ _ _ _ _ G)|]. split; [done|]. split; [|done].
      destruct (mp_ind _ _ _ _ _ _ _ _ _ Hm) as [->|Hf]; [done|now apply (data_not_fresh s)].
    + rewrite Hz, Eh. split; [done|]. split; [apply length_replicate|]. split; [done|]. apply not_eq_sym, (data_not_fresh s); [apply Ho|done].
  - intros b c Hb Hc Hne E. assert (block_addr s' ip' c <> 0) as Hne' by congruence.
    destruct (mapped_new b Hb Hne) as [Hbo|(-> & E0 & Ea & Hf & _)], (mapped_new c Hc Hne') as [Hco|(-> & E0' & Ea' & Hf' & _)]; [|exfalso|exfalso|done].
    + rewrite (proj1 (mapped_old b Hb Hbo)), (proj1 (mapped_old c Hc Hco)) in E. now apply (ow_inj _ _ Ho).
    + destruct (ow_blocks _ _ Ho b Hb Hbo) as (Hd & _). apply (data_not_fresh s _ _ Hd Hf'). rewrite <- (proj1 (mapped_old b Hb Hbo)). congruence.
    + destruct (ow_blocks _ _ Ho c Hc Hco) as (Hd & _). apply (data_not_fresh s _ _ Hd Hf). rewrite <- (proj1 (mapped_old c Hc Hco)). congruence.
  - now rewrite Eh.
  - rewrite Eh. destruct (mp_ind _ _ _ _ _ _ _ _ _ Hm) as [->|Hf]; [apply Ho|]. apply not_eq_sym, (data_not_fresh s); [apply Ho|done].
Qed.

Lemma foreign_mapped x : foreign s ip x -> foreign s' ip' x /\ bview s' x = bview s x.
Proof.
  intros (H1 & H2 & H3). split; [|apply (gr_same _ _ _ _ _ _ G); [done|now rewrite list_elem_of_singleton]]. split; [now apply (grows_data _ _ _ _ _ _ _ G)|].
  split; [destruct (mp_ind _ _ _ _ _ _ _ _ _ Hm) as [->|Hf]; [done|now apply (data_not_fresh s)]|].
  intros b Hb ->. assert (block_addr s' ip' b <> 0) as Hne by (destruct H1; lia). destruct (mapped_new b Hb Hne) as [Hold|(_ & _ & E & Hf & _)].
  - apply (H3 b Hb). apply (mapped_old b Hb Hold).
  - rewrite E in H1. now apply (data_not_fresh s a a).
Qed.
End Mapped.

(** ** After a block of the file is written *)

Section Written.
Variables (s : kern) (ip : inode) (bn : Z) (v : list Z) (bs : list Z) (m : nat) (s' : kern) (bs' : list Z).
Hypothesis Ho : owns s ip.
Hypothesis Hbn : 0 <= bn < MAXFILE.
Hypothesis Hne : block_addr s ip bn <> 0.
Hypothesis Hlen : length v = 1024%nat.
Hypothesis G : grows [block_addr s ip bn] s bs m s' bs'.
Hypothesis V : forall x, bview s' x = if decide (x = block_addr s ip bn) then v else bview s x.

Lemma addr_written b : block_addr s' ip b = block_addr s ip b.
Proof.
  destruct (ow_blocks _ _ Ho bn Hbn Hne) as (_ & _ & H & _). assert (bview s' (ind_of ip) = bview s (ind_of ip)) as E by (rewrite V, decide_False; auto).
  unfold block_addr. fold (ind_of ip). now rewrite E.
Qed.
Lemma owns_written : owns s' ip.
Proof.
  pose proof (ow_blocks _ _ Ho bn Hbn Hne) as (A1 & A2 & A3 & A4). assert (home s' ip = home s ip) as Eh by (unfold home; now rewrite (gr_sb _ _ _ _ _ _ G)).
  constructor; [apply Ho..| | | | |].
  - apply (index_grows _ _ _ _ _ _ _ G (ow_index _ _ Ho)). now rewrite V, decide_False.
  - intros b Hb. rewrite addr_written, Eh. intros Hb0. destruct (ow_blocks _ _ Ho b Hb Hb0) as (B1 & B2 & B3 & B4).
    split; [now apply (grows_data _ _ _ _ _ _ _ G)|]. split; [|done]. rewrite V. now destruct (decide _).
  - intros b c Hb Hc. rewrite !addr_written. now apply (ow_inj _ _ Ho).
  - rewrite Eh. apply (grows_data _ _ _ _ _ _ _ G), Ho.
  - rewrite Eh. apply Ho.
Qed.
Lemma foreign_written x : foreign s ip x -> foreign s' ip x /\ bview s' x = bview s x.
Proof.
  intros (H1 & H2 & H3). split; [|rewrite V, decide_False; [done|now apply H3]]. split; [now apply (grows_data _ _ _ _ _ _ _ G)|]. split; [done|].
  intros b Hb. rewrite addr_written. now apply H3.
Qed.
End Written.

Lemma home_foreign s ip : owns s ip -> foreign s ip (home s ip).
Proof.
  intros Ho. split; [apply Ho|]. split; [apply not_eq_sym, Ho|]. intros bn Hbn E. destruct (ow_home _ _ Ho) as (H & _).
  destruct (ow_blocks _ _ Ho bn Hbn) as (_ & _ & _ & Hn); [rewrite <- E; lia|]. congruence.
Qed.

(** After the file's inode is written. *)
Lemma owns_home s ip bs m s' bs' : owns s ip -> grows [home s ip] s bs m s' bs' -> (forall x, x <> home s ip -> bview s' x = bview s x) ->
  owns s' ip /\ (forall b, block_addr s' ip b = block_addr s ip b) /\ forall o, 0 <= o < MAXFILE * BSIZE -> block_addr s ip (o / BSIZE) <> 0 -> fbyte s' ip o = fbyte s ip o.
Proof.
  intros Ho G V. assert (home s' ip = home s ip) as Eh by (unfold home; now rewrite (gr_sb _ _ _ _ _ _ G)).
  assert (forall b, block_addr s' ip b = block_addr s ip b) as EA by (intros b; unfold block_addr; fold (ind_of ip); rewrite V; [done|apply Ho]).
  split; [|split; [done|]]; [constructor; [apply Ho..| | | | |]|].
  - apply (index_grows _ _ _ _ _ _ _ G (ow_index _ _ Ho)). rewrite V; [done|apply Ho].
  - intros b Hb. rewrite EA, Eh. intros Hb0. destruct (ow_blocks _ _ Ho b Hb Hb0) as (B1 & B2 & B3 & B4).
    split; [now apply (grows_data _ _ _ _ _ _ _ G)|]. split; [now rewrite V|done].
  - intros b c Hb Hc. rewrite !EA. now apply (ow_inj _ _ Ho).
  - rewrite Eh. apply (grows_data _ _ _ _ _ _ _ G), Ho.
  - rewrite Eh. apply Ho.
  - intros o Hoo Hne. unfold fbyte. rewrite EA, V; [done|]. now apply (ow_blocks _ _ Ho _ (file_block_range o Hoo)).
Qed.
Lemma owns_size s ip T z : owns s ip -> owns (set_itable T s) (set_i_size z ip).
Proof. intros []. now constructor. Qed.

(** ** The loop *)

Section Loop.
Context {LL : Layout} {P : Patience} {D : DiskDriver} {DO : DiskOk D}.
Variables (i : nat) (n : Z) (LS : oplog) (s0 : kern) (k : nat) (ip0 : inode) (off0 : Z).
Hypothesis Hoff0 : 0 <= off0.
Hypothesis Hsize : i_size ip0 <= MAXFILE * BSIZE.

(** The bytes [done_] have been written; the blocks of [bs] are in the log. *)
Definition reach (done_ : list Z) : Z := Z.max (i_size ip0) (off0 + Z.of_nat (length done_)).
Record growing (done_ : list Z) (s : kern) (ip : inode) (bs : list Z) : Prop := {
  gw_owns : owns s ip;
  gw_ip : exists l, ip = set_i_addrs l ip0;
  gw_words : Forall word (i_addrs ip);
  gw_table : itable s = <[k := ip]> (itable s0);
  gw_sb : sb s = sb s0;
  gw_can : can_grow s;
  gw_txn : exists Pn, txn i n LS bs Pn s;
  gw_filled : filled s ip (reach done_);
  gw_bytes : forall o, 0 <= o < reach done_ -> fbyte s ip o =
    if decide (off0 <= o < off0 + Z.of_nat (length done_)) then default 0 (done_ !! Z.to_nat (o - off0)) else fbyte s0 ip0 o;
  gw_foreign : forall x, foreign s0 ip0 x -> foreign s ip x /\ bview s x = bview s0 x;
}.

(** [bmap] alone keeps what has been written. *)
Lemma growing_mapped done_ s ip bs bn a s' ip' bs' Pn' :
  growing done_ s ip bs -> reach done_ <= MAXFILE * BSIZE -> 0 <= bn < MAXFILE -> maps_to s bs k ip bn a s' ip' bs' -> txn i n LS bs' Pn' s' -> growing done_ s' ip' bs'.
Proof.
  intros [A1 [l A2] A3 A4 A5 A6 A7 A8 A9 A10] Hr Hbn Hm HT. pose proof (mp_grows _ _ _ _ _ _ _ _ _ Hm) as G.
  assert (forall o, 0 <= o < reach done_ -> block_addr s' ip' (o / BSIZE) = block_addr s ip (o / BSIZE) /\ bview s' (block_addr s ip (o / BSIZE)) = bview s (block_addr s ip (o / BSIZE))) as Hold.
  { intros o Ho. apply (mapped_old s bs k ip bn a s' ip' bs' A1 Hm); [apply file_block_range; lia|now apply A8]. }
  constructor; auto.
  - eapply owns_mapped; eauto.
  - destruct (mp_ip _ _ _ _ _ _ _ _ _ Hm) as [l' ->]. rewrite A2. exists l'. now destruct ip0.
  - now apply Hm.
  - rewrite (mp_table _ _ _ _ _ _ _ _ _ Hm), A4. apply list_insert_insert_eq.
  - rewrite (gr_sb _ _ _ _ _ _ G). done.
  - apply G.
  - eauto.
  - intros o Ho. destruct (Hold o Ho) as [-> _]. now apply A8.
  - intros o Ho. rewrite <- A9 by done. unfold fbyte. destruct (Hold o Ho) as [-> ->]. done.
  - intros x Hx. destruct (A10 x Hx) as [F1 <-]. eapply foreign_mapped; eauto.
Qed.

(** Then the block is written. *)
Lemma growing_written done_ chunk s ip bs bs' s' Pn' :
  growing done_ s ip bs -> let off := off0 + Z.of_nat (length done_) in let a := block_addr s ip (off / BSIZE) in
  reach (done_ ++ chunk) <= MAXFILE * BSIZE -> (0 < length chunk)%nat -> off mod BSIZE + Z.of_nat (length chunk) <= BSIZE ->
  a <> 0 -> grows [a] s bs 1 s' bs' -> itable s' = itable s -> txn i n LS bs' Pn' s' ->
  (forall x, bview s' x = if decide (x = a) then splice (Z.to_nat (off mod BSIZE)) chunk (bview s a) else bview s x) -> growing (done_ ++ chunk) s' ip bs'.
Proof.
  intros [A1 A2 A3 A4 A5 A6 A7 A8 A9 A10] off a Hr Hpos Hfit Hne G Et HT V. assert (0 <= off) as Hoff by lia. destruct (block_of off Hoff) as (B1 & B2 & B3 & B4).
  assert (reach (done_ ++ chunk) = Z.max (i_size ip0) (off + Z.of_nat (length chunk))) as Er by (unfold reach; rewrite length_app; lia).
  assert (reach done_ = Z.max (i_size ip0) off) as Er0 by done. assert (0 <= off / BSIZE < MAXFILE) as Hbn by (apply file_block_range; lia).
  destruct (ow_blocks _ _ A1 _ Hbn Hne) as (D1 & D2 & D3 & D4). fold a in D1, D2, D3, D4. change 1024%nat with (Z.to_nat BSIZE) in D2.
  assert (length (splice (Z.to_nat (off mod BSIZE)) chunk (bview s a)) = 1024%nat) as Hl by (rewrite splice_length; rewrite D2; lia).
  assert (forall b, block_addr s' ip b = block_addr s ip b) as EA by (intros b; now eapply addr_written).
  assert (forall o, off <= o < off + Z.of_nat (length chunk) -> o / BSIZE = off / BSIZE) as Hin.
  { intros o Ho. symmetry. apply (Z.div_unique _ _ _ (off mod BSIZE + (o - off))); [left; lia|]. lia. }
  constructor; auto.
  - eapply owns_written; eauto.
  - congruence.
  - rewrite (gr_sb _ _ _ _ _ _ G). done.
  - apply G.
  - eauto.
  - intros o Ho. rewrite EA. destruct (decide (off <= o < off + Z.of_nat (length chunk))) as [Hc|Hc]; [now rewrite Hin|]. apply A8. lia.
  - intros o Ho. destruct (block_of o ltac:(lia)) as (O1 & O2 & O3 & O4). rewrite length_app.
    assert (~ off <= o < off + Z.of_nat (length chunk) -> fbyte s ip o =
      if decide (off0 <= o < off0 + Z.of_nat (length done_ + length chunk)) then default 0 ((done_ ++ chunk) !! Z.to_nat (o - off0)) else fbyte s0 ip0 o) as Hout.
    { intros Hc. rewrite A9 by lia. destruct (decide (off0 <= o < off0 + Z.of_nat (length done_))) as [H1|H1].
      - rewrite decide_True by lia. now rewrite lookup_app_l by lia.
      - now rewrite decide_False by lia. }
    unfold fbyte at 1. rewrite EA, V. destruct (decide (block_addr s ip (o / BSIZE) = a)) as [E|E].
    + rewrite splice_lookup by lia. destruct (decide (Z.to_nat (off mod BSIZE) <= Z.to_nat (o mod BSIZE) < Z.to_nat (off mod BSIZE) + length chunk)%nat) as [Hc|Hc].
      * apply (ow_inj _ _ A1) in E as Eb; [|apply file_block_range; lia|done|congruence]. rewrite decide_True by lia. rewrite lookup_app_r by lia. do 2 f_equal. lia.
      * rewrite <- Hout; [unfold fbyte; now rewrite E|]. intros Hc'. pose proof (Hin o Hc'). lia.
    + apply Hout. intros Hc. apply E. now rewrite Hin.
  - intros x Hx. destruct (A10 x Hx) as [F1 <-]. eapply foreign_written; eauto.
Qed.

Lemma grow_round f done_ data s ip bs (Q : Z * Z -> kern -> Prop) :
  growing done_ s ip bs -> (length bs < 24)%nat ->
  let tot := Z.of_nat (length done_) in let off := off0 + tot in let cnt := Z.of_nat (length data) in
  let m := Z.min (cnt - tot) (BSIZE - off mod BSIZE) in
  tot < cnt -> off0 + cnt <= MAXFILE * BSIZE -> (k < length (itable s0))%nat ->
  (forall s' ip' bs', (length bs' <= length bs + 5)%nat -> growing done_ s' ip' bs' -> disk_full s' -> Q (tot, off) s') ->
  (forall s' ip' bs', (length bs' <= length bs + 6)%nat -> growing (done_ ++ take (Z.to_nat m) (drop (Z.to_nat tot) data)) s' ip' bs' ->
     wp (writei_loop f k (Local data) (off + m) cnt (tot + m)) Q s') ->
  wp (writei_loop (S f) k (Local data) off cnt tot) Q s.
Proof.
  intros Hg Hlen tot off cnt m Hlt Hmax Hk Hfull Hnext. assert (0 <= off) as Hoff by lia. destruct (block_of off Hoff) as (B1 & B2 & B3 & B4).
  assert (MAXFILE = 268) as EM by reflexivity. assert (0 < m <= cnt - tot /\ off mod BSIZE + m <= BSIZE) as [Hm Hfit] by lia.
  assert (0 <= off / BSIZE < MAXFILE) as Hbn by (apply file_block_range; lia). pose proof Hg as [A1 A2 A3 A4 A5 A6 [Pn A7] A8 A9 A10].
  assert (itable s !! k = Some ip) as Hip by (rewrite A4; now apply list_lookup_insert_eq).
  assert (reach done_ <= MAXFILE * BSIZE) as Hr by (unfold reach; lia).
  cbn [writei_loop]. rewrite (proj2 (Z.ltb_lt tot cnt)) by done. wsteps.
  eapply wp_mono; [apply (bmap_spec i n LS bs Pn s k ip); auto; apply A1|]. intros a s1 (ip1 & bs1 & Pn1 & HT1 & Hmp).
  pose proof (growing_mapped _ _ _ _ _ _ _ _ _ _ Hg Hr Hbn Hmp HT1) as Hg1. pose proof (gr_len _ _ _ _ _ _ (mp_grows _ _ _ _ _ _ _ _ _ Hmp)) as Hl1.
  destruct (Z.eqb_spec a 0) as [->|Hne].
  { wsteps. apply (Hfull s1 ip1 bs1); auto. pose proof (mp_new _ _ _ _ _ _ _ _ _ Hmp) as H. destruct (decide _) as [E|E].
    - destruct H as [[_ H]|(H & _)]; [done|]. destruct H. lia.
    - destruct H as [H _]. congruence. }
  pose proof (mp_addr _ _ _ _ _ _ _ _ _ Hmp) as Ea. pose proof (gw_owns _ _ _ _ Hg1) as Ho1. assert (block_addr s1 ip1 (off / BSIZE) <> 0) as Hne1 by congruence.
  destruct (ow_blocks _ _ Ho1 _ Hbn Hne1) as (D1 & D2 & _). rewrite Ea in D1, D2. change 1024%nat with (Z.to_nat BSIZE) in D2.
  pose proof (data_blockno i n LS bs1 Pn1 s1 [] a HT1 (gw_can _ _ _ _ Hg1) D1) as Hao.
  wsteps. apply (wp_getinode k ip1); [rewrite (gw_table _ _ _ _ Hg1); now apply list_lookup_insert_eq|]. rewrite (ow_dev _ _ Ho1). wsteps.
  assert (length bs1 < 30)%nat as Hl30 by lia. pose proof (txn_calmly i n LS bs1 Pn1 s1 HT1 Hl30) as Hc1.
  eapply wp_mono; [apply (bread_calm i n Pn1 s1 _ Hc1)|]. intros bp s2 [Hl2 (b & Hb2 & Hbk & Hd & _)]. wsteps.
  eapply wp_mono; [eapply (wp_copyin_local i n [bp] Pn1 s2 s1); [apply Hc1|done]|]. intros r s3 (-> & Eb3 & Hl3). wsteps.
  apply (wp_updbuf bp _ b); [now rewrite Eb3|]. cbv beta. simpl fst. simpl snd. rewrite (proj2 (Z.eqb_neq 0 (-1))) by lia. cbv iota.
  set (chunk := take (Z.to_nat m) (drop (Z.to_nat tot) data)) in *.
  assert (length chunk = Z.to_nat m) as Hcl by (unfold chunk; rewrite length_take, length_drop; lia).
  pose proof (log_brelse i n LS bs1 Pn1 s1 s3 bp b (splice (Z.to_nat (off mod BSIZE)) chunk (b_data b)) HT1 Hl30 Hl3
    ltac:(now rewrite Eb3) ltac:(now rewrite Hbk)) as HL.
  apply wp_bind_inv in HL. wsteps. eapply wp_mono; [exact HL|]. intros [] s4 H4. wsteps.
  eapply wp_mono; [exact H4|]. intros [] s5 H5. rewrite Hbk, Hd in H5. rewrite u32_small by lia. pose proof H5 as [_ _ (Pn5 & HT5) V5 _].
  destruct (write_grows i n LS [] s1 a _ bs1 s5 (gw_can _ _ _ _ Hg1) D1 H5) as (G5 & Et5 & _). pose proof (absorb_length a bs1).
  apply (Hnext s5 ip1 (absorb a bs1)); [lia|].
  apply (growing_written done_ chunk s1 ip1 bs1 (absorb a bs1) s5 Pn5 Hg1); auto; fold tot off; rewrite ?Ea; auto; try lia.
  unfold reach. rewrite length_app. lia.
Qed.

Lemma grow_loop data (cap : Z) fuel : cap <= 29 -> forall s ip done_ bs,
  let tot := Z.of_nat (length done_) in let cnt := Z.of_nat (length data) in
  growing done_ s ip bs -> off0 + cnt <= MAXFILE * BSIZE -> (k < length (itable s0))%nat ->
  done_ = take (length done_) data -> (length data - length done_ <= fuel)%nat ->
  Z.of_nat (length bs) <= cap -> (tot < cnt -> Z.of_nat (length bs) + 6 * blocks_left (off0 + tot) (off0 + cnt) <= cap) ->
  wp (writei_loop fuel k (Local data) (off0 + tot) cnt tot) (fun r s' => exists done' ip' bs',
    r = (Z.of_nat (length done'), off0 + Z.of_nat (length done')) /\ done' = take (length done') data /\
    Z.of_nat (length bs') <= cap /\ growing done' s' ip' bs' /\ ((length done' < length data)%nat -> disk_full s')) s.
Proof.
  intros Hcap. induction fuel as [|fuel IH]; intros s ip done_ bs tot cnt Hg Hmax Hk Hd Hfuel Hbs Hroom.
  all: assert (length done_ <= length data)%nat as Hle by (rewrite Hd, length_take; lia).
  all: destruct (decide (tot < cnt)) as [Hlt|Hge];
    [|assert (length done_ = length data) as E by lia; simpl; rewrite (proj2 (Z.ltb_ge tot cnt)) by lia; wsteps;
      exists done_, ip, bs; do 4 (split; [done|]); lia].
  { exfalso. lia. }
  assert (0 <= off0 + tot) as Hot by lia. destruct (block_of (off0 + tot) Hot) as (_ & _ & B3 & _).
  pose proof (blocks_left_pos (off0 + tot) (off0 + cnt) ltac:(lia)). specialize (Hroom Hlt).
  apply (grow_round fuel done_ data s ip bs); auto; [lia| |].
  { intros s' ip' bs' Hl' Hg' Hf. exists done_, ip', bs'. do 2 (split; [done|]). split; [lia|]. auto. }
  fold tot cnt. set (m := Z.min (cnt - tot) (BSIZE - (off0 + tot) mod BSIZE)). intros s' ip' bs' Hbs' Hp'.
  set (chunk := take (Z.to_nat m) (drop (Z.to_nat tot) data)) in *.
  assert (length (done_ ++ chunk) = length done_ + Z.to_nat m)%nat as El.
  { unfold chunk. rewrite length_app, length_take, length_drop. lia. }
  specialize (IH s' ip' (done_ ++ chunk) bs'). cbv zeta in IH. rewrite El in IH.
  replace (Z.of_nat (length done_ + Z.to_nat m)) with (tot + m) in IH by lia.
  replace (off0 + (tot + m)) with (off0 + tot + m) in IH by lia. apply IH; auto; try lia.
  - unfold chunk. rewrite Hd at 1. replace (Z.to_nat tot) with (length done_) by lia. now rewrite take_take_drop.
  - fold cnt. intros Hlt2. rewrite blocks_left_step by lia. lia.
Qed.
End Loop.

(** ** The whole write *)

Section Write.
Context {LL : Layout} {P : Patience} {D : DiskDriver} {DO : DiskOk D}.
Variables (i : nat) (n : Z) (LS : oplog).

(** The size and the inode on disk. *)
Lemma grow_finish s k ip off done_ s1 ip1 bs1 :
  growing i n LS s k ip off done_ s1 ip1 bs1 -> (length bs1 < 30)%nat -> owns s ip -> dinode_typed (inode_of ip) ->
  0 <= off <= i_size ip -> i_size ip <= MAXFILE * BSIZE -> off + Z.of_nat (length done_) <= MAXFILE * BSIZE -> (k < length (itable s))%nat -> length (bview s (home s ip)) = 1024%nat ->
  wp (let! ip := getinode k in
      do! (if i_size ip <? off + Z.of_nat (length done_) then updinode k (set_i_size (off + Z.of_nat (length done_))) else ret tt);
      do! iupdate k;
      ret (i32 (Z.of_nat (length done_)))) (fun r s' => r = Z.of_nat (length done_) /\ exists ip' bs' Pn',
    (exists l, ip' = set_i_size (Z.max (i_size ip) (off + Z.of_nat (length done_))) (set_i_addrs l ip)) /\ itable s' = <[k := ip']> (itable s) /\ contents s' ip' = overwrite off done_ (contents s ip) /\
    disk_inode s' (i_inum ip) = inode_of ip' /\ dinode_typed (inode_of ip') /\ length (bview s' (home s ip)) = 1024%nat /\ owns s' ip' /\ filled s' ip' (i_size ip') /\ can_grow s' /\ sb s' = sb s /\ (length bs' <= S (length bs1))%nat /\ txn i n LS bs' Pn' s' /\
    (disk_full s1 -> disk_full s') /\ forall x, foreign s ip x -> x <> home s ip -> bview s' x = bview s x) s1.
Proof.
  intros Hg Hlen Ho Hty Hoff Hsz Hmax Hk Hhome. assert (MAXFILE = 268) as EM by reflexivity. set (tot := Z.of_nat (length done_)) in *. pose proof Hg as [A1 [l A2] A3 A4 A5 A6 [Pn A7] A8 A9 A10].
  assert (itable s1 !! k = Some ip1) as Hip1 by (rewrite A4; now apply list_lookup_insert_eq). set (z := Z.max (i_size ip) (off + tot)). set (ip' := set_i_size z ip1).
  assert (i_size ip1 = i_size ip /\ i_inum ip1 = i_inum ip) as [Es Ei] by (rewrite A2; done).
  assert (home s1 ip1 = home s ip) as Eh by (unfold home; now rewrite A5, Ei).
  wsteps. apply (wp_getinode k ip1); [done|]. apply wp_bind. apply (wp_mono _ (fun _ s' => s' = set_itable (<[k := ip']> (itable s1)) s1)).
  { unfold ip', z. rewrite Es. destruct (Z.ltb_spec (i_size ip) (off + tot)).
    - apply (wp_updinode k _ ip1); [done|]. now rewrite Z.max_r by lia.
    - apply wp_ret. rewrite Z.max_l by lia. rewrite list_insert_id; [now destruct s1|]. rewrite Hip1, <- Es. now destruct ip1. }
  intros [] s2 ->. set (s2 := set_itable _ s1). pose proof (owns_size s1 ip1 (<[k := ip']> (itable s1)) z A1 : owns s2 ip') as Ho2.
  assert (home s2 ip' = home s ip) as Eh2 by exact Eh. assert (can_grow s2) as Hc2 by (destruct A6; now constructor).
  assert (dinode_typed (inode_of ip')) as Hty'.
  { destruct Hty as [T1 T2 T3 T4 T5 T6 T7]. unfold ip'. rewrite A2 in *. constructor; auto; [unfold word, z; simpl; lia|apply A1]. }
  wsteps. eapply wp_mono; [apply (iupdate_spec i n LS bs1 Pn s2 k ip'); auto; [now apply htxn_itable|apply list_lookup_insert_eq; now apply lookup_lt_Some in Hip1|apply Ho2|]|].
  { apply (data_blockno i n LS bs1 Pn s2 []); [now apply htxn_itable|done|apply Ho2]. }
  intros [] s3 HL. wsteps. pose proof HL as [B3 _ (Pn3 & HT3) V3 _]. fold (home s2 ip') in HL, V3, HT3.
  destruct (write_grows i n LS [] s2 (home s2 ip') _ bs1 s3 Hc2 (ow_home _ _ Ho2) HL) as (G & Et & Vh & Vo).
  destruct (owns_home s2 ip' bs1 1 s3 _ Ho2 G Vo) as (Ho3 & EA & EF). rewrite Eh2 in *.
  split; [apply i32_small; lia|]. exists ip', (absorb (home s ip) bs1), Pn3.
  assert (filled s2 ip' z) as Hf2 by exact A8.
  split; [exists l; unfold ip'; now rewrite A2|]. split; [rewrite Et; simpl; rewrite A4; apply list_insert_insert_eq|].
  assert (length (bview s2 (home s ip)) = 1024%nat) as Hh2.
  { change (bview s2 (home s ip)) with (bview s1 (home s ip)). now rewrite (proj2 (A10 _ (home_foreign s ip Ho))). }
  split; [|split; [|split; [done|split; [now rewrite Vh, put_dinode_length|split; [done|split; [|split; [apply G|split; [rewrite (gr_sb _ _ _ _ _ _ G); exact A5|split; [apply absorb_length|split; [done|split]]]]]]]]]].
  - apply (overwrite_contents s s3 ip ip' z); auto; [|lia..]. intros o Hoo. rewrite EF by (lia || now apply Hf2). exact (A9 o Hoo).
  - unfold disk_inode. rewrite (gr_sb _ _ _ _ _ _ G). change (sb s2) with (sb s1). rewrite A5. fold (home s ip). rewrite Vh. change (i_inum ip') with (i_inum ip1). rewrite Ei.
    apply get_put_dinode; [done|]. rewrite Hh2. apply islot_bound.
  - intros o Hoo. rewrite EA. now apply Hf2.
  - intros Hfull x Hx. rewrite (gr_sb _ _ _ _ _ _ G) in *. apply (gr_used _ _ _ _ _ _ G); [done|]. now apply Hfull.
  - intros x Hx Hn. rewrite Vo by done. apply (A10 x Hx).
Qed.

Lemma writei_grow_spec bs Pn s k ip data off :
  let cnt := Z.of_nat (length data) in
  txn i n LS bs Pn s -> can_grow s -> itable s !! k = Some ip -> owns s ip -> filled s ip (i_size ip) -> dinode_typed (inode_of ip) ->
  0 <= off <= i_size ip -> i_size ip <= MAXFILE * BSIZE -> off + cnt <= MAXFILE * BSIZE ->
  Z.of_nat (length bs) + 6 * blocks_left off (off + cnt) <= 29 -> length (bview s (home s ip)) = 1024%nat ->
  wp (writei k (Local data) off cnt) (fun r s' => exists ip' bs' Pn',
    0 <= r <= cnt /\ (r < cnt -> disk_full s') /\
    (exists l, ip' = set_i_size (Z.max (i_size ip) (off + r)) (set_i_addrs l ip)) /\ itable s' = <[k := ip']> (itable s) /\ contents s' ip' = overwrite off (take (Z.to_nat r) data) (contents s ip) /\
    disk_inode s' (i_inum ip) = inode_of ip' /\ dinode_typed (inode_of ip') /\ length (bview s' (home s ip)) = 1024%nat /\ owns s' ip' /\ filled s' ip' (i_size ip') /\ can_grow s' /\ sb s' = sb s /\
    Z.of_nat (length bs') <= Z.of_nat (length bs) + 6 * blocks_left off (off + cnt) + 1 /\ txn i n LS bs' Pn' s' /\
    forall x, foreign s ip x -> x <> home s ip -> bview s' x = bview s x) s.
Proof.
  intros cnt HT Hc Hip Ho Hfl Hty Hoff Hsz Hmax Hroom Hhome. assert (0 <= blocks_left off (off + cnt)) as Hbl.
  { unfold blocks_left, BSIZE. Z.div_mod_to_equations. lia. }
  assert (MAXFILE = 268) as EM by reflexivity. pose proof (lookup_lt_Some _ _ _ Hip) as Hk.
  unfold writei. wsteps. apply (wp_getinode k ip); [done|]. rewrite u32_small by lia.
  rewrite (proj2 (Z.ltb_ge (i_size ip) off)), (proj2 (Z.ltb_ge (off + cnt) off)), (proj2 (Z.ltb_ge (MAXFILE * BSIZE) (off + cnt))) by lia.
  simpl orb. cbv iota. wsteps. eapply wp_mono.
  { pose proof (grow_loop i n LS s k ip off ltac:(lia) Hsz data (Z.of_nat (length bs) + 6 * blocks_left off (off + cnt)) (Z.to_nat cnt) Hroom s ip [] bs) as HL. cbv zeta in HL.
    change (Z.of_nat (length (@nil Z))) with 0 in HL. rewrite Z.add_0_r in HL. apply HL; auto; try (fold cnt; lia).
    constructor; auto; [exists (i_addrs ip); now rewrite set_addrs_id|apply Hty|now rewrite list_insert_id|eauto| |].
    - intros o Hoo. apply Hfl. unfold reach in Hoo. simpl in Hoo. lia.
    - intros o Hoo. rewrite decide_False; [done|]. simpl. lia. }
  intros r s1 (done_ & ip1 & bs1 & -> & Hd & Hb1 & Hg & Hfull). simpl fst. simpl snd. assert (length done_ <= length data)%nat as Hle by (rewrite Hd, length_take; lia).
  eapply wp_mono; [apply (grow_finish s k ip off done_ s1 ip1 bs1); auto; lia|]. intros r s' (-> & ip' & bs' & Pn' & H0 & H1 & H2 & H3 & H4 & H5 & H6 & H7 & H8 & H9 & H10 & H11 & H12 & H13).
  exists ip', bs', Pn'. split; [lia|]. split; [intros Hlt; apply H12, Hfull; lia|]. rewrite Nat2Z.id, <- Hd. do 10 (split; [done|]). split; [lia|]. auto.
Qed.

(** C5: a write makes the file grow.  In a transaction with room for it, a
    write of [data] from a kernel buffer at [off], at most at the end of a
    file that owns its blocks and has no holes, writes a prefix of the data,
    all of it unless the disk is full then, and returns its length: the file
    holds the prefix at [off] and is otherwise unchanged, its size covers it,
    on disk as in memory, new blocks come from the free ones, the file still
    owns its blocks and has no holes, no block of another file or inode block
    has changed but the file's own, and bitmap and transaction are as they
    should be. *)
Theorem writei_grows bs Pn s k ip data off :
  let cnt := Z.of_nat (length data) in
  txn i n LS bs Pn s -> can_grow s -> itable s !! k = Some ip -> owns s ip -> filled s ip (i_size ip) -> dinode_typed (inode_of ip) ->
  0 <= off <= i_size ip -> i_size ip <= MAXFILE * BSIZE -> off + cnt <= MAXFILE * BSIZE ->
  Z.of_nat (length bs) + 6 * blocks_left off (off + cnt) <= 29 -> length (bview s (home s ip)) = 1024%nat ->
  wp (writei k (Local data) off cnt) (fun r s' => exists ip' bs' Pn',
    0 <= r <= cnt /\ (r < cnt -> disk_full s') /\
    (exists l, ip' = set_i_size (Z.max (i_size ip) (off + r)) (set_i_addrs l ip)) /\ itable s' = <[k := ip']> (itable s) /\ contents s' ip' = overwrite off (take (Z.to_nat r) data) (contents s ip) /\
    disk_inode s' (i_inum ip) = inode_of ip' /\ dinode_typed (inode_of ip') /\ length (bview s' (home s ip)) = 1024%nat /\ owns s' ip' /\ filled s' ip' (i_size ip') /\ can_grow s' /\ sb s' = sb s /\
    Z.of_nat (length bs') <= Z.of_nat (length bs) + 6 * blocks_left off (off + cnt) + 1 /\ txn i n LS bs' Pn' s' /\
    forall x, foreign s ip x -> x <> home s ip -> bview s' x = bview s x) s.
Proof. apply writei_grow_spec. Qed.
End Write.
