(* ===== verification/Itrunc.v ===== *)
(** * Truncating a file (kernel/fs.c)

    [itrunc] gives all the blocks of a file back, the indirect block's
    entries while that block's buffer is held, on a disk whose bitmap is one
    block. *)

From S2P Require Import Prelude.
From S2P Require Import Mach.
From S2P Require Import Spinlock.
From S2P Require Import Kalloc.
From S2P Require Import Vm.
From S2P Require Import Proc.
From S2P Require Import Kstate.
From S2P Require Import Printk.
From S2P Require Import Sleeplock.
From S2P Require Import Bio.
From S2P Require Import Log.
From S2P Require Import Fs.
From S2P Require Import Fsread.
From S2P Require Import Dir.
From S2P Require Import Fswrite.
From S2P Require Import Fsalloc.
From S2P Require Import Fsmap.
From S2P Require Import Fsgrow.

(** The one block of the bitmap. *)
Definition bitmap_block (s : kern) : Z := BBLOCK 0 (sb s).

Lemma one_bitmap_block s b : sb_size (sb s) <= BPB -> 0 <= b < sb_size (sb s) -> BBLOCK b (sb s) = bitmap_block s.
Proof. intros Hs Hb. unfold bitmap_block, BBLOCK. now rewrite Z.div_small, (Z.div_small 0) by (change BPB with 8192 in *; lia). Qed.
Lemma absorb_again x bs : absorb x (absorb x bs) = absorb x bs.
Proof. unfold absorb at 1. rewrite decide_True; [done|]. unfold absorb. destruct (decide (x ∈ bs)); [done|]. rewrite elem_of_app. right. left. Qed.

Section Trunc.
Context {LL : Layout} {P : Patience} {D : DiskDriver} {DO : DiskOk D}.
Variables (i : nat) (n : Z) (LS : oplog) (s0 : kern) (bs : list Z).
Hypothesis Hone : sb_size (sb s0) <= BPB.
Hypothesis Hroom : (length bs <= 27)%nat.
Hypothesis Hgrow : can_grow s0.
Implicit Types (s : kern) (B : list nat) (F : Z -> Prop).

(** The blocks [F] have been given back. *)
Record emptied B F s : Prop := {
  em_sb : sb s = sb s0;
  em_bits : forall b, 0 <= b < sb_size (sb s0) -> in_use (bview s) (sb s0) b = true <-> in_use (bview s0) (sb s0) b = true /\ ~ F b;
  em_ok : bitmap_ok (bview s) (sb s0);
  em_idle : tx_idle s;
  em_dsk : dsk s = dsk s0;
  em_same : forall x, x <> bitmap_block s0 -> bview s x = bview s0 x;
  em_txn : exists bs' Pn, (bs' = bs \/ bs' = absorb (bitmap_block s0) bs) /\ htxn i n LS B bs' Pn s;
}.

Lemma log_room bs' : bs' = bs \/ bs' = absorb (bitmap_block s0) bs -> (length bs' <= 28)%nat.
Proof. intros [->| ->]; [lia|]. pose proof (absorb_length (bitmap_block s0) bs). lia. Qed.

Lemma bfree_empties B F s b : emptied B F s -> data_block s0 b -> ~ F b -> (length B <= 1)%nat -> apart B s (bitmap_block s0) ->
  wp (bfree ROOTDEV b) (fun _ s' => emptied B (fun x => F x \/ x = b) s' /\ itable s' = itable s /\ steady B s s') s.
Proof.
  intros [A1 A2 A3 A4 A5 A6 (bs' & Pn & Hbs & HT)] (D1 & D2 & D4 & D3) HF HB Hap. pose proof (log_room _ Hbs) as Hlen.
  assert (BBLOCK b (sb s) = bitmap_block s0) as Eb by (rewrite A1; apply one_bitmap_block; [done|lia]).
  eapply wp_mono; [apply (bfree_spec i n LS B bs' Pn s b); rewrite ?A1; auto; [unfold room; lia|now rewrite <- A1, Eb|lia|apply A2; [lia|auto]]|].
  intros [] s' [F1 F2 F3 F4 (_ & _ & _ & U2 & _ & U3 & _) F6 (Pn' & F7) F8]. rewrite A1 in *. rewrite one_bitmap_block in F4, F7 by (done || lia).
  unfold rest in U3. injection U3 as _ _ U3 _ _. simpl in U2, U3. split; [|done]. constructor; [done| |apply F3; done|unfold tx_idle in *; now rewrite U3|congruence| |].
  - intros x Hx. rewrite F2 by done. rewrite andb_true_iff, negb_true_iff, Z.eqb_neq, A2 by done. tauto.
  - intros x Hx. rewrite F4, A6; done.
  - eexists _, Pn'. split; [|exact F7]. right. destruct Hbs as [->| ->]; [done|apply absorb_again].
Qed.

Lemma emptied_ext B F F' s : (forall x, F x <-> F' x) -> emptied B F s -> emptied B F' s.
Proof. intros E [A1 A2 A3 A4 A5 A6 A7]. constructor; auto. intros b Hb. rewrite A2, E by done. done. Qed.
Lemma emptied_itable B F s T : emptied B F s -> emptied B F (set_itable T s).
Proof. intros [A1 A2 A3 A4 A5 A6 (bs' & Pn & Hb & HT)]. constructor; auto. exists bs', Pn. split; [done|now apply htxn_itable]. Qed.

(** ** The direct blocks *)

Variables (k : nat) (ip : inode).
Hypothesis Hip : itable s0 !! k = Some ip.
Hypothesis Hown : owns s0 ip.

(** The blocks of the file before block [j]. *)
Definition before (j : Z) (x : Z) : Prop := x <> 0 /\ exists b, 0 <= b < j /\ block_addr s0 ip b = x.

Lemma before_next j x : 0 <= j -> before (j + 1) x <-> before j x \/ (x <> 0 /\ x = block_addr s0 ip j).
Proof.
  intros Hj. split.
  - intros (H & b & Hb & E). destruct (decide (b = j)) as [->|]; [right; auto|left]. split; [done|]. exists b. split; [lia|done].
  - intros [(H & b & Hb & E)|[H E]]; (split; [done|]); [exists b|exists j]; (split; [lia|auto]).
Qed.
Lemma not_before j : 0 <= j < MAXFILE -> block_addr s0 ip j <> 0 -> ~ before j (block_addr s0 ip j).
Proof. intros Hj Hne (_ & b & Hb & E). assert (j = b) by (apply (ow_inj _ _ Hown); auto; lia). lia. Qed.
Lemma direct_addr j a : (j < 12)%nat -> i_addrs ip !! j = Some a -> block_addr s0 ip (Z.of_nat j) = a.
Proof. intros Hj Ha. unfold block_addr. rewrite (proj2 (Z.ltb_lt _ _)) by (unfold NDIRECT; lia). now rewrite Nat2Z.id, Ha. Qed.

(** The inode with the first [j] addresses cleared. *)
Definition cleared (j : nat) : inode := set_i_addrs (replicate j 0 ++ drop j (i_addrs ip)) ip.
Lemma cleared_lookup j : (j < 13)%nat -> i_addrs (cleared j) !! j = i_addrs ip !! j.
Proof. intros Hj. simpl. rewrite lookup_app_r by (rewrite length_replicate; lia). rewrite length_replicate, lookup_drop. f_equal. lia. Qed.
Lemma cleared_next j : (j < 13)%nat -> <[j := 0]> (replicate j 0 ++ drop j (i_addrs ip)) = replicate (S j) 0 ++ drop (S j) (i_addrs ip).
Proof.
  intros Hj. pose proof (ow_len _ _ Hown) as Hl. destruct (lookup_lt_is_Some_2 (i_addrs ip) j) as [a Ha]; [lia|].
  rewrite (drop_S _ _ _ Ha), insert_app_r_alt by (rewrite length_replicate; lia). rewrite length_replicate, Nat.sub_diag. now rewrite replicate_S_end, <- app_assoc.
Qed.

Lemma direct_freed Pn : txn i n LS bs Pn s0 ->
  wp (mloop (Z.to_nat NDIRECT) 0 1 (fun j =>
        let! a := getaddr k j in
        if negb (a =? 0) then do! bfree ROOTDEV a; setaddr k j 0 else ret tt))
    (fun _ s => emptied [] (before NDIRECT) s /\ itable s = <[k := cleared 12]> (itable s0)) s0.
Proof.
  intros HT. pose proof (ow_len _ _ Hown) as Hl. pose proof (lookup_lt_Some _ _ _ Hip) as Hk. assert (MAXFILE = 268) as EM by reflexivity.
  apply (wp_mloop (fun j s => emptied [] (before (Z.of_nat j)) s /\ itable s = <[k := cleared j]> (itable s0))).
  - split; [|change (cleared 0) with (set_i_addrs (i_addrs ip) ip); rewrite set_addrs_id; now rewrite list_insert_id].
    constructor; [done| |apply Hgrow|apply Hgrow|done|done|eauto]. intros b Hb. split; [|tauto]. intros H. split; [done|]. intros (_ & b' & Hb' & _). simpl in Hb'. lia.
  - intros j s Hj [He Et]. change (Z.to_nat NDIRECT) with 12%nat in Hj. replace (0 + Z.of_nat j * 1) with (Z.of_nat j) by lia. replace (Z.of_nat (S j)) with (Z.of_nat j + 1) by lia.
    destruct (lookup_lt_is_Some_2 (i_addrs ip) j) as [a Ha]; [lia|]. pose proof (direct_addr j a Hj Ha) as Ea.
    assert (itable s !! k = Some (cleared j)) as Hks by (rewrite Et; now apply list_lookup_insert_eq).
    wsteps. apply (wp_getaddr k (cleared j) _ a); [done|rewrite Nat2Z.id, cleared_lookup by lia; done|]. destruct (Z.eqb_spec a 0) as [->|Hne]; simpl negb; cbv iota.
    + wsteps. split; [apply (emptied_ext [] (before (Z.of_nat j))); [|done]; intros x; rewrite before_next, Ea by lia; tauto|]. rewrite Et. f_equal.
      unfold cleared. f_equal. rewrite <- cleared_next by lia. symmetry. apply list_insert_id. rewrite <- Ha. apply (cleared_lookup j). lia.
    + rewrite <- Ea in Hne. destruct (ow_blocks _ _ Hown (Z.of_nat j) ltac:(lia) Hne) as (Hd & _). pose proof (not_before (Z.of_nat j) ltac:(lia) Hne) as Hnb. rewrite Ea in *.
      wsteps. eapply wp_mono; [apply (bfree_empties [] _ s a He Hd Hnb); [simpl; lia|apply apart_nil]|]. intros [] s1 (He1 & Et1 & _). unfold setaddr.
      apply (wp_updinode k _ (cleared j)); [congruence|]. split.
      * apply emptied_itable. eapply emptied_ext; [|exact He1]. intros x. rewrite before_next, Ea by lia. split; intros [H|H]; auto; right; [subst x; auto with congruence|apply H].
      * change (<[k := set_i_addrs (<[Z.to_nat (Z.of_nat j) := 0]> (replicate j 0 ++ drop j (i_addrs ip))) (cleared j)]> (itable s1) = <[k := cleared (S j)]> (itable s0)).
        rewrite Et1, Et, list_insert_insert_eq, Nat2Z.id, cleared_next by lia. unfold cleared. now destruct ip.
Qed.

(** ** The blocks of the indirect block *)

Lemma emptied_looked B B' F s s' Pn bs' : emptied B F s -> htxn i n LS B bs' Pn s -> bs' = bs \/ bs' = absorb (bitmap_block s0) bs -> looked n B' Pn s s' -> emptied B' F s'.
Proof.
  intros [A1 A2 A3 A4 A5 A6 _] HT Hbs Hl. destruct (looked_same _ _ _ _ _ Hl) as (E1 & _ & V & I1). constructor; auto.
  - congruence.
  - intros b Hb. rewrite <- A2 by done. unfold in_use, bitmap_byte. now rewrite V.
  - now apply (bitmap_ok_view (bview s)).
  - rewrite (lo_dsk _ _ _ _ _ Hl). done.
  - intros x Hx. rewrite V. auto.
  - exists bs', Pn. split; [done|]. eapply htxn_enter; eauto.
Qed.

(** A buffer held since [s]: in the log, or as on disk. *)
Lemma held_pinned bp b bs1 Pn1 s bs2 Pn2 s' : htxn i n LS [bp] bs1 Pn1 s -> htxn i n LS [bp] bs2 Pn2 s' -> bufs s !! bp = Some b -> bufs s' !! bp = Some b ->
  (b_blockno b ∈ bs1 -> b_blockno b ∈ bs2) -> bp ∈ Pn1 -> bp ∈ Pn2.
Proof.
  intros [HT1 _ _ _] [HT2 _ _ _] Hb1 Hb2 Hsub HP. apply list_elem_of_lookup in HP as [j Hj]. destruct (ti_pins _ _ _ _ _ _ _ HT1) as [Hl Hp].
  destruct (lookup_lt_is_Some_2 bs1 j) as [blk Hblk]; [rewrite <- Hl; now apply lookup_lt_Some in Hj|]. destruct (Hp j bp blk Hj Hblk) as (b' & Hb' & E).
  rewrite Hb1 in Hb'. injection Hb' as <-. apply list_elem_of_lookup_2 in Hblk. rewrite <- E in Hblk. apply Hsub, list_elem_of_lookup in Hblk as [j' Hj'].
  eapply list_elem_of_lookup_2, (pinned_at n [bp] Pn2 s' bs2 j'); eauto; [apply HT2|apply HT2|left].
Qed.

Lemma indirect_freed s1 : ind_of ip <> 0 -> emptied [] (before NDIRECT) s1 ->
  wp (let! bp := bread ROOTDEV (ind_of ip) in
      do! mloop (Z.to_nat NINDIRECT) 0 1 (fun j =>
        let! b := getbuf bp in
        let a := le_get 4 (b_data b) (Z.to_nat (4 * j)) in
        if negb (a =? 0) then bfree ROOTDEV a else ret tt);
      brelse bp)
    (fun _ s => emptied [] (before MAXFILE) s /\ itable s = itable s1) s1.
Proof.
  intros Hne He. pose proof He as [_ _ _ _ _ A6 (bs1 & Pn1 & Hbs1 & HT1)]. destruct (ow_index _ _ Hown) as [?|[Hd Hlen]]; [done|]. pose proof Hd as (D1 & D2 & D3).
  assert (ind_of ip <> bitmap_block s0) as Hnb by (apply not_eq_sym, D3; lia). assert (MAXFILE = 268) as EM by reflexivity.
  pose proof (log_room _ Hbs1) as Hl1. wsteps. eapply wp_mono; [apply (bread_in i n LS [] bs1 Pn1 s1 (ind_of ip) HT1); [apply room_nil; lia|apply apart_nil]|].
  intros bp s2 (Hl2 & (b & Hb & Hbk & Hbd & Hcl) & _). rewrite A6 in Hbd by done. pose proof (emptied_looked _ _ _ _ _ _ _ He HT1 Hbs1 Hl2) as He2.
  pose proof (htxn_enter i n LS [] [bp] bs1 Pn1 s1 s2 HT1 Hl2) as HT2. wsteps. eapply wp_mono.
  - apply (wp_mloop (fun j s => emptied [bp] (before (NDIRECT + Z.of_nat j)) s /\ itable s = itable s1 /\ bufs s !! bp = Some b)).
    { split; [done|]. split; [apply (looked_itable _ _ _ _ _ Hl2)|done]. }
    intros j s Hj (Hs & Et & Hbs). change (Z.to_nat NINDIRECT) with 256%nat in Hj. replace (0 + Z.of_nat j * 1) with (Z.of_nat j) by lia.
    replace (NDIRECT + Z.of_nat (S j)) with (NDIRECT + Z.of_nat j + 1) by lia. set (bn := NDIRECT + Z.of_nat j) in *. assert (0 <= bn < MAXFILE) as Hbn by lia.
    wsteps. apply (wp_getbuf bp b); [done|]. rewrite Hbd. cbv zeta.
    assert (le_get 4 (bview s0 (ind_of ip)) (Z.to_nat (4 * Z.of_nat j)) = block_addr s0 ip bn) as ->.
    { unfold block_addr. fold (ind_of ip). rewrite (proj2 (Z.ltb_ge _ _)), (proj2 (Z.eqb_neq (ind_of ip) 0)) by lia. f_equal. lia. }
    destruct (Z.eqb_spec (block_addr s0 ip bn) 0) as [E0|E0]; simpl negb; cbv iota.
    + wsteps. split; [|done]. eapply emptied_ext; [|exact Hs]. intros x. rewrite before_next by lia. rewrite E0. tauto.
    + destruct (ow_blocks _ _ Hown bn Hbn E0) as (Hda & _). eapply wp_mono.
      { apply (bfree_empties [bp] _ s _ Hs Hda (not_before bn Hbn E0)); [simpl; lia|]. intros q bq Hq Hbq. apply list_elem_of_singleton in Hq as ->. congruence. }
      intros [] s3 (He3 & Et3 & Hst3). split; [|split; [congruence|rewrite Hst3; [done|left]]]. eapply emptied_ext; [|exact He3]. intros x. rewrite before_next by lia.
      split; intros [H|H]; auto; right; [subst x; auto|apply H].
  - intros _ s (Hs & Et & Hbs). change (NDIRECT + Z.of_nat (Z.to_nat NINDIRECT)) with MAXFILE in Hs. pose proof Hs as [_ _ _ _ A5 _ (bs3 & Pn3 & Hbs3 & HT3)].
    eapply wp_mono; [apply (brelse_held i n [] Pn3 s bp (ind_of ip) (bview s0 (ind_of ip))); [apply HT3|apply HT3|]|].
    { exists b. do 3 (split; [done|]). destruct Hcl as [HP|HP]; [left|right; rewrite A5, <- (em_dsk _ _ _ He2); exact HP].
      apply (held_pinned bp b bs1 Pn1 s2 bs3 Pn3 s HT2 HT3 Hb Hbs); [|done]. rewrite Hbk. intros Hin.
      assert (ind_of ip ∈ bs) as Hin'. { destruct Hbs1 as [->| ->]; [done|]. unfold absorb in Hin. destruct (decide _); [done|]. apply elem_of_app in Hin as [?|H]; [done|]. apply list_elem_of_singleton in H. done. }
      destruct Hbs3 as [->| ->]; [done|]. unfold absorb. destruct (decide _); [done|]. apply elem_of_app. now left. }
    intros [] s4 [Hl4 _]. split; [eapply emptied_looked; eauto|]. rewrite (looked_itable _ _ _ _ _ Hl4). done.
Qed.

(** ** The whole file *)

Definition file_block (x : Z) : Prop := before MAXFILE x \/ (x <> 0 /\ x = ind_of ip).

Lemma no_index_before x : ind_of ip = 0 -> before NDIRECT x <-> file_block x.
Proof.
  intros E. unfold file_block. rewrite E. split; [intros (H & b & Hb & Eb); left; split; [done|]; exists b; split; [unfold NDIRECT in Hb; change MAXFILE with 268; lia|done]|].
  intros [(H & b & Hb & Eb)|[? ?]]; [|done]. split; [done|]. exists b. split; [|done]. destruct (Z_lt_ge_dec b NDIRECT); [lia|]. exfalso. apply H. rewrite <- Eb.
  unfold block_addr. fold (ind_of ip). rewrite (proj2 (Z.ltb_ge _ _)) by lia. now rewrite E.
Qed.
Lemma data_kept x : data_block s0 x -> ~ file_block x -> forall s, emptied [] file_block s -> data_block s x.
Proof. intros (H1 & H2 & H3 & H4) Hn s He. unfold data_block. rewrite (em_sb _ _ _ He). split; [done|]. split; [|done]. apply (em_bits _ _ _ He); [lia|done]. Qed.
Lemma emptied_can_grow s : emptied [] file_block s -> can_grow s.
Proof.
  intros He. constructor; rewrite ?(em_sb _ _ _ He); [apply He| |apply He]. apply (em_bits _ _ _ He); [pose proof (ow_home _ _ Hown) as (H & _); lia|]. split; [apply Hgrow|]. intros [[H _]|[H _]]; done.
Qed.

Lemma index_freed s1 : emptied [] (before NDIRECT) s1 -> itable s1 = <[k := cleared 12]> (itable s0) ->
  wp (let! ind := getaddr k NDIRECT in
      if negb (ind =? 0) then
        let! bp := bread ROOTDEV ind in
        do! mloop (Z.to_nat NINDIRECT) 0 1 (fun j =>
          let! b := getbuf bp in
          let a := le_get 4 (b_data b) (Z.to_nat (4 * j)) in
          if negb (a =? 0) then bfree ROOTDEV a else ret tt);
        do! brelse bp;
        do! bfree ROOTDEV ind;
        setaddr k NDIRECT 0
      else ret tt)
    (fun _ s => emptied [] file_block s /\ itable s = <[k := cleared 13]> (itable s0)) s1.
Proof.
  intros He Et. pose proof (lookup_lt_Some _ _ _ Hip) as Hk. pose proof (ow_len _ _ Hown) as Hl. assert (MAXFILE = 268) as EM by reflexivity.
  destruct (lookup_lt_is_Some_2 (i_addrs ip) 12) as [ind Ei]; [lia|]. assert (ind_of ip = ind) as Ei' by (unfold ind_of; change (Z.to_nat NDIRECT) with 12%nat; now rewrite Ei).
  assert (itable s1 !! k = Some (cleared 12)) as Hk1 by (rewrite Et; now apply list_lookup_insert_eq).
  wsteps. apply (wp_getaddr k (cleared 12) NDIRECT ind); [done|change (Z.to_nat NDIRECT) with 12%nat; rewrite cleared_lookup by lia; done|]. destruct (Z.eqb_spec ind 0) as [->|Hne]; simpl negb; cbv iota.
  - wsteps. split; [eapply emptied_ext; [|exact He]; intros x; now apply no_index_before|]. rewrite Et. f_equal. unfold cleared. f_equal. rewrite <- (cleared_next 12) by lia.
    symmetry. apply list_insert_id. rewrite <- Ei. apply (cleared_lookup 12). lia.
  - rewrite <- Ei' in *. pose proof (indirect_freed s1 Hne He) as HF. apply wp_bind_inv in HF. apply wp_bind. eapply wp_mono; [exact HF|]. intros bp s2 H2.
    apply wp_bind_inv in H2. apply wp_bind. eapply wp_mono; [exact H2|]. intros [] s3 H3. apply wp_bind. eapply wp_mono; [exact H3|]. intros [] s4 [He4 Et4].
    destruct (ow_index _ _ Hown) as [?|[Hd _]]; [done|]. wsteps. eapply wp_mono; [apply (bfree_empties [] _ s4 (ind_of ip) He4 Hd); [|simpl; lia|apply apart_nil]|].
    { intros (_ & b & Hb & E). destruct (ow_blocks _ _ Hown b Hb) as (_ & _ & Hn & _); congruence. }
    intros [] s5 (He5 & Et5 & _). unfold setaddr. apply (wp_updinode k _ (cleared 12)); [congruence|]. split.
    + apply emptied_itable. eapply emptied_ext; [|exact He5]. intros x. unfold file_block. split; intros [H|H]; auto; right; [subst x; auto|apply H].
    + change (<[k := set_i_addrs (<[12%nat := 0]> (replicate 12 0 ++ drop 12 (i_addrs ip))) (cleared 12)]> (itable s5) = <[k := cleared 13]> (itable s0)).
      rewrite Et5, Et4, Et, list_insert_insert_eq, (cleared_next 12) by lia. unfold cleared. now destruct ip.
Qed.

Definition empty_inode : inode := set_i_size 0 (set_i_addrs (replicate 13 0) ip).

(** [itrunc] empties a file.  In a transaction with room for two more
    blocks, on a disk with one bitmap block, it gives back exactly the blocks
    of the file, the indirect block included, and leaves its inode, in memory
    and on disk, with no blocks and size 0; no block changes but the bitmap
    and the inode's block, and bitmap and transaction are as they should
    be. *)
Theorem itrunc_frees Pn : txn i n LS bs Pn s0 -> dinode_typed (inode_of ip) -> length (bview s0 (home s0 ip)) = 1024%nat ->
  wp (itrunc k) (fun _ s =>
    (forall b, b ∈ used s <-> b ∈ used s0 /\ ~ file_block b) /\
    itable s = <[k := empty_inode]> (itable s0) /\ disk_inode s (i_inum ip) = inode_of empty_inode /\
    sb s = sb s0 /\ can_grow s /\ length (bview s (home s0 ip)) = 1024%nat /\ (exists bs' Pn', (length bs' <= length bs + 2)%nat /\ txn i n LS bs' Pn' s) /\
    forall x, x <> bitmap_block s0 -> x <> home s0 ip -> bview s x = bview s0 x) s0.
Proof.
  intros HT Hty Hhl. pose proof (lookup_lt_Some _ _ _ Hip) as Hk. unfold itrunc. apply wp_bind, (wp_getinode k ip); [done|]. rewrite (ow_dev _ _ Hown).
  apply wp_bind. eapply wp_mono; [now apply (direct_freed Pn)|]. intros [] s1 [He1 Et1].
  pose proof (index_freed s1 He1 Et1) as HI. apply wp_bind_inv in HI. apply wp_bind. eapply wp_mono; [exact HI|]. intros ind s2 H2. apply wp_bind. eapply wp_mono; [exact H2|]. clear H2 HI.
  intros [] s3 [He3 Et3]. wsteps. apply (wp_updinode k _ (cleared 13)); [rewrite Et3; now apply list_lookup_insert_eq|].
  assert (set_i_size 0 (cleared 13) = empty_inode) as Ee by (unfold cleared, empty_inode; rewrite drop_ge, app_nil_r by (rewrite (ow_len _ _ Hown); lia); done).
  rewrite Ee. set (s4 := set_itable _ s3). pose proof (emptied_itable [] file_block s3 (<[k := empty_inode]> (itable s3)) He3 : emptied [] file_block s4) as He4.
  pose proof (emptied_can_grow s4 He4) as Hc4. pose proof He4 as [A1 A2 A3 A4 A5 A6 (bs' & Pn' & Hbs & HT4)]. pose proof (log_room _ Hbs) as Hl4.
  assert (~ file_block (home s0 ip)) as Hhf.
  { intros [(H & b & Hb & E)|[_ E]]; [|now apply (ow_apart _ _ Hown)]. destruct (ow_blocks _ _ Hown b Hb) as (_ & _ & _ & Hn); congruence. }
  pose proof (data_kept _ (ow_home _ _ Hown) Hhf s4 He4) as Hd4. assert (home s4 empty_inode = home s0 ip) as Eh by (unfold home; now rewrite A1).
  eapply wp_mono; [apply (iupdate_spec i n LS bs' Pn' s4 k empty_inode HT4); [lia|apply list_lookup_insert_eq; rewrite Et3, length_insert; done|apply Hown|]|].
  { fold (home s4 empty_inode). rewrite Eh. now apply (data_blockno i n LS bs' Pn' s4 []). }
  intros [] s5 HL. fold (home s4 empty_inode) in HL. rewrite Eh in HL. pose proof HL as [_ _ (Pn5 & HT5) _ _].
  destruct (write_grows i n LS [] s4 (home s0 ip) _ bs' s5 Hc4 Hd4 HL) as (G & Et5 & Vh & Vo). pose proof (gr_sb _ _ _ _ _ _ G) as E5. rewrite A1 in E5.
  assert (home s0 ip <> bitmap_block s0) as Hhb by (pose proof (ow_home _ _ Hown) as (? & _ & _ & H3); apply not_eq_sym, H3; lia).
  split; [|split; [|split; [|split; [done|split; [apply G|split; [rewrite Vh, put_dinode_length, A6; done|split]]]]]].
  - intros b. rewrite !elem_of_used, E5. destruct (decide (0 <= b < sb_size (sb s0))) as [Hb|]; [|tauto].
    assert (in_use (bview s5) (sb s0) b = in_use (bview s4) (sb s0) b) as -> by (unfold in_use, bitmap_byte; rewrite one_bitmap_block, Vo by auto; done). rewrite A2 by done. tauto.
  - rewrite Et5. simpl. rewrite Et3. apply list_insert_insert_eq.
  - unfold disk_inode. rewrite E5. fold (home s0 ip). rewrite Vh. change (i_inum empty_inode) with (i_inum ip). apply get_put_dinode.
    + destruct Hty as [T1 T2 T3 T4 T5 T6 T7]. constructor; auto; [unfold word; simpl; lia|]. simpl. repeat constructor; lia.
    + rewrite A6, Hhl by done. apply islot_bound.
  - exists (absorb (home s0 ip) bs'), Pn5. split; [|done]. pose proof (absorb_length (home s0 ip) bs'). pose proof (absorb_length (bitmap_block s0) bs). destruct Hbs as [->| ->]; lia.
  - intros x Hx Hxh. rewrite Vo by done. now apply A6.
Qed.
End Trunc.
