(* ===== verification/Dirlink.v ===== *)
(** * Adding to a directory (kernel/fs.c)

    [dirlink] as an operation on the list of a directory's entries: it fills
    the first free slot, or grows the directory by one; [dirlookup] then
    finds the new entry. *)

From S2P Require Import Prelude.
From S2P Require Import Kstring.
From S2P Require Import Mach.
From S2P Require Import Spinlock.
From S2P Require Import Kalloc.
From S2P Require Import Vm.
From S2P Require Import Proc.
From S2P Require Import Kstate.
From S2P Require Import Printk.
From S2P Require Import Sleeplock.
From S2P Require Import Bio.
From S2P Require Import Log.
From S2P Require Import Fs.
From S2P Require Import Fsread.
From S2P Require Import Dir.
From S2P Require Import Fswrite.
From S2P Require Import Fsalloc.
From S2P Require Import Fsmap.
From S2P Require Import Fsgrow.

(** ** Entries *)

(** The first free slot, or the end. *)
Definition slot (l : list dirent) : nat := match list_find (fun de => de_inum de = 0) l with Some (j, _) => j | None => length l end.
Definition put_entry (de : dirent) (l : list dirent) : list dirent :=
  match list_find (fun de => de_inum de = 0) l with Some (j, _) => <[j := de]> l | None => l ++ [de] end.

Lemma slot_le l : (slot l <= length l)%nat.
Proof. unfold slot. destruct (list_find _ l) as [[j x]|] eqn:E; [|done]. apply list_find_Some in E as (E & _). apply lookup_lt_Some in E. lia. Qed.
Lemma slot_zero l j x : l !! j = Some x -> (j <= slot l)%nat -> de_inum x = 0 <-> j = slot l.
Proof.
  intros Hj. unfold slot. destruct (list_find _ l) as [[q y]|] eqn:E.
  - apply list_find_Some in E as (Eq & Ez & Eb). intros Hle. split; [|intros ->; congruence].
    intros Hz. destruct (decide (j = q)); [done|]. exfalso. apply (Eb j x); [done|lia|done].
  - apply list_find_None in E. rewrite Forall_lookup in E. apply lookup_lt_Some in Hj as Hlt. split; [intros Hz; now destruct (E j x)|lia].
Qed.
Lemma put_entry_lookup de l j : put_entry de l !! j = if decide (j = slot l) then Some de else l !! j.
Proof.
  unfold put_entry, slot. destruct (list_find _ l) as [[j' x]|] eqn:E.
  - apply list_find_Some in E as (E & _). destruct (decide (j = j')) as [->|]; [apply list_lookup_insert_eq; now apply lookup_lt_Some in E|now apply list_lookup_insert_ne].
  - destruct (decide (j = length l)) as [->|]; [now rewrite lookup_app_r, Nat.sub_diag by lia|].
    destruct (decide (j < length l)%nat); [now rewrite lookup_app_l by lia|]. rewrite !lookup_ge_None_2; [done|lia|rewrite length_app; simpl; lia].
Qed.

Lemma list_find_ext_ne {A : Type} (Q : A -> Prop) `{forall x, Decision (Q x)} (l l' : list A) j x :
  l !! j = Some x -> Q x -> (forall k, (k < j)%nat -> l !! k = l' !! k) -> list_find Q l' = None -> list_find Q l = Some (j, x).
Proof.
  intros Hj Hq He Hn. apply list_find_Some. split; [done|]. split; [done|]. intros k y Hk Hlt. rewrite He in Hk by done.
  apply list_find_None in Hn. rewrite Forall_lookup in Hn. now apply (Hn k).
Qed.
Lemma new_named name inum : inum <> 0 -> named name (Dirent inum (strncpy_l (Z.to_nat DIRSIZ) name)).
Proof. intros H. split; [exact H|]. cbn [de_name]. unfold name_of. symmetry. apply cstr_cut. Qed.
(** Looking for a name in the directory with the new entry. *)
Lemma put_entry_find name de l : list_find (named name) l = None -> named name de -> list_find (named name) (put_entry de l) = Some (slot l, de).
Proof.
  intros Hn Hd. apply (list_find_ext_ne (named name) _ l); auto; [now rewrite put_entry_lookup, decide_True|].
  intros k Hk. now rewrite put_entry_lookup, decide_False by lia.
Qed.

(** ** Entries and bytes *)

Lemma bytes_of_contents s ip o m : 0 <= o -> 0 <= m -> o + m <= i_size ip -> bytes_at s ip o m = take (Z.to_nat m) (drop (Z.to_nat o) (contents s ip)).
Proof.
  intros Ho Hm Hs. unfold contents. replace (i_size ip) with (o + (m + (i_size ip - o - m))) by lia.
  rewrite bytes_at_app, drop_app_length', Z.add_0_l, bytes_at_app, take_app_length' by (rewrite ?bytes_at_length; lia). done.
Qed.
Lemma overwrite_in off data old : (off + length data <= length old \/ off = length old)%nat ->
  take (length data) (drop off (overwrite (Z.of_nat off) data old)) = data.
Proof.
  intros H. unfold overwrite. rewrite Nat2Z.id, drop_app_length' by (rewrite length_take; lia). now apply take_app_length'.
Qed.
Lemma overwrite_out off data old o m : (o + m <= off \/ off + length data <= o)%nat -> (off <= length old)%nat ->
  take m (drop o (overwrite (Z.of_nat off) data old)) = take m (drop o old).
Proof.
  intros H Hle. apply list_eq. intros j. destruct (decide (j < m)%nat); [|now rewrite !lookup_take_ge by lia].
  rewrite !lookup_take_lt, !lookup_drop by lia. unfold overwrite. rewrite Nat2Z.id. destruct (decide (o + j < off)%nat).
  - now rewrite lookup_app_l, lookup_take_lt by (rewrite ?length_take; lia).
  - rewrite lookup_app_r, length_take, Nat.min_l by (rewrite ?length_take; lia). rewrite lookup_app_r by lia. rewrite lookup_drop. f_equal. lia.
Qed.

Lemma get_put_dirent inum nm : length nm = 14%nat -> get_dirent (put_dirent (Dirent (u16 inum) nm)) = Dirent (u16 inum) nm.
Proof.
  intros Hl. unfold get_dirent, put_dirent. cbn [de_inum de_name]. f_equal.
  - assert (u16 (u16 inum) = u16 inum) as E by (unfold u16; now rewrite Z.mod_mod).
    rewrite (le_get_ext 2 _ (le_set 2 [0; 0] 0 (u16 (u16 inum)))); [rewrite le_get_set_eq; [done|simpl; lia|apply u16_range]|].
    intros k Hk. rewrite lookup_app_l; [done|]. rewrite le_set_length. simpl. lia.
  - rewrite drop_app_length' by (now rewrite le_set_length). apply take_ge. lia.
Qed.
Lemma put_dirent_length inum nm : length nm = 14%nat -> length (put_dirent (Dirent inum nm)) = 16%nat.
Proof. intros Hl. unfold put_dirent. cbn [de_inum de_name]. rewrite length_app, le_set_length, Hl. done. Qed.

(** The new entry, written where the slot is. *)
Lemma written_entries s ip s' ip' de :
  i_size ip mod 16 = 0 -> 0 <= i_size ip -> let off := 16 * Z.of_nat (slot (entries s ip)) in
  length (put_dirent de) = 16%nat -> get_dirent (put_dirent de) = de -> i_size ip' = Z.max (i_size ip) (off + 16) ->
  contents s' ip' = overwrite off (put_dirent de) (contents s ip) -> entries s' ip' = put_entry de (entries s ip).
Proof.
  intros Hm Hs off Hl Hg Hsz Hc. pose proof (slot_le (entries s ip)) as Hsl. rewrite entries_length in Hsl.
  assert (0 <= i_size ip / 16) as Hq by (apply Z.div_pos; lia). pose proof (Z.div_mod (i_size ip) 16 ltac:(lia)) as Hdm.
  set (c := Z.to_nat (i_size ip / 16)) in *. set (p := slot (entries s ip)) in *. assert (i_size ip = 16 * Z.of_nat c) as Ec by lia.
  assert (i_size ip' / 16 = Z.of_nat (Nat.max c (S p))) as Ec' by (rewrite Hsz; symmetry; apply (Z.div_unique _ _ _ 0); lia).
  assert (forall j, (j < Nat.max c (S p))%nat -> entry_at s' ip' j = if decide (j = p) then de else entry_at s ip j) as He.
  { intros j Hj. unfold entry_at. rewrite bytes_of_contents, Hc by lia. replace off with (Z.of_nat (16 * p)) by lia.
    assert (length (contents s ip) = (16 * c)%nat) as Hlc by (unfold contents; rewrite bytes_at_length; lia).
    destruct (decide (j = p)) as [->|Hne].
    - replace (Z.to_nat 16) with (length (put_dirent de)) by lia. replace (Z.to_nat (16 * Z.of_nat p)) with (16 * p)%nat by lia. rewrite overwrite_in by lia. done.
    - rewrite overwrite_out by lia. now rewrite bytes_of_contents by lia. }
  apply list_eq. intros j. rewrite put_entry_lookup. fold p. destruct (decide (j < Nat.max c (S p))%nat) as [Hj|Hj].
  - rewrite entries_lookup, He by lia. destruct (decide (j = p)); [done|]. rewrite entries_lookup; [done|lia].
  - rewrite !decide_False by lia. rewrite !lookup_ge_None_2; [done|rewrite entries_length; lia..].
Qed.

(** ** Directories that own their blocks *)

Record dir_own (s : kern) (ip : inode) : Prop := {
  dw_owns : owns s ip;
  dw_filled : filled s ip (i_size ip);
  dw_type : i_type ip = T_DIR;
  dw_mod : i_size ip mod 16 = 0;
  dw_size : 0 <= i_size ip <= MAXFILE * BSIZE;
  dw_typed : dinode_typed (inode_of ip);
  dw_home : length (bview s (home s ip)) = 1024%nat;
}.

Lemma dir_own_ok s ip : dir_own s ip -> dir_ok s ip.
Proof.
  intros [A1 A2 A3 A4 A5 A6 A7]. constructor; [|done|done]. constructor; [apply A1|apply A1|done|]. intros bn H1 H2.
  assert (block_addr s ip bn <> 0) as Hne. { rewrite <- (Z.div_mul bn BSIZE) by done. apply A2. assert (BSIZE = 1024) by reflexivity. lia. }
  split; [done|]. apply (ow_blocks _ _ A1); [|done]. assert (BSIZE = 1024) by reflexivity. lia.
Qed.
Lemma data_block_view s s' x : sb s' = sb s -> (forall y, bview s' y = bview s y) -> data_block s x -> data_block s' x.
Proof. intros E V (H1 & H2 & H3 & H4). unfold data_block. rewrite (in_use_view s) by done. now rewrite E. Qed.
Lemma owns_view s s' ip : sb s' = sb s -> (forall y, bview s' y = bview s y) -> owns s ip -> owns s' ip.
Proof.
  intros E V [A1 A2 A3 A4 A5 A6 A7]. assert (forall b, block_addr s' ip b = block_addr s ip b) as EA by (intros; now apply block_addr_view).
  assert (home s' ip = home s ip) as Eh by (unfold home; now rewrite E). constructor; auto; rewrite ?Eh; auto.
  - destruct A3 as [?|[? ?]]; [now left|right]. split; [now apply (data_block_view s)|now rewrite V].
  - intros bn Hbn. rewrite !EA, V. intros Hne. destruct (A4 bn Hbn Hne) as (B1 & B2). split; [now apply (data_block_view s)|done].
  - intros a b Ha Hb. rewrite !EA. auto.
  - now apply (data_block_view s).
Qed.
Lemma dir_own_view s s' ip : sb s' = sb s -> (forall y, bview s' y = bview s y) -> dir_own s ip -> dir_own s' ip.
Proof.
  intros E V [A1 A2 A3 A4 A5 A6 A7]. constructor; auto; [now apply (owns_view s)|intros o Ho; rewrite (block_addr_view s); auto|].
  unfold home. rewrite E, V. done.
Qed.
Lemma entries_view s s' ip : (forall y, bview s' y = bview s y) -> entries s' ip = entries s ip.
Proof. intros V. unfold entries, entry_at. apply list_fmap_ext. intros j x _. now rewrite (bytes_at_view s). Qed.
Lemma entry_blocks_left j : blocks_left (16 * Z.of_nat j) (16 * Z.of_nat j + 16) = 1.
Proof. unfold blocks_left, BSIZE. Z.div_mod_to_equations. lia. Qed.

Section Link.
Context {LL : Layout} {P : Patience} {D : DiskDriver} {DO : DiskOk D}.
Variables (i : nat) (n : Z) (LS : oplog).

Lemma dirlink_scan_spec Pn s0 dp ip fuel : forall s j,
  calmly i n Pn s0 -> looked n [] Pn s0 s -> itable s0 !! dp = Some ip -> dir_ok s0 ip ->
  (j <= slot (entries s0 ip))%nat -> (Z.to_nat (i_size ip / 16) - j <= fuel)%nat ->
  wp (dirlink_scan fuel dp (16 * Z.of_nat j)) (fun r s' => r = 16 * Z.of_nat (slot (entries s0 ip)) /\ looked n [] Pn s0 s') s.
Proof.
  induction fuel as [|fuel IH]; intros s j Hc Hl Hip Hd Hj Hf.
  all: pose proof (slot_le (entries s0 ip)) as Hsl; rewrite entries_length in Hsl.
  all: pose proof (do_size _ _ Hd) as Hm; pose proof (Z.div_mod (i_size ip) 16 ltac:(lia)) as Hdm.
  all: pose proof (fo_size _ _ (do_file _ _ Hd)) as Hs; assert (MAXFILE = 268) as EM by reflexivity.
  all: cbn [dirlink_scan]; wsteps; apply (wp_getinode dp ip); [now rewrite (looked_itable _ _ _ _ _ Hl)|]; rewrite u32_small by lia.
  1: { rewrite (proj2 (Z.ltb_ge _ _)) by lia. wsteps. split; [lia|done]. }
  destruct (Z.ltb_spec (16 * Z.of_nat j) (i_size ip)) as [Hlt|Hge]; [|wsteps; split; [lia|done]].
  assert (j < Z.to_nat (i_size ip / 16))%nat as Hjlt by lia. pose proof (entries_lookup s0 ip j Hjlt) as He. wsteps. eapply wp_mono.
  { apply (readi_spec i n Pn s dp ip); [eapply calmly_looked; eauto|now rewrite (looked_itable _ _ _ _ _ Hl)| |lia..].
    eapply file_ok_view; [apply Hl|apply Hd]. }
  intros r s1 [Hl1 ->]. change DIRENT with 16.
  rewrite (proj2 (Z.ltb_ge (i_size ip) (16 * Z.of_nat j))) by lia.
  rewrite (proj2 (Z.leb_gt 4294967296 (16 * Z.of_nat j + 16))) by lia. simpl orb. cbv iota.
  rewrite Z.min_l by lia. simpl fst. simpl snd. wsteps. { reflexivity. }
  rewrite (bytes_at_view s0) by apply Hl. fold (entry_at s0 ip j). pose proof (looked_trans _ _ _ _ _ _ _ Hl Hl1) as Hl01.
  pose proof (slot_zero _ _ _ He Hj) as Hz. destruct (Z.eqb_spec (de_inum (entry_at s0 ip j)) 0) as [E|E]; [wsteps; split; [now rewrite <- (proj1 Hz E)|done]|].
  rewrite i32_small by lia. replace (16 * Z.of_nat j + 16) with (16 * Z.of_nat (S j)) by lia.
  assert (j <> slot (entries s0 ip)) as Hne by (intros Hs'; now apply E, Hz). apply (IH s1 (S j)); auto; lia.
Qed.

Lemma dirlink_spec bs Pn s dp ip name inum :
  txn i n LS bs Pn s -> (length bs <= 23)%nat -> can_grow s -> itable s !! dp = Some ip -> dir_own s ip -> i_size ip + 16 <= MAXFILE * BSIZE ->
  iinv (itable s) -> (forall de, de ∈ entries s ip -> iget_ok ROOTDEV (de_inum de) (itable s)) -> list_find (named name) (entries s ip) = None ->
  wp (dirlink dp name inum) (fun r s' => exists ip' bs' Pn',
    (exists l z, ip' = set_i_size z (set_i_addrs l ip)) /\ itable s' = <[dp := ip']> (itable s) /\
    (length bs' <= length bs + 7)%nat /\ txn i n LS bs' Pn' s' /\ can_grow s' /\ sb s' = sb s /\
    owns s' ip' /\ disk_inode s' (i_inum ip) = inode_of ip' /\
    (forall x, foreign s ip x -> x <> home s ip -> bview s' x = bview s x) /\
    ((r = 0 /\ dir_own s' ip' /\ entries s' ip' = put_entry (Dirent (u16 inum) (strncpy_l (Z.to_nat DIRSIZ) name)) (entries s ip)) \/
     (r = -1 /\ disk_full s'))) s.
Proof.
  intros HT Hbs Hc Hip Hd Hmax Hi Hg Hnone. assert (length bs < 30)%nat as Hl30 by lia. pose proof (txn_calmly i n LS bs Pn s HT Hl30) as Hcm.
  pose proof (dir_own_ok _ _ Hd) as Hok. pose proof (dw_size _ _ Hd) as Hsz. assert (MAXFILE = 268) as EM by reflexivity.
  unfold dirlink. wsteps. eapply wp_mono; [now apply (dirlookup_spec i n Pn s dp ip name)|]. rewrite Hnone. intros r s1 [-> Hl1].
  wsteps. apply (wp_getinode dp ip); [now rewrite (looked_itable _ _ _ _ _ Hl1)|]. wsteps. eapply wp_mono.
  { change 0 with (16 * Z.of_nat 0). apply (dirlink_scan_spec Pn s dp ip); auto; [lia|]. change DIRENT with 16. pose proof (Z.div_pos (i_size ip) 16). lia. }
  intros off s2 [-> Hl2]. destruct (looked_same _ _ _ _ _ Hl2) as (E2 & Et2 & V2 & _). set (de := Dirent (u16 inum) (strncpy_l (Z.to_nat DIRSIZ) name)).
  assert (length (de_name de) = 14%nat) as Hnm by apply strncpy_l_length. assert (length (put_dirent de) = 16%nat) as Hlen by now apply put_dirent_length.
  pose proof (slot_le (entries s ip)) as Hsl. rewrite entries_length in Hsl. pose proof (Z.div_mod (i_size ip) 16 ltac:(lia)) as Hdm. pose proof (dw_mod _ _ Hd) as Hm.
  wsteps. rewrite u32_small by lia. change DIRENT with 16. replace 16 with (Z.of_nat (length (put_dirent de))) at 2 by lia.
  assert (home s2 ip = home s ip) as Eh by (unfold home; now rewrite E2). pose proof (dir_own_view s s2 ip E2 V2 Hd) as Hd2.
  eapply wp_mono; [apply (writei_grow_spec i n LS bs Pn s2 dp ip); rewrite ?Hlen, ?Et2; [eapply txn_looked; eauto|apply (looked_grows _ [] [] Pn s bs s2 Hc Hl2)|done|apply Hd2..|lia|lia|lia|change (Z.of_nat 16) with 16; rewrite entry_blocks_left; lia|apply Hd2]|].
  rewrite Hlen. change (Z.of_nat 16) with 16. rewrite entry_blocks_left. intros r s3 (ip' & bs' & Pn' & Hr & Hfull & (l & Eip) & Et3 & Hcont & Hdi & Hty3 & Hh3 & Ho3 & Hf3 & Hc3 & E3 & Hb3 & HT3 & Hfr).
  assert (forall x, foreign s ip x -> x <> home s ip -> bview s3 x = bview s x) as Hfr'.
  { intros x (F1 & F2 & F3) Hx. rewrite <- (V2 x). apply Hfr; [|congruence]. split; [now apply (data_block_view s)|]. split; [done|]. intros b Hb. rewrite (block_addr_view s); auto. }
  destruct (Z.eqb_spec r 16) as [->|Hne]; simpl negb; cbv iota; wsteps; exists ip', bs', Pn'; (split; [eauto|]); rewrite Et3, Et2.
  - split; [done|]. split; [lia|]. split; [done|]. split; [done|]. split; [congruence|]. split; [done|]. split; [done|]. split; [done|]. left. split; [done|]. split.
    + assert (i_size ip' = Z.max (i_size ip) (16 * Z.of_nat (slot (entries s ip)) + 16)) as Es by (rewrite Eip; done).
      constructor; [done|done|rewrite Eip; exact (dw_type _ _ Hd)| |lia|done|].
      * rewrite Es. replace (Z.max _ _) with (Z.max (i_size ip / 16) (Z.of_nat (slot (entries s ip)) + 1) * 16) by lia. rewrite Z.mod_mul by discriminate. reflexivity.
      * replace (home s3 ip') with (home s2 ip); [done|]. unfold home. rewrite E3, Eip. done.
    + assert (entries s2 ip = entries s ip) as Ee by now apply entries_view. rewrite <- Ee.
      apply (written_entries s2 ip s3 ip' de); rewrite ?Ee; [done|lia|done|now apply get_put_dirent|rewrite Eip; done|]. rewrite Hcont. now rewrite take_ge by lia.
  - split; [done|]. split; [lia|]. split; [done|]. split; [done|]. split; [congruence|]. split; [done|]. split; [done|]. split; [done|]. right. split; [done|]. apply Hfull. lia.
Qed.

(** [dirlink] adds an entry to a directory.  In a transaction with room,
    when no entry in use has the name, the new entry fills the first free
    slot, or the directory grows by one entry at the end, and 0 is returned;
    the inode on the disk is the one in memory, the other entries, the other
    files' blocks and the other inodes are as they were, and the directory is well formed again.  It fails, with -1,
    only when the disk is full. *)
Theorem dirlink_adds bs Pn s dp ip name inum :
  txn i n LS bs Pn s -> (length bs <= 23)%nat -> can_grow s -> itable s !! dp = Some ip -> dir_own s ip -> i_size ip + 16 <= MAXFILE * BSIZE ->
  iinv (itable s) -> (forall de, de ∈ entries s ip -> iget_ok ROOTDEV (de_inum de) (itable s)) -> list_find (named name) (entries s ip) = None ->
  wp (dirlink dp name inum) (fun r s' => exists ip' bs' Pn',
    (exists l z, ip' = set_i_size z (set_i_addrs l ip)) /\ itable s' = <[dp := ip']> (itable s) /\
    (length bs' <= length bs + 7)%nat /\ txn i n LS bs' Pn' s' /\ can_grow s' /\ sb s' = sb s /\
    owns s' ip' /\ disk_inode s' (i_inum ip) = inode_of ip' /\
    (forall x, foreign s ip x -> x <> home s ip -> bview s' x = bview s x) /\
    ((r = 0 /\ dir_own s' ip' /\ entries s' ip' = put_entry (Dirent (u16 inum) (strncpy_l (Z.to_nat DIRSIZ) name)) (entries s ip)) \/
     (r = -1 /\ disk_full s'))) s.
Proof. apply dirlink_spec. Qed.

(** References and identity of the inodes in memory do not depend on size
    and blocks. *)
Lemma table_update (Q : list inode -> Prop) t dp ip l z :
  t !! dp = Some ip -> (forall t', length t' = length t -> (forall j x', t' !! j = Some x' -> exists x, t !! j = Some x /\ i_ref x' = i_ref x /\ i_dev x' = i_dev x /\ i_inum x' = i_inum x) ->
    (forall j x, t !! j = Some x -> exists x', t' !! j = Some x' /\ i_ref x' = i_ref x /\ i_dev x' = i_dev x /\ i_inum x' = i_inum x) -> Q t') ->
  Q (<[dp := set_i_size z (set_i_addrs l ip)]> t).
Proof.
  intros Hdp HQ. pose proof (lookup_lt_Some _ _ _ Hdp) as Hlt. apply HQ; [apply length_insert| |]; intros j x Hj; destruct (decide (j = dp)) as [->|Hne].
  - rewrite list_lookup_insert_eq in Hj by done. injection Hj as <-. eauto.
  - rewrite list_lookup_insert_ne in Hj by done. eauto.
  - rewrite list_lookup_insert_eq by done. rewrite Hdp in Hj. injection Hj as <-. eauto.
  - rewrite list_lookup_insert_ne by done. eauto.
Qed.
Lemma iinv_update t dp ip l z : t !! dp = Some ip -> iinv t -> iinv (<[dp := set_i_size z (set_i_addrs l ip)]> t).
Proof.
  intros Hdp [A1 A2 A3]. apply table_update; [done|]. intros t' Hl Hb _. constructor; [congruence| |].
  - intros j x' Hj. destruct (Hb j x' Hj) as (x & Hx & -> & _). eauto.
  - intros j1 j2 x y d m H1 H2. destruct (Hb _ _ H1) as (x0 & X0 & X1 & X2 & X3), (Hb _ _ H2) as (y0 & Y0 & Y1 & Y2 & Y3).
    unfold entry_for. rewrite X1, X2, X3, Y1, Y2, Y3. intros. now apply (A3 j1 j2 x0 y0 d m).
Qed.
Lemma iget_ok_update dev inum t dp ip l z : t !! dp = Some ip -> iget_ok dev inum t -> iget_ok dev inum (<[dp := set_i_size z (set_i_addrs l ip)]> t).
Proof.
  intros Hdp [He Hf]. apply table_update; [done|]. intros t' _ Hb Hfw. split.
  - apply Exists_exists in He as (x & Hx & Hc). apply list_elem_of_lookup in Hx as [j Hj]. destruct (Hfw j x Hj) as (x' & Hj' & E1 & E2 & E3).
    apply Exists_exists. exists x'. split; [now apply list_elem_of_lookup_2 in Hj'|]. unfold entry_for. now rewrite E1, E2, E3.
  - rewrite Forall_lookup in Hf |- *. intros j x' Hj. destruct (Hb j x' Hj) as (x & Hx & E1 & E2 & E3). unfold entry_for. rewrite E1, E2, E3. now apply (Hf j).
Qed.

(** C12: a name that was linked is found.  After [dirlink] of a new name,
    unless the disk is full, [dirlookup] of the name in the same directory
    returns the inode that was linked, with a reference, and the offset of
    the slot it was put in. *)
Theorem dirlink_dirlookup bs Pn s dp ip name inum :
  txn i n LS bs Pn s -> (length bs <= 22)%nat -> can_grow s -> itable s !! dp = Some ip -> dir_own s ip -> i_size ip + 16 <= MAXFILE * BSIZE ->
  iinv (itable s) -> (forall de, de ∈ entries s ip -> iget_ok ROOTDEV (de_inum de) (itable s)) -> list_find (named name) (entries s ip) = None ->
  0 < inum < 65536 -> iget_ok ROOTDEV inum (itable s) ->
  wp (let! e := dirlink dp name inum in if e =? 0 then dirlookup dp name else ret None) (fun r s' =>
    disk_full s' \/ exists k ip', r = Some (k, 16 * Z.of_nat (slot (entries s ip))) /\ itable s' !! k = Some ip' /\ entry_for ROOTDEV inum ip') s.
Proof.
  intros HT Hbs Hc Hip Hd Hmax Hi Hg Hnone Hin Hgi. wsteps. eapply wp_mono; [apply (dirlink_spec bs Pn s dp ip name inum); auto; lia|].
  assert (u16 inum = inum) as Eu by (unfold u16; apply Z.mod_small; lia). rewrite Eu. set (de := Dirent inum (strncpy_l (Z.to_nat DIRSIZ) name)).
  intros e s1 (ip1 & bs1 & Pn1 & (l & z & ->) & Et & Hl1 & HT1 & Hc1 & _ & _ & _ & _ & [(-> & Hd1 & He)|(-> & Hfull)]); [|simpl; wsteps; now left].
  simpl Z.eqb. cbv iota. assert (length bs1 < 30)%nat as Hl30 by lia. pose proof (txn_calmly i n LS bs1 Pn1 s1 HT1 Hl30) as Hcm.
  pose proof (new_named name inum ltac:(lia) : named name de) as Hnm.
  pose proof (iinv_update _ dp ip l z Hip Hi) as Hi1. rewrite <- Et in Hi1.
  eapply wp_mono; [apply (dirlookup_spec i n Pn1 s1 dp (set_i_size z (set_i_addrs l ip)) name); auto|].
  - rewrite Et. apply list_lookup_insert_eq. now apply lookup_lt_Some in Hip.
  - now apply dir_own_ok.
  - rewrite He, Et. intros x Hx. apply iget_ok_update; [done|]. apply list_elem_of_lookup in Hx as [j Hj]. rewrite put_entry_lookup in Hj.
    destruct (decide _); [injection Hj as <-; exact Hgi|]. apply Hg. now apply list_elem_of_lookup_2 in Hj.
  - rewrite He, (put_entry_find name de _ Hnone Hnm). intros r s2 (k & s3 & m & t' & -> & _ & _ & -> & Ht). right.
    destruct Ht as (x & x' & Hk & -> & Hcase). exists k, x'. split; [done|]. split; [simpl; apply list_lookup_insert_eq; now apply lookup_lt_Some in Hk|].
    pose proof (ii_ref _ Hi1 k x Hk). destruct Hcase as [[(H1 & H2 & H3) ->]|(_ & _ & _ & ->)]; split; simpl; try done; lia.
Qed.
End Link.
