(* ===== verification/Iput.v ===== *)
(** * Dropping references to inodes (kernel/fs.c)

    [iput] inside a transaction: the last reference to an inode without links
    frees its blocks and the inode on disk; any other only lowers the count. *)

From S2P Require Import Prelude.
From S2P Require Import Mach.
From S2P Require Import Spinlock.
From S2P Require Import Kalloc.
From S2P Require Import Vm.
From S2P Require Import Proc.
From S2P Require Import Kstate.
From S2P Require Import Printk.
From S2P Require Import Sleeplock.
From S2P Require Import Bio.
From S2P Require Import Log.
From S2P Require Import Fs.
From S2P Require Import Fsread.
From S2P Require Import Dir.
From S2P Require Import Fswrite.
From S2P Require Import Fsalloc.
From S2P Require Import Fsmap.
From S2P Require Import Fsgrow.
From S2P Require Import Itrunc.
From S2P Require Import Dirlink.

(** The entry of an inode that has been freed. *)
Definition free_inode (ip : inode) : inode := set_i_type 0 (empty_inode ip).
Definition gone (ip : inode) : inode := set_i_ref 0 (set_i_valid false (free_inode ip)).

(** What freeing the inode means for the file system. *)
Record reclaimed (s : kern) (ip : inode) (s' : kern) : Prop := {
  rc_used : forall b, b ∈ used s' <-> b ∈ used s /\ ~ file_block s ip b;
  rc_inode : disk_inode s' (i_inum ip) = inode_of (free_inode ip);
  rc_sb : sb s' = sb s;
  rc_can : can_grow s';
  rc_same : forall x, off_log (sb s) x -> x <> bitmap_block s -> x <> home s ip -> bview s' x = bview s x;
}.

(** The same blocks, seen from another state. *)
Definition same_fs (s s' : kern) : Prop := sb s' = sb s /\ (forall x, bview s' x = bview s x) /\ (tx_idle s -> tx_idle s').
Lemma same_can s s' : same_fs s s' -> can_grow s -> can_grow s'.
Proof. intros (E & V & I) Hc. apply (same_grows [] s [] s' Hc E V I). Qed.
Lemma file_block_view s s' ip x : (forall y, bview s' y = bview s y) -> file_block s' ip x <-> file_block s ip x.
Proof. intros V. unfold file_block, before. setoid_rewrite (fun b => block_addr_view s s' ip b V). done. Qed.
Lemma used_view s s' : same_fs s s' -> used s' = used s.
Proof.
  intros (E & V & _). apply set_eq. intros b. rewrite !elem_of_used, (in_use_view s s' b E V), E. done.
Qed.
Lemma reclaimed_from s0 s ip s' : same_fs s0 s -> reclaimed s ip s' -> reclaimed s0 ip s'.
Proof.
  intros Hs [A1 A2 A3 A4 A5]. pose proof Hs as (E & V & _). constructor; auto; [|congruence|].
  - intros b. rewrite A1, (used_view s0 s), (file_block_view s0 s) by done. done.
  - intros x H0 H1 H2. rewrite <- V. apply A5; [now rewrite E|unfold bitmap_block in *; now rewrite E|unfold home in *; now rewrite E].
Qed.
Lemma reclaimed_to s ip s1 s' : reclaimed s ip s1 -> same_fs s1 s' -> reclaimed s ip s'.
Proof.
  intros [A1 A2 A3 A4 A5] Hs. pose proof Hs as (E & V & _). constructor; [|unfold disk_inode in *; now rewrite E, V|congruence|now apply (same_can s1)|].
  - intros b. rewrite (used_view s1 s') by done. apply A1.
  - intros x H0 H1 H2. rewrite V. auto.
Qed.

Section Iput.
Context {LL : Layout} {P : Patience} {D : DiskDriver} {DO : DiskOk D}.
Variables (i : nat) (n : Z) (LS : oplog).
Implicit Types (s : kern) (Pn B : list nat) (bs : list Z).

(** Locks of inodes are no part of a transaction. *)
Lemma htxn_locks B bs Pn s m k v : htxn i n LS B bs Pn s -> calm (km s) m ->
  htxn i n LS B bs Pn (set_slocks (<[inode_lock k := v]> (slocks s)) (set_km m s)).
Proof.
  intros [[A1 A2 A3 A4 A5 [] A7 A8] H1 H2 H3 []] Hm. constructor; auto; [|now constructor]. constructor; auto; [|exact (ready_calm i n _ _ A8 Hm)].
  constructor; auto. intros j Hj. unfold getsl. simpl. rewrite lookup_insert_ne; [now apply bi_lock|]. unfold inode_lock, buf_lock. lia.
Qed.
Lemma htxn_calm B bs Pn s m : htxn i n LS B bs Pn s -> calm (km s) m -> htxn i n LS B bs Pn (set_km m s).
Proof.
  intros [[A1 A2 A3 A4 A5 [] A7 A8] H1 H2 H3 []] Hm. constructor; auto; [|now constructor]. constructor; auto; [|exact (ready_calm i n _ _ A8 Hm)]. now constructor.
Qed.

(** The steps of [iput] under the inode's lock. *)
Definition reclaim (k : nat) : M kern unit :=
  do! itrunc k; do! updinode k (set_i_type 0); do! iupdate k; updinode k (set_i_valid false).

Lemma reclaim_spec bs Pn s k ip :
  txn i n LS bs Pn s -> (length bs <= 27)%nat -> sb_size (sb s) <= BPB -> can_grow s -> itable s !! k = Some ip -> owns s ip ->
  dinode_typed (inode_of ip) -> length (bview s (home s ip)) = 1024%nat ->
  wp (reclaim k) (fun _ s' => reclaimed s ip s' /\ itable s' = <[k := set_i_valid false (free_inode ip)]> (itable s) /\
    exists bs' Pn', (length bs' <= length bs + 3)%nat /\ txn i n LS bs' Pn' s') s.
Proof.
  intros HT Hl Hone Hc Hip Ho Hty Hh. pose proof (lookup_lt_Some _ _ _ Hip) as Hk. unfold reclaim. wsteps.
  eapply wp_mono; [now apply (itrunc_frees i n LS s bs Hone Hl Hc k ip Hip Ho Pn)|].
  intros [] s1 (U1 & T1 & I1 & E1 & C1 & Hl1 & (bs1 & Pn1 & L1 & HT1) & V1). wsteps.
  apply (wp_updinode k _ (empty_inode ip)); [rewrite T1; now apply list_lookup_insert_eq|]. wsteps. fold (free_inode ip). set (s2 := set_itable _ s1).
  assert (~ file_block s ip (home s ip)) as Hnf.
  { intros [(H & b & Hb & E)|[_ E]]; [|now apply (ow_apart _ _ Ho)]. destruct (ow_blocks _ _ Ho b Hb) as (_ & _ & _ & Hn); congruence. }
  assert (data_block s2 (home s ip)) as Hd.
  { destruct (ow_home _ _ Ho) as (D1 & D2 & D3). unfold data_block. change (sb s2) with (sb s1). rewrite E1. split; [done|]. split; [|done].
    rewrite <- E1. apply (elem_of_used s1), U1. split; [|done]. apply elem_of_used. split; [lia|done]. }
  assert (can_grow s2) as C2 by (destruct C1; now constructor). pose proof (htxn_itable i n LS [] bs1 Pn1 s1 (<[k := free_inode ip]> (itable s1)) HT1) as HT2. fold s2 in HT2.
  assert (home s2 (free_inode ip) = home s ip) as Eh by (unfold home; simpl; now rewrite E1).
  eapply wp_mono; [apply (iupdate_spec i n LS bs1 Pn1 s2 k (free_inode ip) HT2); [lia|apply list_lookup_insert_eq; rewrite T1, length_insert; done|apply Ho|]|].
  { fold (home s2 (free_inode ip)). rewrite Eh. now apply (data_blockno i n LS bs1 Pn1 s2 []). }
  intros [] s3 HL. fold (home s2 (free_inode ip)) in HL. rewrite Eh in HL. pose proof HL as [_ _ (Pn3 & HT3) _ _].
  destruct (write_grows i n LS [] s2 (home s ip) _ bs1 s3 C2 Hd HL) as (G & T3 & Vh & Vo). pose proof (gr_sb _ _ _ _ _ _ G) as E3. change (sb s2) with (sb s1) in E3.
  assert (itable s3 = <[k := free_inode ip]> (itable s)) as T3' by (rewrite T3; simpl; rewrite T1; apply list_insert_insert_eq).
  apply (wp_updinode k _ (free_inode ip)); [rewrite T3'; now apply list_lookup_insert_eq|]. split; [|split].
  - apply (reclaimed_to s ip s3); [|done]. constructor; [| |congruence|apply G|].
    + intros b. rewrite <- U1. rewrite !elem_of_used. change (sb s2) with (sb s1) in *. rewrite E3. destruct (decide (0 <= b < sb_size (sb s1))) as [Hb|]; [|tauto].
      destruct Hd as (_ & _ & _ & Hd). unfold in_use, bitmap_byte. rewrite Vo by now apply (Hd b). done.
    + unfold disk_inode. rewrite E3, E1. fold (home s ip). rewrite Vh. change (i_inum (free_inode ip)) with (i_inum ip). apply get_put_dinode.
      * destruct Hty as [H1 H2 H3 H4 H5 H6 H7]. constructor; auto; unfold short, word; simpl; try lia. repeat constructor; lia.
      * change (bview s2 (home s ip)) with (bview s1 (home s ip)). rewrite Hl1. apply islot_bound.
    + intros x _ H1 H2. rewrite Vo by done. now apply V1.
  - simpl. rewrite T3'. apply list_insert_insert_eq.
  - exists (absorb (home s ip) bs1), Pn3. split; [pose proof (absorb_length (home s ip) bs1); lia|]. now apply htxn_itable.
Qed.

(** The last reference to a file without links frees it.  In a transaction
    with room, on a disk with one bitmap block, when the inode is valid, has
    no links and one reference, and nobody has it locked, [iput] gives back
    exactly the blocks of the file, marks the inode free on the disk and its
    entry in the table unused, and leaves its lock free; no block changes but
    the bitmap and the inode's block, and bitmap and transaction are as they
    should be. *)
Theorem iput_frees bs Pn s k ip :
  txn i n LS bs Pn s -> (length bs <= 26)%nat -> sb_size (sb s) <= BPB -> can_grow s -> itable s !! k = Some ip -> owns s ip ->
  dinode_typed (inode_of ip) -> length (bview s (home s ip)) = 1024%nat ->
  i_ref ip = 1 -> i_valid ip = true -> i_nlink ip = 0 -> sl_locked (getsl s (inode_lock k)) = false ->
  wp (iput k) (fun _ s' => reclaimed s ip s' /\ itable s' = <[k := gone ip]> (itable s) /\ getsl s' (inode_lock k) = Sleeplock false 0 /\
    exists bs' Pn', (length bs' <= length bs + 3)%nat /\ txn i n LS bs' Pn' s') s.
Proof.
  intros HT Hl Hone Hc Hip Ho Hty Hh Href Hval Hnl Hsl. pose proof (lookup_lt_Some _ _ _ Hip) as Hk.
  pose proof (ti_ready _ _ _ _ _ _ _ (tx_inv _ _ _ _ _ _ _ HT)) as Hr. pose proof Hr as (Hok & _ & Hfree & c & p & Hcu & Hci & Hp & Hpid).
  unfold iput. wsteps. apply wp_mk. apply (wp_acquire _ 3); [done|lia|apply Hfree|]. intros K1 HokK1 Ha. wsteps.
  apply (wp_getinode k ip); [done|]. rewrite Href, Hval, Hnl. simpl andb. cbv iota.
  destruct (acquired_cur _ _ _ _ Ha Hcu) as (c1 & Hc1 & E1 & _). wsteps. eapply wp_mono.
  { apply (acquiresleep_at 2 i p c1 (inode_lock k)); simpl; auto; [lia|rewrite (acquired_getlock _ _ _ _ Ha); [apply Hfree|discriminate]|congruence]. }
  intros [] s2 (K2 & HK2 & ->). simpl in HK2. wsteps. apply wp_mk. eapply (wp_release _ 3 (lks (km s)) K1); [done|lia|apply Hfree|done|exact HK2|]. intros K3 HK3.
  set (m3 := set_lks K3 (km s)). set (s3 := set_slocks (<[inode_lock k := Sleeplock true (pid p)]> (slocks s)) (set_km m3 s)).
  assert (calm (km s) m3) as Hm3 by (now apply calm_lks). pose proof (htxn_locks [] bs Pn s m3 k (Sleeplock true (pid p)) HT Hm3) as HT3. fold s3 in HT3.
  assert (same_fs s s3) as S3 by done. pose proof (owns_view s s3 ip eq_refl (fun _ => eq_refl) Ho) as Ho3.
  pose proof (reclaim_spec bs Pn s3 k ip HT3 ltac:(lia) Hone (same_can _ _ S3 Hc) Hip Ho3 Hty Hh) as HR. unfold reclaim in HR.
  change (wp (do! itrunc k; do! updinode k (set_i_type 0); do! iupdate k; do! updinode k (set_i_valid false); do! releasesleep (inode_lock k); mk (lk (acquire Litable)))
    (fun _ s' => wp (do! updinode k (fun x => set_i_ref (i32 (i_ref x - 1)) x); mk (lk (release Litable)))
      (fun _ s' => reclaimed s ip s' /\ itable s' = <[k := gone ip]> (itable s) /\ getsl s' (inode_lock k) = Sleeplock false 0 /\
         exists bs' Pn', (length bs' <= length bs + 3)%nat /\ txn i n LS bs' Pn' s') s') s3).
  wsteps. apply wp_bind_inv in HR. eapply wp_mono; [exact HR|]. clear HR. intros [] s4 HR. wsteps. apply wp_bind_inv in HR. eapply wp_mono; [exact HR|]. clear HR. intros [] s5 HR.
  wsteps. apply wp_bind_inv in HR. eapply wp_mono; [exact HR|]. clear HR. intros [] s6 HR. wsteps. eapply wp_mono; [exact HR|]. clear HR.
  intros [] s7 (R7 & T7 & bs7 & Pn7 & L7 & HT7). pose proof (ti_ready _ _ _ _ _ _ _ (tx_inv _ _ _ _ _ _ _ HT7)) as Hr7.
  wsteps. eapply wp_mono; [apply (releasesleep_spec i n), Hr7|]. intros [] s8 (m8 & Hm8 & ->). set (s8 := set_slocks _ _).
  pose proof (htxn_locks [] bs7 Pn7 s7 m8 k (Sleeplock false 0) HT7 Hm8) as HT8. fold s8 in HT8.
  pose proof (ti_ready _ _ _ _ _ _ _ (tx_inv _ _ _ _ _ _ _ HT8)) as (Hok8 & _ & Hfree8 & _). simpl in Hok8, Hfree8.
  apply wp_mk. apply (wp_acquire _ 3); [done|lia|apply Hfree8|]. intros K9 HokK9 Ha9. wsteps.
  apply (wp_updinode k _ (set_i_valid false (free_inode ip))); [simpl; rewrite T7; now apply list_lookup_insert_eq|]. cbv beta. simpl i_ref. rewrite Href. change (i32 (1 - 1)) with 0.
  wsteps. apply wp_mk. eapply (wp_release _ 3 (lks m8) K9); [done|lia|apply Hfree8|done|reflexivity|]. intros K10 HK10.
  split; [|split; [|split]].
  - apply (reclaimed_from s s3); [done|]. apply (reclaimed_to s3 ip s7); [exact R7|done].
  - simpl. rewrite T7, list_insert_insert_eq. done.
  - unfold getsl. simpl. now rewrite lookup_insert_eq.
  - exists bs7, Pn7. split; [done|]. apply (htxn_calm [] bs7 Pn7 (set_itable (<[k := gone ip]> (itable s8)) s8) (set_lks K10 m8)); [now apply htxn_itable|]. simpl. now apply calm_lks.
Qed.

(** Any other reference is only counted. *)
Theorem iput_drops bs Pn s k ip :
  txn i n LS bs Pn s -> itable s !! k = Some ip -> 1 <= i_ref ip < 2147483648 -> (i_ref ip <> 1 \/ i_valid ip = false \/ i_nlink ip <> 0) ->
  wp (iput k) (fun _ s' => txn i n LS bs Pn s' /\ exists m, calm (km s) m /\ s' = set_km m (set_itable (<[k := set_i_ref (i_ref ip - 1) ip]> (itable s)) s)) s.
Proof.
  intros HT Hip Href Hcase. pose proof (ti_ready _ _ _ _ _ _ _ (tx_inv _ _ _ _ _ _ _ HT)) as (Hok & _ & Hfree & _).
  unfold iput. wsteps. apply wp_mk. apply (wp_acquire _ 3); [done|lia|apply Hfree|]. intros K1 HokK1 Ha. wsteps. apply (wp_getinode k ip); [done|].
  assert ((i_ref ip =? 1) && i_valid ip && (i_nlink ip =? 0) = false) as ->.
  { destruct Hcase as [H|[H|H]]; [rewrite (proj2 (Z.eqb_neq _ _) H)|rewrite H|rewrite (proj2 (Z.eqb_neq _ _) H)]; rewrite ?andb_false_r; done. }
  wsteps. apply (wp_updinode k _ ip); [done|]. wsteps. apply wp_mk. eapply (wp_release _ 3 (lks (km s)) K1); [done|lia|apply Hfree|done|reflexivity|]. intros K2 HK2.
  rewrite i32_small by lia. assert (calm (km s) (set_lks K2 (km s))) as Hm by now apply calm_lks. split; [|eauto].
  apply (htxn_calm [] bs Pn (set_itable (<[k := set_i_ref (i_ref ip - 1) ip]> (itable s)) s)); [now apply htxn_itable|exact Hm].
Qed.
End Iput.
