(* ===== verification/Atomic.v ===== *)
(** * System calls on the file system as transactions

    A system call that changes the file system works between [begin_op] and
    [end_op] (kernel/log.c).  [op_atomic] composes the operations of the
    layers above, which are proved inside a transaction, with the log: when no
    other operation is under way, the call takes effect on the disk as a
    whole, also when the machine stops in the middle. *)

From S2P Require Import Prelude.
From S2P Require Import Mach.
From S2P Require Import Spinlock.
From S2P Require Import Kalloc.
From S2P Require Import Vm.
From S2P Require Import Proc.
From S2P Require Import Kstate.
From S2P Require Import Printk.
From S2P Require Import Sleeplock.
From S2P Require Import Bio.
From S2P Require Import Log.
From S2P Require Import Fs.
From S2P Require Import Fsread.
From S2P Require Import Dir.
From S2P Require Import Fswrite.
From S2P Require Import Fsalloc.
From S2P Require Import Fsmap.
From S2P Require Import Fsgrow.
From S2P Require Import Dirlink.

(** No operation is under way and the log, in memory and on disk, is empty. *)
Record idle (i : nat) (n L : Z) (s : kern) : Prop := {
  id_log : linv i n L [] [] [] s;
  id_out : l_outstanding (lg s) = 0;
  id_committing : l_committing (lg s) = false;
  id_ncommit : 0 <= l_ncommit (lg s);
  id_empty : empty_log L (dsk s);
  id_sb : sb_logstart (sb s) = L;
  id_range : 0 <= L /\ L + 31 < 2147483648;
}.

(** The steps of a call: [op] between [begin_op] and [end_op]. *)
Definition transaction {A : Type} `{Patience, DiskDriver} (op : M kern A) : M kern A :=
  do! begin_op; let! r := op in do! end_op; ret r.

(** All changes from [s] to [s'] are on the disk, outside the log; if the
    machine stops on the way, recovery finds all of them or none. *)
Record atomically `{Patience, DiskDriver} (L : Z) (s s' : kern) : Prop := {
  at_disk : forall x, x < L \/ L + 30 < x -> dread (dsk s') x = bview s' x;
  at_crash : exists ws c, wrote s ws s' /\ (ws = [] \/ (c < length ws)%nat) /\
    all_or_nothing L (dsk s) ws c (dread (dsk s)) (dread (dsk s'));
}.

(** ** What is outside the log

    A commit changes the blocks of the log; the file system does not look at
    them. *)
Section Outside.
Variables (s s' : kern).
Hypothesis Hok : bitmap_ok (bview s) (sb s).
Hypothesis Esb : sb s' = sb s.
Hypothesis V : forall x, off_log (sb s) x -> bview s' x = bview s x.

Lemma in_use_off b : 0 <= b < sb_size (sb s) -> in_use (bview s') (sb s') b = in_use (bview s) (sb s) b.
Proof. intros Hb. unfold in_use, bitmap_byte. rewrite Esb, V; [done|]. now apply Hok. Qed.
Lemma bitmap_off : bitmap_ok (bview s') (sb s').
Proof.
  pose proof in_use_off as Hu. destruct Hok as [B1 B2 B3 B4 B5 B6]. rewrite Esb in *. constructor; auto; intros b; [intros Hb; rewrite V; auto|intros b' Hb Hb'|intros Hb]; rewrite Hu; auto.
Qed.
Lemma data_off x : data_block s x -> data_block s' x.
Proof. intros (H1 & H2 & H3). unfold data_block. rewrite in_use_off, Esb by lia. done. Qed.
Lemma data_view x : data_block s x -> bview s' x = bview s x.
Proof. intros (_ & _ & H & _). now apply V. Qed.
Lemma can_grow_off : in_use (bview s) (sb s) 0 = true -> sb_size (sb s) <> 0 -> tx_idle s' -> can_grow s'.
Proof. intros H0 Hne Ht. pose proof (bm_size _ _ Hok). constructor; [apply bitmap_off|rewrite in_use_off by lia; done|done]. Qed.
Lemma disk_full_off : disk_full s -> disk_full s'.
Proof. intros H b. rewrite Esb. intros Hb. rewrite <- Esb, in_use_off by done. now apply H. Qed.
Lemma addr_off ip bn : index_ok s ip -> block_addr s' ip bn = block_addr s ip bn.
Proof.
  intros Hi. unfold block_addr. destruct (bn <? NDIRECT); [done|]. destruct Hi as [Hi|[Hi _]]; unfold ind_of in Hi; [now rewrite Hi|]. now rewrite data_view.
Qed.
Lemma owns_off ip : owns s ip -> owns s' ip.
Proof.
  intros [A1 A2 A3 A4 A5 A6 A7]. assert (forall b, block_addr s' ip b = block_addr s ip b) as EA by (intros; now apply addr_off).
  assert (home s' ip = home s ip) as Eh by (unfold home; now rewrite Esb). constructor; auto; rewrite ?Eh; auto using data_off.
  - destruct A3 as [?|[? ?]]; [now left|right]. split; [now apply data_off|now rewrite data_view].
  - intros bn Hbn. rewrite !EA. intros Hne. destruct (A4 bn Hbn Hne) as (B1 & B2). rewrite data_view by done. split; [now apply data_off|done].
  - intros a b Ha Hb. rewrite !EA. auto.
Qed.
Lemma filled_off ip z : owns s ip -> filled s ip z -> filled s' ip z.
Proof. intros Ho Hf o Hoo. rewrite addr_off by apply Ho. now apply Hf. Qed.
Lemma home_off ip : owns s ip -> home s' ip = home s ip /\ bview s' (home s ip) = bview s (home s ip).
Proof. intros Ho. split; [unfold home; now rewrite Esb|apply data_view, Ho]. Qed.
Lemma bytes_off ip o len : owns s ip -> filled s ip (i_size ip) -> 0 <= o -> o + len <= i_size ip <= MAXFILE * BSIZE -> bytes_at s' ip o len = bytes_at s ip o len.
Proof.
  intros Ho Hf Hoo Hl. unfold bytes_at. apply list_fmap_ext. intros j x Hj. apply lookup_seqZ in Hj as [-> Hj]. unfold fbyte. rewrite addr_off by apply Ho.
  rewrite data_view; [done|]. apply (ow_blocks _ _ Ho); [apply file_block_range; lia|apply Hf; lia].
Qed.
Lemma contents_off ip : owns s ip -> filled s ip (i_size ip) -> i_size ip <= MAXFILE * BSIZE -> contents s' ip = contents s ip.
Proof. intros Ho Hf Hl. apply bytes_off; auto with lia. Qed.
Lemma disk_inode_off ip : owns s ip -> disk_inode s' (i_inum ip) = disk_inode s (i_inum ip).
Proof. intros Ho. unfold disk_inode. rewrite Esb. f_equal. exact (proj2 (home_off ip Ho)). Qed.
Lemma dir_own_off ip : dir_own s ip -> dir_own s' ip.
Proof.
  intros [A1 A2 A3 A4 A5 A6 A7]. destruct (home_off ip A1) as [E1 E2]. constructor; auto; [now apply owns_off|now apply filled_off|]. now rewrite E1, E2.
Qed.
End Outside.

Section Op.
Context {LL : Layout} {P : Patience} {D : DiskDriver} {DO : DiskOk D}.
Variables (i : nat) (n L : Z).
Implicit Types (s : kern) (Pn : list nat) (bs : list Z).

(** The operation that starts in [s]. *)
Definition op_of s : oplog := Oplog L (dsk s) (1, false, l_ncommit (lg s)) (ftable s).

Lemma op_starts s m l : idle i n L s -> calm (km s) m -> l = set_l_outstanding 1 (lg s) -> txn i n (op_of s) [] [] (set_km m (set_lg l s)).
Proof.
  intros [A1 A2 A3 A4 A5 A6 A7] Hm ->. constructor; [|constructor|constructor|simpl; lia|].
  - apply tinv_linv. now apply linv_lg.
  - constructor; [done|done| |done]. unfold counters. simpl. now rewrite A3.
Qed.
Lemma all_or_nothing_ext d ws c old new new' : all_or_nothing L d ws c old new -> (forall x, x < L \/ L + 30 < x -> new' x = new x) -> all_or_nothing L d ws c old new'.
Proof.
  intros H E k d' i' n' s H1 H2 H3 H4. eapply wp_mono; [now apply (H k d' i' n' s)|]. intros [] s' Hs x Hx. rewrite Hs by done. destruct (decide _); [done|]. now rewrite E.
Qed.
Lemma txn_bs_ok s bs Pn s2 : idle i n L s -> txn i n (op_of s) bs Pn s2 -> (length bs <= 29)%nat -> bs_ok L bs.
Proof.
  intros Hid [_ Hnd Hr _ _] Hl. split; [done|]. split; [done|]. destruct (id_range _ _ _ _ Hid). split; [done|]. split; [done|].
  intros blk Hb. rewrite Forall_forall in Hr. exact (Hr blk Hb).
Qed.

Lemma op_atomic {A : Type} (op : M kern A) (Q : A -> kern -> Prop) s :
  idle i n L s -> l_ncommit (lg s) < 2147483647 ->
  (forall m l, txn i n (op_of s) [] [] (set_km m (set_lg l s)) ->
    wp op (fun r s2 => Q r s2 /\ exists bs Pn, (length bs <= 29)%nat /\ txn i n (op_of s) bs Pn s2) (set_km m (set_lg l s))) ->
  wp (transaction op) (fun r s' => idle i n L s' /\ atomically L s s' /\
    exists s2, Q r s2 /\ beside s2 s' /\ forall x, x < L \/ L + 30 < x -> bview s' x = bview s2 x) s.
Proof.
  intros Hid Hnc Hop. pose proof (id_log _ _ _ _ Hid) as HL. pose proof (id_out _ _ _ _ Hid) as Eo. pose proof (li_n _ _ _ _ _ _ _ HL) as En. simpl in En.
  unfold transaction. wsteps. eapply wp_mono.
  { apply (begin_op_enters i n s); [apply HL|split; lia|apply Hid|]. rewrite Eo, En. vm_compute. discriminate. }
  intros [] s1 (_ & m & Hm & ->). rewrite Eo. wsteps. eapply wp_mono; [apply Hop; now apply op_starts|].
  intros r s2 (HQ & bs & Pn & Hlen & HT). pose proof (tx_under _ _ _ _ _ _ _ HT) as [U1 U2 U3 _]. injection U3 as C1 C2 C3. simpl in U1, U2.
  pose proof (id_ncommit _ _ _ _ Hid). wsteps. eapply wp_mono.
  { apply (end_op_spec i n L bs Pn s2); [apply tinv_linv, HT|now apply (txn_bs_ok s bs Pn s2)|done|lia|lia]. }
  intros [] s' He. rewrite C1, decide_True in He by done. destruct He as (HL' & Ec & [B1 B2 B3]). injection Ec as E1 E2 E3.
  rewrite U2 in B3. destruct (B3 (id_empty _ _ _ _ Hid)) as (He' & ws & c & Hw & Hc & Ha).
  assert (forall x, x < L \/ L + 30 < x -> dread (dsk s') x = bview s2 x) as V by exact B2.
  wsteps. split; [|split].
  - constructor; auto; [lia| |apply Hid]. destruct B1 as (_ & _ & E & _). simpl in E. now rewrite E.
  - constructor; [intros x Hx; symmetry; now apply (idle_view i n L)|]. exists ws, c. split; [unfold wrote in *; now rewrite U2 in Hw|]. split; [done|].
    eapply all_or_nothing_ext; [exact Ha|exact V].
  - exists s2. split; [done|]. split; [done|]. intros x Hx. rewrite (idle_view i n L s' HL'). now apply V.
Qed.

(** A call without a result. *)
Lemma op_unit (op : M kern unit) (Q : unit -> kern -> Prop) s : wp (transaction op) Q s -> wp (do! begin_op; do! op; end_op) Q s.
Proof.
  intros H. apply wp_bind. apply wp_bind_inv in H. eapply wp_mono; [exact H|]. clear H. intros [] s1 H. apply wp_bind. apply wp_bind_inv in H.
  eapply wp_mono; [exact H|]. clear H. intros [] s2 H. apply wp_bind_inv in H. eapply wp_mono; [exact H|]. intros [] s3 H3. exact H3.
Qed.

(** The start of an operation changes nothing of the file system. *)
Lemma begun_same s m l (s1 := set_km m (set_lg l s)) : can_grow s -> can_grow s1 /\ (forall ip, owns s ip -> owns s1 ip) /\
  (forall ip z, owns s ip -> filled s ip z -> filled s1 ip z) /\ (forall ip, dir_own s ip -> dir_own s1 ip) /\ (forall ip x, owns s ip -> foreign s ip x -> foreign s1 ip x).
Proof.
  intros Hc. pose proof (cg_bitmap _ Hc) as Hok. assert (sb s1 = sb s) as E by done. assert (forall x, off_log (sb s) x -> bview s1 x = bview s x) as V by done.
  split; [destruct Hc; now constructor|]. split; [intros; now apply (owns_off s)|]. split; [intros; now apply (filled_off s)|]. split; [intros; now apply (dir_own_off s)|].
  intros ip x Ho (F1 & F2 & F3). split; [now apply (data_off s)|]. split; [done|]. intros bn Hbn. rewrite (addr_off s); auto. apply Ho.
Qed.
Lemma commit_same s s2 s' : idle i n L s -> sb s2 = sb s -> can_grow s2 -> beside s2 s' -> (forall x, x < L \/ L + 30 < x -> bview s' x = bview s2 x) -> sb_size (sb s) <> 0 ->
  sb s' = sb s2 /\ itable s' = itable s2 /\ can_grow s' /\ forall x, off_log (sb s2) x -> bview s' x = bview s2 x.
Proof.
  intros Hid E2 Hc HB HV Hsz. assert (forall x, off_log (sb s2) x -> bview s' x = bview s2 x) as V.
  { intros x Hx. apply HV. unfold off_log in Hx. rewrite E2, (id_sb _ _ _ _ Hid) in Hx. exact Hx. }
  pose proof (beside_tx_idle _ _ (cg_idle _ Hc) HB) as Ht. destruct HB as (_ & _ & Esb & Et & _). split; [done|]. split; [done|]. split; [|done].
  apply (can_grow_off s2); auto; [apply Hc|apply Hc|congruence].
Qed.

(** C2: a file write is atomic.  With no other operation under way, a write of
    [data] from a kernel buffer at [off], at most at the end of a file that
    owns its blocks and has no holes, between [begin_op] and [end_op]: it
    writes a prefix of the data, all of it unless the disk is full, and the
    file holds it; the disk then has the new file data, inode, indirect block
    and bitmap, and the log is empty.  If the machine stops after any of the
    disk writes, and during any number of recoveries, the first recovery that
    completes finds every block of the disk as it was before the call or
    every block as it is after it. *)
Theorem write_atomic s k ip data off :
  let cnt := Z.of_nat (length data) in
  idle i n L s -> l_ncommit (lg s) < 2147483647 -> can_grow s -> itable s !! k = Some ip -> owns s ip -> filled s ip (i_size ip) -> dinode_typed (inode_of ip) ->
  0 <= off <= i_size ip -> i_size ip <= MAXFILE * BSIZE -> off + cnt <= MAXFILE * BSIZE ->
  6 * blocks_left off (off + cnt) <= 28 -> length (bview s (home s ip)) = 1024%nat ->
  wp (transaction (writei k (Local data) off cnt)) (fun r s' => idle i n L s' /\ atomically L s s' /\ exists ip',
    0 <= r <= cnt /\ (r < cnt -> disk_full s') /\ itable s' = <[k := ip']> (itable s) /\ i_size ip' = Z.max (i_size ip) (off + r) /\
    contents s' ip' = overwrite off (take (Z.to_nat r) data) (contents s ip) /\ disk_inode s' (i_inum ip) = inode_of ip' /\
    owns s' ip' /\ filled s' ip' (i_size ip') /\ can_grow s' /\
    forall x, foreign s ip x -> x <> home s ip -> bview s' x = bview s x) s.
Proof.
  intros cnt Hid Hnc Hc Hip Ho Hfl Hty Hoff Hsz Hmax Hroom Hhome. eapply wp_mono.
  { apply (op_atomic _ (fun r s2 => exists ip', 0 <= r <= cnt /\ (r < cnt -> disk_full s2) /\ itable s2 = <[k := ip']> (itable s) /\
      (exists l, ip' = set_i_size (Z.max (i_size ip) (off + r)) (set_i_addrs l ip)) /\
      contents s2 ip' = overwrite off (take (Z.to_nat r) data) (contents s ip) /\ disk_inode s2 (i_inum ip) = inode_of ip' /\
      owns s2 ip' /\ filled s2 ip' (i_size ip') /\ can_grow s2 /\ sb s2 = sb s /\
      forall x, foreign s ip x -> x <> home s ip -> bview s2 x = bview s x) s Hid Hnc).
    intros m l HT. destruct (begun_same s m l Hc) as (B1 & B2 & B3 & _ & B5). eapply wp_mono.
    { apply (writei_grow_spec i n (op_of s) [] [] _ k ip data off); auto; simpl length; fold cnt; lia. }
    cbv beta. fold cnt. intros r s2 (ip' & bs' & Pn' & H1 & H2 & H3 & H4 & H5 & H6 & _ & _ & H7 & H8 & H9 & H10 & H11 & H12 & H13). simpl length in H11.
    split; [|exists bs', Pn'; split; [lia|done]]. exists ip'. do 10 (split; [done|]). intros x Hx Hh. apply (H13 x); [now apply B5|done]. }
  cbv beta. intros r s' (Hid' & Hat & s2 & (ip' & H1 & H2 & H3 & (l & H4) & H5 & H6 & H7 & H8 & H9 & H10 & H11) & HB & HV).
  destruct (commit_same s s2 s' Hid H10 H9 HB HV) as (E1 & E2 & E3 & V); [destruct (ow_home _ _ Ho); lia|]. pose proof (cg_bitmap _ H9) as Hok.
  split; [done|]. split; [done|]. exists ip'. split; [done|]. split; [intros Hr; apply (disk_full_off s2); auto|]. split; [congruence|]. split; [now rewrite H4|].
  assert (i_size ip' <= MAXFILE * BSIZE) as Hsz' by (rewrite H4; simpl; lia). assert (i_inum ip' = i_inum ip) as Ei by now rewrite H4.
  split; [now rewrite (contents_off s2)|]. split; [rewrite <- Ei, (disk_inode_off s2), Ei by done; done|].
  split; [now apply (owns_off s2)|]. split; [now apply (filled_off s2)|]. split; [done|].
  intros x Hx Hh. rewrite V; [now apply H11|]. destruct Hx as ((_ & _ & Hx & _) & _). now rewrite H10.
Qed.

End Op.
