(* ===== verification/Fsex.v ===== *)
(** * A small concrete directory

    One block with two directory entries, the first unused; the theorems of
    [Fsread], [Dir] and [Fswrite] are applied to it. *)

From S2P Require Import Prelude.
From S2P Require Import Mach.
From S2P Require Import Spinlock.
From S2P Require Import Kalloc.
From S2P Require Import Vm.
From S2P Require Import Proc.
From S2P Require Import Kstate.
From S2P Require Import Printk.
From S2P Require Import Sleeplock.
From S2P Require Import Bio.
From S2P Require Import Log.
From S2P Require Import Logex.
From S2P Require Import Fs.
From S2P Require Import Fsread.
From S2P Require Import Dir.
From S2P Require Import Fswrite.

#[local] Existing Instance Kalloc.Example.layout0.

Definition dirblock : list Z :=
  put_dirent (Dirent 0 (strncpy_l 14 (str "gone"))) ++ put_dirent (Dirent 5 (strncpy_l 14 (str "a"))) ++ replicate 992 0.
Definition disk2 : disk := Disk {[ 100 := dirblock ]} [].
Definition root : inode := Inode ROOTDEV 1 1 true T_DIR 0 0 1 32 (100 :: replicate 12 0).
Definition no_inode : inode := Inode 0 0 0 false 0 0 0 0 0 (replicate 13 0).
Definition table2 : list inode := root :: replicate 49 no_inode.

(** Nothing cached; [out] operations under way. *)
Definition kern2 (out : Z) : kern :=
  Kern Example.machine ∅ (replicate 30 no_buf) (seq 0 30) disk2 (log1 0 out (replicate 30 0)) sb1 table2 []
    ∅ cons1 uart1 (replicate 10 false) false.

Lemma bufs2 out k b : bufs (kern2 out) !! k = Some b -> b = no_buf.
Proof. intros H. change (replicate 30 no_buf !! k = Some b) in H. now apply lookup_replicate in H as [-> _]. Qed.
Lemma binv2 out : binv 1 [] [] (kern2 out).
Proof.
  constructor; try done; try (intros k b Hb; apply bufs2 in Hb as ->; done).
  - constructor.
  - constructor.
  - intros k b _ [Hk|Hk]; now apply not_elem_of_nil in Hk.
  - intros k [Hk|Hk]; now apply not_elem_of_nil in Hk.
  - intros k j bk bj Hk Hj. apply bufs2 in Hk as ->. intros E. discriminate E.
Qed.
Lemma calmly2 out : calmly 0 1 [] (kern2 out).
Proof. split; [apply ready1|]. split; [apply binv2|]. simpl. lia. Qed.

Lemma block0 out bn : 0 <= bn -> bn * BSIZE < 32 -> bn = 0 /\ block_addr (kern2 out) root bn = 100.
Proof. intros H1 H2. assert (bn = 0) as -> by lia. done. Qed.
Lemma root_file out : file_ok (kern2 out) root.
Proof.
  constructor; [done|done|split; [discriminate|vm_compute; discriminate]|].
  intros bn H1 H2. destruct (block0 out bn H1 H2) as [-> ->]. split; [discriminate|]. vm_compute. reflexivity.
Qed.

Lemma readi_refines_witness :
  wp (readi 0 (Local []) 16 100) (fun r _ => r = (16, put_dirent (Dirent 5 (strncpy_l 14 (str "a"))))) (kern2 0).
Proof.
  eapply wp_mono; [apply (readi_refines 0 1 [] (kern2 0) 0 root [] 16 100);
    [apply calmly2|reflexivity|apply root_file|lia|lia]|].
  intros [x l] s' (_ & H1 & H2). simpl fst in H2. simpl snd in *. rewrite H2, H1. vm_compute. reflexivity.
Defined.

Lemma table_lookup k ip : table2 !! k = Some ip -> (k = 0%nat /\ ip = root) \/ ip = no_inode.
Proof.
  destruct k as [|k]; [intros [= <-]; now left|]. intros H. change (replicate 49 no_inode !! k = Some ip) in H.
  apply lookup_replicate in H as [-> _]. now right.
Qed.
Lemma table_inv : iinv table2.
Proof.
  constructor; [done|..].
  - intros k ip Hk. apply table_lookup in Hk as [[_ ->]| ->]; simpl; lia.
  - intros j k x y dev inum Hj Hk (X & _) (Y & _).
    apply table_lookup in Hj as [[-> ->]| ->]; [|simpl in X; lia]. apply table_lookup in Hk as [[-> _]| ->]; [done|simpl in Y; lia].
Qed.
Lemma table_ok dev inum : iget_ok dev inum table2.
Proof.
  split.
  - apply Exists_exists. exists no_inode. split; [|now right]. unfold table2. right. apply elem_of_replicate. split; [done|lia].
  - apply Forall_lookup. intros k ip Hk _. apply table_lookup in Hk as [[_ ->]| ->]; simpl; lia.
Qed.

Lemma iget_correct_witness :
  wp (iget ROOTDEV 1) (fun k s' => k = 0%nat /\ itable s' = set_i_ref 2 root :: replicate 49 no_inode) (kern2 0).
Proof.
  eapply wp_mono; [apply (iget_correct 0 1 ROOTDEV 1 (kern2 0)); [apply ready1|apply table_inv|apply table_ok]|].
  intros k s' ((ip & ip' & Hk & E & Hc) & _). change (itable (kern2 0)) with table2 in *. destruct Hc as [[He ->]|(Hn & _)].
  - apply table_lookup in Hk as [[-> ->]| ->]; [now rewrite E|]. destruct He as [He _]. simpl in He. lia.
  - exfalso. apply Forall_cons in Hn as [Hn _]. apply Hn. done.
Defined.

Lemma dirlookup_spec_witness :
  wp (dirlookup 0 (str "a")) (fun r _ => exists k, r = Some (k, 16)) (kern2 0) /\
  wp (dirlookup 0 (str "gone")) (fun r _ => r = None) (kern2 0).
Proof.
  assert (dir_ok (kern2 0) root) as Hd by (constructor; [apply root_file|done|done]). split.
  - eapply wp_mono; [apply (dirlookup_spec 0 1 [] (kern2 0) 0 root (str "a"));
      [apply calmly2|reflexivity|done|apply table_inv|intros; apply table_ok]|].
    intros r s'. replace (list_find (named (str "a")) (entries (kern2 0) root))
      with (Some (1%nat, Dirent 5 (strncpy_l 14 (str "a")))) by (vm_compute; reflexivity).
    intros (k & _ & _ & _ & -> & _). exists k. reflexivity.
  - eapply wp_mono; [apply (dirlookup_spec 0 1 [] (kern2 0) 0 root (str "gone"));
      [apply calmly2|reflexivity|done|apply table_inv|intros; apply table_ok]|].
    intros r s'. replace (list_find (named (str "gone")) (entries (kern2 0) root)) with (@None (nat * dirent)) by (vm_compute; reflexivity).
    intros [-> _]. reflexivity.
Defined.

Lemma namex_terminates_witness :
  elems (str "//usr///bin/cat") = [str "usr"; str "bin"; str "cat"] /\
  skipelem (str "//usr///bin/cat") (replicate 14 0) = Some (str "bin/cat", str "usr" ++ replicate 11 0) /\
  namex_loop 15 0 (str "//usr///bin/cat") false [] =
  namex_loop 3 0 (str "//usr///bin/cat") false [].
Proof.
  split; [reflexivity|]. split; [reflexivity|].
  apply (proj1 (namex_terminates (str "//usr///bin/cat"))). vm_compute. lia.
Defined.

Definition op2 : oplog := Oplog 2 (dsk (kern2 1)) (counters (lg (kern2 1))) [].
Lemma txn2 : txn 0 1 op2 [] [] (kern2 1).
Proof.
  constructor; [|constructor|constructor|simpl; lia|now constructor]. constructor; try done; [apply binv2|apply ready1].
Qed.
Lemma root_typed : dinode_typed (inode_of root).
Proof.
  constructor; unfold short, word; simpl; try lia; try done. repeat constructor; lia.
Qed.
Lemma iblock_root : IBLOCK 1 sb1 = 33.
Proof. reflexivity. Qed.

(** The junk in the entry while it is not valid is another inode's data. *)
Lemma iupdate_ilock_witness :
  wp (do! iupdate 0; do! updinode 0 (fun x => set_i_valid false (load_inode (inode_of no_inode) x)); ilock 0)
    (fun _ s' => itable s' = table2 /\ disk_inode s' 1 = inode_of root) (kern2 1).
Proof.
  eapply wp_mono; [apply (iupdate_ilock 0 1 op2 [] [] (kern2 1) 0 root (inode_of no_inode));
    [apply txn2|simpl; lia|reflexivity|reflexivity|simpl; lia|simpl; lia|simpl; lia|split; simpl; rewrite iblock_root; lia|apply root_typed|discriminate|vm_compute; reflexivity|reflexivity]|].
  intros [] s' (H1 & _ & H2). split; [rewrite H1; reflexivity|]. rewrite H2 by lia. reflexivity.
Defined.

Lemma root_blocks : file_blocks (kern2 1) root 32.
Proof.
  constructor; [done|done|vm_compute; discriminate|..].
  - intros bn H1 H2. destruct (block0 1 bn H1 H2) as [-> ->]. unfold blockno_ok.
    split; [discriminate|]. split; [simpl; lia|]. split; [vm_compute; reflexivity|]. split; discriminate.
  - intros a b H1 H2 H3 H4 _. destruct (block0 1 a H1 H3), (block0 1 b H2 H4). congruence.
Qed.

Lemma writei_correct_witness :
  wp (writei 0 (Local [9; 8; 7]) 18 3) (fun r s' => r = 3 /\ exists ip',
    take 24 (contents s' ip') = put_dirent (Dirent 0 (strncpy_l 14 (str "gone"))) ++ [5; 0; 9; 8; 7; 0; 0; 0]) (kern2 1).
Proof.
  eapply wp_mono; [apply (writei_correct 0 1 op2 [] [] (kern2 1) 0 root [9; 8; 7] 18 32);
    [apply txn2|reflexivity|apply root_blocks|apply root_typed|simpl; lia|simpl; lia|simpl; lia|vm_compute; discriminate|simpl; lia
    |unfold blockno_ok; simpl; rewrite iblock_root; lia|vm_compute; reflexivity|simpl; discriminate]|].
  intros r s' (H1 & (ip' & _ & H2 & _) & _). split; [exact H1|]. exists ip'. rewrite H2. vm_compute. reflexivity.
Defined.
