(* ===== verification/Growex.v ===== *)
(** * A small concrete disk with a bitmap

    The directory of [Fsex.v] on a disk whose blocks up to 100 are in use;
    the theorems of [Fsalloc], [Fsgrow], [Dirlink] and [Atomic] are applied to
    it. *)

From S2P Require Import Prelude.
From S2P Require Import Kstring.
From S2P Require Import Mach.
From S2P Require Import Spinlock.
From S2P Require Import Kalloc.
From S2P Require Import Vm.
From S2P Require Import Proc.
From S2P Require Import Kstate.
From S2P Require Import Printk.
From S2P Require Import Sleeplock.
From S2P Require Import Bio.
From S2P Require Import Log.
From S2P Require Import Logex.
From S2P Require Import Fs.
From S2P Require Import Fsread.
From S2P Require Import Dir.
From S2P Require Import Fswrite.
From S2P Require Import Fsalloc.
From S2P Require Import Fsmap.
From S2P Require Import Ialloc.
From S2P Require Import Fsgrow.
From S2P Require Import Itrunc.
From S2P Require Import Dirlink.
From S2P Require Import Atomic.
From S2P Require Import Fsex.

#[local] Existing Instance Kalloc.Example.layout0.

Definition bitmap3 : list Z := replicate 12 255 ++ [31] ++ replicate 1011 0.
Definition disk3 : disk := Disk {[ 46 := bitmap3; 100 := dirblock ]} [].
(** One operation under way, nothing cached. *)
Definition kern3 : kern :=
  Kern Example.machine ∅ (replicate 30 no_buf) (seq 0 30) disk3 (log1 0 1 (replicate 30 0)) sb1 table2 []
    ∅ cons1 uart1 (replicate 10 false) false.

Lemma bufs3 k b : bufs kern3 !! k = Some b -> b = no_buf.
Proof. apply (bufs2 1). Qed.
Lemma binv3 : binv 1 [] [] kern3.
Proof.
  destruct (binv2 1) as [A1 A2 A3 A4 A5 A6 A7 A8 A9 A10 A11]. constructor; auto.
  intros k b Hb. apply bufs3 in Hb as ->. done.
Qed.
Definition op3 : oplog := Oplog 2 disk3 (counters (lg kern3)) [].
Lemma txn3 : txn 0 1 op3 [] [] kern3.
Proof. constructor; [|constructor|constructor|simpl; lia|now constructor]. constructor; try done; [apply binv3|apply ready1]. Qed.

Lemma bblock3 b : 0 <= b < 2000 -> BBLOCK b sb1 = 46.
Proof. intros Hb. unfold BBLOCK. rewrite Z.div_small by (change BPB with 8192; lia). reflexivity. Qed.
Lemma low_used b : 0 <= b <= 100 -> in_use (bview kern3) sb1 b = true.
Proof.
  intros Hb. assert (forallb (in_use (bview kern3) sb1) (seqZ 0 101) = true) as H by (vm_compute; reflexivity).
  rewrite forallb_forall in H. apply H. apply list_elem_of_In, elem_of_seqZ. lia.
Qed.
Lemma free_101 : in_use (bview kern3) sb1 101 = false.
Proof. vm_compute. reflexivity. Qed.
Lemma bitmap_ok3 : bitmap_ok (bview kern3) (sb kern3).
Proof.
  constructor; [simpl; lia|simpl; lia| | | |].
  - intros b Hb. change (sb kern3) with sb1 in *. rewrite bblock3 by (simpl in Hb; lia). vm_compute. reflexivity.
  - intros b b' Hb Hb' Hu E. change (sb kern3) with sb1 in *. rewrite bblock3 in E by (simpl in Hb'; lia). rewrite <- E, low_used in Hu by lia. discriminate Hu.
  - intros b Hb. change (sb kern3) with sb1 in *. rewrite bblock3 by (simpl in Hb; lia). right. reflexivity.
  - intros b Hb Hu. change (sb kern3) with sb1 in *. right. destruct (Z_lt_ge_dec 32 b); [simpl; lia|]. rewrite low_used in Hu by lia. discriminate Hu.
Qed.
Lemma can_grow3 : can_grow kern3.
Proof. constructor; [apply bitmap_ok3|now apply low_used|reflexivity]. Qed.
Lemma used3 b : 0 <= b <= 100 -> b ∈ used kern3.
Proof. intros Hb. apply elem_of_used. split; [simpl; lia|now apply low_used]. Qed.
Lemma unused3 : 101 ∉ used kern3.
Proof. rewrite elem_of_used. intros [_ H]. change (sb kern3) with sb1 in H. rewrite free_101 in H. discriminate H. Qed.

Lemma balloc_correct_witness :
  wp (balloc ROOTDEV) (fun r s' => r = 101 /\ used s' = {[101]} ∪ used kern3 /\ bview s' 101 = replicate 1024 0) kern3.
Proof.
  eapply wp_mono; [apply (balloc_correct 0 1 op3 [] [] kern3); [apply txn3|simpl; lia|apply bitmap_ok3|reflexivity]|].
  intros r s' (_ & _ & _ & [(Hr & Hf & Hlow & Hu & Hz & _)|(_ & Hall & _)]).
  - assert (r = 101) as ->; [|exact (conj eq_refl (conj Hu Hz))]. destruct (Z.lt_trichotomy r 101) as [H|[H|H]]; [|exact H|].
    + exfalso. apply Hf, used3. lia.
    + exfalso. apply unused3, Hlow. lia.
  - exfalso. apply unused3, Hall. simpl. lia.
Defined.

Lemma bfree_correct_witness :
  wp (bfree ROOTDEV 100) (fun _ s' => used s' = used kern3 ∖ {[100]} /\ bview s' 100 = dirblock) kern3.
Proof.
  eapply wp_mono; [apply (bfree_correct 0 1 op3 [] [] kern3 100); [apply txn3|simpl; lia|apply bitmap_ok3|now apply used3]|].
  intros [] s' (_ & H1 & H2 & _). split; [exact H1|]. rewrite H2; [vm_compute; reflexivity|]. discriminate.
Defined.

Lemma bfree_panics_witness : bfree ROOTDEV 101 kern3 = Panic "freeing free block".
Proof. apply (bfree_panics 0 1 op3 [] [] kern3 101); [apply txn3|simpl; lia|apply bitmap_ok3|simpl; lia|apply unused3]. Defined.

(** ** The directory *)

Lemma data3 x : 32 < x <= 100 -> x <> 46 -> data_block kern3 x.
Proof.
  intros Hx Hne. split; [simpl; lia|]. split; [apply low_used; lia|]. split; [right; simpl; lia|]. intros b Hb E. apply Hne. rewrite <- E. apply bblock3. exact Hb.
Qed.
Lemma addr3 bn : 0 <= bn < MAXFILE -> block_addr kern3 root bn = if decide (bn = 0) then 100 else 0.
Proof.
  intros Hbn. unfold block_addr. destruct (decide (bn = 0)) as [->|Hne]; [reflexivity|]. destruct (Z.ltb_spec bn NDIRECT); [|reflexivity].
  assert (Z.to_nat bn = S (Z.to_nat (bn - 1))) as -> by lia. change (default 0 (replicate 12 0 !! Z.to_nat (bn - 1)) = 0).
  destruct (replicate 12 0 !! Z.to_nat (bn - 1)) eqn:E; [|reflexivity]. apply lookup_replicate in E as [-> _]. reflexivity.
Qed.
Lemma owns3 : owns kern3 root.
Proof.
  assert (forall bn, 0 <= bn < MAXFILE -> block_addr kern3 root bn <> 0 -> bn = 0 /\ block_addr kern3 root bn = 100) as H.
  { intros bn Hbn. rewrite (addr3 bn Hbn). destruct (decide (bn = 0)); [auto|]. intros H. now destruct H. }
  constructor; [reflexivity|reflexivity|now left| | |apply data3; [unfold home; simpl i_inum; change (sb kern3) with sb1; rewrite iblock_root; lia|discriminate]|discriminate].
  - intros bn Hbn Hne. destruct (H bn Hbn Hne) as [-> ->]. split; [apply data3; [lia|discriminate]|]. split; [vm_compute; reflexivity|]. split; discriminate.
  - intros a b Ha Hb Hne E. destruct (H a Ha Hne) as [-> Ea]. destruct (H b Hb ltac:(congruence)) as [-> _]. reflexivity.
Qed.
Lemma filled3 : filled kern3 root 32.
Proof. intros o Ho. rewrite (Z.div_small o BSIZE) by (change BSIZE with 1024; lia). discriminate. Qed.
Lemma dir_own3 : dir_own kern3 root.
Proof.
  constructor; [apply owns3|apply filled3|reflexivity|reflexivity|split; [discriminate|vm_compute; discriminate]|apply root_typed|vm_compute; reflexivity].
Qed.
Lemma entries3 : entries kern3 root = [Dirent 0 (strncpy_l 14 (str "gone")); Dirent 5 (strncpy_l 14 (str "a"))].
Proof. vm_compute. reflexivity. Qed.

(** A thousand bytes at the end need a second block. *)
Lemma writei_grows_witness :
  wp (writei 0 (Local (replicate 1000 7)) 32 1000) (fun r s' => exists ip', 0 <= r <= 1000 /\ (r < 1000 -> disk_full s') /\
    contents s' ip' = overwrite 32 (take (Z.to_nat r) (replicate 1000 7)) (take 32 dirblock)) kern3.
Proof.
  assert (length (replicate 1000 7) = 1000%nat) as El by reflexivity.
  assert (contents kern3 root = take 32 dirblock) as Ec by (vm_compute; reflexivity).
  eapply wp_mono; [apply (writei_grows 0 1 op3 [] [] kern3 0 root (replicate 1000 7) 32);
    [apply txn3|apply can_grow3|reflexivity|apply owns3|apply filled3|apply root_typed|simpl; lia|vm_compute; discriminate..|apply (dw_home _ _ dir_own3)]|].
  intros r s' (ip' & bs' & Pn' & H1 & H2 & _ & _ & H3 & _). rewrite El in H1, H2. rewrite Ec in H3. exists ip'. exact (conj H1 (conj H2 H3)).
Defined.

Lemma dirlink_adds_witness :
  wp (dirlink 0 (str "b") 7) (fun r s' => exists ip', (r = 0 /\ entries s' ip' = [Dirent 7 (strncpy_l 14 (str "b")); Dirent 5 (strncpy_l 14 (str "a"))]) \/ (r = -1 /\ disk_full s')) kern3.
Proof.
  eapply wp_mono; [apply (dirlink_adds 0 1 op3 [] [] kern3 0 root (str "b") 7);
    [apply txn3|simpl; lia|apply can_grow3|reflexivity|apply dir_own3|vm_compute; discriminate|apply table_inv|intros; apply table_ok|vm_compute; reflexivity]|].
  intros r s' (ip' & bs' & Pn' & _ & _ & _ & _ & _ & _ & _ & _ & _ & [(-> & _ & He)|H]); exists ip'; [left|right; exact H].
  split; [reflexivity|]. rewrite He, entries3. vm_compute. reflexivity.
Defined.

Lemma dirlink_dirlookup_witness :
  wp (let! e := dirlink 0 (str "b") 7 in if e =? 0 then dirlookup 0 (str "b") else ret None) (fun r s' =>
    disk_full s' \/ exists k ip', r = Some (k, 0) /\ itable s' !! k = Some ip' /\ entry_for ROOTDEV 7 ip') kern3.
Proof.
  assert (16 * Z.of_nat (slot (entries kern3 root)) = 0) as Es by (vm_compute; reflexivity).
  eapply wp_mono; [apply (dirlink_dirlookup 0 1 op3 [] [] kern3 0 root (str "b") 7);
    [apply txn3|simpl; lia|apply can_grow3|reflexivity|apply dir_own3|vm_compute; discriminate|apply table_inv|intros; apply table_ok|vm_compute; reflexivity|lia|apply table_ok]|].
  intros r s' [H|(k & ip' & Hr & H)]; [left; exact H|right]. rewrite Es in Hr. exists k, ip'. exact (conj Hr H).
Defined.

(** On this disk no inode is in use yet. *)
Lemma inodes3 : inodes_ok kern3.
Proof.
  assert (forallb (fun j => (length (bview kern3 (IBLOCK j sb1)) =? 1024)%nat && (32 <? IBLOCK j sb1)) (seqZ 1 199) = true) as H by (vm_compute; reflexivity).
  rewrite forallb_forall in H. assert (forall inum, 1 <= inum < 200 -> length (bview kern3 (IBLOCK inum sb1)) = 1024%nat /\ 32 < IBLOCK inum sb1) as H'.
  { intros inum Hi. rewrite <- Nat.eqb_eq, <- Z.ltb_lt, <- andb_true_iff. apply H, list_elem_of_In, elem_of_seqZ. lia. }
  constructor; [simpl; lia|simpl; lia| |]; intros inum Hi; destruct (H' inum Hi); [done|now right].
Qed.
Lemma ialloc_correct_witness :
  wp (ialloc ROOTDEV T_FILE) (fun r s' => exists k, r = Some k /\ disk_inode s' 1 = new_dinode T_FILE /\ disk_inode s' 2 = disk_inode kern3 2) kern3.
Proof.
  assert (d_type (disk_inode kern3 1) = 0) as E1 by (vm_compute; reflexivity).
  eapply wp_mono; [apply (ialloc_correct 0 1 op3 [] [] kern3 T_FILE);
    [apply txn3|simpl; lia|apply inodes3|unfold short; change T_FILE with 2; lia|apply table_inv|intros; apply table_ok|reflexivity]|].
  intros [k|] s'; [|intros [H _]; exfalso; apply (H 1); [simpl; lia|exact E1]]. intros (inum & H1 & _ & H2 & H3 & _). exists k. split; [reflexivity|].
  assert (inum = 1) as ->. { destruct (Z.lt_trichotomy inum 1) as [H|[H|H]]; [lia|exact H|]. exfalso. apply (H2 1); [lia|exact E1]. }
  split; [rewrite H3 by lia; reflexivity|rewrite H3 by lia; reflexivity].
Defined.

Lemma itrunc_frees_witness :
  wp (itrunc 0) (fun _ s => ~ 100 ∈ used s /\ 99 ∈ used s /\ itable s !! 0%nat = Some (empty_inode root)) kern3.
Proof.
  eapply wp_mono; [apply (itrunc_frees 0 1 op3 kern3 [] ltac:(vm_compute; discriminate) ltac:(simpl; lia) can_grow3 0 root eq_refl owns3 []);
    [apply txn3|apply root_typed|apply (dw_home _ _ dir_own3)]|].
  intros [] s (Hu & Ht & _). split; [|split].
  - rewrite Hu. intros [_ H]. apply H. left. split; [discriminate|]. exists 0. split; [split; reflexivity || discriminate|reflexivity].
  - apply Hu. split; [now apply used3|]. intros [(_ & b & Hb & E)|[_ E]]; [|discriminate E]. rewrite (addr3 b Hb) in E. destruct (decide (b = 0)); discriminate E.
  - rewrite Ht. reflexivity.
Defined.

(** ** Whole calls *)

(** The same disk with no operation under way. *)
Definition kern4 : kern := set_km (km kern3) (set_lg (log1 0 0 (replicate 30 0)) kern3).
Lemma idle4 : idle 0 1 2 kern4.
Proof.
  constructor; [|reflexivity|reflexivity|simpl; lia|split; vm_compute; reflexivity|reflexivity|lia].
  apply linv_lg; [apply tinv_linv, txn3|reflexivity|reflexivity..].
Qed.
Lemma same4 : can_grow kern4 /\ owns kern4 root /\ filled kern4 root (i_size root) /\ dir_own kern4 root.
Proof.
  destruct (begun_same kern3 (km kern3) (log1 0 0 (replicate 30 0)) can_grow3) as (B1 & B2 & B3 & B4 & _).
  split; [exact B1|]. split; [apply B2, owns3|]. split; [apply B3; [apply owns3|apply filled3]|apply B4, dir_own3].
Qed.

Lemma write_atomic_witness :
  wp (transaction (writei 0 (Local (replicate 1000 7)) 32 1000)) (fun r s' => atomically 2 kern4 s' /\ exists ip', (r < 1000 -> disk_full s') /\
    contents s' ip' = overwrite 32 (take (Z.to_nat r) (replicate 1000 7)) (take 32 dirblock)) kern4.
Proof.
  assert (length (replicate 1000 7) = 1000%nat) as El by reflexivity. destruct same4 as (C1 & C2 & C3 & C4).
  assert (contents kern4 root = take 32 dirblock) as Ec by (vm_compute; reflexivity).
  eapply wp_mono; [apply (write_atomic 0 1 2 kern4 0 root (replicate 1000 7) 32);
    [apply idle4|reflexivity|exact C1|reflexivity|exact C2|exact C3|apply root_typed|simpl; lia|vm_compute; discriminate..|apply (dw_home _ _ C4)]|].
  intros r s' (_ & Ha & ip' & _ & H1 & _ & _ & H2 & _). split; [exact Ha|]. rewrite El in H1. rewrite Ec in H2. exists ip'. exact (conj H1 H2).
Defined.

