(* ===== verification/Mkfs.v ===== *)
(** * The image builder (mkfs/mkfs.c)

    A host program that writes the first file system image.  The image is a
    map from sectors to their 1024 bytes; reading a sector that was never
    written, a failed assertion and a file that cannot be opened end the
    program.  The host is little-endian, its writes succeed, and a file is
    the sequence of pieces [read] returns.

    [minv fs s]: the image holds the files [fs], a list of types and
    contents by inode number, in the format the kernel reads. *)

From S2P Require Import Prelude.
From S2P Require Import Mach.
From S2P Require Import Kstate.
From S2P Require Import Printk.
From S2P Require Import Bio.
From S2P Require Import Fs.
From S2P Require Import Fsread.
From S2P Require Import Dir.
From S2P Require Import Fswrite.

(** ** Data *)

Record mkst : Type := Mk { img : gmap Z (list Z); freeinode : Z; freeblock : Z }.
Definition set_img x (s : mkst) : mkst := Mk x (freeinode s) (freeblock s).
Definition set_freeinode x (s : mkst) : mkst := Mk (img s) x (freeblock s).
Definition set_freeblock x (s : mkst) : mkst := Mk (img s) (freeinode s) x.

Definition NINODES : Z := 200.
#[export] Hint Unfold NINODES : kconst.
Definition nbitmap : Z := FSSIZE / BPB + 1.
Definition ninodeblocks : Z := NINODES / IPB + 1.
Definition nlog : Z := LOGBLOCKS + 1.

(** Target byte order: the bytes of the number, low first, read by the host. *)
Definition xshort (x : Z) : Z := le_get 2 [x mod 256; Z.shiftr x 8 mod 256] 0.
Definition xint (x : Z) : Z := le_get 4 [x mod 256; Z.shiftr x 8 mod 256; Z.shiftr x 16 mod 256; Z.shiftr x 24 mod 256] 0.

Definition nmeta : Z := 2 + nlog + ninodeblocks + nbitmap.
Definition nblocks : Z := FSSIZE - nmeta.
Definition msb : superblock :=
  Superblock FSMAGIC (xint FSSIZE) (xint nblocks) (xint NINODES) (xint nlog) (xint 2) (xint (2 + nlog)) (xint (2 + nlog + ninodeblocks)).
(** [memmove(buf, &sb, sizeof(sb))]. *)
Definition sb_words : list Z :=
  [sb_magic msb; sb_size msb; sb_nblocks msb; sb_ninodes msb; sb_nlog msb; sb_logstart msb; sb_inodestart msb; sb_bmapstart msb].

(** ** Sectors and inodes *)

Definition die {A : Type} (s : string) : M mkst A := panic s.
Definition wsect (sec : Z) (buf : list Z) : M mkst unit := modify (fun s => set_img (<[sec := buf]> (img s)) s).
Definition rsect (sec : Z) : M mkst (list Z) := fun s =>
  match img s !! sec with Some d => Ret d s | None => die "read" s end.

Definition winode (inum : Z) (ip : dinode) : M mkst unit :=
  let bn := IBLOCK inum msb in
  let! buf := rsect bn in
  wsect bn (put_dinode ip buf (islot inum)).
Definition rinode (inum : Z) : M mkst dinode :=
  let! buf := rsect (IBLOCK inum msb) in
  ret (get_dinode buf (islot inum)).

Definition ialloc (type : Z) : M mkst Z :=
  let! inum := gets freeinode in
  do! modify (set_freeinode (u32 (inum + 1)));
  do! winode inum (Dinode (xshort type) 0 0 (xshort 1) (xint 0) (replicate 13 0));
  ret inum.

(** The bitmap of the first [used] blocks. *)
Fixpoint set_bits (used : nat) (buf : list Z) : list Z :=
  match used with
  | O => buf
  | S i =>
    let buf := set_bits i buf in
    let o := (i / 8)%nat in
    <[o := Z.lor (default 0 (buf !! o)) (Z.shiftl 1 (Z.of_nat (i mod 8)%nat))]> buf
  end.
Definition balloc (used : Z) : M mkst unit :=
  do! check (used <? BPB) "assert";
  wsect (sb_bmapstart msb) (set_bits (Z.to_nat used) zero_block).

(** A fresh block. *)
Definition next_block : M mkst Z :=
  let! b := gets freeblock in
  do! modify (set_freeblock (u32 (b + 1)));
  ret (xint b).

(** The entry for block [fbn] in the indirect block [a], made when it is
    missing. *)
Definition block_entry (a fbn : Z) (din : dinode) : M mkst (Z * dinode) :=
  let! indirect := rsect (xint a) in
  let o := Z.to_nat (4 * (fbn - NDIRECT)) in
  let! indirect := (if le_get 4 indirect o =? 0 then
                      let! b := next_block in
                      let indirect := le_set 4 indirect o b in
                      do! wsect (xint a) indirect; ret indirect
                    else ret indirect) in
  ret (xint (le_get 4 indirect o), din).

(** The block of a file that holds block [fbn], allocated when it is missing,
    and the inode with it. *)
Definition file_block (fbn : Z) (din : dinode) : M mkst (Z * dinode) :=
  let set j a := Dinode (d_type din) (d_major din) (d_minor din) (d_nlink din) (d_size din) (<[j := a]> (d_addrs din)) in
  if fbn <? NDIRECT then
    let j := Z.to_nat fbn in
    let! a := orfault (d_addrs din !! j) in
    if xint a =? 0 then let! b := next_block in ret (xint b, set j b) else ret (xint a, din)
  else
    let j := Z.to_nat NDIRECT in
    let! a := orfault (d_addrs din !! j) in
    let! r := (if xint a =? 0 then let! b := next_block in ret (b, set j b) else ret (a, din)) in
    block_entry (fst r) fbn (snd r).

(** The loop runs once per block at least. *)
Fixpoint iappend_loop (fuel : nat) (p : list Z) (off : Z) (din : dinode) : M mkst (Z * dinode) :=
  match p with
  | [] => ret (off, din)
  | _ =>
    match fuel with
    | O => fun _ => Spin
    | S f =>
      let fbn := off / BSIZE in
      do! check (fbn <? MAXFILE) "assert";
      let! r := file_block fbn din in
      let '(x, din) := r in
      let n1 := Z.min (Z.of_nat (length p)) ((fbn + 1) * BSIZE - off) in
      let! buf := rsect x in
      do! wsect x (splice (Z.to_nat (off - fbn * BSIZE)) (take (Z.to_nat n1) p) buf);
      iappend_loop f (drop (Z.to_nat n1) p) (off + n1) din
    end
  end.
Definition set_size (n : Z) (x : dinode) : dinode :=
  Dinode (d_type x) (d_major x) (d_minor x) (d_nlink x) n (d_addrs x).
Definition iappend (inum : Z) (p : list Z) : M mkst unit :=
  let! din := rinode inum in
  let! r := iappend_loop (length p) p (xint (d_size din)) din in
  winode inum (set_size (xint (fst r)) (snd r)).

(** ** The program *)

(** A file named on the command line: its name, and unless it cannot be
    opened what the calls of [read] return, each at most 1024 bytes. *)
Definition hostfile : Type := list Z * option (list (list Z)).

Definition dir_entry (inum : Z) (name : list Z) : list Z := put_dirent (Dirent (xshort inum) (strncpy_l (Z.to_nat DIRSIZ) name)).

#[global] Arguments dir_entry : simpl never.

Definition add_file (rootino : Z) (f : hostfile) : M mkst unit :=
  let '(argv, data) := f in
  let shortname := if strncmp_l 5 argv (str "user/") =? 0 then drop 5 argv else argv in
  do! check (negb (bool_decide (47 ∈ shortname))) "assert";
  match data with
  | None => die "open"
  | Some chunks =>
    let shortname := if bool_decide (take 1 shortname = [95]) then drop 1 shortname else shortname in
    do! check (Z.of_nat (length shortname) <=? DIRSIZ) "assert";
    let! inum := ialloc T_FILE in
    do! iappend rootino (dir_entry inum shortname);
    foldr (fun c k => do! iappend inum c; k) (ret tt) chunks
  end.

Definition main (files : list hostfile) : M mkst unit :=
  do! modify (set_freeblock nmeta);
  do! foldr (fun i k => do! wsect i zero_block; k) (ret tt) (seqZ 0 FSSIZE);
  do! wsect 1 (put_words sb_words zero_block 0);
  let! rootino := ialloc T_DIR in
  do! check (rootino =? ROOTINO) "assert";
  do! iappend rootino (dir_entry rootino (str "."));
  do! iappend rootino (dir_entry rootino (str ".."));
  do! foldr (fun f k => do! add_file rootino f; k) (ret tt) files;
  let! din := rinode rootino in
  let off := xint (d_size din) in
  do! winode rootino (set_size (xint ((off / BSIZE + 1) * BSIZE)) din);
  let! used := gets freeblock in
  balloc used.

(** ** What the image holds *)

Definition iview (s : mkst) (b : Z) : list Z := default zero_block (img s !! b).
Definition din_of (v : Z -> list Z) (inum : Z) : dinode := get_dinode (v (IBLOCK inum msb)) (islot inum).

(** The address of block [bn] of a file and its contents, as [block_addr] and
    [contents] of the kernel. *)
Definition faddr (v : Z -> list Z) (x : dinode) (bn : Z) : Z :=
  if bn <? NDIRECT then default 0 (d_addrs x !! Z.to_nat bn)
  else
    let ind := default 0 (d_addrs x !! Z.to_nat NDIRECT) in
    if ind =? 0 then 0 else le_get 4 (v ind) (Z.to_nat (4 * (bn - NDIRECT))).
Definition fbyte_of (v : Z -> list Z) (x : dinode) (o : Z) : Z :=
  default 0 (v (faddr v x (o / BSIZE)) !! Z.to_nat (o mod BSIZE)).
Definition fbytes (v : Z -> list Z) (x : dinode) : list Z := fbyte_of v x <$> seqZ 0 (d_size x).

(** [own] says which block of which inode a block is, -1 for its indirect
    block.  Inode [inum] has its first [nb] blocks, and no others. *)
Record alloc_inv (own : gmap Z (Z * Z)) (v : Z -> list Z) (inum : Z) (x : dinode) (nb : Z) : Prop := {
  ai_len : length (d_addrs x) = 13%nat;
  ai_words : Forall word (d_addrs x);
  ai_nb : 0 <= nb <= MAXFILE;
  ai_have : forall bn, 0 <= bn < nb -> own !! faddr v x bn = Some (inum, bn);
  ai_direct : forall bn, 0 <= bn -> nb <= bn < NDIRECT -> d_addrs x !! Z.to_nat bn = Some 0;
  ai_noind : nb <= NDIRECT -> d_addrs x !! Z.to_nat NDIRECT = Some 0;
  ai_ind : NDIRECT < nb -> exists a, d_addrs x !! Z.to_nat NDIRECT = Some a /\ own !! a = Some (inum, -1) /\
    forall bn, nb <= bn < MAXFILE -> le_get 4 (v a) (Z.to_nat (4 * (bn - NDIRECT))) = 0;
}.

(** Blocks a file of [n] bytes has, and with its indirect block. *)
Definition nb (n : Z) : Z := (n + 1023) / 1024.
Definition with_ind (k : Z) : Z := k + (if NDIRECT <? k then 1 else 0).
Definition need (fs : list (Z * list Z)) : Z := foldr (fun f k => with_ind (nb (Z.of_nat (length f.2))) + k) 0 fs.

#[global] Arguments need : simpl never.

(** The sectors: all there, those not allocated yet zero. *)
Record simg (own : gmap Z (Z * Z)) (s : mkst) : Prop := {
  si_img : forall b, 0 <= b < FSSIZE -> exists d, img s !! b = Some d /\ length d = 1024%nat;
  si_zero : forall b, freeblock s <= b < FSSIZE -> img s !! b = Some zero_block;
  si_own : forall b o, own !! b = Some o -> nmeta <= b < freeblock s;
  si_fb : nmeta <= freeblock s <= FSSIZE;
}.

(** Inode [x] of a file of type [t] and contents [c]; its last block ends in
    zeros. *)
Record file_at (own : gmap Z (Z * Z)) (v : Z -> list Z) (inum : Z) (x : dinode) (t : Z) (c : list Z) : Prop := {
  fa_typed : dinode_typed x;
  fa_type : d_type x = t;
  fa_links : d_nlink x = 1;
  fa_size : d_size x = Z.of_nat (length c);
  fa_max : Z.of_nat (length c) <= MAXFILE * BSIZE;
  fa_alloc : alloc_inv own v inum x (nb (Z.of_nat (length c)));
  fa_bytes : forall o, 0 <= o < BSIZE * nb (Z.of_nat (length c)) -> fbyte_of v x o = default 0 (c !! Z.to_nat o);
}.

(** The files are [fs], where file [j] has the inode [dn j]. *)
Record core (own : gmap Z (Z * Z)) (fs : list (Z * list Z)) (dn : nat -> dinode) (s : mkst) : Prop := {
  co_img : simg own s;
  co_fb : freeblock s = nmeta + need fs;
  co_fi : freeinode s = 1 + Z.of_nat (length fs);
  co_many : Z.of_nat (length fs) < NINODES;
  co_file : forall j t c, fs !! j = Some (t, c) -> file_at own (iview s) (1 + Z.of_nat j) (dn j) t c;
}.
Definition minv (own : gmap Z (Z * Z)) (fs : list (Z * list Z)) (s : mkst) : Prop :=
  core own fs (fun j => din_of (iview s) (1 + Z.of_nat j)) s.

(** ** Lemmas *)

Lemma le_get_bytes4 a b c d : le_get 4 [a; b; c; d] 0 = a + 256 * (b + 256 * (c + 256 * d)).
Proof. unfold le_get. simpl. lia. Qed.
Lemma xint_small x : 0 <= x < 4294967296 -> xint x = x.
Proof.
  intros H. unfold xint. rewrite le_get_bytes4, !Z.shiftr_div_pow2 by lia.
  change (2 ^ 8) with 256. change (2 ^ 16) with (256 * 256). change (2 ^ 24) with (256 * 256 * 256).
  rewrite <- !Z.div_div by lia. pose proof (Z.div_mod x 256). pose proof (Z.div_mod (x / 256) 256). pose proof (Z.div_mod (x / 256 / 256) 256).
  rewrite (Z.mod_small (x / 256 / 256 / 256)) by (split; [repeat apply Z.div_pos; lia|repeat apply Z.div_lt_upper_bound; lia]). lia.
Qed.
Lemma xshort_small x : 0 <= x < 65536 -> xshort x = x.
Proof.
  intros H. unfold xshort, le_get. simpl. rewrite Z.shiftr_div_pow2 by lia. change (2 ^ 8) with 256.
  rewrite (Z.mod_small (x / 256)) by (split; [apply Z.div_pos; lia|apply Z.div_lt_upper_bound; lia]). pose proof (Z.div_mod x 256). lia.
Qed.

Lemma wp_rsect sec d (Q : list Z -> mkst -> Prop) s : img s !! sec = Some d -> Q d s -> wp (rsect sec) Q s.
Proof. intros H HQ. unfold wp, rsect. now rewrite H. Qed.
Lemma wp_wsect sec buf (Q : unit -> mkst -> Prop) s : Q tt (set_img (<[sec := buf]> (img s)) s) -> wp (wsect sec buf) Q s.
Proof. intros H. exact H. Qed.
Lemma iview_lookup s b d : img s !! b = Some d -> iview s b = d.
Proof. intros H. unfold iview. now rewrite H. Qed.

Lemma nmeta_eq : nmeta = 47.
Proof. reflexivity. Qed.
Lemma le_get_zero n o : le_get n zero_block o = 0.
Proof. apply le_get_replicate. Qed.

(** Only an indirect block of the file itself matters to its addresses. *)
Lemma faddr_ext v v' x bn : (NDIRECT <= bn -> forall a, d_addrs x !! Z.to_nat NDIRECT = Some a -> a <> 0 -> v' a = v a) -> faddr v' x bn = faddr v x bn.
Proof.
  intros H. unfold faddr. destruct (Z.ltb_spec bn NDIRECT) as [Hb|Hb]; [done|]. destruct (d_addrs x !! Z.to_nat NDIRECT) as [a|] eqn:E; [|done].
  simpl. destruct (Z.eqb_spec a 0) as [|Ha]; [done|]. now rewrite (H Hb a eq_refl Ha).
Qed.

Lemma alloc_frame own own' v v' inum x n : alloc_inv own v inum x n -> own ⊆ own' ->
  (forall b, own !! b = Some (inum, -1) -> v' b = v b) -> alloc_inv own' v' inum x n /\ forall bn, 0 <= bn < n -> faddr v' x bn = faddr v x bn.
Proof.
  intros [Hl Hw Hn Hh Hd Hni Hi] Ho Hv.
  assert (forall bn, 0 <= bn < n -> faddr v' x bn = faddr v x bn) as Hfa.
  { intros bn Hbn. apply faddr_ext. intros Hge a Ha _. destruct Hi as (a' & Ha' & Hoa & _); [lia|]. rewrite Ha in Ha'. injection Ha' as <-. now apply Hv. }
  split; [|done]. constructor; try done.
  - intros bn Hbn. rewrite Hfa by done. eapply lookup_weaken; [now apply Hh|done].
  - intros Hlt. destruct (Hi Hlt) as (a & Ha & Hoa & Hz). exists a. split; [done|]. split; [eapply lookup_weaken; eauto|]. intros bn Hbn.
    rewrite Hv by done. auto.
Qed.

(** *** Allocating a block of a file *)

Lemma wp_next_block own s o (Q : Z -> mkst -> Prop) : simg own s -> freeblock s < FSSIZE ->
  (simg (<[freeblock s := o]> own) (set_freeblock (freeblock s + 1) s) -> own !! freeblock s = None -> own ⊆ <[freeblock s := o]> own ->
   Q (freeblock s) (set_freeblock (freeblock s + 1) s)) -> wp next_block Q s.
Proof.
  intros [Hi Hz Ho Hf] Hlt HQ. rewrite nmeta_eq in *. unfold next_block. wsteps. rewrite u32_small, xint_small by lia.
  assert (own !! freeblock s = None) as Hn by (destruct (own !! freeblock s) eqn:E; [apply Ho in E; lia|done]).
  apply HQ; [|done|now apply insert_subseteq]. constructor; simpl; try done.
  - intros b Hb. apply Hz. lia.
  - intros b o' Hb. apply lookup_insert_Some in Hb as [[<- <-]|[_ Hb]]; [rewrite nmeta_eq; lia|]. apply Ho in Hb. rewrite nmeta_eq. lia.
  - rewrite nmeta_eq. lia.
Qed.

Definition set_addr (j : nat) (a : Z) (x : dinode) : dinode :=
  Dinode (d_type x) (d_major x) (d_minor x) (d_nlink x) (d_size x) (<[j := a]> (d_addrs x)).

(** What [file_block] may change: the indirect block of the file and new
    blocks. *)
Record grown (inum : Z) (own own' : gmap Z (Z * Z)) (s s' : mkst) (x x' : dinode) : Prop := {
  gr_img : simg own' s';
  gr_own : own ⊆ own';
  gr_fi : freeinode s' = freeinode s;
  gr_same : forall b, own !! b <> Some (inum, -1) -> b < freeblock s -> img s' !! b = img s !! b;
  gr_inode : x' = x \/ exists j a, x' = set_addr j a x;
}.

Lemma alloc_direct own s inum x fbn o : simg own s -> alloc_inv own (iview s) inum x fbn -> 0 <= fbn < NDIRECT -> freeblock s < FSSIZE ->
  o = (inum, fbn) -> own !! freeblock s = None ->
  alloc_inv (<[freeblock s := o]> own) (iview (set_freeblock (freeblock s + 1) s)) inum (set_addr (Z.to_nat fbn) (freeblock s) x) (fbn + 1).
Proof.
  intros Hs [Hl Hw Hn Hh Hd Hni Hi] Hb Hlt -> Hno. pose proof (si_fb _ _ Hs) as Hfb. rewrite nmeta_eq in Hfb.
  constructor; simpl; try lia.
  - now rewrite length_insert.
  - apply Forall_insert; [done|]. unfold word. lia.
  - change MAXFILE with 268. lia.
  - intros bn Hbn. unfold faddr. rewrite (proj2 (Z.ltb_lt _ _)) by lia. simpl. destruct (decide (bn = fbn)) as [->|Hne].
    + rewrite list_lookup_insert_eq by lia. simpl. apply lookup_insert_eq.
    + rewrite list_lookup_insert_ne by lia. specialize (Hh bn ltac:(lia)). unfold faddr in Hh. rewrite (proj2 (Z.ltb_lt _ _)) in Hh by lia.
      rewrite lookup_insert_ne; [done|]. intros E. rewrite <- E in Hh. congruence.
  - intros bn H0 Hbn. rewrite list_lookup_insert_ne by lia. apply Hd; lia.
  - intros _. rewrite list_lookup_insert_ne by lia. apply Hni. lia.
Qed.

(** A file that has its indirect block [a]. *)
Record ind_inv (own : gmap Z (Z * Z)) (v : Z -> list Z) (inum : Z) (x : dinode) (a n : Z) : Prop := {
  ii_len : length (d_addrs x) = 13%nat;
  ii_words : Forall word (d_addrs x);
  ii_n : NDIRECT <= n <= MAXFILE;
  ii_direct : forall bn, 0 <= bn < NDIRECT -> exists b, d_addrs x !! Z.to_nat bn = Some b /\ own !! b = Some (inum, bn);
  ii_ind : d_addrs x !! Z.to_nat NDIRECT = Some a;
  ii_own : own !! a = Some (inum, -1);
  ii_have : forall bn, NDIRECT <= bn < n -> own !! le_get 4 (v a) (Z.to_nat (4 * (bn - NDIRECT))) = Some (inum, bn);
  ii_rest : forall bn, n <= bn < MAXFILE -> le_get 4 (v a) (Z.to_nat (4 * (bn - NDIRECT))) = 0;
}.

Lemma owned_pos own s b o : simg own s -> own !! b = Some o -> 47 <= b < FSSIZE /\ b < freeblock s.
Proof. intros Hs H. pose proof (si_own _ _ Hs _ _ H). pose proof (si_fb _ _ Hs). rewrite nmeta_eq in *. lia. Qed.

Lemma ind_alloc own s v inum x a n : simg own s -> NDIRECT < n -> ind_inv own v inum x a n ->
  alloc_inv own v inum x n /\ forall bn, NDIRECT <= bn -> faddr v x bn = le_get 4 (v a) (Z.to_nat (4 * (bn - NDIRECT))).
Proof.
  intros Hs Hn [Hl Hw Hm Hd Hi Ho Hh Hr]. pose proof (owned_pos _ _ _ _ Hs Ho) as [Ha _].
  assert (forall bn, NDIRECT <= bn -> faddr v x bn = le_get 4 (v a) (Z.to_nat (4 * (bn - NDIRECT)))) as Hfa.
  { intros bn Hbn. unfold faddr. rewrite (proj2 (Z.ltb_ge _ _)) by lia. rewrite Hi. simpl. now rewrite (proj2 (Z.eqb_neq _ _)) by lia. }
  split; [|done]. constructor; try done; try lia; [|eauto].
  intros bn Hbn. destruct (Z_lt_ge_dec bn NDIRECT) as [Hlt|Hge]; [|rewrite Hfa by lia; apply Hh; lia].
  unfold faddr. rewrite (proj2 (Z.ltb_lt _ _)) by lia. destruct (Hd bn ltac:(lia)) as (b & -> & Hb). exact Hb.
Qed.
Lemma alloc_ind own s v inum x n : simg own s -> NDIRECT < n -> alloc_inv own v inum x n ->
  exists a, ind_inv own v inum x a n.
Proof.
  intros Hs Hn [Hl Hw Hm Hh Hd Hni Hi]. destruct (Hi Hn) as (a & Ha & Ho & Hr). pose proof (owned_pos _ _ _ _ Hs Ho) as [Hpos _].
  exists a. constructor; try done; [lia| |].
  - intros bn Hbn. destruct (lookup_lt_is_Some_2 (d_addrs x) (Z.to_nat bn)) as [b Eb]; [lia|]. exists b. split; [done|].
    specialize (Hh bn ltac:(lia)). unfold faddr in Hh. rewrite (proj2 (Z.ltb_lt _ _)), Eb in Hh by lia. exact Hh.
  - intros bn Hbn. specialize (Hh bn ltac:(lia)). unfold faddr in Hh. rewrite (proj2 (Z.ltb_ge _ _)), Ha in Hh by lia. simpl in Hh.
    rewrite (proj2 (Z.eqb_neq _ _)) in Hh by lia. exact Hh.
Qed.

(** A file of twelve blocks gets its indirect block. *)
Lemma new_ind own s inum x : simg own s -> alloc_inv own (iview s) inum x NDIRECT -> freeblock s < FSSIZE -> own !! freeblock s = None ->
  ind_inv (<[freeblock s := (inum, -1)]> own) (iview (set_freeblock (freeblock s + 1) s)) inum (set_addr (Z.to_nat NDIRECT) (freeblock s) x) (freeblock s) NDIRECT.
Proof.
  intros Hs [Hl Hw Hn Hh Hd Hni Hi] Hlt Hno. pose proof (si_fb _ _ Hs) as Hfb. rewrite nmeta_eq in Hfb.
  constructor; simpl; try lia.
  - now rewrite length_insert.
  - apply Forall_insert; [done|]. unfold word. lia.
  - intros bn Hbn. destruct (lookup_lt_is_Some_2 (d_addrs x) (Z.to_nat bn)) as [b Eb]; [lia|]. exists b. rewrite list_lookup_insert_ne by lia. split; [done|].
    specialize (Hh bn ltac:(lia)). unfold faddr in Hh. rewrite (proj2 (Z.ltb_lt _ _)), Eb in Hh by lia. simpl in Hh.
    rewrite lookup_insert_ne; [done|]. intros <-. congruence.
  - apply list_lookup_insert_eq. lia.
  - apply lookup_insert_eq.
  - intros bn Hbn. unfold iview. simpl. rewrite (si_zero _ _ Hs) by lia. simpl. apply le_get_zero.
Qed.

(** A file that has its indirect block gets another block. *)
Lemma new_entry own s inum x a fbn d : simg own s -> ind_inv own (iview s) inum x a fbn -> fbn < MAXFILE -> freeblock s < FSSIZE ->
  own !! freeblock s = None -> img s !! a = Some d -> length d = 1024%nat ->
  let s' := set_img (<[a := le_set 4 d (Z.to_nat (4 * (fbn - NDIRECT))) (freeblock s)]> (img s)) (set_freeblock (freeblock s + 1) s) in
  ind_inv (<[freeblock s := (inum, fbn)]> own) (iview s') inum x a (fbn + 1) /\
  le_get 4 (iview s' a) (Z.to_nat (4 * (fbn - NDIRECT))) = freeblock s /\
  forall bn, NDIRECT <= bn -> bn <> fbn -> le_get 4 (iview s' a) (Z.to_nat (4 * (bn - NDIRECT))) = le_get 4 (iview s a) (Z.to_nat (4 * (bn - NDIRECT))).
Proof.
  intros Hs [Hl Hw Hn Hd Hi Ho Hh Hr] Hm Hlt Hno Ed Hld s'. pose proof (si_fb _ _ Hs) as Hfb. rewrite nmeta_eq in Hfb.
  assert (iview s' a = le_set 4 d (Z.to_nat (4 * (fbn - NDIRECT))) (freeblock s)) as Ev by (unfold iview, s'; simpl; now rewrite lookup_insert_eq).
  assert (iview s a = d) as Ed' by (now apply iview_lookup). change MAXFILE with 268 in *.
  assert (le_get 4 (iview s' a) (Z.to_nat (4 * (fbn - NDIRECT))) = freeblock s) as Enew.
  { rewrite Ev. apply le_get_set_eq; [rewrite Hld; lia|]. change (256 ^ Z.of_nat 4) with 4294967296. lia. }
  assert (forall bn, NDIRECT <= bn -> bn <> fbn -> le_get 4 (iview s' a) (Z.to_nat (4 * (bn - NDIRECT))) = le_get 4 (iview s a) (Z.to_nat (4 * (bn - NDIRECT)))) as Eold.
  { intros bn Hbn Hne. rewrite Ev, Ed'. apply le_get_set_ne. lia. }
  assert (forall b o, own !! b = Some o -> <[freeblock s := (inum, fbn)]> own !! b = Some o) as Hw'.
  { intros b o Hb. rewrite lookup_insert_ne; [done|]. intros <-. congruence. }
  split; [|done]. constructor; try done.
  - change MAXFILE with 268. lia.
  - intros bn Hbn. destruct (Hd bn Hbn) as (b & H1 & H2). exists b. split; [done|]. now apply Hw'.
  - now apply Hw'.
  - intros bn Hbn. destruct (decide (bn = fbn)) as [->|Hne]; [rewrite Enew; apply lookup_insert_eq|]. rewrite Eold by lia. apply Hw', Hh. lia.
  - change MAXFILE with 268. intros bn Hbn. rewrite Eold by lia. apply Hr. lia.
Qed.

Lemma simg_write own s a d : simg own s -> 0 <= a < freeblock s -> length d = 1024%nat -> simg own (set_img (<[a := d]> (img s)) s).
Proof.
  intros [Hi Hz Ho Hf] Ha Hd. constructor; simpl; try done.
  - intros b Hb. destruct (decide (b = a)) as [->|Hne]; [rewrite lookup_insert_eq; eauto|]. rewrite lookup_insert_ne by done. auto.
  - intros b Hb. rewrite lookup_insert_ne by lia. auto.
Qed.
Lemma owned_img own s a o : simg own s -> own !! a = Some o -> exists d, img s !! a = Some d /\ length d = 1024%nat /\ 47 <= a < freeblock s.
Proof. intros Hs Ha. destruct (owned_pos _ _ _ _ Hs Ha) as [H1 H2]. destruct (si_img _ _ Hs a ltac:(lia)) as (d & Hd & Hl). exists d. split_and!; done || lia. Qed.
Lemma grown_refl inum own s x : simg own s -> grown inum own own s s x x.
Proof. intros H. constructor; try done. now left. Qed.

Lemma block_entry_spec own s inum x a fbn n0 : simg own s -> ind_inv own (iview s) inum x a n0 -> n0 = fbn \/ n0 = fbn + 1 ->
  NDIRECT <= fbn < MAXFILE -> freeblock s + (fbn + 1 - n0) <= FSSIZE ->
  wp (block_entry a fbn x) (fun r s' => exists own', r = (faddr (iview s') x fbn, x) /\ alloc_inv own' (iview s') inum x (fbn + 1) /\
    grown inum own own' s s' x x /\ freeblock s' = freeblock s + (fbn + 1 - n0) /\
    (forall bn, 0 <= bn < n0 -> faddr (iview s') x bn = faddr (iview s) x bn) /\ (n0 = fbn -> iview s' (fst r) = zero_block)) s.
Proof.
  intros Hs Hi Hn0 Hfbn Hfit. destruct (owned_img _ _ _ _ Hs (ii_own _ _ _ _ _ _ Hi)) as (d & Hd & Hld & Ha).
  pose proof (si_fb _ _ Hs) as Hfb. rewrite nmeta_eq in Hfb. assert (FSSIZE = 2000) as EF by reflexivity. assert (MAXFILE = 268) as EM by reflexivity. unfold block_entry. rewrite xint_small by lia. wsteps.
  apply (wp_rsect a d); [done|]. wsteps. rewrite <- (iview_lookup s a d Hd). destruct Hn0 as [->| ->].
  - rewrite (ii_rest _ _ _ _ _ _ Hi) by lia. simpl. wsteps. apply (wp_next_block own s (inum, fbn)); [done|lia|]. intros Hs1 Hno Hsub. wsteps.
    destruct (new_entry own s inum x a fbn d Hs Hi ltac:(lia) ltac:(lia) Hno Hd Hld) as (Hi2 & Enew & Eold).
    rewrite (iview_lookup s a d Hd). apply wp_wsect. wsteps. set (s2 := set_img _ _).
    assert (s2 = set_img (<[a := le_set 4 d (Z.to_nat (4 * (fbn - NDIRECT))) (freeblock s)]> (img s)) (set_freeblock (freeblock s + 1) s)) as E2 by done.
    rewrite <- E2 in Hi2, Enew, Eold. assert (simg (<[freeblock s := (inum, fbn)]> own) s2) as Hs2.
    { apply (simg_write _ (set_freeblock (freeblock s + 1) s)); [done|simpl; lia|now rewrite le_set_length]. }
    destruct (ind_alloc _ s2 (iview s2) inum x a (fbn + 1) Hs2 ltac:(lia) Hi2) as [Hal Hfa].
    exists (<[freeblock s := (inum, fbn)]> own). rewrite Hfa by lia. rewrite Enew.
    assert (iview s2 a = le_set 4 d (Z.to_nat (4 * (fbn - NDIRECT))) (freeblock s)) as Ev by (unfold iview, s2; simpl; now rewrite lookup_insert_eq).
    rewrite <- Ev, Enew, xint_small by lia. split; [done|]. split; [done|]. split; [|split; [simpl; lia|split]].
    + constructor; try done; [|now left]. intros b Hb Hlt. simpl. rewrite lookup_insert_ne; [done|]. intros <-. apply Hb. apply Hi.
    + intros bn Hbn. unfold faddr. destruct (Z.ltb_spec bn NDIRECT); [done|]. rewrite (ii_ind _ _ _ _ _ _ Hi). simpl.
      rewrite (proj2 (Z.eqb_neq a 0)) by lia. apply Eold; lia.
    + intros _. apply iview_lookup. simpl. rewrite lookup_insert_ne by lia. apply (si_zero _ _ Hs). lia.
  - assert (le_get 4 (iview s a) (Z.to_nat (4 * (fbn - NDIRECT))) <> 0 /\ 0 <= le_get 4 (iview s a) (Z.to_nat (4 * (fbn - NDIRECT))) < 4294967296) as [Hne Hr].
    { pose proof (ii_have _ _ _ _ _ _ Hi fbn ltac:(lia)) as H. apply (owned_pos _ _ _ _ Hs) in H. lia. }
    rewrite (proj2 (Z.eqb_neq _ 0)) by done. wsteps. rewrite xint_small by done.
    destruct (ind_alloc _ s (iview s) inum x a (fbn + 1) Hs ltac:(lia) Hi) as [Hal Hfa]. exists own. rewrite Hfa by lia.
    split; [done|]. split; [done|]. split; [now apply grown_refl|]. split; [lia|]. split; [done|lia].
Qed.

Lemma file_block_spec own s inum x fbn n0 : simg own s -> alloc_inv own (iview s) inum x n0 -> n0 = fbn \/ n0 = fbn + 1 -> 0 <= fbn < MAXFILE ->
  freeblock s + (with_ind (fbn + 1) - with_ind n0) <= FSSIZE ->
  wp (file_block fbn x) (fun r s' => exists own' x', r = (faddr (iview s') x' fbn, x') /\ alloc_inv own' (iview s') inum x' (fbn + 1) /\
    grown inum own own' s s' x x' /\ freeblock s' = freeblock s + (with_ind (fbn + 1) - with_ind n0) /\
    (forall bn, 0 <= bn < n0 -> faddr (iview s') x' bn = faddr (iview s) x bn) /\ (n0 = fbn -> iview s' (fst r) = zero_block)) s.
Proof.
  intros Hs Hi Hn0 Hfbn. pose proof (si_fb _ _ Hs) as Hfb. rewrite nmeta_eq in Hfb. assert (FSSIZE = 2000) as EF by reflexivity. assert (MAXFILE = 268) as EM by reflexivity.
  unfold with_ind, file_block. pose proof (ai_len _ _ _ _ _ Hi) as Hlen.
  destruct (Z.ltb_spec fbn NDIRECT) as [Hd|Hd].
  - rewrite !(proj2 (Z.ltb_ge NDIRECT _)) by lia. intros Hfit. destruct (lookup_lt_is_Some_2 (d_addrs x) (Z.to_nat fbn)) as [a Ea]; [lia|].
    wsteps. rewrite Ea. unfold orfault. wsteps. destruct Hn0 as [->| ->].
    + rewrite (ai_direct _ _ _ _ _ Hi) in Ea by lia. injection Ea as <-. simpl (xint 0 =? 0). cbv iota. apply wp_bind.
      apply (wp_next_block own s (inum, fbn)); [done|lia|]. intros Hs1 Hno Hsub. wsteps. rewrite xint_small by lia.
      exists (<[freeblock s := (inum, fbn)]> own), (set_addr (Z.to_nat fbn) (freeblock s) x). split.
      * unfold faddr. rewrite (proj2 (Z.ltb_lt _ _)) by lia. simpl. rewrite list_lookup_insert_eq by lia. done.
      * split; [apply alloc_direct; try done; lia|]. split; [constructor; try done; right; eauto|]. split; [simpl; lia|]. split.
        -- intros bn Hbn. unfold faddr. rewrite (proj2 (Z.ltb_lt _ _)) by lia. simpl. now rewrite list_lookup_insert_ne by lia.
        -- intros _. apply iview_lookup, (si_zero _ _ Hs). simpl. lia.
    + pose proof (ai_have _ _ _ _ _ Hi fbn ltac:(lia)) as Ho. assert (faddr (iview s) x fbn = a) as Efa.
      { unfold faddr. rewrite (proj2 (Z.ltb_lt _ _)), Ea by lia. done. }
      rewrite Efa in Ho. destruct (owned_pos _ _ _ _ Hs Ho) as [Ha _]. rewrite xint_small by lia. rewrite (proj2 (Z.eqb_neq _ _)) by lia.
      exists own, x. rewrite Efa. split; [done|]. split; [done|]. split; [now apply grown_refl|]. split; [lia|]. split; [done|lia].
  - destruct (lookup_lt_is_Some_2 (d_addrs x) (Z.to_nat NDIRECT)) as [a Ea]; [lia|]. rewrite (proj2 (Z.ltb_lt NDIRECT (fbn + 1))) by lia. intros Hfit.
    wsteps. rewrite Ea. unfold orfault. wsteps. destruct (Z_lt_ge_dec NDIRECT n0) as [Hlt|Hge].
    + destruct (alloc_ind own s (iview s) inum x n0 Hs Hlt Hi) as (a' & Hi2). pose proof (ii_ind _ _ _ _ _ _ Hi2) as Ea'. rewrite Ea in Ea'. injection Ea' as <-.
      destruct (owned_pos _ _ _ _ Hs (ii_own _ _ _ _ _ _ Hi2)) as [Ha _]. rewrite (xint_small a), (proj2 (Z.eqb_neq a 0)) by lia. rewrite (proj2 (Z.ltb_lt NDIRECT n0)) in * by lia. apply wp_ret.
      eapply wp_mono; [apply (block_entry_spec own s inum x a fbn n0 Hs Hi2 Hn0); lia|]. intros r s' (own' & -> & H1 & H2 & H3 & H4 & H5). exists own', x.
      split_and!; try done. lia.
    + assert (n0 = NDIRECT /\ fbn = NDIRECT) as [-> ->] by lia. rewrite (ai_noind _ _ _ _ _ Hi) in Ea by lia. injection Ea as <-.
      simpl (xint 0 =? 0). cbv iota. rewrite Z.ltb_irrefl in *. apply wp_bind.
      apply (wp_next_block own s (inum, -1)); [done|lia|]. intros Hs1 Hno Hsub. wsteps.
      pose proof (new_ind own s inum x Hs Hi ltac:(lia) Hno) as Hi2. set (own1 := <[freeblock s := (inum, -1)]> own) in *. set (x1 := set_addr _ _ _) in *.
      set (s1 := set_freeblock (freeblock s + 1) s) in *.
      eapply wp_mono; [apply (block_entry_spec own1 s1 inum x1 (freeblock s) NDIRECT NDIRECT Hs1 Hi2); [now left|lia|simpl; lia]|].
      intros r s' (own' & -> & H1 & [G1 G2 G3 G4 _] & H3 & H4 & H5). exists own', x1. split; [done|]. split; [done|].
      split; [|split; [simpl in H3; lia|split; [intros bn Hbn; unfold faddr; rewrite (proj2 (Z.ltb_lt _ _)) by lia; simpl; now rewrite list_lookup_insert_ne by lia|done]]].
      constructor; [done|now transitivity own1|done| |right; unfold x1; eauto]. intros b Hb Hlt. apply G4; [|simpl; lia].
      unfold own1. rewrite lookup_insert_ne; [done|]. intros <-. lia.
Qed.

(** *** Appending *)

Lemma div_block o : 0 <= o -> 0 <= o / BSIZE /\ o = BSIZE * (o / BSIZE) + o mod BSIZE /\ 0 <= o mod BSIZE < BSIZE.
Proof. intros H. unfold BSIZE. pose proof (Z.div_mod o 1024 ltac:(lia)). pose proof (Z.mod_pos_bound o 1024 ltac:(lia)). pose proof (Z.div_pos o 1024 H ltac:(lia)). lia. Qed.
Lemma nb_block o : 0 <= o -> nb o = if decide (o mod BSIZE = 0) then o / BSIZE else o / BSIZE + 1.
Proof.
  intros H. destruct (div_block o H) as (H1 & H2 & H3). unfold nb. change BSIZE with 1024 in *. destruct (decide _) as [E|E]; symmetry.
  - apply (Z.div_unique _ _ _ 1023); lia.
  - apply (Z.div_unique _ _ _ (o mod 1024 - 1)); lia.
Qed.
Lemma nb_size n : 0 <= n -> n <= BSIZE * nb n < n + BSIZE.
Proof. intros H. destruct (div_block n H) as (H1 & H2 & H3). rewrite nb_block by done. change BSIZE with 1024 in *. destruct (decide _); lia. Qed.
Lemma nb_within o len : 0 <= o -> 0 < len -> o mod BSIZE + len <= BSIZE -> nb (o + len) = o / BSIZE + 1.
Proof.
  intros H Hl Hb. destruct (div_block o H) as (H1 & H2 & H3). unfold nb. change BSIZE with 1024 in *. symmetry.
  apply (Z.div_unique _ _ _ (o mod 1024 + len - 1)); lia.
Qed.

Lemma write_bytes own s inum x off a d chunk : simg own s -> 0 <= off -> alloc_inv own (iview s) inum x (off / BSIZE + 1) ->
  a = faddr (iview s) x (off / BSIZE) -> img s !! a = Some d -> length d = 1024%nat -> off mod BSIZE + Z.of_nat (length chunk) <= BSIZE ->
  let s' := set_img (<[a := splice (Z.to_nat (off mod BSIZE)) chunk d]> (img s)) s in
  alloc_inv own (iview s') inum x (off / BSIZE + 1) /\
  forall o, 0 <= o < BSIZE * (off / BSIZE + 1) -> fbyte_of (iview s') x o =
    if decide (off <= o < off + Z.of_nat (length chunk)) then default 0 (chunk !! Z.to_nat (o - off)) else fbyte_of (iview s) x o.
Proof.
  intros Hs Hoff Hi Ea Hd Hl Hfit s'. destruct (div_block off Hoff) as (Hbn & Hdm & Hm).
  pose proof (ai_have _ _ _ _ _ Hi (off / BSIZE) ltac:(lia)) as Hown. rewrite <- Ea in Hown.
  assert (forall b, b <> a -> iview s' b = iview s b) as Hsame by (intros b Hb; unfold iview, s'; simpl; now rewrite lookup_insert_ne).
  assert (iview s' a = splice (Z.to_nat (off mod BSIZE)) chunk d) as Enew by (unfold iview, s'; simpl; now rewrite lookup_insert_eq).
  destruct (alloc_frame own own (iview s) (iview s') inum x _ Hi ltac:(done)) as [Hi' Hfa].
  { intros b Hb. apply Hsame. intros ->. rewrite Hown in Hb. injection Hb. lia. }
  split; [done|]. intros o Ho. destruct (div_block o ltac:(lia)) as (Ho1 & Ho2 & Ho3). change BSIZE with 1024 in Ho, Ho2, Ho3, Hdm, Hm, Hfit.
  unfold fbyte_of. rewrite Hfa by (change BSIZE with 1024; lia). destruct (decide (faddr (iview s) x (o / BSIZE) = a)) as [E|E].
  - pose proof (ai_have _ _ _ _ _ Hi (o / BSIZE) ltac:(change BSIZE with 1024; lia)) as H. rewrite E, Hown in H. injection H as H. change BSIZE with 1024 in H.
    rewrite E, Enew, (iview_lookup _ _ _ Hd), splice_lookup by (rewrite Hl; change BSIZE with 1024; lia). change BSIZE with 1024.
    destruct (decide (off <= o < off + Z.of_nat (length chunk))).
    + rewrite decide_True by lia. do 2 f_equal. lia.
    + rewrite decide_False by lia. done.
  - rewrite Hsame by done. rewrite decide_False; [done|]. intros H. apply E. rewrite Ea. f_equal. change BSIZE with 1024. nia.
Qed.

Lemma file_frame own own' v v' i x t c : file_at own v i x t c -> own ⊆ own' ->
  (forall b o, own !! b = Some (i, o) -> v' b = v b) -> file_at own' v' i x t c.
Proof.
  intros [H1 H2 H3 H4 H5 H6 H7] Ho Hv. destruct (alloc_frame own own' v v' i x _ H6 Ho) as [H6' Hfa]; [intros b; apply Hv|].
  constructor; try done. intros o Hb. rewrite <- H7 by done. destruct (div_block o ltac:(lia)) as (Ho1 & Ho2 & Ho3).
  assert (0 <= o / BSIZE < nb (Z.of_nat (length c))) as Hb' by (change BSIZE with 1024 in *; lia).
  unfold fbyte_of. rewrite Hfa by done. now rewrite (Hv _ _ (ai_have _ _ _ _ _ H6 _ Hb')).
Qed.

Definition weight (c : list Z) : Z := with_ind (nb (Z.of_nat (length c))).
Lemma with_ind_mono a b : a <= b -> with_ind a <= with_ind b.
Proof. unfold with_ind. intros H. destruct (Z.ltb_spec NDIRECT a), (Z.ltb_spec NDIRECT b); lia. Qed.
Lemma weight_mono c c' : (length c <= length c')%nat -> weight c <= weight c'.
Proof. intros H. apply with_ind_mono. unfold nb. apply Z.div_le_mono; lia. Qed.
Lemma weight_pos c : 0 <= weight c.
Proof. unfold weight, with_ind, nb. assert (0 <= (Z.of_nat (length c) + 1023) / 1024) by (apply Z.div_pos; lia). destruct (_ <? _); lia. Qed.
Lemma need_cons f fs : need (f :: fs) = weight f.2 + need fs.
Proof. done. Qed.
Lemma need_app fs gs : need (fs ++ gs) = need fs + need gs.
Proof. induction fs as [|f fs IH]; [done|]. simpl app. rewrite !need_cons, IH. lia. Qed.
Lemma need_insert fs j f g : fs !! j = Some f -> need (<[j := g]> fs) = need fs - weight f.2 + weight g.2.
Proof.
  revert j. induction fs as [|h fs IH]; intros [|j] Hj; simplify_eq/=; [rewrite !need_cons; lia|]. rewrite !need_cons. rewrite (IH j Hj). lia.
Qed.

(** The dinodes with that of file [j] replaced. *)
Definition upd (dn : nat -> dinode) (j : nat) (y : dinode) : nat -> dinode := fun k => if decide (k = j) then y else dn k.
Lemma upd_eq dn j y : upd dn j y j = y.
Proof. unfold upd. now rewrite decide_True. Qed.
Lemma upd_ne dn j y k : k <> j -> upd dn j y k = dn k.
Proof. intros H. unfold upd. now rewrite decide_False. Qed.
Definition low (s s' : mkst) : Prop := forall b, b < nmeta -> img s' !! b = img s !! b.


Lemma grown_typed inum own own' s s' x x' v k m n : grown inum own own' s s' x x' -> dinode_typed (set_size m x) -> alloc_inv own' v inum x' k -> word n ->
  dinode_typed (set_size n x') /\ d_type x' = d_type x /\ d_nlink x' = d_nlink x.
Proof.
  intros [_ _ _ _ [->|(j & a & ->)]] [T1 T2 T3 T4 T5 T6 T7] Ha Hn; (split; [|done]); constructor; try done; apply Ha.
Qed.

Lemma alloc_size own v i x n m : alloc_inv own v i (set_size m x) n <-> alloc_inv own v i x n.
Proof. split; intros []; constructor; done. Qed.

(** One block's worth of data, [file_block] done. *)
Lemma iappend_step own fs dn j t c own1 s s1 x x1 a d chunk :
  core own (<[j := (t, c)]> fs) (upd dn j (set_size (Z.of_nat (length c)) x)) s -> (j < length fs)%nat ->
  let off := Z.of_nat (length c) in
  (forall bn, 0 <= bn < nb off -> faddr (iview s1) x1 bn = faddr (iview s) x bn) ->
  0 < Z.of_nat (length chunk) -> off mod BSIZE + Z.of_nat (length chunk) <= BSIZE -> off + Z.of_nat (length chunk) <= MAXFILE * BSIZE ->
  alloc_inv own1 (iview s1) (1 + Z.of_nat j) x1 (off / BSIZE + 1) -> grown (1 + Z.of_nat j) own own1 s s1 x x1 ->
  freeblock s1 = freeblock s + (with_ind (off / BSIZE + 1) - with_ind (nb off)) -> (nb off = off / BSIZE -> iview s1 a = zero_block) ->
  a = faddr (iview s1) x1 (off / BSIZE) -> img s1 !! a = Some d -> length d = 1024%nat ->
  let s' := set_img (<[a := splice (Z.to_nat (off mod BSIZE)) chunk d]> (img s1)) s1 in
  core own1 (<[j := (t, c ++ chunk)]> fs) (upd dn j (set_size (Z.of_nat (length (c ++ chunk))) x1)) s' /\ low s s'.
Proof.
  intros Hco Hj off Hfa Hlen Hfit Hmax Hal Hgr Hfb Hzero Ea Hd Hld s'. destruct Hco as [Hsi Hcfb Hfi Hmany Hfile].
  destruct (lookup_lt_is_Some_2 fs j Hj) as [f0 Ef0]. pose proof (Hfile j t c ltac:(now rewrite list_lookup_insert_eq)) as [F1 F2 F3 F4 F5 F6 F7].
  rewrite upd_eq in *. destruct (div_block off ltac:(lia)) as (Hbn & Hdm & Hm).
  pose proof (ai_have _ _ _ _ _ Hal (off / BSIZE) ltac:(lia)) as Hown. rewrite <- Ea in Hown.
  destruct (owned_img _ _ _ _ (gr_img _ _ _ _ _ _ _ Hgr) Hown) as (_ & _ & _ & Ha).
  destruct (write_bytes own1 s1 (1 + Z.of_nat j) x1 off a d chunk (gr_img _ _ _ _ _ _ _ Hgr) ltac:(lia) Hal Ea Hd Hld Hfit) as [Hal' Hfb'].
  assert (simg own1 s') as Hs' by (apply simg_write; [apply Hgr|lia|rewrite splice_length; lia]).
  assert (length (c ++ chunk) = (length c + length chunk)%nat) as Elen by apply length_app.
  assert (forall i o b, own !! b = Some (i, o) -> o <> -1 \/ i <> 1 + Z.of_nat j -> iview s1 b = iview s b) as Hkeep.
  { intros i o b Hb Hne. unfold iview. rewrite (gr_same _ _ _ _ _ _ _ Hgr); [done| |now apply (si_own _ _ Hsi) in Hb].
    rewrite Hb. intros [= -> ->]. lia. }
  assert (forall o, 0 <= o < BSIZE * (off / BSIZE + 1) -> fbyte_of (iview s1) x1 o = default 0 (c !! Z.to_nat o)) as Eold.
  { intros o Ho. destruct (div_block o ltac:(lia)) as (Ho1 & Ho2 & Ho3). change BSIZE with 1024 in Ho, Ho2, Ho3, Hdm, Hm. unfold fbyte_of.
    destruct (Z_lt_ge_dec (o / BSIZE) (nb off)) as [Hlt|Hge].
    - rewrite Hfa by lia. pose proof (ai_have _ _ _ _ _ F6 (o / BSIZE) ltac:(fold off; lia)) as Hob.
      change (faddr ?v (set_size ?m ?y)) with (faddr v y) in Hob. rewrite (Hkeep _ _ _ Hob) by lia.
      specialize (F7 o). fold off in F7. rewrite <- F7; [done|]. change BSIZE with 1024 in *. lia.
    - assert (nb off = off / BSIZE /\ o / BSIZE = off / BSIZE /\ off mod BSIZE = 0) as (En & Eo & Em).
      { rewrite nb_block in * by lia. change BSIZE with 1024 in *. destruct (decide _); lia. }
      rewrite Eo, <- Ea, Hzero by done. replace (zero_block !! Z.to_nat (o mod BSIZE)) with (Some 0).
      + rewrite lookup_ge_None_2; [done|]. change BSIZE with 1024 in *. lia.
      + symmetry. apply lookup_replicate. split; [done|]. change BSIZE with 1024 in *. lia. }
  split.
  - constructor; [done| | |now rewrite length_insert in *|].
    + simpl. rewrite Hfb, Hcfb, !(need_insert _ _ _ _ Ef0). simpl. unfold weight. rewrite Elen, Nat2Z.inj_add. fold off. rewrite nb_within by lia. lia.
    + simpl. rewrite (gr_fi _ _ _ _ _ _ _ Hgr), Hfi. now rewrite !length_insert.
    + intros k t' c' Hk. destruct (decide (k = j)) as [->|Hne].
      * rewrite list_lookup_insert_eq in Hk by done. injection Hk as <- <-. rewrite upd_eq.
        destruct (grown_typed _ _ _ _ _ _ _ _ _ _ (Z.of_nat (length (c ++ chunk))) Hgr F1 Hal') as (T & Et & En).
        { unfold word. rewrite Elen. change (MAXFILE * BSIZE) with 274432 in *. lia. }
        constructor; [done|now rewrite <- F2|now rewrite <- F3|done|rewrite Elen; lia| |].
        -- rewrite Elen, Nat2Z.inj_add. fold off. rewrite nb_within by lia. now apply alloc_size.
        -- rewrite Elen, Nat2Z.inj_add. fold off. rewrite nb_within by lia. intros o Ho.
           etransitivity; [exact (Hfb' o Ho)|]. destruct (decide _) as [Hin|Hout].
           ++ rewrite lookup_app_r by lia. do 2 f_equal. lia.
           ++ rewrite Eold by done. destruct (Z_lt_ge_dec o off) as [Hlt|Hge]; [now rewrite lookup_app_l by lia|].
              rewrite !lookup_ge_None_2; [done|rewrite Elen; lia|lia].
      * rewrite list_lookup_insert_ne in Hk by done. rewrite upd_ne by done.
        pose proof (Hfile k t' c') as Hf. rewrite list_lookup_insert_ne, upd_ne in Hf by done. specialize (Hf Hk).
        eapply file_frame; [exact Hf|apply Hgr|]. intros b o Hb.
        assert (b <> a) as Hba. { intros ->. apply (lookup_weaken _ own1) in Hb; [|apply Hgr]. rewrite Hown in Hb. injection Hb. lia. }
        unfold iview, s'. simpl. rewrite lookup_insert_ne by done. apply (Hkeep _ _ _ Hb). right. lia.
  - intros b Hb. unfold s'. simpl. rewrite nmeta_eq in Hb. rewrite lookup_insert_ne by lia.
    apply (gr_same _ _ _ _ _ _ _ Hgr); [|pose proof (si_fb _ _ Hsi) as H; rewrite nmeta_eq in H; lia].
    intros H. apply (si_own _ _ Hsi) in H. rewrite nmeta_eq in H. lia.
Qed.

Lemma iappend_loop_spec fs dn j t : (j < length fs)%nat -> forall fuel p c own s x,
  core own (<[j := (t, c)]> fs) (upd dn j (set_size (Z.of_nat (length c)) x)) s -> (length p <= fuel)%nat ->
  need (<[j := (t, c ++ p)]> fs) <= FSSIZE - nmeta -> Z.of_nat (length (c ++ p)) <= MAXFILE * BSIZE ->
  wp (iappend_loop fuel p (Z.of_nat (length c)) x) (fun r s' => exists own' x', r = (Z.of_nat (length (c ++ p)), x') /\
    core own' (<[j := (t, c ++ p)]> fs) (upd dn j (set_size (Z.of_nat (length (c ++ p))) x')) s' /\ low s s') s.
Proof.
  intros Hj. induction fuel as [|fuel IH]; intros p c own s x Hco Hf Hneed Hmax.
  - destruct p as [|b p]; simpl in Hf; [|lia]. rewrite app_nil_r in *. simpl. wsteps. exists own, x. done.
  - destruct p as [|b p]; [rewrite app_nil_r in *; simpl; wsteps; exists own, x; done|].
    set (P := b :: p) in *. change (iappend_loop (S fuel) P ?o ?y) with (
      do! check (o / BSIZE <? MAXFILE) "assert";
      let! r := file_block (o / BSIZE) y in
      let '(x, din) := r in
      let n1 := Z.min (Z.of_nat (length P)) ((o / BSIZE + 1) * BSIZE - o) in
      let! buf := rsect x in
      do! wsect x (splice (Z.to_nat (o - o / BSIZE * BSIZE)) (take (Z.to_nat n1) P) buf);
      iappend_loop fuel (drop (Z.to_nat n1) P) (o + n1) din).
    set (off := Z.of_nat (length c)). destruct (div_block off ltac:(lia)) as (Hbn & Hdm & Hm).
    assert (0 < Z.of_nat (length P)) as HP by (simpl; lia). rewrite length_app, Nat2Z.inj_add in Hmax. fold off in Hmax.
    change (MAXFILE * BSIZE) with 274432 in *. assert (MAXFILE = 268) as EM by reflexivity. change BSIZE with 1024 in Hm, Hdm.
    destruct (lookup_lt_is_Some_2 fs j Hj) as [f0 Ef0].
    pose proof (co_file _ _ _ _ Hco j t c ltac:(now rewrite list_lookup_insert_eq)) as Hfa. rewrite upd_eq in Hfa.
    set (n1 := Z.min (Z.of_nat (length P)) ((off / BSIZE + 1) * BSIZE - off)). set (chunk := take (Z.to_nat n1) P).
    assert (0 < n1 /\ n1 <= Z.of_nat (length P) /\ off mod BSIZE + n1 <= BSIZE) as (Hn1 & Hn1' & Hfit) by (unfold n1; change BSIZE with 1024; lia).
    assert (Z.of_nat (length chunk) = n1) as Ech by (unfold chunk; rewrite length_take; lia).
    assert (with_ind (off / BSIZE + 1) = weight (c ++ chunk)) as Ew.
    { unfold weight. rewrite length_app, Nat2Z.inj_add, Ech. fold off. now rewrite nb_within by lia. }
    wsteps; [apply Z.ltb_lt; lia|].
    eapply wp_mono; [apply (file_block_spec own s (1 + Z.of_nat j) x (off / BSIZE) (nb off))|].
    + apply Hco.
    + exact (proj1 (alloc_size _ _ _ _ _ _) (fa_alloc _ _ _ _ _ _ Hfa)).
    + rewrite nb_block by lia. destruct (decide _); auto.
    + lia.
    + rewrite Ew, (co_fb _ _ _ _ Hco), (need_insert _ _ _ _ Ef0). simpl. unfold weight at 2. fold off. rewrite (need_insert _ _ _ _ Ef0) in Hneed. simpl in Hneed.
      assert (weight (c ++ chunk) <= weight (c ++ P)) by (apply weight_mono; rewrite !length_app; lia). lia.
    + intros r s1 (own1 & x1 & -> & Hal & Hgr & Hfb & Hfadr & Hzero).
      pose proof (ai_have _ _ _ _ _ Hal (off / BSIZE) ltac:(lia)) as Hown.
      destruct (owned_img _ _ _ _ (gr_img _ _ _ _ _ _ _ Hgr) Hown) as (d & Hd & Hld & _).
      cbv zeta. apply wp_bind, (wp_rsect _ d); [done|]. wsteps. apply wp_wsect.
      replace (off - off / BSIZE * BSIZE) with (off mod BSIZE) by (change BSIZE with 1024; lia). fold n1. fold chunk.
      assert (off + Z.of_nat (length chunk) <= MAXFILE * BSIZE) as Hmax' by (change (MAXFILE * BSIZE) with 274432; lia).
      destruct (iappend_step own fs dn j t c own1 s s1 x x1 _ d chunk Hco Hj Hfadr ltac:(lia) ltac:(fold off; lia) Hmax' Hal Hgr Hfb Hzero eq_refl Hd Hld) as [Hco' Hlow].
      assert (off + n1 = Z.of_nat (length (c ++ chunk))) as -> by (rewrite length_app; lia).
      assert ((c ++ chunk) ++ drop (Z.to_nat n1) P = c ++ P) as Eapp by (rewrite <- app_assoc; unfold chunk; now rewrite take_drop).
      eapply wp_mono; [apply (IH _ _ own1 _ x1 Hco')|].
      * rewrite length_drop. simpl in *. lia.
      * now rewrite Eapp.
      * rewrite Eapp, length_app, Nat2Z.inj_add. fold off. change (MAXFILE * BSIZE) with 274432. lia.
      * rewrite Eapp. intros r s2 (own2 & x2 & -> & Hco2 & Hlow2). exists own2, x2. split; [done|]. split; [done|].
        intros b' Hb'. rewrite Hlow2 by done. now apply Hlow.
Qed.

(** *** Inodes *)

Lemma core_ext own fs dn dn' s : (forall j, (j < length fs)%nat -> dn' j = dn j) -> core own fs dn s -> core own fs dn' s.
Proof.
  intros H [H1 H2 H3 H4 H5]. constructor; try done. intros j t c Hj. rewrite H by (now apply lookup_lt_Some in Hj). now apply H5.
Qed.

Lemma iblock_range inum : 1 <= inum <= 200 -> IBLOCK inum msb = inum / 16 + 33 /\ 33 <= IBLOCK inum msb < 46.
Proof.
  intros H. unfold IBLOCK. change (sb_inodestart msb) with 33. change IPB with 16.
  pose proof (Z.div_mod inum 16 ltac:(lia)). pose proof (Z.mod_pos_bound inum 16 ltac:(lia)). rewrite u32_small by lia. lia.
Qed.
Lemma islot_other x y : 1 <= x <= 200 -> 1 <= y <= 200 -> x <> y -> IBLOCK x msb = IBLOCK y msb ->
  (islot x + 64 <= islot y \/ islot y + 64 <= islot x)%nat.
Proof.
  intros Hx Hy Hne E. destruct (iblock_range x Hx) as [Ex _], (iblock_range y Hy) as [Ey _]. unfold islot. change IPB with 16.
  pose proof (Z.div_mod x 16 ltac:(lia)). pose proof (Z.div_mod y 16 ltac:(lia)).
  pose proof (Z.mod_pos_bound x 16 ltac:(lia)). pose proof (Z.mod_pos_bound y 16 ltac:(lia)). lia.
Qed.

(** The boot block, the super block and the log are left alone. *)
Definition same_meta (s s' : mkst) : Prop := forall b, b < 33 -> img s' !! b = img s !! b.

Lemma winode_spec own s inum y : simg own s -> 1 <= inum <= 200 -> dinode_typed y ->
  wp (winode inum y) (fun _ s' => simg own s' /\ freeblock s' = freeblock s /\ freeinode s' = freeinode s /\
    (forall b, b <> IBLOCK inum msb -> img s' !! b = img s !! b) /\ din_of (iview s') inum = y /\
    forall k, 1 <= k <= 200 -> k <> inum -> din_of (iview s') k = din_of (iview s) k) s.
Proof.
  intros Hs Hi Hy. destruct (iblock_range inum Hi) as [Eb Hb]. pose proof (si_fb _ _ Hs) as Hfb. rewrite nmeta_eq in Hfb. assert (FSSIZE = 2000) as EF by reflexivity.
  destruct (si_img _ _ Hs (IBLOCK inum msb) ltac:(lia)) as (d & Hd & Hl). unfold winode. wsteps. apply (wp_rsect _ d); [done|]. apply wp_wsect.
  split; [apply simg_write; [done|lia|now rewrite put_dinode_length]|]. split; [done|]. split; [done|]. split; [|split].
  - intros b Hne. simpl. now rewrite lookup_insert_ne.
  - unfold din_of, iview. simpl. rewrite lookup_insert_eq. simpl. apply get_put_dinode; [done|]. rewrite Hl. apply islot_bound.
  - intros k Hk Hne. unfold din_of. destruct (decide (IBLOCK k msb = IBLOCK inum msb)) as [E|E].
    + rewrite E. unfold iview. simpl. rewrite lookup_insert_eq, Hd. simpl. apply get_put_dinode_ne; [apply Hy|].
      destruct (islot_other k inum Hk Hi Hne E); auto.
    + unfold iview. simpl. now rewrite lookup_insert_ne.
Qed.

Lemma core_frame own fs dn s s' : core own fs dn s -> simg own s' -> freeblock s' = freeblock s -> freeinode s' = freeinode s ->
  (forall b o, own !! b = Some o -> img s' !! b = img s !! b) -> core own fs dn s'.
Proof.
  intros [H1 H2 H3 H4 H5] Hs Efb Efi Hsame. constructor; [done|congruence|congruence|done|].
  intros j t c Hj. eapply file_frame; [now apply H5|done|]. intros b o Hb. unfold iview. now rewrite (Hsame _ _ Hb).
Qed.

Lemma iappend_spec own fs s j t c p : minv own fs s -> fs !! j = Some (t, c) ->
  need (<[j := (t, c ++ p)]> fs) <= FSSIZE - nmeta -> Z.of_nat (length (c ++ p)) <= MAXFILE * BSIZE ->
  wp (iappend (1 + Z.of_nat j) p) (fun _ s' => exists own', minv own' (<[j := (t, c ++ p)]> fs) s' /\ same_meta s s') s.
Proof.
  intros Hm Hj Hneed Hmax. pose proof (lookup_lt_Some _ _ _ Hj) as Hlt. pose proof (co_many _ _ _ _ Hm) as Hmany. unfold NINODES in Hmany.
  destruct (iblock_range (1 + Z.of_nat j) ltac:(lia)) as [_ Hib]. pose proof (co_img _ _ _ _ Hm) as Hs. pose proof (si_fb _ _ Hs) as Hfb. rewrite nmeta_eq in Hfb.
  destruct (si_img _ _ Hs (IBLOCK (1 + Z.of_nat j) msb)) as (d & Hd & _); [assert (FSSIZE = 2000) by reflexivity; lia|].
  pose proof (co_file _ _ _ _ Hm j t c Hj) as Hf. set (dn := fun j => din_of (iview s) (1 + Z.of_nat j)). set (x := dn j).
  assert (set_size (Z.of_nat (length c)) x = x) as Ex by (unfold x, dn; destruct Hf as [_ _ _ E _ _ _]; rewrite <- E; now destruct (din_of _ _)).
  unfold iappend, rinode. wsteps. apply (wp_rsect _ d); [done|]. wsteps. rewrite <- (iview_lookup _ _ _ Hd).
  change (get_dinode (iview s (IBLOCK (1 + Z.of_nat j) msb)) (islot (1 + Z.of_nat j))) with x.
  assert (d_size x = Z.of_nat (length c)) as -> by apply Hf.
  assert (Z.of_nat (length c) <= 274432) as Hc by (pose proof (fa_max _ _ _ _ _ _ Hf) as H; change (MAXFILE * BSIZE) with 274432 in H; lia).
  rewrite xint_small by lia. eapply wp_mono; [apply (iappend_loop_spec fs dn j t Hlt (length p) p c own s x)|].
  - rewrite list_insert_id by done. apply (core_ext _ _ dn); [|exact Hm]. intros k _. rewrite Ex. unfold upd. destruct (decide (k = j)) as [->|]; done.
  - lia.
  - done.
  - done.
  - intros r s1 (own1 & x1 & -> & Hco & Hlow). cbn [fst snd]. change (MAXFILE * BSIZE) with 274432 in Hmax. rewrite xint_small by lia.
    pose proof (co_file _ _ _ _ Hco j t (c ++ p) ltac:(now rewrite list_lookup_insert_eq)) as Hf1. rewrite upd_eq in Hf1.
    eapply wp_mono; [apply (winode_spec own1); [apply Hco|lia|apply Hf1]|]. intros [] s2 (Hs2 & Efb & Efi & Hsame & Ej & Hk).
    exists own1. split.
    + apply (core_ext _ _ (upd dn j (set_size (Z.of_nat (length (c ++ p))) x1))).
      * intros k Hk'. rewrite length_insert in Hk'. unfold upd. destruct (decide (k = j)) as [->|Hne]; [done|]. rewrite Hk by lia.
        unfold dn, din_of. assert (iview s1 (IBLOCK (1 + Z.of_nat k) msb) = iview s (IBLOCK (1 + Z.of_nat k) msb)) as ->; [|done].
        unfold iview. rewrite Hlow; [done|]. destruct (iblock_range (1 + Z.of_nat k) ltac:(lia)) as [_ H]. rewrite nmeta_eq. lia.
      * apply (core_frame _ _ _ s1); try done. intros b o Hb. apply Hsame. intros ->. apply (si_own _ _ Hs2) in Hb. rewrite nmeta_eq in Hb. lia.
    + intros b Hb. rewrite Hsame by lia. apply Hlow. rewrite nmeta_eq. lia.
Qed.

Lemma ialloc_spec own fs s t : minv own fs s -> Z.of_nat (length fs) < NINODES - 1 -> 0 <= t < 32768 ->
  wp (ialloc t) (fun r s' => r = 1 + Z.of_nat (length fs) /\ minv own (fs ++ [(t, [])]) s' /\ same_meta s s') s.
Proof.
  intros Hm Hlen Ht. unfold NINODES in Hlen. pose proof (co_fi _ _ _ _ Hm) as Efi. unfold ialloc. wsteps. rewrite Efi, u32_small by lia.
  rewrite !xshort_small, xint_small by lia. set (s0 := set_freeinode _ s). set (y := Dinode t 0 0 1 0 (replicate 13 0)).
  assert (dinode_typed y) as Hy by (constructor; try (unfold short, word; simpl; lia); apply Forall_replicate; unfold word; lia).
  assert (simg own s0) as Hs0 by (destruct (co_img _ _ _ _ Hm); constructor; done).
  destruct (iblock_range (1 + Z.of_nat (length fs)) ltac:(lia)) as [_ Hib].
  eapply wp_mono; [apply (winode_spec own s0 _ y Hs0); [lia|done]|]. intros [] s1 (Hs1 & Efb & Efi1 & Hsame & Ej & Hk). wsteps.
  split; [done|]. split; [|intros b Hb; apply Hsame; lia].
  assert (core own fs (fun j => din_of (iview s) (1 + Z.of_nat j)) s) as Hco by exact Hm.
  constructor; [done|rewrite need_app, Efb; change (need [(t, [])]) with 0; simpl; rewrite (co_fb _ _ _ _ Hm); lia|rewrite Efi1, length_app; simpl; lia|rewrite length_app; unfold NINODES; simpl; lia|].
  intros j t' c Hj. apply lookup_snoc_Some in Hj as [[Hlt Hj]|[-> [= <- <-]]].
  - rewrite Hk by lia. eapply file_frame; [apply (co_file _ _ _ _ Hm j t' c Hj)|done|]. intros b o Hb. unfold iview. rewrite Hsame; [done|].
    intros ->. apply (si_own _ _ (co_img _ _ _ _ Hm)) in Hb. rewrite nmeta_eq in Hb. lia.
  - rewrite Ej. constructor; try done; [|intros o Ho; change (nb (Z.of_nat (length (@nil Z)))) with 0 in Ho; lia]. change (nb (Z.of_nat (length (@nil Z)))) with 0. assert (MAXFILE = 268) by reflexivity.
    constructor; try done; try lia; [apply Hy|]. intros bn H0 Hb. apply lookup_replicate. split; [done|]. lia.
Qed.

(** *** The files of the command line *)

Lemma same_meta_trans s1 s2 s3 : same_meta s1 s2 -> same_meta s2 s3 -> same_meta s1 s3.
Proof. intros H1 H2 b Hb. rewrite H2 by done. now apply H1. Qed.

Lemma chunks_spec chunks : forall own fs s j t c, minv own fs s -> fs !! j = Some (t, c) ->
  need (<[j := (t, c ++ concat chunks)]> fs) <= FSSIZE - nmeta -> Z.of_nat (length (c ++ concat chunks)) <= MAXFILE * BSIZE ->
  wp (foldr (fun p k => do! iappend (1 + Z.of_nat j) p; k) (ret tt) chunks)
    (fun _ s' => exists own', minv own' (<[j := (t, c ++ concat chunks)]> fs) s' /\ same_meta s s') s.
Proof.
  induction chunks as [|p chunks IH]; intros own fs s j t c Hm Hj Hneed Hmax; simpl in *.
  - wsteps. rewrite app_nil_r, list_insert_id by done. exists own. done.
  - pose proof (lookup_lt_Some _ _ _ Hj) as Hlt. rewrite app_assoc in *. wsteps. eapply wp_mono; [apply (iappend_spec own fs s j t c p Hm Hj)|].
    + rewrite (need_insert _ _ _ _ Hj). rewrite (need_insert _ _ _ _ Hj) in Hneed. simpl in *. assert (weight (c ++ p) <= weight ((c ++ p) ++ concat chunks)) by (apply weight_mono; rewrite (length_app (c ++ p)); lia). lia.
    + rewrite (length_app (c ++ p)) in Hmax. lia.
    + intros [] s1 (own1 & Hm1 & Hs1). eapply wp_mono; [apply (IH own1 _ s1 j t (c ++ p) Hm1)|].
      * now apply list_lookup_insert_eq.
      * now rewrite list_insert_insert_eq.
      * done.
      * rewrite list_insert_insert_eq. intros [] s2 (own2 & Hm2 & Hs2). exists own2. split; [done|]. eapply same_meta_trans; eauto.
Qed.

(** The abstract file system: the root directory first. *)
Definition add_abs (fs : list (Z * list Z)) (f : list Z * list Z) : list (Z * list Z) :=
  match fs with
  | (t, es) :: rest => ((t, es ++ dir_entry (1 + Z.of_nat (length fs)) f.1) :: rest) ++ [(T_FILE, f.2)]
  | [] => []
  end.
Definition empty_fs : list (Z * list Z) := [(T_DIR, dir_entry 1 (str ".") ++ dir_entry 1 (str ".."))].
Definition built (files : list (list Z * list Z)) : list (Z * list Z) := foldl add_abs empty_fs files.

(** The name a file has in the image, and when it can be built. *)
Definition image_name (argv : list Z) : list Z :=
  let shortname := if strncmp_l 5 argv (str "user/") =? 0 then drop 5 argv else argv in
  if bool_decide (take 1 shortname = [95]) then drop 1 shortname else shortname.
Definition file_ready (f : hostfile) (g : list Z * list Z) : Prop :=
  exists chunks, f.2 = Some chunks /\ g = (image_name f.1, concat chunks) /\
    (47 ∉ (if strncmp_l 5 f.1 (str "user/") =? 0 then drop 5 f.1 else f.1)) /\
    Z.of_nat (length (image_name f.1)) <= DIRSIZ /\ Z.of_nat (length (concat chunks)) <= MAXFILE * BSIZE.

Lemma dir_entry_length i n : length (dir_entry i n) = 16%nat.
Proof. unfold dir_entry, put_dirent. cbn [de_inum de_name]. rewrite length_app, le_set_length, strncpy_l_length. reflexivity. Qed.

Definition root_length (fs : list (Z * list Z)) : Prop :=
  exists es rest, fs = (T_DIR, es) :: rest /\ length es = (16 + 16 * length fs)%nat.
Lemma empty_root : root_length empty_fs.
Proof. exists (dir_entry 1 (str ".") ++ dir_entry 1 (str "..")), []. split; [done|]. rewrite length_app, !dir_entry_length. simpl. lia. Qed.
Lemma add_root fs f : root_length fs -> root_length (add_abs fs f) /\ length (add_abs fs f) = S (length fs) /\ need fs <= need (add_abs fs f).
Proof.
  intros (es & rest & -> & Hl). simpl. split.
  - eexists _, _. split; [reflexivity|]. rewrite length_app, dir_entry_length, Hl. simpl. rewrite length_app. simpl. lia.
  - split; [rewrite length_app; simpl; lia|]. rewrite !need_cons, need_app. simpl. pose proof (weight_pos f.2).
    change (need [(T_FILE, f.2)]) with (weight f.2 + 0).
    match goal with |- weight es + _ <= weight ?e + _ => assert (weight es <= weight e) by (apply weight_mono; rewrite length_app; lia) end. lia.
Qed.
Lemma built_grows files : forall fs, root_length fs -> need fs <= need (foldl add_abs fs files) /\
  root_length (foldl add_abs fs files) /\ length (foldl add_abs fs files) = (length fs + length files)%nat.
Proof.
  induction files as [|f files IH]; intros fs Hr; simpl; [split; [lia|]; split; [done|lia]|]. destruct (add_root fs f Hr) as (Hr' & Hl & Hn).
  destruct (IH _ Hr') as (H1 & H2 & H3). split; [lia|]. split; [done|lia].
Qed.

Lemma add_file_spec own fs s f g : minv own fs s -> root_length fs -> file_ready f g -> Z.of_nat (length fs) < 199 ->
  need (add_abs fs g) <= FSSIZE - nmeta ->
  wp (add_file 1 f) (fun _ s' => exists own', minv own' (add_abs fs g) s' /\ same_meta s s') s.
Proof.
  intros Hm (es & rest & -> & Hes) (chunks & Hf & -> & Hslash & Hname & Hmax) Hlen Hneed. destruct f as [argv data].
  cbn [fst snd] in Hf, Hslash, Hname. subst data.
  unfold add_file. fold (image_name argv). rewrite bool_decide_eq_false_2 by done. cbn [negb].
  wsteps; [done|now apply Z.leb_le|]. set (fs := (T_DIR, es) :: rest) in *.
  eapply wp_mono; [apply (ialloc_spec own fs s T_FILE Hm); [unfold NINODES; lia|split; reflexivity || discriminate]|].
  intros inum s1 (-> & Hm1 & Hs1). wsteps. cbn [add_abs fst snd] in *. fold fs in Hneed |- *.
  set (e := dir_entry (1 + Z.of_nat (length fs)) (image_name argv)) in *. set (root := (T_DIR, es ++ e)) in *.
  assert (weight [] = 0) as W0 by reflexivity.
  assert (length (root :: rest) = length fs) as El by reflexivity.
  change (need ((root :: rest) ++ [(T_FILE, concat chunks)]) <= FSSIZE - nmeta) in Hneed.
  rewrite need_app in Hneed. change (need [(T_FILE, concat chunks)]) with (weight (concat chunks) + 0) in Hneed. pose proof (weight_pos (concat chunks)) as Hw.
  eapply wp_mono; [apply (iappend_spec own (fs ++ [(T_FILE, [])]) s1 0 T_DIR es e Hm1 eq_refl)|].
  - change (<[0%nat := (T_DIR, es ++ e)]> (fs ++ [(T_FILE, [])])) with ((root :: rest) ++ [(T_FILE, [])]). rewrite need_app.
    change (need [(T_FILE, [])]) with 0. lia.
  - unfold e. rewrite length_app, dir_entry_length, Hes. change (MAXFILE * BSIZE) with 274432. lia.
  - change (<[0%nat := (T_DIR, es ++ e)]> (fs ++ [(T_FILE, [])])) with ((root :: rest) ++ [(T_FILE, [])]).
    intros [] s2 (own2 & Hm2 & Hs2).
    eapply wp_mono; [apply (chunks_spec chunks own2 _ s2 (length fs) T_FILE [] Hm2)|].
    + rewrite <- El. now apply list_lookup_middle.
    + rewrite <- El. rewrite (need_insert _ _ (T_FILE, [])) by (now apply list_lookup_middle). rewrite need_app.
      change (need [(T_FILE, [])]) with 0. cbn [snd app]. rewrite W0. lia.
    + exact Hmax.
    + intros [] s3 (own3 & Hm3 & Hs3). exists own3. rewrite <- El in Hm3. rewrite insert_app_r_alt, Nat.sub_diag in Hm3 by done.
      split; [exact Hm3|]. eapply same_meta_trans; [|exact Hs3]. eapply same_meta_trans; eauto.
Qed.

Lemma files_spec files gs : Forall2 file_ready files gs -> forall own fs s, minv own fs s -> root_length fs ->
  Z.of_nat (length fs + length gs) <= 199 -> need (foldl add_abs fs gs) <= FSSIZE - nmeta ->
  wp (foldr (fun f k => do! add_file 1 f; k) (ret tt) files) (fun _ s' => exists own', minv own' (foldl add_abs fs gs) s' /\ same_meta s s') s.
Proof.
  induction 1 as [|f g files gs Hf _ IH]; intros own fs s Hm Hr Hlen Hneed; simpl in *; [wsteps; exists own; done|].
  destruct (add_root fs g Hr) as (Hr' & Hl & _). destruct (built_grows gs _ Hr') as (Hg & _). wsteps.
  eapply wp_mono; [apply (add_file_spec own fs s f g Hm Hr Hf); lia|]. intros [] s1 (own1 & Hm1 & Hs1).
  eapply wp_mono; [apply (IH own1 _ s1 Hm1 Hr'); [lia|done]|]. intros [] s2 (own2 & Hm2 & Hs2). exists own2. split; [done|].
  eapply same_meta_trans; eauto.
Qed.

(** *** The whole image *)

Lemma zero_loop l : forall s, wp (foldr (fun i k => do! wsect i zero_block; k) (ret tt) l) (fun _ s' =>
  freeinode s' = freeinode s /\ freeblock s' = freeblock s /\
  forall b, img s' !! b = if decide (b ∈ l) then Some zero_block else img s !! b) s.
Proof.
  induction l as [|i l IH]; intros s; cbn [foldr]; [wsteps; split; [done|]; split; [done|]; intros b; now rewrite decide_False by apply not_elem_of_nil|].
  wsteps. apply wp_wsect. eapply wp_mono; [apply IH|]. intros [] s' (H1 & H2 & H3). split; [done|]. split; [done|]. intros b. rewrite H3. simpl.
  destruct (decide (b ∈ l)) as [Hin|Hin]; [rewrite decide_True; [done|now right]|].
  destruct (decide (b = i)) as [->|Hne]; [rewrite lookup_insert_eq, decide_True; [done|left]|].
  rewrite lookup_insert_ne, decide_False; [done| |done]. rewrite elem_of_cons. tauto.
Qed.

Lemma bit_one m : Z.testbit 1 m = (m =? 0).
Proof. destruct (Z.eqb_spec m 0) as [->|Hne]; [done|]. destruct (Z_lt_ge_dec m 0); [now apply Z.testbit_neg_r|]. apply (Z.bits_above_log2 1); [lia|]. simpl. lia. Qed.
Lemma set_bits_length n l : length (set_bits n l) = length l.
Proof. induction n as [|n IH]; simpl; [done|]. now rewrite length_insert. Qed.
Lemma set_bits_spec n i : Z.of_nat n <= 8192 -> Z.of_nat i < 8192 ->
  Z.testbit (default 0 (set_bits n zero_block !! (i / 8)%nat)) (Z.of_nat (i mod 8)) = (i <? n)%nat.
Proof.
  intros Hn Hi. assert (length zero_block = 1024%nat) as Hz by (unfold zero_block; apply length_replicate).
  pose proof (Nat.div_mod_eq i 8) as Di. pose proof (Nat.mod_upper_bound i 8 ltac:(lia)) as Mi.
  assert (i / 8 < 1024)%nat as Hi8 by lia.
  induction n as [|n IH].
  - simpl set_bits. unfold zero_block. rewrite lookup_replicate_2 by exact Hi8. simpl. now rewrite Z.bits_0.
  - specialize (IH ltac:(lia)). cbn [set_bits]. pose proof (Nat.div_mod_eq n 8) as Dn. pose proof (Nat.mod_upper_bound n 8 ltac:(lia)) as Mn.
    destruct (decide (i / 8 = n / 8)%nat) as [E|E].
    + rewrite <- E, list_lookup_insert_eq by (rewrite set_bits_length; lia). change (default 0 (Some ?v)) with v. rewrite Z.lor_spec, IH, Z.shiftl_spec, bit_one by lia.
      destruct (Nat.ltb_spec i n), (Nat.ltb_spec i (S n)), (Z.eqb_spec (Z.of_nat (i mod 8) - Z.of_nat (n mod 8)) 0); simpl; lia.
    + rewrite list_lookup_insert_ne by congruence. rewrite IH. destruct (Nat.ltb_spec i n), (Nat.ltb_spec i (S n)); try lia.
Qed.

(** The directory entries of the root, in order. *)
Definition root_entries (gs : list (list Z * list Z)) : list Z :=
  dir_entry 1 (str ".") ++ dir_entry 1 (str "..") ++ concat (imap (fun j g => dir_entry (2 + Z.of_nat j) g.1) gs).
Definition image_files (gs : list (list Z * list Z)) : list (Z * list Z) :=
  (T_DIR, root_entries gs) :: ((fun g => (T_FILE, g.2)) <$> gs).

Lemma built_files gs : built gs = image_files gs.
Proof.
  unfold built, image_files. induction gs as [|g gs IH] using rev_ind; [done|].
  rewrite foldl_app, IH. cbn [foldl add_abs]. rewrite fmap_app. cbn [app fmap list_fmap]. f_equal. f_equal.
  unfold root_entries. rewrite imap_app, concat_app, <- !app_assoc. cbn [imap concat]. rewrite app_nil_r. cbn [length].
  rewrite length_fmap. do 3 f_equal. f_equal. lia.
Qed.

(** Before the first inode is made. *)
Lemma start_inv s : (forall b, img s !! b = if decide (b ∈ seqZ 0 FSSIZE) then Some zero_block else None) -> freeblock s = nmeta -> freeinode s = 1 ->
  minv ∅ [] (set_img (<[1 := put_words sb_words zero_block 0]> (img s)) s).
Proof.
  intros Hi Hb Hn. assert (length zero_block = 1024%nat) as Hz by (unfold zero_block; apply length_replicate). constructor; simpl; try done; try lia.
  constructor; simpl; try done; rewrite ?Hb, ?nmeta_eq.
  - intros b Hb'. destruct (decide (b = 1)) as [->|Hne]; [rewrite lookup_insert_eq; exists (put_words sb_words zero_block 0); split; [done|]; rewrite put_words_length; exact Hz|].
    rewrite lookup_insert_ne, Hi, decide_True; [eauto|apply elem_of_seqZ; lia|done].
  - intros b Hb'. rewrite lookup_insert_ne, Hi, decide_True; [done|apply elem_of_seqZ; lia|lia].
  - assert (FSSIZE = 2000) by reflexivity. lia.
Qed.

(** The kernel sees the file the inode describes. *)
Lemma kernel_view (k : kern) v ip x : (forall b, 0 <= b < FSSIZE -> bview k b = v b) -> inode_of ip = x ->
  forall bn, 0 <= faddr v x bn < FSSIZE -> (NDIRECT <= bn -> 0 <= default 0 (d_addrs x !! Z.to_nat NDIRECT) < FSSIZE) ->
  block_addr k ip bn = faddr v x bn /\ bview k (block_addr k ip bn) = v (faddr v x bn).
Proof.
  intros Hv <- bn Hb Hi. assert (block_addr k ip bn = faddr v (inode_of ip) bn) as E.
  { unfold block_addr, faddr. simpl. destruct (Z.ltb_spec bn NDIRECT) as [Hlt|Hge]; [done|]. destruct (_ =? 0); [done|]. now rewrite Hv by (apply Hi; lia). }
  split; [done|]. rewrite E. now apply Hv.
Qed.

Lemma kernel_file own s (k : kern) inum x t c ip n : simg own s -> (forall b, 0 <= b < FSSIZE -> bview k b = iview s b) ->
  file_at own (iview s) inum (set_size (Z.of_nat (length c)) x) t c -> inode_of ip = x -> i_dev ip = ROOTDEV -> d_size x = n ->
  Z.of_nat (length c) <= n <= BSIZE * nb (Z.of_nat (length c)) -> n <= MAXFILE * BSIZE ->
  file_ok k ip /\ contents k ip = c ++ replicate (Z.to_nat n - length c) 0 /\
  forall bn, 0 <= bn -> bn * BSIZE < i_size ip -> nmeta <= block_addr k ip bn < freeblock s.
Proof.
  intros Hs Hk [F1 F2 F3 F4 F5 F6 F7] Hip Hdev Hn Hle Hmax. apply (proj1 (alloc_size _ _ _ _ _ _)) in F6.
  assert (forall bn, 0 <= bn < nb (Z.of_nat (length c)) -> block_addr k ip bn = faddr (iview s) x bn /\ bview k (block_addr k ip bn) = iview s (faddr (iview s) x bn) /\
    (47 <= faddr (iview s) x bn < FSSIZE /\ faddr (iview s) x bn < freeblock s) /\ length (iview s (faddr (iview s) x bn)) = 1024%nat) as Hbl.
  { intros bn Hbn. pose proof (ai_have _ _ _ _ _ F6 bn Hbn) as Ho. pose proof (owned_pos _ _ _ _ Hs Ho) as Hr.
    destruct (kernel_view k (iview s) ip x Hk Hip bn) as [E1 E2]; [lia| |].
    - intros Hge. destruct (ai_ind _ _ _ _ _ F6 ltac:(lia)) as (a & -> & Hoa & _). simpl. destruct (owned_pos _ _ _ _ Hs Hoa). lia.
    - split; [done|]. split; [done|]. split; [done|]. destruct (owned_img _ _ _ _ Hs Ho) as (d & Hd & Hl & _). now rewrite (iview_lookup _ _ _ Hd). }
  assert (i_size ip = n) as Es by (rewrite <- Hn, <- Hip; done).
  assert (forall bn, 0 <= bn -> bn * BSIZE < n -> 0 <= bn < nb (Z.of_nat (length c))) as Hlow by (intros bn H0 Hlt; change BSIZE with 1024 in *; lia). split; [|split].
  - constructor; [done|rewrite <- (ai_len _ _ _ _ _ F6), <- Hip; done|lia|]. rewrite Es. intros bn H0 Hlt.
    destruct (Hbl bn (Hlow bn H0 Hlt)) as (E1 & E2 & E3 & E4).
    rewrite E2, E1, E4. split; [lia|done].
  - apply list_eq_same_length with (n := Z.to_nat n); [rewrite length_app, length_replicate; lia|unfold contents; now rewrite bytes_at_length, Es|].
    intros j y1 y2 Hj H1 H2. unfold contents, bytes_at in H1. rewrite Es, list_lookup_fmap, lookup_seqZ_lt in H1 by lia. injection H1 as <-.
    set (o := 0 + Z.of_nat j). destruct (div_block o ltac:(lia)) as (Ho1 & Ho2 & Ho3).
    assert (0 <= o / BSIZE < nb (Z.of_nat (length c))) as Hb by (change BSIZE with 1024 in *; lia). destruct (Hbl _ Hb) as (E1 & E2 & _).
    unfold fbyte. rewrite E2. specialize (F7 o ltac:(lia)). unfold fbyte_of in F7. change (faddr ?v (set_size ?m ?y)) with (faddr v y) in F7. rewrite F7.
    replace (Z.to_nat o) with j by lia. destruct (decide (j < length c)%nat) as [Hlt|Hge].
    + rewrite lookup_app_l in H2 by done. now rewrite H2.
    + rewrite lookup_app_r in H2 by lia. apply lookup_replicate in H2 as [-> _]. now rewrite lookup_ge_None_2 by lia.
  - rewrite Es. intros bn H0 Hlt. destruct (Hbl bn (Hlow bn H0 Hlt)) as (E1 & _ & E3 & _). rewrite E1, nmeta_eq. lia.
Qed.

(** The image at the end, against the one with the files: the size of the root
    directory and the bitmap have changed. *)
Record finished (own : gmap Z (Z * Z)) (es : list Z) (s s' : mkst) : Prop := {
  fn_img : simg own s';
  fn_fb : freeblock s' = freeblock s;
  fn_meta : same_meta s s';
  fn_bits : iview s' 46 = set_bits (Z.to_nat (freeblock s)) zero_block;
  fn_root : din_of (iview s') 1 = set_size ((Z.of_nat (length es) / BSIZE + 1) * BSIZE) (din_of (iview s) 1);
  fn_inodes : forall k, 1 < k <= 200 -> din_of (iview s') k = din_of (iview s) k;
  fn_blocks : forall b o, own !! b = Some o -> iview s' b = iview s b;
}.

Lemma root_finish own es rest s : minv own ((T_DIR, es) :: rest) s -> Z.of_nat (length es) <= 4096 ->
  wp (let! din := rinode 1 in
      let off := xint (d_size din) in
      do! winode 1 (set_size (xint ((off / BSIZE + 1) * BSIZE)) din);
      let! used := gets freeblock in
      balloc used) (fun _ => finished own es s) s.
Proof.
  intros Hm Hes. pose proof (co_img _ _ _ _ Hm) as Hs. pose proof (si_fb _ _ Hs) as Hfb. rewrite nmeta_eq in Hfb. assert (FSSIZE = 2000) as EF by reflexivity.
  pose proof (co_file _ _ _ _ Hm 0 T_DIR es eq_refl) as [F1 F2 F3 F4 F5 F6 F7]. change (1 + Z.of_nat 0) with 1 in *.
  destruct (iblock_range 1 ltac:(lia)) as [_ Hib]. destruct (si_img _ _ Hs (IBLOCK 1 msb) ltac:(lia)) as (d & Hd & _).
  destruct (div_block (Z.of_nat (length es)) ltac:(lia)) as (Hb1 & Hb2 & Hb3).
  assert ((Z.of_nat (length es) / BSIZE + 1) * BSIZE <= 5120 /\ 0 <= (Z.of_nat (length es) / BSIZE + 1) * BSIZE) as Hsz by (change BSIZE with 1024 in *; lia).
  unfold rinode. wsteps. apply (wp_rsect _ d); [done|]. wsteps. rewrite <- (iview_lookup _ _ _ Hd).
  change (get_dinode (iview s (IBLOCK 1 msb)) (islot 1)) with (din_of (iview s) 1). rewrite F4, (xint_small (Z.of_nat _)), xint_small by lia.
  eapply wp_mono; [apply (winode_spec own s 1); [done|lia|]|].
  { destruct F1. constructor; try done. unfold word. simpl. lia. }
  intros [] s1 (Hs1 & Efb & Efi & Hsame & Ej & Hk). wsteps. unfold balloc. rewrite Efb. wsteps; [apply Z.ltb_lt; change BPB with 8192; lia|].
  apply wp_wsect. change (sb_bmapstart msb) with 46. set (s2 := set_img _ s1).
  assert (forall b, b <> 46 -> iview s2 b = iview s1 b) as H46 by (intros b Hb; unfold iview, s2; simpl; now rewrite lookup_insert_ne).
  assert (forall i, 1 <= i <= 200 -> din_of (iview s2) i = din_of (iview s1) i) as Hdin.
  { intros i Hi. unfold din_of. destruct (iblock_range i Hi) as [_ Hr]. now rewrite H46 by lia. }
  constructor; try done.
  - apply simg_write; [done|lia|]. rewrite set_bits_length. unfold zero_block. apply length_replicate.
  - intros b Hb. simpl. rewrite lookup_insert_ne by lia. apply Hsame. lia.
  - unfold iview. simpl. now rewrite lookup_insert_eq.
  - rewrite Hdin by lia. exact Ej.
  - intros i Hi. rewrite Hdin by lia. apply Hk; lia.
  - intros b o Hb. destruct (owned_pos _ _ _ _ Hs Hb) as [Hr _]. rewrite H46 by lia. unfold iview. now rewrite Hsame by lia.
Qed.

Lemma root_entries_length gs : length (root_entries gs) = (32 + 16 * length gs)%nat.
Proof.
  unfold root_entries. rewrite !length_app, !dir_entry_length.
  assert (forall n, length (concat (imap (fun j g => dir_entry (2 + Z.of_nat (n + j)) g.1) gs)) = (16 * length gs)%nat) as H.
  { induction gs as [|g gs IH]; intros n; [done|]. cbn [imap concat length]. rewrite length_app, dir_entry_length. specialize (IH (S n)).
    erewrite (imap_ext _ _ gs); [rewrite IH; lia|]. intros j x _. simpl. do 2 f_equal. lia. }
  specialize (H 0%nat). simpl in H. rewrite H. lia.
Qed.

Lemma main_builds files gs : Forall2 file_ready files gs -> Z.of_nat (length gs) <= 198 -> need (image_files gs) <= nblocks ->
  wp (main files) (fun _ s' => exists own s, minv own (image_files gs) s /\ finished own (root_entries gs) s s' /\
    iview s 1 = put_words sb_words zero_block 0 /\ iview s 2 = zero_block) (Mk ∅ 1 0).
Proof.
  intros Hf Hn Hneed. rewrite <- built_files in *. change nblocks with (FSSIZE - nmeta) in Hneed. destruct (built_grows gs empty_fs empty_root) as (Hg & _ & _).
  fold (built gs) in Hg. unfold main. wsteps. eapply wp_mono; [apply zero_loop|]. intros [] s0 (Ei & Eb & Hz). wsteps. apply wp_wsect. wsteps.
  assert (minv ∅ [] (set_img (<[1 := put_words sb_words zero_block 0]> (img s0)) s0)) as Hm0 by (apply start_inv; done). set (s1 := set_img _ s0) in *.
  eapply wp_mono; [apply (ialloc_spec ∅ [] s1 T_DIR Hm0); [simpl; unfold NINODES; lia|split; reflexivity || discriminate]|].
  intros r s2 (-> & Hm2 & Hs2). change (1 + Z.of_nat (length (@nil (Z * list Z)))) with 1. wsteps; [done|].
  assert (length (dir_entry 1 (str ".")) = 16%nat) as L1 by apply dir_entry_length.
  assert (need [(T_DIR, dir_entry 1 (str "."))] <= need empty_fs) as Hd1.
  { unfold empty_fs. rewrite !need_cons. cbn [snd]. assert (weight (dir_entry 1 (str ".")) <= weight (dir_entry 1 (str ".") ++ dir_entry 1 (str ".."))); [|lia].
    apply weight_mono. rewrite length_app. lia. }
  eapply wp_mono; [apply (iappend_spec ∅ _ s2 0 T_DIR [] (dir_entry 1 (str ".")) Hm2 eq_refl)|].
  { simpl. lia. } { simpl app. rewrite L1. change (MAXFILE * BSIZE) with 274432. lia. }
  intros [] s3 (own3 & Hm3 & Hs3). wsteps. change (<[0%nat := (T_DIR, [] ++ dir_entry 1 (str "."))]> ([] ++ [(T_DIR, [])])) with [(T_DIR, dir_entry 1 (str "."))] in Hm3.
  eapply wp_mono; [apply (iappend_spec own3 _ s3 0 T_DIR _ (dir_entry 1 (str "..")) Hm3 eq_refl)|].
  { change (<[0%nat := _]> _) with empty_fs. lia. } { rewrite length_app, !dir_entry_length. change (MAXFILE * BSIZE) with 274432. lia. }
  intros [] s4 (own4 & Hm4 & Hs4). change (<[0%nat := _]> _) with empty_fs in Hm4. wsteps.
  eapply wp_mono; [apply (files_spec files gs Hf own4 empty_fs s4 Hm4 empty_root); [simpl; lia|done]|].
  intros [] s5 (own5 & Hm5 & Hs5). fold (built gs) in Hm5. rewrite built_files in Hm5.
  eapply wp_mono; [apply (root_finish own5 (root_entries gs) _ s5 Hm5); rewrite root_entries_length; lia|].
  intros [] s6 Hfin. exists own5, s5. rewrite built_files. split; [done|]. split; [done|].
  assert (forall b, b < 33 -> img s5 !! b = img s1 !! b) as Hmeta by (intros b Hb; rewrite Hs5, Hs4, Hs3, Hs2 by done; done).
  unfold iview. rewrite !Hmeta by lia. unfold s1. simpl. rewrite lookup_insert_eq, lookup_insert_ne by lia. split; [done|]. rewrite Hz.
  rewrite decide_True; [done|]. apply elem_of_seqZ. assert (FSSIZE = 2000) by reflexivity. lia.
Qed.

#[local] Opaque main.

Lemma main_runs files gs : Forall2 file_ready files gs -> Z.of_nat (length gs) <= 198 -> need (image_files gs) <= nblocks ->
  exists s' own s, main files (Mk ∅ 1 0) = Ret tt s' /\ minv own (image_files gs) s /\ finished own (root_entries gs) s s' /\
    iview s 1 = put_words sb_words zero_block 0 /\ iview s 2 = zero_block.
Proof.
  intros Hf Hn Hneed. destruct (proj1 (wp_Ret _ _ _) (main_builds files gs Hf Hn Hneed)) as ([] & s' & Hret & own & s & Hpost).
  exists s', own, s. split; [exact Hret|exact Hpost].
Qed.

(** The bitmap, as the kernel reads it. *)
Lemma image_bits used b : 0 <= used <= FSSIZE -> 0 <= b < FSSIZE ->
  Z.testbit (default 0 (set_bits (Z.to_nat used) zero_block !! Z.to_nat (b mod BPB / 8))) (b mod 8) = (b <? used).
Proof.
  intros Hu Hb. assert (FSSIZE = 2000) as EF by reflexivity. change BPB with 8192. rewrite Z.mod_small by lia.
  pose proof (set_bits_spec (Z.to_nat used) (Z.to_nat b) ltac:(lia) ltac:(lia)) as H.
  replace (Z.to_nat (b / 8)) with (Z.to_nat b / 8)%nat by (rewrite Z2Nat.inj_div by lia; done).
  replace (b mod 8) with (Z.of_nat (Z.to_nat b mod 8)) by (rewrite Nat2Z.inj_mod, Z2Nat.id by lia; done).
  rewrite H. destruct (Nat.ltb_spec (Z.to_nat b) (Z.to_nat used)), (Z.ltb_spec b used); lia.
Qed.

(** The size the root directory is given, when its entries do not fill their
    blocks. *)
Lemma root_size n : 0 <= n <= 4096 -> n mod BSIZE <> 0 -> n <= (n / BSIZE + 1) * BSIZE <= BSIZE * nb n /\ (n / BSIZE + 1) * BSIZE <= MAXFILE * BSIZE.
Proof.
  intros Hn Hm. rewrite nb_block, decide_False by (done || lia). destruct (div_block n) as (H1 & H2 & H3); [lia|].
  change (MAXFILE * BSIZE) with 274432. change BSIZE with 1024 in *. lia.
Qed.

(** C15: the image holds what the command line names.  When the names are legal
    and the files fit, [main] writes an image that the kernel, wherever its
    cache agrees with the image, sees as follows: the super block, an empty
    log, every file as an inode of its own with one link and exactly the
    bytes of the host's file in blocks that are allocated, the root directory
    with the entries in order and nothing after them, and a bitmap in which
    exactly the blocks in use are set.  (The entries of the root must not end
    at the end of a block: its size is rounded up to the next block, which
    then does not exist.) *)
Theorem mkfs_image files gs : Forall2 file_ready files gs -> Z.of_nat (length gs) <= 198 -> need (image_files gs) <= nblocks ->
  exists s, main files (Mk ∅ 1 0) = Ret tt s /\
  forall k : kern, (forall b, 0 <= b < FSSIZE -> bview k b = iview s b) -> sb k = msb ->
    let used := nmeta + need (image_files gs) in
    (forall j w, sb_words !! j = Some w -> le_get 4 (bview k 1) (4 * j) = w) /\ bview k 2 = zero_block /\
    (forall j name data ip, gs !! j = Some (name, data) -> i_dev ip = ROOTDEV -> inode_of ip = disk_inode k (2 + Z.of_nat j) ->
       i_type ip = T_FILE /\ i_nlink ip = 1 /\ file_ok k ip /\ contents k ip = data /\
       forall bn, 0 <= bn -> bn * BSIZE < i_size ip -> nmeta <= block_addr k ip bn < used) /\
    (forall ip, i_dev ip = ROOTDEV -> inode_of ip = disk_inode k ROOTINO -> Z.of_nat (length (root_entries gs)) mod BSIZE <> 0 ->
       i_type ip = T_DIR /\ file_ok k ip /\ (exists n, contents k ip = root_entries gs ++ replicate n 0) /\
       forall bn, 0 <= bn -> bn * BSIZE < i_size ip -> nmeta <= block_addr k ip bn < used) /\
    (forall b, 0 <= b < FSSIZE ->
       Z.testbit (default 0 (bview k (BBLOCK b (sb k)) !! Z.to_nat (b mod BPB / 8))) (b mod 8) = (b <? used)).
Proof.
  intros Hf Hn Hneed. destruct (main_runs files gs Hf Hn Hneed) as (s' & own & s & Hret & Hm & Hfin & H1 & H2).
  exists s'. split; [exact Hret|]. intros k Hk Hsb. cbv zeta. pose proof (co_fb _ _ _ _ Hm) as Efb. destruct Hfin as [Gi Gfb Gm Gb Gr Gk Gbl].
  assert (FSSIZE = 2000) as EF by reflexivity. pose proof (si_fb _ _ Gi) as Hfb. rewrite nmeta_eq in Hfb. rewrite <- Efb, <- Gfb.
  assert (forall i, 1 <= i <= 200 -> disk_inode k i = din_of (iview s') i) as Hdi.
  { intros i Hi. unfold disk_inode, din_of. rewrite Hsb. destruct (iblock_range i Hi) as [_ Hr]. now rewrite Hk by lia. }
  assert (forall b, b < 33 -> 0 <= b -> bview k b = iview s b) as Hmeta by (intros b Hb H0; rewrite Hk by lia; unfold iview; now rewrite Gm by lia).
  assert (forall i x t c, file_at own (iview s) i x t c -> file_at own (iview s') i x t c) as Hframe.
  { intros i x t c H. eapply file_frame; [exact H|done|]. intros b o Hb. now apply (Gbl b (i, o)). }
  split_and!.
  - intros j w Hj. rewrite Hmeta, H1 by lia. apply (put_words_eq sb_words zero_block 0 j w); [apply Nat.leb_le; reflexivity|done|].
    revert Hj. do 8 (destruct j as [|j]; [intros [= <-]; split; vm_compute; congruence|]). discriminate.
  - now rewrite Hmeta by lia.
  - intros j name data ip Hj Hdev Hip. pose proof (lookup_lt_Some _ _ _ Hj) as Hlt. rewrite Hdi, Gk in Hip by lia.
    assert (image_files gs !! S j = Some (T_FILE, data)) as Hj' by (simpl; rewrite list_lookup_fmap, Hj; done).
    pose proof (co_file _ _ _ _ Hm _ _ _ Hj') as Hfa. cbv beta in Hfa. replace (1 + Z.of_nat (S j)) with (2 + Z.of_nat j) in Hfa by lia. apply Hframe in Hfa. rewrite <- Hip in Hfa.
    pose proof (fa_size _ _ _ _ _ _ Hfa) as Hsz. pose proof (fa_max _ _ _ _ _ _ Hfa) as Hmx. split; [apply Hfa|]. split; [apply Hfa|].
    destruct (kernel_file own s' k (2 + Z.of_nat j) (inode_of ip) T_FILE data ip (Z.of_nat (length data)) Gi Hk) as (K1 & K2 & K3);
      [|exact eq_refl|exact Hdev|exact Hsz|pose proof (nb_size (Z.of_nat (length data))); lia|exact Hmx|].
    + rewrite <- Hsz. exact Hfa.
    + split; [exact K1|]. split; [|exact K3]. rewrite K2. replace (Z.to_nat _ - _)%nat with 0%nat by lia. apply app_nil_r.
  - intros ip Hdev Hip Hmod. change ROOTINO with 1 in Hip. rewrite Hdi, Gr in Hip by lia.
    pose proof (co_file _ _ _ _ Hm 0 T_DIR (root_entries gs) eq_refl) as Hfa. change (1 + Z.of_nat 0) with 1 in Hfa. apply Hframe in Hfa.
    destruct (root_size (Z.of_nat (length (root_entries gs)))) as [Hr1 Hr2]; [rewrite root_entries_length; lia|done|].
    pose proof (fa_size _ _ _ _ _ _ Hfa) as Hsz. split; [change (i_type ip) with (d_type (inode_of ip)); rewrite Hip; apply Hfa|].
    destruct (kernel_file own s' k 1 (inode_of ip) T_DIR (root_entries gs) ip ((Z.of_nat (length (root_entries gs)) / BSIZE + 1) * BSIZE) Gi Hk) as (K1 & K2 & K3);
      [|exact eq_refl|exact Hdev|rewrite Hip; exact eq_refl|exact Hr1|exact Hr2|].
    + rewrite Hip, <- Hsz. exact Hfa.
    + split; [exact K1|]. split; [eexists; exact K2|exact K3].
  - intros b Hb. rewrite Hsb. assert (BBLOCK b msb = 46) as ->.
    { unfold BBLOCK. change BPB with 8192. rewrite Z.div_small by lia. reflexivity. }
    rewrite Hk, Gb by lia. rewrite <- Gfb. apply image_bits; lia.
Qed.

Module Example.
Definition files : list hostfile := [(str "user/_cat", Some [[1; 2; 3]]); (str "README", Some [])].
Definition gs : list (list Z * list Z) := [(str "cat", [1; 2; 3]); (str "README", [])].

Lemma files_ready : Forall2 file_ready files gs.
Proof.
  repeat constructor; eexists; (split; [reflexivity|]); (split; [vm_compute; reflexivity|]);
    (split; [apply (bool_decide_unpack _); vm_compute; exact I|split; vm_compute; discriminate]).
Qed.
Lemma files_fit : Z.of_nat (length gs) <= 198 /\ need (image_files gs) <= nblocks.
Proof. vm_compute. split; discriminate. Qed.

Lemma mkfs_image_witness : exists s, main files (Mk ∅ 1 0) = Ret tt s /\
  forall (k : kern) ip, (forall b, 0 <= b < FSSIZE -> bview k b = iview s b) -> sb k = msb ->
    i_dev ip = ROOTDEV -> inode_of ip = disk_inode k 2 -> contents k ip = [1; 2; 3].
Proof.
  destruct (mkfs_image files gs files_ready (proj1 files_fit) (proj2 files_fit)) as (s & Hs & H). exists s. split; [exact Hs|].
  intros k ip Hk Hsb Hdev Hip. destruct (H k Hk Hsb) as (_ & _ & Hf & _). now destruct (Hf 0%nat (str "cat") [1; 2; 3] ip eq_refl Hdev Hip) as (_ & _ & _ & Hc & _).
Defined.
End Example.
