(* ===== verification/Ring.v ===== *)
(** * Circular buffers

    The console and the pipes keep bytes in an array of [N] entries between
    two unsigned counters that are reduced modulo [N] only when they index
    the array.  As [N] divides 2^32 the counters may wrap. *)

From S2P Require Import Prelude.

(** The [len] bytes from counter [r] on. *)
Definition ring (N : Z) (data : list Z) (r len : Z) : list Z :=
  (fun j => default 0 (data !! Z.to_nat ((r + j) mod N))) <$> seqZ 0 len.

(** [u32] of a small shift of a difference. *)
Lemma u32_shift x k : 0 <= u32 x + k < 4294967296 -> u32 (x + k) = u32 x + k.
Proof. intros H. unfold u32 in *. rewrite <- Z.add_mod_idemp_l by lia. now apply Z.mod_small. Qed.
Lemma u32_u32_sub a r : u32 (u32 a - r) = u32 (a - r).
Proof. unfold u32. now rewrite Zminus_mod_idemp_l. Qed.
Lemma u32_sub_u32 a r : u32 (a - u32 r) = u32 (a - r).
Proof. unfold u32. now rewrite Zminus_mod_idemp_r. Qed.
Lemma u32_sub_eq a b r : 0 <= a < 4294967296 -> 0 <= b < 4294967296 -> u32 (a - r) = u32 (b - r) -> a = b.
Proof.
  unfold u32. intros Ha Hb H. pose proof (Z.div_mod (a - r) 4294967296). pose proof (Z.div_mod (b - r) 4294967296).
  assert (4294967296 * ((a - r) / 4294967296 - (b - r) / 4294967296) = a - b) by lia. lia.
Qed.

Lemma ring_length N data r len : length (ring N data r len) = Z.to_nat len.
Proof. unfold ring. now rewrite length_fmap, length_seqZ. Qed.

Lemma ring_lookup N data r len j : (j < Z.to_nat len)%nat ->
  ring N data r len !! j = Some (default 0 (data !! Z.to_nat ((r + Z.of_nat j) mod N))).
Proof. intros Hj. unfold ring. rewrite list_lookup_fmap, lookup_seqZ_lt by lia. done. Qed.

Lemma ring_take N data r len k : 0 <= k <= len -> ring N data r k = take (Z.to_nat k) (ring N data r len).
Proof.
  intros Hk. apply list_eq. intros j. destruct (decide (j < Z.to_nat k)%nat) as [Hj|Hj].
  - rewrite lookup_take_lt, !ring_lookup by lia. done.
  - rewrite lookup_take_ge by lia. apply lookup_ge_None_2. rewrite ring_length. lia.
Qed.

Section Ring.
Variable N : Z.
Hypothesis N_pos : 0 < N.
Hypothesis N_div : (N | 4294967296).

Lemma u32_mod_ring x : u32 x mod N = x mod N.
Proof using N_pos N_div. destruct N_div as [k Hk]. unfold u32. rewrite Hk, Z.mul_comm. rewrite Z.rem_mul_r, Z.mul_comm, Z.mod_add, Z.mod_mod by lia. done. Qed.

(** A byte stored at the end. *)
Lemma ring_put data r e v : length data = Z.to_nat N -> u32 (e - r) < N ->
  ring N (<[Z.to_nat (e mod N) := v]> data) r (u32 (e - r) + 1) = ring N data r (u32 (e - r)) ++ [v].
Proof using N_pos N_div.
  intros Hl Ht. pose proof (u32_range (e - r)) as Hr. unfold ring. rewrite seqZ_app, fmap_app by lia. f_equal.
  - apply list_fmap_ext. intros j x Hx. apply lookup_seqZ in Hx as [-> Hx]. rewrite Z.add_0_l, list_lookup_insert_ne; [done|].
    assert (e mod N <> (r + Z.of_nat j) mod N) as Hne.
    { intros E. assert ((e - r - Z.of_nat j) mod N = 0) as E0.
      { replace (e - r - Z.of_nat j) with (e - (r + Z.of_nat j)) by lia. rewrite Zminus_mod, E, Z.sub_diag. apply Z.mod_0_l. lia. }
      rewrite Zminus_mod, <- (u32_mod_ring (e - r)), <- Zminus_mod, Z.mod_small in E0; lia. }
    pose proof (Z.mod_pos_bound e N N_pos). pose proof (Z.mod_pos_bound (r + Z.of_nat j) N N_pos). lia.
  - change (seqZ (0 + u32 (e - r)) 1) with [0 + (0 + u32 (e - r))]. rewrite !Z.add_0_l. simpl. f_equal. assert ((r + u32 (e - r)) mod N = e mod N) as ->.
    { rewrite Z.add_mod, u32_mod_ring, <- Z.add_mod by lia. f_equal. lia. }
    rewrite list_lookup_insert_eq; [done|]. rewrite Hl. pose proof (Z.mod_pos_bound e N N_pos). lia.
Qed.

(** The first byte, and the rest. *)
Lemma ring_get data r len : 0 < len ->
  ring N data r len = default 0 (data !! Z.to_nat (r mod N)) :: ring N data (u32 (r + 1)) (len - 1).
Proof using N_pos N_div.
  intros Hl. unfold ring. rewrite seqZ_cons by done. simpl. f_equal; [now rewrite Z.add_0_r|].
  apply list_eq. intros j. rewrite !list_lookup_fmap. destruct (decide (j < Z.to_nat (len - 1))%nat) as [Hj|Hj].
  - rewrite !lookup_seqZ_lt by lia. simpl. do 4 f_equal. rewrite <- (Zplus_mod_idemp_l (u32 (r + 1))), u32_mod_ring, Zplus_mod_idemp_l. f_equal. lia.
  - rewrite !lookup_seqZ_ge by lia. done.
Qed.

(** The last byte. *)
Lemma ring_last data r e : 0 < u32 (e - r) ->
  ring N data r (u32 (e - r)) !! Z.to_nat (u32 (e - r) - 1) = Some (default 0 (data !! Z.to_nat (u32 (e - 1) mod N))).
Proof using N_pos N_div.
  intros Hl. rewrite ring_lookup by lia. do 4 f_equal. rewrite u32_mod_ring.
  replace (r + Z.of_nat (Z.to_nat (u32 (e - r) - 1))) with (u32 (e - r) + (r - 1)) by lia.
  rewrite Z.add_mod, u32_mod_ring, <- Z.add_mod by lia. f_equal. lia.
Qed.
End Ring.
