(* ===== verification/Console.v ===== *)
(** * The console (kernel/console.c, the transmit and interrupt half of
      kernel/uart.c)

    Input arrives by interrupt and is edited a line at a time; readers take
    whole lines.  [cinv] is the invariant of the circular buffer, and
    [consoleintr] refines [edit], which describes the input as two lists:
    the bytes waiting for readers and the line being edited. *)

From S2P Require Import Prelude.
From S2P Require Import Mach.
From S2P Require Import Spinlock.
From S2P Require Import Kalloc.
From S2P Require Import Vm.
From S2P Require Import Proc.
From S2P Require Import Kstate.
From S2P Require Import Ring.
From S2P Require Import Sleeplock.
From S2P Require Import Bio.
From S2P Require Import Log.
From S2P Require Import Fs.
From S2P Require Import Printk.

Definition INPUT_BUF_SIZE : Z := 128.
#[export] Hint Unfold INPUT_BUF_SIZE : kconst.
(** [C('D')] and the like. *)
Definition CTRL (x : Z) : Z := x - 64.
Definition CONSOLE : Z := 1.

Definition updcons (f : console -> console) : M kern unit := modify (fun s => set_cons (f (cons s)) s).
(** [cons.buf[i % INPUT_BUF_SIZE]]. *)
Definition cbuf (c : console) (i : Z) : Z := default 0 (c_buf c !! Z.to_nat (u32 i mod INPUT_BUF_SIZE)).
Definition put_cbuf (i v : Z) (c : console) : console :=
  set_c_buf (<[Z.to_nat (u32 i mod INPUT_BUF_SIZE) := u8 v]> (c_buf c)) c.

Section Console.
Context {L : Layout} {P : Patience}.

(** [while (tx_busy) sleep(&tx_chan, &tx_lock)]. *)
Fixpoint await_tx (fuel : nat) : M kern unit :=
  let! u := gets uart_ in
  if tx_busy u then
    match fuel with
    | O => fun _ => Spin
    | S f => do! mk (sleep ChTx Luart); await_tx f
    end
  else ret tt.
Fixpoint uartwrite_loop (buf : list Z) : M kern unit :=
  match buf with
  | [] => ret tt
  | c :: buf' =>
    do! await_tx patience;
    do! upduart (fun u => set_u_out (u_out u ++ [u8 c]) u);
    do! upduart (set_tx_busy true);
    uartwrite_loop buf'
  end.
Definition uartwrite (buf : list Z) : M kern unit :=
  do! mk (lk (acquire Luart));
  do! uartwrite_loop buf;
  mk (lk (release Luart)).

Definition uartinit : M kern unit := mk (lk (initlock Luart)).

Definition uartgetc : M kern Z :=
  let! u := gets uart_ in
  match u_in u with
  | c :: l => do! upduart (set_u_in l); ret c
  | [] => ret (-1)
  end.

(** ** Writing *)

Fixpoint consolewrite_loop (fuel : nat) (src : place) (n i : Z) : M kern Z :=
  if i <? n then
    match fuel with
    | O => fun _ => Spin
    | S f =>
      let nn := Z.min 32 (n - i) in
      let! r := mk (either_copyin src i nn) in
      if fst r =? -1 then ret i
      else
        do! uartwrite (snd r);
        consolewrite_loop f src n (i + nn)
    end
  else ret i.
Definition consolewrite (src : place) (n : Z) : M kern Z := consolewrite_loop (Z.to_nat n) src n 0.

(** ** Reading *)

(** Wait for input; [false] when the process has been killed. *)
Fixpoint await_input (fuel : nat) : M kern bool :=
  let! c := gets cons in
  if c_r c =? c_w c then
    let! p := mk curp in
    let! k := mk (killed p) in
    if negb (k =? 0) then ret false
    else
      match fuel with
      | O => fun _ => Spin
      | S f => do! mk (sleep ChCons Lcons); await_input f
      end
  else ret true.

(** The outer loop, with the bytes a buffer on the kernel stack received;
    [None] is the return of a killed process. *)
Fixpoint consoleread_loop (fuel : nat) (dst : place) (target n : Z) : M kern (option Z) :=
  if 0 <? n then
    match fuel with
    | O => fun _ => Spin
    | S f =>
      let! ok := await_input patience in
      if negb ok then do! mk (lk (release Lcons)); ret None
      else
        let! co := gets cons in
        let c := cbuf co (c_r co) in
        do! updcons (fun co => set_c_r (u32 (c_r co + 1)) co);
        if c =? CTRL 68 then
          do! (if u32 n <? u32 target then updcons (fun co => set_c_r (u32 (c_r co - 1)) co) else ret tt);
          ret (Some n)
        else
          let! r := mk (either_copyout dst (target - n) [c]) in
          if r =? -1 then ret (Some n)
          else if c =? 10 then ret (Some (n - 1))
          else consoleread_loop f dst target (n - 1)
    end
  else ret (Some n).
Definition consoleread (dst : place) (n : Z) : M kern Z :=
  do! mk (lk (acquire Lcons));
  let! r := consoleread_loop (Z.to_nat n) dst n n in
  match r with
  | None => ret (-1)
  | Some n' => do! mk (lk (release Lcons)); ret (i32 (u32 n - u32 n'))
  end.

(** ** The interrupt handler *)

(** Kill line: back to the end of the previous line. *)
Fixpoint kill_line (fuel : nat) : M kern unit :=
  let! c := gets cons in
  if negb (c_e c =? c_w c) && negb (cbuf c (c_e c - 1) =? 10) then
    match fuel with
    | O => fun _ => Spin
    | S f =>
      do! updcons (fun c => set_c_e (u32 (c_e c - 1)) c);
      do! consputc BACKSPACE;
      kill_line f
    end
  else ret tt.

Definition consoleintr (c : Z) : M kern unit :=
  do! mk (lk (acquire Lcons));
  do! (if c =? CTRL 80 then procdump
       else if c =? CTRL 85 then kill_line (Z.to_nat INPUT_BUF_SIZE)
       else if (c =? CTRL 72) || (c =? 127) then
         let! co := gets cons in
         if negb (c_e co =? c_w co) then
           do! updcons (fun co => set_c_e (u32 (c_e co - 1)) co);
           consputc BACKSPACE
         else ret tt
       else
         let! co := gets cons in
         if negb (c =? 0) && (u32 (c_e co - c_r co) <? INPUT_BUF_SIZE) then
           let c := if c =? 13 then 10 else c in
           do! consputc c;
           do! updcons (fun co => set_c_e (u32 (c_e co + 1)) (put_cbuf (c_e co) c co));
           let! co := gets cons in
           if (c =? 10) || (c =? CTRL 68) || (u32 (c_e co - c_r co) =? INPUT_BUF_SIZE) then
             do! updcons (fun co => set_c_w (c_e co) co);
             mk (wakeup ChCons)
           else ret tt
         else ret tt);
  mk (lk (release Lcons)).

(** Every round takes a byte from the receiver. *)
Fixpoint uartintr_loop (fuel : nat) : M kern unit :=
  match fuel with
  | O => fun _ => Spin
  | S f =>
    let! c := uartgetc in
    if c =? -1 then ret tt else do! consoleintr c; uartintr_loop f
  end.
Definition uartintr : M kern unit :=
  do! mk (lk (acquire Luart));
  let! u := gets uart_ in
  do! (if u_lsr_idle u then do! upduart (set_tx_busy false); mk (wakeup ChTx) else ret tt);
  do! mk (lk (release Luart));
  let! u := gets uart_ in
  uartintr_loop (S (length (u_in u))).

Definition consoleinit : M kern unit :=
  do! mk (lk (initlock Lcons));
  do! uartinit;
  modify (fun s => set_devsw (<[Z.to_nat CONSOLE := true]> (devsw s)) s).
End Console.

(** ** The line discipline, on lists *)

(** One character typed: [lines] is what readers may take, [cur] the line
    being edited. *)
Definition edit (c : Z) (st : list Z * list Z) : list Z * list Z :=
  let (lines, cur) := st in
  if c =? CTRL 80 then st
  else if c =? CTRL 85 then (lines, [])
  else if (c =? CTRL 72) || (c =? 127) then (lines, take (length cur - 1) cur)
  else if (c =? 0) || (INPUT_BUF_SIZE <=? Z.of_nat (length lines + length cur)) then st
  else
    let c := if c =? 13 then 10 else c in
    if (c =? 10) || (c =? CTRL 68) || (Z.of_nat (length lines + length cur) + 1 =? INPUT_BUF_SIZE)
    then (lines ++ cur ++ [c], []) else (lines, cur ++ [c]).

(** How many bytes are waiting, and how many there are in all. *)
Definition waiting (c : console) : Z := u32 (c_w c - c_r c).
Definition total (c : console) : Z := u32 (c_e c - c_r c).
Definition input (c : console) : list Z := ring INPUT_BUF_SIZE (c_buf c) (c_r c) (total c).
Definition lines (c : console) : list Z := take (Z.to_nat (waiting c)) (input c).
Definition current (c : console) : list Z := drop (Z.to_nat (waiting c)) (input c).

(** The indices are unsigned ints, in the order read, write, edit, and at
    most a buffer apart; the line being edited has no newline yet. *)
Record cinv (c : console) : Prop := {
  ci_len : length (c_buf c) = Z.to_nat INPUT_BUF_SIZE;
  ci_r : 0 <= c_r c < 4294967296; ci_w : 0 <= c_w c < 4294967296; ci_e : 0 <= c_e c < 4294967296;
  ci_order : waiting c <= total c <= INPUT_BUF_SIZE;
  ci_line : Forall (fun x => x <> 10) (current c);
}.

Lemma size_pos : 0 < INPUT_BUF_SIZE.
Proof. done. Qed.
Lemma size_div : (INPUT_BUF_SIZE | 4294967296).
Proof. now exists 33554432. Qed.
#[local] Hint Resolve size_pos size_div : core.

Lemma input_length c : length (input c) = Z.to_nat (total c).
Proof. apply ring_length. Qed.
Lemma lines_length c : cinv c -> length (lines c) = Z.to_nat (waiting c).
Proof. intros Hc. pose proof (ci_order _ Hc). unfold lines. rewrite length_take, input_length. pose proof (u32_range (c_w c - c_r c)). unfold waiting in *. lia. Qed.
Lemma current_length c : cinv c -> Z.of_nat (length (current c)) = total c - waiting c.
Proof.
  intros Hc. pose proof (ci_order _ Hc). unfold current. rewrite length_drop, input_length.
  pose proof (u32_range (c_w c - c_r c)). unfold waiting in *. lia.
Qed.
Lemma lines_current c : lines c ++ current c = input c.
Proof. apply take_drop. Qed.

(** Moving the edit index back by one. *)
Lemma input_back c : cinv c -> waiting c < total c ->
  let c' := set_c_e (u32 (c_e c - 1)) c in
  total c' = total c - 1 /\ waiting c' = waiting c /\ input c' = take (Z.to_nat (total c - 1)) (input c).
Proof.
  intros Hc Hlt c'. pose proof (u32_range (c_w c - c_r c)) as Hw. fold (waiting c) in Hw. pose proof (u32_range (c_e c - c_r c)).
  assert (total c' = total c - 1) as Ht.
  { unfold total, c'. simpl. rewrite u32_u32_sub. replace (c_e c - 1 - c_r c) with (c_e c - c_r c + -1) by lia.
    rewrite u32_shift; unfold total in *; lia. }
  split; [done|]. split; [done|]. unfold input. rewrite Ht. apply ring_take. lia.
Qed.

Lemma cinv_back c : cinv c -> waiting c < total c ->
  let c' := set_c_e (u32 (c_e c - 1)) c in
  cinv c' /\ lines c' = lines c /\ current c' = take (length (current c) - 1) (current c).
Proof.
  intros Hc Hlt c'. pose proof (u32_range (c_w c - c_r c)) as Hw. fold (waiting c) in Hw.
  destruct (input_back c Hc Hlt) as (E1 & E2 & E3). fold c' in E1, E2, E3. pose proof (current_length c Hc) as Hcl. pose proof (ci_order _ Hc).
  assert (lines c' = lines c) as EL by (unfold lines; rewrite E2, E3, take_take, Nat.min_l by lia; done).
  assert (current c' = take (length (current c) - 1) (current c)) as EC.
  { unfold current at 1. rewrite E2, E3. unfold current at 2. rewrite take_drop_commute. do 2 f_equal. lia. }
  split; [|done]. destruct Hc. constructor; auto; [apply u32_range|lia|]. rewrite EC. now apply Forall_take.
Qed.

(** A character at the edit index. *)
Lemma input_put c v : cinv c -> total c < INPUT_BUF_SIZE ->
  let c' := set_c_e (u32 (c_e c + 1)) (put_cbuf (c_e c) v c) in
  total c' = total c + 1 /\ waiting c' = waiting c /\ input c' = input c ++ [u8 v].
Proof.
  intros Hc Hlt c'. pose proof (u32_range (c_e c - c_r c)) as Ht. fold (total c) in Ht.
  assert (total c' = total c + 1) as Et.
  { unfold total, c'. simpl. rewrite u32_u32_sub. replace (c_e c + 1 - c_r c) with (c_e c - c_r c + 1) by lia.
    rewrite u32_shift; unfold total in *; lia. }
  split; [done|]. split; [done|]. unfold input. rewrite Et. unfold total, c', put_cbuf. simpl. rewrite u32_mod_ring by auto.
  apply ring_put; auto. apply Hc.
Qed.

(** The line goes to the readers. *)
Lemma cinv_commit c : cinv c -> let c' := set_c_w (c_e c) c in cinv c' /\ lines c' = input c /\ current c' = [].
Proof.
  intros Hc c'. assert (waiting c' = total c) as Ew by done. assert (input c' = input c) as Ei by done.
  assert (lines c' = input c /\ current c' = []) as [EL EC].
  { unfold lines, current. rewrite Ew, Ei. split; [apply take_ge|apply drop_ge]; now rewrite input_length. }
  split; [|done]. pose proof Hc as [A1 A2 A3 A4 A5 A6].
  constructor; auto; [split; [rewrite Ew; change (total c') with (total c); lia|apply A5]|]. rewrite EC. constructor.
Qed.

Lemma lines_put c v : cinv c -> total c < INPUT_BUF_SIZE ->
  let c' := set_c_e (u32 (c_e c + 1)) (put_cbuf (c_e c) v c) in
  lines c' = lines c /\ current c' = current c ++ [u8 v].
Proof.
  intros Hc Hlt c'. destruct (input_put c v Hc Hlt) as (E1 & E2 & E3). fold c' in E1, E2, E3.
  pose proof (ci_order _ Hc). unfold lines, current. rewrite E2, E3.
  rewrite take_app_le, drop_app_le by (rewrite input_length; lia). done.
Qed.

Lemma cinv_put c v : cinv c -> total c < INPUT_BUF_SIZE -> u8 v <> 10 ->
  cinv (set_c_e (u32 (c_e c + 1)) (put_cbuf (c_e c) v c)).
Proof.
  intros Hc Hlt Hv. destruct (input_put c v Hc Hlt) as (E1 & E2 & E3). destruct (lines_put c v Hc Hlt) as [_ E4].
  pose proof Hc as [A1 A2 A3 A4 A5 A6]. constructor; auto.
  - simpl. now rewrite length_insert.
  - apply u32_range.
  - lia.
  - rewrite E4. apply Forall_app. split; [done|]. now constructor.
Qed.

(** A newline, an end-of-file mark or the last free byte ends the line. *)
Lemma cinv_put_commit c v : cinv c -> total c < INPUT_BUF_SIZE ->
  let c' := set_c_w (u32 (c_e c + 1)) (set_c_e (u32 (c_e c + 1)) (put_cbuf (c_e c) v c)) in
  cinv c' /\ lines c' = lines c ++ current c ++ [u8 v] /\ current c' = [].
Proof.
  intros Hc Hlt c'. destruct (input_put c v Hc Hlt) as (E1 & E2 & E3).
  assert (waiting c' = total c + 1 /\ total c' = total c + 1 /\ input c' = input c ++ [u8 v]) as (F1 & F2 & F3) by (split; [exact E1|split; [exact E1|exact E3]]).
  assert (lines c' = lines c ++ current c ++ [u8 v] /\ current c' = []) as [EL EC].
  { rewrite app_assoc, lines_current. unfold lines, current. rewrite F1, F3.
    pose proof (u32_range (c_e c - c_r c)) as Ht. fold (total c) in Ht.
    split; [apply take_ge|apply drop_ge]; rewrite length_app, input_length; simpl; lia. }
  split; [|done]. pose proof Hc as [A1 A2 A3 A4 A5 A6]. constructor; auto.
  - simpl. now rewrite length_insert.
  - apply u32_range.
  - apply u32_range.
  - lia.
  - rewrite EC. constructor.
Qed.

(** ** The interrupt handler refines [edit] *)

(** The console is now [c]; the UART may have sent characters. *)
Definition typed (s : kern) (c : console) (s' : kern) : Prop :=
  exists K u, lk_eq (lks (km s)) K /\ u_lsr_idle u = u_lsr_idle (uart_ s) /\
    s' = set_km (set_lks K (km s)) (set_uart_ u (set_cons c s)).

Lemma typed_printed o s s' : printed o s s' -> typed s (cons s) s'.
Proof. intros (K & HK & ->). exists K. eexists. split; [done|]. split; [|now destruct s]. done. Qed.
Lemma typed_trans s1 c1 s2 c2 s3 : typed s1 c1 s2 -> typed s2 c2 s3 -> typed s1 c2 s3.
Proof.
  intros (K1 & u1 & H1 & E1 & ->) (K2 & u2 & H2 & E2 & ->). exists K2, u2. split; [etransitivity; [exact H1|exact H2]|].
  split; [simpl in E2; congruence|done].
Qed.
Lemma typed_cons s c s1 c' : typed s c s1 -> typed s c' (set_cons c' s1).
Proof. intros (K & u & H & E & ->). exists K, u. done. Qed.
Lemma typed_refl s : typed s (cons s) s.
Proof. exact (typed_printed [] s s (printed_nil s)). Qed.
Lemma typed_get s c s' : typed s c s' -> cons s' = c.
Proof. now intros (K & u & _ & _ & ->). Qed.
Lemma typed_can d s c s' : can_print d s -> typed s c s' -> can_print d s'.
Proof. intros (H1 & H2 & H3) (K & u & HK & Hu & ->). split; [simpl; now rewrite <- HK|]. split; [done|]. simpl. congruence. Qed.

Lemma wp_updcons f (Q : unit -> kern -> Prop) s : Q tt (set_cons (f (cons s)) s) -> wp (updcons f) Q s.
Proof. exact (wp_modify _ Q s). Qed.

Lemma last_current c : cinv c -> waiting c < total c -> cbuf c (c_e c - 1) ∈ current c.
Proof.
  intros Hc Hlt. pose proof (u32_range (c_w c - c_r c)) as Hw. fold (waiting c) in Hw.
  apply list_elem_of_lookup. exists (Z.to_nat (total c - 1 - waiting c)). unfold current, input. rewrite lookup_drop.
  replace (Z.to_nat (waiting c) + Z.to_nat (total c - 1 - waiting c))%nat with (Z.to_nat (total c - 1)) by lia.
  apply ring_last; auto. unfold total in *. lia.
Qed.
Lemma e_eq_w c : cinv c -> (c_e c =? c_w c) = (total c =? waiting c).
Proof.
  intros Hc. destruct (Z.eqb_spec (c_e c) (c_w c)) as [E|E], (Z.eqb_spec (total c) (waiting c)) as [F|F]; try done.
  - exfalso. apply F. unfold total, waiting. now rewrite E.
  - exfalso. apply E. apply (u32_sub_eq _ _ (c_r c)); [apply Hc|apply Hc|exact F].
Qed.
Lemma current_nil c : cinv c -> total c = waiting c -> current c = [].
Proof. intros Hc E. apply nil_length_inv. pose proof (current_length c Hc). lia. Qed.

Lemma kill_line_spec d fuel : forall s, can_print d s -> cinv (cons s) -> (length (current (cons s)) <= fuel)%nat ->
  wp (kill_line fuel) (fun _ s' => exists c, typed s c s' /\ cinv c /\ lines c = lines (cons s) /\ current c = []) s.
Proof.
  induction fuel as [|fuel IH]; intros s Hp Hc Hf; simpl; wsteps; rewrite e_eq_w by done;
    pose proof (current_length _ Hc) as Hcl; pose proof (ci_order _ Hc).
  - rewrite (proj2 (Z.eqb_eq _ _)) by lia. simpl. wsteps. exists (cons s). split; [apply typed_refl|].
    split; [done|]. split; [done|]. apply current_nil; [done|lia].
  - destruct (Z.eqb_spec (total (cons s)) (waiting (cons s))) as [E|E]; simpl.
    { wsteps. exists (cons s). split; [apply typed_refl|]. split; [done|]. split; [done|]. now apply current_nil. }
    pose proof (last_current _ Hc ltac:(lia)) as Hlast. pose proof (ci_line _ Hc) as Hnl. rewrite Forall_forall in Hnl.
    rewrite (proj2 (Z.eqb_neq _ 10)) by (now apply Hnl). simpl. wsteps.
    destruct (cinv_back (cons s) Hc ltac:(lia)) as (I1 & I2 & I3). set (c1 := set_c_e _ (cons s)) in *.
    pose proof (typed_cons s _ s c1 (typed_refl s)) as T1. apply wp_updcons. wsteps. fold c1.
    eapply wp_mono; [apply (consputc_spec d); eapply typed_can; eauto|]. intros [] s2 H2.
    pose proof (typed_trans _ _ _ _ _ T1 (typed_printed _ _ _ H2)) as T2. simpl in T2. pose proof (typed_get _ _ _ T2) as G2.
    eapply wp_mono; [apply IH; [eapply typed_can; eauto|now rewrite G2|rewrite G2, I3, length_take; lia]|].
    intros [] s3 (c3 & T3 & J1 & J2 & J3). exists c3. split; [eapply typed_trans; eauto|]. split; [done|]. split; [|done].
    rewrite J2, G2. exact I2.
Qed.

Section Refine.
Context {L : Layout} {P : Patience}.

(** The handler's work between [acquire] and [release]: lock state [K1]
    when it starts. *)
Definition handled (s : kern) (K1 : lockst) (c : console) (s' : kern) : Prop :=
  exists K ps u, lk_eq K1 K /\ u_lsr_idle u = true /\
    s' = set_km (set_lks K (set_procs ps (km s))) (set_uart_ u (set_cons c s)) /\
    forall K2, lk_eq (lks (km s)) K2 -> calm (km s) (set_lks K2 (set_procs ps (km s))).

Lemma handled_typed s K1 c s' : u_lsr_idle (uart_ s) = true -> typed (set_km (set_lks K1 (km s)) s) c s' -> handled s K1 c s'.
Proof.
  intros Hi (K & u & HK & Hu & ->). exists K, (procs (km s)), u. split; [exact HK|]. split; [simpl in Hu; congruence|].
  split; [now destruct s as [[] ? ? ? ? ? ? ? ? ? ? ? ? ?]|]. intros K2 HK2.
  replace (set_procs (procs (km s)) (km s)) with (km s) by (now destruct (km s)). now apply calm_lks.
Qed.

(** A character that is not a command. *)
Lemma put_char_spec i n s K1 s1 c :
  ready i n (km s) -> u_lsr_idle (uart_ s) = true -> lk_ok 2 K1 -> acquired Lcons (lks (km s)) K1 ->
  s1 = set_km (set_lks K1 (km s)) s -> cinv (cons s) -> 0 < c < 256 -> total (cons s) < INPUT_BUF_SIZE ->
  wp (do! consputc c;
      do! updcons (fun co => set_c_e (u32 (c_e co + 1)) (put_cbuf (c_e co) c co));
      let! co := gets cons in
      if (c =? 10) || (c =? CTRL 68) || (u32 (c_e co - c_r co) =? INPUT_BUF_SIZE) then
        do! updcons (fun co => set_c_w (c_e co) co);
        mk (wakeup ChCons)
      else ret tt)
    (fun _ s' => exists co, handled s K1 co s' /\ cinv co /\ (lines co, current co) =
      if (c =? 10) || (c =? CTRL 68) || (total (cons s) + 1 =? INPUT_BUF_SIZE)
      then (lines (cons s) ++ current (cons s) ++ [c], []) else (lines (cons s), current (cons s) ++ [c])) s1.
Proof.
  intros Hr Hi Hok Ha -> Hc Hch Ht. set (s1 := set_km (set_lks K1 (km s)) s).
  assert (can_print 2 s1) as Hp by (split; [exact Hok|split; [lia|exact Hi]]).
  destruct (input_put (cons s) c Hc Ht) as (E1 & _ & _). pose proof (u8_small c ltac:(lia)) as E8.
  wsteps. eapply wp_mono; [now apply (consputc_spec 2)|]. intros [] s2 H2. apply typed_printed in H2 as T2.
  pose proof (typed_get _ _ _ T2) as G2. change (cons s1) with (cons s) in G2. wsteps. apply wp_updcons. wsteps. rewrite G2.
  set (co := set_c_e _ (put_cbuf _ c (cons s))). pose proof (typed_cons _ _ _ co T2) as T3.
  fold co in E1. change (u32 (c_e (cons (set_cons co s2)) - c_r (cons (set_cons co s2)))) with (total co). rewrite E1.
  destruct ((c =? 10) || (c =? CTRL 68) || (total (cons s) + 1 =? INPUT_BUF_SIZE)) eqn:Eb.
  - wsteps. apply wp_updcons. wsteps. change (cons (set_cons co s2)) with co. set (co' := set_c_w (c_e co) co).
    destruct T2 as (K2 & u2 & HK2 & Hu2 & ->). simpl in HK2, Hu2.
    assert (acquired Lcons (lks (km s)) K2) as Ha2.
    { eapply acquired_eq; eauto; [|reflexivity]. pose proof Hr as ((c0 & Hc0 & N0 & N1 & N2) & _). exists c0. repeat split; auto; lia || apply N2. }
    apply wp_mk. eapply wp_mono; [apply (wakeup_in i n Lcons K2 (km s)); [done|now rewrite <- HK2|done|discriminate]|].
    intros [] m (K3 & ps & HK3 & -> & Hcalm). exists co'. destruct (cinv_put_commit (cons s) c Hc Ht) as (I1 & I2 & I3). rewrite E8 in I2.
    split; [|split; [exact I1|now rewrite <- I2, <- I3]].
    exists K3, ps, u2. split; [etransitivity; [exact HK2|exact HK3]|]. split; [congruence|]. split; [done|exact Hcalm].
  - wsteps. exists co. destruct (lines_put (cons s) c Hc Ht) as [J1 J2]. fold co in J1, J2. rewrite E8 in J2.
    split; [now apply handled_typed|]. split; [|now rewrite J1, J2].
    apply cinv_put; auto. rewrite u8_small by lia. apply orb_false_iff in Eb as [Eb _]. apply orb_false_iff in Eb as [Eb _]. now apply Z.eqb_neq in Eb.
Qed.

(** C9: the line discipline.  Whatever character arrives, the interrupt
    handler does to the circular buffer what [edit] does to two lists, the
    bytes waiting for readers and the line being edited: kill erases the
    line, backspace its last character, other characters are appended while
    there is room (a carriage return as a newline), and a newline, an
    end-of-file mark or a full buffer hands the line to the readers.  The
    indices, which wrap at 32 bits, stay in order and at most 128 apart; the
    handler returns with the lock free, having woken readers at most. *)
Theorem consoleintr_refines i n s c :
  ready i n (km s) -> u_lsr_idle (uart_ s) = true -> cinv (cons s) -> 0 <= c < 256 ->
  wp (consoleintr c) (fun _ s' => cinv (cons s') /\
    (lines (cons s'), current (cons s')) = edit c (lines (cons s), current (cons s)) /\
    calm (km s) (km s') /\ u_lsr_idle (uart_ s') = true /\
    s' = set_km (km s') (set_uart_ (uart_ s') (set_cons (cons s') s))) s.
Proof.
  intros Hr Hi Hc Hch. pose proof Hr as (Hok & Hlen & Hfree & _). unfold consoleintr. wsteps. apply wp_mk.
  apply (wp_acquire _ 3); [done|lia|apply Hfree|]. intros K1 HokK1 Ha. apply wp_bind.
  change (3 - 1) with 2 in HokK1. set (s1 := set_km (set_lks K1 (km s)) s).
  assert (can_print 2 s1) as Hp by (split; [exact HokK1|split; [lia|exact Hi]]).
  pose proof (lines_length _ Hc) as HL. pose proof (current_length _ Hc) as HC. pose proof (ci_order _ Hc).
  pose proof (u32_range (c_w (cons s) - c_r (cons s))) as Hw. fold (waiting (cons s)) in Hw.
  assert (Z.of_nat (length (lines (cons s)) + length (current (cons s))) = total (cons s)) as HT by lia.
  apply (wp_mono _ (fun _ s' => exists co, handled s K1 co s' /\ cinv co /\
    (lines co, current co) = edit c (lines (cons s), current (cons s)))).
  - unfold edit. rewrite HT. destruct (c =? CTRL 80).
    { eapply wp_mono; [apply (procdump_spec 2 s1 Hp); [lia|simpl; rewrite (acquired_getlock _ _ _ _ Ha); [apply Hfree|discriminate]|exact Hlen]|].
      intros [] s2 [o H2]. exists (cons s). apply typed_printed in H2. split; [now apply handled_typed|done]. }
    destruct (c =? CTRL 85).
    { eapply wp_mono; [apply (kill_line_spec 2 _ s1 Hp Hc)|].
      { change (cons s1) with (cons s). lia. }
      intros [] s2 (co & T2 & I1 & I2 & I3). exists co. split; [now apply handled_typed|]. split; [done|]. now rewrite I2, I3. }
    destruct ((c =? CTRL 72) || (c =? 127)).
    { wsteps. change (cons s1) with (cons s). rewrite e_eq_w by done.
      destruct (Z.eqb_spec (total (cons s)) (waiting (cons s))) as [E|E]; simpl negb; cbv iota.
      - wsteps. exists (cons s). split; [apply handled_typed; [done|exact (typed_refl s1)]|]. split; [done|].
        rewrite (current_nil _ Hc E). done.
      - wsteps. apply wp_updcons. change (cons s1) with (cons s). destruct (cinv_back (cons s) Hc ltac:(lia)) as (I1 & I2 & I3).
        set (co := set_c_e _ (cons s)) in *. pose proof (typed_cons s1 _ s1 co (typed_refl s1)) as T1.
        eapply wp_mono; [apply (consputc_spec 2); eapply typed_can; eauto|]. intros [] s2 H2. apply typed_printed in H2.
        exists co. split; [apply handled_typed; [done|exact (typed_trans _ _ _ _ _ T1 H2)]|]. split; [done|]. now rewrite I2, I3. }
    wsteps. change (u32 (c_e (cons s1) - c_r (cons s1))) with (total (cons s)).
    destruct (Z.eqb_spec c 0) as [->|Hc0]; simpl negb; simpl andb; simpl orb; cbv iota.
    { wsteps. exists (cons s). split; [apply handled_typed; [done|exact (typed_refl s1)]|done]. }
    rewrite Z.leb_antisym. destruct (Z.ltb_spec (total (cons s)) INPUT_BUF_SIZE) as [Hlt|Hge]; simpl negb; cbv iota.
    + apply (put_char_spec i n s K1 s1); auto. destruct (c =? 13); lia.
    + wsteps. exists (cons s). split; [apply handled_typed; [done|exact (typed_refl s1)]|done].
  - intros [] s2 (co & (K & ps & u & HK & Hu & -> & Hcalm) & Hco & E). apply wp_mk.
    eapply (wp_release _ 3 (lks (km s)) K1); [done|lia|apply Hfree|done|exact HK|]. intros K2 HK2. simpl.
    split; [done|]. split; [done|]. split; [now apply Hcalm|]. split; done.
Qed.
End Refine.
