(* ===== verification/Pipe.v ===== *)
(** * Pipes (kernel/pipe.c)

    A pipe is a bounded buffer between processes, in a page of its own.
    The model keeps the pipes beside RAM, indexed by the address of their
    page.  [queue] is the abstract view, the list of bytes written and not
    yet read: [pipewrite] appends to it, [piperead] takes from its front. *)

From S2P Require Import Prelude.
From S2P Require Import Mach.
From S2P Require Import Spinlock.
From S2P Require Import Kalloc.
From S2P Require Import Vm.
From S2P Require Import Pagetable.
From S2P Require Import Uvm.
From S2P Require Import Proc.
From S2P Require Import Kstate.
From S2P Require Import Ring.
From S2P Require Import Sleeplock.

Definition getpipe (pi : Z) : M kern pipe := fun s => orfault (pipes s !! pi) s.
Definition updpipe (pi : Z) (f : pipe -> pipe) : M kern unit :=
  let! p := getpipe pi in modify (fun s => set_pipes (<[pi := f p]> (pipes s)) s).

(** [pi->data[pi->nwrite++ % PIPESIZE] = ch]. *)
Definition pipe_put (ch : Z) (p : pipe) : pipe :=
  set_p_nwrite (u32 (p_nwrite p + 1))
    (set_p_data (<[Z.to_nat (p_nwrite p mod PIPESIZE) := ch]> (p_data p)) p).

Section Pipe.
Context {L : Layout} {P : Patience}.

Definition pipeclose (pi : Z) (writable : bool) : M kern unit :=
  do! mk (lk (acquire (Lpipe pi)));
  do! (if writable
       then do! updpipe pi (set_p_writeopen false); mk (wakeup (ChPipeR pi))
       else do! updpipe pi (set_p_readopen false); mk (wakeup (ChPipeW pi)));
  let! p := getpipe pi in
  if negb (p_readopen p) && negb (p_writeopen p) then
    do! mk (lk (release (Lpipe pi)));
    do! mk (kfree pi);
    modify (fun s => set_pipes (delete pi (pipes s)) s)
  else mk (lk (release (Lpipe pi))).

(** The loop of [pipewrite]: [inr] is an early return, [inl] the count. *)
Fixpoint pipewrite_loop (fuel : nat) (pi : Z) (pr : nat) (addr n i : Z) : M kern (Z + Z) :=
  if i <? n then
    match fuel with
    | O => fun _ => Spin
    | S f =>
      let! p := getpipe pi in
      let! dead := (if negb (p_readopen p) then ret true else let! k := mk (killed pr) in ret (negb (k =? 0))) in
      if dead then do! mk (lk (release (Lpipe pi))); ret (inr (-1))
      else if p_nwrite p =? u32 (p_nread p + PIPESIZE) then
        do! mk (wakeup (ChPipeR pi));
        do! mk (sleep (ChPipeW pi) (Lpipe pi));
        pipewrite_loop f pi pr addr n i
      else
        let! q := mk (getproc pr) in
        let! r := mk (copyin (pagetable q) (u64 (addr + i)) 1) in
        if fst r =? -1 then ret (inl i)
        else
          do! updpipe pi (pipe_put (default 0 (head (snd r))));
          pipewrite_loop f pi pr addr n (i + 1)
    end
  else ret (inl i).
Definition pipewrite (pi addr n : Z) : M kern Z :=
  let! pr := mk curp in
  do! mk (lk (acquire (Lpipe pi)));
  let! r := pipewrite_loop (Z.to_nat n + patience) pi pr addr n 0 in
  match r with
  | inr e => ret e
  | inl i =>
    do! mk (wakeup (ChPipeR pi));
    do! mk (lk (release (Lpipe pi)));
    ret i
  end.

(** Wait for data or for the last writer to leave; [false] when killed. *)
Fixpoint await_data (fuel : nat) (pi : Z) (pr : nat) : M kern bool :=
  let! p := getpipe pi in
  if (p_nread p =? p_nwrite p) && p_writeopen p then
    let! k := mk (killed pr) in
    if negb (k =? 0) then ret false
    else
      match fuel with
      | O => fun _ => Spin
      | S f => do! mk (sleep (ChPipeR pi) (Lpipe pi)); await_data f pi pr
      end
  else ret true.
Fixpoint piperead_loop (fuel : nat) (pi : Z) (pr : nat) (addr n i : Z) : M kern Z :=
  if i <? n then
    match fuel with
    | O => fun _ => Spin
    | S f =>
      let! p := getpipe pi in
      if p_nread p =? p_nwrite p then ret i
      else
        let! ch := orfault (p_data p !! Z.to_nat (p_nread p mod PIPESIZE)) in
        let! q := mk (getproc pr) in
        let! r := mk (copyout (pagetable q) (u64 (addr + i)) [ch]) in
        if r =? -1 then ret (if i =? 0 then -1 else i)
        else
          do! updpipe pi (fun p => set_p_nread (u32 (p_nread p + 1)) p);
          piperead_loop f pi pr addr n (i + 1)
    end
  else ret i.
Definition piperead (pi addr n : Z) : M kern Z :=
  let! pr := mk curp in
  do! mk (lk (acquire (Lpipe pi)));
  let! ok := await_data patience pi pr in
  if negb ok then do! mk (lk (release (Lpipe pi))); ret (-1)
  else
    let! i := piperead_loop (Z.to_nat n) pi pr addr n 0 in
    do! mk (wakeup (ChPipeW pi));
    do! mk (lk (release (Lpipe pi)));
    ret i.
End Pipe.

(** ** The queue *)

Definition queue (p : pipe) : list Z := ring PIPESIZE (p_data p) (p_nread p) (u32 (p_nwrite p - p_nread p)).

(** The counters are unsigned ints at most a buffer apart. *)
Record pinv (p : pipe) : Prop := {
  pi_len : length (p_data p) = Z.to_nat PIPESIZE;
  pi_r : 0 <= p_nread p < 4294967296; pi_w : 0 <= p_nwrite p < 4294967296;
  pi_full : u32 (p_nwrite p - p_nread p) <= PIPESIZE;
}.

Lemma pipesize_pos : 0 < PIPESIZE.
Proof. done. Qed.
Lemma pipesize_div : (PIPESIZE | 4294967296).
Proof. now exists 8388608. Qed.
#[local] Hint Resolve pipesize_pos pipesize_div : core.

Lemma queue_length p : pinv p -> Z.of_nat (length (queue p)) = u32 (p_nwrite p - p_nread p).
Proof. intros Hp. unfold queue. rewrite ring_length. pose proof (u32_range (p_nwrite p - p_nread p)). lia. Qed.

(** The two tests of the counters, in terms of the queue. *)
Lemma full_spec p : pinv p -> (p_nwrite p =? u32 (p_nread p + PIPESIZE)) = (Z.of_nat (length (queue p)) =? PIPESIZE).
Proof.
  intros Hp. rewrite queue_length by done. pose proof (pi_w _ Hp).
  destruct (Z.eqb_spec (p_nwrite p) (u32 (p_nread p + PIPESIZE))) as [E|E],
    (Z.eqb_spec (u32 (p_nwrite p - p_nread p)) PIPESIZE) as [F|F]; try done; exfalso.
  - apply F. rewrite E, u32_u32_sub. replace (p_nread p + PIPESIZE - p_nread p) with PIPESIZE by lia. reflexivity.
  - apply E. apply (u32_sub_eq _ _ (p_nread p)); [done|apply u32_range|]. rewrite F, u32_u32_sub.
    replace (p_nread p + PIPESIZE - p_nread p) with PIPESIZE by lia. reflexivity.
Qed.
Lemma empty_spec p : pinv p -> (p_nread p =? p_nwrite p) = (Z.of_nat (length (queue p)) =? 0).
Proof.
  intros Hp. rewrite queue_length by done. destruct Hp as [_ A B _].
  destruct (Z.eqb_spec (p_nread p) (p_nwrite p)) as [E|E], (Z.eqb_spec (u32 (p_nwrite p - p_nread p)) 0) as [F|F]; try done; exfalso.
  - apply F. rewrite E, Z.sub_diag. done.
  - apply E. symmetry. apply (u32_sub_eq _ _ (p_nread p)); [done|done|]. now rewrite F, Z.sub_diag.
Qed.

Lemma pipe_put_spec ch p : pinv p -> Z.of_nat (length (queue p)) < PIPESIZE ->
  pinv (pipe_put ch p) /\ queue (pipe_put ch p) = queue p ++ [ch].
Proof.
  intros Hp Hlt. rewrite queue_length in Hlt by done. pose proof (u32_range (p_nwrite p - p_nread p)).
  assert (u32 (u32 (p_nwrite p + 1) - p_nread p) = u32 (p_nwrite p - p_nread p) + 1) as E.
  { rewrite u32_u32_sub. replace (p_nwrite p + 1 - p_nread p) with (p_nwrite p - p_nread p + 1) by lia. apply u32_shift. lia. }
  split.
  - destruct Hp as [A1 A2 A3 A4]. constructor; simpl; [now rewrite length_insert|done|apply u32_range|lia].
  - unfold queue, pipe_put. simpl. rewrite E. apply ring_put; auto. apply Hp.
Qed.

Definition pipe_pop (p : pipe) : pipe := set_p_nread (u32 (p_nread p + 1)) p.
Lemma pipe_pop_spec p b q : pinv p -> queue p = b :: q ->
  p_data p !! Z.to_nat (p_nread p mod PIPESIZE) = Some b /\ pinv (pipe_pop p) /\ queue (pipe_pop p) = q.
Proof.
  intros Hp Hq. pose proof (queue_length p Hp) as Hl. rewrite Hq in Hl. simpl in Hl.
  assert (u32 (p_nwrite p - u32 (p_nread p + 1)) = u32 (p_nwrite p - p_nread p) - 1) as E.
  { rewrite u32_sub_u32. replace (p_nwrite p - (p_nread p + 1)) with (p_nwrite p - p_nread p + -1) by lia.
    pose proof (u32_range (p_nwrite p - p_nread p)). rewrite u32_shift by lia. lia. }
  unfold queue in Hq. rewrite ring_get in Hq by (auto; lia). injection Hq as Hb Hr.
  pose proof (Z.mod_pos_bound (p_nread p) PIPESIZE ltac:(done)).
  destruct (lookup_lt_is_Some_2 (p_data p) (Z.to_nat (p_nread p mod PIPESIZE))) as [x Hx]; [rewrite (pi_len _ Hp); lia|].
  rewrite Hx in Hb |- *. simpl in Hb. split; [congruence|]. split.
  - destruct Hp as [A1 A2 A3 A4]. constructor; simpl; [done|apply u32_range|done|lia].
  - unfold queue, pipe_pop. simpl. rewrite E. exact Hr.
Qed.

Section Specs.
Context {L : Layout} {LO : LayoutOk L} {P : Patience}.
Variables (i : nat) (pid_ : Z).
Implicit Types (s : kern) (m : mach) (p : pipe).

Lemma wp_getpipe pi p (Q : pipe -> kern -> Prop) s : pipes s !! pi = Some p -> Q p s -> wp (getpipe pi) Q s.
Proof. intros H HQ. unfold wp, getpipe, orfault. now rewrite H. Qed.
Lemma wp_updpipe pi f p (Q : unit -> kern -> Prop) s :
  pipes s !! pi = Some p -> Q tt (set_pipes (<[pi := f p]> (pipes s)) s) -> wp (updpipe pi f) Q s.
Proof. intros H HQ. apply wp_bind, (wp_getpipe pi p); [done|]. now apply wp_modify. Qed.

(** Inside the pipe's critical section: the pipe is [p], the machine [m]. *)
Definition inside s (pi : Z) (K : lockst) m p : kern := set_km (set_lks K m) (set_pipes (<[pi := p]> (pipes s)) s).

Lemma wp_curp_ready (Q : nat -> mach -> Prop) m :
  ready i pid_ m -> (forall K, lk_eq (lks m) K -> Q i (set_lks K m)) -> wp curp Q m.
Proof.
  intros (Hok & _ & _ & c & _ & Hc & Hci & _) HQ. unfold curp. wsteps. apply (wp_myproc 3 c); [done|lia|done|]. intros K HK.
  rewrite Hci. wsteps. now apply HQ.
Qed.

(** [killed] inside a critical section. *)
Lemma killed_in k q K m :
  lk_ok 2 K -> getlock K (Lproc k) = unlocked -> procs m !! k = Some q ->
  wp (killed k) (fun r m' => r = killed_ q /\ exists K', lk_eq K K' /\ m' = set_lks K' m) (set_lks K m).
Proof.
  intros Hok Hl Hq. unfold killed. wsteps. apply (wp_acquire _ 2); [done|lia|done|]. intros K1 _ Ha. wsteps.
  apply (wp_getproc k q); [done|]. wsteps. eapply (wp_release _ 2 K K1); [done|lia|done|done|reflexivity|]. intros K2 HK2. wsteps.
  split; [done|]. exists K2. done.
Qed.

(** ** Reading *)

Lemma piperead_loop_spec s pi K q root fuel : forall p m addr n k,
  pinv p -> bytes (queue p) -> procs m !! i = Some q -> pagetable q = root -> pt_wf m root ->
  dest m root (addr + k) (Z.to_nat (Z.min (n - k) (Z.of_nat (length (queue p))))) ->
  0 <= k <= n -> n - k <= Z.of_nat fuel ->
  let c := Z.to_nat (Z.min (n - k) (Z.of_nat (length (queue p)))) in
  wp (piperead_loop fuel pi i addr n k) (fun r s' => r = k + Z.of_nat c /\ exists m' p',
    s' = inside s pi K m' p' /\ copied m root (addr + k) (take c (queue p)) m' /\ pinv p' /\ queue p' = drop c (queue p))
    (inside s pi K m p).
Proof.
  induction fuel as [|fuel IH]; intros p m addr n k Hp Hby Hq Hroot Hwf Hd Hk Hf c.
  all: destruct (decide (k < n)) as [Hlt|Hge].
  2,4: assert (c = 0%nat) as -> by lia; simpl; rewrite (proj2 (Z.ltb_ge k n)) by lia; wsteps; split; [lia|]; exists m, p;
    split; [done|]; split; [exists (ram m); split; [now destruct m|done]|]; now rewrite drop_0.
  { lia. }
  simpl. rewrite (proj2 (Z.ltb_lt k n)) by done. wsteps. apply (wp_getpipe pi p); [simpl; apply lookup_insert_eq|].
  rewrite empty_spec by done. destruct (queue p) as [|b l] eqn:Eq.
  { rewrite (proj2 (Z.eqb_eq _ 0)) by done. assert (c = 0%nat) as -> by (unfold c; simpl; lia). wsteps. split; [lia|]. exists m, p.
    split; [done|]. split; [exists (ram m); split; [now destruct m|done]|]. now rewrite Eq. }
  rewrite (proj2 (Z.eqb_neq _ 0)) by (simpl; lia). destruct (pipe_pop_spec p b l Hp Eq) as (Hb & Hp' & Hq').
  wsteps. rewrite Hb. simpl orfault. wsteps. apply wp_mk, (wp_getproc i q); [done|]. wsteps. rewrite Hroot.
  assert (c = S (Z.to_nat (Z.min (n - (k + 1)) (Z.of_nat (length l))))) as Ec by (unfold c; simpl length; lia).
  set (c' := Z.to_nat (Z.min (n - (k + 1)) (Z.of_nat (length l)))) in *. change (Z.to_nat (Z.min (n - k) (Z.of_nat (length (b :: l))))) with c in Hd.
  rewrite Ec in Hd |- *. pose proof (dest_take m root (addr + k) (S c') 1 ltac:(lia) Hd) as Hd1. pose proof Hd as (Hd0 & Hdm & _).
  assert (u64 (addr + k) = addr + k) as -> by (apply u64_small; unfold MAXVA in Hdm; lia).
  apply Forall_cons in Hby as [Hb8 Hby]. apply wp_mk. eapply wp_mono.
  { apply (copyout_loop_spec _ _ root (addr + k) [b]); [simpl; lia|apply (pt_wf_same m); done|exact Hd1|now apply Forall_singleton]. }
  intros r m1 [-> (mm & -> & C1 & C2)]. rewrite (proj2 (Z.eqb_neq 0 (-1))) by lia. wsteps.
  assert (copied m root (addr + k) [b] (set_ram mm m)) as HC by (exists mm; done).
  destruct (copied_pt m root (addr + k) [b] _ Hwf Hd1 HC) as (Hwf1 & Hpte1 & Ht1).
  eapply wp_updpipe; [simpl; apply lookup_insert_eq|]. unfold set_km, set_pipes. simpl. rewrite insert_insert_eq.
  pose proof (dest_drop m (set_ram mm m) root (addr + k) (S c') 1 ltac:(lia) Hd Hpte1 Ht1) as Hd2.
  replace (S c' - 1)%nat with c' in Hd2 by lia. replace (addr + k + Z.of_nat 1) with (addr + (k + 1)) in Hd2 by lia.
  pose proof (IH (pipe_pop p) (set_ram mm m) addr n (k + 1) Hp') as IHp. rewrite Hq' in IHp. fold c' in IHp.
  eapply wp_mono; [apply IHp; auto; lia|]. intros r s' (-> & m' & p' & -> & C3 & Hp2 & Hq2). split; [lia|]. exists m', p'.
  split; [done|]. split; [|done]. replace (addr + (k + 1)) with (addr + k + Z.of_nat (length [b])) in C3 by (simpl; lia).
  apply (copied_app m root (addr + k) [b] (take c' l) (set_ram mm m)); auto.
  apply (dest_take m root _ (S c')); [|done]. simpl. rewrite length_take. lia.
Qed.

Lemma await_data_ready fuel pi k s p :
  pipes s !! pi = Some p -> pinv p -> queue p <> [] \/ p_writeopen p = false -> await_data fuel pi k s = Ret true s.
Proof.
  intros Hl Hp Hw. assert (wp (await_data fuel pi k) (fun r s' => r = true /\ s' = s) s) as H.
  { destruct fuel; simpl; wsteps; (apply (wp_getpipe pi p); [done|]); rewrite empty_spec by done;
      (replace ((Z.of_nat (length (queue p)) =? 0) && p_writeopen p) with false; [now wsteps|]);
      destruct Hw as [Hw| ->]; try now rewrite andb_false_r.
    all: destruct (queue p); [done|]; now rewrite (proj2 (Z.eqb_neq _ 0)) by (simpl; lia). }
  apply wp_Ret in H as (r & s' & -> & -> & ->). done.
Qed.

(** C29: a pipe is read from its front.  When there are bytes in the pipe, or
    no writer is left, [piperead] does not wait: it returns the number of
    bytes asked for or in the pipe, whichever is smaller (0 at the end of
    the stream), has delivered exactly these first bytes to user memory in
    order, has removed them from the queue, and has left the rest, the
    memory around them and the other pipes alone. *)
Theorem piperead_front s pi p q addr n :
  ready i pid_ (km s) -> pipes s !! pi = Some p -> pinv p -> bytes (queue p) -> queue p <> [] \/ p_writeopen p = false ->
  procs (km s) !! i = Some q -> pt_wf (km s) (pagetable q) -> 0 <= n ->
  let k := Z.to_nat (Z.min n (Z.of_nat (length (queue p)))) in
  dest (km s) (pagetable q) addr k ->
  wp (piperead pi addr n) (fun r s' => r = Z.of_nat k /\ exists m p',
    copied (km s) (pagetable q) addr (take k (queue p)) m /\ calm m (km s') /\
    s' = set_km (km s') (set_pipes (<[pi := p']> (pipes s)) s) /\ pinv p' /\ queue p' = drop k (queue p)) s.
Proof.
  intros Hr Hl Hp Hby Hw Hq Hwf Hn k Hd. unfold piperead. wsteps. apply wp_mk, wp_curp_ready; [done|]. intros K0 HK0. wsteps. apply wp_mk.
  pose proof (ready_calm i pid_ _ _ Hr (calm_lks (km s) K0 HK0)) as (Hok & Hlen & Hfree & Hcur).
  apply (wp_acquire _ 3); [done|lia|apply Hfree|]. intros K1 HokK1 Ha. wsteps.
  match goal with |- wp _ _ ?x => assert (x = inside s pi K1 (km s) p) as -> end.
  { unfold inside, set_km, set_pipes. simpl. now rewrite insert_id. }
  unfold wp at 1. rewrite (await_data_ready _ pi i _ p); [|simpl; apply lookup_insert_eq|done|done].
  simpl negb. cbv iota. wsteps. eapply wp_mono.
  { apply (piperead_loop_spec s pi K1 q (pagetable q)); auto; [|lia..]. now rewrite Z.sub_0_r, Z.add_0_r. }
  rewrite Z.sub_0_r, Z.add_0_r. fold k. intros r s2 (-> & m' & p' & -> & HC & Hp' & Hq'). wsteps. apply wp_mk.
  pose proof HC as (mm & -> & _).
  assert (ready i pid_ (set_ram mm (set_lks K0 (km s)))) as Hr2 by (split; [exact Hok|split; [exact Hlen|split; [exact Hfree|exact Hcur]]]).
  change (set_lks K1 (set_ram mm (km s))) with (set_lks K1 (set_ram mm (set_lks K0 (km s)))).
  eapply wp_mono; [apply (wakeup_in i pid_ (Lpipe pi) K1 (set_ram mm (set_lks K0 (km s)))); [done|done|exact Ha|discriminate]|].
  intros [] m2 (K2 & ps & HK2 & -> & Hcalm). wsteps. apply wp_mk.
  eapply (wp_release _ 3 K0 K1); [exact Hok|lia|apply Hfree|exact Ha|exact HK2|]. intros K3 HK3. wsteps. split; [done|].
  exists (set_ram mm (km s)), p'. split; [done|]. split; [|done]. etransitivity; [|apply Hcalm; exact HK3].
  exact (calm_lks (set_ram mm (km s)) K0 HK0).
Qed.

(** ** Writing *)

(** The same hart with the same page table, whatever locks it holds. *)
Definition same_satp (K K' : lockst) : Prop :=
  forall c, cur K = Some c -> exists c', cur K' = Some c' /\ satp (csr c') = satp (csr c).
(** User memory at [addr] reads as [data] under the page table in use. *)
Definition user_reads m (addr : Z) (data : list Z) : Prop :=
  forall j b K, data !! j = Some b -> same_satp (lks m) K ->
    load_virtual (u64 (addr + Z.of_nat j)) (set_lks K m) = Ret b (set_lks K m).

Lemma same_satp_acquired l K0 K1 K : acquired l K0 K1 -> lk_eq K1 K -> same_satp K0 K.
Proof.
  intros Ha (_ & _ & _ & _ & HK) c Hc. destruct (acquired_cur _ _ _ _ Ha Hc) as (c1 & Hc1 & _ & _ & _ & E).
  destruct (HK c1 Hc1) as (c2 & Hc2 & _ & _ & _ & E2 & _). exists c2. split; [done|]. rewrite <- E2, E. done.
Qed.

Lemma pipewrite_loop_spec s pi m q K1 addr data fuel : forall K p k,
  acquired (Lpipe pi) (lks m) K1 -> lk_ok 2 K1 -> lk_eq K1 K -> (forall l, getlock (lks m) l = unlocked) ->
  procs m !! i = Some q -> killed_ q = 0 -> user_reads m addr data ->
  pinv p -> p_readopen p = true ->
  Z.of_nat (length (queue p)) + (Z.of_nat (length data) - Z.of_nat k) <= PIPESIZE ->
  (k <= length data)%nat -> (length data - k <= fuel)%nat ->
  wp (pipewrite_loop fuel pi i addr (Z.of_nat (length data)) (Z.of_nat k)) (fun r s' =>
    r = inl (Z.of_nat (length data)) /\ exists K' p', lk_eq K1 K' /\ s' = inside s pi K' m p' /\
      pinv p' /\ queue p' = queue p ++ drop k data) (inside s pi K m p).
Proof.
  induction fuel as [|fuel IH]; intros K p k Ha Hok HK Hfree Hq Hkill Hu Hp Hopen Hroom Hk Hf.
  all: destruct (decide (k < length data)%nat) as [Hlt|Hge].
  2,4: assert (k = length data) as -> by lia; simpl; rewrite Z.ltb_irrefl; wsteps; split; [done|]; exists K, p;
    rewrite drop_all, app_nil_r; done.
  { lia. }
  simpl. rewrite (proj2 (Z.ltb_lt (Z.of_nat k) _)) by lia. wsteps. apply (wp_getpipe pi p); [simpl; apply lookup_insert_eq|].
  rewrite Hopen. simpl negb. cbv iota. wsteps. apply wp_mk. eapply wp_mono.
  { apply (killed_in i q K m); [now rewrite <- HK| |done].
    rewrite (lk_eq_getlock _ _ _ HK), (acquired_getlock _ _ _ _ Ha); [apply Hfree|discriminate]. }
  intros r m1 (-> & K2 & HK2 & ->). rewrite Hkill. wsteps. rewrite full_spec by done. rewrite (proj2 (Z.eqb_neq _ PIPESIZE)) by lia.
  change (0 =? 0) with true. simpl negb. cbv iota. wsteps. apply wp_mk, (wp_getproc i q); [done|]. wsteps. apply wp_mk.
  destruct (lookup_lt_is_Some_2 data k Hlt) as [b Hb]. assert (lk_eq K1 K2) as HK12 by (etransitivity; [exact HK|exact HK2]).
  unfold copyin, copyin_new. change (Z.to_nat 1) with 1%nat. cbn [load_bytes]. wsteps.
  pose proof (Hu k b K2 Hb ltac:(eapply same_satp_acquired; eauto)) as Hv. apply wp_Ret. exists b, (set_lks K2 m). split; [exact Hv|]. wsteps.
  simpl fst. simpl snd. rewrite (proj2 (Z.eqb_neq 0 (-1))) by lia. wsteps.
  eapply wp_updpipe; [simpl; apply lookup_insert_eq|]. unfold set_km, set_pipes. simpl. rewrite insert_insert_eq.
  destruct (pipe_put_spec b p Hp ltac:(lia)) as [Hp1 Hq1]. replace (Z.of_nat k + 1) with (Z.of_nat (S k)) by lia.
  eapply wp_mono; [apply (IH K2 (pipe_put b p) (S k)); auto; rewrite ?Hq1, ?length_app; simpl length; lia|].
  intros r s' (-> & K' & p' & E1 & -> & E2 & E3). split; [done|]. exists K', p'. split; [done|]. split; [done|]. split; [done|].
  rewrite E3, Hq1, <- app_assoc. simpl. now rewrite <- (drop_S _ _ _ Hb).
Qed.

(** C28: a pipe is written at its end.  With an open reader and room for all
    the bytes, [pipewrite] of a process that has not been killed does not
    wait: it returns their number and appends them to the queue in order,
    keeping the invariant of the buffer (the counters may wrap).  It wakes the
    readers: every other process that sleeps on [&pi->nread] is runnable
    afterwards, the other processes are as they were, and nothing else
    changes. *)
Theorem pipewrite_appends s pi p q addr data :
  ready i pid_ (km s) -> pipes s !! pi = Some p -> pinv p -> p_readopen p = true ->
  procs (km s) !! i = Some q -> killed_ q = 0 -> user_reads (km s) addr data ->
  Z.of_nat (length (queue p)) + Z.of_nat (length data) <= PIPESIZE ->
  wp (pipewrite pi addr (Z.of_nat (length data))) (fun r s' => r = Z.of_nat (length data) /\
    calm (km s) (km s') /\ wakes i (ChPipeR pi) (km s) (km s') /\
    exists p', s' = set_km (km s') (set_pipes (<[pi := p']> (pipes s)) s) /\ pinv p' /\ queue p' = queue p ++ data) s.
Proof.
  intros Hr Hl Hp Hopen Hq Hk Hu Hroom. unfold pipewrite. wsteps. apply wp_mk, wp_curp_ready; [done|]. intros K0 HK0. wsteps. apply wp_mk.
  pose proof (ready_calm i pid_ _ _ Hr (calm_lks (km s) K0 HK0)) as Hr0. pose proof Hr0 as (Hok & Hlen & Hfree & Hcur).
  apply (wp_acquire _ 3); [done|lia|apply Hfree|]. intros K1 HokK1 Ha. wsteps.
  match goal with |- wp _ _ ?x => assert (x = inside s pi K1 (set_lks K0 (km s)) p) as -> end.
  { unfold inside, set_km, set_pipes. simpl. now rewrite insert_id. }
  rewrite Nat2Z.id. eapply wp_mono.
  { apply (pipewrite_loop_spec s pi (set_lks K0 (km s)) q K1 addr data _ K1 p 0); auto; try lia; [reflexivity|].
    intros j b K Hj HK. apply (Hu j b K Hj). intros c Hc. destruct HK0 as (_ & _ & _ & _ & HK0).
    destruct (HK0 c Hc) as (c0 & Hc0 & _ & _ & _ & E0 & _). destruct (HK c0 Hc0) as (c1 & Hc1 & E1). exists c1. split; [done|]. congruence. }
  intros r s1 (-> & K2 & p' & HK2 & -> & Hp' & Hq'). wsteps. apply wp_mk.
  assert (acquired (Lpipe pi) K0 K2) as Ha2.
  { destruct Hok as (c0 & Hc0 & N0 & N1 & N2). apply (acquired_eq (Lpipe pi) K0 K0 K1 K2); [|reflexivity|exact Ha|exact HK2].
    exists c0. repeat split; auto; lia || apply N2. }
  eapply wp_mono; [apply (wakeup_in_exact i pid_ (Lpipe pi) K2 (set_lks K0 (km s))); [done|now rewrite <- HK2|exact Ha2|discriminate]|].
  intros [] m2 (K3 & HK3 & ->). wsteps. apply wp_mk.
  eapply (wp_release _ 3 K0 K2); [exact Hok|lia|apply Hfree|exact Ha2|exact HK3|]. intros K4 HK4. wsteps. split; [done|].
  pose proof Hcur as (c & _ & _ & Hci & _).
  split; [etransitivity; [exact (calm_lks (km s) K0 HK0)|rewrite <- Hci; apply calm_wakeup; exact HK4]|].
  split; [exact (wakes_imap i (ChPipeR pi) (km s) K4)|]. exists p'. done.
Qed.
End Specs.
