(* ===== verification/Ioex.v ===== *)
(** * The console and a pipe in a concrete state

    The theorems of [Console] and [Pipe] are applied to the small machine of
    [Vmex], with a pipe whose counters are about to wrap. *)

From S2P Require Import Prelude.
From S2P Require Import Mach.
From S2P Require Import Spinlock.
From S2P Require Import Kalloc.
From S2P Require Import Vm.
From S2P Require Import Pagetable.
From S2P Require Import Uvm.
From S2P Require Import Vmex.
From S2P Require Import Proc.
From S2P Require Import Kstate.
From S2P Require Import Ring.
From S2P Require Import Sleeplock.
From S2P Require Import Bio.
From S2P Require Import Log.
From S2P Require Import Logex.
From S2P Require Import Fs.
From S2P Require Import Console.
From S2P Require Import Pipe.

(** The console: a line "ab" waits, "cd" is being edited, and the edit index
    is two short of 2^32. *)
Definition console2 : console :=
  Console (replicate 122 0 ++ [97; 10; 99; 100; 0; 0]) 4294967290 4294967292 4294967294.
Definition kern3 : kern := set_cons console2 idle.

Lemma console2_inv : cinv console2.
Proof.
  constructor; [reflexivity|simpl; lia|simpl; lia|simpl; lia|vm_compute; split; discriminate|].
  replace (current console2) with [99; 100] by (vm_compute; reflexivity). repeat constructor; discriminate.
Qed.

Lemma consoleintr_refines_witness :
  wp (consoleintr 101) (fun _ s' => lines (cons s') = [97; 10] /\ current (cons s') = [99; 100; 101]) kern3 /\
  wp (consoleintr 13) (fun _ s' => lines (cons s') = [97; 10; 99; 100; 10] /\ current (cons s') = []) kern3.
Proof.
  assert (lines console2 = [97; 10] /\ current console2 = [99; 100]) as [E1 E2] by (split; vm_compute; reflexivity). split.
  - eapply wp_mono; [apply (consoleintr_refines 0 1 kern3 101); [apply ready1|reflexivity|apply console2_inv|lia]|].
    intros [] s' (_ & H & _). change (cons kern3) with console2 in H. rewrite E1, E2 in H. now injection H.
  - eapply wp_mono; [apply (consoleintr_refines 0 1 kern3 13); [apply ready1|reflexivity|apply console2_inv|lia]|].
    intros [] s' (_ & H & _). change (cons kern3) with console2 in H. rewrite E1, E2 in H. now injection H.
Defined.

(** A pipe that holds three bytes across the wrap of its counters; process 1
    sleeps on the channel of its readers. *)
Definition pipe2 : pipe := Pipe ([3; 0] ++ replicate 508 0 ++ [1; 2]) 4294967294 1 true true.
Definition mach2 : mach :=
  set_procs (proc1 :: Proc.Example.proc0 SLEEPING (ChPipeR (pgn 4)) 2 :: replicate 62 (Proc.Example.proc0 UNUSED NoChan 0)) mach1.
Definition kern4 : kern :=
  Kern mach2 ∅ (replicate 30 no_buf) (seq 0 30) disk1 (log1 0 0 (replicate 30 0)) sb1 [] []
    {[ pgn 4 := pipe2 ]} cons1 uart1 (replicate 10 false) false.

Lemma queue2 : queue pipe2 = [1; 2; 3].
Proof. vm_compute. reflexivity. Qed.
Lemma pipe2_inv : pinv pipe2.
Proof. constructor; [reflexivity|simpl; lia|simpl; lia|vm_compute; discriminate]. Qed.
Lemma ready2 : ready 0 1 mach2.
Proof.
  split; [exists cpu1; repeat split; simpl; lia|]. split; [reflexivity|]. split; [reflexivity|].
  exists cpu1, proc1. repeat split.
Qed.

Lemma pipewrite_appends_witness :
  wp (pipewrite (pgn 4) (pgn 0) 2) (fun r s' => r = 2 /\ exists p', pipes s' = {[ pgn 4 := p' ]} /\
    queue p' = [1; 2; 3] ++ [rd mem1 (pgn 0); rd mem1 (pgn 0 + 1)] /\
    exists q, procs (km s') !! 1%nat = Some q /\ state q = RUNNABLE) kern4.
Proof.
  eapply wp_mono; [apply (pipewrite_appends 0 1 kern4 (pgn 4) pipe2 proc1 (pgn 0) [rd mem1 (pgn 0); rd mem1 (pgn 0 + 1)]);
    [apply ready2|reflexivity|apply pipe2_inv|reflexivity|reflexivity|reflexivity| |rewrite queue2; simpl; lia]|].
  - intros j b K Hj HK. destruct (HK cpu1 eq_refl) as (c & Hc & Es).
    assert (lk mycpu (set_lks K mach2) = Ret c (set_lks K mach2)) as E.
    { unfold lk, zoom, mycpu. cbn [view lks_lens lks set_lks]. rewrite Hc. reflexivity. }
    change (km kern4) with mach2. unfold load_virtual. rewrite (bind_Ret _ _ _ _ _ E). cbv zeta. rewrite Es.
    change (Z.shiftr (satp (csr cpu1)) 60 =? 8) with false. cbv iota. rewrite (bind_Ret _ _ _ _ _ eq_refl).
    destruct j as [|[|j]]; [injection Hj as <-; reflexivity..|discriminate Hj].
  - intros r s' (-> & _ & Hw & p' & E & _ & Hq). split; [done|]. exists p'. rewrite E at 1. split; [reflexivity|]. split; [rewrite Hq; now rewrite queue2|].
    specialize (Hw 1%nat _ eq_refl). rewrite decide_True in Hw by (split; [discriminate|split; reflexivity]). eexists. split; [exact Hw|reflexivity].
Defined.

Lemma piperead_front_witness :
  wp (piperead (pgn 4) 100 2) (fun r s' => r = 2 /\ (exists p', pipes s' = {[ pgn 4 := p' ]} /\ queue p' = [3]) /\
    rd (ram (km s')) (uaddr mem1 (pgn 0) 101) = 2) kern4.
Proof.
  eapply wp_mono; [apply (piperead_front 0 1 kern4 (pgn 4) pipe2 proc1 100 2);
    [apply ready2|reflexivity|apply pipe2_inv| |left; rewrite queue2; discriminate|reflexivity|apply (pt_wf_same mach1); [apply wf1|done|done]|lia|]|].
  - rewrite queue2. repeat constructor; lia.
  - rewrite queue2. apply (dest1 100 2); lia.
  - rewrite queue2. intros r s' (-> & m & p' & (mm & -> & Hm & _) & (_ & Hc & _) & E & _ & Hq). split; [reflexivity|]. split.
    + exists p'. rewrite E. split; [reflexivity|exact Hq].
    + rewrite Hc. exact (Hm 1%nat 2 eq_refl).
Defined.
