(* ===== verification/File.v ===== *)
(** * Open files (kernel/file.c, [pipealloc] of kernel/pipe.c)

    The table of open files, with reference counts shared between file
    descriptors; reading and writing through pipes, devices and inodes. *)

From S2P Require Import Prelude.
From S2P Require Import Mach.
From S2P Require Import Spinlock.
From S2P Require Import Kalloc.
From S2P Require Import Vm.
From S2P Require Import Proc.
From S2P Require Import Kstate.
From S2P Require Import Sleeplock.
From S2P Require Import Bio.
From S2P Require Import Log.
From S2P Require Import Fs.
From S2P Require Import Console.
From S2P Require Import Pipe.

Definition getfile (f : nat) : M kern file := fun s => orfault (ftable s !! f) s.
Definition updfile (f : nat) (g : file -> file) : M kern unit :=
  let! x := getfile f in modify (fun s => set_ftable (<[f := g x]> (ftable s)) s).

Definition fileinit : M kern unit := mk (lk (initlock Lftable)).

Definition filealloc : M kern (option nat) :=
  do! mk (lk (acquire Lftable));
  let! r := mfor (Z.to_nat NFILE) 0 1 (fun i =>
    let! f := getfile (Z.to_nat i) in
    if f_ref f =? 0 then
      do! updfile (Z.to_nat i) (set_f_ref 1);
      do! mk (lk (release Lftable));
      ret (Some (Z.to_nat i))
    else ret None) in
  match r with
  | Some i => ret (Some i)
  | None => do! mk (lk (release Lftable)); ret None
  end.

Definition filedup (f : nat) : M kern nat :=
  do! mk (lk (acquire Lftable));
  let! x := getfile f in
  do! check (negb (f_ref x <? 1)) "filedup";
  do! updfile f (fun x => set_f_ref (i32 (f_ref x + 1)) x);
  do! mk (lk (release Lftable));
  ret f.

Section File.
Context {L : Layout} {P : Patience} {D : DiskDriver}.

Definition fileclose (f : nat) : M kern unit :=
  do! mk (lk (acquire Lftable));
  let! x := getfile f in
  do! check (negb (f_ref x <? 1)) "fileclose";
  do! updfile f (fun x => set_f_ref (i32 (f_ref x - 1)) x);
  let! x := getfile f in
  if 0 <? f_ref x then mk (lk (release Lftable))
  else
    let ff := x in
    do! updfile f (set_f_ref 0);
    do! updfile f (set_f_type FD_NONE);
    do! mk (lk (release Lftable));
    match f_type ff with
    | FD_PIPE => pipeclose (f_pipe ff) (f_writable ff)
    | FD_INODE | FD_DEVICE => do! begin_op; do! iput (f_ip ff); end_op
    | FD_NONE => ret tt
    end.

Definition filestat (f : nat) (addr : Z) : M kern Z :=
  let! pr := mk curp in
  let! x := getfile f in
  match f_type x with
  | FD_INODE | FD_DEVICE =>
    do! ilock (f_ip x);
    let! st := stati (f_ip x) in
    do! iunlock (f_ip x);
    let! q := mk (getproc pr) in
    let! r := mk (copyout (pagetable q) addr (stat_bytes st)) in
    ret (if r <? 0 then -1 else 0)
  | _ => ret (-1)
  end.

(** [devsw[f->major]] is connected. *)
Definition dev_ok (major : Z) : M kern bool :=
  if (major <? 0) || (NDEV <=? major) then ret false
  else let! d := gets devsw in ret (default false (d !! Z.to_nat major)).

Definition fileread (f : nat) (addr n : Z) : M kern Z :=
  let! x := getfile f in
  if negb (f_readable x) then ret (-1)
  else
    match f_type x with
    | FD_PIPE => piperead (f_pipe x) addr n
    | FD_DEVICE =>
      let! ok := dev_ok (f_major x) in
      if negb ok then ret (-1) else consoleread (User addr) n
    | FD_INODE =>
      do! ilock (f_ip x);
      let! x := getfile f in
      let! r := readi (f_ip x) (User addr) (f_off x) (u32 n) in
      do! (if 0 <? fst r then updfile f (fun x => set_f_off (u32 (f_off x + fst r)) x) else ret tt);
      do! iunlock (f_ip x);
      ret (fst r)
    | FD_NONE => panic "fileread"
    end.

(** A few blocks at a time, each in a transaction of its own. *)
Definition MAXWRITE : Z := (MAXOPBLOCKS - 1 - 1 - 2) / 2 * BSIZE.
Fixpoint filewrite_loop (fuel : nat) (f : nat) (addr n i : Z) : M kern Z :=
  if i <? n then
    match fuel with
    | O => fun _ => Spin
    | S fu =>
      let n1 := Z.min (n - i) MAXWRITE in
      let! x := getfile f in
      do! begin_op;
      do! ilock (f_ip x);
      let! x := getfile f in
      let! r := writei (f_ip x) (User (u64 (addr + i))) (f_off x) n1 in
      do! (if 0 <? r then updfile f (fun x => set_f_off (u32 (f_off x + r)) x) else ret tt);
      do! iunlock (f_ip x);
      do! end_op;
      if negb (r =? n1) then ret i else filewrite_loop fu f addr n (i + r)
    end
  else ret i.
Definition filewrite (f : nat) (addr n : Z) : M kern Z :=
  let! x := getfile f in
  if negb (f_writable x) then ret (-1)
  else
    match f_type x with
    | FD_PIPE => pipewrite (f_pipe x) addr n
    | FD_DEVICE =>
      let! ok := dev_ok (f_major x) in
      if negb ok then ret (-1) else consolewrite (User addr) n
    | FD_INODE =>
      let! i := filewrite_loop (Z.to_nat n) f addr n 0 in
      ret (if i =? n then n else -1)
    | FD_NONE => panic "filewrite"
    end.

(** ** [pipealloc] *)

(** [kalloc] leaves 5 in every byte of the page. *)
Definition new_pipe : pipe := Pipe (replicate (Z.to_nat PIPESIZE) 5) 0 0 true true.

Definition pipealloc : M kern (option (nat * nat)) :=
  let close o := match o with Some f => fileclose f | None => ret tt end in
  let! f0 := filealloc in
  let! f1 := (match f0 with Some _ => filealloc | None => ret None end) in
  match f0, f1 with
  | Some r, Some w =>
    let! pi := mk kalloc in
    if pi =? 0 then do! fileclose r; do! fileclose w; ret None
    else
      do! modify (fun s => set_pipes (<[pi := new_pipe]> (pipes s)) s);
      do! mk (lk (initlock (Lpipe pi)));
      do! updfile r (fun x => set_f_pipe pi (set_f_writable false (set_f_readable true (set_f_type FD_PIPE x))));
      do! updfile w (fun x => set_f_pipe pi (set_f_writable true (set_f_readable false (set_f_type FD_PIPE x))));
      ret (Some (r, w))
  | _, _ => do! close f0; do! close f1; ret None
  end.
End File.
