(* ===== verification/Close.v ===== *)
(** * Closing a file (kernel/file.c)

    [fileclose] drops the last reference to an open file: it takes the entry
    out of the file table and, in a transaction of its own, drops the
    reference to the inode. *)

From S2P Require Import Prelude.
From S2P Require Import Mach.
From S2P Require Import Spinlock.
From S2P Require Import Kalloc.
From S2P Require Import Vm.
From S2P Require Import Proc.
From S2P Require Import Kstate.
From S2P Require Import Printk.
From S2P Require Import Sleeplock.
From S2P Require Import Bio.
From S2P Require Import Log.
From S2P Require Import Logex.
From S2P Require Import Fs.
From S2P Require Import Fsread.
From S2P Require Import Dir.
From S2P Require Import Fswrite.
From S2P Require Import Fsalloc.
From S2P Require Import Fsmap.
From S2P Require Import Fsgrow.
From S2P Require Import Itrunc.
From S2P Require Import Dirlink.
From S2P Require Import Iput.
From S2P Require Import Atomic.
From S2P Require Import Fsex.
From S2P Require Import Growex.
From S2P Require Import File.

(** The entry of a file that is not open. *)
Definition closed (x : file) : file := set_f_type FD_NONE (set_f_ref 0 (set_f_ref 0 x)).

Section Close.
Context {LL : Layout} {P : Patience} {D : DiskDriver} {DO : DiskOk D}.
Variables (i : nat) (n L : Z).
Implicit Types (s : kern).

Lemma idle_files s m T : idle i n L s -> calm (km s) m -> idle i n L (set_km m (set_ftable T s)).
Proof.
  intros [[A1 A2 A3 A4 A5 [] A7 A8] B2 B3 B4 B5 B6 B7] Hm. constructor; auto. constructor; auto; [|exact (ready_calm i n _ _ A8 Hm)]. now constructor.
Qed.
Lemma atomically_from s0 s s' : dsk s = dsk s0 -> atomically L s s' -> atomically L s0 s'.
Proof. intros E [A1 (ws & c & H1 & H2 & H3)]. constructor; [done|]. exists ws, c. unfold wrote in *. rewrite E in *. done. Qed.
Lemma reclaimed_commit s ip s2 s' : owns s ip -> reclaimed s ip s2 -> sb s' = sb s2 -> can_grow s' -> (forall x, off_log (sb s2) x -> bview s' x = bview s2 x) -> reclaimed s ip s'.
Proof.
  intros Ho [A1 A2 A3 A4 A5] E Hc V. pose proof (cg_bitmap _ A4) as Hok. constructor; [| |congruence|done|].
  - intros b. rewrite <- A1, !elem_of_used. rewrite E. destruct (decide (0 <= b < sb_size (sb s2))) as [Hb|]; [|tauto].
    pose proof (in_use_off s2 s' Hok E V b Hb) as Hu. rewrite E in Hu. now rewrite Hu.
  - rewrite <- A2. unfold disk_inode. rewrite E, V; [done|]. rewrite A3. apply Ho.
  - intros x H0 H1 H2. rewrite V; [now apply A5|now rewrite A3].
Qed.

(** The transaction of a close. *)
Lemma put_atomic s k ip :
  idle i n L s -> l_ncommit (lg s) < 2147483647 -> sb_size (sb s) <= BPB -> can_grow s -> itable s !! k = Some ip -> owns s ip ->
  dinode_typed (inode_of ip) -> length (bview s (home s ip)) = 1024%nat ->
  i_ref ip = 1 -> i_valid ip = true -> i_nlink ip = 0 -> sl_locked (getsl s (inode_lock k)) = false ->
  wp (transaction (iput k)) (fun _ s' => idle i n L s' /\ atomically L s s' /\ reclaimed s ip s' /\
    itable s' = <[k := gone ip]> (itable s) /\ ftable s' = ftable s /\ getsl s' (inode_lock k) = Sleeplock false 0) s.
Proof.
  intros Hid Hnc Hone Hc Hip Ho Hty Hh Href Hval Hnl Hsl. eapply wp_mono.
  { apply (op_atomic i n L _ (fun _ s2 => reclaimed s ip s2 /\ itable s2 = <[k := gone ip]> (itable s) /\ ftable s2 = ftable s /\ getsl s2 (inode_lock k) = Sleeplock false 0) s Hid Hnc).
    intros m l HT. destruct (begun_same s m l Hc) as (B1 & B2 & _). eapply wp_mono.
    { apply (iput_frees i n (op_of L s) [] [] _ k ip); auto; simpl; lia. }
    intros [] s2 (R & T & G & bs' & Pn' & Hl & HT'). split; [|exists bs', Pn'; split; [simpl in Hl; lia|done]].
    split; [apply (reclaimed_from s (set_km m (set_lg l s))); done|]. split; [exact T|]. split; [|exact G]. exact (un_files _ _ (tx_under _ _ _ _ _ _ _ HT')). }
  intros [] s' (Hid' & Hat & s2 & (R & T & F & G) & HB & HV).
  destruct (commit_same i n L s s2 s' Hid (rc_sb _ _ _ R) (rc_can _ _ _ R) HB HV) as (E1 & E2 & E3 & V); [destruct (ow_home _ _ Ho); lia|].
  split; [done|]. split; [done|]. split; [now apply (reclaimed_commit s ip s2)|]. destruct HB as (_ & _ & _ & _ & E5 & _ & E6). simpl in E5.
  split; [congruence|]. split; [congruence|]. rewrite E6; [exact G|]. unfold inode_lock. lia.
Qed.

Lemma wp_getfile f x (Q : file -> kern -> Prop) s : ftable s !! f = Some x -> Q x s -> wp (getfile f) Q s.
Proof. intros Hx HQ. unfold wp, getfile, orfault. now rewrite Hx. Qed.
Lemma wp_updfile f x g (Q : unit -> kern -> Prop) s : ftable s !! f = Some x -> Q tt (set_ftable (<[f := g x]> (ftable s)) s) -> wp (updfile f g) Q s.
Proof. intros Hx HQ. unfold updfile. wsteps. apply (wp_getfile f x); [done|]. now apply wp_modify. Qed.

(** C3: closing the last descriptor of an unlinked file frees it, atomically.
    With no other operation under way, on a disk with one bitmap block, when
    the open file has one reference and so has its inode, which is valid, has
    no links and is not locked, [fileclose] takes the file out of the table
    of open files, gives back exactly the blocks of the file and marks its
    inode free; all of it is on the disk when the call returns, and if the
    machine stops in between, recovery finds all of it or nothing. *)
Theorem fileclose_frees s f x ip :
  idle i n L s -> l_ncommit (lg s) < 2147483647 -> sb_size (sb s) <= BPB -> can_grow s ->
  ftable s !! f = Some x -> f_ref x = 1 -> f_type x = FD_INODE -> itable s !! f_ip x = Some ip -> owns s ip ->
  dinode_typed (inode_of ip) -> length (bview s (home s ip)) = 1024%nat ->
  i_ref ip = 1 -> i_valid ip = true -> i_nlink ip = 0 -> sl_locked (getsl s (inode_lock (f_ip x))) = false ->
  wp (fileclose f) (fun _ s' => idle i n L s' /\ atomically L s s' /\ reclaimed s ip s' /\
    itable s' = <[f_ip x := gone ip]> (itable s) /\ ftable s' = <[f := closed x]> (ftable s) /\ getsl s' (inode_lock (f_ip x)) = Sleeplock false 0) s.
Proof.
  intros Hid Hnc Hone Hc Hf Hfr Hft Hip Ho Hty Hh Href Hval Hnl Hsl. pose proof (li_ready _ _ _ _ _ _ _ (id_log _ _ _ _ Hid)) as (Hok & _ & Hfree & _).
  pose proof (lookup_lt_Some _ _ _ Hf) as Hlt. unfold fileclose. wsteps. apply wp_mk. apply (wp_acquire _ 3); [done|lia|apply Hfree|]. intros K1 HokK1 Ha. wsteps.
  apply (wp_getfile f x); [done|]. wsteps; [rewrite Hfr; done|]. apply (wp_updfile f x); [done|]. rewrite Hfr. change (i32 (1 - 1)) with 0. wsteps.
  apply (wp_getfile f (set_f_ref 0 x)); [simpl; now rewrite list_lookup_insert_eq|]. simpl f_ref. cbv zeta. change (0 <? 0) with false. cbv iota. wsteps.
  eapply wp_updfile; [simpl; now rewrite list_lookup_insert_eq|]. simpl ftable. rewrite list_insert_insert_eq. wsteps.
  eapply wp_updfile; [simpl; now rewrite list_lookup_insert_eq|]. simpl ftable. rewrite list_insert_insert_eq. wsteps. apply wp_mk.
  eapply (wp_release _ 3 (lks (km s)) K1); [done|lia|apply Hfree|done|reflexivity|]. intros K2 HK2. simpl f_type. rewrite Hft.
  set (s1 := set_km (set_lks K2 (km s)) (set_ftable (<[f := closed x]> (ftable s)) s)).
  assert (idle i n L s1) as Hid1 by (apply idle_files; [done|now apply calm_lks]). assert (same_fs s s1) as S1 by done.
  change (wp (do! begin_op; do! iput (f_ip x); end_op) (fun _ s' => idle i n L s' /\ atomically L s s' /\ reclaimed s ip s' /\
    itable s' = <[f_ip x := gone ip]> (itable s) /\ ftable s' = <[f := closed x]> (ftable s) /\ getsl s' (inode_lock (f_ip x)) = Sleeplock false 0) s1).
  apply op_unit. eapply wp_mono.
  { apply (put_atomic s1 (f_ip x) ip); auto; [now apply (same_can s)|now apply (owns_view s)]. }
  intros [] s' (H1 & H2 & H3 & H4 & H5 & H6). split; [done|]. split; [now apply (atomically_from s s1)|]. split; [now apply (reclaimed_from s s1)|]. done.
Qed.
End Close.

(** ** Example *)

#[local] Existing Instance Kalloc.Example.layout0.

(** A file without links whose block is 100, open once. *)
Definition orphan : inode := Inode ROOTDEV 1 1 true T_FILE 0 0 0 32 (100 :: replicate 12 0).
Definition file5 : file := File FD_INODE 1 true true 0 0 0 0.
Definition kern5 : kern := set_ftable [file5] (set_itable (orphan :: replicate 49 no_inode) kern4).

Lemma idle5 : idle 0 1 2 kern5.
Proof. destruct idle4 as [[A1 A2 A3 A4 A5 [] A7 A8] B2 B3 B4 B5 B6 B7]. constructor; auto. constructor; auto. now constructor. Qed.
Lemma orphan_typed : dinode_typed (inode_of orphan).
Proof. constructor; unfold short, word; simpl; try lia; try done. repeat constructor; lia. Qed.
Lemma orphan_owns : can_grow kern5 /\ owns kern5 orphan.
Proof.
  destruct same4 as (C1 & C2 & _). pose proof (same_can kern4 kern5 ltac:(done) C1) as Hc. split; [exact Hc|].
  pose proof (owns_view kern4 kern5 root eq_refl (fun _ => eq_refl) C2) as [A1 A2 A3 A4 A5 A6 A7]. now constructor.
Qed.

Lemma fileclose_frees_witness :
  wp (fileclose 0) (fun _ s' => atomically 2 kern5 s' /\ ~ 100 ∈ used s' /\ ftable s' = [closed file5] /\ d_type (disk_inode s' 1) = 0) kern5.
Proof.
  destruct orphan_owns as [Hc Ho]. eapply wp_mono; [apply (fileclose_frees 0 1 2 kern5 0 file5 orphan);
    [apply idle5|reflexivity|vm_compute; discriminate|exact Hc|reflexivity|reflexivity|reflexivity|reflexivity|exact Ho|apply orphan_typed|vm_compute; reflexivity|reflexivity..]|].
  intros [] s' (_ & Ha & [R1 R2 _ _ _] & _ & Hf & _). split; [exact Ha|]. split; [|split; [rewrite Hf; reflexivity|]].
  - rewrite R1. intros [_ H]. apply H. left. split; [discriminate|]. exists 0. split; [split; reflexivity || discriminate|reflexivity].
  - change 1 with (i_inum orphan). rewrite R2. reflexivity.
Defined.
