(* ===== verification/Exec.v ===== *)
(** * Program images (kernel/exec.c) and trap frames (kernel/proc.h) *)

From S2P Require Import Prelude.
From S2P Require Import Mach.
From S2P Require Import Spinlock.
From S2P Require Import Kalloc.
From S2P Require Import Vm.
From S2P Require Import Proc.
From S2P Require Import Kstate.
From S2P Require Import Sleeplock.
From S2P Require Import Bio.
From S2P Require Import Log.
From S2P Require Import Fs.

(** ** Trap frames: 36 registers of 8 bytes in a page of RAM *)

Inductive trapframe_reg : Type :=
| kernel_satp | kernel_sp | kernel_trap | epc | kernel_hartid
| ra | sp | gp | tp | t0 | t1 | t2 | s0 | s1
| a0 | a1 | a2 | a3 | a4 | a5 | a6 | a7
| s2 | s3 | s4 | s5 | s6 | s7 | s8 | s9 | s10 | s11 | t3 | t4 | t5 | t6.

Definition tf_offset (r : trapframe_reg) : Z :=
  match r with
  | kernel_satp => 0 | kernel_sp => 8 | kernel_trap => 16 | epc => 24 | kernel_hartid => 32
  | ra => 40 | sp => 48 | gp => 56 | tp => 64 | t0 => 72 | t1 => 80 | t2 => 88 | s0 => 96 | s1 => 104
  | a0 => 112 | a1 => 120 | a2 => 128 | a3 => 136 | a4 => 144 | a5 => 152 | a6 => 160 | a7 => 168
  | s2 => 176 | s3 => 184 | s4 => 192 | s5 => 200 | s6 => 208 | s7 => 216 | s8 => 224 | s9 => 232
  | s10 => 240 | s11 => 248 | t3 => 256 | t4 => 264 | t5 => 272 | t6 => 280
  end.

(** [p->trapframe->r]. *)
Definition tf_get (p : nat) (r : trapframe_reg) : M mach Z :=
  let! q := getproc p in ld64 (trapframe q + tf_offset r).
Definition tf_set (p : nat) (r : trapframe_reg) (v : Z) : M mach unit :=
  let! q := getproc p in st64 (trapframe q + tf_offset r) v.
(** [*dst = *src] for two trap frames. *)
Definition tf_copy (dst src : Z) : M mach unit :=
  let! l := ld_bytes 288 src in st_bytes dst l.

(** ** ELF *)

Definition ELF_MAGIC : Z := 1179403647.
Definition ELF_PROG_LOAD : Z := 1.
Record elfhdr : Type := Elfhdr { e_magic : Z; e_entry : Z; e_phoff : Z; e_phnum : Z }.
Definition get_elfhdr (l : list Z) : elfhdr := Elfhdr (le_get 4 l 0) (le_get 8 l 24) (le_get 8 l 32) (le_get 2 l 56).
Record proghdr : Type := Proghdr { ph_type : Z; ph_flags : Z; ph_off : Z; ph_vaddr : Z; ph_filesz : Z; ph_memsz : Z }.
Definition get_proghdr (l : list Z) : proghdr :=
  Proghdr (le_get 4 l 0) (le_get 4 l 4) (le_get 8 l 8) (le_get 8 l 16) (le_get 8 l 32) (le_get 8 l 40).

Definition flags2perm (flags : Z) : Z :=
  Z.lor (if Z.testbit flags 0 then PTE_X else 0) (if Z.testbit flags 1 then PTE_W else 0).

(** [strlen], and [safestrcpy] into a buffer of [n] bytes, for strings that
    are not in RAM. *)
Definition safestrcpy_l (n : nat) (old t : list Z) : list Z :=
  splice 0 (if (length t <? n - 1)%nat then t ++ [0; 0] else take (n - 1) t ++ [0]) old.

(** The part of the path after the last slash. *)
Fixpoint last_elem (s last : list Z) : list Z :=
  match s with [] => last | c :: s' => last_elem s' (if c =? 47 then s' else last) end.

Section Exec.
Context {L : Layout} {P : Patience} {D : DiskDriver} {KT : KernelTables}.

Definition loadseg (pt va : Z) (ip : nat) (offset sz : Z) : M kern Z :=
  let! r := mwhile (Z.to_nat (sz / PGSIZE + 1)) (fun i => i <? sz) (fun i => u32 (i + PGSIZE)) (fun i =>
    let! pa := mk (walkaddr pt (u64 (va + i))) in
    do! check (negb (pa =? 0)) "loadseg: address should exist";
    let n := if u32 (sz - i) <? PGSIZE then u32 (sz - i) else PGSIZE in
    let! r := readi ip (Ram pa) (u32 (offset + i)) n in
    ret (if negb (u32 (fst r) =? n) then Some tt else None)) 0 in
  match r with inl _ => ret 0 | inr _ => ret (-1) end.

(** The loop over program headers: the size so far, [false] for [goto bad]. *)
Fixpoint load_segments (n : nat) (pt : Z) (ip : nat) (off sz : Z) : M kern (bool * Z) :=
  match n with
  | O => ret (true, sz)
  | S n' =>
    let! r := readi ip (Local []) (u32 off) 56 in
    if negb (fst r =? 56) then ret (false, sz)
    else
      let ph := get_proghdr (snd r) in
      if negb (ph_type ph =? ELF_PROG_LOAD) then load_segments n' pt ip (i32 (off + 56)) sz
      else if ph_memsz ph <? ph_filesz ph then ret (false, sz)
      else if u64 (ph_vaddr ph + ph_memsz ph) <? ph_vaddr ph then ret (false, sz)
      else if negb (ph_vaddr ph mod PGSIZE =? 0) then ret (false, sz)
      else
        let! sz1 := mk (uvmalloc pt sz (u64 (ph_vaddr ph + ph_memsz ph)) (flags2perm (i32 (ph_flags ph)))) in
        if sz1 =? 0 then ret (false, sz)
        else
          let! e := loadseg pt (ph_vaddr ph) ip (u32 (ph_off ph)) (u32 (ph_filesz ph)) in
          if e <? 0 then ret (false, sz1) else load_segments n' pt ip (i32 (off + 56)) sz1
  end.

(** Push the argument strings: the stack pointer and the addresses, or
    [None] for [goto bad]. *)
Fixpoint push_args (argv : list (list Z)) (argc : Z) (pt sp stackbase : Z) (ustack : list Z) : M mach (option (Z * list Z)) :=
  match argv with
  | [] => ret (Some (sp, ustack))
  | arg :: argv' =>
    if MAXARG <=? argc then ret None
    else
      let sp := u64 (sp - (Z.of_nat (length arg) + 1)) in
      let sp := sp - sp mod 16 in
      if sp <? stackbase then ret None
      else
        let! e := copyout pt sp (arg ++ [0]) in
        if e <? 0 then ret None
        else push_args argv' (argc + 1) pt sp stackbase (ustack ++ [sp])
  end.

(** [argv] is the list of strings, without their NUL. *)
Definition kexec (path : list Z) (argv : list (list Z)) : M kern Z :=
  let! p := mk curp in
  do! begin_op;
  let! r := namei path in
  match r with
  | None => do! end_op; ret (-1)
  | Some ip =>
    do! ilock ip;
    let bad_ip (pt sz : Z) :=
      do! (if negb (pt =? 0) then mk (proc_freepagetable pt sz) else ret tt);
      do! iunlockput ip;
      do! end_op;
      ret (-1) in
    let! r := readi ip (Local []) 0 64 in
    if negb (fst r =? 64) then bad_ip 0 0
    else
      let elf := get_elfhdr (snd r) in
      if negb (e_magic elf =? ELF_MAGIC) then bad_ip 0 0
      else
        let! pt := mk (proc_pagetable p) in
        if pt =? 0 then bad_ip 0 0
        else
          let! r := load_segments (Z.to_nat (e_phnum elf)) pt ip (i32 (e_phoff elf)) 0 in
          let sz0 := snd r in
          if negb (fst r) then bad_ip pt sz0
          else
            do! iunlockput ip;
            do! end_op;
            let! p := mk curp in
            let! q := mk (getproc p) in
            let oldsz := Mach.sz q in
            let bad (sz : Z) := do! mk (proc_freepagetable pt sz); ret (-1) in
            let sz1 := PGROUNDUP sz0 in
            let! sz2 := mk (uvmalloc pt sz1 (u64 (sz1 + (USERSTACK + 1) * PGSIZE)) PTE_W) in
            if sz2 =? 0 then bad sz1
            else
              do! mk (uvmclear pt (u64 (sz2 - (USERSTACK + 1) * PGSIZE)));
              let stackbase := u64 (sz2 - USERSTACK * PGSIZE) in
              let! r := mk (push_args argv 0 pt sz2 stackbase []) in
              match r with
              | None => bad sz2
              | Some (sp0, ustack) =>
                let argc := Z.of_nat (length argv) in
                let sp1 := u64 (sp0 - (argc + 1) * 8) in
                let sp1 := sp1 - sp1 mod 16 in
                if sp1 <? stackbase then bad sz2
                else
                  let! e := mk (copyout pt sp1 ((ustack ++ [0]) ≫= (fun v => le_set 8 (replicate 8 0) 0 v))) in
                  if e <? 0 then bad sz2
                  else
                    do! mk (tf_set p a1 sp1);
                    do! mk (updproc p (fun q => set_pname (safestrcpy_l 16 (pname q) (last_elem path path)) q));
                    let! q := mk (getproc p) in
                    let oldpagetable := pagetable q in
                    do! mk (updproc p (set_pagetable pt));
                    do! mk (updproc p (set_sz sz2));
                    do! mk (tf_set p epc (e_entry elf));
                    do! mk (tf_set p sp sp1);
                    do! mk (proc_freepagetable oldpagetable oldsz);
                    let! q := mk (getproc p) in
                    do! mk (copy_proc_to_kernel (pagetable q) (kpagetable q) 0 sz2);
                    ret argc
              end
  end.
End Exec.
