(* ===== verification/Life.v ===== *)
(** * The life of a process (kernel/proc.c: [userinit], [kfork], [kexit],
      [forkret]; kernel/trap.c: [prepare_return])

    The operations of proc.c that use the file system. *)

From S2P Require Import Prelude.
From S2P Require Import Kstring.
From S2P Require Import Mach.
From S2P Require Import Spinlock.
From S2P Require Import Kalloc.
From S2P Require Import Vm.
From S2P Require Import Proc.
From S2P Require Import Kstate.
From S2P Require Import Sleeplock.
From S2P Require Import Bio.
From S2P Require Import Log.
From S2P Require Import Fs.
From S2P Require Import Pipe.
From S2P Require Import Printk.
From S2P Require Import File.
From S2P Require Import Exec.

(** ** Control registers (riscv.h) *)

Definition set_sepc (x : Z) (r : csrs) : csrs :=
  Csrs (sstatus r) x (scause r) (stval r) (stvec r) (satp r) (stimecmp r) (time r).
Definition set_stvec (x : Z) (r : csrs) : csrs :=
  Csrs (sstatus r) (sepc r) (scause r) (stval r) x (satp r) (stimecmp r) (time r).
Definition set_stimecmp (x : Z) (r : csrs) : csrs :=
  Csrs (sstatus r) (sepc r) (scause r) (stval r) (stvec r) (satp r) x (time r).
Definition r_sepc : M lockst Z := let! c := mycpu in ret (sepc (csr c)).
Definition w_sepc (x : Z) : M lockst unit := upd_cpu (fun c => set_csr (set_sepc x (csr c)) c).
Definition r_scause : M lockst Z := let! c := mycpu in ret (scause (csr c)).
Definition r_stval : M lockst Z := let! c := mycpu in ret (stval (csr c)).
Definition w_stvec (x : Z) : M lockst unit := upd_cpu (fun c => set_csr (set_stvec x (csr c)) c).
Definition r_time : M lockst Z := let! c := mycpu in ret (time (csr c)).
Definition w_stimecmp (x : Z) : M lockst unit := upd_cpu (fun c => set_csr (set_stimecmp x (csr c)) c).

(** [p->ofile[fd]]. *)
Definition getofile (p fd : nat) : M mach (option nat) :=
  let! q := getproc p in orfault (ofile q !! fd).
Definition setofile (p fd : nat) (f : option nat) : M mach unit :=
  updproc p (fun q => set_ofile (<[fd := f]> (ofile q)) q).

Section Life.
Context {L : Layout} {P : Patience} {D : DiskDriver} {KT : KernelTables}.

Definition prepare_return : M mach unit :=
  let! p := curp in
  do! lk intr_off;
  do! lk (w_stvec (TRAMPOLINE + (uservec - trampoline)));
  let! v := lk r_satp in
  do! tf_set p kernel_satp v;
  let! q := getproc p in
  do! tf_set p kernel_sp (u64 (kstack q + PGSIZE));
  do! tf_set p kernel_trap usertrap_addr;
  let! h := lk r_tp in
  do! tf_set p kernel_hartid h;
  let! x := lk r_sstatus in
  let x := Z.ldiff x SSTATUS_SPP in
  let x := Z.lor x SSTATUS_SPIE in
  do! lk (w_sstatus x);
  let! e := tf_get p epc in
  lk (w_sepc e).

Definition userinit : M kern unit :=
  let! p := mk allocproc in
  do! mk (modify (set_initproc p));
  match p with
  | None => fault
  | Some p =>
    let! d := namei (str "/") in
    do! mk (updproc p (set_cwd d));
    do! mk (updproc p (set_state RUNNABLE));
    let! q := mk (getproc p) in
    do! mk (copy_proc_to_kernel (pagetable q) (kpagetable q) 0 (Mach.sz q));
    mk (lk (release (Lproc p)))
  end.

Definition kfork : M kern Z :=
  let! p := mk curp in
  let! r := mk allocproc in
  match r with
  | None => ret (-1)
  | Some np =>
    let! q := mk (getproc p) in
    let! n := mk (getproc np) in
    let! e := mk (uvmcopy (pagetable q) (pagetable n) (Mach.sz q)) in
    if e <? 0 then
      do! mk (freeproc np);
      do! mk (lk (release (Lproc np)));
      ret (-1)
    else
      do! mk (updproc np (set_sz (Mach.sz q)));
      do! mk (tf_copy (trapframe n) (trapframe q));
      do! mk (tf_set np a0 0);
      do! mloop (Z.to_nat NOFILE) 0 1 (fun i =>
        let! o := mk (getofile p (Z.to_nat i)) in
        match o with
        | Some f => let! f' := filedup f in mk (setofile np (Z.to_nat i) (Some f'))
        | None => ret tt
        end);
      let! q := mk (getproc p) in
      let! c := (match cwd q with Some c => idup c | None => fault end) in
      do! mk (updproc np (set_cwd (Some c)));
      do! mk (updproc np (fun n => set_pname (safestrcpy_l 16 (pname n) (cstr (pname q))) n));
      let! n := mk (getproc np) in
      let pid := pid n in
      do! mk (lk (release (Lproc np)));
      do! mk (lk (acquire Lwait));
      do! mk (updproc np (set_parent (Some p)));
      do! mk (lk (release Lwait));
      do! mk (lk (acquire (Lproc np)));
      do! mk (updproc np (set_state RUNNABLE));
      let! n := mk (getproc np) in
      do! mk (copy_proc_to_kernel (pagetable n) (kpagetable n) 0 (Mach.sz n));
      do! mk (lk (release (Lproc np)));
      ret pid
  end.

(** Never returns. *)
Definition kexit (status : Z) : M kern unit :=
  let! p := mk curp in
  let! ip := mk (gets initproc) in
  do! check (negb (bool_decide (ip = Some p))) "init exiting";
  do! mloop (Z.to_nat NOFILE) 0 1 (fun fd =>
    let! o := mk (getofile p (Z.to_nat fd)) in
    match o with
    | Some f => do! fileclose f; mk (setofile p (Z.to_nat fd) None)
    | None => ret tt
    end);
  do! begin_op;
  let! q := mk (getproc p) in
  do! (match cwd q with Some c => iput c | None => fault end);
  do! end_op;
  do! mk (updproc p (set_cwd None));
  do! mk (lk (acquire Lwait));
  do! mk (reparent p);
  let! q := mk (getproc p) in
  do! mk (wakeup (match parent q with Some k => ChProc k | None => NoChan end));
  do! mk (lk (acquire (Lproc p)));
  do! mk (updproc p (set_xstate status));
  do! mk (updproc p (set_state ZOMBIE));
  do! mk (lk (release Lwait));
  do! mk sched;
  panic "zombie exit".

(** The result is the page table for [userret], in trampoline.S. *)
Definition forkret : M kern Z :=
  let! p := mk curp in
  do! mk (lk (release (Lproc p)));
  let! f := gets first in
  do! (if f then
         do! fsinit ROOTDEV;
         do! modify (set_first false);
         let! r := kexec (str "/init") [str "/init"] in
         do! mk (tf_set p a0 (u64 r));
         let! v := mk (tf_get p a0) in
         check (negb (v =? u64 (-1))) "exec"
       else ret tt);
  do! mk prepare_return;
  let! q := mk (getproc p) in
  ret (MAKE_SATP (pagetable q)).
End Life.
