(* ===== verification/Syscall.v ===== *)
(** * System calls: arguments and process-related calls (kernel/syscall.c,
      kernel/sysproc.c, the alarm calls of kernel/proc.c) *)

From S2P Require Import Prelude.
From S2P Require Import Kstring.
From S2P Require Import Mach.
From S2P Require Import Spinlock.
From S2P Require Import Kalloc.
From S2P Require Import Vm.
From S2P Require Import Proc.
From S2P Require Import Kstate.
From S2P Require Import Sleeplock.
From S2P Require Import Bio.
From S2P Require Import Log.
From S2P Require Import Fs.
From S2P Require Import Pipe.
From S2P Require Import Printk.
From S2P Require Import File.
From S2P Require Import Exec.
From S2P Require Import Life.

Section Args.
Context {L : Layout}.

(** The value at [addr], or [None] for -1. *)
Definition fetchaddr (addr : Z) : M kern (option Z) :=
  let! q := mk curproc in
  if (Mach.sz q <=? addr) || (Mach.sz q <? u64 (addr + 8)) then ret None
  else
    let! r := mk (copyin (pagetable q) addr 8) in
    if negb (fst r =? 0) then ret None else ret (Some (le_get 8 (snd r) 0)).

(** The string's length, or -1, and the bytes before its NUL. *)
Definition fetchstr (addr max : Z) : M kern (Z * list Z) :=
  let! q := mk curproc in
  let! r := mk (copyinstr (pagetable q) addr max) in
  if fst r <? 0 then ret (-1, [])
  else let s := cstr (snd r) in ret (Z.of_nat (length s), s).

Definition argraw (n : Z) : M kern Z :=
  let! p := mk curp in
  if n =? 0 then mk (tf_get p a0) else if n =? 1 then mk (tf_get p a1)
  else if n =? 2 then mk (tf_get p a2) else if n =? 3 then mk (tf_get p a3)
  else if n =? 4 then mk (tf_get p a4) else if n =? 5 then mk (tf_get p a5)
  else panic "argraw".
Definition argint (n : Z) : M kern Z := let! v := argraw n in ret (i32 v).
Definition argaddr (n : Z) : M kern Z := argraw n.
Definition argstr (n max : Z) : M kern (Z * list Z) :=
  let! addr := argaddr n in
  fetchstr addr max.
End Args.

Definition SBRK_EAGER : Z := 1.

Section Sysproc.
Context {L : Layout} {P : Patience} {D : DiskDriver} {KT : KernelTables}.

(** Not reached after [kexit]. *)
Definition sys_exit : M kern Z :=
  let! n := argint 0 in
  do! kexit n;
  ret 0.

Definition sys_getpid : M kern Z := let! q := mk curproc in ret (u64 (pid q)).

Definition sys_fork : M kern Z := let! r := kfork in ret (u64 r).

Definition sys_wait : M kern Z :=
  let! p := argaddr 0 in
  let! r := mk (kwait patience p) in
  ret (u64 r).

Definition sys_sbrk : M kern Z :=
  let! n := argint 0 in
  let! t := argint 1 in
  let! q := mk curproc in
  let addr := Mach.sz q in
  if (t =? SBRK_EAGER) || (n <? 0) then
    let! r := mk (growproc n) in
    if r <? 0 then ret (u64 (-1)) else ret addr
  else if u64 (addr + n) <? addr then ret (u64 (-1))
  else if TRAPFRAME <? u64 (addr + n) then ret (u64 (-1))
  else
    let! p := mk curp in
    do! mk (updproc p (fun q => set_sz (u64 (Mach.sz q + n)) q));
    ret addr.

(** [while (ticks - ticks0 < n)]; [false] when killed. *)
Fixpoint pause_loop (fuel : nat) (ticks0 n : Z) : M kern bool :=
  let! t := mk (gets ticks) in
  if u32 (t - ticks0) <? u32 n then
    let! p := mk curp in
    let! k := mk (killed p) in
    if negb (k =? 0) then do! mk (lk (release Lticks)); ret false
    else
      match fuel with
      | O => fun _ => Spin
      | S f => do! mk (sleep ChTicks Lticks); pause_loop f ticks0 n
      end
  else ret true.
Definition sys_pause : M kern Z :=
  let! n := argint 0 in
  let n := if n <? 0 then 0 else n in
  do! mk (lk (acquire Lticks));
  let! ticks0 := mk (gets ticks) in
  let! ok := pause_loop patience ticks0 n in
  if negb ok then ret (u64 (-1))
  else do! mk (lk (release Lticks)); ret 0.

Definition sys_kill : M kern Z :=
  let! pid := argint 0 in
  let! r := mk (kkill pid) in
  ret (u64 r).

Definition sys_uptime : M kern Z :=
  do! mk (lk (acquire Lticks));
  let! xticks := mk (gets ticks) in
  do! mk (lk (release Lticks));
  ret xticks.

Definition sys_trace : M kern Z :=
  let! m := argint 0 in
  let! p := mk curp in
  do! mk (updproc p (set_tracemask (u64 m)));
  ret 0.

Definition sys_sigalarm : M kern Z :=
  let! p := mk curp in
  let! interval := argint 0 in
  let! handler := argaddr 1 in
  do! mk (updproc p (set_alarm 0 interval handler));
  ret 0.

Definition sys_sigreturn : M kern Z :=
  let! p := mk curp in
  let! q := mk (getproc p) in
  do! mk (tf_copy (trapframe q) (alarm_trapframe q));
  do! mk (updproc p (set_alarm_active 0));
  ret 0.
End Sysproc.
