(* ===== verification/Sysfile.v ===== *)
(** * File-related system calls (kernel/sysfile.c)

    The results are those of the C functions, converted to [uint64]. *)

From S2P Require Import Prelude.
From S2P Require Import Mach.
From S2P Require Import Spinlock.
From S2P Require Import Kalloc.
From S2P Require Import Vm.
From S2P Require Import Proc.
From S2P Require Import Kstate.
From S2P Require Import Sleeplock.
From S2P Require Import Bio.
From S2P Require Import Log.
From S2P Require Import Fs.
From S2P Require Import Pipe.
From S2P Require Import Printk.
From S2P Require Import File.
From S2P Require Import Exec.
From S2P Require Import Life.
From S2P Require Import Syscall.

Definition O_RDONLY : Z := 0.
Definition O_WRONLY : Z := 1.
Definition O_RDWR : Z := 2.
Definition O_CREATE : Z := 512.
Definition O_TRUNC : Z := 1024.

Definition err : Z := u64 (-1).

(** The descriptor and its file, or [None] for -1. *)
Definition argfd (n : Z) : M kern (option (Z * nat)) :=
  let! fd := argint n in
  if (fd <? 0) || (NOFILE <=? fd) then ret None
  else
    let! p := mk curp in
    let! o := mk (getofile p (Z.to_nat fd)) in
    match o with Some f => ret (Some (fd, f)) | None => ret None end.

Definition fdalloc (f : nat) : M kern Z :=
  let! p := mk curp in
  let! r := mfor (Z.to_nat NOFILE) 0 1 (fun fd =>
    let! o := mk (getofile p (Z.to_nat fd)) in
    match o with
    | None => do! mk (setofile p (Z.to_nat fd) (Some f)); ret (Some fd)
    | Some _ => ret None
    end) in
  ret (default (-1) r).

Section Sysfile.
Context {L : Layout} {P : Patience} {D : DiskDriver} {KT : KernelTables}.

Definition sys_dup : M kern Z :=
  let! r := argfd 0 in
  match r with
  | None => ret err
  | Some (_, f) =>
    let! fd := fdalloc f in
    if fd <? 0 then ret err else do! filedup f; ret (u64 fd)
  end.

Definition sys_read : M kern Z :=
  let! p := argaddr 1 in
  let! n := argint 2 in
  let! r := argfd 0 in
  match r with
  | None => ret err
  | Some (_, f) => let! k := fileread f p n in ret (u64 k)
  end.

Definition sys_write : M kern Z :=
  let! p := argaddr 1 in
  let! n := argint 2 in
  let! r := argfd 0 in
  match r with
  | None => ret err
  | Some (_, f) => let! k := filewrite f p n in ret (u64 k)
  end.

Definition sys_close : M kern Z :=
  let! r := argfd 0 in
  match r with
  | None => ret err
  | Some (fd, f) =>
    let! p := mk curp in
    do! mk (setofile p (Z.to_nat fd) None);
    do! fileclose f;
    ret 0
  end.

Definition sys_fstat : M kern Z :=
  let! st := argaddr 1 in
  let! r := argfd 0 in
  match r with
  | None => ret err
  | Some (_, f) => let! k := filestat f st in ret (u64 k)
  end.

Definition sys_link : M kern Z :=
  let! old := argstr 0 MAXPATH in
  if fst old <? 0 then ret err
  else
    let! new := argstr 1 MAXPATH in
    if fst new <? 0 then ret err
    else
      do! begin_op;
      let! r := namei (snd old) in
      match r with
      | None => do! end_op; ret err
      | Some ip =>
        do! ilock ip;
        let! x := getinode ip in
        if i_type x =? T_DIR then do! iunlockput ip; do! end_op; ret err
        else
          do! updinode ip (fun x => set_i_nlink (i16 (i_nlink x + 1)) x);
          do! iupdate ip;
          do! iunlock ip;
          let bad :=
            do! ilock ip;
            do! updinode ip (fun x => set_i_nlink (i16 (i_nlink x - 1)) x);
            do! iupdate ip;
            do! iunlockput ip;
            do! end_op;
            ret err in
          let! r := nameiparent (snd new) in
          match fst r with
          | None => bad
          | Some dp =>
            do! ilock dp;
            let! d := getinode dp in
            let! x := getinode ip in
            let! e := (if negb (i_dev d =? i_dev x) then ret (-1) else dirlink dp (snd r) (i_inum x)) in
            if e <? 0 then do! iunlockput dp; bad
            else
              do! iunlockput dp;
              do! iput ip;
              do! end_op;
              ret 0
          end
      end.

(** Every entry after the first two is free. *)
Fixpoint isdirempty_loop (fuel : nat) (dp : nat) (off : Z) : M kern bool :=
  let! x := getinode dp in
  if u32 off <? i_size x then
    match fuel with
    | O => fun _ => Spin
    | S f =>
      let! r := readi dp (Local []) (u32 off) DIRENT in
      do! check (fst r =? DIRENT) "isdirempty: readi";
      if negb (de_inum (get_dirent (snd r)) =? 0) then ret false
      else isdirempty_loop f dp (i32 (off + DIRENT))
    end
  else ret true.
Definition isdirempty (dp : nat) : M kern bool :=
  let! x := getinode dp in
  isdirempty_loop (Z.to_nat (i_size x / DIRENT + 1)) dp (2 * DIRENT).

Definition sys_unlink : M kern Z :=
  let! path := argstr 0 MAXPATH in
  if fst path <? 0 then ret err
  else
    do! begin_op;
    let! r := nameiparent (snd path) in
    let name := snd r in
    match fst r with
    | None => do! end_op; ret err
    | Some dp =>
      do! ilock dp;
      let bad := do! iunlockput dp; do! end_op; ret err in
      if (namecmp name [46] =? 0) || (namecmp name [46; 46] =? 0) then bad
      else
        let! r := dirlookup dp name in
        match r with
        | None => bad
        | Some (ip, off) =>
          do! ilock ip;
          let! x := getinode ip in
          do! check (negb (i_nlink x <? 1)) "unlink: nlink < 1";
          let! full := (if i_type x =? T_DIR then let! e := isdirempty ip in ret (negb e) else ret false) in
          if full then do! iunlockput ip; bad
          else
            let! n := writei dp (Local (replicate 16 0)) off DIRENT in
            do! check (n =? DIRENT) "unlink: writei";
            let! x := getinode ip in
            do! (if i_type x =? T_DIR then
                   do! updinode dp (fun x => set_i_nlink (i16 (i_nlink x - 1)) x);
                   iupdate dp
                 else ret tt);
            do! iunlockput dp;
            do! updinode ip (fun x => set_i_nlink (i16 (i_nlink x - 1)) x);
            do! iupdate ip;
            do! iunlockput ip;
            do! end_op;
            ret 0
        end
    end.

(** The inode is returned locked. *)
Definition create (path : list Z) (type major minor : Z) : M kern (option nat) :=
  let! r := nameiparent path in
  let name := snd r in
  match fst r with
  | None => ret None
  | Some dp =>
    do! ilock dp;
    let! r := dirlookup dp name in
    match r with
    | Some (ip, _) =>
      do! iunlockput dp;
      do! ilock ip;
      let! x := getinode ip in
      if (type =? T_FILE) && ((i_type x =? T_FILE) || (i_type x =? T_DEVICE)) then ret (Some ip)
      else do! iunlockput ip; ret None
    | None =>
      let! d := getinode dp in
      let! r := ialloc (i_dev d) type in
      match r with
      | None => do! iunlockput dp; ret None
      | Some ip =>
        do! ilock ip;
        do! updinode ip (fun x => set_i_nlink 1 (set_i_minor minor (set_i_major major x)));
        do! iupdate ip;
        let fail :=
          do! updinode ip (set_i_nlink 0);
          do! iupdate ip;
          do! iunlockput ip;
          do! iunlockput dp;
          ret None in
        let! x := getinode ip in
        let! d := getinode dp in
        let! e := (if type =? T_DIR then
                     let! e := dirlink ip [46] (i_inum x) in
                     if e <? 0 then ret e else dirlink ip [46; 46] (i_inum d)
                   else ret 0) in
        if e <? 0 then fail
        else
          let! e := dirlink dp name (i_inum x) in
          if e <? 0 then fail
          else
            do! (if type =? T_DIR then
                   do! updinode dp (fun x => set_i_nlink (i16 (i_nlink x + 1)) x);
                   iupdate dp
                 else ret tt);
            do! iunlockput dp;
            ret (Some ip)
      end
    end
  end.

Definition sys_open : M kern Z :=
  let! omode := argint 1 in
  let! path := argstr 0 MAXPATH in
  if fst path <? 0 then ret err
  else
    do! begin_op;
    let! r :=
      (if negb (Z.land omode O_CREATE =? 0) then create (snd path) T_FILE 0 0
       else
         let! r := namei (snd path) in
         match r with
         | None => ret None
         | Some ip =>
           do! ilock ip;
           let! x := getinode ip in
           if (i_type x =? T_DIR) && negb (omode =? O_RDONLY) then do! iunlockput ip; ret None
           else ret (Some ip)
         end) in
    match r with
    | None => do! end_op; ret err
    | Some ip =>
      let! x := getinode ip in
      if (i_type x =? T_DEVICE) && ((i_major x <? 0) || (NDEV <=? i_major x)) then
        do! iunlockput ip; do! end_op; ret err
      else
        let! f := filealloc in
        let! fd := (match f with Some f => fdalloc f | None => ret (-1) end) in
        match f with
        | Some f =>
          if fd <? 0 then do! fileclose f; do! iunlockput ip; do! end_op; ret err
          else
            do! (if i_type x =? T_DEVICE then
                   do! updfile f (set_f_type FD_DEVICE); updfile f (set_f_major (i_major x))
                 else
                   do! updfile f (set_f_type FD_INODE); updfile f (set_f_off 0));
            do! updfile f (set_f_ip ip);
            do! updfile f (set_f_readable (Z.land omode O_WRONLY =? 0));
            do! updfile f (set_f_writable (negb (Z.land omode O_WRONLY =? 0) || negb (Z.land omode O_RDWR =? 0)));
            do! (if negb (Z.land omode O_TRUNC =? 0) && (i_type x =? T_FILE) then itrunc ip else ret tt);
            do! iunlock ip;
            do! end_op;
            ret (u64 fd)
        | None => do! iunlockput ip; do! end_op; ret err
        end
    end.

Definition sys_mkdir : M kern Z :=
  do! begin_op;
  let! path := argstr 0 MAXPATH in
  let! r := (if fst path <? 0 then ret None else create (snd path) T_DIR 0 0) in
  match r with
  | None => do! end_op; ret err
  | Some ip => do! iunlockput ip; do! end_op; ret 0
  end.

Definition sys_mknod : M kern Z :=
  do! begin_op;
  let! major := argint 1 in
  let! minor := argint 2 in
  let! path := argstr 0 MAXPATH in
  let! r := (if fst path <? 0 then ret None else create (snd path) T_DEVICE (i16 major) (i16 minor)) in
  match r with
  | None => do! end_op; ret err
  | Some ip => do! iunlockput ip; do! end_op; ret 0
  end.

Definition sys_chdir : M kern Z :=
  let! p := mk curp in
  do! begin_op;
  let! path := argstr 0 MAXPATH in
  let! r := (if fst path <? 0 then ret None else namei (snd path)) in
  match r with
  | None => do! end_op; ret err
  | Some ip =>
    do! ilock ip;
    let! x := getinode ip in
    if negb (i_type x =? T_DIR) then do! iunlockput ip; do! end_op; ret err
    else
      do! iunlock ip;
      let! q := mk (getproc p) in
      do! (match cwd q with Some c => iput c | None => fault end);
      do! end_op;
      do! mk (updproc p (set_cwd (Some ip)));
      ret 0
  end.

(** Fetch the argument strings into fresh pages: the pages and the strings,
    [false] for [goto bad]. *)
Fixpoint fetch_args (fuel : nat) (uargv i : Z) (pages : list Z) (argv : list (list Z)) : M kern (bool * list Z * list (list Z)) :=
  match fuel with
  | O => ret (false, pages, argv)
  | S f =>
    let! u := fetchaddr (u64 (uargv + 8 * i)) in
    match u with
    | None => ret (false, pages, argv)
    | Some uarg =>
      if uarg =? 0 then ret (true, pages, argv)
      else
        let! pg := mk kalloc in
        if pg =? 0 then ret (false, pages, argv)
        else
          let! r := fetchstr uarg PGSIZE in
          if fst r <? 0 then ret (false, pages ++ [pg], argv)
          else
            do! mk (st_bytes pg (snd r ++ [0]));
            fetch_args f uargv (i + 1) (pages ++ [pg]) (argv ++ [snd r])
    end
  end.
Fixpoint kfree_all (l : list Z) : M mach unit :=
  match l with [] => ret tt | p :: l' => do! kfree p; kfree_all l' end.
Definition sys_exec : M kern Z :=
  let! uargv := argaddr 1 in
  let! path := argstr 0 MAXPATH in
  if fst path <? 0 then ret err
  else
    let! r := fetch_args (Z.to_nat MAXARG) uargv 0 [] [] in
    let '(ok, pages, argv) := r in
    if negb ok then do! mk (kfree_all pages); ret err
    else
      let! e := kexec (snd path) argv in
      do! mk (kfree_all pages);
      ret (u64 e).

Definition sys_pipe : M kern Z :=
  let! p := mk curp in
  let! fdarray := argaddr 0 in
  let! r := pipealloc in
  match r with
  | None => ret err
  | Some (rf, wf) =>
    let! fd0 := fdalloc rf in
    let! fd1 := (if fd0 <? 0 then ret (-1) else fdalloc wf) in
    if (fd0 <? 0) || (fd1 <? 0) then
      do! (if 0 <=? fd0 then mk (setofile p (Z.to_nat fd0) None) else ret tt);
      do! fileclose rf;
      do! fileclose wf;
      ret err
    else
      let! q := mk (getproc p) in
      let! e := mk (copyout (pagetable q) fdarray (int_bytes fd0)) in
      let! e := (if e <? 0 then ret e else mk (copyout (pagetable q) (u64 (fdarray + 4)) (int_bytes fd1))) in
      if e <? 0 then
        do! mk (setofile p (Z.to_nat fd0) None);
        do! mk (setofile p (Z.to_nat fd1) None);
        do! fileclose rf;
        do! fileclose wf;
        ret err
      else ret 0
  end.
End Sysfile.
