(* ===== verification/Sh.v ===== *)
(** * The shell (user/sh.c): parsing

    A pointer into the command line is the rest of the line from there on;
    its address is given by its length.  A word is the pair of pointers to
    its first byte and past its last one, as the parser stores them in
    [argv] and [eargv].  [show] prints a command with as few parentheses as
    the grammar needs, and [parsecmd] reads it back; [nulterminate] turns
    the words into strings in place.  [malloc] is taken to succeed: the code
    does not check. *)

From stdpp Require Import sorting.
From S2P Require Import Prelude.
From S2P Require Import Kstring.
From S2P Require Import Printk.
From S2P Require Import Sysfile.

(** ** Commands *)

Definition MAXARGS : nat := 10.

Definition word : Type := list Z * list Z.

(** The two ways a command refers to a string: while it is parsed by the
    pointers [word], afterwards by its bytes. *)
Inductive cmd (W : Type) : Type :=
| execcmd (argv : list W)
| redircmd (c : cmd W) (file : W) (mode fd : Z)
| pipecmd (left right : cmd W)
| listcmd (left right : cmd W)
| backcmd (c : cmd W).
Arguments execcmd {W} argv.
Arguments redircmd {W} c file mode fd.
Arguments pipecmd {W} left right.
Arguments listcmd {W} left right.
Arguments backcmd {W} c.

(** [panic] prints a message and exits; a syntax error is what is printed. *)
Inductive parsed (A : Type) : Type :=
| Ok (a : A)
| Syntax (msg : list Z)
| NoFuel.
Arguments Ok {A} a.
Arguments Syntax {A} msg.
Arguments NoFuel {A}.

Definition pbind {A B : Type} (m : parsed A) (f : A -> parsed B) : parsed B :=
  match m with Ok a => f a | Syntax e => Syntax e | NoFuel => NoFuel end.
Notation "'parse!' x ':=' m 'in' k" := (pbind m (fun x => k))
  (at level 10, x pattern, m at level 100, k at level 200, right associativity).

(** ** Tokens *)

Definition whitespace : list Z := [32; 9; 13; 10; 11].
Definition symbols : list Z := [60; 124; 62; 38; 59; 40; 41].
Definition is_space (c : Z) : bool := bool_decide (c ∈ whitespace).
Definition is_symbol (c : Z) : bool := bool_decide (c ∈ symbols).

Fixpoint skip_space (s : list Z) : list Z :=
  match s with [] => [] | c :: s' => if is_space c then skip_space s' else s end.
Fixpoint skip_word (s : list Z) : list Z :=
  match s with [] => [] | c :: s' => if negb (is_space c) && negb (is_symbol c) then skip_word s' else s end.

(** The kind of token, its extent, and where the next one starts. *)
Definition gettoken (ps : list Z) : Z * word * list Z :=
  let s := skip_space ps in
  let '(ret, eq) :=
    match s with
    | [] => (0, s)
    | c :: s1 =>
      if bool_decide (c ∈ [124; 40; 41; 59; 38; 60]) then (c, s1)
      else if c =? 62 then
        match s1 with
        | c1 :: s2 => if c1 =? 62 then (43, s2) else (c, s1)
        | [] => (c, s1)
        end
      else (97, skip_word s)
    end in
  (ret, (s, eq), skip_space eq).

Definition peek (ps toks : list Z) : bool * list Z :=
  let s := skip_space ps in
  (match s with [] => false | c :: _ => bool_decide (c ∈ toks) end, s).

(** ** The parser *)

(** A redirection as [parseredirs] finds it: the file, mode and descriptor. *)
Definition redirection : Type := word * Z * Z.
Definition redirect (r : redirection) (c : cmd word) : cmd word :=
  let '(f, mode, fd) := r in redircmd c f mode fd.

(** The redirections that follow, in order. *)
Fixpoint parseredirs (fuel : nat) (ps : list Z) : parsed (list redirection * list Z) :=
  let '(b, ps) := peek ps [60; 62] in
  if b then
    match fuel with
    | O => NoFuel
    | S f =>
      let '(tok, _, ps) := gettoken ps in
      let '(tok', q, ps) := gettoken ps in
      if negb (tok' =? 97) then Syntax (str "missing file for redirection")
      else
        let r := if tok =? 60 then [(q, O_RDONLY, 0)]
                 else if tok =? 62 then [(q, Z.lor (Z.lor O_WRONLY O_CREATE) O_TRUNC, 1)]
                 else if tok =? 43 then [(q, Z.lor O_WRONLY O_CREATE, 1)]
                 else [] in
        parse! (rs, ps) := parseredirs f ps in
        Ok (r ++ rs, ps)
    end
  else Ok ([], ps).

(** The command and the redirections wrapped around it: the first one is the
    innermost. *)
Definition wrap (rs : list redirection) (c : cmd word) : cmd word := foldl (fun c r => redirect r c) c rs.

(** The loop of [parseexec].  The arguments go into the [execcmd] at the
    centre while redirections are wrapped around it. *)
Fixpoint parseargs (fuel : nat) (ps : list Z) (argv : list word) (rs : list redirection) : parsed (cmd word * list Z) :=
  let '(b, ps) := peek ps [124; 41; 38; 59] in
  if b then Ok (wrap rs (execcmd argv), ps)
  else
    let '(tok, q, ps) := gettoken ps in
    if tok =? 0 then Ok (wrap rs (execcmd argv), ps)
    else if negb (tok =? 97) then Syntax (str "syntax")
    else if (MAXARGS <=? S (length argv))%nat then Syntax (str "too many args")
    else
      match fuel with
      | O => NoFuel
      | S f =>
        parse! (rs', ps) := parseredirs (length ps) ps in
        parseargs f ps (argv ++ [q]) (rs ++ rs')
      end.

(** [while(peek("&"))] of [parseline]. *)
Fixpoint parseamps (fuel : nat) (c : cmd word) (ps : list Z) : parsed (cmd word * list Z) :=
  let '(b, ps) := peek ps [38] in
  if b then
    match fuel with
    | O => NoFuel
    | S f => let '(_, _, ps) := gettoken ps in parseamps f (backcmd c) ps
    end
  else Ok (c, ps).

Fixpoint parseline (fuel : nat) (ps : list Z) : parsed (cmd word * list Z) :=
  match fuel with
  | O => NoFuel
  | S f =>
    parse! (c, ps) := parsepipe f ps in
    parse! (c, ps) := parseamps (length ps) c ps in
    let '(b, ps) := peek ps [59] in
    if b then
      let '(_, _, ps) := gettoken ps in
      parse! (c', ps) := parseline f ps in
      Ok (listcmd c c', ps)
    else Ok (c, ps)
  end
with parsepipe (fuel : nat) (ps : list Z) : parsed (cmd word * list Z) :=
  match fuel with
  | O => NoFuel
  | S f =>
    parse! (c, ps) := parseexec f ps in
    let '(b, ps) := peek ps [124] in
    if b then
      let '(_, _, ps) := gettoken ps in
      parse! (c', ps) := parsepipe f ps in
      Ok (pipecmd c c', ps)
    else Ok (c, ps)
  end
with parseexec (fuel : nat) (ps : list Z) : parsed (cmd word * list Z) :=
  match fuel with
  | O => NoFuel
  | S f =>
    let '(b, ps) := peek ps [40] in
    if b then parseblock f ps
    else
      parse! (rs, ps) := parseredirs (length ps) ps in
      parseargs (length ps) ps [] rs
  end
with parseblock (fuel : nat) (ps : list Z) : parsed (cmd word * list Z) :=
  match fuel with
  | O => NoFuel
  | S f =>
    let '(b, ps) := peek ps [40] in
    if negb b then Syntax (str "parseblock")
    else
      let '(_, _, ps) := gettoken ps in
      parse! (c, ps) := parseline f ps in
      let '(b, ps) := peek ps [41] in
      if negb b then Syntax (str "syntax - missing )")
      else
        let '(_, _, ps) := gettoken ps in
        parse! (rs, ps) := parseredirs (length ps) ps in
        Ok (wrap rs c, ps)
  end.

(** Four calls at most for each byte of the line. *)
Definition line_fuel (s : list Z) : nat := 4 * length s + 4.

Definition parsecmd (s : list Z) : parsed (cmd word) :=
  parse! (c, ps) := parseline (line_fuel s) s in
  let '(_, ps) := peek ps [] in
  match ps with [] => Ok c | _ => Syntax (str "leftovers: " ++ ps ++ [10] ++ str "syntax") end.

(** ** Strings in place *)

(** The words of a command in the order [nulterminate] ends them. *)
Fixpoint words {W : Type} (c : cmd W) : list W :=
  match c with
  | execcmd argv => argv
  | redircmd c f _ _ => words c ++ [f]
  | pipecmd l r | listcmd l r => words l ++ words r
  | backcmd c => words c
  end.

(** The offset of a pointer in a line of [n] bytes. *)
Definition offset (n : nat) (p : list Z) : nat := n - length p.
(** [*eargv[i] = 0] for every word, in the line with its final NUL. *)
Definition nulterminate (s : list Z) (c : cmd word) : list Z :=
  foldl (fun buf w => <[offset (length s) (snd w) := 0]> buf) (s ++ [0]) (words c).

(** ** Every line is parsed or refused *)

(** The elements of a list literal, one by one. *)
Ltac in_list H :=
  repeat (apply elem_of_cons in H as [H|H]); try (now apply not_elem_of_nil in H).

Definition holds {A : Type} (Q : A -> Prop) (r : parsed A) : Prop :=
  match r with Ok a => Q a | Syntax _ => True | NoFuel => False end.
Lemma holds_bind {A B : Type} (Q : B -> Prop) (m : parsed A) f : holds (fun a => holds Q (f a)) m -> holds Q (pbind m f).
Proof. now destruct m. Qed.
Lemma holds_mono {A : Type} (P Q : A -> Prop) r : holds P r -> (forall a, P a -> Q a) -> holds Q r.
Proof. destruct r; simpl; auto. Qed.

(** Bytes of words. *)
Definition plain (c : Z) : Prop := is_space c = false /\ is_symbol c = false.
(** [w] is a word of the line [s]: plain bytes up to a separator or the end. *)
Definition token (s : list Z) (w : word) : Prop :=
  exists pre mid, s = pre ++ mid ++ snd w /\ fst w = mid ++ snd w /\ mid <> [] /\ Forall plain mid /\
    match snd w with [] => True | c :: _ => ~ plain c end.

Lemma skip_space_suffix s : skip_space s `suffix_of` s.
Proof. induction s as [|c s IH]; simpl; [done|]. destruct (is_space c); [now apply suffix_cons_r|done]. Qed.
Lemma skip_word_split s : exists mid, s = mid ++ skip_word s /\ Forall plain mid /\
  match skip_word s with [] => True | c :: _ => ~ plain c end.
Proof.
  induction s as [|c s (mid & E & Hm & Hp)]; simpl; [exists []; done|]. unfold plain.
  destruct (is_space c) eqn:E1, (is_symbol c) eqn:E2; simpl; try (exists []; split; [done|]; split; [done|]; intuition congruence).
  exists (c :: mid). split; [simpl; now f_equal|]. split; [constructor; [split; done|done]|done].
Qed.
Lemma skip_word_head c s : plain c -> exists mid, c :: s = (c :: mid) ++ skip_word (c :: s).
Proof.
  intros [H1 H2]. simpl. rewrite H1, H2. simpl. destruct (skip_word_split s) as (mid & E & _). exists mid. simpl. now f_equal.
Qed.
Lemma skip_space_head s : match skip_space s with [] => True | c :: _ => is_space c = false end.
Proof. induction s as [|c s IH]; simpl; [done|]. destruct (is_space c) eqn:E; done. Qed.

Lemma suffix_length_le (s1 s2 : list Z) : s1 `suffix_of` s2 -> (length s1 <= length s2)%nat.
Proof. intros [k ->]. rewrite length_app. lia. Qed.

(** Every token but the last takes at least a byte. *)
Lemma gettoken_spec s ps tok w ps' : ps `suffix_of` s -> gettoken ps = (tok, w, ps') ->
  ps' `suffix_of` ps /\ (skip_space ps <> [] -> length ps' < length ps)%nat /\ (skip_space ps = [] -> tok = 0) /\
  (tok = 97 -> token s w /\ (length (fst w) <= length ps)%nat /\ (length ps' <= length (snd w))%nat).
Proof.
  intros Hs. unfold gettoken. pose proof (skip_space_suffix ps) as Hsk. pose proof (skip_space_head ps) as Hh.
  destruct (skip_space ps) as [|c s1] eqn:E; [intros [= <- <- <-]; split; [done|split; [done|split; [done|lia]]]|].
  assert (forall eq, eq `suffix_of` s1 -> skip_space eq `suffix_of` ps /\ (length (skip_space eq) < length ps)%nat) as Hnext.
  { intros eq He. split; [etransitivity; [apply skip_space_suffix|]; etransitivity; [exact He|];
      etransitivity; [apply suffix_cons_r; reflexivity|exact Hsk]|].
    pose proof (suffix_length_le _ _ (skip_space_suffix eq)). pose proof (suffix_length_le _ _ He).
    pose proof (suffix_length_le _ _ Hsk). simpl in *. lia. }
  case_bool_decide as Hc.
  { intros [= <- <- <-]. destruct (Hnext s1 ltac:(done)). split; [done|]. split; [done|]. split; [done|]. intros ->. now in_list Hc. }
  destruct (Z.eqb_spec c 62) as [->|H62].
  { destruct s1 as [|c1 s2]; [|destruct (Z.eqb_spec c1 62) as [->|]]; intros [= <- <- <-].
    - destruct (Hnext [] ltac:(done)). split; [done|]. split; [done|]. split; [done|lia].
    - destruct (Hnext s2 ltac:(now apply suffix_cons_r)). split; [done|]. split; [done|]. split; [done|lia].
    - destruct (Hnext (c1 :: s2) ltac:(done)). split; [done|]. split; [done|]. split; [done|lia]. }
  assert (plain c) as Hp.
  { split; [done|]. apply bool_decide_eq_false. rewrite !not_elem_of_cons in Hc.
    intros Hin. unfold symbols in Hin. in_list Hin; tauto. }
  destruct (skip_word_head c s1 Hp) as [mid' Em].
  assert (skip_word (c :: s1) `suffix_of` s1) as Hsuf by (injection Em as Em; exists mid'; exact Em).
  intros [= <- <- <-]. destruct (Hnext _ Hsuf). split; [done|]. split; [done|]. split; [done|]. intros _.
  destruct (skip_word_split (c :: s1)) as (mid & E1 & E2 & E3). assert (c :: s1 `suffix_of` s) as [pre ->] by (etransitivity; eauto).
  cbn [fst snd]. split; [|split; [now apply suffix_length_le|apply suffix_length_le, skip_space_suffix]].
  exists pre, mid. cbn [fst snd]. split; [f_equal; exact E1|]. split; [exact E1|]. split; [|done].
  intros ->. rewrite app_nil_l in E1. rewrite <- E1 in Hsuf. apply suffix_length_le in Hsuf. simpl in Hsuf. lia.
Qed.

Lemma peek_spec ps toks b ps' : peek ps toks = (b, ps') ->
  ps' = skip_space ps /\ ps' `suffix_of` ps /\ (b = true -> ps' <> []) /\ skip_space ps' = ps'.
Proof.
  unfold peek. intros [= <- <-]. split; [done|]. split; [apply skip_space_suffix|].
  pose proof (skip_space_head ps) as H. destruct (skip_space ps) as [|c s]; split; try done. simpl. now rewrite H.
Qed.

(** The words [l] one after the other, from the pointer with [a] bytes behind
    it to the one with [b]. *)
Fixpoint chain (a : nat) (l : list word) (b : nat) : Prop :=
  match l with
  | [] => (b <= a)%nat
  | w :: l => (length (snd w) < length (fst w) <= a)%nat /\ chain (length (snd w)) l b
  end.
Lemma chain_le l : forall a b, chain a l b -> (b <= a)%nat.
Proof. induction l as [|w l IH]; intros a b; simpl; [done|]. intros [H1 H2]. apply IH in H2. lia. Qed.
Lemma chain_mono l : forall a a' b b', chain a l b -> (a <= a')%nat -> (b' <= b)%nat -> chain a' l b'.
Proof. induction l as [|w l IH]; intros a a' b b'; simpl; [lia|]. intros [H1 H2] Ha Hb. split; [lia|]. eapply IH; eauto. Qed.
Lemma chain_app l1 l2 : forall a b c, chain a l1 b -> chain b l2 c -> chain a (l1 ++ l2) c.
Proof.
  induction l1 as [|w l1 IH]; intros a b c; simpl; [intros H1 H2; eapply chain_mono; eauto|]. intros [H1 H2] H3. split; [done|]. now apply (IH _ b).
Qed.
(** [w] ends before [w'] starts. *)
Definition before (w w' : word) : Prop := (length (fst w') <= length (snd w))%nat.
Lemma chain_in l : forall a b, chain a l b -> forall w, w ∈ l -> (length (fst w) <= a)%nat.
Proof.
  induction l as [|v l IH]; intros a b H w Hw; [now apply not_elem_of_nil in Hw|]. destruct H as [H1 H2]. apply elem_of_cons in Hw as [->|Hw]; [lia|].
  specialize (IH _ _ H2 w Hw). lia.
Qed.
Lemma chain_sorted l : forall a b, chain a l b -> StronglySorted before l.
Proof.
  induction l as [|w l IH]; intros a b H; [constructor|]. destruct H as [_ H]. constructor; [exact (IH _ _ H)|]. apply Forall_forall. intros v Hv. exact (chain_in l _ b H v Hv).
Qed.
Lemma sorted_sublist (l1 l2 : list word) : l1 `sublist_of` l2 -> StronglySorted before l2 -> StronglySorted before l1.
Proof.
  induction 1 as [|w l1 l2 Hs IH|w l1 l2 _ IH]; intros H; [done| |]; inversion H as [|? ? H1 H2]; subst; [|now apply IH].
  constructor; [now apply IH|]. rewrite Forall_forall in *. intros v Hv. apply H2. now apply (sublist_subseteq _ _ Hs).
Qed.

(** The argument lists of a command, and what the parser says of each. *)
Fixpoint execs {W : Type} (c : cmd W) : list (list W) :=
  match c with
  | execcmd argv => [argv]
  | redircmd c _ _ _ | backcmd c => execs c
  | pipecmd l r | listcmd l r => execs l ++ execs r
  end.
Definition argv_ok (argv : list word) : Prop := (length argv < MAXARGS)%nat /\ StronglySorted before argv.
Definition cmd_ok (c : cmd word) : Prop := Forall argv_ok (execs c).

(** What the parts of the parser keep: the rest is a suffix, the words are
    words of the line, and in some order they follow one another between
    where the part started and the rest. *)
Definition ordered (ps : list Z) (ws : list word) (p : list Z) : Prop := exists l, l ≡ₚ ws /\ chain (length ps) l (length p).
Definition kept {A : Type} (s ps : list Z) (ws : A -> list word) (ok : A -> Prop) : A * list Z -> Prop :=
  fun r => snd r `suffix_of` ps /\ Forall (token s) (ws (fst r)) /\ ordered ps (ws (fst r)) (snd r) /\ ok (fst r).
Definition file_of (r : redirection) : word := fst (fst r).
Definition no_more {A : Type} (_ : A) : Prop := True.

Lemma ordered_nil ps p : p `suffix_of` ps -> ordered ps [] p.
Proof. intros H. exists []. split; [done|]. now apply suffix_length_le. Qed.
Lemma ordered_app ps ws p ws' p' : ordered ps ws p -> ordered p ws' p' -> ordered ps (ws ++ ws') p'.
Proof. intros (l & Hl & Hc) (l' & Hl' & Hc'). exists (l ++ l'). split; [now rewrite Hl, Hl'|]. now apply (chain_app _ _ _ (length p)). Qed.
Lemma ordered_mono ps ps' ws p p' : ordered ps ws p -> ps `suffix_of` ps' -> p' `suffix_of` p -> ordered ps' ws p'.
Proof. intros (l & Hl & Hc) H1 H2. exists l. split; [done|]. eapply chain_mono; [exact Hc|now apply suffix_length_le..]. Qed.
Lemma ordered_word s ps w p : token s w -> (length (fst w) <= length ps)%nat -> (length p <= length (snd w))%nat -> ordered ps [w] p.
Proof.
  intros (pre & mid & _ & E & Hne & _) H1 H2. exists [w]. split; [done|]. split; [|done]. rewrite E, length_app in *. destruct mid; [done|]. simpl in *. lia.
Qed.

Lemma parseredirs_total s fuel : forall ps, ps `suffix_of` s -> (length ps <= fuel)%nat ->
  holds (kept s ps (fmap file_of) no_more) (parseredirs fuel ps).
Proof.
  induction fuel as [|f IH]; intros ps Hs Hf; cbn [parseredirs];
    destruct (peek ps [60; 62]) as [b p1] eqn:Ep; apply peek_spec in Ep as (_ & H1 & Hb & Hk); (destruct b; [|split; [done|split; [constructor|split; [now apply ordered_nil|done]]]]);
    specialize (Hb eq_refl); pose proof (suffix_length_le _ _ H1) as L1.
  { destruct p1; [done|simpl in L1; lia]. }
  assert (p1 `suffix_of` s) as Hs1 by (etransitivity; eauto).
  destruct (gettoken p1) as [[tok w1] p2] eqn:E1. apply (gettoken_spec s) in E1 as (H2 & L2 & _); [|done].
  specialize (L2 ltac:(now rewrite Hk)). assert (p2 `suffix_of` s) as Hs2 by (etransitivity; eauto).
  destruct (gettoken p2) as [[tok' q] p3] eqn:E2. apply (gettoken_spec s) in E2 as (H3 & _ & _ & Hq); [|done].
  pose proof (suffix_length_le _ _ H3). destruct (Z.eqb_spec tok' 97) as [->|]; [|done]. simpl negb. cbv iota.
  assert (p3 `suffix_of` s) as Hs3 by (etransitivity; eauto).
  apply holds_bind. eapply holds_mono; [apply IH; [done|lia]|]. intros [rs p4] (H4 & Hrs & Ho & _). simpl in H4, Hrs, Ho.
  destruct (Hq eq_refl) as (Hw & Lw & Lp). split; [simpl; transitivity p3; [done|]; transitivity p2; [done|]; now transitivity p1|].
  assert (p2 `suffix_of` ps) as H12 by (now transitivity p1). cbn [fst snd]. rewrite fmap_app. split; [|split; [|done]].
  - apply Forall_app. split; [|done]. repeat case_match; repeat constructor; done.
  - apply (ordered_mono p2 ps _ p4); [|done|done]. apply (ordered_app p2 _ p3); [|done].
    repeat case_match; first [now apply ordered_nil|now apply (ordered_word s)].
Qed.

Lemma words_wrap rs c : words (wrap rs c) = words c ++ (file_of <$> rs).
Proof.
  unfold wrap. revert c. induction rs as [|[[f mode] fd] rs IH]; intros c; simpl; [now rewrite app_nil_r|].
  rewrite IH. simpl. now rewrite <- app_assoc.
Qed.
Lemma execs_wrap rs c : execs (wrap rs c) = execs c.
Proof. unfold wrap. revert c. induction rs as [|[[f mode] fd] rs IH]; intros c; simpl; [done|]. now rewrite IH. Qed.

(** The arguments and files found so far, in a line that started at [s0]. *)
Definition gathered (s s0 ps : list Z) (argv files : list word) : Prop :=
  Forall (token s) argv /\ Forall (token s) files /\ (length argv < MAXARGS)%nat /\
  exists l, l ≡ₚ argv ++ files /\ argv `sublist_of` l /\ chain (length s0) l (length ps).
Lemma gathered_mono s s0 ps p argv files : gathered s s0 ps argv files -> p `suffix_of` ps -> gathered s s0 p argv files.
Proof.
  intros (H1 & H2 & H3 & l & H4 & H5 & H6) Hp. split; [done|]. split; [done|]. split; [done|]. exists l. split; [done|]. split; [done|].
  eapply chain_mono; [exact H6|done|now apply suffix_length_le].
Qed.
Lemma gathered_more s s0 ps argv files w p fs p' : gathered s s0 ps argv files -> token s w -> ordered ps [w] p ->
  (S (length argv) < MAXARGS)%nat -> Forall (token s) fs -> ordered p fs p' -> gathered s s0 p' (argv ++ [w]) (files ++ fs).
Proof.
  intros (H1 & H2 & H3 & l & H4 & H5 & H6) Hw (lw & Elw & Cw) Hn Hfs (lf & Elf & Cf). symmetry in Elw. apply Permutation_singleton_l in Elw as <-.
  split; [now apply Forall_app_2; [|constructor]|]. split; [now apply Forall_app|]. split; [rewrite length_app; simpl; lia|].
  exists (l ++ [w] ++ lf). split; [|split].
  - rewrite H4, Elf. rewrite <- !app_assoc. apply Permutation_app_head. rewrite !app_assoc. apply Permutation_app_tail. apply Permutation_app_comm.
  - apply sublist_app; [done|]. simpl. constructor. apply sublist_nil_l.
  - apply (chain_app _ _ _ (length ps)); [done|]. now apply (chain_app [w] lf _ (length p)).
Qed.
Lemma parseargs_total s s0 fuel : forall ps argv rs, ps `suffix_of` s -> ps `suffix_of` s0 -> (length ps <= fuel)%nat ->
  gathered s s0 ps argv (file_of <$> rs) -> holds (kept s s0 words cmd_ok) (parseargs fuel ps argv rs).
Proof.
  assert (forall p argv rs, p `suffix_of` s0 -> gathered s s0 p argv (file_of <$> rs) -> kept s s0 words cmd_ok (wrap rs (execcmd argv), p)) as Hend.
  { intros p argv rs Hp (H1 & H2 & H3 & l & H4 & H5 & H6). split; [done|]. cbn [fst snd]. rewrite words_wrap. split; [now apply Forall_app|]. split; [now exists l|].
    unfold cmd_ok. rewrite execs_wrap. constructor; [|constructor]. split; [done|]. apply (sorted_sublist _ l H5). now apply (chain_sorted l _ _ H6). }
  induction fuel as [|f IH]; intros ps argv rs Hs Hs0 Hf Hg; cbn [parseargs];
    destruct (peek ps [124; 41; 38; 59]) as [b p1] eqn:Ep; apply peek_spec in Ep as (_ & H1 & _ & Hk);
    assert (p1 `suffix_of` s0) as H10 by (now transitivity ps); pose proof (gathered_mono _ _ _ p1 _ _ Hg H1) as Hg1;
    (destruct b; [now apply Hend|]); pose proof (suffix_length_le _ _ H1) as L1;
    assert (p1 `suffix_of` s) as Hs1 by (now transitivity ps);
    destruct (gettoken p1) as [[tok q] p2] eqn:E1; apply (gettoken_spec s) in E1 as (H2 & L2 & L2' & Hq); try done;
    rewrite Hk in L2, L2'; assert (p2 `suffix_of` s0) as H20 by (now transitivity p1);
    (destruct (Z.eqb_spec tok 0) as [->|Ht]; [apply Hend; [done|]; now apply (gathered_mono _ _ p1)|]);
    (destruct (Z.eqb_spec tok 97) as [->|]; [|done]); simpl negb; cbv iota; (destruct (Nat.leb_spec MAXARGS (S (length argv))) as [|Hn]; [done|]);
    assert (p1 <> []) as Hne by (intros ->; now apply Ht, L2'); specialize (L2 Hne).
  { destruct p1; [done|simpl in L1; lia]. }
  destruct (Hq eq_refl) as (Hw & Lw & Lp). assert (p2 `suffix_of` s) as Hs2 by (now transitivity p1).
  apply holds_bind. eapply holds_mono; [now apply (parseredirs_total s)|]. intros [rs' p3] (H3 & Hrs & Ho & _). simpl in H3, Hrs, Ho.
  pose proof (suffix_length_le _ _ H3). apply IH; [now transitivity p2|now transitivity p2|lia|].
  rewrite fmap_app. apply (gathered_more s s0 p1 argv _ q p2); try done. now apply (ordered_word s).
Qed.
Lemma kept_step {A B : Type} s ps p p' (ws : A -> list word) (ok : A -> Prop) (ws' : B -> list word) (ok' : B -> Prop) a b :
  kept s ps ws ok (a, p) -> p' `suffix_of` p -> ws' b = ws a -> ok' b -> kept s ps ws' ok' (b, p').
Proof.
  intros (H1 & H2 & H3 & _) Hp E Hok. split; [simpl in *; now transitivity p|]. cbn [fst snd] in *. rewrite E. split; [done|]. split; [|done].
  now apply (ordered_mono ps ps _ p).
Qed.
Lemma parseamps_total s s0 fuel : forall ps c, ps `suffix_of` s -> (length ps <= fuel)%nat -> kept s s0 words cmd_ok (c, ps) ->
  holds (kept s s0 words cmd_ok) (parseamps fuel c ps).
Proof.
  induction fuel as [|f IH]; intros ps c Hs Hf Hc; cbn [parseamps];
    destruct (peek ps [38]) as [b p1] eqn:Ep; apply peek_spec in Ep as (_ & H1 & Hb & Hk); pose proof (proj2 (proj2 (proj2 Hc))) as Hok;
    (destruct b; [|now apply (kept_step s s0 ps p1 words cmd_ok _ _ c)]); specialize (Hb eq_refl); pose proof (suffix_length_le _ _ H1) as L1.
  { destruct p1; [done|simpl in L1; lia]. }
  assert (p1 `suffix_of` s) as Hs1 by (etransitivity; eauto).
  destruct (gettoken p1) as [[tok w1] p2] eqn:E1. apply (gettoken_spec s) in E1 as (H2 & L2 & _); [|done].
  specialize (L2 ltac:(now rewrite Hk)). apply (IH p2 (backcmd c)); [now transitivity p1|lia|].
  apply (kept_step s s0 ps p2 words cmd_ok _ _ c); [done|now transitivity p1|done|exact Hok].
Qed.

(** A symbol that [peek] has seen is taken by [gettoken]. *)
Lemma next_symbol s ps toks p1 tok w p2 : ps `suffix_of` s -> peek ps toks = (true, p1) -> gettoken p1 = (tok, w, p2) ->
  p2 `suffix_of` ps /\ p2 `suffix_of` s /\ (length p2 < length ps)%nat.
Proof.
  intros Hs Ep E1. apply peek_spec in Ep as (_ & H1 & Hb & Hk). pose proof (suffix_length_le _ _ H1) as L1.
  apply (gettoken_spec s) in E1 as (H2 & L2 & _); [|now transitivity ps]. specialize (L2 ltac:(rewrite Hk; now apply Hb)).
  split; [now transitivity p1|]. split; [transitivity p1; [done|now transitivity ps]|lia].
Qed.
Lemma seen_suffix s ps toks b p1 : ps `suffix_of` s -> peek ps toks = (b, p1) ->
  p1 `suffix_of` ps /\ p1 `suffix_of` s /\ (length p1 <= length ps)%nat.
Proof.
  intros Hs Ep. apply peek_spec in Ep as (_ & H1 & _). split; [done|]. split; [now transitivity ps|now apply suffix_length_le].
Qed.
Lemma kept_mono {A : Type} s ps ps' (ws : A -> list word) ok r : ps' `suffix_of` ps -> kept s ps' ws ok r -> kept s ps ws ok r.
Proof. intros H (H1 & H2 & H3 & H4). split; [now transitivity ps'|]. split; [done|]. split; [|done]. now apply (ordered_mono ps' ps _ (snd r)). Qed.
(** Two parts with a separator between them. *)
Lemma kept_pair {A B C : Type} s ps p p1 p2 (wa : A -> list word) oka (wb : B -> list word) okb (wc : C -> list word) (okc : C -> Prop) a b c :
  kept s ps wa oka (a, p) -> p1 `suffix_of` p -> kept s p1 wb okb (b, p2) -> wc c = wa a ++ wb b -> okc c -> kept s ps wc okc (c, p2).
Proof.
  intros (A1 & A2 & A3 & _) Hp (B1 & B2 & B3 & _) E Hok. cbn [fst snd] in *. split; [simpl; transitivity p1; [done|]; now transitivity p|]. cbn [fst snd]. rewrite E.
  split; [now apply Forall_app|]. split; [|done]. apply (ordered_app ps _ p); [done|]. now apply (ordered_mono p1 p _ p2).
Qed.

Lemma parse_total s fuel : forall ps, ps `suffix_of` s ->
  ((4 * length ps + 4 <= fuel)%nat -> holds (kept s ps words cmd_ok) (parseline fuel ps)) /\
  ((4 * length ps + 3 <= fuel)%nat -> holds (kept s ps words cmd_ok) (parsepipe fuel ps)) /\
  ((4 * length ps + 2 <= fuel)%nat -> holds (kept s ps words cmd_ok) (parseexec fuel ps)) /\
  ((4 * length ps + 1 <= fuel)%nat -> holds (kept s ps words cmd_ok) (parseblock fuel ps)).
Proof.
  induction fuel as [|f IH]; intros ps Hs; [repeat split; lia|].
  split; [|split; [|split]]; intros Hf; cbn [parseline parsepipe parseexec parseblock].
  - apply holds_bind. eapply holds_mono; [apply IH; [done|lia]|]. intros [c p1] Hc. pose proof (proj1 Hc) as H1. simpl in H1.
    assert (p1 `suffix_of` s) as Hs1 by (now transitivity ps). pose proof (suffix_length_le _ _ H1).
    apply holds_bind. eapply holds_mono; [now apply (parseamps_total s ps)|]. intros [c2 p2] Hc2. pose proof (proj1 Hc2) as H2. simpl in H2.
    assert (p2 `suffix_of` s) as Hs2 by (now transitivity ps). pose proof (suffix_length_le _ _ H2). pose proof (proj2 (proj2 (proj2 Hc2))) as O2.
    destruct (peek p2 [59]) as [b p3] eqn:Ep. destruct b.
    + destruct (gettoken p3) as [[tok w] p4] eqn:E1. destruct (next_symbol s p2 _ _ _ _ _ Hs2 Ep E1) as (H4 & Hs4 & L4).
      apply holds_bind. eapply holds_mono; [apply IH; [done|lia]|]. intros [c3 p5] Hc3.
      apply (kept_pair s ps p2 p4 p5 words cmd_ok words cmd_ok _ _ c2 c3); [done|done|done|done|]. apply Forall_app. split; [done|apply Hc3].
    + destruct (seen_suffix s p2 _ _ _ Hs2 Ep) as (H3 & _). now apply (kept_step s ps p2 p3 words cmd_ok _ _ c2).
  - apply holds_bind. eapply holds_mono; [apply IH; [done|lia]|]. intros [c p1] Hc. pose proof (proj1 Hc) as H1. simpl in H1.
    assert (p1 `suffix_of` s) as Hs1 by (now transitivity ps). pose proof (suffix_length_le _ _ H1). pose proof (proj2 (proj2 (proj2 Hc))) as O1.
    destruct (peek p1 [124]) as [b p3] eqn:Ep. destruct b.
    + destruct (gettoken p3) as [[tok w] p4] eqn:E1. destruct (next_symbol s p1 _ _ _ _ _ Hs1 Ep E1) as (H4 & Hs4 & L4).
      apply holds_bind. eapply holds_mono; [apply IH; [done|lia]|]. intros [c3 p5] Hc3.
      apply (kept_pair s ps p1 p4 p5 words cmd_ok words cmd_ok _ _ c c3); [done|done|done|done|]. apply Forall_app. split; [done|apply Hc3].
    + destruct (seen_suffix s p1 _ _ _ Hs1 Ep) as (H3 & _). now apply (kept_step s ps p1 p3 words cmd_ok _ _ c).
  - destruct (peek ps [40]) as [b p1] eqn:Ep. destruct (seen_suffix s ps _ _ _ Hs Ep) as (H1 & Hs1 & L1). destruct b.
    + eapply holds_mono; [apply IH; [done|lia]|]. intros r. now apply kept_mono.
    + apply holds_bind. eapply holds_mono; [now apply (parseredirs_total s)|]. intros [rs p2] (H2 & Hrs & (l & El & Cl) & _). cbn [fst snd] in *.
      eapply holds_mono; [apply (parseargs_total s p1); [now transitivity p1|done|done|]|intros r; now apply kept_mono].
      split; [constructor|]. split; [done|]. split; [unfold MAXARGS; simpl; lia|]. exists l. split; [done|]. split; [apply sublist_nil_l|done].
  - destruct (peek ps [40]) as [b p1] eqn:Ep. destruct b; [|done]. simpl negb. cbv iota.
    destruct (gettoken p1) as [[tok w] p2] eqn:E1. destruct (next_symbol s ps _ _ _ _ _ Hs Ep E1) as (H2 & Hs2 & L2).
    apply holds_bind. eapply holds_mono; [apply IH; [done|lia]|]. intros [c p3] Hc. pose proof (proj1 Hc) as H3. simpl in H3.
    assert (p3 `suffix_of` s) as Hs3 by (now transitivity p2).
    destruct (peek p3 [41]) as [b p4] eqn:Ep'. destruct b; [|done]. simpl negb. cbv iota.
    destruct (gettoken p4) as [[tok' w'] p5] eqn:E2. destruct (next_symbol s p3 _ _ _ _ _ Hs3 Ep' E2) as (H5 & Hs5 & L5).
    apply holds_bind. eapply holds_mono; [now apply (parseredirs_total s)|]. intros [rs p6] Hrs.
    apply (kept_mono s ps p2); [done|]. apply (kept_pair s p2 p3 p5 p6 words cmd_ok (fmap file_of) no_more _ _ c rs); [done|done|done|apply words_wrap|].
    unfold cmd_ok. rewrite execs_wrap. apply Hc.
Qed.
(** The whole line. *)
Lemma parsecmd_kept s : holds (fun c => Forall (token s) (words c) /\ (exists l, l ≡ₚ words c /\ StronglySorted before l) /\ cmd_ok c) (parsecmd s).
Proof.
  unfold parsecmd. apply holds_bind. eapply holds_mono; [apply (parse_total s); [done|unfold line_fuel; lia]|].
  intros [c p] (_ & Hc & (l & El & Cl) & Hok). destruct (peek p []) as [b p']. destruct p'; [|done]. split; [exact Hc|]. split; [|exact Hok].
  exists l. split; [exact El|now apply (chain_sorted l _ _ Cl)].
Qed.

(** ** Strings in place *)

(** The bytes of a word. *)
Definition text (w : word) : list Z := take (length (fst w) - length (snd w)) (fst w).

Section Nul.
Variable n : nat.
Let ends (buf : list Z) (ws : list word) : list Z := foldl (fun buf w => <[offset n (snd w) := 0]> buf) buf ws.

Lemma ends_length ws : forall buf, length (ends buf ws) = length buf.
Proof. induction ws as [|w ws IH]; intros buf; simpl; [done|]. unfold ends in *. rewrite IH. apply length_insert. Qed.
Lemma ends_miss ws i : forall buf, (forall w, w ∈ ws -> offset n (snd w) <> i) -> ends buf ws !! i = buf !! i.
Proof.
  induction ws as [|w ws IH]; intros buf H; simpl; [done|]. unfold ends in *. simpl. rewrite IH by (intros w' Hw'; apply H; now right).
  apply list_lookup_insert_ne, H. now left.
Qed.
Lemma ends_hit ws i : forall buf, (i < length buf)%nat -> buf !! i = Some 0 \/ i ∈ (offset n ∘ snd <$> ws) -> ends buf ws !! i = Some 0.
Proof.
  induction ws as [|w ws IH]; intros buf Hl H; simpl in *; [destruct H as [H|H]; [done|now apply not_elem_of_nil in H]|].
  unfold ends in *. simpl. apply IH; [now rewrite length_insert|]. destruct (decide (offset n (snd w) = i)) as [<-|Hne].
  - left. now apply list_lookup_insert_eq.
  - destruct H as [H|H]; [left; now rewrite list_lookup_insert_ne|]. right. apply elem_of_cons in H as [->|H]; [done|exact H].
Qed.
End Nul.

Lemma token_text s w : token s w -> exists pre, s = pre ++ text w ++ snd w /\ offset (length s) (fst w) = length pre /\
  offset (length s) (snd w) = (length pre + length (text w))%nat /\ text w <> [] /\ Forall plain (text w) /\
  match snd w with [] => True | c :: _ => ~ plain c end.
Proof.
  intros (pre & mid & E & Ew & Hne & Hp & Hs). exists pre. destruct w as [q eq]. unfold text, offset. cbn [fst snd] in *. subst q.
  rewrite length_app, Nat.add_sub, take_app_length. rewrite E, !length_app. split; [done|]. split; [lia|]. split; [lia|]. done.
Qed.

(** The end of a word is at no byte of a word. *)
Lemma token_end s w j : token s w -> offset (length s) (snd w) = j -> forall c, (s ++ [0]) !! j = Some c -> ~ (plain c /\ c <> 0).
Proof.
  intros Ht <- c Hc. destruct (token_text s w Ht) as (pre & E & _ & Eo & _ & _ & Hs). rewrite Eo in Hc. rewrite E in Hc.
  rewrite <- !app_assoc, lookup_app_r, Nat.add_comm, Nat.add_sub, lookup_app_r, Nat.sub_diag in Hc by lia.
  destruct (snd w); simpl in Hc; injection Hc as <-; tauto.
Qed.

Lemma nulterminate_strings s c w : ~ 0 ∈ s -> Forall (token s) (words c) -> w ∈ words c ->
  cstr (drop (offset (length s) (fst w)) (nulterminate s c)) = text w.
Proof.
  intros H0 Hall Hw. rewrite Forall_forall in Hall. destruct (token_text s w (Hall w Hw)) as (pre & E & E1 & E2 & _ & Hp & _).
  set (buf := nulterminate s c).
  assert (length (s ++ [0]) = length buf) as Hlen by (unfold buf, nulterminate; now rewrite ends_length).
  assert (length s = length pre + length (text w) + length (snd w))%nat as Hls by (rewrite E at 1; rewrite !length_app; lia).
  rewrite length_app in Hlen. simpl in Hlen. rewrite E1.
  assert (drop (length pre) buf = text w ++ 0 :: drop (S (length pre + length (text w))) buf) as ->.
  { apply list_eq. intros k. rewrite lookup_drop. destruct (decide (k < length (text w))%nat) as [Hk|Hk].
    - rewrite lookup_app_l by done. destruct (lookup_lt_is_Some_2 (text w) k Hk) as [x Hx]. rewrite Hx.
      assert ((s ++ [0]) !! (length pre + k)%nat = Some x) as Hs.
      { rewrite lookup_app_l by lia. rewrite E, lookup_app_r, Nat.add_comm, Nat.add_sub, lookup_app_l by lia. done. }
      unfold buf, nulterminate. rewrite ends_miss; [exact Hs|]. intros w' Hw' E'.
      apply (token_end s w' _ (Hall w' Hw') E' x Hs). rewrite Forall_lookup in Hp. split; [now apply (Hp k)|].
      intros ->. apply H0. rewrite E, !elem_of_app. right. left. now apply list_elem_of_lookup_2 in Hx.
    - rewrite lookup_app_r by lia. destruct (decide (k = length (text w))) as [->|Hne].
      + rewrite Nat.sub_diag. simpl. unfold buf, nulterminate. apply ends_hit; [rewrite length_app; simpl; lia|].
        right. apply list_elem_of_fmap. exists w. split; [exact (eq_sym E2)|done].
      + destruct (k - length (text w))%nat as [|m] eqn:Em; [lia|]. simpl. rewrite lookup_drop. f_equal. lia. }
  apply cstr_app_nul. intros Hin. apply H0. rewrite E, !elem_of_app. auto.
Qed.

(** ** Printing commands *)

(** The bytes of the words. *)
Fixpoint strings {V W : Type} (f : V -> W) (c : cmd V) : cmd W :=
  match c with
  | execcmd argv => execcmd (f <$> argv)
  | redircmd c x mode fd => redircmd (strings f c) (f x) mode fd
  | pipecmd l r => pipecmd (strings f l) (strings f r)
  | listcmd l r => listcmd (strings f l) (strings f r)
  | backcmd c => backcmd (strings f c)
  end.

(** The modes of the three redirections and how they are written. *)
Inductive redirect_kind : Type := From | To | Append.
Definition kind_mode (k : redirect_kind) : Z * Z :=
  match k with From => (O_RDONLY, 0) | To => (Z.lor (Z.lor O_WRONLY O_CREATE) O_TRUNC, 1) | Append => (Z.lor O_WRONLY O_CREATE, 1) end.
Definition kind_text (mode fd : Z) : list Z :=
  if fd =? 0 then [60; 32] else if mode =? 1537 then [62; 32] else [62; 62; 32].

(** What the grammar can express: words of plain bytes, at most nine
    arguments, the modes of the three redirections. *)
Definition word_ok (w : list Z) : Prop := w <> [] /\ Forall plain w.
Definition redir_ok (r : list Z * Z * Z) : Prop := word_ok (fst (fst r)) /\ exists k, kind_mode k = (snd (fst r), snd r).
Fixpoint expressible (c : cmd (list Z)) : Prop :=
  match c with
  | execcmd argv => Forall word_ok argv /\ (length argv < MAXARGS)%nat
  | redircmd c f mode fd => expressible c /\ redir_ok (f, mode, fd)
  | pipecmd l r | listcmd l r => expressible l /\ expressible r
  | backcmd c => expressible c
  end.

Definition show_word (w : list Z) : list Z := w ++ [32].
Definition show_redir (r : list Z * Z * Z) : list Z := kind_text (snd (fst r)) (snd r) ++ show_word (fst (fst r)).

(** The levels of the grammar: a part of a pipeline, a pipeline, a pipeline
    with ampersands, a line. *)
Definition group (b : bool) (s : list Z) : list Z := if b then [40; 32] ++ s ++ [41; 32] else s.
Fixpoint show (level : nat) (c : cmd (list Z)) : list Z :=
  match c with
  | execcmd argv => concat (show_word <$> argv)
  | redircmd c f mode fd => show 0 c ++ show_redir (f, mode, fd)
  | pipecmd l r => group (level <? 1)%nat (show 0 l ++ [124; 32] ++ show 1 r)
  | backcmd c => group (level <? 2)%nat (show 2 c ++ [38; 32])
  | listcmd l r => group (level <? 3)%nat (show 2 l ++ [59; 32] ++ show 3 r)
  end.

(** ** Parsing what has been printed *)

(** No space in front. *)
Definition solid (s : list Z) : Prop := match s with [] => True | c :: _ => is_space c = false end.
Lemma solid_skip s : solid s -> skip_space s = s.
Proof. destruct s as [|c s]; simpl; [done|]. now intros ->. Qed.
Lemma skip_solid s : solid (skip_space s).
Proof. apply skip_space_head. Qed.
Lemma skip_skip s : skip_space (skip_space s) = skip_space s.
Proof. apply solid_skip, skip_solid. Qed.
Lemma word_solid w s : word_ok w -> solid (show_word w ++ s).
Proof. intros [Hne Hp]. destruct w as [|c w]; [done|]. apply Forall_cons in Hp as [[H _] _]. exact H. Qed.

(** Spaces in front change nothing. *)
Lemma peek_skip s toks : peek (skip_space s) toks = peek s toks.
Proof. unfold peek. now rewrite skip_skip. Qed.
Lemma parseredirs_skip f s : parseredirs f (skip_space s) = parseredirs f s.
Proof. destruct f; cbn [parseredirs]; now rewrite peek_skip. Qed.
Lemma parseargs_skip f s argv rs : parseargs f (skip_space s) argv rs = parseargs f s argv rs.
Proof. destruct f; cbn [parseargs]; now rewrite peek_skip. Qed.
Lemma parseamps_skip f s c : parseamps f c (skip_space s) = parseamps f c s.
Proof. destruct f; cbn [parseamps]; now rewrite peek_skip. Qed.
Lemma parseexec_skip f s : parseexec f (skip_space s) = parseexec f s.
Proof. destruct f; cbn [parseexec]; [done|]. now rewrite peek_skip. Qed.
Lemma parsepipe_skip f s : parsepipe f (skip_space s) = parsepipe f s.
Proof. destruct f; cbn [parsepipe]; [done|]. now rewrite parseexec_skip. Qed.
Lemma parseline_skip f s : parseline f (skip_space s) = parseline f s.
Proof. destruct f; cbn [parseline]; [done|]. now rewrite parsepipe_skip. Qed.

(** What may follow, after spaces: one of the symbols [fs], or nothing. *)
Definition follow (fs : list Z) (s : list Z) : Prop := match skip_space s with [] => True | c :: _ => c ∈ fs end.
Lemma follow_mono fs fs' s : (forall c, c ∈ fs -> c ∈ fs') -> follow fs s -> follow fs' s.
Proof. unfold follow. destruct (skip_space s); auto. Qed.

Lemma peek_solid s toks : solid s -> peek s toks = (match s with [] => false | c :: _ => bool_decide (c ∈ toks) end, s).
Proof. intros H. unfold peek. now rewrite solid_skip. Qed.
Lemma peek_follow fs toks s : follow fs s -> (forall c, c ∈ fs -> ~ c ∈ toks) -> peek s toks = (false, skip_space s).
Proof.
  unfold follow, peek. intros Hf H. destruct (skip_space s) as [|c r]; [done|]. rewrite bool_decide_eq_false_2; auto.
Qed.
Lemma peek_single fs t s : follow fs s -> ~ t ∈ fs -> peek s [t] = (false, skip_space s).
Proof. intros Hf Ht. apply (peek_follow fs); [done|]. intros c Hc Hin. apply list_elem_of_singleton in Hin as ->. done. Qed.

Lemma gettoken_symbol c s : c ∈ [124; 40; 41; 59; 38; 60] -> exists w, gettoken (c :: 32 :: s) = (c, w, skip_space s).
Proof.
  intros Hc. unfold gettoken. assert (is_space c = false) as Hsp by (in_list Hc; now subst). eexists.
  assert (skip_space (c :: 32 :: s) = c :: 32 :: s) as -> by (simpl; now rewrite Hsp).
  rewrite bool_decide_eq_true_2 by done. reflexivity.
Qed.
Lemma plain_not_symbol c : plain c -> ~ c ∈ [124; 40; 41; 59; 38; 60] /\ c <> 62.
Proof. intros [_ H]. split; [intros Hin|intros ->; discriminate H]. in_list Hin; subst; discriminate H. Qed.
Lemma gettoken_word w s : word_ok w -> gettoken (show_word w ++ s) = (97, (show_word w ++ s, 32 :: s), skip_space s).
Proof.
  intros Hw. pose proof (word_solid w s Hw) as Hsol. destruct Hw as [Hne Hp]. unfold show_word in *. rewrite <- app_assoc in *. simpl app in *.
  assert (skip_word (w ++ 32 :: s) = 32 :: s) as Hw.
  { clear -Hp. induction Hp as [|c w [H1 H2] _ IH]; [done|]. simpl. rewrite H1, H2. exact IH. }
  unfold gettoken. rewrite (solid_skip (w ++ 32 :: s)) by done.
  destruct w as [|c w]; [done|]. apply Forall_cons in Hp as [Hc _]. destruct (plain_not_symbol c Hc) as [H1 H2].
  change ((c :: w) ++ 32 :: s) with (c :: w ++ 32 :: s) in *. cbv iota. rewrite bool_decide_eq_false_2 by done.
  rewrite (proj2 (Z.eqb_neq c 62)) by done. now rewrite Hw.
Qed.
Lemma text_word w s : text (show_word w ++ s, 32 :: s) = w.
Proof.
  unfold text, show_word. cbn [fst snd]. rewrite <- app_assoc. simpl app. rewrite length_app. simpl.
  rewrite Nat.add_sub. apply take_app_length.
Qed.
Lemma word_peek w s toks : word_ok w -> Forall (fun c => is_symbol c = true) toks -> peek (show_word w ++ s) toks = (false, show_word w ++ s).
Proof.
  intros Hw Ht. rewrite peek_solid by (now apply word_solid). destruct Hw as [Hne Hp].
  destruct w as [|c w]; [done|]. simpl. apply Forall_cons in Hp as [[_ Hc] _]. rewrite bool_decide_eq_false_2; [done|].
  intros Hin. rewrite Forall_forall in Ht. apply Ht in Hin. congruence.
Qed.

(** *** Redirections *)

Definition show_redirs (rs : list (list Z * Z * Z)) : list Z := concat (show_redir <$> rs).
Definition texts (r : redirection) : list Z * Z * Z := (text (fst (fst r)), snd (fst r), snd r).
Definition rewrap (rs : list (list Z * Z * Z)) (c : cmd (list Z)) : cmd (list Z) :=
  foldl (fun c r => redircmd c (fst (fst r)) (snd (fst r)) (snd r)) c rs.
Lemma strings_wrap rs c : strings text (wrap rs c) = rewrap (texts <$> rs) (strings text c).
Proof. unfold wrap, rewrap. revert c. induction rs as [|[[f m] fd] rs IH]; intros c; simpl; [done|]. now rewrite IH. Qed.

Definition kind_token (k : redirect_kind) : Z := match k with From => 60 | To => 62 | Append => 43 end.
Lemma gettoken_kind k mode fd s : kind_mode k = (mode, fd) -> exists w, gettoken (kind_text mode fd ++ s) = (kind_token k, w, skip_space s).
Proof. intros Hk. destruct k; injection Hk as <- <-; [apply gettoken_symbol; set_solver|eexists; reflexivity..]. Qed.

Definition after_exec : list Z := [124; 41; 38; 59].
Lemma follow_redirs rest : follow after_exec rest -> peek rest [60; 62] = (false, skip_space rest).
Proof. intros Hf. apply (peek_follow after_exec); [done|]. intros c Hc Hin. in_list Hin; subst; now in_list Hc. Qed.
Lemma show_redirs_length rs : (length rs <= length (show_redirs rs))%nat.
Proof.
  induction rs as [|r rs IH]; [done|]. change (show_redirs (r :: rs)) with (show_redir r ++ show_redirs rs).
  unfold show_redir, show_word. rewrite !length_app. cbn [length]. lia.
Qed.
Lemma redirs_solid r rs rest : redir_ok r -> solid (show_redirs (r :: rs) ++ rest).
Proof. intros [_ [k Hk]]. destruct r as [[f m] fd]. destruct k; injection Hk as <- <-; done. Qed.

Lemma parseredirs_shown rs rest : Forall redir_ok rs -> follow after_exec rest -> forall fuel, (length rs <= fuel)%nat ->
  exists rs', parseredirs fuel (show_redirs rs ++ rest) = Ok (rs', skip_space rest) /\ texts <$> rs' = rs.
Proof.
  intros Hrs Hf. induction Hrs as [|[[f mode] fd] rs Hr Hrs IH]; intros fuel Hl.
  - exists []. split; [|done]. change (show_redirs [] ++ rest) with rest. destruct fuel; cbn [parseredirs]; now rewrite follow_redirs.
  - destruct fuel as [|fuel]; [simpl in Hl; lia|]. destruct (IH fuel) as (rs' & E & Et); [simpl in Hl; lia|].
    assert (show_redirs ((f, mode, fd) :: rs) ++ rest = kind_text mode fd ++ show_word f ++ show_redirs rs ++ rest) as ->.
    { unfold show_redirs. simpl. unfold show_redir. simpl. now rewrite <- !app_assoc. }
    destruct Hr as [Hw [k Hk]]. simpl fst in *. simpl snd in *.
    cbn [parseredirs]. assert (peek (kind_text mode fd ++ show_word f ++ show_redirs rs ++ rest) [60; 62] =
      (true, kind_text mode fd ++ show_word f ++ show_redirs rs ++ rest)) as ->.
    { destruct k; injection Hk as <- <-; reflexivity. }
    destruct (gettoken_kind k mode fd (show_word f ++ show_redirs rs ++ rest) Hk) as [w ->].
    rewrite (solid_skip (show_word f ++ _)) by (now apply word_solid). rewrite gettoken_word by done. simpl negb. cbv iota.
    rewrite parseredirs_skip, E. simpl.
    eexists. split; [reflexivity|]. rewrite fmap_app, Et. destruct k; injection Hk as <- <-; simpl; unfold texts; simpl; now rewrite text_word.
Qed.
(** With the fuel the parser gives. *)
Lemma parseredirs_here rs rest : Forall redir_ok rs -> follow after_exec rest ->
  let s := skip_space (show_redirs rs ++ rest) in
  exists rs', parseredirs (length s) s = Ok (rs', skip_space rest) /\ texts <$> rs' = rs.
Proof.
  intros Hrs Hf s. unfold s. rewrite parseredirs_skip. apply parseredirs_shown; [done|done|].
  destruct Hrs as [|r rs Hr Hrs]; [simpl; lia|]. rewrite solid_skip by (now apply redirs_solid).
  rewrite length_app. pose proof (show_redirs_length (r :: rs)). lia.
Qed.

(** *** Simple commands *)

Lemma parseargs_end rest fuel argv rs : follow after_exec rest -> parseargs fuel rest argv rs = Ok (wrap rs (execcmd argv), skip_space rest).
Proof.
  intros Hf. destruct fuel; cbn [parseargs]; unfold peek; (destruct (skip_space rest) as [|c r] eqn:E; [reflexivity|]);
    unfold follow in Hf; rewrite E in Hf; now rewrite bool_decide_eq_true_2.
Qed.
Definition show_words (ws : list (list Z)) : list Z := concat (show_word <$> ws).
Lemma show_words_length ws : (length ws <= length (show_words ws))%nat.
Proof.
  induction ws as [|w ws IH]; [done|]. change (show_words (w :: ws)) with (show_word w ++ show_words ws).
  unfold show_word. rewrite !length_app. cbn [length]. lia.
Qed.
Lemma parseargs_shown ws rs rest : Forall word_ok ws -> ws <> [] -> Forall redir_ok rs -> follow after_exec rest ->
  forall fuel argv, (length ws <= fuel)%nat -> (length argv + length ws < MAXARGS)%nat ->
  exists ws' rs', parseargs fuel (show_words ws ++ show_redirs rs ++ rest) argv [] = Ok (wrap rs' (execcmd (argv ++ ws')), skip_space rest) /\
    text <$> ws' = ws /\ texts <$> rs' = rs.
Proof.
  intros Hws Hne Hrs Hf. induction Hws as [|w ws Hw Hws IH]; [done|]. intros fuel argv Hl Ha. destruct fuel as [|fuel]; [simpl in Hl; lia|].
  change (show_words (w :: ws)) with (show_word w ++ show_words ws). rewrite <- app_assoc.
  set (tail := show_words ws ++ show_redirs rs ++ rest) in *. cbn [parseargs].
  rewrite word_peek by first [done | repeat constructor]. rewrite gettoken_word by done. cbn [Z.eqb Pos.eqb negb].
  rewrite (proj2 (Nat.leb_gt MAXARGS _)) by (simpl in Ha; lia).
  destruct (decide (ws = [])) as [->|Hne'].
  - destruct (parseredirs_here rs rest Hrs Hf) as (rs' & E & Et). change tail with (show_redirs rs ++ rest). rewrite E. cbn [pbind].
    rewrite parseargs_skip, parseargs_end by done. eexists [_], rs'. split; [reflexivity|]. split; [|done]. simpl. f_equal. apply (text_word w).
  - destruct ws as [|w2 ws]; [done|]. apply Forall_cons in Hws as [Hw2 Hws'].
    assert (solid tail) as Hsol by (unfold tail, show_words; simpl; rewrite <- app_assoc; now apply word_solid).
    rewrite (solid_skip tail) by done. assert (parseredirs (length tail) tail = Ok ([], tail)) as ->.
    { assert (peek tail [60; 62] = (false, tail)) as Hpk.
      { unfold tail, show_words. simpl. rewrite <- app_assoc. apply word_peek; [done|]. repeat constructor. }
      destruct (length tail); cbn [parseredirs]; now rewrite Hpk. }
    cbn [pbind]. rewrite app_nil_l. destruct (IH ltac:(done) fuel (argv ++ [(show_word w ++ tail, 32 :: tail)])) as (ws' & rs' & E & E1 & E2).
    { simpl in *. lia. } { rewrite length_app. simpl in *. lia. }
    exists ((show_word w ++ tail, 32 :: tail) :: ws'), rs'. rewrite <- app_assoc in E. split; [exact E|]. split; [|done].
    simpl. f_equal; [apply (text_word w)|exact E1].
Qed.

(** *** The levels of the grammar *)

(** The command and the redirections behind it, as one part of a pipeline. *)
Definition reads_exec (c : cmd (list Z)) : Prop := forall rs rest f,
  Forall redir_ok rs -> follow after_exec rest -> (4 * length (show 0 c ++ show_redirs rs) + 2 <= f)%nat ->
  exists c', parseexec f (show 0 c ++ show_redirs rs ++ rest) = Ok (c', skip_space rest) /\ strings text c' = rewrap rs c.
Definition reads_pipe (c : cmd (list Z)) : Prop := forall rest f,
  follow [41; 38; 59] rest -> (4 * length (show 1 c) + 3 <= f)%nat ->
  exists c', parsepipe f (show 1 c ++ rest) = Ok (c', skip_space rest) /\ strings text c' = c.
(** A pipeline and [n] ampersands. *)
Fixpoint show_amps (n : nat) : list Z := match n with O => [] | S n => [38; 32] ++ show_amps n end.
Definition reads_amps (c : cmd (list Z)) : Prop := forall n rest f,
  follow [41; 59] rest -> (4 * length (show 2 c ++ show_amps n) + 3 <= f)%nat ->
  exists c1 p1 c', parsepipe f (show 2 c ++ show_amps n ++ rest) = Ok (c1, p1) /\
    parseamps (length p1) c1 p1 = Ok (c', skip_space rest) /\ strings text c' = Nat.iter n backcmd c.
Definition reads_line (c : cmd (list Z)) : Prop := forall rest f,
  follow [41] rest -> (4 * length (show 3 c) + 4 <= f)%nat ->
  exists c', parseline f (show 3 c ++ rest) = Ok (c', skip_space rest) /\ strings text c' = c.

Lemma exec_reads argv : expressible (execcmd argv) -> reads_exec (execcmd argv).
Proof.
  intros [Hws Ha] rs rest f Hrs Hf Hl. destruct f as [|f]; [lia|]. cbn [show] in *. fold (show_words argv) in *. cbn [parseexec].
  destruct argv as [|w argv].
  - change (show_words [] ++ show_redirs rs ++ rest) with (show_redirs rs ++ rest).
    assert (peek (show_redirs rs ++ rest) [40] = (false, skip_space (show_redirs rs ++ rest))) as ->.
    { destruct Hrs as [|[[x m] fd] rs [_ [k Hk]] _]; [apply (peek_single after_exec); [done|]; intros Hin; now in_list Hin|].
      destruct k; injection Hk as <- <-; reflexivity. }
    destruct (parseredirs_here rs rest Hrs Hf) as (rs' & E & Et). rewrite E. cbn [pbind].
    rewrite parseargs_skip, parseargs_end by done. eexists. split; [reflexivity|]. now rewrite strings_wrap, Et.
  - pose proof (Forall_inv Hws) as Hw. set (s := show_words (w :: argv) ++ show_redirs rs ++ rest).
    assert (forall toks, Forall (fun c => is_symbol c = true) toks -> peek s toks = (false, s)) as Hpk.
    { intros toks Ht. unfold s, show_words. simpl. rewrite <- app_assoc. now apply word_peek. }
    rewrite Hpk by (repeat constructor).
    assert (parseredirs (length s) s = Ok ([], s)) as ->.
    { destruct (length s); cbn [parseredirs]; now rewrite Hpk by (repeat constructor). }
    cbn [pbind]. destruct (parseargs_shown (w :: argv) rs rest Hws ltac:(done) Hrs Hf (length s) []) as (ws' & rs' & E & E1 & E2); [|done|].
    { unfold s. rewrite length_app. pose proof (show_words_length (w :: argv)). lia. }
    exists (wrap rs' (execcmd ws')). split; [exact E|]. rewrite strings_wrap, E2. simpl. now rewrite E1.
Qed.

Lemma redir_reads c x m fd : redir_ok (x, m, fd) -> reads_exec c -> reads_exec (redircmd c x m fd).
Proof.
  intros Hr Hc rs rest f Hrs Hf Hl. destruct (Hc ((x, m, fd) :: rs) rest f) as (c' & E & Es); [now constructor|done| |].
  - change (show_redirs ((x, m, fd) :: rs)) with (show_redir (x, m, fd) ++ show_redirs rs). cbn [show] in Hl. rewrite <- app_assoc in Hl. done.
  - exists c'. split; [|done]. change (show_redirs ((x, m, fd) :: rs)) with (show_redir (x, m, fd) ++ show_redirs rs) in E.
    cbn [show]. rewrite <- !app_assoc in *. exact E.
Qed.

(** A symbol and the space behind it. *)
Lemma take_symbol c s : c ∈ [124; 40; 41; 59; 38; 60] ->
  peek (c :: 32 :: s) [c] = (true, c :: 32 :: s) /\ exists w, gettoken (c :: 32 :: s) = (c, w, skip_space s).
Proof.
  intros Hc. split; [|now apply gettoken_symbol]. rewrite peek_solid by (in_list Hc; now subst).
  now rewrite bool_decide_eq_true_2 by (now left).
Qed.

Lemma line_exec c : show 0 c = group true (show 3 c) -> reads_line c -> reads_exec c.
Proof.
  intros Eg Hc rs rest f Hrs Hf Hl. rewrite Eg in *. unfold group in *.
  destruct f as [|[|f]]; [lia|lia|]. rewrite !length_app in Hl. cbn [length] in Hl.
  replace (([40; 32] ++ show 3 c ++ [41; 32]) ++ show_redirs rs ++ rest) with (40 :: 32 :: show 3 c ++ [41; 32] ++ show_redirs rs ++ rest)
    by (simpl; now rewrite <- app_assoc).
  destruct (take_symbol 40 (show 3 c ++ [41; 32] ++ show_redirs rs ++ rest) ltac:(set_solver)) as [Ep [w Eg1]].
  cbn [parseexec]. rewrite Ep. cbn [parseblock]. rewrite Ep. cbn [negb]. rewrite Eg1, parseline_skip.
  destruct (Hc ([41; 32] ++ show_redirs rs ++ rest) f) as (c' & -> & Es); [unfold follow; simpl; set_solver|lia|]. cbn [pbind].
  change (skip_space ([41; 32] ++ ?r)) with (41 :: 32 :: r).
  destruct (take_symbol 41 (show_redirs rs ++ rest) ltac:(set_solver)) as [-> [w2 Eg2]]. cbn [negb]. rewrite Eg2.
  destruct (parseredirs_here rs rest Hrs Hf) as (rs' & -> & Et).
  cbn [pbind]. eexists. split; [reflexivity|]. now rewrite strings_wrap, Et, Es.
Qed.
Lemma exec_pipe c : show 1 c = show 0 c -> reads_exec c -> reads_pipe c.
Proof.
  intros E Hc rest f Hf Hl. rewrite E in *. destruct f as [|f]; [lia|]. cbn [parsepipe].
  destruct (Hc [] rest f) as (c' & Ec & Es); [constructor| |rewrite app_nil_r; lia|].
  { eapply follow_mono; [|exact Hf]. set_solver. }
  change (show_redirs [] ++ rest) with rest in Ec. rewrite Ec. cbn [pbind].
  rewrite peek_skip, (peek_single [41; 38; 59]); [exists c'; done|done|]. intros Hin. now in_list Hin.
Qed.
Lemma parseamps_shown n : forall c rest fuel, follow [41; 59] rest -> (n <= fuel)%nat ->
  parseamps fuel c (show_amps n ++ rest) = Ok (Nat.iter n backcmd c, skip_space rest).
Proof.
  induction n as [|n IH]; intros c rest fuel Hf Hl.
  - change (show_amps 0 ++ rest) with rest. destruct fuel; cbn [parseamps]; (rewrite (peek_single [41; 59]); [done|done|]); intros Hin; now in_list Hin.
  - destruct fuel as [|fuel]; [lia|]. cbn [parseamps]. change (show_amps (S n) ++ rest) with (38 :: 32 :: show_amps n ++ rest).
    destruct (take_symbol 38 (show_amps n ++ rest) ltac:(set_solver)) as [-> [w Eg]]. rewrite Eg, parseamps_skip, IH by (done || lia).
    now rewrite Nat.iter_succ_r.
Qed.
Lemma strings_iter n c : strings text (Nat.iter n backcmd c) = Nat.iter n backcmd (strings text c).
Proof. induction n; simpl; congruence. Qed.
Lemma pipe_amps c : show 2 c = show 1 c -> reads_pipe c -> reads_amps c.
Proof.
  intros E Hc n rest f Hf Hl. rewrite E in *. rewrite length_app in Hl.
  destruct (Hc (show_amps n ++ rest) f) as (c' & Ec & Es); [|lia|].
  - destruct n; [eapply follow_mono; [|exact Hf]; set_solver|unfold follow; simpl; set_solver].
  - exists c', (skip_space (show_amps n ++ rest)), (Nat.iter n backcmd c'). split; [done|]. split; [|now rewrite strings_iter, Es].
    rewrite parseamps_skip. apply parseamps_shown; [done|]. destruct n as [|n]; [lia|].
    change (skip_space (show_amps (S n) ++ rest)) with (38 :: 32 :: show_amps n ++ rest). simpl. rewrite length_app. clear. induction n; simpl; lia.
Qed.
Lemma back_amps c : reads_amps c -> reads_amps (backcmd c).
Proof.
  intros Hc n rest f Hf Hl. cbn [show Nat.ltb Nat.leb group] in *. rewrite <- app_assoc in Hl |- *.
  destruct (Hc (S n) rest f Hf Hl) as (c1 & p1 & c' & E1 & E2 & Es). exists c1, p1, c'. split; [exact E1|]. split; [done|].
  now rewrite Es, Nat.iter_succ_r.
Qed.
Lemma amps_line c : show 3 c = show 2 c -> reads_amps c -> reads_line c.
Proof.
  intros E Hc rest f Hf Hl. rewrite E in *. destruct f as [|f]; [lia|]. cbn [parseline].
  destruct (Hc 0%nat rest f) as (c1 & p1 & c' & E1 & E2 & Es); [eapply follow_mono; [|exact Hf]; set_solver|rewrite app_nil_r; lia|].
  change (show_amps 0 ++ rest) with rest in E1. rewrite E1. cbn [pbind]. rewrite E2. cbn [pbind].
  rewrite peek_skip, (peek_single [41]); [exists c'; done|done|]. intros Hin. now in_list Hin.
Qed.
Lemma pipe_reads l r : reads_exec l -> reads_pipe r -> reads_pipe (pipecmd l r).
Proof.
  intros Hl Hp rest f Hf Hlen. cbn [show Nat.ltb Nat.leb group] in *. rewrite !length_app in Hlen. cbn [length] in Hlen.
  destruct f as [|f]; [lia|]. cbn [parsepipe].
  destruct (Hl [] ([124; 32] ++ show 1 r ++ rest) f) as (c1 & E1 & Es1); [constructor|unfold follow; simpl; set_solver|rewrite app_nil_r; lia|].
  rewrite <- !app_assoc. change (show_redirs [] ++ ?x) with x in E1. rewrite E1. cbn [pbind].
  change (skip_space ([124; 32] ++ ?x)) with (124 :: 32 :: x).
  destruct (take_symbol 124 (show 1 r ++ rest) ltac:(set_solver)) as [-> [w Eg]]. rewrite Eg, parsepipe_skip.
  destruct (Hp rest f Hf ltac:(lia)) as (c2 & -> & Es2). cbn [pbind]. eexists. split; [reflexivity|]. simpl. now rewrite Es1, Es2.
Qed.
Lemma list_reads l r : reads_amps l -> reads_line r -> reads_line (listcmd l r).
Proof.
  intros Hl Hp rest f Hf Hlen. cbn [show Nat.ltb Nat.leb group] in *. rewrite !length_app in Hlen. cbn [length] in Hlen.
  destruct f as [|f]; [lia|]. cbn [parseline].
  destruct (Hl 0%nat ([59; 32] ++ show 3 r ++ rest) f) as (c0 & p0 & c1 & E0 & E1 & Es1); [unfold follow; simpl; set_solver|rewrite app_nil_r; lia|].
  rewrite <- !app_assoc. change (show_amps 0 ++ ?x) with x in E0. rewrite E0. cbn [pbind]. rewrite E1. cbn [pbind].
  change (skip_space ([59; 32] ++ ?x)) with (59 :: 32 :: x).
  destruct (take_symbol 59 (show 3 r ++ rest) ltac:(set_solver)) as [-> [w Eg]]. rewrite Eg, parseline_skip.
  destruct (Hp rest f Hf ltac:(lia)) as (c2 & -> & Es2). cbn [pbind]. eexists. split; [reflexivity|]. simpl. now rewrite Es1, Es2.
Qed.

Lemma reads_all c : expressible c -> reads_exec c /\ reads_pipe c /\ reads_amps c /\ reads_line c.
Proof.
  induction c as [argv|c IH x m fd|l IHl r IHr|l IHl r IHr|c IH]; intros Hc.
  - assert (reads_exec (execcmd argv)) as H1 by (now apply exec_reads).
    assert (reads_pipe (execcmd argv)) as H2 by (now apply exec_pipe).
    assert (reads_amps (execcmd argv)) as H3 by (now apply pipe_amps). split_and!; try done. now apply amps_line.
  - destruct Hc as [Hc Hr]. assert (reads_exec (redircmd c x m fd)) as H1 by (apply redir_reads; [done|now apply IH]).
    assert (reads_pipe (redircmd c x m fd)) as H2 by (now apply exec_pipe).
    assert (reads_amps (redircmd c x m fd)) as H3 by (now apply pipe_amps). split_and!; try done. now apply amps_line.
  - destruct Hc as [Hl Hr]. assert (reads_pipe (pipecmd l r)) as H2 by (apply pipe_reads; [now apply IHl|now apply IHr]).
    assert (reads_amps (pipecmd l r)) as H3 by (now apply pipe_amps).
    assert (reads_line (pipecmd l r)) as H4 by (now apply amps_line). split_and!; try done. now apply line_exec.
  - destruct Hc as [Hl Hr]. assert (reads_line (listcmd l r)) as H4 by (apply list_reads; [now apply IHl|now apply IHr]).
    assert (reads_exec (listcmd l r)) as H1 by (now apply line_exec).
    assert (reads_pipe (listcmd l r)) as H2 by (now apply exec_pipe). split_and!; try done. now apply pipe_amps.
  - assert (reads_amps (backcmd c)) as H3 by (now apply back_amps, IH).
    assert (reads_line (backcmd c)) as H4 by (now apply amps_line).
    assert (reads_exec (backcmd c)) as H1 by (now apply line_exec). split_and!; try done. now apply exec_pipe.
Qed.

(** With spaces, or the newline the user typed, at the end. *)
Lemma parse_printed c sp : expressible c -> Forall (fun x => is_space x = true) sp ->
  exists c', parsecmd (show 3 c ++ sp) = Ok c' /\ strings text c' = c.
Proof.
  intros Hc Hsp. assert (skip_space sp = []) as E0 by (induction Hsp as [|x l Hx _ IH]; simpl; [done|now rewrite Hx]).
  destruct (reads_all c Hc) as (_ & _ & _ & H).
  destruct (H sp (line_fuel (show 3 c ++ sp))) as (c' & E & Es); [unfold follow; now rewrite E0|unfold line_fuel; rewrite length_app; lia|].
  exists c'. split; [|done]. unfold parsecmd. rewrite E, E0. done.
Qed.

(** Reading the words of a command as the shell does after [nulterminate]:
    the C strings at their addresses in the line. *)
Definition in_place (line : list Z) (c : cmd word) : cmd (list Z) :=
  strings (fun w => cstr (drop (offset (length line) (fst w)) (nulterminate line c))) c.
Lemma strings_ext {V W : Type} (f g : V -> W) c : (forall w, w ∈ words c -> f w = g w) -> strings f c = strings g c.
Proof.
  induction c as [argv|c IH x m fd|l IHl r IHr|l IHl r IHr|c IH]; simpl; intros H.
  - f_equal. apply list_fmap_ext. intros i w Hw. apply H. now apply list_elem_of_lookup_2 in Hw.
  - f_equal; [apply IH; intros w Hw|]; apply H, elem_of_app; [now left|right; left].
  - f_equal; [apply IHl|apply IHr]; intros w Hw; apply H, elem_of_app; auto.
  - f_equal; [apply IHl|apply IHr]; intros w Hw; apply H, elem_of_app; auto.
  - f_equal. now apply IH.
Qed.
Lemma in_place_text s c : ~ 0 ∈ s -> Forall (token s) (words c) -> in_place s c = strings text c.
Proof. intros H0 Hc. apply strings_ext. intros w Hw. now apply nulterminate_strings. Qed.

(** ** Properties *)

(** C14: every command the grammar can express is read back from its text.  A
    command printed with only the parentheses its structure needs (pipes bind
    tighter than ampersands, ampersands tighter than semicolons; pipes and
    semicolons associate to the right) is parsed as the same command: same
    arguments, files, modes and descriptors.  And when the line is a C string
    and [nulterminate] has written its NULs into it, the strings found in the
    line at the addresses of the words are again those of the command. *)
Theorem parse_show c : expressible c -> exists c', parsecmd (show 3 c) = Ok c' /\ strings text c' = c /\
  (~ 0 ∈ show 3 c -> in_place (show 3 c) c' = c).
Proof.
  intros Hc. destruct (parse_printed c [] Hc ltac:(constructor)) as (c' & E & Es). rewrite app_nil_r in E. exists c'. split; [done|]. split; [done|].
  intros H0. pose proof (parsecmd_kept (show 3 c)) as Hk. rewrite E in Hk. destruct Hk as [Hk _]. now rewrite in_place_text.
Qed.
Definition sample : cmd (list Z) :=
  listcmd (backcmd (pipecmd (execcmd [str "ls"; str "-l"])
    (listcmd (redircmd (execcmd [str "wc"]) (str "out") 1537 1) (redircmd (execcmd [str "b"]) (str "c") 0 0))))
    (redircmd (execcmd [str "echo"; str "hi"]) (str "x") 513 1).
Definition sample_text : list Z := str "ls -l | ( wc > out ; b < c ) & ; echo hi >> x ".
Lemma parse_show_witness :
  exists c', parsecmd sample_text = Ok c' /\ strings text c' = sample /\ in_place sample_text c' = sample.
Proof.
  assert (sample_text = show 3 sample) as -> by (vm_compute; reflexivity).
  destruct (parse_show sample) as (c' & E & Es & Hn).
  - simpl. unfold redir_ok, word_ok, plain, MAXARGS. simpl.
    split_and!; try discriminate; try (repeat constructor; done); try lia; [exists To|exists From|exists Append]; reflexivity.
  - exists c'. split; [exact E|]. split; [exact Es|]. apply Hn. apply (bool_decide_unpack _). vm_compute. exact I.
Defined.

(** C33: the parser always ends, and its words become strings.  For every
    command line [parsecmd] builds a command or reports a syntax error, never
    exceeding four calls per byte.  In a command it builds, every program has
    fewer than [MAXARGS] words, in the order of the line; the words of the
    whole command lie in the line one after the other, without overlap; and
    when [nulterminate] has written its NULs into the line, the string at the
    address of each word is exactly the bytes of the word, a non-empty run of
    bytes without separators. *)
Theorem parsecmd_terminates s : ~ 0 ∈ s ->
  match parsecmd s with
  | Ok c =>
      (forall argv, argv ∈ execs c -> (length argv < MAXARGS)%nat /\ StronglySorted before argv) /\
      (exists l, l ≡ₚ words c /\ StronglySorted before l) /\
      forall w, w ∈ words c ->
        cstr (drop (offset (length s) (fst w)) (nulterminate s c)) = text w /\ text w <> [] /\ Forall plain (text w)
  | Syntax _ => True
  | NoFuel => False
  end.
Proof.
  intros H0. pose proof (parsecmd_kept s) as H. destruct (parsecmd s) as [c| |]; try done. destruct H as (H & Hl & Hok).
  unfold cmd_ok in Hok. rewrite Forall_forall in H. rewrite Forall_forall in Hok. split; [exact Hok|]. split; [exact Hl|]. intros w Hw. split; [apply nulterminate_strings; try done; now apply Forall_forall|].
  destruct (token_text s w (H w Hw)) as (_ & _ & _ & _ & H1 & H2 & _). done.
Qed.
Lemma parsecmd_terminates_witness :
  exists c, parsecmd (str "cat<in|wc") = Ok c /\ length (words c) = 3%nat /\
    (forall argv, argv ∈ execs c -> (length argv < MAXARGS)%nat) /\
    forall w, w ∈ words c -> cstr (drop (offset 9 (fst w)) (nulterminate (str "cat<in|wc") c)) = text w.
Proof.
  assert (~ 0 ∈ str "cat<in|wc") as H0 by (apply (bool_decide_unpack _); vm_compute; exact I).
  pose proof (parsecmd_terminates (str "cat<in|wc") H0) as H.
  destruct (parsecmd (str "cat<in|wc")) as [c| |] eqn:E; [|discriminate E|done]. exists c. split; [done|].
  split; [injection E as <-; reflexivity|]. destruct H as (H1 & _ & H2). split; [intros argv Ha; exact (proj1 (H1 argv Ha))|]. intros w Hw. exact (proj1 (H2 w Hw)).
Defined.
