(* ===== verification/Shrun.v ===== *)
(** * The shell (user/sh.c): running commands

    [runcmd] never returns: a process is a tree of system calls, [prog],
    that branches on their results and ends in [Exit].  [run] executes such
    a tree in which every call succeeds, with the descriptor tables of all
    the processes it forks, and collects the programs that are started, each
    with its open descriptors.  [dataflow] says which programs a command
    should start and where their input and output should go. *)

From S2P Require Import Prelude.
From S2P Require Import Kstring.
From S2P Require Import Printk.
From S2P Require Import Sysfile.
From S2P Require Import Sh.

(** ** Processes *)

Inductive prog : Type :=
| Exit (status : Z)
| Exec (path : list Z) (argv : list (list Z)) (failed : prog)
| Open (file : list Z) (mode : Z) (k : Z -> prog)
| Close (fd : Z) (k : prog)
| Dup (fd : Z) (k : prog)
| Pipe (k : option (Z * Z) -> prog)
| Fork (k : Z -> prog)
| Wait (k : prog)
| Chdir (path : list Z) (k : Z -> prog)
| Write (fd : Z) (bytes : list Z) (k : prog).

(** [panic] and [fork1]; [fprintf] writes its text to the descriptor. *)
Definition panic (msg : list Z) : prog := Write 2 (msg ++ [10]) (Exit 1).
Definition fork1 (k : Z -> prog) : prog := Fork (fun pid => if pid =? -1 then panic (str "fork") else k pid).

Fixpoint runcmd (c : cmd (list Z)) : prog :=
  match c with
  | execcmd argv =>
    match argv with
    | [] => Exit 1
    | path :: _ => Exec path argv (Write 2 (str "exec " ++ path ++ str " failed" ++ [10]) (Exit 0))
    end
  | redircmd c file mode fd =>
    Close fd (Open file mode (fun r =>
      if r <? 0 then Write 2 (str "open " ++ file ++ str " failed" ++ [10]) (Exit 1) else runcmd c))
  | listcmd lcmd rcmd =>
    fork1 (fun pid => if pid =? 0 then runcmd lcmd else Wait (runcmd rcmd))
  | pipecmd lcmd rcmd =>
    Pipe (fun r =>
      match r with
      | None => panic (str "pipe")
      | Some (p0, p1) =>
        fork1 (fun pid =>
          if pid =? 0 then Close 1 (Dup p1 (Close p0 (Close p1 (runcmd lcmd))))
          else fork1 (fun pid =>
            if pid =? 0 then Close 0 (Dup p0 (Close p0 (Close p1 (runcmd rcmd))))
            else Close p0 (Close p1 (Wait (Wait (Exit 0))))))
      end)
  | backcmd c => fork1 (fun pid => if pid =? 0 then runcmd c else Exit 0)
  end.

(** ** The command loop *)

(** [gets] of ulib.c on the bytes still to come: at most [max - 1] of them,
    up to a newline or carriage return. *)
Fixpoint gets (max : nat) (input : list Z) : list Z * list Z :=
  match max with
  | O | S O => ([], input)
  | S m =>
    match input with
    | [] => ([], [])
    | c :: input' =>
      if (c =? 10) || (c =? 13) then ([c], input')
      else let '(l, r) := gets m input' in (c :: l, r)
    end
  end.

(** Blanks at the start of a line. *)
Fixpoint skip_blanks (s : list Z) : list Z :=
  match s with [] => [] | c :: s' => if (c =? 32) || (c =? 9) then skip_blanks s' else s end.

(** The child's side of a command line: parse and run. *)
Definition parse_and_run (line : list Z) : prog :=
  match parsecmd line with
  | Ok c => runcmd (strings text c)
  | Syntax msg => panic msg
  | NoFuel => Exit 1
  end.

(** The buffer is cleared first, so its string ends at the first NUL of what
    was read; [k] is what follows, with the line unless there is none. *)
Definition getcmd (nbuf : nat) (input : list Z) (k : list Z -> list Z -> prog) : prog :=
  Write 2 (str "$ ")
    (let '(buf, input') := gets nbuf input in
     match cstr buf with
     | [] => Exit 0
     | buf => k buf input'
     end).

Fixpoint command_loop (fuel : nat) (input : list Z) : prog :=
  match fuel with
  | O => Exit 0
  | S f =>
    getcmd 100 input (fun buf input' =>
      let line := skip_blanks buf in
      if bool_decide (take 1 line = [10]) then command_loop f input'
      else if bool_decide (take 3 line = str "cd ") then
        let dir := take (length line - 4) (drop 3 line) in
        Chdir dir (fun r =>
          if r <? 0 then Write 2 (str "cannot cd " ++ dir ++ [10]) (command_loop f input') else command_loop f input')
      else fork1 (fun pid => if pid =? 0 then parse_and_run line else Wait (command_loop f input')))
  end.

(** Make sure that descriptors 0, 1 and 2 are open.  [open] returns the lowest
    free descriptor, so the fourth is at least 3. *)
Fixpoint open_console (fuel : nat) (k : prog) : prog :=
  match fuel with
  | O => k
  | S f => Open (str "console") O_RDWR (fun fd => if fd <? 0 then k else if 3 <=? fd then Close fd k else open_console f k)
  end.
Definition main (input : list Z) : prog := open_console 4 (command_loop (S (length input)) input).

(** ** Running processes *)

(** What a descriptor refers to. *)
Inductive endpoint : Type :=
| Console
| File (name : list Z) (mode : Z)
| ReadEnd (pipe : list nat)
| WriteEnd (pipe : list nat).
Definition fdtable : Type := list (option endpoint).

(** The lowest free descriptor. *)
Fixpoint lowest (fds : fdtable) : nat :=
  match fds with Some _ :: fds' => S (lowest fds') | _ => 0%nat end.
Definition close (fd : Z) (fds : fdtable) : fdtable := <[Z.to_nat fd := None]> fds.

(** A program that was started, and its descriptors. *)
Definition launch : Type := list (list Z) * fdtable.

(** Every call succeeds; [here] names the place in the run, so that pipes
    have names of their own. *)
Fixpoint run (here : list nat) (fds : fdtable) (p : prog) : list launch :=
  match p with
  | Exit _ => []
  | Exec _ argv _ => [(argv, fds)]
  | Open file mode k => let fd := lowest fds in run here (<[fd := Some (File file mode)]> fds) (k (Z.of_nat fd))
  | Close fd k => run here (close fd fds) k
  | Dup fd k => run here (<[lowest fds := mjoin (fds !! Z.to_nat fd)]> fds) k
  | Pipe k =>
    let r := lowest fds in
    let fds := <[r := Some (ReadEnd here)]> fds in
    let w := lowest fds in
    run (2%nat :: here) (<[w := Some (WriteEnd here)]> fds) (k (Some (Z.of_nat r, Z.of_nat w)))
  | Fork k => run (0%nat :: here) fds (k 0) ++ run (1%nat :: here) fds (k 1)
  | Wait k => run here fds k
  | Chdir _ k => run here fds (k 0)
  | Write _ _ k => run here fds k
  end.

(** The meaning of a command: the programs it starts, with what their input
    [i] and output [o] are. *)
Fixpoint dataflow (here : list nat) (i o : endpoint) (c : cmd (list Z)) : list (list (list Z) * endpoint * endpoint) :=
  match c with
  | execcmd argv => match argv with [] => [] | _ => [(argv, i, o)] end
  | redircmd c file mode fd => if fd =? 0 then dataflow here (File file mode) o c else dataflow here i (File file mode) c
  | pipecmd l r =>
    dataflow (0%nat :: 2%nat :: here) i (WriteEnd here) l ++ dataflow (0%nat :: 1%nat :: 2%nat :: here) (ReadEnd here) o r
  | listcmd l r => dataflow (0%nat :: here) i o l ++ dataflow (1%nat :: here) i o r
  | backcmd c => dataflow (0%nat :: here) i o c
  end.

(** Input, output and error are open and nothing else is. *)
Definition standard (i o e : endpoint) : fdtable := [Some i; Some o; Some e] ++ replicate 13 None.
Definition launches (e : endpoint) (l : list (list (list Z) * endpoint * endpoint)) : list launch :=
  (fun x => (fst (fst x), standard (snd (fst x)) (snd x) e)) <$> l.

Lemma runcmd_spec e c : expressible c -> forall here i o,
  run here (standard i o e) (runcmd c) = launches e (dataflow here i o c).
Proof.
  unfold launches. induction c as [argv|c IH x m fd|l IHl r IHr|l IHl r IHr|c IH]; intros Hc here i o; simpl in Hc.
  - destruct argv; reflexivity.
  - destruct Hc as [Hc [_ [k Hk]]]. cbn [runcmd run dataflow]. destruct k; injection Hk as <- <-; apply IH; done.
  - destruct Hc as [Hl Hr]. cbn [dataflow]. rewrite fmap_app. rewrite <- (IHl Hl), <- (IHr Hr).
    exact (f_equal (app _) (app_nil_r _)).
  - destruct Hc as [Hl Hr]. cbn [dataflow]. rewrite fmap_app. now rewrite <- (IHl Hl), <- (IHr Hr).
  - cbn [dataflow]. rewrite <- (IH Hc). exact (app_nil_r _).
Qed.

(** ** From text to running programs *)

Lemma gets_line max l r : Forall (fun x => x <> 10 /\ x <> 13) l -> (length l + 1 < max)%nat -> gets max (l ++ 10 :: r) = (l ++ [10], r).
Proof.
  intros Hl. revert max. induction Hl as [|x l [H1 H2] _ IH]; intros max Hm; (destruct max as [|[|max]]; [simpl in Hm; lia..|]).
  - reflexivity.
  - change (gets (S (S max)) ((x :: l) ++ 10 :: r)) with
      (if (x =? 10) || (x =? 13) then ([x], l ++ 10 :: r) else let '(a, b) := gets (S max) (l ++ 10 :: r) in (x :: a, b)).
    rewrite (proj2 (Z.eqb_neq x 10)), (proj2 (Z.eqb_neq x 13)) by done. cbn [orb].
    rewrite IH by (simpl in Hm; lia). done.
Qed.

Lemma show_solid c : forall level s, expressible c -> solid s -> solid (show level c ++ s).
Proof.
  assert (forall b s r, solid (s ++ r) -> solid (group b s ++ r)) as Hg by (intros [] s r H; done).
  induction c as [argv|c IH x m fd|l IHl r IHr|l IHl r IHr|c IH]; intros level s Hc Hs; simpl in *.
  - destruct Hc as [Hc _]. destruct argv as [|w argv]; [done|]. apply Forall_cons in Hc as [Hw _]. simpl. rewrite <- app_assoc. now apply word_solid.
  - rewrite <- app_assoc. destruct Hc as [Hc Hr]. apply IH; [done|]. destruct Hr as [_ [k Hk]]. destruct k; injection Hk as <- <-; done.
  - apply Hg. rewrite <- app_assoc. apply IHl; [tauto|done].
  - apply Hg. rewrite <- app_assoc. apply IHl; [tauto|done].
  - apply Hg. rewrite <- app_assoc. apply IH; [tauto|done].
Qed.
Lemma show_bytes c : forall level, expressible c -> Forall (fun x => x = 32 \/ is_space x = false) (show level c).
Proof.
  assert (forall b s, Forall (fun x => x = 32 \/ is_space x = false) s -> Forall (fun x => x = 32 \/ is_space x = false) (group b s)) as Hg.
  { intros [] s H; [|done]. apply Forall_app. split; [repeat (constructor; [auto|]); constructor|]. apply Forall_app. split; [done|].
    repeat (constructor; [auto|]); constructor. }
  assert (forall w, word_ok w -> Forall (fun x => x = 32 \/ is_space x = false) (show_word w)) as Hw.
  { intros w [_ Hw]. apply Forall_app. split; [eapply Forall_impl; [exact Hw|]; intros x [H _]; auto|repeat constructor]. }
  induction c as [argv|c IH x m fd|l IHl r IHr|l IHl r IHr|c IH]; intros level Hc; simpl in *.
  - destruct Hc as [Hc _]. induction Hc as [|w argv Hwo _ IH]; [constructor|]. simpl. apply Forall_app. auto.
  - destruct Hc as [Hc [Hx [k Hk]]]. simpl in *. apply Forall_app. split; [auto|]. apply Forall_app. split; [|auto].
    destruct k; injection Hk as <- <-; repeat (constructor; [auto|]); constructor.
  - apply Hg, Forall_app. split; [apply IHl; tauto|]. apply (Forall_app _ [124; 32]). split; [repeat (constructor; [auto|]); constructor|apply IHr; tauto].
  - apply Hg, Forall_app. split; [apply IHl; tauto|]. apply (Forall_app _ [59; 32]). split; [repeat (constructor; [auto|]); constructor|apply IHr; tauto].
  - apply Hg, Forall_app. split; [apply IH; tauto|]. repeat (constructor; [auto|]); constructor.
Qed.

(** A command as the user types it on a line. *)
Record typed (c : cmd (list Z)) : Prop := {
  ty_ok : expressible c;
  ty_nul : ~ 0 ∈ show 3 c;
  ty_some : show 3 c <> [];
  ty_fits : (length (show 3 c) < 99)%nat;
  ty_cd : take 3 (show 3 c) <> str "cd ";
}.
Definition typed_line (c : cmd (list Z)) : list Z := show 3 c ++ [10].
(** The programs the lines start, one line after the other. *)
Fixpoint session (here : list nat) (cs : list (cmd (list Z))) : list (list (list Z) * endpoint * endpoint) :=
  match cs with
  | [] => []
  | c :: cs' => dataflow (0%nat :: here) Console Console c ++ session (1%nat :: here) cs'
  end.


Lemma not_cd l : take 3 l <> str "cd " -> take 3 (l ++ [10]) <> str "cd ".
Proof.
  intros H E. destruct (decide (3 <= length l)%nat) as [Hl|Hl]; [rewrite take_app_le in E by done; done|].
  assert (10 ∈ take 3 (l ++ [10])) as Hin.
  { apply (list_elem_of_lookup_2 _ (length l)). rewrite lookup_take_lt by lia. now rewrite lookup_app_r, Nat.sub_diag. }
  rewrite E in Hin. in_list Hin; discriminate Hin.
Qed.
Lemma skip_blanks_solid s : solid s -> skip_blanks s = s.
Proof.
  destruct s as [|c s]; simpl; [done|]. intros H. destruct (Z.eqb_spec c 32) as [->|]; [discriminate H|].
  destruct (Z.eqb_spec c 9) as [->|]; [discriminate H|done].
Qed.

Lemma typed_run here c : typed c ->
  run here (standard Console Console Console) (parse_and_run (typed_line c)) = launches Console (dataflow here Console Console c).
Proof.
  intros Hc. unfold parse_and_run. destruct (parse_printed c [10] (ty_ok _ Hc)) as (c' & E & Es); [repeat constructor|].
  unfold typed_line. rewrite E, Es. apply runcmd_spec, Hc.
Qed.

Lemma command_line here c f r : typed c ->
  run here (standard Console Console Console) (command_loop (S f) (typed_line c ++ r)) =
  launches Console (dataflow (0%nat :: here) Console Console c) ++ run (1%nat :: here) (standard Console Console Console) (command_loop f r).
Proof.
  intros Hc. pose proof (show_bytes c 3 (ty_ok _ Hc)) as Hb. pose proof (show_solid c 3 [] (ty_ok _ Hc) I) as Hs. rewrite app_nil_r in Hs.
  assert (gets 100 (typed_line c ++ r) = (typed_line c, r)) as Eg.
  { unfold typed_line. rewrite <- app_assoc. apply gets_line; [|pose proof (ty_fits _ Hc); lia].
    eapply Forall_impl; [exact Hb|]. intros x [->|Hx]; [done|]. split; intros ->; discriminate Hx. }
  assert (cstr (typed_line c) = typed_line c) as Ec.
  { apply cstr_id. unfold typed_line. rewrite elem_of_app. intros [H|H]; [now apply (ty_nul _ Hc)|now in_list H]. }
  assert (solid (typed_line c)) as Hsol.
  { unfold typed_line. pose proof (ty_some _ Hc). now destruct (show 3 c). }
  assert (take 1 (typed_line c) <> [10]) as H10.
  { unfold typed_line in *. pose proof (ty_some _ Hc). destruct (show 3 c) as [|x l]; [done|]. simpl in *. intros [= ->]. discriminate Hsol. }
  pose proof (not_cd _ (ty_cd _ Hc)) as Hcd. cbn [command_loop]. unfold getcmd. cbn [run]. rewrite Eg. cbv zeta. rewrite Ec.
  pose proof (typed_run (0%nat :: here) c Hc) as Hr. pose proof (skip_blanks_solid _ Hsol) as Hsk. fold (typed_line c) in Hcd.
  destruct (typed_line c) as [|x l] eqn:El; [unfold typed_line in El; now destruct (show 3 c)|].
  rewrite Hsk, (bool_decide_eq_false_2 _ H10), (bool_decide_eq_false_2 _ Hcd), <- Hr. reflexivity.
Qed.

(** C18: from text to running programs.  Each line the user types is parsed
    and run in a child of the shell: the programs named on the line are
    started with exactly the input and output the command gives them (a file
    for a redirection, the two ends of one pipe for its two sides), standard
    error is kept, and no program inherits any other descriptor, so a reader
    of a pipe sees its end when the writers exit. *)
Theorem shell_runs here cs : Forall typed cs ->
  run here (standard Console Console Console) (main (concat (typed_line <$> cs))) = launches Console (session here cs).
Proof.
  intros Hcs. unfold main. set (input := concat (typed_line <$> cs)).
  assert (length cs <= length input)%nat as Hlen.
  { unfold input. clear Hcs. induction cs as [|c cs IH]; [done|]. change (concat (typed_line <$> c :: cs)) with (typed_line c ++ concat (typed_line <$> cs)).
    unfold typed_line at 1. rewrite !length_app. cbn [length]. simpl in IH. lia. }
  change (run here (standard Console Console Console) (open_console 4 (command_loop (S (length input)) input)))
    with (run here (standard Console Console Console) (command_loop (S (length input)) input)).
  assert (length cs < S (length input))%nat as Hf by lia. revert Hf. generalize (S (length input)) as f. unfold input. clear Hlen input.
  intros f. revert here f. induction Hcs as [|c cs Hc _ IH]; intros here f Hf; (destruct f as [|f]; [lia|]); [reflexivity|].
  change (concat (typed_line <$> c :: cs)) with (typed_line c ++ concat (typed_line <$> cs)).
  rewrite command_line by done. rewrite IH by (simpl in Hf; lia). cbn [session]. unfold launches. now rewrite fmap_app.
Qed.

Definition sample_line : cmd (list Z) := pipecmd (redircmd (execcmd [str "cat"]) (str "in") 0 0) (execcmd [str "wc"; str "-l"]).
Lemma shell_runs_witness :
  run [] (standard Console Console Console) (main (str "cat < in | wc -l " ++ [10])) =
  [([str "cat"], standard (File (str "in") 0) (WriteEnd [0%nat]) Console);
   ([str "wc"; str "-l"], standard (ReadEnd [0%nat]) Console Console)].
Proof.
  refine (eq_trans (shell_runs [] [sample_line] _) _); [|reflexivity]. constructor; [|constructor]. constructor.
  - simpl. unfold redir_ok, word_ok, plain, MAXARGS. simpl.
    split_and!; try discriminate; try (repeat constructor; done); try lia. exists From. reflexivity.
  - apply (bool_decide_unpack _). vm_compute. exact I.
  - discriminate.
  - vm_compute. lia.
  - discriminate.
Defined.
