(* ===== verification/Trap.v ===== *)
(** * Traps and the system call dispatcher (kernel/trap.c, [syscall] of
      kernel/syscall.c, kernel/plic.c)

    The interrupt controller is reached through its registers, whose values
    are up to the hardware: they are parameters of the model. *)

From S2P Require Import Prelude.
From S2P Require Import Mach.
From S2P Require Import Spinlock.
From S2P Require Import Kstring.
From S2P Require Import Kalloc.
From S2P Require Import Vm.
From S2P Require Import Proc.
From S2P Require Import Kstate.
From S2P Require Import Sleeplock.
From S2P Require Import Bio.
From S2P Require Import Log.
From S2P Require Import Fs.
From S2P Require Import Printk.
From S2P Require Import Console.
From S2P Require Import Pipe.
From S2P Require Import File.
From S2P Require Import Exec.
From S2P Require Import Life.
From S2P Require Import Syscall.
From S2P Require Import Sysfile.

(** Device registers: the hardware's answers to loads and stores.
    [sys_sysinfo] is in the table of system calls and defined nowhere in
    the sources. *)
Class Hardware : Type := {
  mmio_read32 : Z -> M kern Z;
  mmio_write32 : Z -> Z -> M kern unit;
  sys_sysinfo : M kern Z;
}.

Definition PLIC_SENABLE (hart : Z) : Z := PLIC + 8320 + hart * 256.
Definition PLIC_SPRIORITY (hart : Z) : Z := PLIC + 2101248 + hart * 8192.
Definition PLIC_SCLAIM (hart : Z) : Z := PLIC + 2101252 + hart * 8192.

Section Trap.
Context {L : Layout} {P : Patience} {D : DiskDriver} {KT : KernelTables} {HW : Hardware}.

(** ** plic.c *)

Definition plicinit : M kern unit :=
  do! mmio_write32 (PLIC + UART0_IRQ * 4) 1;
  mmio_write32 (PLIC + VIRTIO0_IRQ * 4) 1.
Definition plicinithart : M kern unit :=
  let! hart := mk (lk cpuid) in
  do! mmio_write32 (PLIC_SENABLE hart) (Z.lor (Z.shiftl 1 UART0_IRQ) (Z.shiftl 1 VIRTIO0_IRQ));
  mmio_write32 (PLIC_SPRIORITY hart) 0.
Definition plic_claim : M kern Z :=
  let! hart := mk (lk cpuid) in
  let! irq := mmio_read32 (PLIC_SCLAIM hart) in
  ret (i32 irq).
Definition plic_complete (irq : Z) : M kern unit :=
  let! hart := mk (lk cpuid) in
  mmio_write32 (PLIC_SCLAIM hart) (u32 irq).

(** ** Interrupts *)

Definition trapinit : M kern unit := mk (lk (initlock Lticks)).
Definition trapinithart : M kern unit := mk (lk (w_stvec kernelvec)).

Definition clockintr : M kern unit :=
  let! id := mk (lk cpuid) in
  do! (if id =? 0 then
         do! mk (lk (acquire Lticks));
         do! mk (modify (fun s => set_ticks (u32 (ticks s + 1)) s));
         do! mk (wakeup ChTicks);
         mk (lk (release Lticks))
       else ret tt);
  let! t := mk (lk r_time) in
  mk (lk (w_stimecmp (u64 (t + 1000000)))).

Definition EXTERNAL : Z := 9223372036854775817.
Definition TIMER : Z := 9223372036854775813.
Definition devintr : M kern Z :=
  let! cause := mk (lk r_scause) in
  if cause =? EXTERNAL then
    let! irq := plic_claim in
    do! (if irq =? UART0_IRQ then uartintr
         else if irq =? VIRTIO0_IRQ then virtio_disk_intr
         else if negb (irq =? 0) then
           do! printk (str "unexpected interrupt irq=%d" ++ [10]) [PNum irq]; ret tt
         else ret tt);
    do! (if negb (irq =? 0) then plic_complete irq else ret tt);
    ret 1
  else if cause =? TIMER then
    do! clockintr;
    ret 2
  else ret 0.

Definition kerneltrap : M kern unit :=
  let! epc0 := mk (lk r_sepc) in
  let! status := mk (lk r_sstatus) in
  let! cause := mk (lk r_scause) in
  do! check (has status SSTATUS_SPP) "kerneltrap: not from supervisor mode";
  let! on := mk (lk intr_get) in
  do! check (negb on) "kerneltrap: interrupts enabled";
  let! which := devintr in
  do! (if which =? 0 then
         let! e := mk (lk r_sepc) in
         let! v := mk (lk r_stval) in
         do! printk (str "scause=0x%lx sepc=0x%lx stval=0x%lx" ++ [10]) [PNum cause; PNum e; PNum v];
         panic "kerneltrap"
       else ret tt);
  do! (if which =? 2 then
         let! p := mk myproc in
         match p with Some _ => mk yield | None => ret tt end
       else ret tt);
  do! mk (lk (w_sepc epc0));
  mk (lk (w_sstatus status)).

(** ** The dispatcher *)

Definition syscalls (num : Z) : option (M kern Z) :=
  match num with
  | 1 => Some sys_fork | 2 => Some sys_exit | 3 => Some sys_wait | 4 => Some sys_pipe
  | 5 => Some sys_read | 6 => Some sys_kill | 7 => Some sys_exec | 8 => Some sys_fstat
  | 9 => Some sys_chdir | 10 => Some sys_dup | 11 => Some sys_getpid | 12 => Some sys_sbrk
  | 14 => Some sys_uptime | 15 => Some sys_open | 16 => Some sys_write | 17 => Some sys_mknod
  | 18 => Some sys_unlink | 19 => Some sys_link | 20 => Some sys_mkdir | 21 => Some sys_close
  | 22 => Some sys_pause | 23 => Some sys_sync | 24 => Some sys_trace | 25 => Some sys_sysinfo
  | 26 => Some sys_sigalarm | 27 => Some sys_sigreturn
  | _ => None
  end.
Definition syscall_names (num : Z) : option string :=
  match num with
  | 1 => Some "fork" | 2 => Some "exit" | 3 => Some "wait" | 4 => Some "pipe"
  | 5 => Some "read" | 6 => Some "kill" | 7 => Some "exec" | 8 => Some "fstat"
  | 9 => Some "chdir" | 10 => Some "dup" | 11 => Some "getpid" | 12 => Some "sbrk"
  | 14 => Some "uptime" | 15 => Some "open" | 16 => Some "write" | 17 => Some "mknod"
  | 18 => Some "unlink" | 19 => Some "link" | 20 => Some "mkdir" | 21 => Some "close"
  | 22 => Some "pause" | 23 => Some "sync" | 24 => Some "trace" | 25 => Some "sysinfo"
  | 26 => Some "sigalarm" | 27 => Some "sigreturn"
  | _ => None
  end.

Definition syscall : M kern unit :=
  let! p := mk curp in
  let! v := mk (tf_get p a7) in
  let num := i32 v in
  match syscalls num with
  | Some f =>
    let! r := f in
    do! mk (tf_set p a0 r);
    let! q := mk (getproc p) in
    if negb (Z.land (tracemask q) (i32 (Z.shiftl 1 num)) =? 0) then
      let! r := mk (tf_get p a0) in
      do! printk (str "%d: syscall: %s -> %ld" ++ [10]) [PNum (pid q); PStr (str <$> syscall_names num); PNum r];
      ret tt
    else ret tt
  | None =>
    let! q := mk (getproc p) in
    do! printk (str "%d %s: unknown sys call %d" ++ [10]) [PNum (pid q); PStr (Some (cstr (pname q))); PNum num];
    mk (tf_set p a0 (u64 (-1)))
  end.

(** ** Page faults *)

(** A store to a page that fork shared: copy it. *)
Definition cow_fault (p : nat) (pte : Z) : M mach unit :=
  let! v := ld64 pte in
  let old_pa := PTE2PA v in
  let! mem := kalloc in
  if mem =? 0 then setkilled p
  else
    do! memmove mem old_pa PGSIZE;
    let! v := ld64 pte in
    let flags := Z.ldiff (Z.lor (PTE_FLAGS v) PTE_W) PTE_COW in
    do! st64 pte (Z.lor (PA2PTE mem) flags);
    kfree old_pa.

(** [scause] 15. *)
Definition store_fault (p : nat) (va : Z) : M mach unit :=
  let! q := getproc p in
  let! pte := walk (pagetable q) va false in
  let! cow := (if pte =? 0 then ret false else let! v := ld64 pte in ret (has v PTE_COW)) in
  if cow then cow_fault p pte
  else
    let! r := vmfault (pagetable q) va in
    if r =? 0 then setkilled p else ret tt.

(** The timer's part in alarms. *)
Definition alarm_tick (p : nat) : M mach unit :=
  let! q := getproc p in
  if (0 <? alarm_interval q) && (alarm_active q =? 0) then
    do! updproc p (fun q => set_alarm (i32 (alarm_ticks q + 1)) (alarm_interval q) (alarm_handler q) q);
    let! q := getproc p in
    if alarm_ticks q =? alarm_interval q then
      do! updproc p (set_alarm_active 1);
      do! tf_copy (alarm_trapframe q) (trapframe q);
      do! tf_set p epc (alarm_handler q);
      updproc p (fun q => set_alarm 0 (alarm_interval q) (alarm_handler q) q)
    else ret tt
  else ret tt.

(** The result is the user page table for trampoline.S. *)
Definition usertrap : M kern Z :=
  let! status := mk (lk r_sstatus) in
  do! check (negb (has status SSTATUS_SPP)) "usertrap: not from user mode";
  do! mk (lk (w_stvec kernelvec));
  let! p := mk curp in
  let! e := mk (lk r_sepc) in
  do! mk (tf_set p epc e);
  let! cause := mk (lk r_scause) in
  let! which :=
    (if cause =? 8 then
       let! k := mk (killed p) in
       do! (if negb (k =? 0) then kexit (-1) else ret tt);
       let! e := mk (tf_get p epc) in
       do! mk (tf_set p epc (u64 (e + 4)));
       do! mk (lk intr_on);
       do! syscall;
       ret 0
     else
       let! which := devintr in
       do! (if negb (which =? 0) then
              if which =? 2 then mk (alarm_tick p) else ret tt
            else
              let! cause := mk (lk r_scause) in
              if cause =? 15 then
                let! va := mk (lk r_stval) in
                mk (store_fault p va)
              else if cause =? 13 then
                let! q := mk (getproc p) in
                let! va := mk (lk r_stval) in
                let! r := mk (vmfault (pagetable q) va) in
                if r =? 0 then mk (setkilled p) else ret tt
              else
                let! q := mk (getproc p) in
                do! printk (str "usertrap(): unexpected scause 0x%lx pid=%d" ++ [10]) [PNum cause; PNum (pid q)];
                let! e := mk (lk r_sepc) in
                let! v := mk (lk r_stval) in
                do! printk (str "            sepc=0x%lx stval=0x%lx" ++ [10]) [PNum e; PNum v];
                mk (setkilled p));
       ret which) in
  let! k := mk (killed p) in
  do! (if negb (k =? 0) then kexit (-1) else ret tt);
  do! (if which =? 2 then mk yield else ret tt);
  do! mk prepare_return;
  let! q := mk (getproc p) in
  ret (MAKE_SATP (pagetable q)).
End Trap.
