(* ===== verification/Fault.v ===== *)
(** * Store page faults (kernel/trap.c)

    What [usertrap] does for a store to a copy-on-write page, and to an
    address outside the address space. *)

From S2P Require Import Prelude.
From S2P Require Import Mach.
From S2P Require Import Spinlock.
From S2P Require Import Kstring.
From S2P Require Import Kalloc.
From S2P Require Import Vm.
From S2P Require Import Pagetable.
From S2P Require Import Uvm.
From S2P Require Import Cow.
From S2P Require Import Vmex.
From S2P Require Import Proc.
From S2P Require Import Kstate.
From S2P Require Import Trap.

(** The flags of the private copy: writable, no longer copy-on-write. *)
Definition own_flags (v : Z) : Z := Z.ldiff (Z.lor (PTE_FLAGS v) PTE_W) PTE_COW.

Lemma own_flags_bits v n : 0 <= n < 10 ->
  Z.testbit (own_flags v) n = if decide (n = 2) then true else if decide (n = 8) then false else Z.testbit v n.
Proof.
  intros Hn. unfold own_flags. rewrite Z.ldiff_spec, Z.lor_spec, flags_bits by lia.
  change PTE_W with (2 ^ 2). change PTE_COW with (2 ^ 8).
  destruct (decide (n = 2)) as [->|H2]; [now rewrite Z.pow2_bits_true, Z.pow2_bits_false, orb_true_r by lia|].
  rewrite (Z.pow2_bits_false 2) by lia. rewrite orb_false_r.
  destruct (decide (n = 8)) as [->|H8]; [now rewrite Z.pow2_bits_true, andb_false_r by lia|].
  now rewrite Z.pow2_bits_false, andb_true_r by lia.
Qed.
Lemma own_flags_range v : 0 <= own_flags v < 1024.
Proof.
  assert (0 <= own_flags v) as H0 by (apply Z.ldiff_nonneg; left; apply Z.lor_nonneg; split; [apply flags_range|done]).
  split; [done|]. apply Z.log2_lt_cancel. change (Z.log2 1024) with 10.
  destruct (Z_lt_ge_dec (Z.log2 (own_flags v)) 10) as [|Hge]; [done|exfalso].
  assert (own_flags v <> 0) as Hne by (intros E; rewrite E in Hge; now apply Hge).
  pose proof (Z.bit_log2 (own_flags v) ltac:(lia)) as Hb. revert Hb. unfold own_flags at 1.
  rewrite Z.ldiff_spec, Z.lor_spec. pose proof (flags_range v) as Hr.
  rewrite (Z.bits_above_log2 (PTE_FLAGS v)), (Z.bits_above_log2 PTE_W); [done|done|change (Z.log2 PTE_W) with 2; lia|lia|].
  destruct (Z.eq_dec (PTE_FLAGS v) 0) as [->|]; [change (Z.log2 0) with 0; lia|].
  pose proof (proj1 (Z.log2_lt_pow2 (PTE_FLAGS v) 10 ltac:(lia))). lia.
Qed.

Section Fault.
Context {L : Layout} {LO : LayoutOk L}.
Implicit Types s : mach.

Lemma own_pte v mem : has v PTE_V = true -> page_ok mem ->
  0 <= Z.lor (PA2PTE mem) (own_flags v) < 18446744073709551616 /\
  PTE2PA (Z.lor (PA2PTE mem) (own_flags v)) = mem /\ PTE_FLAGS (Z.lor (PA2PTE mem) (own_flags v)) = own_flags v.
Proof.
  intros Hv Hp. destruct (page_ok_pte mem Hp) as [Hr Ha].
  assert (Z.lor (own_flags v) PTE_V = own_flags v) as E.
  { apply Z.bits_inj'. intros n Hn. rewrite Z.lor_spec. change PTE_V with (2 ^ 0).
    destruct (Z.eq_dec n 0) as [->|Hne]; [|rewrite Z.pow2_bits_false, orb_false_r by lia; done].
    rewrite own_flags_bits, !decide_False by lia. change PTE_V with (Z.shiftl 1 0) in Hv. rewrite has_bit in Hv by lia. now rewrite Hv. }
  pose proof (mkpte_spec mem (own_flags v) Hr Ha (own_flags_range v)) as H. unfold mkpte in H. rewrite <- Z.lor_assoc, E in H. exact H.
Qed.

(** The process of slot [p] owns page [mem] now: the entry at [pte] points to
    it, and it holds what the shared page [old] held in [s]. *)
Record private (fls : list (list Z)) s (pte v old mem : Z) (s' : mach) : Prop := {
  pv_free : mem ∈ concat fls;
  pv_ref : ref s' mem = 1;
  pv_pte : PTE2PA (rdn 8 (ram s') pte) = mem;
  pv_flags : forall k, 0 <= k < 10 -> has (rdn 8 (ram s') pte) (Z.shiftl 1 k) =
    if decide (k = 2) then true else if decide (k = 8) then false else has v (Z.shiftl 1 k);
  pv_copy : forall k, 0 <= k < 4096 -> rd (ram s') (mem + k) = rd (ram s) (old + k);
  pv_old : ref s' old = ref s old - 1;
  pv_rest : forall a, ~ (mem <= a < mem + 4096) -> ~ (old <= a < old + 4096) -> ~ (pte <= a < pte + 8) ->
    rd (ram s') a = rd (ram s) a;
}.

Lemma cow_fault_spec fls s p pte t :
  kmem_inv fls s -> quiet 2 s -> concat fls <> [] ->
  page_ok t -> 0 < ref s t -> t <= pte -> pte + 8 <= t + 4096 ->
  let v := rdn 8 (ram s) pte in
  let old := PTE2PA v in
  has v PTE_V = true -> page_ok old -> 0 < ref s old -> t <> old ->
  wp (cow_fault p pte) (fun _ s' => same_kernel s s' /\ exists mem, private fls s pte v old mem s' /\
    (2 <= ref s old -> forall k, 0 <= k < 4096 -> rd (ram s') (old + k) = 1)) s.
Proof.
  intros Hinv Hq Hne Ht Htr Hp1 Hp2 v old Hv Hold Hor Hto.
  destruct (page_ok_ram t Ht) as [Ht1 Ht2]. destruct (page_ok_ram old Hold) as [Ho1 Ho2].
  unfold cow_fault. wsteps. apply wp_ld64; [lia|lia|]. fold v old. wsteps.
  eapply wp_mono; [now apply (kalloc_spec fls)|].
  intros mem s1 (k & l & Hk & (Hl & Hinv1 & Hmem & Hr1 & Hm1 & Hrq1 & Hs1) & _).
  set (j := Z.to_nat ((hart (lks s) + Z.of_nat k) mod 8)) in *. destruct (page_ok_ram mem Hmem) as [Hm2 Hm3].
  assert (mem ∈ concat fls) as Hfree by (rewrite (concat_pop _ _ _ _ Hl); left).
  assert (forall q, page_ok q -> 0 < ref s q -> q <> mem) as Hnem.
  { intros q Hq1 Hq2 ->. apply (inv_free _ _ Hinv mem Hmem) in Hfree. lia. }
  assert (mem + 4096 <= t \/ t + 4096 <= mem) as Dt by (apply page_disjoint; auto; intros E; now apply (Hnem t)).
  assert (mem + 4096 <= old \/ old + 4096 <= mem) as Do by (apply page_disjoint; auto; intros E; now apply (Hnem old)).
  assert (old + 4096 <= t \/ t + 4096 <= old) as Dot by (apply page_disjoint; auto).
  rewrite (proj2 (Z.eqb_neq mem 0)) by lia. wsteps. change PGSIZE with 4096.
  eapply wp_mono; [apply memmove_loop_spec; lia|]. intros r s2 (-> & m2 & -> & Hcp). wsteps. apply wp_ld64; [lia|lia|]. wsteps.
  assert (rdn 8 m2 pte = v) as Ev.
  { apply rdn_ext. intros b Hb. rewrite Hcp, decide_False, Hm1, decide_False by lia. done. }
  simpl ram. rewrite Ev. fold (own_flags v). apply wp_st64; [lia|lia|]. wsteps.
  destruct (own_pte v mem Hv Hmem) as (W1 & W2 & W3). set (w := Z.lor (PA2PTE mem) (own_flags v)) in *.
  set (s3 := set_ram (wrn 8 m2 pte w) s1). change (set_ram (wrn 8 (ram (set_ram m2 s1)) pte w) (set_ram m2 s1)) with s3.
  assert (same_kernel s s3) as Hs3 by exact Hs1.
  assert (kmem_inv (<[j := l]> fls) s3) as Hinv3.
  { apply (kmem_inv_frame _ s1); [done|done| |].
    - intros q a Hqi Ha. pose proof (inv_pages _ _ Hinv1 q Hqi) as Hqp. apply (inv_free _ _ Hinv1 q Hqp) in Hqi as Hq0.
      assert (q <> mem) as N1 by (intros ->; lia). assert (q <> t) as N2.
      { intros ->. rewrite Hrq1 in Hq0; [lia|done|apply Hnem; done]. }
      destruct (page_disjoint q mem Hqp Hmem N1), (page_disjoint q t Hqp Ht N2);
        (simpl; rewrite rd_wrn_out by lia; rewrite Hcp, decide_False by lia; done).
    - intros q Hqp. change (ref s3 q) with (ref s1 q). split; [now apply (inv_ref _ _ Hinv1)|done]. }
  assert (ref s3 old = ref s old) as Er by (apply Hrq1; [done|now apply Hnem]).
  eapply wp_mono; [apply (kfree_spec (<[j := l]> fls) s3 old); auto; [now apply (quiet_same 2 s)|lia]|].
  intros [] s4 (F1 & F2 & F3 & F4 & F5). split; [etransitivity; [exact Hs3|exact F4]|]. exists mem. split.
  - assert (forall a, ~ (old <= a < old + 4096) -> rd (ram s4) a = rd (ram s3) a) as F1' by (intros a Ha; apply F1; lia).
    assert (rdn 8 (ram s4) pte = w) as Ew.
    { rewrite (rdn_ext 8 _ (ram s3)) by (intros b Hb; apply F1'; lia). apply rdn_wrn_eq. exact W1. }
    constructor; [done| |now rewrite Ew| | | |].
    + rewrite F3; [exact Hr1|done|]. intros E. now apply (Hnem old).
    + intros k0 Hk0. rewrite Ew, <- (has_flags w) by lia. rewrite W3, !has_bit by lia. now apply own_flags_bits.
    + intros k0 Hk0. rewrite F1' by lia. simpl. rewrite rd_wrn_out by lia. rewrite Hcp, decide_True by lia.
      rewrite Hm1, decide_False by lia. f_equal. lia.
    + lia.
    + intros a A1 A2 A3. rewrite F1' by done. simpl. rewrite rd_wrn_out by lia. rewrite Hcp, decide_False by lia.
      rewrite Hm1, decide_False by lia. done.
  - intros H2 k0 Hk0. rewrite decide_False in F5 by lia. apply F5. lia.
Qed.

(** C27: a store to a copy-on-write page.  The fault handler gives the process
    a page that was free, with one reference and the contents of the shared
    page, maps it at the faulting address writable and no longer
    copy-on-write with the other flags as before, and drops one reference to
    the shared page; the rest of memory is untouched.  But if the page is
    still shared, the handler has overwritten it with ones: the other
    processes lose their data. *)
Theorem store_fault_cow fls s p q va pte :
  kmem_inv fls s -> quiet 2 s -> concat fls <> [] -> procs s !! p = Some q -> pt_wf s (pagetable q) ->
  va < MAXVA -> leaf (ram s) (pagetable q) va = Some pte ->
  let v := pte_of (ram s) (pagetable q) va in
  let old := PTE2PA v in
  has v PTE_V = true -> has v PTE_COW = true -> page_ok old -> 0 < ref s old -> ~ is_table s (pagetable q) old ->
  wp (store_fault p va) (fun _ s' => same_kernel s s' /\ exists mem, private fls s pte v old mem s' /\
    (2 <= ref s old -> forall k, 0 <= k < 4096 -> rd (ram s') (old + k) = 1)) s.
Proof.
  intros Hinv Hq Hne Hp Hwf Hva Hl v old Hv Hc Hold Hor Hnt.
  assert (rdn 8 (ram s) pte = v) as Ev by (unfold v, pte_of; now rewrite Hl).
  pose proof Hl as Hl'. unfold leaf in Hl'. destruct (tab (ram s) (pagetable q) (Low (PX 2 va) (PX 1 va))) as [t|] eqn:Et; [|discriminate Hl'].
  injection Hl' as Epte. assert (valid (Low (PX 2 va) (PX 1 va))) as Hvt by (split; apply PX_idx).
  destruct (wf_page _ _ Hwf _ t Hvt Et) as [Ht Htr]. pose proof (PX_idx 0 va) as Hx. unfold idx in Hx.
  destruct (page_ok_ram t Ht) as [Ht1 Ht2].
  unfold store_fault. wsteps. apply (wp_getproc p q); [done|]. wsteps. apply wp_walk_noalloc; [done|done|]. rewrite Hl. simpl default.
  rewrite (proj2 (Z.eqb_neq pte 0)) by lia. wsteps. apply wp_ld64; [lia|lia|]. rewrite Ev. wsteps. rewrite Hc.
  pose proof (cow_fault_spec fls s p pte t Hinv Hq Hne Ht Htr ltac:(lia) ltac:(lia)) as H. cbv zeta in H. rewrite Ev in H. apply H; auto.
  intros ->. apply Hnt. exists (Low (PX 2 va) (PX 1 va)). done.
Qed.

(** A user program can stop the machine: a store to an address at or above
    [MAXVA] makes the handler call [walk], which panics. *)
Lemma store_fault_panics s p q va : procs s !! p = Some q -> MAXVA <= va -> store_fault p va s = Panic "walk".
Proof.
  intros Hp Hva. unfold store_fault. rewrite (bind_Ret (getproc p) _ s q s) by (unfold getproc, orfault; now rewrite Hp).
  apply bind_Panic. unfold walk. apply bind_Panic. unfold check. rewrite (proj2 (Z.leb_le MAXVA va)) by done. done.
Qed.
End Fault.

(** The page at address 0 of the machine of [Vmex], shared by two
    processes. *)
Definition cow_pte : Z := cowed (mkpte (pgn 3) rwu).
Definition mach3 : mach := set_ram (wrn 8 mem1 (pgn 2) cow_pte) mach1.
Definition mach4 : mach := set_refcnt (<[refidx (pgn 3) := 2]> (refcnt mach1)) mach3.

Lemma mach3_leaf : grows lists1 mach1 lists1 mach3 (pgn 0) 0 {[0 := cow_pte]} /\
  forall t, valid t -> tab (ram mach3) (pgn 0) t = tab (ram mach1) (pgn 0) t.
Proof. apply (set_leaf lists1 mach1 (pgn 0) 0 (pgn 2)); [apply inv1|apply wf1|lia|reflexivity|vm_compute; reflexivity|vm_compute; split; congruence]. Qed.
Lemma mach4_ref p : page_ok p -> ref mach4 p = if decide (p = pgn 3) then 2 else ref mach1 p.
Proof. intros Hp. each_page Hp; vm_compute; reflexivity. Qed.
Lemma mach4_inv : kmem_inv lists1 mach4.
Proof.
  apply (kmem_inv_frame _ mach3); [apply (g_inv _ _ _ _ _ _ _ (proj1 mach3_leaf))|exact eq_refl|intros; exact eq_refl|].
  intros p Hp. rewrite mach4_ref by done. change (ref mach3 p) with (ref mach1 p). each_page Hp; vm_compute; intuition congruence.
Qed.
Lemma mach4_wf : pt_wf mach4 (pgn 0).
Proof.
  apply (pt_refs mach3); [apply (g_wf _ _ _ _ _ _ _ (proj1 mach3_leaf))|exact eq_refl|]. intros q (t & Hv & Ht).
  rewrite (proj2 mach3_leaf) in Ht by done. apply tab1 in Ht as [[_ ->]|[[_ ->]|[_ ->]]]; [vm_compute; reflexivity..|done].
Qed.

Lemma store_fault_cow_witness :
  wp (store_fault 0 5) (fun _ s' => exists mem, mem <> pgn 3 /\ rd (ram s') (mem + 7) = rd mem1 (pgn 3 + 7) /\
    rd (ram s') (pgn 3 + 7) = 1) mach4.
Proof.
  assert (pte_of (ram mach4) (pgn 0) 5 = cow_pte) as Ev by (vm_compute; reflexivity).
  assert (PTE2PA cow_pte = pgn 3) as Ep by (vm_compute; reflexivity).
  eapply wp_mono; [apply (store_fault_cow lists1 mach4 0 proc1 5 (pgn 2))|]; cbv zeta; change (pagetable proc1) with (pgn 0); rewrite ?Ev, ?Ep.
  - apply mach4_inv.
  - apply quiet1.
  - discriminate.
  - reflexivity.
  - apply mach4_wf.
  - reflexivity.
  - vm_compute. reflexivity.
  - vm_compute. reflexivity.
  - vm_compute. reflexivity.
  - apply pgn_ok. lia.
  - vm_compute. reflexivity.
  - intros (t & Hv & Ht). change (ram mach4) with (ram mach3) in Ht. rewrite (proj2 mach3_leaf) in Ht by done.
    apply not_table3. exists t. exact (conj Hv Ht).
  - intros [] s' (_ & mem & [A1 A2 A3 A4 A5 A6 A7] & H). exists mem. split; [|split].
    + intros ->. apply (inv_free _ _ mach4_inv (pgn 3) (pgn_ok 3 ltac:(lia))) in A1. discriminate A1.
    + rewrite A5 by lia. vm_compute. reflexivity.
    + apply H; [vm_compute; discriminate|lia].
Defined.
