(* ===== verification/Grep.v ===== *)
(** * The text searcher grep (user/grep.c)

    A user program: it reads a file through a buffer of 1024 bytes and prints
    the lines that match a pattern with the operators [^ . * $].  A C string
    is the list of the bytes before its NUL.  [matches] gives patterns a
    meaning as sets of texts, [grepped] says what the program should print;
    [match_] decides the first and [grep] computes the second, however the
    file arrives. *)

From Stdlib Require Import Wf_nat.
From S2P Require Import Prelude.
From S2P Require Import Kstring.

(** ** The matcher *)

(** [matchstar] calls [matchhere] on the rest of the pattern, [rest]. *)
Fixpoint matchstar (rest : list Z -> bool) (c : Z) (text : list Z) : bool :=
  if rest text then true
  else
    match text with
    | [] => false
    | t :: text' => if (t =? c) || (c =? 46) then matchstar rest c text' else false
    end.

Fixpoint matchhere (re text : list Z) : bool :=
  match re with
  | [] => true
  | c :: re1 =>
    let one :=
      match text with
      | [] => false
      | t :: text' => if (c =? 46) || (c =? t) then matchhere re1 text' else false
      end in
    match re1 with
    | [] => if c =? 36 then match text with [] => true | _ => false end else one
    | c1 :: re2 => if c1 =? 42 then matchstar (matchhere re2) c text else one
    end
  end.

(** The loop of [match]: [re] at every suffix of the text, the empty one
    included. *)
Fixpoint match_anywhere (re text : list Z) : bool :=
  if matchhere re text then true
  else match text with [] => false | _ :: text' => match_anywhere re text' end.

Definition match_ (re text : list Z) : bool :=
  match re with
  | c :: re' => if c =? 94 then matchhere re' text else match_anywhere re text
  | [] => match_anywhere re text
  end.

(** ** The program *)

(** [strchr] of ulib.c: the offset of the first [c] before the NUL. *)
Fixpoint strchr (s : list Z) (c : Z) : option nat :=
  match s with
  | [] => None
  | x :: s' => if x =? 0 then None else if x =? c then Some 0%nat else S <$> strchr s' c
  end.

(** The system call [read] on a descriptor in state [F]: the bytes read and
    the new state. *)
Class Reader (F : Type) : Type := { read : F -> nat -> list Z * F }.

(** The inner loop: print the matching lines of [p], return what is left
    after the last newline. *)
Fixpoint grep_lines (fuel : nat) (pattern p : list Z) : option (list Z * list Z) :=
  match strchr p 10 with
  | None => Some ([], p)
  | Some q =>
    match fuel with
    | O => None
    | S f =>
      let out := if match_ pattern (cstr (take q p)) then take q p ++ [10] else [] in
      r ← grep_lines f pattern (drop (S q) p);
      Some (out ++ fst r, snd r)
    end
  end.

Fixpoint grep_loop {F : Type} `{Reader F} (fuel : nat) (pattern : list Z) (fd : F) (buf : list Z) : option (list Z) :=
  let '(data, fd') := read fd (1024 - length buf - 1) in
  match data with
  | [] => Some []
  | _ =>
    match fuel with
    | O => None
    | S f =>
      let m := buf ++ data in
      r ← grep_lines (length m) pattern m;
      out ← grep_loop f pattern fd' (snd r);
      Some (fst r ++ out)
    end
  end.

(** What is written to descriptor 1; [fuel] bounds the number of reads. *)
Definition grep {F : Type} `{Reader F} (fuel : nat) (pattern : list Z) (fd : F) : option (list Z) :=
  grep_loop fuel pattern fd [].

(** ** Patterns as sets of texts *)

Inductive item : Type :=
| One (c : Z)
| Star (c : Z).

(** The dot stands for any character. *)
Definition accepts (c t : Z) : Prop := c = 46 \/ c = t.

Inductive lang : list item -> list Z -> Prop :=
| lang_nil : lang [] []
| lang_one c t its w : accepts c t -> lang its w -> lang (One c :: its) (t :: w)
| lang_star c its v w : Forall (accepts c) v -> lang its w -> lang (Star c :: its) (v ++ w).

(** The items of a pattern, and whether a dollar sign ends it. *)
Fixpoint items (re : list Z) : list item * bool :=
  match re with
  | [] => ([], false)
  | c :: re1 =>
    match re1 with
    | [] => if c =? 36 then ([], true) else ([One c], false)
    | c1 :: re2 =>
      if c1 =? 42 then let '(l, e) := items re2 in (Star c :: l, e)
      else let '(l, e) := items re1 in (One c :: l, e)
    end
  end.

(** [re] matches somewhere in the text: at its start after a caret, up to its
    end before a dollar sign. *)
Definition found (start : bool) (re text : list Z) : Prop :=
  exists pre w post, text = pre ++ w ++ post /\ lang (fst (items re)) w /\
    (start = true -> pre = []) /\ (snd (items re) = true -> post = []).
Definition matches (re text : list Z) : Prop :=
  match re with
  | c :: re' => if decide (c = 94) then found true re' text else found false re text
  | [] => found false re text
  end.

(** [re] matches at the start of the text. *)
Definition here (re text : list Z) : Prop :=
  exists w post, text = w ++ post /\ lang (fst (items re)) w /\ (snd (items re) = true -> post = []).

(** Characters the starred one accepts, then what [rest] recognises. *)
Lemma matchstar_spec rest c text :
  matchstar rest c text = true <-> exists v u, text = v ++ u /\ Forall (accepts c) v /\ rest u = true.
Proof.
  induction text as [|t text IH]; simpl.
  - destruct (rest []) eqn:E; split; try done.
    + intros _. exists [], []. done.
    + intros (v & u & Ev & _ & Hu). symmetry in Ev. apply app_nil in Ev as [_ ->]. congruence.
  - destruct (rest (t :: text)) eqn:E; [split; [|done]; intros _; exists [], (t :: text); done|].
    assert ((t =? c) || (c =? 46) = true <-> accepts c t) as Ha.
    { unfold accepts. rewrite orb_true_iff, !Z.eqb_eq. intuition. }
    split.
    + destruct ((t =? c) || (c =? 46)); [|done]. rewrite IH. intros (v & u & -> & Hv & Hu).
      exists (t :: v), u. split; [done|]. split; [constructor; [tauto|done]|done].
    + intros ([|t' v] & u & Ev & Hv & Hu); [simpl in Ev; congruence|]. injection Ev as <- ->.
      inversion Hv; subst. destruct ((t =? c) || (c =? 46)); [apply IH; eauto|naive_solver].
Qed.

Lemma lang_nil_inv w : lang [] w -> w = [].
Proof. inversion 1. done. Qed.
Lemma here_one c re text : fst (items (c :: re)) = One c :: fst (items re) -> snd (items (c :: re)) = snd (items re) ->
  here (c :: re) text <-> exists t text', text = t :: text' /\ accepts c t /\ here re text'.
Proof.
  intros E1 E2. unfold here. rewrite E1, E2. split.
  - intros (w & post & -> & Hw & Hp). inversion Hw; subst. eauto 10.
  - intros (t & text' & -> & Ha & w & post & -> & Hw & Hp). exists (t :: w), post. split; [done|]. split; [now constructor|done].
Qed.
Lemma here_star c re text : here (c :: 42 :: re) text <-> exists v u, text = v ++ u /\ Forall (accepts c) v /\ here re u.
Proof.
  unfold here. assert (items (c :: 42 :: re) = (Star c :: fst (items re), snd (items re))) as ->.
  { simpl. now destruct (items re). }
  split.
  - intros (w & post & -> & Hw & Hp). inversion Hw as [| |? ? v w' Hv Hw']; subst. exists v, (w' ++ post).
    rewrite app_assoc. eauto 10.
  - intros (v & u & -> & Hv & w & post & -> & Hw & Hp). exists (v ++ w), post. rewrite app_assoc.
    split; [done|]. split; [now constructor|done].
Qed.

(** The test of one character in [matchhere]. *)
Lemma one_spec c re text (b : list Z -> bool) :
  (forall text', b text' = true <-> here re text') ->
  (match text with [] => false | t :: text' => if (c =? 46) || (c =? t) then b text' else false end) = true <->
  exists t text', text = t :: text' /\ accepts c t /\ here re text'.
Proof.
  intros Hb. destruct text as [|t text]; [naive_solver|].
  assert ((c =? 46) || (c =? t) = true <-> accepts c t) as Ha by (unfold accepts; rewrite orb_true_iff, !Z.eqb_eq; done).
  destruct ((c =? 46) || (c =? t)); naive_solver.
Qed.

Lemma items_one c c1 re : c1 <> 42 -> items (c :: c1 :: re) = (One c :: fst (items (c1 :: re)), snd (items (c1 :: re))).
Proof.
  intros H. transitivity (if c1 =? 42 then let '(l, e) := items re in (Star c :: l, e)
    else let '(l, e) := items (c1 :: re) in (One c :: l, e)); [done|].
  rewrite (proj2 (Z.eqb_neq c1 42)) by done. now destruct (items (c1 :: re)).
Qed.

Lemma matchhere_spec re : forall text, matchhere re text = true <-> here re text.
Proof.
  induction re as [re IH] using (induction_ltof1 _ (@length Z)). unfold ltof in IH. intros text.
  destruct re as [|c [|c1 re]].
  - split; [|done]. intros _. exists [], text. split; [done|]. split; [constructor|discriminate].
  - simpl. destruct (Z.eqb_spec c 36) as [->|Hc].
    + unfold here. simpl. destruct text as [|t text]; split; try done.
      * intros _. exists [], []. split; [done|]. split; [constructor|done].
      * intros (w & post & E & Hw & Hp). apply lang_nil_inv in Hw as ->. now rewrite Hp in E.
    + rewrite (one_spec c [] text (fun _ => true)); [|intros u; split; [intros _|done]; exists [], u; split; [done|split; [constructor|discriminate]]].
      symmetry. apply here_one; simpl; rewrite (proj2 (Z.eqb_neq c 36)) by done; done.
  - destruct (Z.eqb_spec c1 42) as [->|H42].
    + change (matchhere (c :: 42 :: re) text) with (matchstar (matchhere re) c text). rewrite matchstar_spec, here_star.
      split; intros (v & u & E & Hv & Hu); exists v, u; (split; [done|]; split; [done|]); revert Hu; apply IH; simpl; lia.
    + assert (forall u, matchhere (c1 :: re) u = true <-> here (c1 :: re) u) as H1 by (apply IH; simpl; lia).
      rewrite here_one by (now rewrite items_one).
      rewrite <- (one_spec c (c1 :: re) text _ H1). cbn [matchhere]. now rewrite (proj2 (Z.eqb_neq c1 42)) by done.
Qed.

Lemma found_start re text : found true re text <-> here re text.
Proof.
  split.
  - intros (pre & w & post & -> & Hw & Hs & He). rewrite (Hs eq_refl). exists w, post. done.
  - intros (w & post & -> & Hw & He). exists [], w, post. done.
Qed.
Lemma found_suffix re text : found false re text <-> exists pre u, text = pre ++ u /\ here re u.
Proof.
  split.
  - intros (pre & w & post & -> & Hw & _ & He). exists pre, (w ++ post). split; [done|]. exists w, post. done.
  - intros (pre & u & -> & w & post & -> & Hw & He). exists pre, w, post. done.
Qed.
Lemma match_anywhere_spec re text : match_anywhere re text = true <-> found false re text.
Proof.
  rewrite found_suffix. induction text as [|t text IH]; cbn [match_anywhere]; destruct (matchhere re _) eqn:E.
  - split; [|done]. intros _. exists [], []. split; [done|]. now apply matchhere_spec.
  - split; [done|]. intros (pre & u & Eu & Hu). symmetry in Eu. apply app_nil in Eu as [_ ->].
    apply matchhere_spec in Hu. congruence.
  - split; [|done]. intros _. exists [], (t :: text). split; [done|]. now apply matchhere_spec.
  - rewrite IH. split.
    + intros (pre & u & -> & Hu). exists (t :: pre), u. done.
    + intros ([|t' pre] & u & Eu & Hu); simpl in Eu; [apply matchhere_spec in Hu; congruence|].
      injection Eu as <- ->. exists pre, u. done.
Qed.

(** ** Lines *)

(** The complete lines of [l] when [cur] has been read of the first, and what
    has been read of the last. *)
Fixpoint complete (cur l : list Z) : list (list Z) :=
  match l with
  | [] => []
  | c :: l' => if c =? 10 then cur :: complete [] l' else complete (cur ++ [c]) l'
  end.
Fixpoint pending (cur l : list Z) : list Z :=
  match l with
  | [] => cur
  | c :: l' => if c =? 10 then pending [] l' else pending (cur ++ [c]) l'
  end.
Definition print_matching (re : list Z) (ls : list (list Z)) : list Z :=
  concat ((fun l => if match_ re l then l ++ [10] else []) <$> ls).
(** What grep should print: the lines of the input that match. *)
Definition grepped (re input : list Z) : list Z := print_matching re (complete [] input).

Lemma complete_app l1 l2 cur : complete cur (l1 ++ l2) = complete cur l1 ++ complete (pending cur l1) l2.
Proof. revert cur. induction l1 as [|c l IH]; intros cur; simpl; [done|]. destruct (c =? 10); simpl; now rewrite IH. Qed.
Lemma pending_app l1 l2 cur : pending cur (l1 ++ l2) = pending (pending cur l1) l2.
Proof. revert cur. induction l1 as [|c l IH]; intros cur; simpl; [done|]. destruct (c =? 10); now rewrite IH. Qed.
Lemma print_app re l1 l2 : print_matching re (l1 ++ l2) = print_matching re l1 ++ print_matching re l2.
Proof. unfold print_matching. now rewrite fmap_app, concat_app. Qed.

Lemma no_newline l : ~ 10 ∈ l -> forall cur, complete cur l = [] /\ pending cur l = cur ++ l.
Proof.
  induction l as [|c l IH]; intros Hl cur; simpl; [now rewrite app_nil_r|]. rewrite not_elem_of_cons in Hl.
  rewrite (proj2 (Z.eqb_neq c 10)) by lia. destruct (IH (proj2 Hl) (cur ++ [c])) as [-> ->]. now rewrite <- app_assoc.
Qed.
Lemma one_line l p : ~ 10 ∈ l -> forall cur, complete cur (l ++ 10 :: p) = (cur ++ l) :: complete [] p /\
  pending cur (l ++ 10 :: p) = pending [] p.
Proof. intros Hl cur. rewrite complete_app, pending_app. destruct (no_newline l Hl cur) as [-> ->]. done. Qed.
Lemma pending_line l : forall cur, ~ 10 ∈ cur -> ~ 10 ∈ pending cur l.
Proof.
  induction l as [|c l IH]; intros cur Hc; simpl; [done|]. destruct (Z.eqb_spec c 10); apply IH; [apply not_elem_of_nil|].
  rewrite not_elem_of_app, list_elem_of_singleton. auto.
Qed.
Lemma pending_sub l x : forall cur, x ∈ pending cur l -> x ∈ cur \/ x ∈ l.
Proof.
  induction l as [|c l IH]; intros cur Hx; simpl in *; [auto|]. destruct (c =? 10); apply IH in Hx; set_solver.
Qed.

(** The line under way is at least as long as what has been read of it. *)
Lemma first_line l : forall cur, match complete cur l with x :: _ => (length cur <= length x)%nat | [] => True end.
Proof.
  induction l as [|c l IH]; intros cur; simpl; [done|]. destruct (c =? 10); [done|]. specialize (IH (cur ++ [c])).
  destruct (complete (cur ++ [c]) l); [done|]. rewrite length_app in IH. lia.
Qed.

Lemma strchr_spec s c : ~ 0 ∈ s ->
  match strchr s c with
  | Some q => exists s', s = take q s ++ c :: s' /\ ~ c ∈ take q s /\ drop (S q) s = s'
  | None => ~ c ∈ s
  end.
Proof.
  induction s as [|x s IH]; intros H0; simpl; [apply not_elem_of_nil|]. apply not_elem_of_cons in H0 as [Hx H0].
  rewrite (proj2 (Z.eqb_neq x 0)) by lia. destruct (Z.eqb_spec x c) as [->|Hc].
  - exists s. split; [done|]. split; [apply not_elem_of_nil|done].
  - specialize (IH H0). destruct (strchr s c) as [q|]; simpl.
    + destruct IH as (s' & E1 & E2 & E3). exists s'. split; [now f_equal|]. split; [|done].
      apply not_elem_of_cons. auto.
    + apply not_elem_of_cons. auto.
Qed.

Lemma grep_lines_spec re fuel : forall p, ~ 0 ∈ p -> (length p <= fuel)%nat ->
  grep_lines fuel re p = Some (grepped re p, pending [] p).
Proof.
  induction fuel as [|f IH]; intros p H0 Hf.
  - destruct p; [done|simpl in Hf; lia].
  - pose proof (strchr_spec p 10 H0) as Hs. cbn [grep_lines]. destruct (strchr p 10) as [q|].
    + destruct Hs as (p' & E & Hq & ->). set (l := take q p) in *.
      assert (~ 0 ∈ l /\ ~ 0 ∈ p') as [Hl0 Hp0].
      { rewrite E, not_elem_of_app, not_elem_of_cons in H0. tauto. }
      rewrite (IH p' Hp0) by (rewrite E, length_app in Hf; simpl in Hf; lia). simpl. rewrite cstr_id by done.
      unfold grepped. rewrite E. destruct (one_line l p' Hq []) as [-> ->]. done.
    + unfold grepped. destruct (no_newline p Hs []) as [-> ->]. done.
Qed.

(** ** The loop over the file *)

(** A descriptor: [input] is what is left of its file, and [read] returns the
    next bytes, none only at the end of the file or when none are asked for. *)
Class ReaderOk (F : Type) `{Reader F} : Type := {
  input : F -> list Z;
  read_ok : forall fd n, let '(d, fd') := read fd n in
    input fd = d ++ input fd' /\ (length d <= n)%nat /\ (d = [] -> n = 0%nat \/ input fd = []);
}.

Section Grep.
Context {F : Type} `{R : Reader F} {RO : ReaderOk F}.

Lemma grep_loop_spec re fuel : forall fd buf,
  ~ 0 ∈ buf ++ input fd -> ~ 10 ∈ buf -> (length (input fd) <= fuel)%nat ->
  Forall (fun l => length l < 1023)%nat (complete buf (input fd)) ->
  grep_loop fuel re fd buf = Some (print_matching re (complete buf (input fd))).
Proof.
  induction fuel as [|f IH]; intros fd buf H0 Hn Hf Hl; cbn [grep_loop]; pose proof (read_ok fd (1024 - length buf - 1)) as Hr;
    destruct (read fd (1024 - length buf - 1)) as [d fd']; destruct Hr as (Ei & Hd & He).
  - rewrite Ei, length_app in Hf. destruct d as [|c d]; [|simpl in Hf; lia]. simpl in Ei.
    rewrite Ei. destruct (input fd'); [done|simpl in Hf; lia].
  - destruct d as [|c d].
    + destruct (He eq_refl) as [Hz|Hz]; [|now rewrite Hz].
      pose proof (first_line (input fd) buf) as Hx. destruct (complete buf (input fd)) as [|x ls]; [done|].
      apply Forall_cons in Hl as [Hl _]. lia.
    + set (e := c :: d) in *. assert (~ 0 ∈ buf ++ e) as He0 by (rewrite Ei in H0; set_solver).
      rewrite grep_lines_spec by done. cbn [mbind option_bind fst snd]. rewrite pending_app, (proj2 (no_newline buf Hn [])), app_nil_l.
      assert (grepped re (buf ++ e) = print_matching re (complete buf e)) as ->.
      { unfold grepped. rewrite complete_app. destruct (no_newline buf Hn []) as [-> ->]. done. }
      rewrite Ei, complete_app in Hl |- *. apply Forall_app in Hl as [_ Hl].
      rewrite (IH fd' (pending buf e)); [cbn [mbind option_bind]; now rewrite print_app| |now apply pending_line| |done].
      * rewrite not_elem_of_app. split; [|rewrite Ei in H0; set_solver]. intros Hx. apply pending_sub in Hx. set_solver.
      * rewrite Ei, length_app in Hf. simpl in Hf. lia.
Qed.

(** C38: the matcher of grep decides the language of the pattern.  A pattern is
    a sequence of characters, dots and starred characters, held at the start
    of the text by a caret and at its end by a dollar sign; [match_] answers
    true exactly when some part of the text (from the start, up to the end)
    belongs to the language. *)
Theorem match_equivalent re text : match_ re text = true <-> matches re text.
Proof.
  unfold match_, matches. destruct re as [|c re]; [apply match_anywhere_spec|].
  case_decide as Hc; [|rewrite (proj2 (Z.eqb_neq c 94)) by done; apply match_anywhere_spec].
  rewrite (proj2 (Z.eqb_eq c 94)) by done. rewrite found_start. apply matchhere_spec.
Qed.

(** C39: grep prints exactly the complete lines of the file that match, in
    order, however the reads cut the file into pieces, when no line is longer
    than 1022 bytes and the file has no NUL; it ends after at most one read per
    byte and the one that finds the end. *)
Theorem grep_correct re fd :
  ~ 0 ∈ input fd -> Forall (fun l => length l < 1023)%nat (complete [] (input fd)) ->
  grep (length (input fd)) re fd = Some (grepped re (input fd)).
Proof. intros H0 Hl. apply grep_loop_spec; [done|apply not_elem_of_nil|done|done]. Qed.
End Grep.

(** ** A concrete run *)

(** A descriptor with the limits of the next reads. *)
#[export] Instance short_reader : Reader (list Z * list nat) := {
  read fd n :=
    let k := match snd fd with [] => n | m :: _ => Nat.min n (S m) end in
    (take k (fst fd), (drop k (fst fd), drop 1 (snd fd)));
}.
#[export] Instance short_reader_ok : ReaderOk (list Z * list nat).
Proof.
  refine {| input := fst |}. intros [l ms] n. simpl. set (k := match ms with [] => n | m :: _ => Nat.min n (S m) end).
  split; [now rewrite take_drop|]. split; [rewrite length_take; destruct ms; subst k; lia|].
  intros E. destruct l as [|x l]; [auto|]. left. destruct k eqn:Ek; [|discriminate E]. subst k. destruct ms; lia.
Defined.

(** The lines ab, aab and c, read 2, 3 and the remaining bytes at a time. *)
Lemma grep_correct_witness :
  grep 9 [94; 97; 42; 98; 36] ([97; 98; 10; 97; 97; 98; 10; 99; 10], [1; 2]%nat) = Some [97; 98; 10; 97; 97; 98; 10].
Proof.
  refine (eq_trans (grep_correct [94; 97; 42; 98; 36] ([97; 98; 10; 97; 97; 98; 10; 99; 10], [1; 2]%nat) _ _) _); [| |vm_compute; reflexivity].
  - change (~ 0 ∈ [97; 98; 10; 97; 97; 98; 10; 99; 10]). set_solver by lia.
  - repeat constructor; simpl; lia.
Defined.
