(* ===== verification/Ulib.v ===== *)
(** * The library of the user programs (user/ulib.c)

    The memory of a process is a finite map from addresses to bytes; an
    access outside it is a [Fault].  The string routines walk over distinct
    addresses, so that they return or fault after at most as many rounds as
    the memory has bytes.  [char] is unsigned on RISC-V. *)

From S2P Require Import Prelude.

Notation umem := (gmap Z Z).

Definition ldb (a : Z) : M umem Z := fun m => match m !! a with Some b => Ret b m | None => Fault end.
Definition stb (a v : Z) : M umem unit := fun m => match m !! a with Some _ => Ret tt (<[a := u8 v]> m) | None => Fault end.

(** The size of the memory bounds the rounds of a loop. *)
Definition bounded {A : Type} (f : nat -> M umem A) : M umem A := fun m => f (S (size m)) m.

(** ** Operations *)

Fixpoint strcpy_loop (fuel : nat) (s t : Z) : M umem unit :=
  match fuel with
  | O => fun _ => Spin
  | S f =>
    let! c := ldb t in
    do! stb s c;
    if c =? 0 then ret tt else strcpy_loop f (s + 1) (t + 1)
  end.
Definition strcpy (s t : Z) : M umem Z :=
  do! bounded (fun n => strcpy_loop n s t);
  ret s.

Fixpoint strcmp_loop (fuel : nat) (p q : Z) : M umem Z :=
  match fuel with
  | O => fun _ => Spin
  | S f =>
    let! c := ldb p in
    let! more := (if c =? 0 then ret false else let! d := ldb q in ret (c =? d)) in
    if more then strcmp_loop f (p + 1) (q + 1)
    else
      let! c := ldb p in
      let! d := ldb q in
      ret (c - d)
  end.
Definition strcmp (p q : Z) : M umem Z := bounded (fun n => strcmp_loop n p q).

Fixpoint strlen_loop (fuel : nat) (s n : Z) : M umem Z :=
  match fuel with
  | O => fun _ => Spin
  | S f => let! c := ldb (s + n) in if c =? 0 then ret (u32 n) else strlen_loop f s (n + 1)
  end.
Definition strlen (s : Z) : M umem Z := bounded (fun n => strlen_loop n s 0).

Definition memset (dst c n : Z) : M umem Z :=
  do! mloop (Z.to_nat n) 0 1 (fun i => stb (dst + i) c);
  ret dst.

Fixpoint strchr_loop (fuel : nat) (s c : Z) : M umem Z :=
  match fuel with
  | O => fun _ => Spin
  | S f =>
    let! x := ldb s in
    if x =? 0 then ret 0
    else if x =? c then ret s else strchr_loop f (s + 1) c
  end.
Definition strchr (s c : Z) : M umem Z := bounded (fun n => strchr_loop n s c).

Fixpoint atoi_loop (fuel : nat) (s n : Z) : M umem Z :=
  match fuel with
  | O => fun _ => Spin
  | S f =>
    let! c := ldb s in
    if (48 <=? c) && (c <=? 57) then atoi_loop f (s + 1) (i32 (n * 10 + c - 48)) else ret n
  end.
Definition atoi (s : Z) : M umem Z := bounded (fun n => atoi_loop n s 0).

(** Upwards when the source is above the destination, else downwards from the
    end; nothing when [n] is negative. *)
Definition memmove (vdst vsrc n : Z) : M umem Z :=
  let copy i := let! b := ldb (vsrc + i) in stb (vdst + i) b in
  do! (if vdst <? vsrc then mloop (Z.to_nat n) 0 1 copy
       else mloop (Z.to_nat n) (n - 1) (-1) copy);
  ret vdst.

Definition memcmp (s1 s2 n : Z) : M umem Z :=
  let! r := mfor (Z.to_nat n) 0 1 (fun i =>
    let! c1 := ldb (s1 + i) in
    let! c2 := ldb (s2 + i) in
    ret (if c1 =? c2 then None else Some (c1 - c2))) in
  ret (default 0 r).

(** The count is a [uint] here and an [int] there. *)
Definition memcpy (dst src n : Z) : M umem Z := memmove dst src (i32 n).

(** ** Strings in memory *)

(** The bytes [l] at [a]; every byte of the memory is a byte. *)
Definition bytes_at (m : umem) (a : Z) (l : list Z) : Prop :=
  forall i b, l !! i = Some b -> m !! (a + Z.of_nat i) = Some b.
Definition string_at (m : umem) (a : Z) (s : list Z) : Prop := ~ 0 ∈ s /\ bytes_at m a (s ++ [0]).
Definition mem_ok (m : umem) : Prop := map_Forall (fun _ b => 0 <= b < 256) m.

(** Room for [n] bytes at [a]. *)
Definition room (m : umem) (a n : Z) : Prop := forall i, 0 <= i < n -> is_Some (m !! (a + i)).

(** The memory after [n] bytes at [src] were moved to [dst]. *)
Definition moved (m m' : umem) (dst src n : Z) : Prop :=
  forall a, m' !! a = if (dst <=? a) && (a <? dst + n) then m !! (a - dst + src) else m !! a.

(** The reference for comparisons: the difference at the first position where
    the strings, each followed by a NUL, differ. *)
Fixpoint compare_ref (p q : list Z) : Z :=
  match p, q with
  | [], [] => 0
  | c :: _, [] => c
  | [], d :: _ => - d
  | c :: p', d :: q' => if c =? d then compare_ref p' q' else c - d
  end.

(** ** Lemmas *)

Lemma wp_ldb a b (Q : Z -> umem -> Prop) m : m !! a = Some b -> Q b m -> wp (ldb a) Q m.
Proof. intros H HQ. unfold wp, ldb. now rewrite H. Qed.
Lemma wp_stb a v (Q : unit -> umem -> Prop) m : is_Some (m !! a) -> Q tt (<[a := u8 v]> m) -> wp (stb a v) Q m.
Proof. intros [b H] HQ. unfold wp, stb. now rewrite H. Qed.
Lemma wp_bounded {A : Type} (f : nat -> M umem A) Q m : wp (f (S (size m))) Q m -> wp (bounded f) Q m.
Proof. done. Qed.

Lemma bytes_cons m a b l : bytes_at m a (b :: l) <-> m !! a = Some b /\ bytes_at m (a + 1) l.
Proof.
  split.
  - intros H. split; [specialize (H 0%nat b eq_refl); now rewrite Z.add_0_r in H|].
    intros i c Hi. specialize (H (S i) c Hi). now replace (a + 1 + Z.of_nat i) with (a + Z.of_nat (S i)) by lia.
  - intros [H0 H1] [|i] c Hi; [injection Hi as <-; now rewrite Z.add_0_r|].
    replace (a + Z.of_nat (S i)) with (a + 1 + Z.of_nat i) by lia. now apply H1.
Qed.
Lemma string_cons m a b s : string_at m a (b :: s) <-> m !! a = Some b /\ b <> 0 /\ string_at m (a + 1) s.
Proof. unfold string_at. change ((b :: s) ++ [0]) with (b :: (s ++ [0])). rewrite bytes_cons, not_elem_of_cons. naive_solver. Qed.
Lemma string_nil m a : string_at m a [] <-> m !! a = Some 0.
Proof.
  unfold string_at. change ([] ++ [0]) with [0]. rewrite bytes_cons. split; [tauto|]. intros H. split; [apply not_elem_of_nil|]. split; [done|]. intros i c Hi. discriminate.
Qed.

(** A string is shorter than the memory that holds it. *)
Lemma bytes_size l : forall m a, bytes_at m a l -> (length l <= size m)%nat.
Proof.
  induction l as [|b l IH]; intros m a H; simpl; [lia|]. apply bytes_cons in H as [H0 H1].
  assert (bytes_at (delete a m) (a + 1) l) as H2.
  { intros i c Hi. rewrite lookup_delete_ne by lia. now apply H1. }
  specialize (IH _ _ H2). rewrite map_size_delete_Some in IH by eauto.
  assert (size m <> 0)%nat; [|lia]. apply map_size_non_empty_iff. intros ->. now rewrite lookup_empty in H0.
Qed.
Lemma string_fuel m a s : string_at m a s -> (length s < S (size m))%nat.
Proof. intros [_ H]. apply bytes_size in H. rewrite length_app in H. simpl in H. lia. Qed.

Lemma bytes_frame m m' a l : bytes_at m a l -> (forall i, 0 <= i < Z.of_nat (length l) -> m' !! (a + i) = m !! (a + i)) -> bytes_at m' a l.
Proof. intros H Hf i b Hi. pose proof (lookup_lt_Some _ _ _ Hi). rewrite Hf by lia. now apply H. Qed.

(** [strcpy] to a place that does not overlap the string. *)
Lemma strcpy_loop_spec t : forall f m a b, (length t < f)%nat -> mem_ok m -> string_at m b t -> room m a (Z.of_nat (length t) + 1) ->
  a + Z.of_nat (length t) < b \/ b + Z.of_nat (length t) < a ->
  wp (strcpy_loop f a b) (fun _ m' => moved m m' a b (Z.of_nat (length t) + 1)) m.
Proof.
  induction t as [|c t IH]; intros [|f] m a b Hf Hm Ht Hr Hd; simpl in Hf; try lia; simpl strcpy_loop.
  - apply string_nil in Ht. wsteps. eapply wp_ldb; [done|]. wsteps. apply wp_stb; [specialize (Hr 0 ltac:(simpl; lia)); now rewrite Z.add_0_r in Hr|].
    rewrite Z.eqb_refl. wsteps. intros x. simpl length. destruct (decide (x = a)) as [->|Hne].
    + rewrite lookup_insert_eq, Z.leb_refl, (proj2 (Z.ltb_lt a _)) by lia. simpl. now replace (a - a + b) with b by lia.
    + rewrite lookup_insert_ne by done. destruct (Z.leb_spec a x), (Z.ltb_spec x (a + (Z.of_nat 0 + 1))); simpl; try done. lia.
  - apply string_cons in Ht as (Hb & Hc & Ht). wsteps. eapply wp_ldb; [done|]. wsteps.
    apply wp_stb; [specialize (Hr 0 ltac:(lia)); now rewrite Z.add_0_r in Hr|]. rewrite u8_small by (apply (Hm b); exact Hb).
    replace (c =? 0) with false by lia. simpl length in *.
    eapply wp_mono; [apply (IH f)|].
    + lia.
    + apply map_Forall_insert_2; [apply (Hm b); exact Hb|done].
    + destruct Ht as [H0 Ht]. split; [done|]. apply (bytes_frame m); [done|]. rewrite length_app. simpl length. intros i Hi. rewrite lookup_insert_ne by lia. done.
    + intros i Hi. destruct (Hr (i + 1)) as [y Hy]; [lia|]. replace (a + 1 + i) with (a + (i + 1)) by lia. rewrite lookup_insert_ne by lia. eauto.
    + lia.
    + intros [] m' Hm' x. rewrite Hm'. destruct (decide (x = a)) as [->|Hne].
      * replace (a + 1 <=? a) with false by lia. simpl. rewrite lookup_insert_eq, Z.leb_refl, (proj2 (Z.ltb_lt a _)) by lia. simpl. now replace (a - a + b) with b by lia.
      * replace (x - (a + 1) + (b + 1)) with (x - a + b) by lia.
        destruct (Z.leb_spec (a + 1) x), (Z.ltb_spec x (a + 1 + (Z.of_nat (length t) + 1))), (Z.leb_spec a x), (Z.ltb_spec x (a + (Z.of_nat (S (length t)) + 1))); simpl; try lia; rewrite lookup_insert_ne by lia; done.
Qed.
Lemma strcpy_spec m a b t : mem_ok m -> string_at m b t -> room m a (Z.of_nat (length t) + 1) ->
  a + Z.of_nat (length t) < b \/ b + Z.of_nat (length t) < a ->
  wp (strcpy a b) (fun r m' => r = a /\ moved m m' a b (Z.of_nat (length t) + 1)) m.
Proof.
  intros Hm Ht Hr Hd. unfold strcpy. wsteps. apply wp_bounded. eapply wp_mono; [apply (strcpy_loop_spec t); try done; now apply (string_fuel m b)|].
  intros [] m' H. now wsteps.
Qed.

Lemma strcmp_loop_spec p : forall q f m a b, (length p < f)%nat -> string_at m a p -> string_at m b q ->
  wp (strcmp_loop f a b) (fun r m' => r = compare_ref p q /\ m' = m) m.
Proof.
  induction p as [|c p IH]; intros q [|f] m a b Hf Hp Hq; simpl in Hf; try lia; simpl strcmp_loop.
  - apply string_nil in Hp. wsteps. eapply wp_ldb; [done|]. rewrite Z.eqb_refl. wsteps. eapply wp_ldb; [done|]. wsteps.
    destruct q as [|d q]; [apply string_nil in Hq|apply string_cons in Hq as (Hq & _)]; (eapply wp_ldb; [exact Hq|]); wsteps; (split; [simpl; lia|done]).
  - apply string_cons in Hp as (Ha & Hc & Hp). wsteps. eapply wp_ldb; [done|]. replace (c =? 0) with false by lia. wsteps.
    destruct q as [|d q]; [apply string_nil in Hq|apply string_cons in Hq as (Hb & Hd & Hq)].
    + eapply wp_ldb; [done|]. wsteps. replace (c =? 0) with false by lia. wsteps. eapply wp_ldb; [done|]. wsteps. eapply wp_ldb; [done|]. wsteps. simpl. split; [lia|done].
    + eapply wp_ldb; [done|]. wsteps. simpl compare_ref. destruct (c =? d); [apply IH; [lia|done|done]|].
      wsteps. eapply wp_ldb; [done|]. wsteps. eapply wp_ldb; [done|]. now wsteps.
Qed.
Lemma strcmp_spec m a b p q : string_at m a p -> string_at m b q -> wp (strcmp a b) (fun r m' => r = compare_ref p q /\ m' = m) m.
Proof. intros Hp Hq. apply wp_bounded, strcmp_loop_spec; try done. now apply (string_fuel m a). Qed.

Lemma compare_ref_eq p : forall q, ~ 0 ∈ p -> ~ 0 ∈ q -> compare_ref p q = 0 <-> p = q.
Proof.
  induction p as [|c p IH]; intros [|d q] Hp Hq; simpl; try rewrite not_elem_of_cons in Hp; try rewrite not_elem_of_cons in Hq; try done.
  - split; [lia|discriminate].
  - split; [lia|discriminate].
  - destruct (Z.eqb_spec c d) as [->|Hne]; [rewrite IH by tauto; split; [now intros ->|congruence]|]. split; [lia|congruence].
Qed.

Lemma strlen_loop_spec s : forall f m a n, (length s < f)%nat -> string_at m (a + n) s ->
  wp (strlen_loop f a n) (fun r m' => r = u32 (n + Z.of_nat (length s)) /\ m' = m) m.
Proof.
  induction s as [|c s IH]; intros [|f] m a n Hf Hs; simpl in Hf; try lia; simpl strlen_loop; wsteps.
  - apply string_nil in Hs. eapply wp_ldb; [done|]. rewrite Z.eqb_refl. wsteps. split; [f_equal; simpl; lia|done].
  - apply string_cons in Hs as (Ha & Hc & Hs). eapply wp_ldb; [done|]. replace (c =? 0) with false by lia.
    replace (a + n + 1) with (a + (n + 1)) in Hs by lia. eapply wp_mono; [apply IH; [lia|exact Hs]|].
    intros r m' [-> ->]. split; [f_equal; simpl length; lia|done].
Qed.
Lemma strlen_user m a s : string_at m a s -> Z.of_nat (length s) < 2147483648 ->
  wp (strlen a) (fun r m' => r = Z.of_nat (length s) /\ m' = m) m.
Proof.
  intros Hs Hl. apply wp_bounded. eapply wp_mono; [apply (strlen_loop_spec s); [now apply (string_fuel m a)|now rewrite Z.add_0_r]|].
  intros r m' [-> ->]. rewrite u32_small by lia. split; [lia|done].
Qed.

(** [strchr] finds the first occurrence. *)
Lemma strchr_loop_spec s c : forall f m a, (length s < f)%nat -> string_at m a s ->
  wp (strchr_loop f a c) (fun r m' => m' = m /\
    match list_find (fun x => x = c) s with Some (i, _) => r = a + Z.of_nat i | None => r = 0 end) m.
Proof.
  induction s as [|x s IH]; intros [|f] m a Hf Hs; simpl in Hf; try lia; simpl strchr_loop; wsteps.
  - apply string_nil in Hs. eapply wp_ldb; [done|]. rewrite Z.eqb_refl. now wsteps.
  - apply string_cons in Hs as (Ha & Hx & Hs). eapply wp_ldb; [done|]. replace (x =? 0) with false by lia.
    cbn [list_find]. destruct (Z.eqb_spec x c) as [->|Hne].
    + wsteps. rewrite decide_True by done. split; [done|lia].
    + rewrite decide_False by done. eapply wp_mono; [apply IH; [lia|exact Hs]|]. intros r m' [-> Hr]. split; [done|].
      destruct (list_find _ s) as [[i y]|]; simpl; [lia|done].
Qed.
Lemma strchr_user m a s c : string_at m a s ->
  wp (strchr a c) (fun r m' => m' = m /\ match list_find (fun x => x = c) s with Some (i, _) => r = a + Z.of_nat i | None => r = 0 end) m.
Proof. intros Hs. apply wp_bounded, strchr_loop_spec; [now apply (string_fuel m a)|done]. Qed.

Lemma memset_user m dst c n : 0 <= n -> room m dst n ->
  wp (memset dst c n) (fun r m' => r = dst /\ forall a, m' !! a = if (dst <=? a) && (a <? dst + n) then Some (u8 c) else m !! a) m.
Proof.
  intros Hn Hr. unfold memset. wsteps.
  eapply wp_mono; [apply (wp_mloop (fun k m' => forall a, m' !! a = if (dst <=? a) && (a <? dst + Z.of_nat k) then Some (u8 c) else m !! a))|].
  - intros a. destruct (Z.leb_spec dst a), (Z.ltb_spec a (dst + Z.of_nat 0)); simpl; done || lia.
  - intros k m' Hk Hm'. replace (0 + Z.of_nat k * 1) with (Z.of_nat k) by lia. apply wp_stb.
    + rewrite Hm'. destruct (_ && _); [eauto|]. apply Hr. lia.
    + intros a. destruct (decide (a = dst + Z.of_nat k)) as [->|Hne].
      * rewrite lookup_insert_eq, (proj2 (Z.leb_le dst _)), (proj2 (Z.ltb_lt _ _)) by lia. done.
      * rewrite lookup_insert_ne, Hm' by done. destruct (Z.leb_spec dst a), (Z.ltb_spec a (dst + Z.of_nat k)), (Z.ltb_spec a (dst + Z.of_nat (S k))); simpl; done || lia.
  - intros [] m' Hm'. wsteps. split; [done|]. intros a. now rewrite Hm', Z2Nat.id by lia.
Qed.

(** One step of a copy: the bytes from [lo] to [hi] have been moved. *)
Definition moving (m m' : umem) (dst src lo hi : Z) : Prop :=
  forall a, m' !! a = if (dst + lo <=? a) && (a <? dst + hi) then m !! (a - dst + src) else m !! a.

Lemma move_byte m m' dst src lo hi lo' hi' i : mem_ok m -> moving m m' dst src lo hi -> is_Some (m !! (dst + i)) -> is_Some (m !! (src + i)) ->
  i < lo \/ hi <= i -> (src + i < dst + lo \/ dst + hi <= src + i) \/ dst = src ->
  (forall a, lo' <= a < hi' <-> lo <= a < hi \/ a = i) ->
  wp (let! b := ldb (src + i) in stb (dst + i) b) (fun _ m'' => moving m m'' dst src lo' hi') m'.
Proof.
  intros Hok Hm [y Hd] [b Hb] Hout Hsrc Hnext. assert (m' !! (src + i) = Some b) as Hb'.
  { rewrite Hm, <- Hb. destruct (Z.leb_spec (dst + lo) (src + i)), (Z.ltb_spec (src + i) (dst + hi)); simpl; try done. f_equal. lia. }
  wsteps. eapply wp_ldb; [exact Hb'|]. apply wp_stb.
  - rewrite Hm. destruct (Z.leb_spec (dst + lo) (dst + i)), (Z.ltb_spec (dst + i) (dst + hi)); simpl; try (rewrite Hd; eauto). lia.
  - rewrite u8_small by (apply (Hok _ _ Hb)). intros a. pose proof (Hnext (a - dst)) as E. destruct (decide (a = dst + i)) as [->|Hne].
    + rewrite lookup_insert_eq, (proj2 (Z.leb_le _ _)), (proj2 (Z.ltb_lt _ _)) by lia. simpl. rewrite <- Hb. f_equal. lia.
    + rewrite lookup_insert_ne, Hm by done.
      destruct (Z.leb_spec (dst + lo) a), (Z.ltb_spec a (dst + hi)), (Z.leb_spec (dst + lo') a), (Z.ltb_spec a (dst + hi')); simpl; done || lia.
Qed.

(** Overlapping or not, the destination gets the bytes the source had. *)
Lemma memmove_user m dst src n : mem_ok m -> 0 <= n -> room m src n -> room m dst n ->
  wp (memmove dst src n) (fun r m' => r = dst /\ moved m m' dst src n) m.
Proof.
  intros Hok Hn Hs Hd. unfold memmove. wsteps. assert (forall a, (dst + n <=? a) && (a <? dst + n) = false) as Hnone.
  { intros a. destruct (Z.leb_spec (dst + n) a), (Z.ltb_spec a (dst + n)); simpl; done || lia. }
  assert (forall m', moving m m' dst src 0 n -> moved m m' dst src n) as Hend.
  { intros m' H a. rewrite H. now rewrite Z.add_0_r. }
  destruct (Z.ltb_spec dst src).
  - eapply wp_mono; [apply (wp_mloop (fun k m' => moving m m' dst src 0 (Z.of_nat k)))|].
    + intros a. destruct (Z.leb_spec (dst + 0) a), (Z.ltb_spec a (dst + Z.of_nat 0)); simpl; done || lia.
    + intros k m' Hk Hm. replace (0 + Z.of_nat k * 1) with (Z.of_nat k) by lia.
      apply (move_byte m m' dst src 0 (Z.of_nat k)); try done; [apply Hd; lia|apply Hs; lia|lia|lia|intros a; lia].
    + intros [] m' Hm. wsteps. split; [done|]. apply Hend. now rewrite Z2Nat.id in Hm by lia.
  - eapply wp_mono; [apply (wp_mloop (fun k m' => moving m m' dst src (n - Z.of_nat k) n))|].
    + intros a. change (Z.of_nat 0) with 0. now rewrite Z.sub_0_r, Hnone.
    + intros k m' Hk Hm. replace (n - 1 + Z.of_nat k * -1) with (n - 1 - Z.of_nat k) by lia.
      apply (move_byte m m' dst src (n - Z.of_nat k) n); try done; [apply Hd; lia|apply Hs; lia|lia|lia|intros a; lia].
    + intros [] m' Hm. wsteps. split; [done|]. apply Hend. rewrite Z2Nat.id in Hm by lia. now replace (n - n) with 0 in Hm by lia.
Qed.

(** [memcmp]: zero for equal bytes, else the difference of the first two that
    differ. *)
Fixpoint diff_ref (p q : list Z) : Z :=
  match p, q with c :: p', d :: q' => if c =? d then diff_ref p' q' else c - d | _, _ => 0 end.
Lemma memcmp_loop p : forall q m a b i, length p = length q -> bytes_at m (a + i) p -> bytes_at m (b + i) q ->
  wp (mfor (length p) i 1 (fun i => let! c1 := ldb (a + i) in let! c2 := ldb (b + i) in ret (if c1 =? c2 then None else Some (c1 - c2))))
    (fun r m' => default 0 r = diff_ref p q /\ m' = m) m.
Proof.
  induction p as [|c p IH]; intros [|d q] m a b i Hl Hp Hq; simpl in Hl; try lia; simpl mfor; [now wsteps|].
  apply bytes_cons in Hp as [Ha Hp]. apply bytes_cons in Hq as [Hb Hq]. wsteps. eapply wp_ldb; [done|]. wsteps. eapply wp_ldb; [done|]. wsteps.
  simpl diff_ref. destruct (c =? d); [|now wsteps]. apply IH; [lia| |]; now rewrite Z.add_assoc.
Qed.
Lemma memcmp_user m a b p q : length p = length q -> bytes_at m a p -> bytes_at m b q ->
  wp (memcmp a b (Z.of_nat (length p))) (fun r m' => r = diff_ref p q /\ m' = m) m.
Proof.
  intros Hl Hp Hq. unfold memcmp. rewrite Nat2Z.id. wsteps. eapply wp_mono; [apply (memcmp_loop p q); [done|now rewrite Z.add_0_r|now rewrite Z.add_0_r]|].
  intros r m' [H ->]. now wsteps.
Qed.

(** The number that decimal digits denote. *)
Definition is_digit (c : Z) : bool := (48 <=? c) && (c <=? 57).
Definition decimal_from (n : Z) (ds : list Z) : Z := foldl (fun a c => a * 10 + (c - 48)) n ds.
Lemma decimal_mono ds : forall n, 0 <= n -> Forall (fun c => is_digit c = true) ds -> n <= decimal_from n ds.
Proof.
  induction ds as [|c ds IH]; intros n Hn Hd; [done|]. apply Forall_cons in Hd as [Hc Hd]. unfold is_digit in Hc. simpl.
  specialize (IH (n * 10 + (c - 48)) ltac:(lia) Hd). unfold decimal_from in *. lia.
Qed.
Lemma atoi_loop_spec ds : forall f m s n c, (length ds < f)%nat -> bytes_at m s (ds ++ [c]) -> Forall (fun c => is_digit c = true) ds -> is_digit c = false ->
  0 <= n -> decimal_from n ds < 2147483648 ->
  wp (atoi_loop f s n) (fun r m' => r = decimal_from n ds /\ m' = m) m.
Proof.
  induction ds as [|d ds IH]; intros [|f] m s n c Hf Hb Hd Hc Hn Hv; simpl in Hf; try lia; simpl app in Hb; apply bytes_cons in Hb as [H0 Hb]; simpl atoi_loop; wsteps; (eapply wp_ldb; [done|]).
  - unfold is_digit in Hc. rewrite Hc. now wsteps.
  - apply Forall_cons in Hd as [Hd0 Hd]. unfold is_digit in Hd0. rewrite Hd0. pose proof (decimal_mono ds (n * 10 + (d - 48)) ltac:(lia) Hd) as Hle.
    unfold decimal_from in *. simpl in Hv. replace (n * 10 + d - 48) with (n * 10 + (d - 48)) by lia. rewrite i32_small by lia.
    apply (IH f m (s + 1) _ c); try done; lia.
Qed.
Lemma atoi_user m s ds c : bytes_at m s (ds ++ [c]) -> Forall (fun c => is_digit c = true) ds -> is_digit c = false -> decimal_from 0 ds < 2147483648 ->
  wp (atoi s) (fun r m' => r = decimal_from 0 ds /\ m' = m) m.
Proof.
  intros Hb Hd Hc Hv. apply wp_bounded. apply (atoi_loop_spec ds _ m s 0 c); try done.
  pose proof (bytes_size _ _ _ Hb) as Hl. rewrite length_app in Hl. simpl in Hl. lia.
Qed.
