(* ===== verification/Uprintf.v ===== *)
(** * Formatted output of the user programs (user/printf.c)

    [vprintf] writes one byte at a time to its descriptor; here it returns
    the bytes, or [None] when an argument is missing or the buffer of
    [printint] overflows.  [vprintf_correct] reads a format as a sequence of
    items and says what each of them prints. *)

From S2P Require Import Prelude.
From S2P Require Import Kstring.
From S2P Require Import Printk.
From S2P Require Import Ulib.

(** ** Operations *)

Definition digits (d : Z) : Z := if d <? 10 then 48 + d else 55 + d.

(** The bytes in [buf], of 20 bytes, in the order they are stored. *)
Definition buf_put (c : Z) (buf : list Z) : option (list Z) :=
  if (length buf <? 20)%nat then Some (buf ++ [c]) else None.

(** The do-while loop; a 64-bit number has at most 64 digits. *)
Fixpoint fill (fuel : nat) (x base : Z) (buf : list Z) : option (list Z) :=
  match fuel with
  | O => None
  | S f =>
    buf' ← buf_put (digits (x mod base)) buf;
    if x / base =? 0 then Some buf' else fill f (x / base) base buf'
  end.

Definition printint (xx base : Z) (sgn : bool) : option (list Z) :=
  let neg := sgn && (xx <? 0) in
  let x := if neg then u64 (- xx) else u64 xx in
  buf ← fill 64 x base [];
  buf ← (if neg then buf_put 45 buf else Some buf);
  Some (reverse buf).

(** The loop prints the top digit and shifts [x] left. *)
Fixpoint ptr_loop (n : nat) (x : Z) : list Z :=
  match n with O => [] | S n' => digits (Z.shiftr x 60) :: ptr_loop n' (u64 (Z.shiftl x 4)) end.
Definition printptr (x : Z) : list Z := 48 :: 120 :: ptr_loop 16 x.

(** A conversion of a number: what it prints and how many characters after
    [c0] it takes. *)
Definition conversion (c0 c1 c2 : Z) : option ((Z -> option (list Z)) * nat) :=
  if c0 =? 100 then Some (fun x => printint (i32 x) 10 true, 0%nat)
  else if (c0 =? 108) && (c1 =? 100) then Some (fun x => printint (i64 x) 10 true, 1%nat)
  else if (c0 =? 108) && (c1 =? 108) && (c2 =? 100) then Some (fun x => printint (i64 x) 10 true, 2%nat)
  else if c0 =? 117 then Some (fun x => printint (u32 x) 10 false, 0%nat)
  else if (c0 =? 108) && (c1 =? 117) then Some (fun x => printint (i64 x) 10 false, 1%nat)
  else if (c0 =? 108) && (c1 =? 108) && (c2 =? 117) then Some (fun x => printint (i64 x) 10 false, 2%nat)
  else if c0 =? 120 then Some (fun x => printint (u32 x) 16 false, 0%nat)
  else if (c0 =? 108) && (c1 =? 120) then Some (fun x => printint (i64 x) 16 false, 1%nat)
  else if (c0 =? 108) && (c1 =? 108) && (c2 =? 120) then Some (fun x => printint (i64 x) 16 false, 2%nat)
  else if c0 =? 112 then Some (fun x => Some (printptr (u64 x)), 0%nat)
  else if c0 =? 99 then Some (fun x => Some [u8 x], 0%nat)
  else None.

(** [state] is 0 or a percent sign.  Every round takes a character. *)
Fixpoint vprintf_loop (fuel : nat) (state : Z) (fmt : list Z) (ap : list parg) : option (list Z) :=
  match fmt with
  | [] => Some []
  | c0 :: fmt' =>
    match fuel with
    | O => None
    | S f =>
      if c0 =? 0 then Some []
      else if state =? 0 then
        if c0 =? 37 then vprintf_loop f 37 fmt' ap else (c0 ::.) <$> vprintf_loop f 0 fmt' ap
      else
        let c1 := default 0 (fmt' !! 0%nat) in
        let c2 := if c1 =? 0 then 0 else default 0 (fmt' !! 1%nat) in
        match conversion c0 c1 c2 with
        | Some (conv, k) =>
          match ap with
          | PNum x :: ap' => out ← conv x; (out ++.) <$> vprintf_loop f 0 (drop k fmt') ap'
          | _ => None
          end
        | None =>
          if c0 =? 115 then
            match ap with
            | PStr s :: ap' => (cstr (default (str "(null)") s) ++.) <$> vprintf_loop f 0 fmt' ap'
            | _ => None
            end
          else if c0 =? 37 then (37 ::.) <$> vprintf_loop f 0 fmt' ap
          else ([37; c0] ++.) <$> vprintf_loop f 0 fmt' ap
        end
    end
  end.
Definition vprintf (fmt : list Z) (ap : list parg) : option (list Z) := vprintf_loop (length fmt) 0 fmt ap.

(** The descriptor and the bytes written to it. *)
Definition fprintf (fd : Z) (fmt : list Z) (ap : list parg) : option (Z * list Z) := (fd,.) <$> vprintf fmt ap.
Definition printf (fmt : list Z) (ap : list parg) : option (Z * list Z) := (1,.) <$> vprintf fmt ap.

(** ** Numerals *)

Definition digit_value (c : Z) : Z := if c <? 58 then c - 48 else c - 55.
Definition number (base : Z) (l : list Z) : Z := foldl (fun a c => a * base + digit_value c) 0 l.

(** The usual numeral of [x]: digits of the base, no leading zero. *)
Record numeral (base x : Z) (l : list Z) : Prop := {
  nu_digits : Forall (fun c => exists d, 0 <= d < base /\ c = digits d) l;
  nu_value : number base l = x;
  nu_head : exists c l', l = c :: l' /\ (c = 48 -> l' = []);
}.

Lemma udigit_value d : 0 <= d < 16 -> digit_value (digits d) = d.
Proof. intros H. unfold digits, digit_value. destruct (Z.ltb_spec d 10); [destruct (Z.ltb_spec (48 + d) 58)|destruct (Z.ltb_spec (55 + d) 58)]; lia. Qed.
Lemma digits_zero d : 0 <= d -> digits d = 48 -> d = 0.
Proof. unfold digits. destruct (Z.ltb_spec d 10); lia. Qed.
Lemma unumber_snoc base l c : number base (l ++ [c]) = number base l * base + digit_value c.
Proof. unfold number. now rewrite foldl_app. Qed.

Lemma fill_spec base (Hb : 1 < base <= 16) k : forall f x buf, 0 <= x < base ^ Z.of_nat (S k) -> (S k <= f)%nat -> (length buf + S k <= 20)%nat ->
  exists ds, fill f x base buf = Some (buf ++ reverse ds) /\ numeral base x ds /\ (length ds <= S k)%nat.
Proof.
  induction k as [|k IH]; intros [|f] x buf Hx Hf Hl; try lia; simpl fill; unfold buf_put; rewrite (proj2 (Nat.ltb_lt (length buf) 20)) by lia; simpl;
    pose proof (Z.mod_pos_bound x base ltac:(lia)) as Hm; pose proof (Z.div_mod x base ltac:(lia)) as Hd.
  - change (Z.of_nat 1) with 1 in Hx. rewrite Z.pow_1_r in Hx. rewrite Z.div_small, Z.mod_small by lia. simpl. exists [digits x]. split; [done|]. split; [|done].
    constructor; [repeat constructor; exists x; split; [lia|done]|unfold number; simpl; rewrite udigit_value by lia; lia|eauto].
  - destruct (Z.eqb_spec (x / base) 0) as [E|E].
    + exists [digits (x mod base)]. split; [done|]. split; [|simpl; lia].
      constructor; [repeat constructor; exists (x mod base); split; [lia|done]|unfold number; simpl; rewrite udigit_value by lia; lia|eauto].
    + destruct (IH f (x / base) (buf ++ [digits (x mod base)])) as (ds & Hfill & [N1 N2 (c & l' & N3 & N4)] & Hlen); [|lia|rewrite length_app; simpl; lia|].
      { rewrite Nat2Z.inj_succ, Z.pow_succ_r in Hx by lia. split; [apply Z.div_pos; lia|apply Z.div_lt_upper_bound; lia]. }
      exists (ds ++ [digits (x mod base)]). split; [rewrite Hfill, reverse_app, <- app_assoc; done|]. split; [|rewrite length_app; simpl; lia].
      constructor.
      * apply Forall_app. split; [done|]. repeat constructor. exists (x mod base). split; [lia|done].
      * rewrite unumber_snoc, udigit_value, N2 by lia. lia.
      * exists c, (l' ++ [digits (x mod base)]). split; [now rewrite N3|]. intros Hc. specialize (N4 Hc). subst. exfalso. apply E. rewrite <- N2. reflexivity.
Qed.

(** What a number prints: a minus sign and the numeral of its absolute
    value. *)
Definition shows_number (base v : Z) (out : list Z) : Prop :=
  exists ds, out = (if v <? 0 then 45 :: ds else ds) /\ numeral base (Z.abs v) ds.

(** The buffer is large enough for every 64-bit number. *)
Lemma printint_signed v : -9223372036854775808 <= v < 9223372036854775808 -> exists out, printint v 10 true = Some out /\ shows_number 10 v out.
Proof.
  intros Hv. unfold printint. simpl andb. set (x := if v <? 0 then u64 (- v) else u64 v).
  assert (x = Z.abs v) as Ex by (unfold x; destruct (Z.ltb_spec v 0); rewrite u64_small; lia).
  destruct (fill_spec 10 ltac:(lia) 18 64 x []) as (ds & Hf & Hn & Hl); [change (10 ^ Z.of_nat 19) with 10000000000000000000; lia|lia|simpl; lia|].
  rewrite Hf. simpl. unfold shows_number. destruct (v <? 0); simpl.
  - unfold buf_put. rewrite length_reverse, (proj2 (Nat.ltb_lt _ 20)) by lia. simpl. eexists. split; [done|]. exists ds. rewrite reverse_app, reverse_involutive, Ex in *. done.
  - eexists. split; [done|]. exists ds. rewrite reverse_involutive, <- Ex. done.
Qed.
Lemma printint_unsigned v base : base = 10 \/ base = 16 -> exists out, printint v base false = Some out /\ numeral base (u64 v) out.
Proof.
  intros Hb. unfold printint. cbn [andb]. pose proof (u64_range v) as Hr.
  destruct (fill_spec base ltac:(lia) 19 64 (u64 v) []) as (ds & Hf & Hn & Hl); [|lia|simpl; lia|].
  { split; [lia|]. apply (Z.lt_le_trans _ 18446744073709551616); [lia|]. destruct Hb as [->| ->]; vm_compute; discriminate. }
  rewrite Hf. simpl. rewrite reverse_involutive. eauto.
Qed.

(** ** Formats *)

Inductive width := Wint | Wlong | Wlonglong.
Inductive radix := Rdec | Runsigned | Rhex.

(** One item of a format with its argument.  [Other] is a character that is
    not a conversion, after a percent sign. *)
Inductive item : Type :=
| Text (c : Z)
| Num (w : width) (r : radix) (x : Z)
| Ptr (x : Z)
| Chr (x : Z)
| Str (s : option (list Z))
| Percent
| Other (c : Z).

Definition item_ok (i : item) : Prop :=
  match i with
  | Text c => c <> 0 /\ c <> 37
  | Str (Some s) => ~ 0 ∈ s
  | Other c => c ∉ [0; 37; 99; 100; 108; 112; 115; 117; 120]
  | _ => True
  end.
Definition item_fmt (i : item) : list Z :=
  match i with
  | Text c => [c]
  | Num w r _ =>
    37 :: match w with Wint => [] | Wlong => [108] | Wlonglong => [108; 108] end
       ++ [match r with Rdec => 100 | Runsigned => 117 | Rhex => 120 end]
  | Ptr _ => [37; 112]
  | Chr _ => [37; 99]
  | Str _ => [37; 115]
  | Percent => [37; 37]
  | Other c => [37; c]
  end.
Definition item_args (i : item) : list parg :=
  match i with
  | Num _ _ x | Ptr x | Chr x => [PNum x]
  | Str s => [PStr s]
  | _ => []
  end.

(** What an item prints. *)
Definition item_shows (i : item) (out : list Z) : Prop :=
  match i with
  | Text c => out = [c]
  | Num w Rdec x => shows_number 10 (match w with Wint => i32 x | _ => i64 x end) out
  | Num w Runsigned x => numeral 10 (match w with Wint => u32 x | _ => u64 x end) out
  | Num w Rhex x => numeral 16 (match w with Wint => u32 x | _ => u64 x end) out
  | Ptr x => exists ds, out = str "0x" ++ ds /\ length ds = 16%nat /\ number 16 ds = u64 x
  | Chr x => out = [u8 x]
  | Str s => out = default (str "(null)") s
  | Percent => out = [37]
  | Other c => out = [37; c]
  end.

Lemma i64_range x : -9223372036854775808 <= i64 x < 9223372036854775808.
Proof. unfold i64. pose proof (u64_range x). destruct (Z.ltb_spec (u64 x) 9223372036854775808); lia. Qed.
Lemma u64_i64 x : u64 (i64 x) = u64 x.
Proof.
  unfold i64. destruct (_ <? _); unfold u64; [now rewrite Z.mod_mod by lia|].
  replace (x mod 18446744073709551616 - 18446744073709551616) with (x mod 18446744073709551616 + (-1) * 18446744073709551616) by lia.
  now rewrite Z_mod_plus_full, Z.mod_mod by lia.
Qed.
Lemma u64_u32 x : u64 (u32 x) = u32 x.
Proof. pose proof (u32_range x). apply u64_small. lia. Qed.

(** The pointer: [n] digits are the top [4 n] bits. *)
Lemma ptr_loop_spec n : forall x a, 0 <= x < 18446744073709551616 -> (n <= 16)%nat ->
  foldl (fun a c => a * 16 + digit_value c) a (ptr_loop n x) = a * 16 ^ Z.of_nat n + x / 16 ^ (16 - Z.of_nat n) /\ length (ptr_loop n x) = n.
Proof.
  induction n as [|n IH]; intros x a Hx Hn; simpl ptr_loop.
  - simpl. change (16 ^ (16 - Z.of_nat 0)) with 18446744073709551616. rewrite Z.div_small by lia. split; [lia|done].
  - simpl foldl. simpl length. rewrite Z.shiftr_div_pow2, Z.shiftl_mul_pow2 by lia. change (2 ^ 60) with (16 ^ 15). change (2 ^ 4) with 16.
    assert (0 <= x / 16 ^ 15 < 16) as Hq by (split; [apply Z.div_pos; lia|apply Z.div_lt_upper_bound; [lia|]; change (16 ^ 15 * 16) with 18446744073709551616; lia]).
    destruct (IH (u64 (x * 16)) (a * 16 + digit_value (digits (x / 16 ^ 15))) (u64_range _) ltac:(lia)) as [-> ->]. split; [|done].
    rewrite udigit_value by done.
    assert (u64 (x * 16) = x mod 16 ^ 15 * 16) as ->.
    { unfold u64. change 18446744073709551616 with (16 ^ 15 * 16). now rewrite Zmult_mod_distr_r. }
    set (k := 15 - Z.of_nat n). replace (16 - Z.of_nat n) with (Z.succ k) by lia. replace (16 - Z.of_nat (S n)) with k by lia.
    rewrite (Z.pow_succ_r 16 k), (Z.mul_comm 16 (16 ^ k)), Z.div_mul_cancel_r by (try apply Z.pow_nonzero; lia).
    rewrite Nat2Z.inj_succ, Z.pow_succ_r by lia.
    assert (16 ^ 15 = 16 ^ Z.of_nat n * 16 ^ k) as E by (rewrite <- Z.pow_add_r by lia; f_equal; lia).
    assert (x / 16 ^ k = x / 16 ^ 15 * 16 ^ Z.of_nat n + x mod 16 ^ 15 / 16 ^ k) as ->; [|lia].
    rewrite <- Z.div_add_l by (apply Z.pow_nonzero; lia). f_equal. rewrite (Z.div_mod x (16 ^ 15)) at 1 by lia. rewrite E at 1. lia.
Qed.

(** More fuel than characters changes nothing. *)
Lemma vprintf_fuel f : forall f' state fmt ap, (length fmt <= f)%nat -> (length fmt <= f')%nat -> vprintf_loop f state fmt ap = vprintf_loop f' state fmt ap.
Proof.
  induction f as [|f IH]; intros f' state [|c0 fmt] ap Hf Hf'; simpl in Hf, Hf'; try lia; [now destruct f'|now destruct f'|].
  destruct f' as [|f']; [lia|]. assert (forall k, (length (drop k fmt) <= f)%nat /\ (length (drop k fmt) <= f')%nat) as Hk by (intros k; rewrite length_drop; lia).
  simpl vprintf_loop. destruct (c0 =? 0); [done|]. destruct (state =? 0); [destruct (c0 =? 37); [|f_equal]; apply IH; lia|].
  destruct (conversion _ _ _) as [[conv k]|].
  - destruct ap as [|[x|] ap]; try done. destruct (conv x); [|done]. simpl. f_equal. apply IH; apply Hk.
  - destruct (c0 =? 115); [destruct ap as [|[x|st] ap]; try done; f_equal; apply IH; lia|]. destruct (c0 =? 37); f_equal; apply IH; lia.
Qed.

(** One round after a percent sign. *)
Lemma conv_round f c0 c1 c2 fmt ap conv k x out : c0 <> 0 -> c1 = default 0 (fmt !! 0%nat) -> c2 = (if c1 =? 0 then 0 else default 0 (fmt !! 1%nat)) ->
  conversion c0 c1 c2 = Some (conv, k) -> conv x = Some out ->
  vprintf_loop (S (S f)) 0 (37 :: c0 :: fmt) (PNum x :: ap) = (out ++.) <$> vprintf_loop f 0 (drop k fmt) ap.
Proof.
  intros H0 -> -> Hc Hx. cbn [vprintf_loop]. rewrite (proj2 (Z.eqb_neq c0 0) H0). change (37 =? 0) with false. change (37 =? 37) with true. change (0 =? 0) with true.
  cbv iota. rewrite Hc, Hx. reflexivity.
Qed.

Lemma text_round f c fmt ap : c <> 0 -> c <> 37 -> vprintf_loop (S f) 0 (c :: fmt) ap = ([c] ++.) <$> vprintf_loop f 0 fmt ap.
Proof. intros H0 H1. cbn [vprintf_loop]. now rewrite (proj2 (Z.eqb_neq c 0) H0), (proj2 (Z.eqb_neq c 37) H1). Qed.
Lemma str_round f st fmt ap : vprintf_loop (S (S f)) 0 (37 :: 115 :: fmt) (PStr st :: ap) = (cstr (default (str "(null)") st) ++.) <$> vprintf_loop f 0 fmt ap.
Proof. reflexivity. Qed.
Lemma percent_round f fmt ap : vprintf_loop (S (S f)) 0 (37 :: 37 :: fmt) ap = ([37] ++.) <$> vprintf_loop f 0 fmt ap.
Proof. reflexivity. Qed.
Lemma other_round f c fmt ap : item_ok (Other c) -> vprintf_loop (S (S f)) 0 (37 :: c :: fmt) ap = ([37; c] ++.) <$> vprintf_loop f 0 fmt ap.
Proof.
  intros Hok. unfold item_ok in Hok.
  assert (forall d, d ∈ [0; 37; 99; 100; 108; 112; 115; 117; 120] -> (c =? d) = false) as Hne by (intros d Hd; apply Z.eqb_neq; congruence).
  cbn [vprintf_loop]. change (37 =? 0) with false. change (37 =? 37) with true. change (0 =? 0) with true. cbv iota.
  unfold conversion. rewrite !Hne by set_solver. reflexivity.
Qed.

Lemma num_out w r x : exists out, item_shows (Num w r x) out /\
  printint (match w, r with Wint, Rdec => i32 x | Wint, _ => u32 x | _, _ => i64 x end) (match r with Rhex => 16 | _ => 10 end)
    (match r with Rdec => true | _ => false end) = Some out.
Proof.
  pose proof (i64_range x) as Hl. pose proof (i32_range x) as Hi.
  destruct r; [destruct (printint_signed (match w with Wint => i32 x | _ => i64 x end)) as (out & Ho & Hs); [destruct w; lia|exists out; split; [exact Hs|destruct w; exact Ho]]| |];
    (edestruct (printint_unsigned (match w with Wint => u32 x | _ => i64 x end)) as (out & Ho & Hs); [|exists out; split; [|destruct w; exact Ho]; destruct w; cbn [item_shows]; rewrite ?u64_i64, ?u64_u32 in Hs; exact Hs]); auto.
Qed.

(** One item, then the rest of the format. *)
Lemma vprintf_item i f fmt ap : item_ok i -> (length (item_fmt i ++ fmt) <= f)%nat -> exists out, item_shows i out /\
  vprintf_loop f 0 (item_fmt i ++ fmt) (item_args i ++ ap) = (out ++.) <$> vprintf_loop (length fmt) 0 fmt ap.
Proof.
  intros Hok Hf. rewrite (vprintf_fuel f (S (S (length fmt + 2))) 0 (item_fmt i ++ fmt) (item_args i ++ ap)) by (rewrite length_app in *; destruct i as [|[] []| | | | |]; simpl in *; lia).
  assert (vprintf_loop (S (length fmt + 2)) 0 fmt ap = vprintf_loop (length fmt) 0 fmt ap /\ vprintf_loop (length fmt + 2) 0 fmt ap = vprintf_loop (length fmt) 0 fmt ap) as [E1 E2] by (split; apply vprintf_fuel; lia).
  assert (forall conv c0 c1 c2 k x fmt1 out, c0 <> 0 -> c1 = default 0 (fmt1 !! 0%nat) -> c2 = (if c1 =? 0 then 0 else default 0 (fmt1 !! 1%nat)) ->
    conversion c0 c1 c2 = Some (conv, k) -> conv x = Some out -> drop k fmt1 = fmt ->
    vprintf_loop (S (S (length fmt + 2))) 0 (37 :: c0 :: fmt1) (PNum x :: ap) = (out ++.) <$> vprintf_loop (length fmt) 0 fmt ap) as Hnum.
  { intros conv c0 c1 c2 k x fmt1 out H0 H1 H2 Hc Hx Hd. rewrite (conv_round _ c0 c1 c2 fmt1 ap conv k x out), Hd by done. f_equal. apply vprintf_fuel; lia. }
  destruct i as [c|w r x|x|x|st| |c]; cbn [item_fmt item_args app].
  - exists [c]. split; [done|]. destruct Hok as [H0 H37]. rewrite text_round by done. now rewrite E1.
  - destruct (num_out w r x) as (out & Hs & Ho). exists out. split; [exact Hs|]. destruct w, r; cbn [app]; (eapply Hnum; [done|reflexivity|reflexivity|reflexivity|exact Ho|reflexivity]).
  - exists (printptr (u64 x)). split; [|eapply Hnum; [done|reflexivity|reflexivity|reflexivity|reflexivity|reflexivity]].
    destruct (ptr_loop_spec 16 (u64 x) 0 (u64_range x) ltac:(lia)) as [H1 H2]. exists (ptr_loop 16 (u64 x)). split; [done|]. split; [exact H2|]. unfold number. rewrite H1.
    change (16 ^ (16 - Z.of_nat 16)) with 1. rewrite Z.div_1_r. lia.
  - exists [u8 x]. split; [done|]. eapply Hnum; [done|reflexivity|reflexivity|reflexivity|reflexivity|reflexivity].
  - exists (default (str "(null)") st). split; [done|]. assert (cstr (default (str "(null)") st) = default (str "(null)") st) as E.
    { destruct st as [l|]; [now apply cstr_id|reflexivity]. }
    now rewrite str_round, E, E2.
  - exists [37]. split; [done|]. now rewrite percent_round, E2.
  - exists [37; c]. split; [done|]. now rewrite other_round, E2.
Qed.

(** All the items of a format. *)
Lemma vprintf_items items : Forall item_ok items ->
  exists outs, Forall2 item_shows items outs /\ vprintf (concat (item_fmt <$> items)) (concat (item_args <$> items)) = Some (concat outs).
Proof.
  intros Hok. unfold vprintf. assert (forall f, (length (concat (item_fmt <$> items)) <= f)%nat -> exists outs, Forall2 item_shows items outs /\
    vprintf_loop f 0 (concat (item_fmt <$> items)) (concat (item_args <$> items)) = Some (concat outs)) as H; [|now apply H].
  induction Hok as [|i items Hi _ IH]; intros f Hf; [exists []; split; [constructor|now destruct f]|].
  cbn [fmap list_fmap concat] in *. rewrite length_app in Hf.
  destruct (vprintf_item i f (concat (item_fmt <$> items)) (concat (item_args <$> items)) Hi ltac:(rewrite length_app; lia)) as (out & Ho & ->).
  destruct (IH (length (concat (item_fmt <$> items))) ltac:(lia)) as (outs & Hos & ->). exists (out :: outs). split; [now constructor|done].
Qed.

(** C22: [printf] prints what its format says.  A format of any items, each
    with its argument, prints the items one after the other: characters as
    they are; integers of every width as the numeral without leading zeros,
    signed or unsigned, in decimal or hexadecimal, also the most negative one
    (the buffer never overflows); pointers as sixteen digits; strings, and a
    null pointer as "(null)"; an unknown conversion as itself. *)
Theorem vprintf_correct items : Forall item_ok items ->
  exists outs, Forall2 item_shows items outs /\ vprintf (concat (item_fmt <$> items)) (concat (item_args <$> items)) = Some (concat outs).
Proof. exact (vprintf_items items). Qed.

Lemma vprintf_correct_witness :
  let items := [Text 110; Text 61; Num Wint Rdec (-2147483648); Text 32; Str None; Num Wlong Rhex 255; Other 113] in
  Forall item_ok items /\ exists outs, Forall2 item_shows items outs /\ vprintf (str "n=%d %s%lx%q") [PNum (-2147483648); PStr None; PNum 255] = Some (concat outs).
Proof.
  cbv zeta. match goal with |- Forall _ ?l /\ _ => assert (Forall item_ok l) as H end.
  { repeat constructor; try done; unfold item_ok; set_solver. }
  split; [exact H|]. exact (vprintf_correct _ H).
Defined.

(** ** Reading a number back *)

Lemma numeral_decimal x ds : numeral 10 x ds -> Forall (fun c => is_digit c = true) ds /\ decimal_from 0 ds = x.
Proof.
  intros [Hd <- _]. unfold number, decimal_from. generalize 0 as a. induction Hd as [|c ds (d & Hr & ->) _ IH]; intros a; [done|].
  assert (digits d = 48 + d) as -> by (unfold digits; destruct (Z.ltb_spec d 10); lia).
  destruct (IH (a * 10 + (48 + d - 48))) as [IH1 IH2]. split; [constructor; [unfold is_digit; lia|done]|]. simpl. rewrite IH2. f_equal.
  unfold digit_value. destruct (Z.ltb_spec (48 + d) 58); lia.
Qed.

(** What is printed is read back.  The string that [printf] prints for
    "%d" and a number that is not negative, placed anywhere in the memory of
    a process, is a string that [atoi] reads as the same number. *)
Theorem atoi_printf n : 0 <= n < 2147483648 ->
  exists out, vprintf (str "%d") [PNum n] = Some out /\ ~ 0 ∈ out /\
    forall m a, string_at m a out -> wp (atoi a) (fun r m' => r = n /\ m' = m) m.
Proof.
  intros Hn. destruct (printint_signed n ltac:(lia)) as (out & Ho & ds & -> & Hds). replace (n <? 0) with false in * by lia.
  rewrite Z.abs_eq in Hds by lia. destruct (numeral_decimal _ _ Hds) as [Hdig Hval].
  exists ds. split; [|split].
  - pose proof (conv_round 0 100 0 0 [] [] (fun x => printint (i32 x) 10 true) 0 n ds) as H.
    change (str "%d") with [37; 100]. unfold vprintf. change (length [37; 100]) with 2%nat. rewrite H; try done; [|now rewrite i32_small by lia].
    simpl. now rewrite app_nil_r.
  - intros H0. rewrite Forall_forall in Hdig. specialize (Hdig 0 H0). discriminate.
  - intros m a [_ Hb]. eapply wp_mono; [apply (atoi_user m a ds 0 Hb); [done|reflexivity|lia]|]. intros r m' [-> ->]. now rewrite Hval.
Qed.

Lemma atoi_printf_witness : exists out, vprintf (str "%d") [PNum 370] = Some out /\
  wp (atoi 4096) (fun r m' => r = 370 /\ m' = list_to_map [(4096, 51); (4097, 55); (4098, 48); (4099, 0)]) (list_to_map [(4096, 51); (4097, 55); (4098, 48); (4099, 0)]).
Proof.
  destruct (atoi_printf 370 ltac:(lia)) as (out & Ho & H0 & H). assert (out = [51; 55; 48]) as -> by (vm_compute in Ho; congruence).
  exists [51; 55; 48]. split; [done|]. apply H. split; [done|].
  do 4 (apply bytes_cons; split; [reflexivity|]). intros i b Hi. discriminate.
Defined.
