(* ===== verification/Uthread.v ===== *)
(** * User-level threads (user/uthread.c and user/uthread_switch.S)

    Cooperative threads of one process.  [thread_switch] saves the registers
    that a call preserves and loads those of another thread; what runs next
    is decided by the [ra] and [sp] it loads.  In the model it leaves the
    running code with [Switch], and [run] continues with the code that the
    loaded [ra] names: the entry of a thread, or the place where the thread
    called [thread_switch].

    [tstep] is the view of the threads from outside: the running thread does
    what it likes with its registers and its stack and calls the library. *)

From S2P Require Import Prelude.
From S2P Require Import Printk.
From S2P Require Import Uprintf.

(** ** Data *)

Definition FREE : Z := 0.
Definition RUNNING : Z := 1.
Definition RUNNABLE : Z := 2.
Definition STACK_SIZE : nat := 8192.
Definition MAX_THREAD : nat := 4.
Definition zero_stack : list Z := replicate STACK_SIZE 0.
#[global] Opaque zero_stack.

(** What [ra] holds: the entry of a thread, the place after the call in
    [thread_schedule], or another address. *)
Inductive caddr : Type := Thread_a | Thread_b | Thread_c | After_switch | Addr (a : Z).

Record user_context : Type := Context {
  c_ra : caddr; c_sp : Z; c_s0 : Z; c_s1 : Z; c_s2 : Z; c_s3 : Z; c_s4 : Z; c_s5 : Z;
  c_s6 : Z; c_s7 : Z; c_s8 : Z; c_s9 : Z; c_s10 : Z; c_s11 : Z }.
Definition no_context : user_context := Context (Addr 0) 0 0 0 0 0 0 0 0 0 0 0 0 0.
Definition set_ra (ra : caddr) (c : user_context) : user_context :=
  Context ra (c_sp c) (c_s0 c) (c_s1 c) (c_s2 c) (c_s3 c) (c_s4 c) (c_s5 c) (c_s6 c) (c_s7 c) (c_s8 c) (c_s9 c) (c_s10 c) (c_s11 c).
Definition set_sp (sp : Z) (c : user_context) : user_context :=
  Context (c_ra c) sp (c_s0 c) (c_s1 c) (c_s2 c) (c_s3 c) (c_s4 c) (c_s5 c) (c_s6 c) (c_s7 c) (c_s8 c) (c_s9 c) (c_s10 c) (c_s11 c).

Record thread : Type := Thread { t_stack : list Z; t_state : Z; t_context : user_context }.
Definition set_t_stack x t := Thread x (t_state t) (t_context t).
Definition set_t_state x t := Thread (t_stack t) x (t_context t).
Definition set_t_context x t := Thread (t_stack t) (t_state t) x.

(** [current_thread] is null at first.  [started] and [count] hold the
    variables of the three threads a, b and c; [out] is what was printed and
    [exited] the status of [exit]. *)
Record uproc : Type := UProc {
  all_thread : list thread;
  current_thread : option nat;
  regs : user_context;
  started : list Z;
  count : list Z;
  out : list Z;
  exited : option Z }.
Definition set_all_thread x s := UProc x (current_thread s) (regs s) (started s) (count s) (out s) (exited s).
Definition set_current_thread x s := UProc (all_thread s) x (regs s) (started s) (count s) (out s) (exited s).
Definition set_regs x s := UProc (all_thread s) (current_thread s) x (started s) (count s) (out s) (exited s).
Definition set_started x s := UProc (all_thread s) (current_thread s) (regs s) x (count s) (out s) (exited s).
Definition set_count x s := UProc (all_thread s) (current_thread s) (regs s) (started s) x (out s) (exited s).
Definition set_out x s := UProc (all_thread s) (current_thread s) (regs s) (started s) (count s) x (exited s).
Definition set_exited x s := UProc (all_thread s) (current_thread s) (regs s) (started s) (count s) (out s) x.

Definition the_thread (i : nat) : M uproc thread := fun s => orfault (all_thread s !! i) s.
Definition put_thread (i : nat) (f : thread -> thread) : M uproc unit :=
  let! t := the_thread i in
  modify (fun s => set_all_thread (<[i := f t]> (all_thread s)) s).
Definition current : M uproc nat := fun s => orfault (current_thread s) s.

Section Threads.
(** The address of [all_thread]. *)
Variable base : Z.

(** Stack, state (with padding) and context. *)
Definition sizeof_thread : Z := Z.of_nat STACK_SIZE + 8 + 14 * 8.
Definition stack_top (i : nat) : Z := base + Z.of_nat i * sizeof_thread + Z.of_nat STACK_SIZE.

(** ** Operations *)

Definition uprintf (fmt : list Z) (ap : list parg) : M uproc unit :=
  let! r := orfault (printf fmt ap) in
  modify (fun s => set_out (out s ++ snd r) s).

(** The process ends. *)
Definition uexit (status : Z) : M uproc unit := fun s => Switch (set_exited (Some status) s) (fun _ => Spin).

Definition thread_init : M uproc unit :=
  do! modify (set_current_thread (Some 0%nat));
  put_thread 0 (set_t_state RUNNING).

(** The call leaves its return address in [ra]; the instructions store the 14
    registers, load 14 others and jump to [ra]. *)
Definition thread_switch (old new : nat) : M uproc unit :=
  do! modify (fun s => set_regs (set_ra After_switch (regs s)) s);
  let! r := gets regs in
  do! put_thread old (set_t_context r);
  let! t := the_thread new in
  do! modify (set_regs (t_context t));
  fun s => Switch s (fun s' => Ret tt s').

(** The search of [thread_schedule], [n] rounds from [t]. *)
Fixpoint find_runnable (n t : nat) : M uproc (option nat) :=
  match n with
  | O => ret None
  | S n' =>
    let t := if (MAX_THREAD <=? t)%nat then 0%nat else t in
    let! th := the_thread t in
    if t_state th =? RUNNABLE then ret (Some t) else find_runnable n' (S t)
  end.

Definition thread_schedule : M uproc unit :=
  let! cur := current in
  let! next_thread := find_runnable MAX_THREAD (S cur) in
  match next_thread with
  | None => do! uprintf (str "thread_schedule: no runnable threads" ++ [10]) []; uexit (-1)
  | Some next =>
    if negb (cur =? next)%nat then
      do! put_thread next (set_t_state RUNNING);
      do! modify (set_current_thread (Some next));
      thread_switch cur next
    else ret tt
  end.

(** The first free slot; the loop runs past the array when there is none. *)
Fixpoint find_free (n t : nat) : M uproc nat :=
  match n with
  | O => ret t
  | S n' => let! th := the_thread t in if t_state th =? FREE then ret t else find_free n' (S t)
  end.
Definition thread_create (func : caddr) : M uproc unit :=
  let! t := find_free MAX_THREAD 0 in
  do! put_thread t (set_t_stack zero_stack);
  do! put_thread t (set_t_context no_context);
  do! put_thread t (set_t_state RUNNABLE);
  put_thread t (fun th => set_t_context (set_ra func (set_sp (stack_top t) (t_context th))) th).

Definition thread_yield : M uproc unit :=
  let! cur := current in
  do! put_thread cur (set_t_state RUNNABLE);
  thread_schedule.

(** ** The three threads and [main] *)

(** Thread [i] is called [name] and waits for the others; the wait is resumed
    [patience] times at most. *)
Fixpoint wait_started (patience : nat) (j k : nat) : M uproc unit :=
  match patience with
  | O => fun _ => Spin
  | S p =>
    let! v := gets started in
    if (default 0 (v !! j) =? 0) || (default 0 (v !! k) =? 0) then do! thread_yield; wait_started p j k else ret tt
  end.
Definition thread_body (patience : nat) (name : list Z) (i j k : nat) : M uproc unit :=
  do! uprintf (name ++ str " started" ++ [10]) [];
  do! modify (fun s => set_started (<[i := 1]> (started s)) s);
  do! wait_started patience j k;
  do! mloop 100 0 1 (fun n =>
    do! uprintf (name ++ str " %d" ++ [10]) [PNum n];
    do! modify (fun s => set_count (alter (fun v => i32 (v + 1)) i (count s)) s);
    thread_yield);
  let! v := gets count in
  do! uprintf (name ++ str ": exit after %d" ++ [10]) [PNum (default 0 (v !! i))];
  let! cur := current in
  do! put_thread cur (set_t_state FREE);
  thread_schedule.
Definition thread_a (patience : nat) : M uproc unit := thread_body patience (str "thread_a") 0 1 2.
Definition thread_b (patience : nat) : M uproc unit := thread_body patience (str "thread_b") 1 0 2.
Definition thread_c (patience : nat) : M uproc unit := thread_body patience (str "thread_c") 2 0 1.

Definition main : M uproc unit :=
  do! modify (fun s => set_started [0; 0; 0] s);
  do! modify (fun s => set_count [0; 0; 0] s);
  do! thread_init;
  do! thread_create Thread_a;
  do! thread_create Thread_b;
  do! thread_create Thread_c;
  do! thread_schedule;
  uexit 0.

(** ** Running *)

(** The code at an address, when it is the entry of a thread. *)
Definition code_at (patience : nat) (a : caddr) : option (M uproc unit) :=
  match a with
  | Thread_a => Some (thread_a patience)
  | Thread_b => Some (thread_b patience)
  | Thread_c => Some (thread_c patience)
  | _ => None
  end.

(** [me] is running; [ks] has what the stacks of the others hold: where their
    code continues.  A thread that returns from its function is not covered. *)
Fixpoint run (fuel patience me : nat) (o : outcome uproc unit) (ks : gmap nat (uproc -> outcome uproc unit)) : option uproc :=
  match fuel with
  | O => None
  | S f =>
    match o with
    | Switch s k =>
      match exited s, current_thread s with
      | Some _, _ => Some s
      | None, Some t =>
        let ks := <[me := k]> ks in
        match code_at patience (c_ra (regs s)) with
        | Some body => run f patience t (body s) ks
        | None => k' ← ks !! t; run f patience t (k' s) ks
        end
      | None, None => None
      end
    | _ => None
    end
  end.

End Threads.

(** The memory of a new process is zero. *)
Definition no_thread : thread := Thread zero_stack FREE no_context.
Definition boot (r : user_context) : uproc := UProc (replicate MAX_THREAD no_thread) None r [0; 0; 0] [0; 0; 0] [] None.

(** ** The program *)

Definition line (name : string) (n : nat) : list Z := str name ++ 32 :: (default [] (vprintf (str "%d") [PNum (Z.of_nat n)])) ++ [10].
Definition expected : list Z :=
  str "thread_a started" ++ [10] ++ str "thread_b started" ++ [10] ++ str "thread_c started" ++ [10] ++
  concat ((fun n => line "thread_c" n ++ line "thread_a" n ++ line "thread_b" n) <$> seq 0 100) ++
  str "thread_c: exit after 100" ++ [10] ++ str "thread_a: exit after 100" ++ [10] ++ str "thread_b: exit after 100" ++ [10] ++
  str "thread_schedule: no runnable threads" ++ [10].

(** The program runs to its end.  Wherever the threads are in memory and
    whatever the registers hold at the start, the three threads start, wait
    for each other, print their hundred lines each, taking turns in the order
    c, a, b, and finish; then nothing can run and the process exits with
    status -1.  (The waits are resumed twice at most.) *)
Theorem uthread_runs base r p f :
  (fun s => (exited s, out s)) <$> run (320 + f) (2 + p) 0 (main base (boot r)) ∅ = Some (Some (-1), expected).
Proof. vm_compute. reflexivity. Qed.

(** ** The threads from outside

    [g] remembers for every thread that is not running the registers and the
    stack it had when it last ran, or those it was created with. *)
Notation ghost := (gmap nat (user_context * list Z)).

Section Steps.
Variable base : Z.

Definition stack_of (s : uproc) (t : nat) : list Z := default [] (t_stack <$> all_thread s !! t).

(** The running thread: its registers, its stack, the other variables. *)
Definition works (cur : nat) (s s' : uproc) : Prop :=
  current_thread s = Some cur /\ current_thread s' = Some cur /\ exited s' = None /\
  exists st, all_thread s' = alter (set_t_stack st) cur (all_thread s).

(** What a thread leaves behind when it calls [thread_switch]. *)
Definition leaves (s : uproc) (cur : nat) : user_context * list Z := (set_ra After_switch (regs s), stack_of s cur).

(** The steps: a thread works, creates a thread, yields, ends, or calls
    [thread_schedule] itself, as [main] does, without giving up its state. *)
Inductive tstep : uproc * ghost -> uproc * ghost -> Prop :=
| Ts_work cur s s' g : works cur s s' -> tstep (s, g) (s', g)
| Ts_create f t s s' g : find_free MAX_THREAD 0 s = Ret t s -> thread_create base f s = Ret tt s' ->
    tstep (s, g) (s', <[t := (set_ra f (set_sp (stack_top base t) no_context), zero_stack)]> g)
| Ts_stay s s' g : thread_yield s = Ret tt s' -> tstep (s, g) (s', g)
| Ts_yield cur s s' k g : current_thread s = Some cur -> thread_yield s = Switch s' k -> exited s' = None ->
    tstep (s, g) (s', <[cur := leaves s cur]> g)
| Ts_exit cur s s1 s' k g : current_thread s = Some cur -> put_thread cur (set_t_state FREE) s = Ret tt s1 ->
    thread_schedule s1 = Switch s' k -> exited s' = None -> tstep (s, g) (s', <[cur := leaves s cur]> g)
| Ts_sched_stay s s' g : thread_schedule s = Ret tt s' -> tstep (s, g) (s', g)
| Ts_sched cur s s' k g : current_thread s = Some cur -> thread_schedule s = Switch s' k -> exited s' = None ->
    tstep (s, g) (s', <[cur := leaves s cur]> g).

(** Every thread but the running one is as it left; the running one is not
    free. *)
Record tinv (s : uproc) (g : ghost) : Prop := {
  ti_len : length (all_thread s) = MAX_THREAD;
  ti_cur : exists cur t, current_thread s = Some cur /\ all_thread s !! cur = Some t /\ t_state t <> FREE;
  ti_saved : forall i t, all_thread s !! i = Some t -> current_thread s <> Some i -> t_state t <> FREE ->
    g !! i = Some (t_context t, t_stack t);
}.

Lemma wp_the_thread i t (Q : thread -> uproc -> Prop) s : all_thread s !! i = Some t -> Q t s -> wp (the_thread i) Q s.
Proof. intros H HQ. unfold wp, the_thread. now rewrite H. Qed.
Lemma wp_put_thread i t f (Q : unit -> uproc -> Prop) s : all_thread s !! i = Some t -> Q tt (set_all_thread (<[i := f t]> (all_thread s)) s) -> wp (put_thread i f) Q s.
Proof. intros H HQ. unfold put_thread. wsteps. eapply wp_the_thread; [done|]. now wsteps. Qed.

(** The search: the first runnable thread after [t], around the array. *)
Definition around (t k : nat) : nat := ((t + k) mod MAX_THREAD)%nat.
Lemma find_runnable_spec s : length (all_thread s) = MAX_THREAD -> forall n t, (t <= MAX_THREAD)%nat ->
  wp (find_runnable n t) (fun r s' => s' = s /\ match r with
    | Some u => exists k th, (k < n)%nat /\ u = around t k /\ all_thread s !! u = Some th /\ t_state th = RUNNABLE /\
        forall j th', (j < k)%nat -> all_thread s !! around t j = Some th' -> t_state th' <> RUNNABLE
    | None => forall j th', (j < n)%nat -> all_thread s !! around t j = Some th' -> t_state th' <> RUNNABLE
    end) s.
Proof.
  intros Hl. unfold MAX_THREAD in *. induction n as [|n IH]; intros t Ht; cbn [find_runnable]; [wsteps; split; [done|]; intros; lia|].
  unfold MAX_THREAD in *. set (t' := if (4 <=? t)%nat then 0%nat else t). assert (t' < 4 /\ (t' = t \/ t = 4 /\ t' = 0))%nat as [Ht' Hc].
  { unfold t'. destruct (Nat.leb_spec 4 t); lia. }
  assert (forall k, around t' k = around t k) as Har.
  { intros k. destruct Hc as [->|[-> ->]]; [done|]. unfold around, MAX_THREAD. replace (4 + k)%nat with (0 + k + 1 * 4)%nat by lia. now rewrite Nat.Div0.mod_add. }
  assert (around t' 0 = t') as H0 by (unfold around, MAX_THREAD; rewrite Nat.add_0_r; now apply Nat.mod_small).
  destruct (lookup_lt_is_Some_2 (all_thread s) t') as [th Hth]; [lia|]. wsteps. eapply wp_the_thread; [done|].
  destruct (Z.eqb_spec (t_state th) RUNNABLE) as [E|E].
  - wsteps. split; [done|]. exists 0%nat, th. rewrite <- Har, H0. split; [lia|]. split; [done|]. split; [done|]. split; [done|]. intros; lia.
  - eapply wp_mono; [apply IH; lia|]. intros r s' [-> Hr]. split; [done|].
    assert (forall k, around (S t') k = around t (S k)) as Hs by (intros k; rewrite <- Har; unfold around; f_equal; lia).
    assert (forall k, (forall j th', (j < k)%nat -> all_thread s !! around (S t') j = Some th' -> t_state th' <> RUNNABLE) ->
      forall j th', (j < S k)%nat -> all_thread s !! around t j = Some th' -> t_state th' <> RUNNABLE) as Hall.
    { intros k Hk [|j] th' Hj Hj'; [rewrite <- Har, H0 in Hj'; congruence|]. apply (Hk j th'); [lia|]. now rewrite Hs. }
    destruct r as [u|]; [|now apply Hall]. destruct Hr as (k & th' & Hk & -> & Hu & Hst & Hno). exists (S k), th'. split; [lia|]. rewrite <- Hs.
    split; [done|]. split; [done|]. split; [done|]. now apply Hall.
Qed.

(** The state after a switch from [cur] to [u], where thread [cur] was [tc]
    and thread [u] was [tu]. *)
Definition switched (s : uproc) (cur u : nat) (tc tu : thread) : uproc :=
  set_regs (t_context tu) (set_all_thread (<[cur := set_t_context (set_ra After_switch (regs s)) tc]> (<[u := set_t_state RUNNING tu]> (all_thread s)))
    (set_current_thread (Some u) s)).

Lemma the_thread_Ret i t s : all_thread s !! i = Some t -> the_thread i s = Ret t s.
Proof. intros H. unfold the_thread. now rewrite H. Qed.
Lemma put_thread_Ret i t f s : all_thread s !! i = Some t -> put_thread i f s = Ret tt (set_all_thread (<[i := f t]> (all_thread s)) s).
Proof. intros H. unfold put_thread. now rewrite (bind_Ret _ _ _ _ _ (the_thread_Ret _ _ _ H)). Qed.

Lemma thread_switch_eq s cur u tc tu : all_thread s !! cur = Some tc -> all_thread s !! u = Some tu -> cur <> u ->
  thread_switch cur u s =
  Switch (set_regs (t_context tu) (set_all_thread (<[cur := set_t_context (set_ra After_switch (regs s)) tc]> (all_thread s)) s)) (fun s' => Ret tt s').
Proof.
  intros Hc Hu Hne. unfold thread_switch. erewrite bind_Ret by reflexivity. erewrite bind_Ret by reflexivity.
  erewrite bind_Ret by (apply put_thread_Ret; exact Hc). erewrite bind_Ret by (apply the_thread_Ret; simpl; rewrite list_lookup_insert_ne by done; exact Hu).
  reflexivity.
Qed.

(** The first thread after [cur], going around, that can run. *)
Definition next_of (s : uproc) (cur u : nat) : Prop :=
  exists k, (k < MAX_THREAD)%nat /\ u = around (S cur) k /\
    forall j th, (j < k)%nat -> all_thread s !! around (S cur) j = Some th -> t_state th <> RUNNABLE.

Lemma thread_schedule_cases s cur tc : length (all_thread s) = MAX_THREAD -> current_thread s = Some cur -> all_thread s !! cur = Some tc ->
  (exists u tu, u <> cur /\ all_thread s !! u = Some tu /\ t_state tu = RUNNABLE /\ next_of s cur u /\
     thread_schedule s = Switch (switched s cur u tc tu) (fun s' => Ret tt s')) \/
  (t_state tc = RUNNABLE /\ thread_schedule s = Ret tt s) \/
  (exists s' k, (forall i t, all_thread s !! i = Some t -> t_state t <> RUNNABLE) /\ thread_schedule s = Switch s' k /\ exited s' = Some (-1)).
Proof.
  intros Hl Hcur Hc. pose proof (lookup_lt_Some _ _ _ Hc) as Hlt. rewrite Hl in Hlt.
  destruct (proj1 (wp_Ret _ _ _) (find_runnable_spec s Hl MAX_THREAD (S cur) ltac:(lia))) as (r & s1 & Hr & -> & Hspec).
  assert (current s = Ret cur s) as E0 by (unfold current; now rewrite Hcur). unfold thread_schedule. rewrite (bind_Ret _ _ _ _ _ E0), (bind_Ret _ _ _ _ _ Hr).
  destruct r as [u|].
  - destruct Hspec as (k & tu & Hk & Hu & Hlook & Hrun & Hno). destruct (Nat.eqb_spec cur u) as [<-|Hne]; simpl.
    + right. left. split; [congruence|done].
    + left. exists u, tu. split; [congruence|]. split; [done|]. split; [done|]. split; [now exists k|].
      erewrite bind_Ret by (apply put_thread_Ret; exact Hlook). erewrite bind_Ret by reflexivity.
      rewrite (thread_switch_eq _ cur u tc (set_t_state RUNNING tu)); [reflexivity| | |done]; simpl; [rewrite list_lookup_insert_ne by congruence; exact Hc|].
      rewrite list_lookup_insert_eq; [done|now apply lookup_lt_Some in Hlook].
  - right. right. eexists. eexists. split; [|split; [reflexivity|done]].
    intros i t Hi. pose proof (lookup_lt_Some _ _ _ Hi) as Hil. rewrite Hl in Hil.
    apply (Hspec (((i + MAX_THREAD) - S cur) mod MAX_THREAD)%nat t); [apply Nat.mod_upper_bound; discriminate|].
    rewrite <- Hi. f_equal. unfold around. rewrite Nat.Div0.add_mod_idemp_r. unfold MAX_THREAD in *.
    replace (S cur + (i + 4 - S cur))%nat with (i + 1 * 4)%nat by lia. rewrite Nat.Div0.mod_add. now apply Nat.mod_small.
Qed.

(** A switch keeps the invariant, and the thread that runs next has what it
    had. *)
Lemma switched_inv s g cur u tc tu : length (all_thread s) = MAX_THREAD -> all_thread s !! cur = Some tc -> u <> cur ->
  all_thread s !! u = Some tu -> t_state tu = RUNNABLE ->
  (forall i t, i <> cur -> all_thread s !! i = Some t -> t_state t <> FREE -> g !! i = Some (t_context t, t_stack t)) ->
  tinv (switched s cur u tc tu) (<[cur := (set_ra After_switch (regs s), t_stack tc)]> g) /\
  g !! u = Some (regs (switched s cur u tc tu), stack_of (switched s cur u tc tu) u).
Proof.
  intros Hl Hc Hne Hu Hrun Hg. pose proof (lookup_lt_Some _ _ _ Hc) as Lc. pose proof (lookup_lt_Some _ _ _ Hu) as Lu.
  assert (all_thread (switched s cur u tc tu) !! u = Some (set_t_state RUNNING tu)) as Eu.
  { simpl. rewrite list_lookup_insert_ne, list_lookup_insert_eq by congruence. done. }
  split.
  - constructor.
    + simpl. now rewrite !length_insert.
    + exists u, (set_t_state RUNNING tu). split; [done|]. split; [done|]. discriminate.
    + intros i t Hi Hcur Hfree. destruct (decide (i = cur)) as [->|Hic].
      * simpl in Hi. rewrite list_lookup_insert_eq in Hi by (rewrite length_insert; done). injection Hi as <-. now rewrite lookup_insert_eq.
      * assert (i <> u) by (intros ->; now apply Hcur). simpl in Hi. rewrite !list_lookup_insert_ne in Hi by congruence. rewrite lookup_insert_ne by congruence. now apply Hg.
  - unfold stack_of. rewrite Eu. simpl. apply Hg; [done|done|rewrite Hrun; discriminate].
Qed.

Lemma tinv_put s g cur st tc : tinv s g -> current_thread s = Some cur -> all_thread s !! cur = Some tc ->
  put_thread cur (set_t_state st) s = Ret tt (set_all_thread (<[cur := set_t_state st tc]> (all_thread s)) s) /\
  length (<[cur := set_t_state st tc]> (all_thread s)) = MAX_THREAD /\ <[cur := set_t_state st tc]> (all_thread s) !! cur = Some (set_t_state st tc) /\
  (forall i t, i <> cur -> <[cur := set_t_state st tc]> (all_thread s) !! i = Some t -> t_state t <> FREE -> g !! i = Some (t_context t, t_stack t)).
Proof.
  intros [H1 _ H3] Hcur Hc. split; [now apply put_thread_Ret|]. split; [now rewrite length_insert|]. split; [apply list_lookup_insert_eq; now apply lookup_lt_Some in Hc|].
  intros i t Hi Ht Hf. rewrite list_lookup_insert_ne in Ht by congruence. apply H3; [done|congruence|done].
Qed.

(** The states a switch can lead to, after a yield or an exit. *)
Lemma leave_cases s g cur st : tinv s g -> current_thread s = Some cur -> exists s1, put_thread cur (set_t_state st) s = Ret tt s1 /\
  ((exists s' k, thread_schedule s1 = Switch s' k /\ exited s' <> None) \/
   (st = RUNNABLE /\ thread_schedule s1 = Ret tt s1 /\ tinv s1 g) \/
   (exists u, u <> cur /\ next_of s1 cur u /\ exists s' k, thread_schedule s1 = Switch s' k /\ tinv s' (<[cur := leaves s cur]> g) /\
      current_thread s' = Some u /\ g !! u = Some (regs s', stack_of s' u) /\
      forall i t, i <> u -> i <> cur -> all_thread s !! i = Some t -> exists t', all_thread s' !! i = Some t' /\ t_state t' = t_state t)).
Proof.
  intros Hinv Hcur. destruct (ti_cur _ _ Hinv) as (c & tc & Hc1 & Hc & Hf). assert (c = cur) as -> by congruence.
  destruct (tinv_put s g cur st tc Hinv Hcur Hc) as (Hput & Hl & Hnew & Hg). eexists. split; [exact Hput|]. set (s1 := set_all_thread _ s).
  destruct (thread_schedule_cases s1 cur (set_t_state st tc) Hl Hcur Hnew) as [(u & tu & Hne & Hu & Hrun & Hnext & ->)|[[Hst ->]|(s' & k & _ & -> & He)]].
  - right. right. exists u. split; [done|]. split; [done|]. eexists. eexists. split; [reflexivity|].
    destruct (switched_inv s1 g cur u (set_t_state st tc) tu Hl Hnew Hne Hu Hrun Hg) as [Hi Hr]. split; [|split; [done|split; [done|]]].
    + unfold leaves, stack_of. rewrite Hc. exact Hi.
    + intros i t Hiu Hic Ht. exists t. split; [|done]. simpl. rewrite !list_lookup_insert_ne by congruence. done.
  - right. left. simpl in Hst. subst st. split; [done|]. split; [done|]. constructor; [done| |].
    + exists cur, (set_t_state RUNNABLE tc). split; [done|]. split; [done|discriminate].
    + intros i t Ht Hi Hfr. apply Hg; [|done|done]. intros ->. now apply Hi.
  - left. exists s', k. split; [done|]. congruence.
Qed.

(** A direct call of [thread_schedule] is a leave with the state kept. *)
Lemma put_same s cur tc : all_thread s !! cur = Some tc -> put_thread cur (set_t_state (t_state tc)) s = Ret tt s.
Proof.
  intros Hc. rewrite (put_thread_Ret cur tc) by done. replace (set_t_state (t_state tc) tc) with tc by now destruct tc.
  rewrite list_insert_id by done. now destruct s.
Qed.

(** [thread_create] takes a free slot, or writes past the array. *)
Lemma find_free_spec s : length (all_thread s) = MAX_THREAD -> forall n t, (t + n = MAX_THREAD)%nat ->
  exists u, find_free n t s = Ret u s /\ (u = MAX_THREAD \/ exists th, all_thread s !! u = Some th /\ t_state th = FREE).
Proof.
  intros Hl. induction n as [|n IH]; intros t Ht; cbn [find_free]; [exists t; split; [done|left; lia]|].
  destruct (lookup_lt_is_Some_2 (all_thread s) t) as [th Hth]; [lia|]. rewrite (bind_Ret _ _ _ _ _ (the_thread_Ret _ _ _ Hth)).
  destruct (Z.eqb_spec (t_state th) FREE); [exists t; split; [done|right; eauto]|]. apply IH. lia.
Qed.
Lemma thread_create_spec f s g : tinv s g -> exists t, find_free MAX_THREAD 0 s = Ret t s /\
  ((t = MAX_THREAD /\ thread_create base f s = Fault) \/
   exists s', thread_create base f s = Ret tt s' /\ tinv s' (<[t := (set_ra f (set_sp (stack_top base t) no_context), zero_stack)]> g) /\
     current_thread s' = current_thread s /\ current_thread s <> Some t /\
     forall i th, all_thread s !! i = Some th -> t_state th <> FREE -> all_thread s' !! i = Some th).
Proof.
  intros Hinv. destruct (find_free_spec s (ti_len _ _ Hinv) MAX_THREAD 0 eq_refl) as (t & Hff & Ht). exists t. split; [done|].
  unfold thread_create. rewrite (bind_Ret _ _ _ _ _ Hff). destruct Ht as [->|(th & Hth & Hfree)].
  - left. split; [done|]. apply bind_Fault. unfold put_thread. apply bind_Fault. unfold the_thread. now rewrite lookup_ge_None_2 by (rewrite (ti_len _ _ Hinv); lia).
  - right. pose proof (lookup_lt_Some _ _ _ Hth) as Hlt. repeat (erewrite bind_Ret by (apply put_thread_Ret; simpl; rewrite ?list_lookup_insert_eq by (rewrite ?length_insert; exact Hlt); first [exact Hth|reflexivity])).
    eexists. split; [apply put_thread_Ret; simpl; rewrite list_lookup_insert_eq by (rewrite ?length_insert; exact Hlt); reflexivity|].
    destruct Hinv as [I1 (cur & tc & I2 & I3 & I4) I5]. assert (cur <> t) as Hct by congruence. simpl. rewrite !list_insert_insert_eq. split; [|split; [done|split; [congruence|]]].
    + constructor; simpl.
      * now rewrite length_insert.
      * exists cur, tc. rewrite list_lookup_insert_ne by congruence. done.
      * intros i u Hi Hcur Hf. destruct (decide (i = t)) as [->|Hne].
        -- rewrite list_lookup_insert_eq in Hi by done. injection Hi as <-. now rewrite lookup_insert_eq.
        -- rewrite list_lookup_insert_ne in Hi by congruence. rewrite lookup_insert_ne by congruence. now apply I5.
    + intros i th' Hi Hf. rewrite list_lookup_insert_ne; [done|]. intros ->. congruence.
Qed.

Lemma works_inv cur s s' g : works cur s s' -> tinv s g -> tinv s' g /\ forall i t, i <> cur -> all_thread s !! i = Some t -> all_thread s' !! i = Some t.
Proof.
  intros (H1 & H2 & _ & st & H3) [I1 (c & tc & I2 & I3 & I4) I5]. assert (c = cur) as -> by congruence.
  assert (forall i, i <> cur -> all_thread s' !! i = all_thread s !! i) as Hne by (intros i Hi; rewrite H3; now apply list_lookup_alter_ne).
  split; [|intros i t Hi Ht; now rewrite Hne]. constructor.
  - now rewrite H3, length_alter.
  - exists cur, (set_t_stack st tc). split; [done|]. split; [rewrite H3, list_lookup_alter_eq, I3; done|done].
  - intros i t Hi Hcur Hf. assert (i <> cur) as Hic by congruence. rewrite Hne in Hi by done. apply I5; congruence.
Qed.

(** The threads but [i] and [j] that could run still can. *)
Definition stay_runnable (i j : nat) (s s' : uproc) : Prop :=
  forall n t, n <> i -> n <> j -> all_thread s !! n = Some t -> t_state t = RUNNABLE -> exists t', all_thread s' !! n = Some t' /\ t_state t' = RUNNABLE.
(** A switch to [u], the next thread that can run, with what it had. *)
Definition moves_to (s : uproc) (g : ghost) (s' : uproc) (g' : ghost) (cur u : nat) : Prop :=
  u <> cur /\ g' = <[cur := leaves s cur]> g /\ current_thread s' = Some u /\ g !! u = Some (regs s', stack_of s' u) /\
  (exists k, (k < MAX_THREAD)%nat /\ u = around (S cur) k /\
     forall j t, (j < k)%nat -> around (S cur) j <> cur -> all_thread s !! around (S cur) j = Some t -> t_state t <> RUNNABLE) /\
  stay_runnable u cur s s'.

(** What a step does: it keeps the running thread, or switches. *)
Lemma tstep_cases s g s' g' : tstep (s, g) (s', g') -> tinv s g -> tinv s' g' /\ exists cur, current_thread s = Some cur /\
  ((current_thread s' = Some cur /\ stay_runnable cur cur s s') \/
   (exists u, moves_to s g s' g' cur u)).
Proof.
  intros Hstep Hinv. destruct (ti_cur _ _ Hinv) as (cur & tc & Hcur & Hc & _).
  assert (forall st s1 k, put_thread cur (set_t_state st) s = Ret tt s1 -> thread_schedule s1 = Switch s' k -> exited s' = None -> g' = <[cur := leaves s cur]> g ->
    tinv s' g' /\ exists u, moves_to s g s' g' cur u) as Hswitch.
  { intros st s1 k Hput Hsch He ->. destruct (leave_cases s g cur st Hinv Hcur) as (s1' & Hput' & Hcase). assert (s1' = s1) as -> by congruence.
    destruct Hcase as [(s2 & k2 & E & He2)|[(_ & E & _)|(u & Hne & (k0 & Hk & Hu & Hno) & s2 & k2 & E & Hi & Hcu & Hgu & Hoth)]]; rewrite Hsch in E; try discriminate.
    - injection E as <- _. congruence.
    - injection E as <- _. split; [done|]. exists u. split; [done|]. split; [done|]. split; [done|]. split; [done|]. split.
      + exists k0. split; [done|]. split; [done|]. intros j t Hj Hjc Ht. apply (Hno j t Hj). rewrite (put_thread_Ret cur tc) in Hput by done. injection Hput as <-. simpl.
        now rewrite list_lookup_insert_ne by congruence.
      + intros i t Hiu Hic Ht Hr. destruct (Hoth i t Hiu Hic Ht) as (t' & Ht' & E'). exists t'. split; [done|congruence]. }
  inversion Hstep as [c s0 s0' g0 Hw|f t s0 s0' g0 Hff Hcr|s0 s0' g0 Hy|c s0 s0' k g0 Hc0 Hy He|c s0 s1 s0' k g0 Hc0 Hp Hs He|s0 s0' g0 Hs|c s0 s0' k g0 Hc0 Hs He]; subst.
  - destruct (works_inv c s s' g' Hw Hinv) as [H1 H2]. split; [done|]. destruct Hw as (Hc1 & Hc2 & _). assert (c = cur) as -> by congruence.
    exists cur. split; [done|]. left. split; [done|]. intros i t Hi _ Ht Hr. exists t. split; [now apply H2|done].
  - destruct (thread_create_spec f s g Hinv) as (u & Hff' & [(-> & Hcr')|(s2 & Hcr' & Hi & Hcu & Hne & Hoth)]); [congruence|].
    assert (u = t) as -> by congruence. assert (s2 = s') as -> by congruence. split; [done|]. exists cur. split; [done|]. left. split; [congruence|].
    intros i th _ _ Ht Hr. exists th. split; [apply Hoth; [done|rewrite Hr; discriminate]|done].
  - unfold thread_yield in Hy. assert (current s = Ret cur s) as E0 by (unfold current; now rewrite Hcur). rewrite (bind_Ret _ _ _ _ _ E0) in Hy.
    destruct (leave_cases s g' cur RUNNABLE Hinv Hcur) as (s1 & Hput & Hcase). rewrite (bind_Ret _ _ _ _ _ Hput) in Hy.
    destruct Hcase as [(s2 & k2 & E & _)|[(_ & E & Hi)|(u & _ & _ & s2 & k2 & E & _)]]; rewrite Hy in E; try discriminate. injection E as <-.
    split; [done|]. rewrite (put_thread_Ret cur tc) in Hput by done. injection Hput as <-. exists cur. split; [done|]. left. split; [done|].
    intros i t Hi' _ Ht Hr. exists t. simpl. rewrite list_lookup_insert_ne by congruence. done.
  - assert (c = cur) as -> by congruence. unfold thread_yield in Hy. assert (current s = Ret cur s) as E0 by (unfold current; now rewrite Hcur). rewrite (bind_Ret _ _ _ _ _ E0) in Hy.
    pose proof (put_thread_Ret cur tc (set_t_state RUNNABLE) s Hc) as Hput. rewrite (bind_Ret _ _ _ _ _ Hput) in Hy.
    destruct (Hswitch RUNNABLE _ k Hput Hy He eq_refl) as [Hi H]. split; [done|]. exists cur. split; [done|]. now right.
  - assert (c = cur) as -> by congruence. destruct (Hswitch FREE s1 k Hp Hs He eq_refl) as [Hi H]. split; [done|]. exists cur. split; [done|]. now right.
  - destruct (thread_schedule_cases s cur tc (ti_len _ _ Hinv) Hcur Hc) as [(u & tu & _ & _ & _ & _ & E)|[[_ E]|(s2 & k & _ & E & _)]]; rewrite Hs in E; try discriminate.
    injection E as ->. split; [done|]. exists cur. split; [done|]. left. split; [done|]. intros i t _ _ Ht Hr. eauto.
  - assert (c = cur) as -> by congruence. destruct (Hswitch _ s k (put_same s cur tc Hc) Hs He eq_refl) as [Hi H]. split; [done|]. exists cur. split; [done|]. now right.
Qed.

Lemma tsteps_inv x y : rtc tstep x y -> tinv x.1 x.2 -> tinv y.1 y.2.
Proof. induction 1 as [|[s g] [s1 g1] y Hs _ IH]; [done|]. intros Hi. apply IH. exact (proj1 (tstep_cases s g s1 g1 Hs Hi)). Qed.

Lemma tinit_inv r s : thread_init (boot r) = Ret tt s -> tinv s ∅.
Proof.
  intros H. vm_compute in H. injection H as <-. constructor; [done|exists 0%nat; eexists; split; [done|]; split; [reflexivity|discriminate]|].
  intros [|[|[|[|i]]]] t Ht Hcur Hf; simpl in Ht; try discriminate; injection Ht as <-; exfalso; (now apply Hcur) || now apply Hf.
Qed.

(** C20: a thread resumes where it was.  In every execution of the library
    after [thread_init] (threads work, create threads, yield, end, or call
    [thread_schedule] while they are [RUNNING], as [main] does), whatever the
    threads do with their registers and their own stacks, when a switch makes another thread run, that thread has
    in its registers, [sp] and the saved ones included, and on its stack
    exactly what it had when it last called [thread_switch], with the return
    address in [thread_schedule], or, when it runs for the first time, its
    entry in [ra], an empty stack and [sp] at the top of it. *)
Theorem resumes_exactly r s0 s g s' g' cur u : thread_init (boot r) = Ret tt s0 -> rtc tstep (s0, ∅) (s, g) -> tstep (s, g) (s', g') ->
  current_thread s = Some cur -> current_thread s' = Some u -> u <> cur ->
  g !! u = Some (regs s', stack_of s' u) /\ g' !! cur = Some (set_ra After_switch (regs s), stack_of s cur).
Proof.
  intros H0 Hrun Hstep Hc Hu Hne. pose proof (tsteps_inv _ _ Hrun (tinit_inv _ _ H0)) as Hi. simpl in Hi.
  destruct (tstep_cases s g s' g' Hstep Hi) as (Hi' & c & Hc' & Hcase). assert (c = cur) as -> by congruence. split.
  - destruct Hcase as [[E _]|(v & _ & _ & E & Hg & _)]; [congruence|]. assert (v = u) as -> by congruence. exact Hg.
  - destruct Hcase as [[E _]|(v & _ & -> & _)]; [congruence|]. now rewrite lookup_insert_eq.
Qed.

(** How many threads come before [t] after [cur]. *)
Definition before (cur t : nat) : nat := ((t + MAX_THREAD - S cur) mod MAX_THREAD)%nat.

(** [n] switches, none of them to [t]. *)
Inductive waits (t : nat) : nat -> uproc * ghost -> uproc * ghost -> Prop :=
| Wait_refl x : waits t 0 x x
| Wait_stay n s g s' g' y : tstep (s, g) (s', g') -> current_thread s' = current_thread s -> waits t n (s', g') y -> waits t n (s, g) y
| Wait_switch n s g s' g' y : tstep (s, g) (s', g') -> current_thread s' <> current_thread s -> current_thread s' <> Some t -> waits t n (s', g') y -> waits t (S n) (s, g) y.

Lemma before_switch cur u t k : (cur < 4)%nat -> (t < 4)%nat -> (k < 4)%nat -> u = around (S cur) k -> t <> u -> (before cur t < k)%nat \/ (before u t < before cur t)%nat.
Proof.
  unfold before, around, MAX_THREAD. intros Hc Ht Hk -> Hne.
  destruct cur as [|[|[|[|]]]]; try lia; destruct t as [|[|[|[|]]]]; try lia; destruct k as [|[|[|[|]]]]; try lia; vm_compute in Hne; try (exfalso; now apply Hne); vm_compute; lia.
Qed.
Lemma around_before cur t : (cur < 4)%nat -> (t < 4)%nat -> around (S cur) (before cur t) = t.
Proof. unfold before, around, MAX_THREAD. intros Hc Ht. destruct cur as [|[|[|[|]]]]; try lia; destruct t as [|[|[|[|]]]]; try lia; reflexivity. Qed.

Lemma waits_bound t n x y : waits t n x y -> tinv x.1 x.2 -> forall cur th, current_thread x.1 = Some cur -> cur <> t -> all_thread x.1 !! t = Some th -> t_state th = RUNNABLE ->
  (n <= before cur t)%nat.
Proof.
  induction 1 as [|n s g s' g' y Hs Hsame _ IH|n s g s' g' y Hs Hdiff Ht _ IH]; intros Hi cur th Hc Hne Hth Hrun; simpl in *; [lia| |].
  - destruct (tstep_cases s g s' g' Hs Hi) as (Hi' & c & Hc' & Hcase). assert (c = cur) as -> by congruence.
    destruct Hcase as [[E Hst]|(u & Hu & _ & E & _)]; [|congruence]. destruct (Hst t th ltac:(congruence) ltac:(congruence) Hth Hrun) as (th' & Hth' & Hr'). eapply IH; eauto.
  - destruct (tstep_cases s g s' g' Hs Hi) as (Hi' & c & Hc' & Hcase). assert (c = cur) as -> by congruence.
    destruct Hcase as [[E Hst]|(u & Hu & _ & E & _ & (k & Hk & -> & Hno) & Hst)]; [congruence|].
    destruct (ti_cur _ _ Hi) as (c & tc & Hc1 & Hc2 & _). assert (c = cur) as -> by congruence.
    pose proof (lookup_lt_Some _ _ _ Hth) as Lt. pose proof (lookup_lt_Some _ _ _ Hc2) as Lc. rewrite (ti_len _ _ Hi) in Lt, Lc.
    assert (t <> around (S cur) k) as Htu by congruence.
    destruct (Hst t th Htu ltac:(congruence) Hth Hrun) as (th' & Hth' & Hr'). specialize (IH Hi' _ th' E (not_eq_sym Htu) Hth' Hr').
    destruct (before_switch cur _ t k Lc Lt Hk eq_refl Htu) as [Hb|Hb]; [|lia].
    exfalso. apply (Hno _ th Hb); [rewrite around_before by done; congruence|rewrite around_before by done; exact Hth|done].
Qed.

(** No thread waits long.  In every execution of the library, from any
    moment at which a thread can run, at most two other threads are switched
    to before it is its turn, whatever the threads do: each of the others
    runs once at most. *)
Theorem no_starvation r s0 s g t n y cur th : thread_init (boot r) = Ret tt s0 -> rtc tstep (s0, ∅) (s, g) ->
  current_thread s = Some cur -> cur <> t -> all_thread s !! t = Some th -> t_state th = RUNNABLE -> waits t n (s, g) y -> (n <= 2)%nat.
Proof.
  intros H0 Hrun Hc Hne Hth Hr Hw. pose proof (tsteps_inv _ _ Hrun (tinit_inv _ _ H0)) as Hi. pose proof (waits_bound t n _ y Hw Hi cur th Hc Hne Hth Hr) as Hb.
  assert (before cur t < 3)%nat; [|lia]. destruct (ti_cur _ _ Hi) as (c & tc & Hc1 & Hc2 & _). simpl in *. assert (c = cur) as -> by congruence.
  pose proof (lookup_lt_Some _ _ _ Hth) as Lt. pose proof (lookup_lt_Some _ _ _ Hc2) as Lc. rewrite (ti_len _ _ Hi) in Lt, Lc. unfold before, MAX_THREAD in *.
  destruct cur as [|[|[|[|]]]]; try lia; destruct t as [|[|[|[|]]]]; try lia; vm_compute; lia.
Qed.

End Steps.

Module Example.
Definition state_after (m : M uproc unit) (s : uproc) : uproc := match m s with Ret _ s' => s' | Switch s' _ => s' | _ => s end.
Definition s0 : uproc := state_after thread_init (boot no_context).
Definition s1 : uproc := state_after (thread_create 65536 Thread_a) s0.
Definition s2 : uproc := state_after (thread_create 65536 Thread_b) s1.
(** [main] leaves as it does in the program, by [thread_schedule]; thread a
    then yields to thread b. *)
Definition s3 : uproc := state_after thread_schedule s2.
Definition s4 : uproc := state_after thread_yield s3.
Definition fresh (f : caddr) (t : nat) : user_context * list Z := (set_ra f (set_sp (stack_top 65536 t) no_context), zero_stack).
Definition g2 : ghost := <[2%nat := fresh Thread_b 2]> (<[1%nat := fresh Thread_a 1]> ∅).
Definition g3 : ghost := <[0%nat := leaves s2 0]> g2.
Definition g4 : ghost := <[1%nat := leaves s3 1]> g3.

Lemma created : rtc (tstep 65536) (s0, ∅) (s2, g2).
Proof.
  eapply rtc_l; [apply (Ts_create 65536 Thread_a 1 s0 s1 ∅); vm_compute; reflexivity|].
  eapply rtc_l; [apply (Ts_create 65536 Thread_b 2 s1 s2 (<[1%nat := fresh Thread_a 1]> ∅)); vm_compute; reflexivity|]. apply rtc_refl.
Qed.
Lemma main_left : tstep 65536 (s2, g2) (s3, g3).
Proof. eapply (Ts_sched 65536 0 s2 s3); vm_compute; reflexivity. Qed.
Lemma running : rtc (tstep 65536) (s0, ∅) (s3, g3).
Proof. eapply rtc_r; [exact created|exact main_left]. Qed.
Lemma yielded : tstep 65536 (s3, g3) (s4, g4).
Proof. eapply (Ts_yield 65536 1 s3 s4); vm_compute; reflexivity. Qed.

Lemma resumes_exactly_witness :
  (g2 !! 1%nat = Some (regs s3, stack_of s3 1) /\ g3 !! 0%nat = Some (set_ra After_switch (regs s2), stack_of s2 0)) /\
  (g3 !! 2%nat = Some (regs s4, stack_of s4 2) /\ g4 !! 1%nat = Some (set_ra After_switch (regs s3), stack_of s3 1)).
Proof.
  split; [refine (resumes_exactly 65536 no_context s0 s2 g2 s3 g3 0 1 _ created main_left _ _ _)
    |refine (resumes_exactly 65536 no_context s0 s3 g3 s4 g4 1 2 _ running yielded _ _ _)]; (vm_compute; reflexivity) || discriminate.
Defined.

Lemma no_starvation_witness : waits 65536 2 1 (s2, g2) (s3, g3) /\ (1 <= 2)%nat.
Proof.
  assert (waits 65536 2 1 (s2, g2) (s3, g3)) as Hw.
  { eapply Wait_switch; [exact main_left|discriminate|discriminate|constructor]. }
  split; [exact Hw|]. refine (no_starvation 65536 no_context s0 s2 g2 2 1 (s3, g3) 0 _ _ created _ _ _ _ Hw); [vm_compute; reflexivity|vm_compute; reflexivity|discriminate|vm_compute; reflexivity|vm_compute; reflexivity].
Defined.
End Example.
