(* ===== verification/Uprog.v ===== *)
(** * User programs as interaction trees

    A program is an interaction tree of system calls: it may run for ever,
    and it says nothing about the answers.  [sys] says which answers the
    kernel may give in a state of the files, the descriptors and the output;
    reads from a stream may return any part of what is there.  [wpt Q E t s]:
    under every such answer [t] ends, with a result that satisfies [Q] or by
    [exit] with a status that satisfies [E].  After a fork the child runs
    first, up to its end, and the parent then goes on with its own
    descriptors. *)

From S2P Require Import Prelude.
From S2P Require Import Mach.
From S2P Require Import Kstate.
From S2P Require Import Printk.
From S2P Require Import Uprintf.
From ITree Require Import ITree.

(** ** System calls *)

(** [struct stat] without the device and link count. *)
Record ustat : Type := Stat { s_type : Z; s_ino : Z; s_size : Z }.

(** Requests that a program only passes on. *)
Variant request : Type :=
| Mkdir (path : list Z)
| Unlink (path : list Z)
| Link (old new : list Z)
| Kill (pid : Z)
| Trace (mask : Z)
| Sync.

Variant sysE : Type -> Type :=
| Open (path : list Z) (omode : Z) : sysE Z
| Close (fd : Z) : sysE Z
| Read (fd n : Z) : sysE (option (list Z))
| Write (fd : Z) (bytes : list Z) : sysE Z
| Fstat (fd : Z) : sysE (option ustat)
| Wait : sysE Z
| Ask (q : request) : sysE Z
| Fork : sysE Z
| Exec (path : list Z) (argv : list (list Z)) : sysE Z
| Exit (status : Z) : sysE void.

Notation prog := (itree sysE).
Definition sys_call {R : Type} (e : sysE R) : prog R := ITree.trigger e.
Definition exit_ {R : Type} (status : Z) : prog R := ITree.bind (sys_call (Exit status)) (fun v : void => match v with end).

Declare Scope prog_scope.
#[global] Open Scope prog_scope.
Notation "'let*' x := m 'in' k" := (ITree.bind m (fun x => k)) (at level 10, x name, m at level 100, k at level 200) : prog_scope.
Notation "'do*' m ; k" := (ITree.bind m (fun _ => k)) (at level 10, m at level 100, k at level 200) : prog_scope.

(** [fprintf] writes one byte at a time; a missing argument is not covered. *)
Fixpoint put_bytes (fd : Z) (l : list Z) : prog unit :=
  match l with [] => Ret tt | c :: l' => do* sys_call (Write fd [c]); put_bytes fd l' end.
Definition fprintf_ (fd : Z) (fmt : list Z) (ap : list parg) : prog unit :=
  match vprintf fmt ap with Some l => put_bytes fd l | None => ITree.spin end.

(** ** What the kernel may answer *)

(** A file or directory; an open descriptor has the bytes that are still to
    come, and a stream may deliver them in pieces. *)
Record node : Type := Node { n_stat : ustat; n_bytes : list Z }.
Record ofd : Type := Ofd { h_stat : ustat; h_bytes : list Z; h_stream : bool }.
Record os : Type := Os {
  tree : gmap (list Z) node;
  fds : gmap Z ofd;
  wrote : list (Z * Z);  (** descriptor and byte, in order *)
  ran : list (list Z * list (list Z));  (** the programs started *)
  asked : list (request * Z);  (** the requests with their answers *)
  busy : bool  (** [fork] and [exec] may fail *) }.
Definition set_fds x s := Os (tree s) x (wrote s) (ran s) (asked s) (busy s).
Definition set_wrote x s := Os (tree s) (fds s) x (ran s) (asked s) (busy s).
Definition set_ran x s := Os (tree s) (fds s) (wrote s) x (asked s) (busy s).
(** A request is answered; it may change the files. *)
Definition answer (q : request) (r : Z) (t : gmap (list Z) node) (s : os) : os := Os t (fds s) (wrote s) (ran s) (asked s ++ [(q, r)]) (busy s).
Definition print (fd : Z) (l : list Z) (s : os) : os := set_wrote (wrote s ++ ((fd,.) <$> l)) s.

(** The lowest descriptor that is not open. *)
Definition free_fd (s : os) (fd : Z) : Prop := 0 <= fd < NOFILE /\ fds s !! fd = None /\ forall i, 0 <= i < fd -> is_Some (fds s !! i).

Inductive sys : forall {X : Type}, sysE X -> os -> X -> os -> Prop :=
| Sys_open path m s fd n : tree s !! path = Some n -> free_fd s fd -> sys (Open path m) s fd (set_fds (<[fd := Ofd (n_stat n) (n_bytes n) false]> (fds s)) s)
| Sys_open_fails path m s : tree s !! path = None \/ (forall i, 0 <= i < NOFILE -> is_Some (fds s !! i)) -> sys (Open path m) s (-1) s
| Sys_close fd s h : fds s !! fd = Some h -> sys (Close fd) s 0 (set_fds (delete fd (fds s)) s)
| Sys_read fd n s h k : fds s !! fd = Some h -> (k <= Z.to_nat n)%nat -> (k <= length (h_bytes h))%nat ->
    (k = 0%nat -> h_bytes h = [] \/ n <= 0) -> (h_stream h = false -> k = Nat.min (Z.to_nat n) (length (h_bytes h))) ->
    sys (Read fd n) s (Some (take k (h_bytes h))) (set_fds (<[fd := Ofd (h_stat h) (drop k (h_bytes h)) (h_stream h)]> (fds s)) s)
| Sys_read_bad fd n s : fds s !! fd = None -> sys (Read fd n) s None s
| Sys_write fd l s : sys (Write fd l) s (Z.of_nat (length l)) (print fd l s)
| Sys_fstat fd s h : fds s !! fd = Some h -> sys (Fstat fd) s (Some (h_stat h)) s
| Sys_wait s r : sys Wait s r s
| Sys_ask q s r t : r = 0 \/ r = -1 -> sys (Ask q) s r (answer q r t s).

(** ** Total correctness *)

Inductive wpt {R : Type} : (R -> os -> Prop) -> (Z -> os -> Prop) -> prog R -> os -> Prop :=
| W_ret Q E t s r : observe t = RetF r -> Q r s -> wpt Q E t s
| W_tau Q E t s t' : observe t = TauF t' -> wpt Q E t' s -> wpt Q E t s
| W_exit Q E t s z k : observe t = VisF (Exit z) k -> E z s -> wpt Q E t s
| W_sys Q E t s X (e : sysE X) k : observe t = VisF e k -> (exists x s', sys e s x s') ->
    (forall x s', sys e s x s' -> wpt Q E (k x) s') -> wpt Q E t s
| W_fork Q E t s k P : observe t = VisF Fork k -> (busy s = true -> wpt Q E (k (-1)) s) -> wpt (fun _ _ => False) P (k 0) s ->
    (forall pid z s', 0 < pid -> P z s' -> wpt Q E (k pid) (set_fds (fds s) s')) -> wpt Q E t s
| W_exec Q E t s path argv k : observe t = VisF (Exec path argv) k -> (busy s = true -> wpt Q E (k (-1)) s) ->
    (forall z, E z (set_ran (ran s ++ [(path, argv)]) s)) -> wpt Q E t s.

Lemma observe_bind {R U : Type} (t : prog R) (k : R -> prog U) :
  observe (ITree.bind t k) = match observe t with RetF r => observe (k r) | TauF t' => TauF (ITree.bind t' k) | VisF e h => VisF e (fun x => ITree.bind (h x) k) end.
Proof.
  transitivity (observe (match observe t with RetF r => k r | TauF t' => Tau (ITree.bind t' k) | VisF e h => Vis e (fun x => ITree.bind (h x) k) end)); [reflexivity|].
  now destruct (observe t).
Qed.

Lemma wpt_mono {R : Type} (Q Q' : R -> os -> Prop) (E E' : Z -> os -> Prop) t s :
  wpt Q E t s -> (forall r s', Q r s' -> Q' r s') -> (forall z s', E z s' -> E' z s') -> wpt Q' E' t s.
Proof.
  intros H. revert Q' E'. induction H as [Q E t s r Ho H|Q E t s t' Ho H IH|Q E t s z k Ho H|Q E t s X e k Ho Hx H IH|Q E t s k P Ho Hf IHf Hc IHc Hp IHp|Q E t s path argv k Ho Hf IHf Hz]; intros Q' E' HQ HE.
  - eapply W_ret; eauto.
  - eapply W_tau; eauto.
  - eapply W_exit; eauto.
  - eapply W_sys; eauto.
  - eapply W_fork; [exact Ho|eauto|exact Hc|eauto].
  - eapply W_exec; eauto.
Qed.

(** Only what is observed of a tree matters. *)
Lemma wpt_observe {R : Type} (Q : R -> os -> Prop) E t t' s : observe t' = observe t -> wpt Q E t s -> wpt Q E t' s.
Proof.
  intros Ho H. destruct H; rewrite <- Ho in *; [eapply W_ret|eapply W_tau|eapply W_exit|eapply W_sys|eapply W_fork|eapply W_exec]; eauto.
Qed.

Lemma wpt_bind' {R U : Type} (Q0 : R -> os -> Prop) E (t : prog R) s : wpt Q0 E t s ->
  forall (Q : U -> os -> Prop) k, (forall r s', Q0 r s' -> wpt Q E (k r) s') -> wpt Q E (ITree.bind t k) s.
Proof.
  induction 1 as [Q0 E t s r Ho H|Q0 E t s t' Ho H IH|Q0 E t s z h Ho H|Q0 E t s X e h Ho Hx H IH|Q0 E t s h P Ho Hf IHf Hc IHc Hp IHp|Q0 E t s path argv h Ho Hf IHf Hz];
    intros Q k HQ; pose proof (observe_bind t k) as Eo; rewrite Ho in Eo.
  - exact (wpt_observe _ _ _ _ _ Eo (HQ r s H)).
  - eapply W_tau; [exact Eo|]. now apply IH.
  - eapply W_exit; [exact Eo|done].
  - eapply W_sys; [exact Eo|done|]. intros x s' Hs. now apply (IH x s' Hs).
  - eapply W_fork; [exact Eo|intros Hb; now apply (IHf Hb)|now apply IHc|]. intros pid z s' Hpid Hz. now apply (IHp pid z s' Hpid Hz).
  - eapply W_exec; [exact Eo|intros Hb; now apply (IHf Hb)|done].
Qed.
Lemma wpt_bind {R U : Type} (Q : U -> os -> Prop) E (t : prog R) (k : R -> prog U) s :
  wpt (fun r s' => wpt Q E (k r) s') E t s -> wpt Q E (ITree.bind t k) s.
Proof. intros H. exact (wpt_bind' _ E t s H Q k (fun _ _ H' => H')). Qed.

Lemma wpt_ret {R : Type} (Q : R -> os -> Prop) E r s : Q r s -> wpt Q E (Ret r) s.
Proof. intros H. now eapply W_ret. Qed.
Lemma wpt_exit {R : Type} (Q : R -> os -> Prop) (E : Z -> os -> Prop) z s : E z s -> wpt Q E (exit_ z) s.
Proof. intros H. eapply W_exit; [unfold exit_; rewrite observe_bind; reflexivity|done]. Qed.
Lemma wpt_sys {X : Type} (Q : X -> os -> Prop) E (e : sysE X) s : (exists x s', sys e s x s') -> (forall x s', sys e s x s' -> Q x s') -> wpt Q E (sys_call e) s.
Proof. intros Hx H. eapply W_sys; [reflexivity|done|]. intros x s' Hs. now apply wpt_ret, H. Qed.

(** A loop: one round, then the rest. *)
Lemma wpt_iter {A R : Type} (Q : R -> os -> Prop) E (body : A -> prog (A + R)) a s :
  wpt (fun r s' => match r with inl a' => wpt Q E (ITree.iter body a') s' | inr b => Q b s' end) E (body a) s -> wpt Q E (ITree.iter body a) s.
Proof.
  intros H. assert (wpt Q E (ITree.bind (body a) (fun r => match r with inl a' => Tau (ITree.iter body a') | inr b => Ret b end)) s) as H'.
  { apply wpt_bind. eapply wpt_mono; [exact H| |done]. intros [a'|b] s' Hr; [now eapply W_tau|now apply wpt_ret]. }
  assert (observe (ITree.iter body a) = observe (ITree.bind (body a) (fun r => match r with inl a' => Tau (ITree.iter body a') | inr b => Ret b end))) as Eo by reflexivity.
  exact (wpt_observe _ _ _ _ _ Eo H').
Qed.

Lemma uprint_app fd l l' s : print fd (l ++ l') s = print fd l' (print fd l s).
Proof. unfold print, set_wrote. simpl. now rewrite fmap_app, app_assoc. Qed.
(** What an answer tells. *)
Definition sys_spec {X : Type} (e : sysE X) : os -> X -> os -> Prop :=
  match e in sysE X return os -> X -> os -> Prop with
  | Write fd l => fun s x s' => x = Z.of_nat (length l) /\ s' = print fd l s
  | Open path _ => fun s x s' =>
      (exists n, tree s !! path = Some n /\ free_fd s x /\ s' = set_fds (<[x := Ofd (n_stat n) (n_bytes n) false]> (fds s)) s) \/
      (x = -1 /\ s' = s /\ (tree s !! path = None \/ forall i, 0 <= i < NOFILE -> is_Some (fds s !! i)))
  | Close fd => fun s x s' => x = 0 /\ s' = set_fds (delete fd (fds s)) s
  | Read fd n => fun s x s' =>
      (exists h k, fds s !! fd = Some h /\ (k <= Z.to_nat n)%nat /\ (k <= length (h_bytes h))%nat /\ (k = 0%nat -> h_bytes h = [] \/ n <= 0) /\
         (h_stream h = false -> k = Nat.min (Z.to_nat n) (length (h_bytes h))) /\
         x = Some (take k (h_bytes h)) /\ s' = set_fds (<[fd := Ofd (h_stat h) (drop k (h_bytes h)) (h_stream h)]> (fds s)) s) \/
      (x = None /\ s' = s /\ fds s !! fd = None)
  | Fstat fd => fun s x s' => s' = s /\ exists h, fds s !! fd = Some h /\ x = Some (h_stat h)
  | Ask q => fun s x s' => (x = 0 \/ x = -1) /\ exists t, s' = answer q x t s
  | _ => fun s x s' => s' = s
  end.
Lemma sys_inv {X : Type} (e : sysE X) s x s' : sys e s x s' -> sys_spec e s x s'.
Proof. destruct 1; simpl; eauto 15. Qed.

Lemma wpt_write (Q : Z -> os -> Prop) E fd l s : Q (Z.of_nat (length l)) (print fd l s) -> wpt Q E (sys_call (Write fd l)) s.
Proof. intros H. apply wpt_sys; [eexists; eexists; constructor|]. intros x s' Hs. apply sys_inv in Hs as [-> ->]. done. Qed.
Lemma wpt_put (Q : unit -> os -> Prop) E fd l : forall s, Q tt (print fd l s) -> wpt Q E (put_bytes fd l) s.
Proof.
  induction l as [|c l IH]; intros s H; simpl.
  - apply wpt_ret. unfold print in H. simpl in H. rewrite app_nil_r in H. now destruct s.
  - apply wpt_bind, wpt_write, IH. now rewrite <- uprint_app.
Qed.
Lemma wpt_fprintf (Q : unit -> os -> Prop) E fd fmt ap l s : vprintf fmt ap = Some l -> Q tt (print fd l s) -> wpt Q E (fprintf_ fd fmt ap) s.
Proof. intros Hv H. unfold fprintf_. rewrite Hv. now apply wpt_put. Qed.

(** Reading an open descriptor: the whole request from a file, any part of it
    from a stream, nothing only at the end. *)
Lemma wpt_read (Q : option (list Z) -> os -> Prop) E fd n h s : fds s !! fd = Some h -> 0 < n ->
  (forall k, (k <= Z.to_nat n)%nat -> (k <= length (h_bytes h))%nat -> (k = 0%nat -> h_bytes h = []) -> (h_stream h = false -> k = Nat.min (Z.to_nat n) (length (h_bytes h))) ->
     Q (Some (take k (h_bytes h))) (set_fds (<[fd := Ofd (h_stat h) (drop k (h_bytes h)) (h_stream h)]> (fds s)) s)) ->
  wpt Q E (sys_call (Read fd n)) s.
Proof.
  intros Hh Hn H. apply wpt_sys.
  - eexists. eexists. apply (Sys_read fd n s h (Nat.min (Z.to_nat n) (length (h_bytes h)))); try done; try lia. intros E0. left. apply length_zero_iff_nil. lia.
  - intros x s' Hs. apply sys_inv in Hs as [(h' & k & Hh' & H1 & H2 & H3 & H4 & -> & ->)|(-> & -> & Hn')]; [|congruence].
    assert (h' = h) as -> by congruence. apply H; auto. intros E0. destruct (H3 E0); [done|lia].
Qed.
Lemma wpt_close (Q : Z -> os -> Prop) E fd h s : fds s !! fd = Some h -> Q 0 (set_fds (delete fd (fds s)) s) -> wpt Q E (sys_call (Close fd)) s.
Proof. intros Hh H. apply wpt_sys; [eexists; eexists; econstructor; exact Hh|]. intros x s' Hs. apply sys_inv in Hs as [-> ->]. done. Qed.
Lemma wpt_open (Q : Z -> os -> Prop) E path m n fd s : tree s !! path = Some n -> free_fd s fd ->
  Q fd (set_fds (<[fd := Ofd (n_stat n) (n_bytes n) false]> (fds s)) s) -> wpt Q E (sys_call (Open path m)) s.
Proof.
  intros Hn Hf H. apply wpt_sys; [eexists; eexists; econstructor; eauto|]. intros x s' Hs. destruct Hf as (F1 & F2 & F3).
  apply sys_inv in Hs as [(n' & Hn' & (G1 & G2 & G3) & ->)|(_ & _ & [Hno|Hno])]; [|congruence|].
  - assert (x = fd) as ->; [|congruence]. destruct (Z.lt_trichotomy x fd) as [Hx|[Hx|Hx]]; [|done|].
    + destruct (F3 x) as [? ?]; [lia|congruence].
    + destruct (G3 fd) as [? ?]; [lia|congruence].
  - destruct (Hno fd F1). congruence.
Qed.
Lemma wpt_open_missing (Q : Z -> os -> Prop) E path m s : tree s !! path = None -> Q (-1) s -> wpt Q E (sys_call (Open path m)) s.
Proof.
  intros Hn H. apply wpt_sys; [eexists; eexists; apply Sys_open_fails; now left|]. intros x s' Hs. apply sys_inv in Hs as [(n' & Hn' & _)|(-> & -> & _)]; [congruence|done].
Qed.
Lemma wpt_fstat (Q : option ustat -> os -> Prop) E fd h s : fds s !! fd = Some h -> Q (Some (h_stat h)) s -> wpt Q E (sys_call (Fstat fd)) s.
Proof. intros Hh H. apply wpt_sys; [eexists; eexists; econstructor; exact Hh|]. intros x s' Hs. apply sys_inv in Hs as (-> & h' & Hh' & ->). now replace h' with h by congruence. Qed.
(** [fork], [exec] and [wait] as the callers use them. *)
Lemma wpt_fork {R : Type} (Q : R -> os -> Prop) E (k : Z -> prog R) s P : (busy s = true -> wpt Q E (k (-1)) s) -> wpt (fun _ _ => False) P (k 0) s ->
  (forall pid z s', 0 < pid -> P z s' -> wpt Q E (k pid) (set_fds (fds s) s')) -> wpt Q E (let* pid := sys_call Fork in k pid) s.
Proof.
  intros H1 H2 H3. eapply W_fork; [rewrite observe_bind; reflexivity| | |]; cbn beta.
  - intros Hb. eapply wpt_observe; [|exact (H1 Hb)]. now rewrite observe_bind.
  - eapply wpt_observe; [|exact H2]. now rewrite observe_bind.
  - intros pid z s' Hp Hz. eapply wpt_observe; [|exact (H3 pid z s' Hp Hz)]. now rewrite observe_bind.
Qed.
Lemma wpt_exec {R : Type} (Q : R -> os -> Prop) (E : Z -> os -> Prop) path argv (k : Z -> prog R) s : (busy s = true -> wpt Q E (k (-1)) s) -> (forall z, E z (set_ran (ran s ++ [(path, argv)]) s)) ->
  wpt Q E (let* r := sys_call (Exec path argv) in k r) s.
Proof. intros H1 H2. eapply W_exec; [rewrite observe_bind; reflexivity| |exact H2]. intros Hb. eapply wpt_observe; [|exact (H1 Hb)]. now rewrite observe_bind. Qed.
Lemma wpt_wait (Q : Z -> os -> Prop) E s : (forall r, Q r s) -> wpt Q E (sys_call Wait) s.
Proof. intros H. apply wpt_sys; [exists 0, s; constructor|]. intros x s' Hs. apply sys_inv in Hs. simpl in Hs. subst. done. Qed.
Lemma wpt_ask (Q : Z -> os -> Prop) E q s : (forall r t, r = 0 \/ r = -1 -> Q r (answer q r t s)) -> wpt Q E (sys_call (Ask q)) s.
Proof.
  intros H. apply wpt_sys; [exists 0, (answer q 0 (tree s) s); constructor; now left|]. intros x s' Hs. apply sys_inv in Hs as (Hx & t & ->). now apply H.
Qed.
