(* ===== verification/Utils.v ===== *)
(** * The small user programs (user/cat.c, user/wc.c, user/echo.c,
      user/xargs.c, user/find.c)

    Strings are the bytes before their NUL.  [chunks] splits a text at
    separators; it is the reference for words and lines. *)

From S2P Require Import Prelude.
From S2P Require Import Mach.
From S2P Require Import Kstring.
From S2P Require Import Kstate.
From S2P Require Import Printk.
From S2P Require Import Fs.
From S2P Require Import Sysfile.
From S2P Require Import Uprintf.
From S2P Require Import Uprog.
From ITree Require Import ITree.

(** [for (i = 1; i < argc; i++)]. *)
Fixpoint each {A : Type} (f : A -> prog unit) (l : list A) : prog unit :=
  match l with [] => Ret tt | x :: l' => do* f x; each f l' end.

(** A message with its newline. *)
Definition msg (s : string) : list Z := str s ++ [10].

(** ** cat *)

Definition cat (fd : Z) : prog unit :=
  ITree.iter (fun _ : unit =>
    let* n := sys_call (Read fd 512) in
    match n with
    | None => do* fprintf_ 2 (msg "cat: read error") []; exit_ 1
    | Some [] => Ret (inr tt)
    | Some buf =>
      let* r := sys_call (Write 1 buf) in
      if r =? Z.of_nat (length buf) then Ret (inl tt)
      else do* fprintf_ 2 (msg "cat: write error") []; exit_ 1
    end) tt.
Definition cat_file (name : list Z) : prog unit :=
  let* fd := sys_call (Open name O_RDONLY) in
  if fd <? 0 then do* fprintf_ 2 (msg "cat: cannot open %s") [PStr (Some name)]; exit_ 1
  else do* cat fd; do* sys_call (Close fd); Ret tt.
Definition cat_main (argv : list (list Z)) : prog unit :=
  if (length argv <=? 1)%nat then do* cat 0; exit_ 0
  else do* each cat_file (drop 1 argv); exit_ 0.

(** ** wc *)

(** [strchr(" \r\t\n\v", c)]. *)
Definition space (c : Z) : bool := (c =? 32) || (c =? 13) || (c =? 9) || (c =? 10) || (c =? 11).
Definition counts : Type := Z * Z * Z * bool.
Definition count_byte (st : counts) (b : Z) : counts :=
  let '(l, w, c, inword) := st in
  let c := i32 (c + 1) in
  let l := if b =? 10 then i32 (l + 1) else l in
  if space b then (l, w, c, false)
  else if inword then (l, w, c, true) else (l, i32 (w + 1), c, true).
Definition wc_body (fd : Z) (st : counts) : prog (counts + counts) :=
  let* n := sys_call (Read fd 512) in
  match n with
  | None => do* fprintf_ 1 (msg "wc: read error") []; exit_ 1
  | Some [] => Ret (inr st)
  | Some buf => Ret (inl (foldl count_byte st buf))
  end.
Definition wc (fd : Z) (name : list Z) : prog unit :=
  let* r := ITree.iter (wc_body fd) (0, 0, 0, false) in
  let '(l, w, c, _) := r in
  fprintf_ 1 (msg "%d %d %d %s") [PNum l; PNum w; PNum c; PStr (Some name)].
Definition wc_file (name : list Z) : prog unit :=
  let* fd := sys_call (Open name O_RDONLY) in
  if fd <? 0 then do* fprintf_ 1 (msg "wc: cannot open %s") [PStr (Some name)]; exit_ 1
  else do* wc fd name; do* sys_call (Close fd); Ret tt.
Definition wc_main (argv : list (list Z)) : prog unit :=
  if (length argv <=? 1)%nat then do* wc 0 []; exit_ 0
  else do* each wc_file (drop 1 argv); exit_ 0.

(** ** echo *)

Fixpoint echo_args (args : list (list Z)) : prog unit :=
  match args with
  | [] => Ret tt
  | a :: rest =>
    do* sys_call (Write 1 a);
    do* sys_call (Write 1 (match rest with [] => [10] | _ => [32] end));
    echo_args rest
  end.
Definition echo_main (argv : list (list Z)) : prog unit := do* echo_args (drop 1 argv); exit_ 0.

(** ** xargs *)

(** Run the command on the line in [buf]. *)
Definition run_line (argv : list (list Z)) (buf : list Z) : prog unit :=
  let new_argv := drop 1 argv ++ [cstr buf] in
  let* pid := sys_call Fork in
  if pid =? 0 then
    do* sys_call (Exec (default [] (argv !! 1%nat)) new_argv);
    do* fprintf_ 2 (msg "xargs: exec failed") [];
    exit_ 1
  else do* sys_call Wait; Ret tt.
(** The loop: [buf] holds the part of the current line that was read. *)
Definition xargs_body (argv : list (list Z)) (buf : list Z) : prog (list Z + unit) :=
  let* ret := sys_call (Read 0 1) in
  match ret with
  | None => do* fprintf_ 2 (msg "xargs: read error") []; exit_ 1
  | Some [] => do* (if (0 <? length buf)%nat then run_line argv buf else Ret tt); Ret (inr tt)
  | Some (c :: _) =>
    if c =? 10 then do* (if (0 <? length buf)%nat then run_line argv buf else Ret tt); Ret (inl [])
    else if (length buf <? 511)%nat then Ret (inl (buf ++ [c]))
    else do* fprintf_ 2 (msg "xargs: line too long") []; exit_ 1
  end.

(** [new_argv] has [MAXARG] entries and ends with a null pointer. *)
Definition xargs_main (argv : list (list Z)) : prog unit :=
  if (length argv <? 2)%nat then do* fprintf_ 2 (msg "xargs: missing command") []; exit_ 1
  else if MAXARG <=? Z.of_nat (length argv) then ITree.spin
  else
    do* ITree.iter (xargs_body argv) [];
    exit_ 0.

(** ** find *)

(** [strchr(s, '/')]; a pointer into a string is the rest of the string. *)
Fixpoint to_slash (s : list Z) : option (list Z) :=
  match s with [] => None | c :: s' => if c =? 47 then Some s else to_slash s' end.
Fixpoint basename_loop (fuel : nat) (prev curr : option (list Z)) : option (list Z) :=
  match curr, fuel with
  | Some p, S f => basename_loop f curr (to_slash (drop 1 p))
  | _, _ => prev
  end.
Definition basename (pathname : list Z) : option (list Z) := basename_loop (length pathname) None (to_slash pathname).

(** The path below [path] for a directory entry. *)
Definition child (path : list Z) (de : dirent) : list Z := path ++ 47 :: cstr (de_name de).
Definition visible (de : dirent) : bool :=
  negb ((de_inum de =? 0) || bool_decide (cstr (de_name de) = str ".") || bool_decide (cstr (de_name de) = str "..")).

(** One round of the loop over a directory; [rec] is the recursive call. *)
Definition find_entry (rec : list Z -> prog unit) (fd : Z) (curr_path : list Z) (_ : unit) : prog (unit + unit) :=
  let* r := sys_call (Read fd DIRENT) in
  match r with
  | Some d =>
    if Z.of_nat (length d) =? DIRENT then
      let de := get_dirent d in
      if visible de then do* rec (child curr_path de); Ret (inl tt) else Ret (inl tt)
    else Ret (inr tt)
  | None => Ret (inr tt)
  end.

(** The path of every level is longer than the last one and must fit into
    [buf]; [fuel] bounds the levels.  A descriptor for anything but a file or
    a directory is not closed. *)
Fixpoint find (fuel : nat) (curr_path target : list Z) : prog unit :=
  match fuel with
  | O => ITree.spin
  | S f =>
    let* fd := sys_call (Open curr_path O_RDONLY) in
    if fd <? 0 then fprintf_ 2 (msg "find: cannot open %s") [PStr (Some curr_path)]
    else
      let* st := sys_call (Fstat fd) in
      match st with
      | None => do* fprintf_ 2 (msg "find: cannot stat %s") [PStr (Some curr_path)]; do* sys_call (Close fd); Ret tt
      | Some st =>
        if s_type st =? T_FILE then
          do* (match basename curr_path with
               | Some f_name => if bool_decide (drop 1 f_name = target) then fprintf_ 1 (msg "%s") [PStr (Some curr_path)] else Ret tt
               | None => Ret tt
               end);
          do* sys_call (Close fd); Ret tt
        else if s_type st =? T_DIR then
          if (512 <=? length curr_path + 15)%nat then ITree.spin
          else
            do* ITree.iter (find_entry (fun path => find f path target) fd curr_path) tt;
            do* sys_call (Close fd); Ret tt
        else Ret tt
      end
  end.
Definition find_main (argv : list (list Z)) : prog unit :=
  match argv with
  | [_; dir; target] => do* find 512 dir target; exit_ 0
  | _ => do* fprintf_ 2 (msg "usage: find [directory] [target filename]") []; exit_ 1
  end.

(** ** References *)

(** The text between separators. *)
Fixpoint chunks (sep : Z -> bool) (l : list Z) : list (list Z) :=
  match l with
  | [] => [[]]
  | b :: l' => if sep b then [] :: chunks sep l' else match chunks sep l' with c :: cs => (b :: c) :: cs | [] => [[b]] end
  end.
Definition nonempty (l : list Z) : bool := (0 <? length l)%nat.
Definition words (l : list Z) : list (list Z) := filter (fun w => nonempty w = true) (chunks space l).
Definition lines (l : list Z) : list (list Z) := filter (fun w => nonempty w = true) (chunks (Z.eqb 10) l).

Lemma chunks_cons sep l : exists c cs, chunks sep l = c :: cs.
Proof. induction l as [|b l (c & cs & E)]; simpl; [eauto|]. destruct (sep b); [eauto|]. rewrite E. eauto. Qed.
Lemma chunks_app sep l l' : (forall b, b ∈ l -> sep b = false) -> exists c cs, chunks sep l' = c :: cs /\ chunks sep (l ++ l') = (l ++ c) :: cs.
Proof.
  intros H. destruct (chunks_cons sep l') as (c & cs & E). exists c, cs. split; [done|]. induction l as [|b l IH]; simpl; [done|].
  rewrite H by (left). rewrite IH by (intros b' Hb'; apply H; now right). done.
Qed.

(** ** Proofs *)

Lemma wpt_each {A : Type} (f : A -> prog unit) (I : list A -> os -> Prop) (E : Z -> os -> Prop) l : forall s, I l s ->
  (forall x l' s', I (x :: l') s' -> wpt (fun _ s'' => I l' s'') E (f x) s') -> wpt (fun _ s' => I [] s') E (each f l) s.
Proof.
  induction l as [|x l IH]; intros s HI Hf; simpl; [now apply wpt_ret|]. apply wpt_bind. eapply wpt_mono; [apply Hf; exact HI| |done]. intros [] s' H. now apply IH.
Qed.

(** The state after descriptor [fd] was read to the end. *)
Definition drained (fd : Z) (h : ofd) (s : os) : os := set_fds (<[fd := Ofd (h_stat h) [] (h_stream h)]> (fds s)) s.

Lemma cat_spec fd (E : Z -> os -> Prop) : forall n h s, length (h_bytes h) = n -> fds s !! fd = Some h ->
  wpt (fun _ s' => s' = print 1 (h_bytes h) (drained fd h s)) E (cat fd) s.
Proof.
  induction n as [n IH] using lt_wf_ind. intros h s Hn Hh. unfold cat. apply wpt_iter, wpt_bind, (wpt_read _ _ _ _ h); [done|lia|].
  intros k H1 H2 H3 _. destruct k as [|k].
  - rewrite H3 by done. simpl. apply wpt_ret. unfold print. simpl. rewrite app_nil_r. unfold drained, set_wrote. now destruct s.
  - assert (length (take (S k) (h_bytes h)) = S k) as Hl by (apply length_take_le; lia).
    destruct (take (S k) (h_bytes h)) as [|b buf] eqn:Et; [simpl in Hl; lia|].
    apply wpt_bind, wpt_write. rewrite Z.eqb_refl. apply wpt_ret. fold (cat fd).
    eapply wpt_mono; [apply (IH (length (drop (S k) (h_bytes h))) ltac:(rewrite length_drop; lia) (Ofd (h_stat h) (drop (S k) (h_bytes h)) (h_stream h))); [done|simpl; apply lookup_insert_eq]| |done].
    intros [] s' ->. unfold drained. cbn [h_stat h_bytes h_stream fds print set_wrote set_fds]. rewrite insert_insert_eq. unfold print, set_wrote, set_fds. cbn [wrote fds tree ran busy]. f_equal.
    now rewrite <- app_assoc, <- fmap_app, <- Et, take_drop.
Qed.

(** Standard input, output and error are open, and nothing else. *)
Definition std (s : os) : Prop := is_Some (fds s !! 0) /\ is_Some (fds s !! 1) /\ is_Some (fds s !! 2) /\ fds s !! 3 = None.
Lemma std_free s : std s -> free_fd s 3.
Proof. intros (H0 & H1 & H2 & H3). split; [unfold NOFILE; lia|]. split; [done|]. intros i Hi. assert (i = 0 \/ i = 1 \/ i = 2) as [->|[->| ->]] by lia; done. Qed.
Lemma print_std fd l s : std (print fd l s) <-> std s.
Proof. done. Qed.
(** Opening, reading to the end and closing leaves the descriptors alone. *)
Lemma open_close fd h h' l s : fds s !! fd = None ->
  let s1 := print 1 l (drained fd h (set_fds (<[fd := h']> (fds s)) s)) in set_fds (delete fd (fds s1)) s1 = print 1 l s.
Proof.
  intros H. unfold drained, print, set_wrote, set_fds. cbn [tree fds wrote ran asked busy]. now rewrite insert_insert_eq, delete_insert_id.
Qed.

Lemma cat_file_spec name n s E : std s -> tree s !! name = Some n -> wpt (fun _ s' => s' = print 1 (n_bytes n) s) E (cat_file name) s.
Proof.
  intros Hs Hn. pose proof Hs as (_ & _ & _ & H3). unfold cat_file. apply wpt_bind, (wpt_open _ _ _ _ n 3); [done|now apply std_free|]. simpl. apply wpt_bind.
  eapply wpt_mono; [apply (cat_spec 3 _ (length (n_bytes n)) (Ofd (n_stat n) (n_bytes n) false)); [done|simpl; apply lookup_insert_eq]| |done]. intros [] s' ->.
  apply wpt_bind, (wpt_close _ _ _ (Ofd (n_stat n) [] false)); [simpl; apply lookup_insert_eq|]. apply wpt_ret. now apply open_close.
Qed.

(** [cat] copies its files, or its input, to the output. *)
Lemma cat_main_spec prog_name files s : std s -> (forall f, f ∈ files -> is_Some (tree s !! f)) -> files <> [] ->
  wpt (fun _ _ => False) (fun z s' => z = 0 /\ s' = print 1 (concat ((fun f => default [] (n_bytes <$> tree s !! f)) <$> files)) s) (cat_main (prog_name :: files)) s.
Proof.
  intros Hs Hf Hne. unfold cat_main. assert ((length (prog_name :: files) <=? 1)%nat = false) as -> by (destruct files; [done|reflexivity]). apply wpt_bind. simpl drop.
  set (text l := concat ((fun f => default [] (n_bytes <$> tree s !! f)) <$> l)).
  eapply wpt_mono; [apply (wpt_each cat_file (fun l s' => exists l0, files = l0 ++ l /\ s' = print 1 (text l0) s))| |intros z s' H; exact H].
  - exists []. split; [done|]. unfold print. simpl. rewrite app_nil_r. now destruct s.
  - intros x l' s' (l0 & Hl & ->). destruct (Hf x) as [n Hn]; [rewrite Hl; apply elem_of_app; right; left|].
    eapply wpt_mono; [apply (cat_file_spec x n); [exact Hs|exact Hn]| |intros z s'' H; exact H]. intros [] s'' ->. exists (l0 ++ [x]). split; [now rewrite <- app_assoc|].
    rewrite <- uprint_app. unfold text. rewrite fmap_app, concat_app. simpl. rewrite Hn, app_nil_r. done.
  - intros [] s' (l0 & Hl & ->). rewrite app_nil_r in Hl. subst l0. now apply wpt_exit.
Qed.

(** *** Counting *)

Definition newlines (l : list Z) : nat := length (filter (fun b => b = 10) l).
Definition words_left (inword : bool) (l : list Z) : nat :=
  length (filter (fun w => nonempty w = true) (if inword then drop 1 (chunks space l) else chunks space l)).

Lemma words_left_space b inword l : space b = true -> words_left inword (b :: l) = words_left false l.
Proof. intros H. unfold words_left. simpl. rewrite H. now destruct inword. Qed.
Lemma words_left_other b (inword : bool) l : space b = false -> words_left inword (b :: l) = ((if inword then 0 else 1) + words_left true l)%nat.
Proof. intros H. unfold words_left. simpl. rewrite H. destruct (chunks_cons space l) as (c & cs & ->). now destruct inword. Qed.

Lemma count_spec bs : forall l w c inword, 0 <= l <= c -> 0 <= w <= c -> c + Z.of_nat (length bs) < 2147483648 ->
  exists f, foldl count_byte (l, w, c, inword) bs = (l + Z.of_nat (newlines bs), w + Z.of_nat (words_left inword bs), c + Z.of_nat (length bs), f).
Proof.
  induction bs as [|b bs IH]; intros l w c inword Hl Hw Hc; simpl length in *.
  - exists inword. simpl. unfold newlines, words_left. simpl. destruct inword; simpl; do 3 f_equal; lia.
  - simpl foldl. rewrite (i32_small (c + 1)) by lia.
    assert (Z.of_nat (newlines (b :: bs)) = (if b =? 10 then 1 else 0) + Z.of_nat (newlines bs)) as Hn.
    { unfold newlines. destruct (Z.eqb_spec b 10); [rewrite filter_cons_True by done; simpl length; lia|rewrite filter_cons_False by done; lia]. }
    assert ((if b =? 10 then i32 (l + 1) else l) = l + (if b =? 10 then 1 else 0)) as -> by (destruct (b =? 10); [rewrite i32_small by lia|]; lia).
    set (dl := if b =? 10 then 1 else 0) in *. assert (0 <= dl <= 1) as Hdl by (unfold dl; destruct (b =? 10); lia).
    destruct (space b) eqn:Hs.
    + destruct (IH (l + dl) w (c + 1) false) as [f ->]; [lia|lia|lia|]. exists f. rewrite words_left_space, Hn by done. repeat (f_equal; try lia).
    + destruct inword.
      * destruct (IH (l + dl) w (c + 1) true) as [f ->]; [lia|lia|lia|]. exists f. rewrite words_left_other, Hn by done. repeat (f_equal; try lia).
      * rewrite i32_small by lia. destruct (IH (l + dl) (w + 1) (c + 1) true) as [f ->]; [lia|lia|lia|]. exists f. rewrite words_left_other, Hn by done. repeat (f_equal; try lia).
Qed.

Lemma newlines_bound l : 0 <= Z.of_nat (newlines l) <= Z.of_nat (length l).
Proof. unfold newlines. pose proof (length_filter (fun b => b = 10) l). lia. Qed.
Lemma words_bound l : forall inword, 0 <= Z.of_nat (words_left inword l) <= Z.of_nat (length l).
Proof.
  induction l as [|b l IH]; intros inword; [now destruct inword|]. destruct (space b) eqn:Hs.
  - rewrite words_left_space by done. specialize (IH false). simpl length. lia.
  - rewrite words_left_other by done. specialize (IH true). simpl length. destruct inword; lia.
Qed.
Lemma wc_loop fd E n h s st : length (h_bytes h) = n -> fds s !! fd = Some h ->
  wpt (fun r s' => r = foldl count_byte st (h_bytes h) /\ s' = drained fd h s) E (ITree.iter (wc_body fd) st) s.
Proof.
  revert h s st. induction n as [n IH] using lt_wf_ind. intros h s st Hn Hh. apply wpt_iter. unfold wc_body at 1. apply wpt_bind, (wpt_read _ _ _ _ h); [done|lia|].
  intros k H1 H2 H3 _. destruct k as [|k].
  - rewrite H3 by done. simpl. apply wpt_ret. done.
  - assert (length (take (S k) (h_bytes h)) = S k) as Hl by (apply length_take_le; lia).
    destruct (take (S k) (h_bytes h)) as [|b buf] eqn:Et; [simpl in Hl; lia|]. apply wpt_ret.
    eapply wpt_mono; [apply (IH (length (drop (S k) (h_bytes h))) ltac:(rewrite length_drop; lia) (Ofd (h_stat h) (drop (S k) (h_bytes h)) (h_stream h))); [done|simpl; apply lookup_insert_eq]| |done].
    intros r s' [-> ->]. cbn [h_bytes h_stat h_stream]. rewrite <- (take_drop (S k) (h_bytes h)) at 2. rewrite Et, foldl_app. split; [done|].
    unfold drained, set_fds. cbn [tree fds wrote ran asked busy h_stat h_stream]. now rewrite insert_insert_eq.
Qed.

(** A number that is not negative prints as its numeral. *)
Lemma shows_pos v out : 0 <= v -> shows_number 10 v out -> numeral 10 v out.
Proof. intros Hv (ds & -> & Hd). replace (v <? 0) with false by lia. now rewrite Z.abs_eq in Hd by lia. Qed.

(** [wc] counts.  On any descriptor, however its reads cut what is there,
    [wc] ends and prints the numbers of newlines, of words (the pieces between
    blanks that are not empty) and of bytes in decimal, and the name. *)
Theorem wc_counts fd name h s E : fds s !! fd = Some h -> Z.of_nat (length (h_bytes h)) < 2147483648 -> ~ 0 ∈ name ->
  wpt (fun _ s' => exists l w c, numeral 10 (Z.of_nat (newlines (h_bytes h))) l /\ numeral 10 (Z.of_nat (length (words (h_bytes h)))) w /\
    numeral 10 (Z.of_nat (length (h_bytes h))) c /\
    s' = print 1 (l ++ [32] ++ w ++ [32] ++ c ++ [32] ++ name ++ [10]) (drained fd h s)) E (wc fd name) s.
Proof.
  intros Hh Hlen Hname. unfold wc. apply wpt_bind. eapply wpt_mono; [apply (wc_loop fd E _ h s _ eq_refl Hh)| |intros z s' H; exact H]. intros r s' [-> ->].
  destruct (count_spec (h_bytes h) 0 0 0 false) as [f ->]; [lia|lia|lia|]. cbv iota.
  pose proof (newlines_bound (h_bytes h)) as B1. pose proof (words_bound (h_bytes h) false) as B2.
  set (l := Z.of_nat (newlines (h_bytes h))) in *. set (w := Z.of_nat (words_left false (h_bytes h))) in *. set (c := Z.of_nat (length (h_bytes h))) in *.
  destruct (vprintf_items [Num Wint Rdec (0 + l); Text 32; Num Wint Rdec (0 + w); Text 32; Num Wint Rdec (0 + c); Text 32; Str (Some name); Text 10]) as (outs & Hs & Hv).
  { repeat constructor; done. }
  repeat (match goal with H : Forall2 _ (_ :: _) _ |- _ => apply Forall2_cons_inv_l in H as (? & ? & ? & H & ->) end). apply Forall2_nil_inv_l in Hs as ->.
  eapply wpt_fprintf; [exact Hv|]. cbn [item_shows] in *. rewrite !Z.add_0_l, !i32_small in * by lia.
  subst. exists x, x0, x3. split; [apply shows_pos; [lia|done]|]. split; [apply shows_pos; [lia|done]|]. split; [apply shows_pos; [lia|done]|].
  cbn [concat default]. now rewrite app_nil_r.
Qed.

(** *** xargs *)

Definition command (argv : list (list Z)) (line : list Z) : list Z * list (list Z) := (default [] (argv !! 1%nat), drop 1 argv ++ [line]).
(** [l] lines have been run; something may have failed only on a busy
    system. *)
Record ran_lines (argv : list (list Z)) (all l : list (list Z)) (s s' : os) : Prop := {
  rl_ran : ran s' = ran s ++ (command argv <$> l);
  rl_sub : l `sublist_of` all;
  rl_busy : busy s' = busy s;
  rl_all : busy s = false -> l = all /\ wrote s' = wrote s;
}.

Lemma run_line_spec argv buf s E : ~ 0 ∈ buf ->
  wpt (fun _ s' => fds s' = fds s /\ exists l, ran_lines argv [buf] l s s') E (run_line argv buf) s.
Proof.
  intros H0. unfold run_line. rewrite cstr_id by done.
  apply (wpt_fork _ _ _ _ (fun _ s' => exists l, ran_lines argv [buf] l s s')).
  - intros Hb. simpl. apply wpt_bind, wpt_wait. intros _. apply wpt_ret. split; [done|]. exists []. constructor; [now rewrite app_nil_r|apply sublist_nil_l|done|congruence].
  - simpl. apply wpt_exec.
    + intros Hb. apply wpt_bind, (wpt_fprintf _ _ _ _ _ (msg "xargs: exec failed")); [reflexivity|]. apply wpt_exit. exists []. constructor; simpl; [now rewrite app_nil_r|apply sublist_nil_l|done|congruence].
    + intros z. exists [buf]. constructor; simpl; [done|done|done|done].
  - intros pid z s' Hp (l & [R1 R2 R3 R4]). replace (pid =? 0) with false by lia. apply wpt_bind, wpt_wait. intros _. apply wpt_ret. split; [done|]. exists l. now constructor.
Qed.

Lemma ran_trans argv all1 all2 l1 l2 s s1 s2 : ran_lines argv all1 l1 s s1 -> ran_lines argv all2 l2 s1 s2 -> ran_lines argv (all1 ++ all2) (l1 ++ l2) s s2.
Proof.
  intros [A1 A2 A3 A4] [B1 B2 B3 B4]. constructor.
  - now rewrite B1, A1, fmap_app, app_assoc.
  - now apply sublist_app.
  - congruence.
  - intros Hb. destruct (A4 Hb) as [-> Hw]. destruct B4 as [-> ->]; [congruence|]. now rewrite Hw.
Qed.
Lemma ran_none argv s : ran_lines argv [] [] s s.
Proof. constructor; [now rewrite app_nil_r|done|done|done]. Qed.

Lemma maybe_run argv buf s E : ~ 0 ∈ buf ->
  wpt (fun _ s' => fds s' = fds s /\ exists l, ran_lines argv (filter (fun w => nonempty w = true) [buf]) l s s') E (if (0 <? length buf)%nat then run_line argv buf else Ret tt) s.
Proof.
  intros H0. destruct buf as [|b buf]; [apply wpt_ret; split; [done|exists []; apply ran_none]|]. simpl. now apply run_line_spec.
Qed.

Lemma xargs_loop argv E rest : forall buf h s, fds s !! 0 = Some h -> h_bytes h = rest -> ~ 0 ∈ buf ++ rest -> ~ 10 ∈ buf ->
  (forall line, line ∈ chunks (Z.eqb 10) (buf ++ rest) -> (length line <= 511)%nat) ->
  wpt (fun _ s' => exists l, ran_lines argv (lines (buf ++ rest)) l s s') E (ITree.iter (xargs_body argv) buf) s.
Proof.
  induction rest as [|c rest IH]; intros buf h s Hh Hr H0 H10 Hlen; apply wpt_iter; unfold xargs_body at 1; apply wpt_bind, (wpt_read _ _ _ _ h); try done; try lia; rewrite Hr; intros k K1 K2 K3 _; simpl in K2.
  - assert (k = 0%nat) as -> by lia. simpl. apply wpt_bind. rewrite app_nil_r in *. eapply wpt_mono; [apply maybe_run; done| |done].
    intros [] s' (_ & l & Hl). apply wpt_ret. exists l. unfold lines. destruct (chunks_app (Z.eqb 10) buf []) as (c & cs & Ec & Eb); [intros b Hb; apply Z.eqb_neq; congruence|].
    rewrite app_nil_r in Eb. rewrite Eb. injection Ec as <- <-. rewrite app_nil_r. destruct Hl as [R1 R2 R3 R4]. now constructor.
  - assert (k = 1%nat) as -> by (destruct k; [discriminate (K3 eq_refl)|]; change (Z.to_nat 1) with 1%nat in K1; lia). simpl.
    set (s1 := set_fds _ s). assert (fds s1 !! 0 = Some (Ofd (h_stat h) rest (h_stream h))) as Hh1 by (simpl; rewrite lookup_insert_eq; done).
    destruct (chunks_app (Z.eqb 10) buf (c :: rest)) as (c1 & cs & Ec & Eb); [intros b Hb; apply Z.eqb_neq; congruence|].
    destruct (Z.eqb_spec c 10) as [->|Hc].
    + simpl in Ec. injection Ec as <- <-. rewrite app_nil_r in Eb.
      apply wpt_bind. eapply wpt_mono; [apply maybe_run; set_solver| |done]. intros [] s' (Hf & l & Hl). apply wpt_ret.
      eapply wpt_mono; [apply (IH [] (Ofd (h_stat h) rest (h_stream h))); [now rewrite Hf|done|set_solver|set_solver|]| |done].
      * intros line Hin. apply Hlen. rewrite Eb. now right.
      * intros [] s'' (l2 & Hl2). exists (l ++ l2). unfold lines. rewrite Eb. change (buf :: chunks (Z.eqb 10) rest) with ([buf] ++ chunks (Z.eqb 10) rest). rewrite filter_app.
        apply (ran_trans _ _ _ _ _ _ s'); [|exact Hl2]. destruct Hl as [R1 R2 R3 R4]. now constructor.
    + assert (length buf < 511)%nat as Hl.
      { cbn [chunks] in Ec. rewrite (proj2 (Z.eqb_neq 10 c)) in Ec by congruence. destruct (chunks_cons (Z.eqb 10) rest) as (d & ds & Ed). rewrite Ed in Ec. injection Ec as <- <-.
        specialize (Hlen (buf ++ c :: d)). rewrite Eb in Hlen. specialize (Hlen ltac:(left)). rewrite length_app in Hlen. simpl in Hlen. lia. }
      rewrite (proj2 (Nat.ltb_lt _ _) Hl). apply wpt_ret. replace (buf ++ c :: rest) with ((buf ++ [c]) ++ rest) in * by (now rewrite <- app_assoc).
      eapply wpt_mono; [apply (IH (buf ++ [c]) (Ofd (h_stat h) rest (h_stream h))); [done|done|done|set_solver|done]| |done].
      intros [] s' (l & [R1 R2 R3 R4]). exists l. now constructor.
Qed.

(** [xargs] runs its command once per line.  On input without NULs, whose
    lines have at most 511 bytes, [xargs] ends with status 0 and has started
    the command with its arguments and the line as the last one, for every
    line that is not empty, in order, the last one also when it has no
    newline; when [fork] or [exec] fails, lines are left out and the others
    still run. *)
Theorem xargs_runs argv h s : (2 <= length argv)%nat -> Z.of_nat (length argv) < MAXARG -> fds s !! 0 = Some h -> ~ 0 ∈ h_bytes h ->
  (forall line, line ∈ chunks (Z.eqb 10) (h_bytes h) -> (length line <= 511)%nat) ->
  wpt (fun _ _ => False) (fun z s' => z = 0 /\ exists l, ran s' = ran s ++ (command argv <$> l) /\ l `sublist_of` lines (h_bytes h) /\
    (busy s = false -> l = lines (h_bytes h) /\ wrote s' = wrote s)) (xargs_main argv) s.
Proof.
  intros H2 Hmax Hh H0 Hlen. unfold xargs_main. rewrite (proj2 (Nat.ltb_ge _ _) H2), (proj2 (Z.leb_gt _ _) Hmax). apply wpt_bind.
  eapply wpt_mono; [apply (xargs_loop argv _ (h_bytes h) [] h); try done; apply not_elem_of_nil| |intros z s' H; exact H].
  intros [] s' (l & [R1 R2 R3 R4]). apply wpt_exit. eauto.
Qed.

(** *** find *)

(** The specification: the components of a path are the pieces between its
    slashes; the entries of a directory that are not [skipped] name what is
    below it; [below] is what can be reached from a path, and [found] lists
    the files that bear the target's name in the order of the directories. *)
Definition last_component (path : list Z) : option (list Z) :=
  match chunks (Z.eqb 47) path with [] | [_] => None | _ :: cs => last cs end.
Definition entries (l : list Z) : list dirent := (fun j => get_dirent (take 16 (drop (16 * j) l))) <$> seq 0 (length l / 16).
Definition skipped (de : dirent) : Prop := de_inum de = 0 \/ cstr (de_name de) = str "." \/ cstr (de_name de) = str "..".
#[export] Instance skipped_dec de : Decision (skipped de).
Proof. unfold skipped. apply _. Defined.
Definition is_type (tr : gmap (list Z) node) (path : list Z) (ty : Z) : Prop := exists n, tr !! path = Some n /\ s_type (n_stat n) = ty.

Inductive below (tr : gmap (list Z) node) (dir : list Z) : list Z -> Prop :=
| below_start : below tr dir dir
| below_entry path n de : below tr dir path -> tr !! path = Some n -> s_type (n_stat n) = T_DIR -> de ∈ entries (n_bytes n) -> ~ skipped de ->
    below tr dir (path ++ str "/" ++ cstr (de_name de)).

Fixpoint found (fuel : nat) (tr : gmap (list Z) node) (target path : list Z) : list (list Z) :=
  match fuel with
  | O => []
  | S f =>
    match tr !! path with
    | None => []
    | Some n =>
      if s_type (n_stat n) =? T_FILE then
        if bool_decide (last_component path = Some target) then [path] else []
      else if s_type (n_stat n) =? T_DIR then
        concat ((fun de => if bool_decide (skipped de) then [] else found f tr target (path ++ str "/" ++ cstr (de_name de))) <$> entries (n_bytes n))
      else []
    end
  end.

(** The tree below [path] has only files and directories, every entry exists,
    the paths fit into [buf] and [k] descriptors are open already. *)
Fixpoint fits (fuel : nat) (tr : gmap (list Z) node) (path : list Z) (k : Z) : Prop :=
  match fuel with
  | O => False
  | S f =>
    k < NOFILE /\ exists n, tr !! path = Some n /\
    (s_type (n_stat n) = T_FILE \/
     s_type (n_stat n) = T_DIR /\ (length path + 15 < 512)%nat /\
       forall de, de ∈ entries (n_bytes n) -> ~ skipped de -> fits f tr (path ++ str "/" ++ cstr (de_name de)) (k + 1))
  end.

(** The code's [basename] finds the slash before the last component. *)
Lemma chunks_single sep l c : chunks sep l = [c] -> c = l.
Proof.
  revert c. induction l as [|b l IH]; simpl; [congruence|]. intros c. destruct (sep b); [destruct (chunks_cons sep l) as (d & ds & ->); discriminate|].
  destruct (chunks_cons sep l) as (d & ds & Ed). rewrite Ed. intros [= <- ->]. f_equal. now apply IH.
Qed.
Lemma to_slash_spec s : match to_slash s with
  | None => chunks (Z.eqb 47) s = [s]
  | Some r => exists a r', r = 47 :: r' /\ s = a ++ r /\ chunks (Z.eqb 47) s = a :: chunks (Z.eqb 47) r' end.
Proof.
  induction s as [|c s IH]; [done|]. cbn [to_slash chunks]. rewrite (Z.eqb_sym 47 c). destruct (Z.eqb_spec c 47) as [->|Hc]; [now exists [], s|].
  destruct (to_slash s) as [r|]; [|now rewrite IH]. destruct IH as (a & r' & -> & -> & E). exists (c :: a), r'. now rewrite E.
Qed.
Lemma basename_loop_spec fuel : forall s prev, (length s <= fuel)%nat ->
  basename_loop fuel prev (to_slash s) = match chunks (Z.eqb 47) s with [] | [_] => prev | _ :: cs => (fun c => 47 :: c) <$> last cs end.
Proof.
  induction fuel as [|f IH]; intros s prev Hl; [now destruct s; [|simpl in Hl; lia]|]. pose proof (to_slash_spec s) as H.
  destruct (to_slash s) as [r|]; [|now rewrite H]. destruct H as (a & r' & -> & -> & ->). cbn [basename_loop drop]. rewrite length_app in Hl. simpl in Hl.
  rewrite IH by (rewrite drop_0; lia). rewrite drop_0. destruct (chunks_cons (Z.eqb 47) r') as (d & ds & E). rewrite E. destruct ds as [|e ds]; [|done]. simpl. do 2 f_equal. symmetry. exact (chunks_single _ _ _ E).
Qed.
Lemma basename_spec path : drop 1 <$> basename path = last_component path.
Proof.
  unfold basename, last_component. rewrite basename_loop_spec by done. destruct (chunks (Z.eqb 47) path) as [|c [|d cs]]; [done|done|].
  destruct (last (d :: cs)); [simpl; now rewrite drop_0|done].
Qed.
Lemma visible_spec de : visible de = negb (bool_decide (skipped de)).
Proof. unfold visible. f_equal. apply eq_true_iff_eq. rewrite !orb_true_iff, Z.eqb_eq, !bool_decide_eq_true. unfold skipped. tauto. Qed.

(** [found] has what is below, and nothing else. *)
Lemma below_trans tr dir path p : below tr dir path -> below tr path p -> below tr dir p.
Proof. intros H1. induction 1; [done|]. now apply (below_entry tr dir path0 n). Qed.
Lemma below_cases tr dir p : below tr dir p -> p = dir \/ exists n de, tr !! dir = Some n /\ s_type (n_stat n) = T_DIR /\ de ∈ entries (n_bytes n) /\ ~ skipped de /\
  below tr (dir ++ str "/" ++ cstr (de_name de)) p.
Proof.
  induction 1 as [|path n de H IH Hn Ht Hde Hs]; [now left|]. right. destruct IH as [->|(m & de' & H1 & H2 & H3 & H4 & H5)].
  - exists n, de. split; [done|]. split; [done|]. split; [done|]. split; [done|]. constructor.
  - exists m, de'. split; [done|]. split; [done|]. split; [done|]. split; [done|]. now apply (below_entry _ _ path n).
Qed.
Lemma found_below tr target : forall fuel dir k, fits fuel tr dir k -> forall p,
  p ∈ found fuel tr target dir <-> below tr dir p /\ is_type tr p T_FILE /\ last_component p = Some target.
Proof.
  induction fuel as [|f IH]; intros dir k Hf p; [done|]. destruct Hf as (_ & n & Hn & Hkind). cbn [found]. rewrite Hn. destruct Hkind as [Ht|(Ht & _ & Hall)]; rewrite Ht.
  - change (T_FILE =? T_FILE) with true. cbv iota. split.
    + case_bool_decide as E; [|intros H; now apply not_elem_of_nil in H]. intros H. apply list_elem_of_singleton in H as ->. split; [constructor|]. split; [now exists n|done].
    + intros (Hb & _ & E). apply below_cases in Hb as [->|(m & de & Hm & Htm & _)]; [rewrite bool_decide_eq_true_2 by done; left|]. rewrite Hn in Hm. injection Hm as <-. rewrite Ht in Htm. discriminate Htm.
  - change (T_DIR =? T_FILE) with false. change (T_DIR =? T_DIR) with true. cbv iota. rewrite list_elem_of_In, in_concat. split.
    + intros (l & Hl & Hp). apply list_elem_of_In in Hl, Hp. apply list_elem_of_fmap in Hl as (de & -> & Hde). revert Hp. case_bool_decide as Es; [intros H; now apply not_elem_of_nil in H|].
      intros Hp. apply (IH _ (k + 1) (Hall de Hde Es)) in Hp as (H1 & H2 & H3). split; [|done]. apply (below_trans _ _ (dir ++ str "/" ++ cstr (de_name de))); [|done]. apply (below_entry _ _ dir n); try done. constructor.
    + intros (Hb & Hty & E). apply below_cases in Hb as [->|(m & de & Hm & _ & Hde & Hs & Hb)].
      * destruct Hty as (m & Hm & Htm). rewrite Hn in Hm. injection Hm as <-. rewrite Ht in Htm. discriminate Htm.
      * rewrite Hn in Hm. injection Hm as <-. exists (found f tr target (dir ++ str "/" ++ cstr (de_name de))). rewrite <- !list_elem_of_In. split.
        -- apply list_elem_of_fmap. exists de. rewrite bool_decide_eq_false_2 by done. done.
        -- apply (IH _ (k + 1) (Hall de Hde Hs)). done.
Qed.
Definition open_below (k : Z) (s : os) : Prop := 0 <= k /\ forall i, is_Some (fds s !! i) <-> 0 <= i < k.

Lemma entries_cons d l : length d = 16%nat -> entries (d ++ l) = get_dirent d :: entries l.
Proof.
  intros Hd. unfold entries. rewrite length_app, Hd. replace (16 + length l)%nat with (length l + 1 * 16)%nat by lia. rewrite Nat.div_add by lia. rewrite Nat.add_comm. simpl seq. rewrite fmap_cons.
  f_equal; [f_equal; rewrite Nat.mul_0_r; simpl drop; apply take_app_length'; lia|]. rewrite <- fmap_S_seq, <- list_fmap_compose. apply list_fmap_ext. intros i j Hj. unfold compose. do 2 f_equal.
  replace (16 * S j)%nat with (length d + 16 * j)%nat by lia. now rewrite <- drop_drop, drop_app_length.
Qed.
Lemma entries_short l : (length l < 16)%nat -> entries l = [].
Proof. intros H. unfold entries. now rewrite Nat.div_small. Qed.

(** The state with descriptor [fd] as [h] on top of [s]. *)
Definition with_fd (fd : Z) (h : ofd) (s : os) : os := set_fds (<[fd := h]> (fds s)) s.
Lemma with_fd_print fd h l s : print 1 l (with_fd fd h s) = with_fd fd h (print 1 l s).
Proof. done. Qed.
Lemma open_with k h s : open_below k s -> open_below (k + 1) (with_fd k h s).
Proof.
  intros [H0 H]. split; [lia|]. intros i. simpl. destruct (decide (i = k)) as [->|Hne]; [rewrite lookup_insert_eq; split; [lia|eauto]|].
  rewrite lookup_insert_ne, H by done. lia.
Qed.
Lemma open_free k s : open_below k s -> k < NOFILE -> free_fd s k.
Proof.
  intros [H0 H] Hk. split; [lia|]. split; [|intros i Hi; now apply H]. destruct (fds s !! k) eqn:E; [|done]. assert (is_Some (fds s !! k)) as Hs by (rewrite E; eauto). apply H in Hs. lia.
Qed.

(** A loop over an open directory.  [rest] is a round after the read. *)
Lemma dir_loop E body (rest : dirent -> prog (unit + unit)) text k st :
  (body tt = let* r := sys_call (Read k DIRENT) in
     match r with Some d => if Z.of_nat (length d) =? DIRENT then rest (get_dirent d) else Ret (inr tt) | None => Ret (inr tt) end) ->
  forall n l s, (length l <= n)%nat -> open_below k s ->
  (forall de s1, de ∈ entries l -> tree s1 = tree s -> open_below (k + 1) s1 -> wpt (fun r s' => r = inl tt /\ s' = print 1 (text de) s1) E (rest de) s1) ->
  wpt (fun _ s' => exists l', s' = with_fd k (Ofd st l' false) (print 1 (concat (text <$> entries l)) s)) E
    (ITree.iter body tt) (with_fd k (Ofd st l false) s).
Proof.
  intros Hbody. induction n as [|n IH]; intros l s Hn Hopen Hrest; apply wpt_iter; rewrite Hbody; apply wpt_bind, (wpt_read _ _ _ _ (Ofd st l false)); try (simpl; apply lookup_insert_eq); try (unfold DIRENT; lia);
    intros j J1 J2 _ J4; specialize (J4 eq_refl); cbn [h_bytes h_stat h_stream] in *; change (Z.to_nat DIRENT) with 16%nat in *.
  - destruct l; [|simpl in Hn; lia]. simpl in J2. assert (j = 0%nat) as -> by lia. simpl. apply wpt_ret. exists []. unfold with_fd, set_fds, print, set_wrote. simpl. rewrite insert_insert_eq, app_nil_r. done.
  - assert (set_fds (<[k := Ofd st (drop j l) false]> (fds (with_fd k (Ofd st l false) s))) (with_fd k (Ofd st l false) s) = with_fd k (Ofd st (drop j l) false) s) as ->.
    { unfold with_fd, set_fds. simpl. now rewrite insert_insert_eq. }
    destruct (decide (length l < 16)%nat) as [Hs|Hl].
    + rewrite (proj2 (Z.eqb_neq _ _)) by (rewrite length_take; unfold DIRENT; lia). apply wpt_ret. rewrite (entries_short l) by done. exists (drop j l). simpl. unfold print. simpl. rewrite app_nil_r. now destruct s.
    + assert (j = 16%nat) as -> by lia. assert (length (take 16 l) = 16%nat) as Ht by (apply length_take_le; lia). rewrite Ht. change (Z.of_nat 16 =? DIRENT) with true. cbv iota.
      set (de := get_dirent (take 16 l)). assert (entries l = de :: entries (drop 16 l)) as El by (rewrite <- (take_drop 16 l) at 1; now apply entries_cons).
      eapply wpt_mono; [apply (Hrest de); [rewrite El; left|done|now apply open_with]| |intros z s' H; exact H]. intros r s' [-> ->].
      rewrite with_fd_print. eapply wpt_mono; [apply (IH (drop 16 l) (print 1 (text de) s)); [rewrite length_drop; lia|exact Hopen|]| |intros z s' H; exact H].
      * intros de' s1 Hin Htr Hop. apply Hrest; [rewrite El; now right|done|done].
      * intros [] s' (l' & ->). exists l'. rewrite El, fmap_cons. cbn [concat]. now rewrite uprint_app.
Qed.
Lemma print_nil s : print 1 [] s = s.
Proof. unfold print. simpl. rewrite app_nil_r. now destruct s. Qed.
Lemma find_entries E rec text path k st n l s : (length l <= n)%nat -> open_below k s ->
  (forall de s1, de ∈ entries l -> visible de = true -> tree s1 = tree s -> open_below (k + 1) s1 -> wpt (fun _ s' => s' = print 1 (text de) s1) E (rec (child path de)) s1) ->
  wpt (fun _ s' => exists l', s' = with_fd k (Ofd st l' false) (print 1 (concat ((fun de => if visible de then text de else []) <$> entries l)) s)) E
    (ITree.iter (find_entry rec k path) tt) (with_fd k (Ofd st l false) s).
Proof.
  intros Hn Hopen Hrec. eapply (dir_loop E _ (fun de => if visible de then do* rec (child path de); Ret (inl tt) else Ret (inl tt)) (fun de => if visible de then text de else [])); [reflexivity|exact Hn|exact Hopen|].
  intros de s1 Hin Htr Hop. destruct (visible de) eqn:Hv.
  - apply wpt_bind. eapply wpt_mono; [now apply (Hrec de)| |intros z s' H; exact H]. intros [] s' ->. now apply wpt_ret.
  - apply wpt_ret. split; [done|]. now rewrite print_nil.
Qed.

Lemma vprintf_line l : ~ 0 ∈ l -> vprintf (msg "%s") [PStr (Some l)] = Some (l ++ [10]).
Proof.
  intros H. destruct (vprintf_items [Str (Some l); Text 10]) as (outs & Hs & Hv); [repeat constructor; done|].
  apply Forall2_cons_inv_l in Hs as (? & ? & -> & Hs & ->). apply Forall2_cons_inv_l in Hs as (? & ? & -> & Hs & ->). apply Forall2_nil_inv_l in Hs as ->. exact Hv.
Qed.
Definition listing (l : list (list Z)) : list Z := concat ((fun p => p ++ [10]) <$> l).
Lemma listing_concat {A : Type} (f : A -> list (list Z)) l : listing (concat (f <$> l)) = concat ((fun x => listing (f x)) <$> l).
Proof. unfold listing. induction l as [|x l IH]; [done|]. rewrite !fmap_cons. cbn [concat]. now rewrite fmap_app, concat_app, IH. Qed.

Lemma close_with k h s : open_below k s -> set_fds (delete k (fds (with_fd k h s))) (with_fd k h s) = s.
Proof.
  intros [H0 H]. unfold with_fd, set_fds. simpl. rewrite delete_insert_id; [now destruct s|]. destruct (fds s !! k) eqn:E; [|done]. assert (is_Some (fds s !! k)) as Hs by (rewrite E; eauto). apply H in Hs. lia.
Qed.

Lemma find_spec E target tr : forall fuel path k s, fits fuel tr path k -> tree s = tr -> open_below k s -> ~ 0 ∈ path ->
  wpt (fun _ s' => s' = print 1 (listing (found fuel tr target path)) s) E (find fuel path target) s.
Proof.
  induction fuel as [|f IH]; intros path k s Hfits Htr Hopen H0; [done|]. destruct Hfits as (Hk & n & Hn & Hkind). cbn [find found]. rewrite Hn.
  apply wpt_bind, (wpt_open _ _ _ _ n k); [congruence|now apply open_free|]. pose proof Hopen as [Hk0 _]. replace (k <? 0) with false by lia. set (h := Ofd (n_stat n) (n_bytes n) false). fold (with_fd k h s).
  apply wpt_bind, (wpt_fstat _ _ _ h); [simpl; apply lookup_insert_eq|]. cbn [h_stat h].
  assert (forall l, wpt (fun _ s' => s' = print 1 l s) E (do* sys_call (Close k); Ret tt) (with_fd k h (print 1 l s))) as Hclose.
  { intros l. apply wpt_bind, (wpt_close _ _ _ h); [simpl; apply lookup_insert_eq|]. apply wpt_ret. now apply close_with. }
  assert (wpt (fun _ s' => s' = print 1 (listing []) s) E (do* sys_call (Close k); Ret tt) (with_fd k h s)) as Hnone.
  { pose proof (Hclose []) as Hc. rewrite (print_nil s) in Hc. eapply wpt_mono; [exact Hc| |intros z s' H; exact H]. intros [] s' ->. symmetry. apply print_nil. }
  destruct Hkind as [Ht|(Ht & Hlen & Hall)].
  - rewrite Ht. change (T_FILE =? T_FILE) with true. cbv iota. apply wpt_bind.
    rewrite <- basename_spec. destruct (basename path) as [b|]; cbn [fmap option_fmap option_map]; [destruct (bool_decide_reflect (drop 1 b = target)) as [E0|E0]; [rewrite bool_decide_eq_true_2 by congruence|rewrite bool_decide_eq_false_2 by congruence]|].
    + apply (wpt_fprintf _ _ _ _ _ (path ++ [10])); [now apply vprintf_line|]. unfold listing. cbn [fmap list_fmap concat]. rewrite app_nil_r. apply Hclose.
    + now apply wpt_ret.
    + now apply wpt_ret.
  - rewrite Ht. change (T_DIR =? T_FILE) with false. change (T_DIR =? T_DIR) with true. cbv iota.
    rewrite (proj2 (Nat.leb_gt 512 _)) by lia. apply wpt_bind.
    eapply wpt_mono; [apply (find_entries E (fun p => find f p target) (fun de => listing (found f tr target (child path de))) path k (n_stat n) (length (n_bytes n)) (n_bytes n) s); [lia|done|]| |intros z s' H; exact H].
    + intros de s1 Hin Hv Hs1 Hop. rewrite visible_spec in Hv. apply negb_true_iff, bool_decide_eq_false in Hv. apply (IH (child path de) (k + 1)); [now apply Hall|congruence|done|]. unfold child. rewrite not_elem_of_app, not_elem_of_cons. split; [done|]. split; [done|]. apply cstr_no_nul.
    + intros [] s' (l' & ->). apply wpt_bind, (wpt_close _ _ _ (Ofd (n_stat n) l' false)); [simpl; apply lookup_insert_eq|]. apply wpt_ret.
      rewrite close_with by done. f_equal. rewrite listing_concat. f_equal. apply list_fmap_ext. intros i de _. rewrite visible_spec. now case_bool_decide.
Qed.

(** C21: [find] prints the files below the directory that bear the name.  On a
    tree of files and directories whose paths fit into the buffer and that is
    not deeper than the descriptors allow, [find] ends with status 0, has
    closed every descriptor again, and has printed, one per line and in the
    order of the directories, exactly the paths of the files (directories of
    that name are not printed) that can be reached from the starting point
    through directory entries, other than the free ones, "." and "..", and
    whose last component, after the last slash, is the target. *)
Theorem find_prints name dir target s : fits 512 (tree s) dir 3 -> open_below 3 s -> ~ 0 ∈ dir ->
  (forall p, p ∈ found 512 (tree s) target dir <-> below (tree s) dir p /\ is_type (tree s) p T_FILE /\ last_component p = Some target) /\
  wpt (fun _ _ => False) (fun z s' => z = 0 /\ s' = print 1 (listing (found 512 (tree s) target dir)) s) (find_main [name; dir; target]) s.
Proof.
  intros Hf Ho H0. split; [intros p; now apply (found_below (tree s) target 512 dir 3)|]. unfold find_main. apply wpt_bind.
  eapply wpt_mono; [apply (find_spec _ target (tree s) 512 dir 3 s); done| |intros z s' H; exact H]. intros [] s' ->. now apply wpt_exit.
Qed.

Module Example.
Definition stdin (l : list Z) : ofd := Ofd (Stat T_DEVICE 1 0) l true.
Definition disk : gmap (list Z) node := list_to_map
  [(str "d", Node (Stat T_DIR 3 64) (put_dirent (Dirent 3 (strncpy_l 14 (str "."))) ++ put_dirent (Dirent 1 (strncpy_l 14 (str ".."))) ++
     put_dirent (Dirent 0 (strncpy_l 14 (str "gone"))) ++ put_dirent (Dirent 5 (strncpy_l 14 (str "a")))));
   (str "d/a", Node (Stat T_FILE 5 2) [104; 105])].
Definition s0 : os := Os disk (list_to_map [(0, stdin (str "a bc" ++ [10; 10] ++ str "d")); (1, stdin []); (2, stdin [])]) [] [] [] false.

Lemma disk_fits : fits 512 disk (str "d") 3.
Proof.
  split; [reflexivity|]. eexists. split; [reflexivity|]. right. split; [reflexivity|]. split; [apply Nat.ltb_lt; reflexivity|].
  intros de Hin Hv. assert (str "d" ++ str "/" ++ cstr (de_name de) = str "d/a") as ->.
  { revert Hin Hv. match goal with |- de ∈ ?l -> _ => let l' := eval vm_compute in l in change l with l' end.
    rewrite !elem_of_cons, elem_of_nil. intros [->|[->|[->|[->|[]]]]] Hv; first [exfalso; apply Hv; apply (bool_decide_unpack _); vm_compute; exact I|reflexivity]. }
  split; [reflexivity|]. eexists. split; [reflexivity|]. now left.
Qed.
Lemma s0_open : open_below 3 s0.
Proof.
  split; [lia|]. intros i. split.
  - intros [h Hi]. apply elem_of_list_to_map_2 in Hi. revert Hi. rewrite !elem_of_cons, elem_of_nil. intros [E|[E|[E|[]]]]; injection E as -> _; lia.
  - intros Hi. assert (i = 0 \/ i = 1 \/ i = 2) as [->|[->| ->]] by lia; eexists; reflexivity.
Qed.

Lemma find_prints_witness : wpt (fun _ _ => False) (fun z s' => z = 0 /\ s' = print 1 (str "d/a" ++ [10]) s0) (find_main [str "find"; str "d"; str "a"]) s0.
Proof.
  assert (listing (found 512 (tree s0) (str "a") (str "d")) = str "d/a" ++ [10]) as <- by (vm_compute; reflexivity).
  apply (find_prints (str "find") (str "d") (str "a") s0); [exact disk_fits|exact s0_open|]. apply (bool_decide_unpack _). vm_compute. exact I.
Defined.

Lemma wc_counts_witness : wpt (fun _ s' => exists l w c, numeral 10 2 l /\ numeral 10 3 w /\ numeral 10 7 c /\
  s' = print 1 (l ++ [32] ++ w ++ [32] ++ c ++ [32] ++ [] ++ [10]) (drained 0 (stdin (str "a bc" ++ [10; 10] ++ str "d")) s0)) (fun _ _ => False) (wc 0 []) s0.
Proof. refine (wc_counts 0 [] (stdin (str "a bc" ++ [10; 10] ++ str "d")) s0 _ _ _ _); [reflexivity|reflexivity|apply not_elem_of_nil]. Defined.

Lemma xargs_runs_witness : wpt (fun _ _ => False) (fun z s' => z = 0 /\ ran s' = [(str "echo", [str "echo"; str "a bc"]); (str "echo", [str "echo"; str "d"])]) (xargs_main [str "xargs"; str "echo"]) s0.
Proof.
  eapply wpt_mono; [apply (xargs_runs [str "xargs"; str "echo"] (stdin (str "a bc" ++ [10; 10] ++ str "d")) s0); [apply Nat.leb_le; reflexivity|reflexivity|reflexivity| |]|done|].
  - apply (bool_decide_unpack _). vm_compute. exact I.
  - apply Forall_forall. repeat constructor; apply Nat.leb_le; reflexivity.
  - intros z s' (-> & l & Hr & _ & Hall). destruct Hall as [-> _]; [reflexivity|]. split; [done|]. rewrite Hr. vm_compute. reflexivity.
Defined.
End Example.
