(* ===== verification/Ls.v ===== *)
(** * Listing directories and passing requests on (user/ls.c, user/mkdir.c,
      user/rm.c, user/ln.c, user/kill.c, user/sync.c, user/trace.c, [stat] of
      user/ulib.c)

    [ls] is proved on every path: a missing one, a file, a device, a directory,
    a path that is too long.  The other programs make their requests in the
    order of their arguments; [mkdir] and [rm] stop at the first failure. *)

From S2P Require Import Prelude.
From S2P Require Import Mach.
From S2P Require Import Kstring.
From S2P Require Import Kstate.
From S2P Require Import Printk.
From S2P Require Import Fs.
From S2P Require Import Sysfile.
From S2P Require Import Ulib.
From S2P Require Import Uprintf.
From S2P Require Import Uprog.
From S2P Require Import Utils.
From ITree Require Import ITree.

(** ** ls *)

(** Where the last element of a path starts; [p] is the position behind the
    byte that is looked at. *)
Fixpoint after_slash (path : list Z) (p : nat) : nat :=
  match p with O => O | S q => if bool_decide (path !! q = Some 47) then p else after_slash path q end.
Definition fmtname (path : list Z) : list Z :=
  let p := drop (after_slash path (length path)) path in
  if (Z.to_nat DIRSIZ <=? length p)%nat then p else p ++ replicate (Z.to_nat DIRSIZ - length p) 32.

Definition stat_ (n : list Z) : prog (option ustat) :=
  let* fd := sys_call (Open n O_RDONLY) in
  if fd <? 0 then Ret None else let* r := sys_call (Fstat fd) in do* sys_call (Close fd); Ret r.

Definition ls_print (path : list Z) (st : ustat) : prog unit :=
  fprintf_ 1 (msg "%s %d %d %d") [PStr (Some (fmtname path)); PNum (s_type st); PNum (s_ino st); PNum (i32 (s_size st))].

(** A directory entry, and one round of the loop over a directory. *)
Definition ls_rest (path : list Z) (de : dirent) : prog (unit + unit) :=
  if de_inum de =? 0 then Ret (inl tt)
  else let* st := stat_ (child path de) in
    match st with
    | None => do* fprintf_ 1 (msg "ls: cannot stat %s") [PStr (Some (child path de))]; Ret (inl tt)
    | Some st => do* ls_print (child path de) st; Ret (inl tt)
    end.
Definition ls_entry (fd : Z) (path : list Z) (_ : unit) : prog (unit + unit) :=
  let* r := sys_call (Read fd DIRENT) in
  match r with
  | Some d => if Z.of_nat (length d) =? DIRENT then ls_rest path (get_dirent d) else Ret (inr tt)
  | None => Ret (inr tt)
  end.

Definition ls (path : list Z) : prog unit :=
  let* fd := sys_call (Open path O_RDONLY) in
  if fd <? 0 then fprintf_ 2 (msg "ls: cannot open %s") [PStr (Some path)]
  else
    let* st := sys_call (Fstat fd) in
    match st with
    | None => do* fprintf_ 2 (msg "ls: cannot stat %s") [PStr (Some path)]; do* sys_call (Close fd); Ret tt
    | Some st =>
      do* (if (s_type st =? T_DEVICE) || (s_type st =? T_FILE) then ls_print path st
           else if s_type st =? T_DIR then
             if (512 <? length path + 1 + Z.to_nat DIRSIZ + 1)%nat then fprintf_ 1 (msg "ls: path too long") []
             else ITree.iter (ls_entry fd path) tt
           else Ret tt);
      do* sys_call (Close fd); Ret tt
    end.

Definition ls_main (argv : list (list Z)) : prog unit :=
  if (length argv <? 2)%nat then do* ls (str "."); exit_ 0 else do* each ls (drop 1 argv); exit_ 0.

(** ** Programs that pass requests on *)

(** The loop of mkdir.c and rm.c: a failure is reported and ends it. *)
Fixpoint until_failure (q : list Z -> request) (fmt : list Z) (args : list (list Z)) : prog unit :=
  match args with
  | [] => Ret tt
  | a :: args' =>
    let* r := sys_call (Ask (q a)) in
    if r <? 0 then fprintf_ 2 fmt [PStr (Some a)] else until_failure q fmt args'
  end.
Definition mkdir_main (argv : list (list Z)) : prog unit :=
  if (length argv <? 2)%nat then do* fprintf_ 2 (msg "Usage: mkdir files...") []; exit_ 1
  else do* until_failure Mkdir (msg "mkdir: %s failed to create") (drop 1 argv); exit_ 0.
Definition rm_main (argv : list (list Z)) : prog unit :=
  if (length argv <? 2)%nat then do* fprintf_ 2 (msg "Usage: rm files...") []; exit_ 1
  else do* until_failure Unlink (msg "rm: %s failed to delete") (drop 1 argv); exit_ 0.

Definition ln_main (argv : list (list Z)) : prog unit :=
  match argv with
  | [_; old; new] =>
    let* r := sys_call (Ask (Link old new)) in
    do* (if r <? 0 then fprintf_ 2 (msg "link %s %s: failed") [PStr (Some old); PStr (Some new)] else Ret tt);
    exit_ 0
  | _ => do* fprintf_ 2 (msg "Usage: ln old new") []; exit_ 1
  end.

(** [atoi] on the bytes of a string. *)
Fixpoint atoi_string (n : Z) (s : list Z) : Z :=
  match s with
  | [] => n
  | c :: s' => if (48 <=? c) && (c <=? 57) then atoi_string (i32 (n * 10 + c - 48)) s' else n
  end.
Definition kill_main (argv : list (list Z)) : prog unit :=
  if (length argv <? 2)%nat then do* fprintf_ 2 (msg "usage: kill pid...") []; exit_ 1
  else do* each (fun a => do* sys_call (Ask (Kill (atoi_string 0 a))); Ret tt) (drop 1 argv); exit_ 0.

Definition sync_main : prog unit := do* sys_call (Ask Sync); exit_ 0.

Definition trace_main (argv : list (list Z)) : prog unit :=
  match argv with
  | _ :: mask :: command :: args =>
    do* sys_call (Ask (Trace (atoi_string 0 mask)));
    do* sys_call (Exec command (command :: args));
    do* fprintf_ 2 (msg "trace: exec failed") [];
    exit_ 1
  | _ => do* fprintf_ 2 (msg "usage: trace mask command") []; exit_ 1
  end.

(** ** What [ls] shows *)

(** A name in a column of [DIRSIZ] characters. *)
Definition pad (name : list Z) : list Z := name ++ replicate (Z.to_nat DIRSIZ - length name) 32.
(** A line: the name, then type, inode number and size in decimal. *)
Definition line_for (name : list Z) (st : ustat) (line : list Z) : Prop :=
  exists t i z, shows_number 10 (i32 (s_type st)) t /\ shows_number 10 (i32 (s_ino st)) i /\ shows_number 10 (i32 (s_size st)) z /\
    line = name ++ [32] ++ t ++ [32] ++ i ++ [32] ++ z ++ [10].
Definition entry_shown (tr : gmap (list Z) node) (path : list Z) (de : dirent) (line : list Z) : Prop :=
  match tr !! child path de with
  | Some n => line_for (pad (cstr (de_name de))) (n_stat n) line
  | None => line = str "ls: cannot stat " ++ child path de ++ [10]
  end.
Definition in_use (l : list Z) : list dirent := filter (fun de => de_inum de <> 0) (entries l).
(** What listing [path] changes. *)
Definition listed (path : list Z) (s s' : os) : Prop :=
  match tree s !! path with
  | None => s' = print 2 (str "ls: cannot open " ++ path ++ [10]) s
  | Some n =>
    if (s_type (n_stat n) =? T_DEVICE) || (s_type (n_stat n) =? T_FILE) then exists line, line_for (fmtname path) (n_stat n) line /\ s' = print 1 line s
    else if s_type (n_stat n) =? T_DIR then
      if (496 <? length path)%nat then s' = print 1 (msg "ls: path too long") s
      else exists lines, Forall2 (entry_shown (tree s) path) (in_use (n_bytes n)) lines /\ s' = print 1 (concat lines) s
    else s' = s
  end.
Fixpoint listed_all (paths : list (list Z)) (s s' : os) : Prop :=
  match paths with [] => s' = s | p :: l => exists s1, listed p s s1 /\ listed_all l s1 s' end.
(** Directory entries hold names, not paths. *)
Definition plain_names (tr : gmap (list Z) node) : Prop :=
  map_Forall (fun _ n => s_type (n_stat n) = T_DIR -> Forall (fun de => 47 ∉ cstr (de_name de)) (entries (n_bytes n))) tr.

(** ** Proofs *)

Lemma after_slash_skip path q : forall p, (forall i, (q <= i < q + p)%nat -> path !! i <> Some 47) -> after_slash path (q + p) = after_slash path q.
Proof.
  induction p as [|p IH]; intros H; [now rewrite Nat.add_0_r|]. rewrite Nat.add_succ_r. simpl. rewrite bool_decide_eq_false_2 by (apply H; lia). apply IH. intros i Hi. apply H. lia.
Qed.
(** [fmtname] of a path in a directory is the padded name. *)
Lemma fmtname_pad path : fmtname path = pad (drop (after_slash path (length path)) path).
Proof.
  unfold fmtname, pad. destruct (Nat.leb_spec (Z.to_nat DIRSIZ) (length (drop (after_slash path (length path)) path))) as [H|H]; [|done].
  replace (Z.to_nat DIRSIZ - _)%nat with 0%nat by lia. simpl. now rewrite app_nil_r.
Qed.
Lemma fmtname_child path de : 47 ∉ cstr (de_name de) -> fmtname (child path de) = pad (cstr (de_name de)).
Proof.
  intros H. rewrite fmtname_pad. f_equal. unfold child. set (name := cstr (de_name de)) in *.
  replace (length (path ++ 47 :: name)) with (S (length path) + length name)%nat by (rewrite length_app; simpl; lia).
  rewrite after_slash_skip.
  - simpl. rewrite bool_decide_eq_true_2 by now apply list_lookup_middle. replace (path ++ 47 :: name) with ((path ++ [47]) ++ name) by now rewrite <- app_assoc.
    apply drop_app_length'. rewrite length_app. simpl. lia.
  - intros i Hi Hl. rewrite lookup_app_r in Hl by lia. replace (i - length path)%nat with (S (i - length path - 1)) in Hl by lia. simpl in Hl. apply H. eapply list_elem_of_lookup_2, Hl.
Qed.
Lemma fmtname_no_nul path : ~ 0 ∈ path -> ~ 0 ∈ fmtname path.
Proof.
  intros H. rewrite fmtname_pad. unfold pad. rewrite not_elem_of_app. split.
  - intros Hd. apply H. rewrite <- (take_drop (after_slash path (length path)) path). apply elem_of_app. now right.
  - rewrite elem_of_replicate. intros [E _]. discriminate E.
Qed.

Lemma stat_spec E path k s : open_below k s -> k < NOFILE -> wpt (fun r s' => r = n_stat <$> tree s !! path /\ s' = s) E (stat_ path) s.
Proof.
  intros Ho Hk. unfold stat_. apply wpt_bind. destruct (tree s !! path) as [n|] eqn:Hn; [|apply wpt_open_missing; [done|]; now apply wpt_ret].
  apply (wpt_open _ _ _ _ n k); [done|now apply open_free|]. pose proof Ho as [Hk0 _]. replace (k <? 0) with false by lia. set (h := Ofd (n_stat n) (n_bytes n) false). fold (with_fd k h s).
  apply wpt_bind, (wpt_fstat _ _ _ h); [apply lookup_insert_eq|]. apply wpt_bind, (wpt_close _ _ _ h); [apply lookup_insert_eq|]. apply wpt_ret. split; [done|]. now apply close_with.
Qed.

(** The line as a function. *)
Definition ls_line (path : list Z) (st : ustat) : list Z :=
  default [] (vprintf (msg "%s %d %d %d") [PStr (Some (fmtname path)); PNum (s_type st); PNum (s_ino st); PNum (i32 (s_size st))]).
Lemma ls_line_spec path st : ~ 0 ∈ path ->
  vprintf (msg "%s %d %d %d") [PStr (Some (fmtname path)); PNum (s_type st); PNum (s_ino st); PNum (i32 (s_size st))] = Some (ls_line path st) /\ line_for (fmtname path) st (ls_line path st).
Proof.
  intros H0. destruct (vprintf_items [Str (Some (fmtname path)); Text 32; Num Wint Rdec (s_type st); Text 32; Num Wint Rdec (s_ino st); Text 32; Num Wint Rdec (i32 (s_size st)); Text 10]) as (outs & Hs & Hv).
  { repeat constructor; try done. now apply fmtname_no_nul. }
  repeat (match goal with H : Forall2 _ (_ :: _) _ |- _ => apply Forall2_cons_inv_l in H as (? & ? & ? & H & ->) end). apply Forall2_nil_inv_l in Hs as ->.
  unfold ls_line. change (vprintf (msg "%s %d %d %d") _) with (vprintf (concat (item_fmt <$> [Str (Some (fmtname path)); Text 32; Num Wint Rdec (s_type st); Text 32; Num Wint Rdec (s_ino st); Text 32; Num Wint Rdec (i32 (s_size st)); Text 10]))
    (concat (item_args <$> [Str (Some (fmtname path)); Text 32; Num Wint Rdec (s_type st); Text 32; Num Wint Rdec (s_ino st); Text 32; Num Wint Rdec (i32 (s_size st)); Text 10]))).
  rewrite Hv. split; [done|]. cbn [item_shows default] in *. subst. eexists _, _, _. split; [eassumption|]. split; [eassumption|]. split; [|cbn [concat]; now rewrite app_nil_r].
  now rewrite (i32_small (i32 _)) in * by apply i32_range.
Qed.

(** A format of characters and strings only prints what one expects. *)
Definition says (i : item) : list Z := match i with Text c => [c] | Str s => default (str "(null)") s | _ => [] end.
Definition textual (i : item) : Prop := match i with Text _ | Str _ => item_ok i | _ => False end.
Lemma vprintf_text items : Forall textual items -> vprintf (concat (item_fmt <$> items)) (concat (item_args <$> items)) = Some (concat (says <$> items)).
Proof.
  intros H. destruct (vprintf_items items) as (outs & Hs & ->); [eapply Forall_impl; [exact H|]; now intros []|]. do 2 f_equal.
  clear -H Hs. induction Hs as [|i out items outs Hi _ IH]; [done|]. apply Forall_cons in H as [Hi' H]. rewrite fmap_cons, <- IH by done. f_equal. now destruct i.
Qed.
(** A message about a path. *)
Lemma wpt_complain (Q : unit -> os -> Prop) E fd pre post path s :
  Forall (fun c => c <> 0 /\ c <> 37) (pre ++ post) -> ~ 0 ∈ path -> Q tt (print fd (pre ++ path ++ post) s) ->
  wpt Q E (fprintf_ fd (pre ++ [37; 115] ++ post) [PStr (Some path)]) s.
Proof.
  intros H H0 HQ. apply Forall_app in H as [H1 H2]. eapply wpt_fprintf; [|exact HQ].
  assert (forall l, concat (item_fmt <$> (Text <$> l)) = l /\ concat (item_args <$> (Text <$> l)) = [] /\ concat (says <$> (Text <$> l)) = l) as Ht.
  { induction l as [|c l (I1 & I2 & I3)]; [done|]. rewrite !fmap_cons. cbn [concat item_fmt item_args says]. rewrite I1, I2, I3. done. }
  assert (forall l, Forall (fun c => c <> 0 /\ c <> 37) l -> Forall textual (Text <$> l)) as Hok by (intros l Hl; now apply Forall_fmap).
  pose proof (vprintf_text ((Text <$> pre) ++ Str (Some path) :: (Text <$> post))) as Hv. destruct (Ht pre) as (P1 & P2 & P3). destruct (Ht post) as (Q1 & Q2 & Q3).
  rewrite !fmap_app, !fmap_cons, !concat_app in Hv. cbn [concat item_fmt item_args says default] in Hv. rewrite P1, P2, P3, Q1, Q2, Q3 in Hv. simpl app in Hv. apply Hv.
  apply Forall_app. split; [now apply Hok|]. constructor; [done|now apply Hok].
Qed.
Ltac complain pre post := let H := fresh in assert (Forall (fun c => c <> 0 /\ c <> 37) (pre ++ post)) as H by (apply (bool_decide_unpack _); vm_compute; exact I); apply (wpt_complain _ _ _ pre post); [exact H|clear H|clear H].

Definition entry_text (tr : gmap (list Z) node) (path : list Z) (de : dirent) : list Z :=
  if de_inum de =? 0 then [] else match tr !! child path de with Some n => ls_line (child path de) (n_stat n) | None => str "ls: cannot stat " ++ child path de ++ [10] end.
Lemma child_no_nul path de : ~ 0 ∈ path -> ~ 0 ∈ child path de.
Proof. intros H. unfold child. rewrite not_elem_of_app, not_elem_of_cons. split; [done|]. split; [done|]. apply cstr_no_nul. Qed.

Lemma ls_entries E path k st l s : ~ 0 ∈ path -> open_below k s -> k + 1 < NOFILE ->
  wpt (fun _ s' => exists l', s' = with_fd k (Ofd st l' false) (print 1 (concat (entry_text (tree s) path <$> entries l)) s)) E
    (ITree.iter (ls_entry k path) tt) (with_fd k (Ofd st l false) s).
Proof.
  intros H0 Ho Hk. eapply (dir_loop E (ls_entry k path) (ls_rest path)); [reflexivity|reflexivity|exact Ho|]. intros de s1 _ Htr Ho1. unfold ls_rest, entry_text. destruct (de_inum de =? 0).
  - apply wpt_ret. split; [done|]. now rewrite print_nil.
  - apply wpt_bind. eapply wpt_mono; [apply (stat_spec _ _ (k + 1)); [done|lia]| |intros z s' H; exact H]. intros r s' [-> ->]. rewrite Htr.
    destruct (tree s !! child path de) as [n|]; simpl fmap; apply wpt_bind.
    + eapply wpt_fprintf; [apply ls_line_spec; now apply child_no_nul|]. now apply wpt_ret.
    + complain (str "ls: cannot stat ") [10]; [now apply child_no_nul|]. now apply wpt_ret.
Qed.
Lemma entries_shown tr path l : ~ 0 ∈ path -> Forall (fun de => 47 ∉ cstr (de_name de)) l ->
  exists lines, Forall2 (entry_shown tr path) (filter (fun de => de_inum de <> 0) l) lines /\ concat (entry_text tr path <$> l) = concat lines.
Proof.
  intros H0. induction 1 as [|de l Hde _ (lines & Hs & Hc)]; [exists []; split; [constructor|done]|]. rewrite fmap_cons. cbn [concat]. rewrite Hc. destruct (Z.eq_dec (de_inum de) 0) as [E0|Hn].
  - exists lines. rewrite filter_cons_False by (intros H; now apply H). unfold entry_text. rewrite E0. done.
  - exists (entry_text tr path de :: lines). rewrite filter_cons_True by done. split; [|done]. constructor; [|done].
    unfold entry_shown, entry_text. rewrite (proj2 (Z.eqb_neq _ _) Hn). destruct (tr !! child path de) as [n|]; [|done]. rewrite <- (fmtname_child path) by done. apply ls_line_spec. now apply child_no_nul.
Qed.

Lemma ls_spec E path k s : open_below k s -> k + 1 < NOFILE -> ~ 0 ∈ path -> plain_names (tree s) -> wpt (fun _ s' => listed path s s') E (ls path) s.
Proof.
  intros Ho Hk H0 Hp. unfold ls, listed. apply wpt_bind. destruct (tree s !! path) as [n|] eqn:Hn.
  2:{ apply wpt_open_missing; [done|]. cbn. complain (str "ls: cannot open ") [10]; done. }
  apply (wpt_open _ _ _ _ n k); [done|apply open_free; [done|lia]|]. pose proof Ho as [Hk0 _]. replace (k <? 0) with false by lia. set (h := Ofd (n_stat n) (n_bytes n) false). fold (with_fd k h s).
  apply wpt_bind, (wpt_fstat _ _ _ h); [apply lookup_insert_eq|]. cbn [h_stat h].
  assert (forall (P : os -> Prop) l h', P (print 1 l s) -> wpt (fun (_ : unit) s' => P s') E (do* sys_call (Close k); Ret tt) (with_fd k h' (print 1 l s))) as Hclose.
  { intros P l h' HP. apply wpt_bind, (wpt_close _ _ _ h'); [apply lookup_insert_eq|]. apply wpt_ret. now rewrite close_with. }
  apply wpt_bind. destruct ((s_type (n_stat n) =? T_DEVICE) || (s_type (n_stat n) =? T_FILE)).
  - destruct (ls_line_spec path (n_stat n) H0) as [Hv Hl]. eapply wpt_fprintf; [exact Hv|]. rewrite with_fd_print. apply Hclose. eauto.
  - destruct (Z.eqb_spec (s_type (n_stat n)) T_DIR) as [Hd|_].
    + change (length path + 1 + Z.to_nat DIRSIZ + 1)%nat with (length path + 1 + 14 + 1)%nat. destruct (Nat.ltb_spec 512 (length path + 1 + 14 + 1)) as [Hl|Hl].
      * eapply (wpt_fprintf _ _ _ _ _ (msg "ls: path too long")); [reflexivity|]. rewrite with_fd_print. apply Hclose. destruct (Nat.ltb_spec 496 (length path)); [done|lia].
      * eapply wpt_mono; [now apply ls_entries| |intros z s' H; exact H]. intros [] s' (l' & ->). apply Hclose. destruct (Nat.ltb_spec 496 (length path)); [lia|].
        destruct (entries_shown (tree s) path (entries (n_bytes n)) H0) as (lines & Hs & ->); [exact (Hp _ _ Hn Hd)|]. eauto.
    + apply wpt_ret. pose proof (Hclose (fun s' => s' = s) [] h) as Hc. rewrite print_nil in Hc. now apply Hc.
Qed.
Lemma listed_same path s s' : listed path s s' -> tree s' = tree s /\ fds s' = fds s.
Proof.
  unfold listed. destruct (tree s !! path) as [n|]; [|now intros ->]. destruct (_ || _); [now intros (? & _ & ->)|]. destruct (_ =? _); [|now intros ->].
  destruct (_ <? _)%nat; [now intros ->|now intros (? & _ & ->)].
Qed.
Lemma ls_each E paths s : open_below 3 s -> Forall (fun p => ~ 0 ∈ p) paths -> plain_names (tree s) -> wpt (fun _ s' => listed_all paths s s') E (each ls paths) s.
Proof.
  intros Ho Hall. revert s Ho. induction Hall as [|p paths H0 _ IH]; intros s Ho Hp; simpl; [now apply wpt_ret|]. apply wpt_bind.
  eapply wpt_mono; [now apply (ls_spec _ p 3)| |intros z s' H; exact H]. intros [] s1 Hl. destruct (listed_same _ _ _ Hl) as [Et Ef].
  eapply wpt_mono; [apply IH; [unfold open_below; now rewrite Ef|now rewrite Et]| |intros z s' H; exact H]. intros [] s' H. eauto.
Qed.

(** [ls] lists its arguments.  With only the standard descriptors open
    and directory entries that are names, [ls] ends with status 0 and has
    listed its arguments (or ".") in order, and every descriptor is closed
    again.  A missing path is reported on the error output; a file or device
    has one line; a directory has one line for each entry that is in use, in
    order, with the entry's name padded to 14 characters, its type, inode
    number and size in decimal, or a complaint when it cannot be looked at; a
    path that the buffer cannot hold is refused. *)
Theorem ls_lists name args s : open_below 3 s -> Forall (fun p => ~ 0 ∈ p) args -> plain_names (tree s) ->
  wpt (fun _ _ => False) (fun z s' => z = 0 /\ listed_all (if decide (args = []) then [str "."] else args) s s') (ls_main (name :: args)) s.
Proof.
  intros Ho H0 Hp. unfold ls_main. case_decide as Ha; [subst args; simpl|destruct args; [done|]; simpl length; change (S (S _) <? 2)%nat with false; cbv iota; simpl drop]; apply wpt_bind.
  - eapply wpt_mono; [apply (ls_spec _ (str ".") 3); [done|unfold NOFILE; lia|apply (bool_decide_unpack _); vm_compute; exact I|done]| |intros z s' H; exact H].
    intros [] s' H. apply wpt_exit. simpl. eauto.
  - eapply wpt_mono; [now apply ls_each| |intros z s' H; exact H]. intros [] s' H. now apply wpt_exit.
Qed.

(** ** Requests *)

(** All requests were made and granted, or the ones before the first failure
    and that one, with a message. *)
Definition carried_out (q : list Z -> request) (pre post : list Z) (args : list (list Z)) (s s' : os) : Prop :=
  fds s' = fds s /\ ran s' = ran s /\
  ((asked s' = asked s ++ ((fun a => (q a, 0)) <$> args) /\ wrote s' = wrote s) \/
   exists l a l', args = l ++ a :: l' /\ asked s' = asked s ++ ((fun a => (q a, 0)) <$> l) ++ [(q a, -1)] /\ wrote s' = wrote s ++ ((2,.) <$> (pre ++ a ++ post))).

Lemma until_failure_spec E q pre post args : Forall (fun c => c <> 0 /\ c <> 37) (pre ++ post) -> Forall (fun a => ~ 0 ∈ a) args -> forall s,
  wpt (fun _ s' => carried_out q pre post args s s') E (until_failure q (pre ++ [37; 115] ++ post) args) s.
Proof.
  intros Hf. induction 1 as [|a args H0 _ IH]; intros s; cbn [until_failure].
  - apply wpt_ret. split; [done|]. split; [done|]. left. now rewrite app_nil_r.
  - apply wpt_bind, wpt_ask. intros r t [-> | ->]; simpl.
    + eapply wpt_mono; [apply IH| |intros z s' H; exact H]. intros [] s' (Hfd & Hr & Hs). split; [done|]. split; [done|]. destruct Hs as [[Ha Hw]|(l & b & l' & -> & Ha & Hw)]; simpl in Ha.
      * left. split; [|done]. now rewrite Ha, <- app_assoc.
      * right. exists (a :: l), b, l'. split; [done|]. split; [|done]. now rewrite Ha, <- app_assoc.
    + apply wpt_complain; [done|done|]. split; [done|]. split; [done|]. right. exists [], a, args. done.
Qed.

(** [mkdir] and [rm] make their requests in order up to the first that
    fails, report that one, and end with status 0 in both cases. *)
Theorem mkdir_correct name args s : args <> [] -> Forall (fun a => ~ 0 ∈ a) args ->
  wpt (fun _ _ => False) (fun z s' => z = 0 /\ carried_out Mkdir (str "mkdir: ") (str " failed to create" ++ [10]) args s s') (mkdir_main (name :: args)) s.
Proof.
  intros Hne H0. unfold mkdir_main. destruct args as [|a args]; [done|]. simpl length. change (S (S _) <? 2)%nat with false. cbv iota. simpl drop. apply wpt_bind.
  eapply wpt_mono; [apply (until_failure_spec _ Mkdir (str "mkdir: ") (str " failed to create" ++ [10])); [apply (bool_decide_unpack _); vm_compute; exact I|exact H0]| |intros z s' H; exact H].
  intros [] s' H. now apply wpt_exit.
Qed.
Theorem rm_correct name args s : args <> [] -> Forall (fun a => ~ 0 ∈ a) args ->
  wpt (fun _ _ => False) (fun z s' => z = 0 /\ carried_out Unlink (str "rm: ") (str " failed to delete" ++ [10]) args s s') (rm_main (name :: args)) s.
Proof.
  intros Hne H0. unfold rm_main. destruct args as [|a args]; [done|]. simpl length. change (S (S _) <? 2)%nat with false. cbv iota. simpl drop. apply wpt_bind.
  eapply wpt_mono; [apply (until_failure_spec _ Unlink (str "rm: ") (str " failed to delete" ++ [10])); [apply (bool_decide_unpack _); vm_compute; exact I|exact H0]| |intros z s' H; exact H].
  intros [] s' H. now apply wpt_exit.
Qed.

(** [ln] makes its one request. *)
Theorem ln_correct name old new s : ~ 0 ∈ old -> ~ 0 ∈ new ->
  wpt (fun _ _ => False) (fun z s' => z = 0 /\ exists r, asked s' = asked s ++ [(Link old new, r)] /\
    wrote s' = wrote s ++ ((2,.) <$> (if r <? 0 then str "link " ++ old ++ [32] ++ new ++ str ": failed" ++ [10] else []))) (ln_main [name; old; new]) s.
Proof.
  intros Ho Hn. unfold ln_main. apply wpt_bind, wpt_ask. intros r t [-> | ->]; simpl; apply wpt_bind.
  - apply wpt_ret, wpt_exit. split; [done|]. exists 0. simpl. now rewrite app_nil_r.
  - pose (items := (Text <$> str "link ") ++ [Str (Some old); Text 32; Str (Some new)] ++ (Text <$> str ": failed") ++ [Text 10]).
    assert (vprintf (msg "link %s %s: failed") [PStr (Some old); PStr (Some new)] = Some (concat (says <$> items))) as Hv.
    { refine (vprintf_text items _). unfold items. repeat constructor; done. }
    eapply wpt_fprintf; [exact Hv|]. apply wpt_exit. split; [done|]. now exists (-1).
Qed.

(** [kill] asks once per argument, for the number the argument starts with,
    whatever the answers are. *)
Theorem kill_correct name args s : args <> [] ->
  wpt (fun _ _ => False) (fun z s' => z = 0 /\ wrote s' = wrote s /\ exists l, asked s' = asked s ++ l /\ l.*1 = (fun a => Kill (atoi_string 0 a)) <$> args) (kill_main (name :: args)) s.
Proof.
  intros Hne. unfold kill_main. destruct args as [|a args]; [done|]. simpl length. change (S (S _) <? 2)%nat with false. cbv iota. simpl drop. apply wpt_bind.
  eapply wpt_mono; [apply (wpt_each _ (fun l s' => wrote s' = wrote s /\ exists l0 k, a :: args = l0 ++ l /\ asked s' = asked s ++ k /\ k.*1 = (fun a => Kill (atoi_string 0 a)) <$> l0))| |intros z s' H; exact H].
  - split; [done|]. exists [], []. now rewrite app_nil_r.
  - intros x l s' (Hw & l0 & k & El & Ha & Hk). apply wpt_bind, wpt_ask. intros r t _. apply wpt_ret. split; [done|]. exists (l0 ++ [x]), (k ++ [(Kill (atoi_string 0 x), r)]).
    rewrite <- app_assoc, !fmap_app, Hk. split; [done|]. split; [|done]. simpl. now rewrite Ha, <- app_assoc.
  - intros [] s' (Hw & l0 & k & El & Ha & Hk). rewrite app_nil_r in El. subst l0. apply wpt_exit. eauto.
Qed.
(** The string function is the one of the library. *)
Lemma atoi_string_loop l : forall f m s n, (length l < f)%nat -> bytes_at m s (l ++ [0]) -> wp (atoi_loop f s n) (fun r m' => r = atoi_string n l /\ m' = m) m.
Proof.
  induction l as [|c l IH]; intros [|f] m s n Hf Hb; simpl in Hf; try lia; simpl app in Hb; apply bytes_cons in Hb as [H0 Hb]; simpl atoi_loop; wsteps; (eapply wp_ldb; [done|]).
  - now wsteps.
  - cbn [atoi_string]. destruct ((48 <=? c) && (c <=? 57)); [apply IH; [lia|done]|now wsteps].
Qed.
Lemma atoi_string_correct m s l : bytes_at m s (l ++ [0]) -> wp (atoi s) (fun r m' => r = atoi_string 0 l /\ m' = m) m.
Proof.
  intros Hb. apply wp_bounded. apply atoi_string_loop; [|done]. pose proof (bytes_size _ _ _ Hb) as Hl. rewrite length_app in Hl. simpl in Hl. lia.
Qed.

(** [trace] sets the mask and becomes the command with its arguments; only a
    busy system makes it return and complain. *)
Theorem trace_correct name mask command args s :
  wpt (fun _ _ => False) (fun z s' => exists r, asked s' = asked s ++ [(Trace (atoi_string 0 mask), r)] /\
    (ran s' = ran s ++ [(command, command :: args)] /\ wrote s' = wrote s \/
     busy s = true /\ z = 1 /\ ran s' = ran s /\ wrote s' = wrote s ++ ((2,.) <$> msg "trace: exec failed"))) (trace_main (name :: mask :: command :: args)) s.
Proof.
  unfold trace_main. apply wpt_bind, wpt_ask. intros r t _. apply wpt_exec.
  - intros Hb. apply wpt_bind. eapply (wpt_fprintf _ _ _ _ _ (msg "trace: exec failed")); [reflexivity|]. apply wpt_exit. exists r. split; [done|]. now right.
  - intros z. exists r. split; [done|]. now left.
Qed.
Theorem sync_correct s : wpt (fun _ _ => False) (fun z s' => z = 0 /\ exists r, asked s' = asked s ++ [(Sync, r)]) sync_main s.
Proof. unfold sync_main. apply wpt_bind, wpt_ask. intros r t _. apply wpt_exit. eauto. Qed.

Module LsExample.
Lemma s0_names : plain_names (tree Example.s0).
Proof. apply (bool_decide_unpack _). vm_compute. exact I. Qed.

Lemma ls_lists_witness : wpt (fun _ _ => False) (fun z s' => z = 0 /\ listed_all [str "d"; str "e"] Example.s0 s') (ls_main [str "ls"; str "d"; str "e"]) Example.s0.
Proof. refine (ls_lists (str "ls") [str "d"; str "e"] Example.s0 Example.s0_open _ s0_names). repeat constructor; apply (bool_decide_unpack _); vm_compute; exact I. Defined.
Lemma mkdir_correct_witness : wpt (fun _ _ => False) (fun z s' => z = 0 /\ carried_out Mkdir (str "mkdir: ") (str " failed to create" ++ [10]) [str "x"; str "y"] Example.s0 s') (mkdir_main [str "mkdir"; str "x"; str "y"]) Example.s0.
Proof. refine (mkdir_correct (str "mkdir") [str "x"; str "y"] Example.s0 _ _); [done|]. repeat constructor; apply (bool_decide_unpack _); vm_compute; exact I. Defined.
(** The name of a file is padded, a long one is not cut. *)
Example fmtname_pads : fmtname (str "d/a") = str "a             " /\ fmtname (str "a/b/longerthan14chars") = str "longerthan14chars" /\ fmtname (str "x") = pad (str "x").
Proof. vm_compute. done. Qed.
End LsExample.
