(* ===== verification/Boot.v ===== *)
(** * Booting (kernel/start.c, kernel/main.c, the machine-mode registers of
      kernel/riscv.h)

    [start] runs in machine mode on every hart, programs the control
    registers and leaves for [main] in supervisor mode with [mret].  [main]
    runs the initialisation on hart 0 and holds the other harts back until
    [started] is set.  The order of the calls is modelled for any number of
    harts and any interleaving; what the calls do is the subject of their
    components. *)

From S2P Require Import Prelude.
From S2P Require Import Mach.

(** ** A hart in machine mode *)

Inductive mode : Type := Machine | Supervisor | User.
Inductive csr_name : Type :=
| mhartid | mstatus | mepc | mie | mip | medeleg | mideleg | stimecmp | menvcfg | pmpcfg0 | pmpaddr0 | satp_ | mcounteren | time_.
#[global] Instance csr_name_eq_dec : EqDecision csr_name.
Proof. solve_decision. Defined.

Record hart_state : Type := Hart { h_mode : mode; h_pc : Z; h_tp : Z; h_csr : csr_name -> Z }.
Definition set_h_mode x h := Hart x (h_pc h) (h_tp h) (h_csr h).
Definition set_h_pc x h := Hart (h_mode h) x (h_tp h) (h_csr h).
Definition set_h_tp x h := Hart (h_mode h) (h_pc h) x (h_csr h).
Definition set_h_csr (r : csr_name) (x : Z) h := Hart (h_mode h) (h_pc h) (h_tp h) (fun r' => if decide (r' = r) then x else h_csr h r').

(** The interrupts and exceptions that a hart lets software delegate. *)
Class Delegation : Type := { mideleg_mask : Z; medeleg_mask : Z }.
(** The privileged architecture: supervisor-level interrupts (software, timer,
    external) and the exceptions that the kernel handles (calls from user
    mode, page faults) can be delegated. *)
Definition s_interrupts : Z := 546.
Definition s_exceptions : Z := 45312.
Class DelegationOk (D : Delegation) : Prop := {
  interrupts_delegable : Z.land mideleg_mask s_interrupts = s_interrupts;
  exceptions_delegable : Z.land medeleg_mask s_exceptions = s_exceptions;
}.

Definition csrr (r : csr_name) : M hart_state Z := gets (fun h => h_csr h r).
Definition csrw (r : csr_name) (x : Z) : M hart_state unit := modify (set_h_csr r (u64 x)).

Section Machine.
Context `{D : Delegation}.

(** ** Access to the registers (riscv.h) *)

Definition r_mhartid : M hart_state Z := csrr mhartid.
Definition r_mstatus : M hart_state Z := csrr mstatus.
Definition w_mstatus (x : Z) : M hart_state unit := csrw mstatus x.
Definition w_mepc (x : Z) : M hart_state unit := csrw mepc x.
Definition r_medeleg : M hart_state Z := csrr medeleg.
Definition w_medeleg (x : Z) : M hart_state unit := csrw medeleg (Z.land x medeleg_mask).
Definition r_mideleg : M hart_state Z := csrr mideleg.
Definition w_mideleg (x : Z) : M hart_state unit := csrw mideleg (Z.land x mideleg_mask).
Definition r_mie : M hart_state Z := csrr mie.
Definition w_mie (x : Z) : M hart_state unit := csrw mie x.
(** [sie] and [sip] show the delegated bits of [mie] and [mip]. *)
Definition r_sie : M hart_state Z := let! v := csrr mie in let! d := csrr mideleg in ret (Z.land v d).
Definition w_sie (x : Z) : M hart_state unit :=
  let! v := csrr mie in
  let! d := csrr mideleg in
  csrw mie (Z.lor (Z.ldiff v d) (Z.land x d)).
Definition r_sip : M hart_state Z := let! v := csrr mip in let! d := csrr mideleg in ret (Z.land v d).
Definition w_sip (x : Z) : M hart_state unit :=
  let! v := csrr mip in
  let! d := csrr mideleg in
  csrw mip (Z.lor (Z.ldiff v d) (Z.land x d)).
Definition r_stimecmp : M hart_state Z := csrr stimecmp.
Definition w_stimecmp (x : Z) : M hart_state unit := csrw stimecmp x.
Definition r_menvcfg : M hart_state Z := csrr menvcfg.
Definition w_menvcfg (x : Z) : M hart_state unit := csrw menvcfg x.
Definition w_pmpcfg0 (x : Z) : M hart_state unit := csrw pmpcfg0 x.
Definition w_pmpaddr0 (x : Z) : M hart_state unit := csrw pmpaddr0 x.
Definition w_satp (x : Z) : M hart_state unit := csrw satp_ x.
Definition r_mcounteren : M hart_state Z := csrr mcounteren.
Definition w_mcounteren (x : Z) : M hart_state unit := csrw mcounteren x.
Definition r_time : M hart_state Z := csrr time_.
Definition w_tp (x : Z) : M hart_state unit := modify (set_h_tp (u64 x)).

Definition MSTATUS_MPP_MASK : Z := Z.shiftl 3 11.
Definition MSTATUS_MPP_M : Z := Z.shiftl 3 11.
Definition MSTATUS_MPP_S : Z := Z.shiftl 1 11.
Definition MSTATUS_MPP_U : Z := Z.shiftl 0 11.
Definition SIE_SEIE : Z := Z.shiftl 1 9.
Definition SIE_STIE : Z := Z.shiftl 1 5.
Definition MENVCFG_STCE : Z := Z.shiftl 1 63.
Definition MENVCFG_ADUE : Z := Z.shiftl 1 61.

(** The instruction [mret]: to the mode in MPP, with the interrupt enable in
    MPIE; MPP is then the least privileged mode. *)
Definition mret : M hart_state unit := fun h =>
  let v := h_csr h mstatus in
  let v' := Z.lor (Z.lor (Z.ldiff v (Z.lor MSTATUS_MPP_MASK (Z.shiftl 1 3))) (Z.shiftl 1 7)) (if Z.testbit v 7 then Z.shiftl 1 3 else 0) in
  let go m := Ret tt (set_h_csr mstatus v' (set_h_mode m (set_h_pc (h_csr h mepc) h))) in
  let mpp := Z.land v MSTATUS_MPP_MASK in
  if mpp =? MSTATUS_MPP_M then go Machine
  else if mpp =? MSTATUS_MPP_S then go Supervisor
  else if mpp =? MSTATUS_MPP_U then go User
  else Fault.

(** ** start.c; [main_] is the address of [main] *)

Definition timerinit : M hart_state unit :=
  do! (let! v := r_menvcfg in w_menvcfg (Z.lor v MENVCFG_STCE));
  do! (let! v := r_mcounteren in w_mcounteren (Z.lor v 2));
  let! t := r_time in
  w_stimecmp (t + 1000000).

Definition start (main_ : Z) : M hart_state unit :=
  let! x := r_mstatus in
  let x := Z.ldiff x MSTATUS_MPP_MASK in
  let x := Z.lor x MSTATUS_MPP_S in
  do! w_mstatus x;
  do! w_mepc main_;
  do! w_satp 0;
  do! w_medeleg 65535;
  do! w_mideleg 65535;
  do! (let! v := r_sie in w_sie (Z.lor (Z.lor v SIE_SEIE) SIE_STIE));
  do! w_pmpaddr0 18014398509481983;
  do! w_pmpcfg0 15;
  do! (let! v := r_menvcfg in w_menvcfg (Z.lor v MENVCFG_ADUE));
  do! timerinit;
  let! id := r_mhartid in
  do! w_tp (i32 id);
  mret.

End Machine.

(** ** main.c *)

Inductive call : Type :=
| Consoleinit | Printkinit | Printk | Kinit | Kvminit | Kvminithart | Procinit | Trapinit | Trapinithart | Plicinit | Plicinithart
| Binit | Iinit | Fileinit | Virtio_disk_init | Userinit | Scheduler.

(** A hart about to call, inside a call, at the store or at the loop. *)
Inductive instr : Type := Call (c : call) | In (c : call) | Set_started | Wait_started.

Definition init_calls : list call :=
  [Consoleinit; Printkinit; Printk; Printk; Printk; Kinit; Kvminit; Kvminithart; Procinit; Trapinit; Trapinithart; Plicinit; Plicinithart;
   Binit; Iinit; Fileinit; Virtio_disk_init; Userinit].
Definition main (cpuid : Z) : list instr :=
  (if cpuid =? 0 then map Call init_calls ++ [Set_started]
   else [Wait_started; Call Printk; Call Kvminithart; Call Trapinithart; Call Plicinithart]) ++ [Call Scheduler].

(** What is seen: the begin and the end of the calls of the harts. *)
Inductive event : Type := Begin (h : Z) (c : call) | End (h : Z) (c : call).
Record bootst : Type := Booting { started : bool; harts : gmap Z (list instr); trace : list event }.

Inductive bstep : bootst -> bootst -> Prop :=
| B_call h c k st hs tr : hs !! h = Some (Call c :: k) -> bstep (Booting st hs tr) (Booting st (<[h := In c :: k]> hs) (tr ++ [Begin h c]))
| B_return h c k st hs tr : hs !! h = Some (In c :: k) -> c <> Scheduler -> bstep (Booting st hs tr) (Booting st (<[h := k]> hs) (tr ++ [End h c]))
| B_set h k st hs tr : hs !! h = Some (Set_started :: k) -> bstep (Booting st hs tr) (Booting true (<[h := k]> hs) tr)
| B_wait h k hs tr : hs !! h = Some (Wait_started :: k) -> bstep (Booting true hs tr) (Booting true (<[h := k]> hs) tr).

(** Every hart enters [main] with its number in [tp]. *)
Definition entered (n : nat) : bootst := Booting false (list_to_map ((fun i => (Z.of_nat i, main (Z.of_nat i))) <$> seq 0 n)) [].

(** ** Properties of [start] *)

Lemma u64_testbit x n : 0 <= n -> Z.testbit (u64 x) n = (n <? 64) && Z.testbit x n.
Proof.
  intros Hn. unfold u64. change 18446744073709551616 with (2 ^ 64). destruct (Z.ltb_spec n 64); [now rewrite Z.mod_pow2_bits_low by lia|now rewrite Z.mod_pow2_bits_high by lia].
Qed.
Lemma shift_bit k n : 0 <= k -> 0 <= n -> Z.testbit (Z.shiftl 1 k) n = (n =? k).
Proof.
  intros Hk Hn. rewrite Z.shiftl_spec by lia. destruct (Z.eqb_spec n k) as [->|Hne]; [now rewrite Z.sub_diag|].
  destruct (Z_lt_ge_dec n k); [now apply Z.testbit_neg_r; lia|]. replace 1 with (2 ^ 0) by reflexivity. apply Z.pow2_bits_false. lia.
Qed.
Lemma mask_bit n : 0 <= n -> Z.testbit MSTATUS_MPP_MASK n = (n =? 11) || (n =? 12).
Proof.
  intros Hn. change MSTATUS_MPP_MASK with (Z.lor (Z.shiftl 1 11) (Z.shiftl 1 12)). now rewrite Z.lor_spec, !shift_bit by lia.
Qed.
(** After the two assignments the previous mode is supervisor. *)
Lemma mpp_supervisor x : Z.land (u64 (Z.lor (Z.ldiff x MSTATUS_MPP_MASK) MSTATUS_MPP_S)) MSTATUS_MPP_MASK = MSTATUS_MPP_S.
Proof.
  apply Z.bits_inj'. intros n Hn. unfold MSTATUS_MPP_S. rewrite Z.land_spec, u64_testbit, Z.lor_spec, Z.ldiff_spec, mask_bit, !shift_bit by lia.
  destruct (Z.ltb_spec n 64), (Z.eqb_spec n 11), (Z.eqb_spec n 12), (Z.testbit x n); simpl; try done; lia.
Qed.

(** A 64-bit register. *)
Definition words_ok (h : hart_state) : Prop := forall r, 0 <= h_csr h r < 18446744073709551616.

Lemma set_bit x k : 0 <= x < 18446744073709551616 -> 0 <= k < 64 -> forall n, 0 <= n -> Z.testbit (u64 (Z.lor x (Z.shiftl 1 k))) n = (n =? k) || Z.testbit x n.
Proof.
  intros Hx Hk n Hn. rewrite u64_testbit, Z.lor_spec, shift_bit by lia. assert (64 <= n -> Z.testbit x n = false) as Hhigh.
  { intros H. destruct (Z.eq_dec x 0) as [->|]; [apply Z.testbit_0_l|]. apply Z.bits_above_log2; [lia|]. apply Z.log2_lt_pow2; [lia|]. apply (Z.lt_le_trans _ (2 ^ 64)); [lia|]. apply Z.pow_le_mono_r; lia. }
  destruct (Z.ltb_spec n 64), (Z.eqb_spec n k); simpl; try lia; rewrite ?orb_true_r, ?orb_false_r; try done. now rewrite Hhigh.
Qed.

Lemma csr_eq r x h : h_csr (set_h_csr r x h) r = x.
Proof. simpl. now rewrite decide_True. Qed.
Lemma csr_ne r r' x h : r' <> r -> h_csr (set_h_csr r x h) r' = h_csr h r'.
Proof. intros H. simpl. now rewrite decide_False. Qed.
Lemma csr_tp r x h : h_csr (set_h_tp x h) r = h_csr h r.
Proof. done. Qed.
#[local] Arguments set_h_csr : simpl never.
Ltac csrs := repeat first [rewrite csr_eq|rewrite csr_ne by discriminate|rewrite csr_tp].

(** [mret] with the previous mode supervisor. *)
Lemma wp_mret (Q : unit -> hart_state -> Prop) h : Z.land (h_csr h mstatus) MSTATUS_MPP_MASK = MSTATUS_MPP_S ->
  (forall v, Z.testbit v 1 = Z.testbit (h_csr h mstatus) 1 -> Q tt (set_h_csr mstatus v (set_h_mode Supervisor (set_h_pc (h_csr h mepc) h)))) -> wp mret Q h.
Proof.
  intros Hm HQ. unfold wp, mret. rewrite Hm. change (MSTATUS_MPP_S =? MSTATUS_MPP_M) with false. rewrite Z.eqb_refl. apply HQ.
  rewrite !Z.lor_spec, Z.ldiff_spec, Z.lor_spec, mask_bit, !shift_bit by lia. destruct (Z.testbit _ 7); [rewrite shift_bit by lia|rewrite Z.testbit_0_l]; simpl; now rewrite ?orb_false_r, ?andb_true_r.
Qed.

Lemma delegated x m k : Z.land m k = k -> Z.land x k = k -> 0 <= Z.land x m < 18446744073709551616 -> Z.land (u64 (Z.land x m)) k = k.
Proof. intros Hm Hx Hr. rewrite u64_small by done. now rewrite <- Z.land_assoc, Hm. Qed.
Lemma land_16 m : 0 <= Z.land 65535 m < 18446744073709551616.
Proof. change 65535 with (Z.ones 16). rewrite Z.land_comm, Z.land_ones by lia. pose proof (Z.mod_pos_bound m (2 ^ 16) ltac:(lia)). lia. Qed.

(** Setting the two delegated enable bits through [sie]. *)
Lemma sie_bits v d n : 0 <= v < 18446744073709551616 -> Z.land d s_interrupts = s_interrupts -> 0 <= n < 64 ->
  Z.testbit (u64 (Z.lor (Z.ldiff v d) (Z.land (Z.lor (Z.lor (Z.land v d) SIE_SEIE) SIE_STIE) d))) n = (n =? 5) || (n =? 9) || Z.testbit v n.
Proof.
  intros Hv Hd Hn. rewrite u64_testbit, Z.lor_spec, Z.ldiff_spec, Z.land_spec, !Z.lor_spec, Z.land_spec by lia. unfold SIE_SEIE, SIE_STIE. rewrite !shift_bit by lia.
  rewrite (proj2 (Z.ltb_lt n 64)) by lia. pose proof (f_equal (fun z => Z.testbit z n) Hd) as Hb. simpl in Hb. rewrite Z.land_spec in Hb.
  destruct (Z.eqb_spec n 5) as [->|]; [change (Z.testbit s_interrupts 5) with true in Hb; rewrite andb_true_r in Hb; rewrite Hb; simpl; now rewrite !orb_true_r|].
  destruct (Z.eqb_spec n 9) as [->|]; [change (Z.testbit s_interrupts 9) with true in Hb; rewrite andb_true_r in Hb; rewrite Hb; simpl; now rewrite !orb_true_r|].
  destruct (Z.testbit v n), (Z.testbit d n); done.
Qed.

(** Every hart enters the kernel as [main] expects.  From machine mode,
    whatever the registers hold, [start] returns into supervisor mode at
    [main] with paging off, the hart's number in [tp], the supervisor's
    interrupts and exceptions delegated, its external and timer interrupts
    enabled in [sie] (the delegation comes first, so the write takes effect)
    and no other bit of [mie] changed, all memory accessible, the first timer
    interrupt requested, and the global interrupt enable as it was. *)
Theorem start_enters `{D : Delegation} (HD : DelegationOk D) h main_ :
  h_mode h = Machine -> words_ok h -> h_csr h mhartid < NCPU -> 0 <= main_ < 18446744073709551616 ->
  wp (start main_) (fun _ h' =>
    h_mode h' = Supervisor /\ h_pc h' = main_ /\ h_tp h' = h_csr h mhartid /\ h_csr h' satp_ = 0 /\
    Z.land (h_csr h' mideleg) s_interrupts = s_interrupts /\ Z.land (h_csr h' medeleg) s_exceptions = s_exceptions /\
    (forall n, 0 <= n < 64 -> Z.testbit (h_csr h' mie) n = (n =? 5) || (n =? 9) || Z.testbit (h_csr h mie) n) /\
    (forall n, 0 <= n < 64 -> Z.testbit (h_csr h' menvcfg) n = (n =? 63) || (n =? 61) || Z.testbit (h_csr h menvcfg) n) /\
    (forall n, 0 <= n < 64 -> Z.testbit (h_csr h' mcounteren) n = (n =? 1) || Z.testbit (h_csr h mcounteren) n) /\
    h_csr h' pmpaddr0 = 2 ^ 54 - 1 /\ h_csr h' pmpcfg0 = 15 /\ h_csr h' stimecmp = u64 (h_csr h time_ + 1000000) /\
    Z.testbit (h_csr h' mstatus) 1 = Z.testbit (h_csr h mstatus) 1) h.
Proof.
  intros Hm Hw Hid Hmain. pose proof (Hw mhartid) as Hid0. destruct HD as [HD1 HD2].
  unfold start, timerinit, r_mstatus, w_mstatus, w_mepc, w_satp, w_medeleg, w_mideleg, r_sie, w_sie, w_pmpaddr0, w_pmpcfg0, r_menvcfg, w_menvcfg, r_mcounteren, w_mcounteren, r_time, w_stimecmp, r_mhartid, w_tp, csrr, csrw.
  wsteps. csrs. assert (Z.land (u64 (Z.land 65535 mideleg_mask)) s_interrupts = s_interrupts) as Hint by (apply delegated; [done|reflexivity|apply land_16]).
  apply wp_mret; csrs; [apply mpp_supervisor|]. intros v Hv. cbn [set_h_mode set_h_pc set_h_tp h_mode h_pc h_tp].
  assert (forall r x h0, h_csr (set_h_mode r (set_h_pc x h0)) = h_csr h0) as Hsame by done. split_and!; csrs; rewrite ?Hsame; csrs.
  - done.
  - now apply u64_small.
  - change (u64 (i32 (h_csr h mhartid)) = h_csr h mhartid). rewrite i32_small, u64_small by lia. done.
  - done.
  - exact Hint.
  - apply delegated; [done|reflexivity|apply land_16].
  - intros n Hn. now apply sie_bits.
  - intros n Hn. unfold MENVCFG_STCE, MENVCFG_ADUE. rewrite !set_bit by (try apply u64_range; try apply Hw; lia). now rewrite orb_assoc.
  - intros n Hn. change 2 with (Z.shiftl 1 1). apply set_bit; [apply Hw|lia|lia].
  - done.
  - done.
  - done.
  - rewrite Hv, u64_testbit, Z.lor_spec, Z.ldiff_spec, mask_bit by lia. unfold MSTATUS_MPP_S. rewrite shift_bit by lia. simpl. now rewrite andb_true_r, orb_false_r.
Qed.

(** ** Properties of [main] *)

(** The events of a hart that has executed [l]. *)
Definition event_of (h : Z) (i : instr) : list event :=
  match i with Call c => [Begin h c; End h c] | In c => [Begin h c] | _ => [] end.

(** The code of hart [h] that is done, without its last call when that has
    only begun, and what is left. *)
Inductive progress (h : Z) (tr : list event) (k : list instr) : Prop :=
| Between l : main h = l ++ k -> (forall c, Call c ∈ l -> End h c ∈ tr) -> progress h tr k
| Inside l c k' : k = In c :: k' -> main h = l ++ Call c :: k' -> (forall c, Call c ∈ l -> End h c ∈ tr) -> progress h tr k.

(** What must come before a call: on hart 0 the calls before it, on the other
    harts all the initialisation. *)
Definition ready (tr : list event) (h : Z) (c : call) : Prop :=
  (h <> 0 -> forall d, d ∈ init_calls -> End 0 d ∈ tr) /\
  (c = Scheduler -> End h Kvminithart ∈ tr /\ End h Trapinithart ∈ tr /\ End h Plicinithart ∈ tr /\ forall d, d ∈ init_calls -> End 0 d ∈ tr).

Record binv (s : bootst) : Prop := {
  bi_progress : forall h k, harts s !! h = Some k -> progress h (trace s) k;
  bi_started : started s = true -> forall d, d ∈ init_calls -> End 0 d ∈ trace s;
  bi_wait : forall h k, harts s !! h = Some k -> h <> 0 -> k = main h \/ started s = true;
  bi_order : forall pre h c post, trace s = pre ++ Begin h c :: post -> ready pre h c;
}.

Lemma progress_mono h tr tr' k : progress h tr k -> (forall e, e ∈ tr -> e ∈ tr') -> progress h tr' k.
Proof. intros [l H1 H2|l c k' H1 H2 H3] Ht; [eapply Between|eapply Inside]; eauto. Qed.

Lemma split_unique {A : Type} (x : A) l1 : forall r1 l2 r2, x ∉ l1 -> x ∉ r1 -> l1 ++ x :: r1 = l2 ++ x :: r2 -> l1 = l2.
Proof.
  induction l1 as [|a l1 IH]; intros r1 [|b l2] r2 H1 H2 E; simpl in E; [done| | |].
  - injection E as -> E. exfalso. apply H2. rewrite E. apply elem_of_app. right. left.
  - injection E as -> E. exfalso. apply H1. left.
  - injection E as -> E. f_equal. apply (IH r1 l2 r2); [|done|done]. intros H. apply H1. now right.
Qed.
#[global] Instance call_eq_dec : EqDecision call.
Proof. solve_decision. Defined.
#[global] Instance instr_eq_dec : EqDecision instr.
Proof. solve_decision. Defined.

Lemma main_not_inside h c : In c ∉ main h.
Proof.
  assert (Forall (fun i => match i with In _ => False | _ => True end) (main h)) as H by (unfold main; destruct (h =? 0); repeat constructor).
  intros Hin. rewrite Forall_forall in H. exact (H _ Hin).
Qed.

Lemma main_set h l k : main h = l ++ Set_started :: k -> h = 0 /\ l = map Call init_calls.
Proof.
  unfold main. destruct (Z.eqb_spec h 0) as [->|Hne]; intros E.
  - split; [done|]. rewrite <- app_assoc in E. symmetry. apply (split_unique Set_started _ [Call Scheduler] l k); [apply (bool_decide_unpack _); vm_compute; exact I|apply (bool_decide_unpack _); vm_compute; exact I|exact E].
  - exfalso. assert (Set_started ∈ l ++ Set_started :: k) as H by (apply elem_of_app; right; left). rewrite <- E in H. revert H. apply (bool_decide_unpack _). vm_compute. exact I.
Qed.
Lemma main_scheduler h l k : main h = l ++ Call Scheduler :: k ->
  (h = 0 -> forall d, d ∈ init_calls -> Call d ∈ l) /\ Call Kvminithart ∈ l /\ Call Trapinithart ∈ l /\ Call Plicinithart ∈ l /\ k = [].
Proof.
  unfold main. intros E. pose proof E as E'. apply split_unique in E'; [|destruct (h =? 0); apply (bool_decide_unpack _); vm_compute; exact I|apply (bool_decide_unpack _); vm_compute; exact I].
  rewrite <- E' in *. apply app_inv_head in E. injection E as <-.
  destruct (Z.eqb_spec h 0) as [->|Hne]; (split; [|split_and!; try done; apply (bool_decide_unpack _); vm_compute; exact I]).
  - intros _ d Hd. apply elem_of_app. left. now apply list_elem_of_fmap_2.
  - intros ->. done.
Qed.

Lemma main_waits h i k : h <> 0 -> i :: k = main h -> i = Wait_started.
Proof. intros H0. unfold main. apply Z.eqb_neq in H0. rewrite H0. now intros [= -> _]. Qed.

Lemma begin_order tr e : (forall pre h c post, tr = pre ++ Begin h c :: post -> ready pre h c) ->
  (forall h c, e = Begin h c -> ready tr h c) -> forall pre h c post, tr ++ [e] = pre ++ Begin h c :: post -> ready pre h c.
Proof.
  intros H He pre h c post E. destruct (decide (post = [])) as [->|Hp].
  - apply app_inj_tail in E as [-> ->]. now apply He.
  - apply exists_last in Hp as (post' & x & ->). rewrite app_comm_cons, app_assoc in E. apply app_inj_tail in E as [E _]. now apply (H pre h c post').
Qed.

Lemma bstep_inv s s' : bstep s s' -> binv s -> binv s'.
Proof.
  intros Hstep [I1 I2 I3 I4]. destruct Hstep as [h c k st hs tr Hh|h c k st hs tr Hh Hc|h k st hs tr Hh|h k hs tr Hh]; simpl in *.
  - assert (exists l, main h = l ++ Call c :: k /\ forall c, Call c ∈ l -> End h c ∈ tr) as (l & El & Hl).
    { destruct (I1 h _ Hh) as [l H1 H2|l d k' H1 _ _]; [eauto|discriminate]. }
    assert (forall e, e ∈ tr -> e ∈ tr ++ [Begin h c]) as Hmono by (intros; apply elem_of_app; auto).
    constructor; simpl.
    + intros i k0 Hi. destruct (decide (i = h)) as [->|Hne]; [rewrite lookup_insert_eq in Hi; injection Hi as <-; eapply Inside; eauto|].
      rewrite lookup_insert_ne in Hi by done. eapply progress_mono; eauto.
    + eauto.
    + intros i k0 Hi H0. destruct (decide (i = h)) as [->|Hne]; [|rewrite lookup_insert_ne in Hi by done; eauto].
      destruct (I3 h _ Hh H0) as [E|E]; [|now right]. now apply main_waits in E.
    + apply begin_order; [done|]. intros h0 c0 E. injection E as <- <-. split.
      * intros H0. destruct (I3 h _ Hh H0) as [E|E]; [|now apply I2]. now apply main_waits in E.
      * intros ->. destruct (main_scheduler h l k El) as (M1 & M2 & M3 & M4 & _). split_and!; auto. destruct (Z.eq_dec h 0) as [->|H0].
        -- intros d Hd. now apply Hl, M1.
        -- destruct (I3 h _ Hh H0) as [E|E]; [|now apply I2]. now apply main_waits in E.
  - assert (exists l, main h = l ++ Call c :: k /\ forall c, Call c ∈ l -> End h c ∈ tr) as (l & El & Hl).
    { destruct (I1 h _ Hh) as [l H1 H2|l d k' H1 H2 H3]; [|injection H1 as <- <-; eauto].
      exfalso. apply (main_not_inside h c). rewrite H1. apply elem_of_app. right. left. }
    assert (forall e, e ∈ tr -> e ∈ tr ++ [End h c]) as Hmono by (intros; apply elem_of_app; auto).
    constructor; simpl.
    + intros i k0 Hi. destruct (decide (i = h)) as [->|Hne].
      * rewrite lookup_insert_eq in Hi. injection Hi as <-. apply (Between _ _ _ (l ++ [Call c])); [now rewrite <- app_assoc|].
        intros d Hd. apply elem_of_app in Hd as [Hd|Hd]; [auto|]. apply list_elem_of_singleton in Hd. injection Hd as ->. apply elem_of_app. right. left.
      * rewrite lookup_insert_ne in Hi by done. eapply progress_mono; eauto.
    + eauto.
    + intros i k0 Hi H0. destruct (decide (i = h)) as [->|Hne]; [|rewrite lookup_insert_ne in Hi by done; eauto].
      destruct (I3 h _ Hh H0) as [E|E]; [|now right]. now apply main_waits in E.
    + apply begin_order; [done|]. discriminate.
  - destruct (I1 h _ Hh) as [l H1 H2|l d k' H1 _ _]; [|discriminate]. destruct (main_set h l k H1) as [-> ->].
    constructor; simpl; [| |auto|done].
    + intros i k0 Hi. destruct (decide (i = 0)) as [->|Hne]; [|rewrite lookup_insert_ne in Hi by done; eauto].
      rewrite lookup_insert_eq in Hi. injection Hi as <-. apply (Between _ _ _ (map Call init_calls ++ [Set_started])); [now rewrite <- app_assoc|].
      intros d Hd. apply elem_of_app in Hd as [Hd|Hd]; [auto|]. apply list_elem_of_singleton in Hd. discriminate.
    + intros _ d Hd. apply H2. now apply list_elem_of_fmap_2.
  - destruct (I1 h _ Hh) as [l H1 H2|l d k' H1 _ _]; [|discriminate]. constructor; simpl; [|done|auto|done].
    intros i k0 Hi. destruct (decide (i = h)) as [->|Hne]; [|rewrite lookup_insert_ne in Hi by done; eauto].
    rewrite lookup_insert_eq in Hi. injection Hi as <-. apply (Between _ _ _ (l ++ [Wait_started])); [now rewrite <- app_assoc|].
    intros d Hd. apply elem_of_app in Hd as [Hd|Hd]; [auto|]. apply list_elem_of_singleton in Hd. discriminate.
Qed.

Lemma entered_inv n : binv (entered n).
Proof.
  assert (forall h k, harts (entered n) !! h = Some k -> k = main h) as Hk.
  { intros h k H. apply elem_of_list_to_map_2, list_elem_of_fmap in H as (i & E & _). injection E as -> ->. done. }
  constructor; simpl; try done.
  - intros h k H. rewrite (Hk h k H). apply (Between _ _ _ []); [done|]. intros c Hc. now apply elem_of_nil in Hc.
  - intros h k H _. left. exact (Hk h k H).
  - intros pre h c post E. now destruct pre.
Qed.

(** C19: no hart runs ahead of the initialisation.  On every interleaving of
    any number of harts in [main], when a hart other than 0 begins any call,
    all the initialisation of hart 0 has ended; and when a hart, 0 or another,
    enters the scheduler, besides that it has itself turned on paging,
    installed its trap vector and set up its interrupts. *)
Theorem boot_order n s pre h c post : rtc bstep (entered n) s -> trace s = pre ++ Begin h c :: post ->
  (h <> 0 -> forall d, d ∈ init_calls -> End 0 d ∈ pre) /\
  (c = Scheduler -> End h Kvminithart ∈ pre /\ End h Trapinithart ∈ pre /\ End h Plicinithart ∈ pre /\ forall d, d ∈ init_calls -> End 0 d ∈ pre).
Proof.
  intros Hrun. assert (binv s) as [_ _ _ H]; [|apply H]. remember (entered n) as s0 eqn:E0. assert (binv s0) as H0 by (subst; apply entered_inv). clear E0.
  induction Hrun; [done|]. eauto using bstep_inv.
Qed.

Module Example.
#[local] Instance delegation : Delegation := {| mideleg_mask := s_interrupts; medeleg_mask := 46079 |}.
Lemma delegation_ok : DelegationOk delegation.
Proof. split; reflexivity. Qed.
Definition powered_on : hart_state := Hart Machine 2147483648 0 (fun r => if decide (r = mhartid) then 3 else 0).

Lemma start_enters_witness : wp (start 2147484000) (fun _ h' => h_mode h' = Supervisor /\ h_pc h' = 2147484000 /\ h_tp h' = 3) powered_on.
Proof.
  eapply wp_mono; [apply (start_enters delegation_ok powered_on 2147484000); [reflexivity| |reflexivity|lia]|].
  - intros r. simpl. destruct (decide (r = mhartid)); lia.
  - intros [] h' (H1 & H2 & H3 & _). split; [exact H1|]. split; [exact H2|exact H3].
Defined.

(** A hart runs a list of calls. *)
Lemma run_calls h k cs : forall st hs tr, hs !! h = Some (map Call cs ++ k) -> Scheduler ∉ cs ->
  rtc bstep (Booting st hs tr) (Booting st (<[h := k]> hs) (tr ++ concat (map (fun c => [Begin h c; End h c]) cs))).
Proof.
  induction cs as [|c cs IH]; intros st hs tr Hh Hn; simpl.
  - rewrite app_nil_r, insert_id by done. apply rtc_refl.
  - apply not_elem_of_cons in Hn as [Hc Hn]. eapply rtc_l; [apply B_call; exact Hh|]. eapply rtc_l; [apply B_return; [apply lookup_insert_eq|congruence]|].
    rewrite insert_insert_eq. specialize (IH st (<[h := map Call cs ++ k]> hs) ((tr ++ [Begin h c]) ++ [End h c])).
    rewrite insert_insert_eq in IH. replace (tr ++ Begin h c :: End h c :: concat (map (fun c => [Begin h c; End h c]) cs))
      with (((tr ++ [Begin h c]) ++ [End h c]) ++ concat (map (fun c => [Begin h c; End h c]) cs)) by (now rewrite <- !app_assoc).
    apply IH; [apply lookup_insert_eq|done].
Qed.

Lemma boot_order_witness : exists s pre, rtc bstep (entered 2) s /\ trace s = pre ++ [Begin 1 Printk] /\ End 0 Userinit ∈ pre.
Proof.
  assert (exists s pre, rtc bstep (entered 2) s /\ trace s = pre ++ [Begin 1 Printk]) as (s & pre & Hr & Ht).
  { eexists. eexists. split.
    - etransitivity; [apply (run_calls 0 [Set_started; Call Scheduler] init_calls); [reflexivity|apply (bool_decide_unpack _); vm_compute; exact I]|].
      eapply rtc_l; [apply (B_set 0 [Call Scheduler]); reflexivity|].
      eapply rtc_l; [apply (B_wait 1 [Call Printk; Call Kvminithart; Call Trapinithart; Call Plicinithart; Call Scheduler]); reflexivity|].
      eapply rtc_l; [apply (B_call 1 Printk [Call Kvminithart; Call Trapinithart; Call Plicinithart; Call Scheduler]); reflexivity|]. apply rtc_refl.
    - reflexivity. }
  exists s, pre. split; [exact Hr|]. split; [exact Ht|]. destruct (boot_order 2 s pre 1 Printk [] Hr Ht) as [H _].
  apply H; [discriminate|]. apply (bool_decide_unpack _). vm_compute. exact I.
Defined.
End Example.
