(* ===== verification/Umalloc.v ===== *)
(** * The allocator of user programs (user/umalloc.c)

    Kernighan and Ritchie's allocator.  The free blocks are a circular list
    in address order, through the header [base], which has size 0 and lies
    below the heap; a block's size counts units of one header (16 bytes), its
    own header included.  The headers are kept by address; reading a field
    that was never written is a memory error, so the theorems exclude it.

    [heap_inv F A]: the free list is [F], in address order, and the live
    blocks are [A].  Blocks do not overlap, and no two free blocks touch. *)

From stdpp Require Import sorting.
From S2P Require Import Prelude.

(** ** Data *)

(** [s.ptr] and [s.size] of the headers, by address; [brk] is the process's
    size. *)
Record uheap : Type := Uheap {
  ptrs : gmap Z Z;
  sizes : gmap Z Z;
  freep : Z;
  brk : Z;
}.
Definition set_ptrs x (s : uheap) : uheap := Uheap x (sizes s) (freep s) (brk s).
Definition set_sizes x (s : uheap) : uheap := Uheap (ptrs s) x (freep s) (brk s).
Definition set_freep x (s : uheap) : uheap := Uheap (ptrs s) (sizes s) x (brk s).
Definition set_brk x (s : uheap) : uheap := Uheap (ptrs s) (sizes s) (freep s) x.

(** Where the linker put [base], and where the heap starts; the system call
    behind [sbrk]. *)
Class Process : Type := {
  base : Z;
  heap0 : Z;
  sys_sbrk : Z -> Z -> M uheap Z;
}.

Definition HSIZE : Z := 16.  (* sizeof(Header) *)
Definition SBRK_ERROR : Z := u64 (-1).
Definition SBRK_EAGER : Z := 1.
#[export] Hint Unfold HSIZE : kconst.

Section Allocator.
Context {Pr : Process}.

Definition valid (a : Z) (s : uheap) : bool := (a =? base) || ((heap0 <=? a) && (a + HSIZE <=? brk s)).
Definition get_ptr (a : Z) : M uheap Z := fun s => orfault (ptrs s !! a) s.
Definition get_size (a : Z) : M uheap Z := fun s => orfault (sizes s !! a) s.
Definition put_ptr (a v : Z) : M uheap unit := fun s =>
  if valid a s then Ret tt (set_ptrs (<[a := v]> (ptrs s)) s) else Fault.
Definition put_size (a v : Z) : M uheap unit := fun s =>
  if valid a s then Ret tt (set_sizes (<[a := u32 v]> (sizes s)) s) else Fault.
(** [p + n] for a pointer to headers. *)
Definition padd (p n : Z) : Z := u64 (p + HSIZE * n).

(** ** The code *)

Definition sbrk (n : Z) : M uheap Z := sys_sbrk n SBRK_EAGER.

(** The position of [bp] in the list: the search ends after one turn. *)
Fixpoint free_search (fuel : nat) (bp p : Z) : M uheap Z :=
  match fuel with
  | O => fun _ => Spin
  | S f =>
    let! q := get_ptr p in
    if (p <? bp) && (bp <? q) then ret p
    else if (q <=? p) && ((p <? bp) || (bp <? q)) then ret p
    else free_search f bp q
  end.

(** Join [bp] with the block after it, and [p] with [bp]. *)
Definition join_next (bp p : Z) : M uheap unit :=
  let! sz := get_size bp in
  let! q := get_ptr p in
  if padd bp sz =? q then
    let! qs := get_size q in
    do! put_size bp (sz + qs);
    let! qn := get_ptr q in
    put_ptr bp qn
  else put_ptr bp q.
Definition join_prev (bp p : Z) : M uheap unit :=
  let! ps := get_size p in
  if padd p ps =? bp then
    let! bs := get_size bp in
    do! put_size p (ps + bs);
    let! bn := get_ptr bp in
    put_ptr p bn
  else put_ptr p bp.

Definition free (ap : Z) : M uheap unit :=
  let bp := padd ap (-1) in
  let! fp := gets freep in
  let! n := gets (fun s => size (ptrs s)) in
  let! p := free_search (S n) bp fp in
  do! join_next bp p;
  do! join_prev bp p;
  modify (set_freep p).

Definition morecore (nu : Z) : M uheap Z :=
  let nu := if nu <? 4096 then 4096 else nu in
  let! p := sbrk (i32 (nu * HSIZE)) in
  if p =? SBRK_ERROR then ret 0
  else
    do! put_size p nu;
    do! free (padd p 1);
    gets freep.

(** [for (p = prevp->s.ptr;; prevp = p, p = p->s.ptr)]: at most one turn, and
    another after [morecore]. *)
Fixpoint malloc_loop (fuel : nat) (nunits prevp p : Z) : M uheap Z :=
  match fuel with
  | O => fun _ => Spin
  | S f =>
    let! ps := get_size p in
    if nunits <=? ps then
      let! r :=
        (if ps =? nunits then
           let! q := get_ptr p in
           do! put_ptr prevp q; ret p
         else
           do! put_size p (ps - nunits);
           let! ps' := get_size p in
           do! put_size (padd p ps') nunits;
           ret (padd p ps')) in
      do! modify (set_freep prevp);
      ret (padd r 1)
    else
      let! fp := gets freep in
      if p =? fp then
        let! p' := morecore nunits in
        if p' =? 0 then ret 0 else let! q := get_ptr p' in malloc_loop f nunits p' q
      else let! q := get_ptr p in malloc_loop f nunits p q
  end.

Definition malloc (nbytes : Z) : M uheap Z :=
  let nunits := u32 ((nbytes + HSIZE - 1) / HSIZE + 1) in
  let! fp := gets freep in
  do! (if fp =? 0 then
         do! modify (set_freep base);
         do! put_ptr base base;
         put_size base 0
       else ret tt);
  let! prevp := gets freep in
  let! p := get_ptr prevp in
  let! n := gets (fun s => size (ptrs s)) in
  malloc_loop (2 * n + 4) nunits prevp p.
End Allocator.

(** ** The invariant *)

Definition fin (b : Z * Z) : Z := b.1 + HSIZE * b.2.
Definition apart (x y : Z * Z) : Prop := fin x <= y.1 \/ fin y <= x.1.

(** A list of headers, each with a pointer to the next, the last one to [y]. *)
Fixpoint seg (pt : gmap Z Z) (x : Z) (ns : list Z) (y : Z) : Prop :=
  match ns with
  | [] => x = y
  | n :: ns => x = n /\ exists z, pt !! n = Some z /\ seg pt z ns y
  end.

Section Inv.
Context {Pr : Process}.

Definition addrs (F : list (Z * Z)) : list Z := F.*1.
Definition LIMIT : Z := 68719476736.  (* 2^32 units *)

Record heap_inv (F : list (Z * Z)) (A : gmap Z Z) (s : uheap) : Prop := {
  hi_base : 0 < base < heap0;
  hi_brk : heap0 <= brk s <= LIMIT;
  hi_sorted : StronglySorted (fun x y => fin x < y.1) F;
  hi_free : forall b, b ∈ F -> 0 < b.2 /\ heap0 <= b.1 /\ fin b <= brk s /\ sizes s !! b.1 = Some b.2;
  hi_size : sizes s !! base = Some 0;
  hi_seg : seg (ptrs s) base (base :: addrs F) base;
  hi_freep : freep s ∈ base :: addrs F;
  hi_live : forall a n, A !! a = Some n -> 0 < n /\ heap0 <= a /\ fin (a, n) <= brk s /\ sizes s !! a = Some n;
  hi_apart : forall a n b, A !! a = Some n -> b ∈ F -> apart (a, n) b;
  hi_disjoint : forall a n b m, A !! a = Some n -> A !! b = Some m -> a <> b -> apart (a, n) (b, m);
}.
End Inv.

(** ** Lemmas on segments *)

Lemma seg_app pt l1 : forall x l2 y, seg pt x (l1 ++ l2) y <-> exists z, seg pt x l1 z /\ seg pt z l2 y.
Proof.
  induction l1 as [|n l1 IH]; intros x l2 y; simpl.
  - split; [intros H; exists x; done|]. intros (z & -> & H). done.
  - split.
    + intros (-> & z & Hz & H). apply IH in H as (w & H1 & H2). exists w. split; [|done]. split; [done|]. eauto.
    + intros (w & (-> & z & Hz & H1) & H2). split; [done|]. exists z. split; [done|]. apply IH. eauto.
Qed.
Lemma seg_insert pt a v ns : forall x y, a ∉ ns -> seg pt x ns y -> seg (<[a := v]> pt) x ns y.
Proof.
  induction ns as [|n ns IH]; intros x y Ha; simpl; [done|]. rewrite not_elem_of_cons in Ha. destruct Ha as [Hn Ha].
  intros (-> & z & Hz & H). split; [done|]. exists z. rewrite lookup_insert_ne by done. auto.
Qed.
Lemma seg_head pt x n ns y : seg pt x (n :: ns) y -> x = n.
Proof. now intros [? _]. Qed.
Lemma seg_dom pt ns : forall x y, seg pt x ns y -> forall n, n ∈ ns -> n ∈ dom pt.
Proof.
  induction ns as [|m ns IH]; intros x y H n Hn; [now apply not_elem_of_nil in Hn|].
  destruct H as (-> & z & Hz & H). apply elem_of_cons in Hn as [->|Hn]; [now apply elem_of_dom_2 in Hz|eauto].
Qed.
Lemma ascending_NoDup l : StronglySorted Z.lt l -> NoDup l.
Proof.
  induction l as [|a l IH]; [constructor|]. intros H. apply StronglySorted_cons in H as [H1 H2]. constructor; [|auto].
  intros Hin. rewrite Forall_forall in H1. specialize (H1 a Hin). lia.
Qed.
Lemma seg_size pt x l y : seg pt x l y -> StronglySorted Z.lt l -> (length l <= size pt)%nat.
Proof.
  intros H Hss. rewrite <- (size_dom (D := gset Z)), <- (size_list_to_set (C := gset Z)) by now apply ascending_NoDup.
  apply subseteq_size. intros a Ha. apply elem_of_list_to_set in Ha. eapply seg_dom; eauto.
Qed.
Lemma seg_next pt l1 n l2 x y : seg pt x (l1 ++ n :: l2) y -> exists z, pt !! n = Some z /\ seg pt z l2 y.
Proof. intros H. apply seg_app in H as (w & _ & _ & z & Hz & H). eauto. Qed.

(** A circle can be read from any of its headers. *)
Lemma seg_rotate pt x l1 l2 : seg pt x (l1 ++ l2) x -> exists z, seg pt z (l2 ++ l1) z /\ seg pt x l1 z.
Proof. intros H. apply seg_app in H as (z & H1 & H2). exists z. split; [|done]. apply seg_app. eauto. Qed.

(** ** Freeing *)

(** The specification of [free]: the block goes to its place in the list and
    is joined with the neighbours it touches. *)
Definition join_right (b : Z * Z) (R : list (Z * Z)) : list (Z * Z) :=
  match R with
  | r :: R' => if fin b =? r.1 then (b.1, b.2 + r.2) :: R' else b :: R
  | [] => [b]
  end.
Fixpoint give (b : Z * Z) (F : list (Z * Z)) : list (Z * Z) :=
  match F with
  | [] => [b]
  | f :: F' =>
    if b.1 <? f.1 then join_right b F
    else if fin f =? b.1 then join_right (f.1, f.2 + b.2) F'
    else f :: give b F'
  end.

Definition units (F : list (Z * Z)) : Z := foldr Z.add 0 F.*2.

Section Free.
Context {Pr : Process}.

Lemma free_walk bp l : forall x z f s, seg (ptrs s) x l z -> StronglySorted Z.lt (l ++ [z]) ->
  Forall (fun a => a < bp) (l ++ [z]) \/ Forall (fun a => bp < a) (l ++ [z]) ->
  free_search (length l + f) bp x s = free_search f bp z s.
Proof.
  induction l as [|n l IH]; intros x z f s Hs Hss Hb; [now destruct Hs|].
  destruct Hs as (-> & y & Hy & Hs). simpl in Hss. rewrite StronglySorted_cons in Hss. destruct Hss as [Hn Hss].
  assert (y ∈ l ++ [z]) as Hyin.
  { destruct l as [|m l]; [simpl in Hs; subst; left|]. apply seg_head in Hs as ->. left. }
  rewrite Forall_forall in Hn. specialize (Hn y Hyin).
  assert ((n < bp /\ y < bp) \/ (bp < n /\ bp < y)) as Hcase.
  { destruct Hb as [Hb|Hb]; simpl in Hb; apply Forall_cons in Hb as [H1 H2]; rewrite Forall_forall in H2; specialize (H2 y Hyin); [left|right]; done. }
  simpl. unfold bind at 1, get_ptr, orfault. rewrite Hy. simpl.
  rewrite (proj2 (Z.leb_gt y n)) by done. cbn [andb].
  assert ((n <? bp) && (bp <? y) = false) as -> by (apply andb_false_iff; rewrite !Z.ltb_ge; lia).
  apply IH; [done|done|]. destruct Hb as [Hb|Hb]; simpl in Hb; apply Forall_cons in Hb as [_ Hb]; auto.
Qed.

Lemma free_stop bp p q f s : ptrs s !! p = Some q -> p < bp -> bp < q \/ q <= p -> free_search (S f) bp p s = Ret p s.
Proof.
  intros Hq Hp Hc. simpl. unfold bind at 1, get_ptr, orfault. rewrite Hq. simpl. rewrite (proj2 (Z.ltb_lt p bp)) by done. cbn [andb].
  destruct (bp <? q) eqn:E; [done|]. apply Z.ltb_ge in E. rewrite (proj2 (Z.leb_le q p)) by lia. done.
Qed.
Lemma free_wrap bp p q f s : ptrs s !! p = Some q -> bp < p -> q < bp -> free_search (S f) bp p s = free_search f bp q s.
Proof.
  intros Hq Hp Hc. simpl. unfold bind at 1, get_ptr, orfault. rewrite Hq. simpl. rewrite (proj2 (Z.ltb_ge p bp)) by lia. cbn [andb orb].
  rewrite (proj2 (Z.ltb_ge bp q)) by lia. rewrite andb_false_r. done.
Qed.

(** The headers around [bp]: [ns ++ [p]] below it, [ms] above it. *)
Lemma free_search_spec bp ns p ms x s : seg (ptrs s) x (ns ++ p :: ms) x -> StronglySorted Z.lt (ns ++ p :: ms) ->
  p < bp -> Forall (fun a => bp < a) ms -> freep s ∈ ns ++ p :: ms -> x < bp -> head (ns ++ [p]) = Some x ->
  free_search (S (size (ptrs s))) bp (freep s) s = Ret p s.
Proof.
  intros Hs Hss Hp Hms Hf Hx Hhd. pose proof Hs as Hs'. apply seg_app in Hs' as (p' & Hns & Hpms). pose proof (seg_head _ _ _ _ _ Hpms) as ->.
  destruct Hpms as (_ & q & Hq & Hq2).
  assert (bp < q \/ q <= p) as Hstop.
  { destruct ms as [|m ms]; [simpl in Hq2; subst q; right|apply seg_head in Hq2 as ->; left; now apply Forall_cons in Hms].
    destruct ns as [|n ns]; simpl in Hhd; injection Hhd as ->; [lia|]. simpl in Hss. apply StronglySorted_cons in Hss as [H _].
    rewrite Forall_forall in H. assert (x < p); [|lia]. apply H. apply elem_of_app. right. left. }
  assert (length (ns ++ p :: ms) <= size (ptrs s))%nat as Hlen.
  { eapply seg_size; eauto. }
  rewrite length_app in Hlen. simpl in Hlen.
  assert (forall k l1 l2, ns = l1 ++ l2 -> (length l2 < k)%nat -> forall y, seg (ptrs s) y l2 p -> free_search k bp y s = Ret p s) as Hlow.
  { intros k l1 l2 -> Hk y Hy. replace k with (length l2 + S (k - S (length l2)))%nat by lia. rewrite (free_walk bp l2 y p); [now apply (free_stop bp p q)|done| |].
    - rewrite <- app_assoc, (cons_middle p), app_assoc, app_assoc in Hss. apply StronglySorted_app_1_l in Hss.
      rewrite <- app_assoc in Hss. now apply StronglySorted_app_1_r in Hss.
    - left. rewrite (cons_middle p), app_assoc in Hss. apply StronglySorted_app_1_l in Hss. rewrite <- app_assoc in Hss. apply StronglySorted_app_1_r in Hss.
      rewrite StronglySorted_app in Hss. destruct Hss as (Hlt & _ & _). apply Forall_app. split; [|now constructor].
      apply Forall_forall. intros a Ha. specialize (Hlt a p Ha ltac:(left)). lia. }
  apply elem_of_app in Hf as [Hf|Hf]; [|apply elem_of_cons in Hf as [Hf|Hf]].
  - apply list_elem_of_split in Hf as (l1 & l2 & El). apply (Hlow _ l1 (freep s :: l2)); [done|rewrite El, length_app in Hlen; simpl in *; lia|].
    rewrite El in Hns. apply seg_app in Hns as (z & _ & Hz). pose proof (seg_head _ _ _ _ _ Hz) as ->. done.
  - rewrite Hf. apply (Hlow _ ns []); [now rewrite app_nil_r|simpl; lia|done].
  - apply list_elem_of_split in Hf as (l1 & l2 & El). rewrite El in *. rewrite length_app in Hlen. simpl in Hlen.
    apply seg_app in Hq2 as (z & _ & Hz). pose proof (seg_head _ _ _ _ _ Hz) as ->.
    destruct (exists_last (l := freep s :: l2)) as (l3 & e & E3); [done|]. rewrite E3 in Hz. apply seg_app in Hz as (e' & Hz1 & Hz2).
    pose proof (seg_head _ _ _ _ _ Hz2) as ->. destruct Hz2 as (_ & y & Hy & ->).
    assert (length l3 = length l2) as Hl3 by (apply (f_equal length) in E3; rewrite length_app in E3; simpl in E3; lia).
    assert (Forall (fun a => bp < a) (l3 ++ [e])) as Hab by (rewrite <- E3; now apply Forall_app in Hms).
    replace (S (size (ptrs s))) with (length l3 + (S (size (ptrs s) - length l3)))%nat by lia.
    rewrite (free_walk bp l3 _ e); [|done| |now right].
    + rewrite (free_wrap bp e x); [|done|apply Forall_app in Hab as [_ Hab]; now apply Forall_cons in Hab|done].
      apply (Hlow _ [] ns); [done|lia|exact Hns].
    + rewrite <- E3. rewrite cons_middle, app_assoc in Hss. apply StronglySorted_app_1_r in Hss. now apply StronglySorted_app_1_r in Hss.
Qed.

Lemma wp_get_ptr a v (Q : Z -> uheap -> Prop) s : ptrs s !! a = Some v -> Q v s -> wp (get_ptr a) Q s.
Proof. intros H HQ. unfold wp, get_ptr, orfault. now rewrite H. Qed.
Lemma wp_get_size a v (Q : Z -> uheap -> Prop) s : sizes s !! a = Some v -> Q v s -> wp (get_size a) Q s.
Proof. intros H HQ. unfold wp, get_size, orfault. now rewrite H. Qed.
Definition in_heap (a : Z) (s : uheap) : Prop := a = base \/ (heap0 <= a /\ a + HSIZE <= brk s).
Lemma valid_in a s : in_heap a s -> valid a s = true.
Proof. intros [->|[H1 H2]]; unfold valid; [now rewrite Z.eqb_refl|]. apply orb_true_iff. right. apply andb_true_iff. now rewrite !Z.leb_le. Qed.
Lemma wp_put_ptr a v (Q : unit -> uheap -> Prop) s : in_heap a s -> Q tt (set_ptrs (<[a := v]> (ptrs s)) s) -> wp (put_ptr a v) Q s.
Proof. intros H HQ. unfold wp, put_ptr. now rewrite (valid_in _ _ H). Qed.
Lemma wp_put_size a v (Q : unit -> uheap -> Prop) s : in_heap a s -> 0 <= v < 4294967296 ->
  Q tt (set_sizes (<[a := v]> (sizes s)) s) -> wp (put_size a v) Q s.
Proof. intros H Hv HQ. unfold wp, put_size. rewrite (valid_in _ _ H), u32_small by done. exact HQ. Qed.

Lemma apart_join x l k k' : 0 < x.2 -> 0 < k -> 0 < k' -> apart x (l, k) -> apart x (fin (l, k), k') -> apart x (l, k + k').
Proof. unfold apart, fin. destruct x as [y n]. simpl. lia. Qed.

(** A new free list [F'], in which [(c, m)] is new. *)
Lemma inv_give F A s F' s' a n c m : heap_inv F A s -> A !! a = Some n -> brk s' = brk s ->
  StronglySorted (fun x y => fin x < y.1) F' -> (forall b, b ∈ F' -> b = (c, m) \/ (b ∈ F /\ b.1 <> c)) ->
  0 < m -> heap0 <= c -> fin (c, m) <= brk s -> sizes s' !! c = Some m ->
  (forall y, y <> c -> y <> a -> sizes s' !! y = sizes s !! y) ->
  seg (ptrs s') base (base :: addrs F') base -> freep s' ∈ base :: addrs F' ->
  (forall b k, A !! b = Some k -> b <> a -> apart (b, k) (c, m)) ->
  heap_inv F' (delete a A) s'.
Proof.
  intros [Hbase Hbrk Hs Hf Hsz Hseg Hfp Hl Ha Hd] HA Eb Hs' HF' Hm Hc Hcm Hsc Hsame Hseg' Hfp' Hap. destruct (Hl a n HA) as (Hn & Ha0 & Ha1 & Ha2).
  constructor; try done; [now rewrite Eb|rewrite Eb|rewrite Hsame; [done|lia|lia]| | |].
  - intros b Hb. destruct (HF' b Hb) as [->|[Hb' Hne]]; [done|]. destruct (Hf b Hb') as (H1 & H2 & H3 & H4). rewrite Hsame; [done|done|].
    intros E. destruct (Ha a n b HA Hb'); unfold fin in *; simpl in *; lia.
  - intros b k Hb. rewrite Eb. apply lookup_delete_Some in Hb as [Hne Hb]. destruct (Hl b k Hb) as (H1 & H2 & H3 & H4).
    split; [done|]. split; [done|]. split; [done|]. rewrite Hsame; [done| |done]. intros ->.
    destruct (Hap _ _ Hb ltac:(done)); unfold fin in *; simpl in *; lia.
  - intros b k f Hb Hin. apply lookup_delete_Some in Hb as [Hne Hb]. destruct (HF' f Hin) as [->|[Hin' _]]; [now apply Hap|now apply (Ha b k)].
  - intros b k b' k' Hb Hb'. apply lookup_delete_Some in Hb as [_ Hb], Hb' as [_ Hb']. now apply Hd.
Qed.

(** *** The place of a block *)

Definition placed (a n : Z) (L R : list (Z * Z)) : Prop :=
  Forall (fun f => fin f <= a) L /\ Forall (fun f => a + HSIZE * n <= f.1) R.

Lemma place F a n : StronglySorted (fun x y => fin x < y.1) F -> (forall b, b ∈ F -> 0 < b.2 /\ apart (a, n) b) -> 0 < n ->
  exists L R, F = L ++ R /\ placed a n L R.
Proof.
  intros Hs Hb Hn. induction F as [|f F IH]; [exists [], []; repeat split; constructor|].
  apply StronglySorted_cons in Hs as [Hf Hs]. destruct (Hb f ltac:(left)) as [Hf2 Hap].
  destruct Hap as [Hap|Hap].
  - exists [], (f :: F). split; [done|]. split; [constructor|]. apply Forall_cons. split; [exact Hap|].
    eapply Forall_impl; [exact Hf|]. unfold fin in *. simpl in *. intros x Hx. lia.
  - destruct IH as (L & R & -> & HL & HR); [done|intros b Hin; apply Hb; now right|]. exists (f :: L), R. split; [done|]. split; [|done].
    now apply Forall_cons.
Qed.

Lemma give_below b L R : Forall (fun f => f.1 < b.1 /\ fin f <> b.1) L -> give b (L ++ R) = L ++ give b R.
Proof.
  induction L as [|f L IH]; intros H; [done|]. apply Forall_cons in H as [[H1 H2] H]. simpl.
  rewrite (proj2 (Z.ltb_ge _ _)) by lia. rewrite (proj2 (Z.eqb_neq _ _)) by done. f_equal. auto.
Qed.
Lemma give_above b R : Forall (fun f => b.1 < f.1) R -> give b R = join_right b R.
Proof. destruct R as [|r R]; intros H; [done|]. apply Forall_cons in H as [H _]. cbn [give]. now rewrite (proj2 (Z.ltb_lt _ _)). Qed.

(** The last header at or below the place: [base] or the last free block. *)
Definition below (L : list (Z * Z)) (ns : list Z) (p ps : Z) : Prop :=
  (L = [] /\ ns = [] /\ p = base /\ ps = 0) \/ (exists L', L = L' ++ [(p, ps)] /\ ns = base :: addrs L').
Lemma below_exists L : exists ns p ps, below L ns p ps /\ base :: addrs L = ns ++ [p].
Proof.
  destruct (decide (L = [])) as [->|Hne]; [exists [], base, 0; split; [now left|done]|].
  destruct (exists_last Hne) as (L' & [p ps] & ->). exists (base :: addrs L'), p, ps. split; [right; eauto|].
  unfold addrs. now rewrite fmap_app.
Qed.

Lemma addrs_sorted F A s : heap_inv F A s -> StronglySorted Z.lt (base :: addrs F).
Proof.
  intros H. pose proof (hi_sorted _ _ _ H) as Hs. pose proof (hi_free _ _ _ H) as Hf. pose proof (hi_base _ _ _ H) as Hb.
  apply StronglySorted_cons. split.
  - apply Forall_forall. intros a Ha. apply list_elem_of_fmap in Ha as (f & -> & Hin). destruct (Hf f Hin) as (_ & ? & _). lia.
  - clear -Hs Hf. induction F as [|f F IH]; [constructor|]. apply StronglySorted_cons in Hs as [H1 H2]. apply StronglySorted_cons. split.
    + apply Forall_forall. intros a Ha. apply list_elem_of_fmap in Ha as (g & -> & Hin). rewrite Forall_forall in H1. specialize (H1 g Hin).
      destruct (Hf f ltac:(left)) as [? _]. unfold fin in H1. lia.
    + apply IH; [done|]. intros b Hb. apply Hf. now right.
Qed.

(** *** The two joins *)

Lemma padd_small p n : 0 <= p + HSIZE * n <= LIMIT -> padd p n = p + HSIZE * n.
Proof. intros H. apply u64_small. unfold LIMIT in H. lia. Qed.

(** The state after the first join: the block, perhaps longer, points to what
    follows it. *)
Definition joined (a n' q' : Z) (s s1 : uheap) : Prop :=
  ptrs s1 = <[a := q']> (ptrs s) /\ freep s1 = freep s /\ brk s1 = brk s /\
  sizes s1 !! a = Some n' /\ forall y, y <> a -> sizes s1 !! y = sizes s !! y.

Lemma join_right_code F A s a n L R p q : heap_inv F A s -> A !! a = Some n -> F = L ++ R -> placed a n L R ->
  ptrs s !! p = Some q -> seg (ptrs s) q (addrs R) base ->
  wp (join_next a p)
    (fun _ s1 => exists n' q' R', join_right (a, n) R = (a, n') :: R' /\ joined a n' q' s s1 /\ seg (ptrs s) q' (addrs R') base /\
       (R' = R /\ n' = n /\ Forall (fun f => a + HSIZE * n < f.1) R \/
        exists r, R = r :: R' /\ r.1 = a + HSIZE * n /\ n' = n + r.2)) s.
Proof.
  intros Hi HA EF [HL HR] Hq Hseg. destruct (hi_live _ _ _ Hi a n HA) as (Hn & Ha0 & Ha1 & Has). pose proof (hi_base _ _ _ Hi) as Hb.
  pose proof (hi_brk _ _ _ Hi) as Hbrk. unfold fin in Ha1. simpl in Ha1.
  assert (in_heap a s) as Hin by (right; lia). unfold join_next.
  wsteps. apply (wp_get_size a n); [done|]. wsteps. apply (wp_get_ptr p q); [done|]. rewrite padd_small by lia.
  destruct R as [|r R].
  - simpl in Hseg. subst q. rewrite (proj2 (Z.eqb_neq _ _)) by lia. apply wp_put_ptr; [done|].
    exists n, base, []. split; [done|]. split; [split_and!; done|]. split; [done|]. left. split; [done|]. split; [done|]. constructor.
  - destruct Hseg as (-> & qn & Hqn & Hseg). apply Forall_cons in HR as [Hr HR].
    destruct (hi_free _ _ _ Hi r) as (Hr2 & Hr0 & Hr1 & Hrs); [subst F; apply elem_of_app; right; left|]. unfold fin in Hr1.
    cbn [join_right]. unfold fin. simpl. destruct (a + HSIZE * n =? r.1) eqn:E.
    + apply Z.eqb_eq in E. wsteps. apply (wp_get_size r.1 r.2); [done|]. wsteps. apply wp_put_size; [done|unfold LIMIT in Hbrk; lia|].
      wsteps. apply (wp_get_ptr r.1 qn); [done|]. apply wp_put_ptr; [done|]. exists (n + r.2), qn, R. split; [done|]. split.
      * split; [done|]. split; [done|]. split; [done|]. simpl. split; [now rewrite lookup_insert_eq|]. intros y Hy. now rewrite lookup_insert_ne.
      * split; [done|]. right. exists r. done.
    + apply Z.eqb_neq in E. apply wp_put_ptr; [done|]. exists n, r.1, (r :: R). split; [done|]. split; [split_and!; done|].
      split; [split; [done|]; eauto|]. left. split; [done|]. split; [done|]. apply Forall_cons. split; [lia|].
      pose proof (hi_sorted _ _ _ Hi) as Hs. subst F. apply StronglySorted_app_1_r, StronglySorted_cons in Hs as [Hs _].
      eapply Forall_impl; [exact Hs|]. intros f Hf. unfold fin in Hf. simpl in Hf. lia.
Qed.

Lemma live_not_node F A s a n : heap_inv F A s -> A !! a = Some n -> a ∉ base :: addrs F.
Proof.
  intros Hi HA Hin. destruct (hi_live _ _ _ Hi a n HA) as (Hn & Ha0 & _). pose proof (hi_base _ _ _ Hi).
  apply elem_of_cons in Hin as [->|Hin]; [lia|]. apply list_elem_of_fmap in Hin as (f & -> & Hf).
  destruct (hi_free _ _ _ Hi f Hf) as (Hf2 & _). destruct (hi_apart _ _ _ Hi _ _ _ HA Hf) as [H1|H1]; unfold fin in H1; simpl in H1; lia.
Qed.

(** What follows the place after the first join: farther up, and free
    before. *)
Lemma joined_rest F A s a n n' L R R' : heap_inv F A s -> A !! a = Some n -> F = L ++ R ->
  (R' = R /\ n' = n /\ Forall (fun f => a + HSIZE * n < f.1) R \/ exists r, R = r :: R' /\ r.1 = a + HSIZE * n /\ n' = n + r.2) ->
  Forall (fun f => a + HSIZE * n' < f.1) R' /\ (exists R0, R = R0 ++ R') /\ n <= n' /\ a + HSIZE * n' <= brk s /\
  forall b k, A !! b = Some k -> b <> a -> apart (b, k) (a, n').
Proof.
  intros Hi HA EF D. destruct (hi_live _ _ _ Hi a n HA) as (Hn & Ha0 & Ha1 & Has). unfold fin in Ha1. simpl in Ha1.
  destruct D as [(-> & -> & H)|(r & -> & Hr & ->)].
  - split; [done|]. split; [now exists []|]. split; [lia|]. split; [lia|]. intros b k Hb Hne. now apply (hi_disjoint _ _ _ Hi).
  - assert (r ∈ F) as Hin by (subst F; apply elem_of_app; right; left). destruct (hi_free _ _ _ Hi r Hin) as (Hr2 & _ & Hr1 & _). unfold fin in Hr1.
    pose proof (hi_sorted _ _ _ Hi) as Hs. subst F. apply StronglySorted_app_1_r, StronglySorted_cons in Hs as [Hs _].
    split; [eapply Forall_impl; [exact Hs|]; intros f Hf; unfold fin in Hf; simpl in Hf; lia|]. split; [now exists [r]|]. split; [lia|]. split; [lia|].
    intros b k Hb Hne. destruct (hi_live _ _ _ Hi b k Hb) as (Hk & _). apply apart_join; try done; [now apply (hi_disjoint _ _ _ Hi)|].
    replace (fin (a, n), r.2) with r by (destruct r; unfold fin; simpl in *; now subst). now apply (hi_apart _ _ _ Hi).
Qed.

Lemma join_right_shift a n n' R R' p k : join_right (a, n) R = (a, n') :: R' -> p + HSIZE * k = a ->
  join_right (p, k + n) R = (p, k + n') :: R'.
Proof.
  intros H E. destruct R as [|r R]; simpl in *; [injection H as -> <-; done|]. unfold fin in *. simpl in *.
  replace (p + HSIZE * (k + n)) with (a + HSIZE * n) by lia. destruct (a + HSIZE * n =? r.1); injection H as <- <-; [|done].
  f_equal. f_equal. lia.
Qed.

(** The circle through the new block [c], whose header points to [q]. *)
Lemma seg_mid pt x ns p q l y : seg pt x ns p -> pt !! p = Some q -> seg pt q l y -> seg pt x (ns ++ p :: l) y.
Proof. intros H1 H2 H3. apply seg_app. exists p. split; [done|]. split; [done|]. eauto. Qed.

(** [(c, m)] takes the place of [mid] in the list. *)
Lemma inv_place F A s s' a n c m L0 mid R' : heap_inv F A s -> A !! a = Some n -> F = L0 ++ mid ++ R' ->
  Forall (fun f => fin f < c) L0 -> Forall (fun f => c + HSIZE * m < f.1) R' -> 0 < m -> heap0 <= c -> c + HSIZE * m <= brk s ->
  (forall b k, A !! b = Some k -> b <> a -> apart (b, k) (c, m)) ->
  seg (ptrs s') base (base :: addrs (L0 ++ (c, m) :: R')) base -> freep s' ∈ base :: addrs (L0 ++ (c, m) :: R') -> brk s' = brk s ->
  sizes s' !! c = Some m -> (forall y, y <> c -> y <> a -> sizes s' !! y = sizes s !! y) ->
  heap_inv (L0 ++ (c, m) :: R') (delete a A) s'.
Proof.
  intros Hi HA EF HL Hup Hm Hc Hcm Hap Hseg Hfp Eb Hsc Hsz. pose proof (hi_sorted _ _ _ Hi) as Hs.
  eapply (inv_give F A s _ s' a n c m); try done.
  - subst F. rewrite StronglySorted_app, StronglySorted_cons. split; [|split; [|split; [exact Hup|]]].
    + intros x y Hx Hy. rewrite Forall_forall in HL. specialize (HL x Hx). apply elem_of_cons in Hy as [->|Hy]; [done|].
      rewrite Forall_forall in Hup. specialize (Hup y Hy). lia.
    + now apply StronglySorted_app_1_l in Hs.
    + apply StronglySorted_app_1_r in Hs. now apply StronglySorted_app_1_r in Hs.
  - rewrite Forall_forall in HL, Hup. intros b Hb. apply elem_of_app in Hb as [Hb|Hb]; [|apply elem_of_cons in Hb as [->|Hb]; [now left|]].
    + assert (b ∈ F) as Hin by (subst F; rewrite !elem_of_app; tauto). right. split; [done|]. specialize (HL b Hb).
      destruct (hi_free _ _ _ Hi b Hin) as (H & _). unfold fin in HL. lia.
    + right. split; [subst F; rewrite !elem_of_app; tauto|]. specialize (Hup b Hb). lia.
Qed.

(** The blocks below the last one. *)
Lemma below_fin F A s L' p ps R : heap_inv F A s -> F = (L' ++ [(p, ps)]) ++ R -> 0 < ps /\ Forall (fun f => fin f < p) L'.
Proof.
  intros Hi EF. split; [apply (hi_free _ _ _ Hi (p, ps)); subst F; rewrite !elem_of_app; left; right; left|].
  pose proof (hi_sorted _ _ _ Hi) as Hs. subst F. apply StronglySorted_app_1_l in Hs. rewrite StronglySorted_app in Hs. destruct Hs as (Hlt & _).
  apply Forall_forall. intros f Hf. exact (Hlt f (p, ps) Hf ltac:(left)).
Qed.

(** The headers around the place. *)
Record around (F : list (Z * Z)) (A : gmap Z Z) (s : uheap) (a n : Z) (L R : list (Z * Z)) (ns : list Z) (p ps : Z) : Prop := {
  ar_inv : heap_inv F A s;
  ar_live : A !! a = Some n;
  ar_eq : F = L ++ R;
  ar_placed : placed a n L R;
  ar_below : below L ns p ps;
  ar_nodes : base :: addrs L = ns ++ [p];
}.
Lemma around_nodes F A s a n L R ns p ps R0 R' : around F A s a n L R ns p ps -> R = R0 ++ R' ->
  base :: addrs F = ns ++ p :: addrs R0 ++ addrs R' /\ (p ∉ ns) /\ (p ∉ addrs R') /\ (a ∉ ns) /\ a <> p /\ a ∉ addrs R'.
Proof.
  intros [Hi HA EF _ _ En] ER. assert (base :: addrs F = ns ++ p :: addrs R0 ++ addrs R') as EnF.
  { unfold addrs in *. subst F R. rewrite !fmap_app. rewrite app_comm_cons, En, <- app_assoc. done. }
  split; [done|]. pose proof (live_not_node _ _ _ _ _ Hi HA) as Hnode. pose proof (ascending_NoDup _ (addrs_sorted _ _ _ Hi)) as Hnd.
  rewrite EnF in Hnode, Hnd. apply NoDup_app in Hnd as (_ & Hnd1 & Hnd2). apply NoDup_cons in Hnd2 as [Hnd2 _].
  rewrite !not_elem_of_app, not_elem_of_cons, not_elem_of_app in Hnode. rewrite not_elem_of_app in Hnd2.
  split; [|tauto]. intros H. apply (Hnd1 p H). left.
Qed.

Lemma inv_apart F A s s' a n n' q' L R R0 R' ns p ps : around F A s a n L R ns p ps -> join_right (a, n) R = (a, n') :: R' ->
  Forall (fun f => a + HSIZE * n' < f.1) R' -> R = R0 ++ R' -> n <= n' -> a + HSIZE * n' <= brk s ->
  (forall b k, A !! b = Some k -> b <> a -> apart (b, k) (a, n')) ->
  seg (ptrs s) base ns p -> seg (ptrs s) q' (addrs R') base -> p + HSIZE * ps <> a ->
  ptrs s' = <[p := a]> (<[a := q']> (ptrs s)) -> freep s' = p -> brk s' = brk s ->
  sizes s' !! a = Some n' -> (forall y, y <> a -> sizes s' !! y = sizes s !! y) ->
  heap_inv (give (a, n) F) (delete a A) s'.
Proof.
  intros Har Ejoin Hup ER Hnn Hbrk Hap Hns Hq' Hne Ept Efp Eb Hsa Hsz. destruct (around_nodes _ _ _ _ _ _ _ _ _ _ _ _ Har ER) as (_ & N1 & N2 & N3 & N4 & N5).
  destruct Har as [Hi HA EF [HL HR] Hbel Enodes]. destruct (hi_live _ _ _ Hi a n HA) as (Hn & Ha0 & _).
  assert (Forall (fun f => fin f < a) L) as HLs.
  { destruct Hbel as [(-> & _)|(L' & -> & _)]; [constructor|]. apply Forall_app in HL as [_ HL2]. apply Forall_cons in HL2 as [HL2 _].
    destruct (below_fin _ _ _ _ _ _ _ Hi EF) as [Hps HL']. unfold fin in HL2. simpl in HL2.
    apply Forall_app. split; [|constructor; [unfold fin; simpl; lia|constructor]]. eapply Forall_impl; [exact HL'|]. simpl. lia. }
  assert (give (a, n) F = L ++ (a, n') :: R') as ->.
  { subst F. rewrite give_below, give_above, Ejoin; [done| |].
    - eapply Forall_impl; [exact HR|]. simpl. intros f Hf. lia.
    - apply Forall_forall. intros f Hf. rewrite Forall_forall in HLs. specialize (HLs f Hf). simpl.
      destruct (hi_free _ _ _ Hi f) as (Hf2 & _); [apply elem_of_app; now left|]. unfold fin in *. lia. }
  assert (base :: addrs (L ++ (a, n') :: R') = ns ++ p :: a :: addrs R') as En.
  { unfold addrs in *. rewrite fmap_app. simpl. rewrite app_comm_cons, Enodes, <- app_assoc. done. }
  eapply (inv_place F A s s' a n a n' L R0 R'); try done; [now subst|lia| | |intros y Hy _; now apply Hsz].
  - rewrite En, Ept. apply (seg_mid _ _ _ _ a); [|now rewrite lookup_insert_eq|split; [done|]; exists q'; split].
    + apply seg_insert; [done|]. now apply seg_insert.
    + rewrite lookup_insert_ne, lookup_insert_eq by done. done.
    + apply seg_insert; [done|]. now apply seg_insert.
  - rewrite En, Efp. apply elem_of_app. right. left.
Qed.

Lemma inv_join F A s s' a n n' q' L R R0 R' ns p ps : around F A s a n L R ns p ps -> join_right (a, n) R = (a, n') :: R' ->
  Forall (fun f => a + HSIZE * n' < f.1) R' -> R = R0 ++ R' -> n <= n' -> a + HSIZE * n' <= brk s ->
  (forall b k, A !! b = Some k -> b <> a -> apart (b, k) (a, n')) ->
  seg (ptrs s) base ns p -> seg (ptrs s) q' (addrs R') base -> p + HSIZE * ps = a ->
  ptrs s' = <[p := q']> (<[a := q']> (ptrs s)) -> freep s' = p -> brk s' = brk s ->
  sizes s' !! p = Some (ps + n') -> (forall y, y <> p -> y <> a -> sizes s' !! y = sizes s !! y) ->
  heap_inv (give (a, n) F) (delete a A) s'.
Proof.
  intros Har Ejoin Hup ER Hnn Hbrk Hap Hns Hq' Hpa Ept Efp Eb Hsa Hsz. destruct (around_nodes _ _ _ _ _ _ _ _ _ _ _ _ Har ER) as (_ & N1 & N2 & N3 & N4 & N5).
  destruct Har as [Hi HA EF [HL HR] Hbel Enodes]. destruct (hi_live _ _ _ Hi a n HA) as (Hn & Ha0 & _). pose proof (hi_base _ _ _ Hi) as Hb.
  destruct Hbel as [(_ & _ & -> & ->)|(L' & -> & ->)]; [lia|]. destruct (below_fin _ _ _ _ _ _ _ Hi EF) as [Hps HL'].
  destruct (hi_free _ _ _ Hi (p, ps)) as (_ & Hp0 & _); [subst F; rewrite !elem_of_app; left; right; left|]. simpl in Hp0.
  assert (give (a, n) F = L' ++ (p, ps + n') :: R') as ->.
  { subst F. rewrite <- app_assoc, give_below; simpl.
    - rewrite (proj2 (Z.ltb_ge _ _)) by lia. unfold fin. simpl. rewrite Hpa, Z.eqb_refl. now rewrite (join_right_shift a n n' R R').
    - apply Forall_forall. intros f Hf. rewrite Forall_forall in HL'. specialize (HL' f Hf).
      destruct (hi_free _ _ _ Hi f) as (Hf2 & _); [rewrite !elem_of_app; tauto|]. unfold fin in *. lia. }
  assert (base :: addrs (L' ++ (p, ps + n') :: R') = (base :: addrs L') ++ p :: addrs R') as En.
  { unfold addrs in *. rewrite fmap_app. simpl. done. }
  eapply (inv_place F A s s' a n p (ps + n') L' ((p, ps) :: R0) R'); try done.
  - subst. now rewrite <- app_assoc.
  - eapply Forall_impl; [exact Hup|]. simpl. intros f Hf. lia.
  - lia.
  - lia.
  - intros b k Hbk Hne. destruct (hi_live _ _ _ Hi b k Hbk) as (Hk & _). apply apart_join; try done; [lia| |].
    + apply (hi_apart _ _ _ Hi _ _ _ Hbk). subst F. rewrite !elem_of_app. left. right. left.
    + unfold fin. simpl. rewrite Hpa. now apply Hap.
  - rewrite En, Ept. apply (seg_mid _ _ _ _ q'); [|now rewrite lookup_insert_eq|]; (apply seg_insert; [done|]; now apply seg_insert).
  - rewrite En, Efp. apply elem_of_app. right. left.
Qed.

Lemma free_spec F A s a n : heap_inv F A s -> A !! a = Some n ->
  wp (free (a + HSIZE)) (fun _ s' => heap_inv (give (a, n) F) (delete a A) s' /\ brk s' = brk s /\
    (size (ptrs s') <= S (size (ptrs s)))%nat) s.
Proof.
  intros Hi HA. destruct (hi_live _ _ _ Hi a n HA) as (Hn & Ha0 & Ha1 & Has). pose proof (hi_base _ _ _ Hi) as Hb.
  pose proof (hi_brk _ _ _ Hi) as Hbrk. unfold fin in Ha1. simpl in Ha1.
  destruct (place F a n) as (L & R & EF & HLR); [apply Hi|intros b Hin; split; [now apply (hi_free _ _ _ Hi)|now apply (hi_apart _ _ _ Hi)]|done|].
  destruct (below_exists L) as (ns & p & ps & Hbel & En). assert (around F A s a n L R ns p ps) as Har by (now constructor).
  destruct (around_nodes _ _ _ _ _ _ _ _ _ _ [] R Har eq_refl) as (EnF & N1 & N2 & N3 & N4 & N5). simpl in EnF.
  pose proof (hi_seg _ _ _ Hi) as Hseg. rewrite EnF in Hseg. pose proof Hseg as Hseg'. apply seg_app in Hseg' as (p' & Hns & Hp).
  pose proof (seg_head _ _ _ _ _ Hp) as ->. destruct Hp as (_ & q & Hq & HR).
  assert (p < a /\ in_heap p s /\ sizes s !! p = Some ps /\ 0 <= ps /\ p + HSIZE * ps <= a /\ 0 < p) as (Hpa & Hpin & Hps & Hps0 & Hpe & Hp0).
  { destruct Hbel as [(_ & _ & -> & ->)|(L' & -> & _)]; [split_and!; try lia; [now left|apply Hi]|].
    destruct (hi_free _ _ _ Hi (p, ps)) as (H1 & H2 & H3 & H4); [subst F; rewrite !elem_of_app; left; right; left|].
    destruct HLR as [HL _]. apply Forall_app in HL as [_ HL]. apply Forall_cons in HL as [HL _]. unfold fin in *. simpl in *.
    split_and!; try lia; [right; lia|done]. }
  unfold free. replace (padd (a + HSIZE) (-1)) with a by (unfold padd; rewrite u64_small; unfold LIMIT in *; lia). wsteps.
  unfold wp at 1. rewrite (free_search_spec a ns p (addrs R) base); [|done|rewrite <- EnF; now apply (addrs_sorted _ _ _ Hi)|done| |rewrite <- EnF; apply Hi|lia|now rewrite <- En].
  2:{ destruct HLR as [_ HR']. apply Forall_fmap. eapply Forall_impl; [exact HR'|]. simpl. intros f Hf. lia. }
  eapply wp_bind, wp_mono; [now apply (join_right_code F A s a n L R p q)|]. intros [] s1 (n' & q' & R' & Ej & (J1 & J2 & J3 & J4 & J5) & Hq' & D).
  destruct (joined_rest F A s a n n' L R R' Hi HA EF D) as (Hup & (R0 & ER) & Hnn & Hbrk' & Hap).
  wsteps. unfold join_prev. wsteps. apply (wp_get_size p ps); [rewrite J5 by done; done|]. rewrite padd_small by lia.
  assert (in_heap p s1) as Hpin1 by (unfold in_heap in *; now rewrite J3).
  assert (size (ptrs s1) <= S (size (ptrs s)))%nat as Hsize1 by (rewrite J1, map_size_insert; destruct (ptrs s !! a); simpl; lia).
  assert (forall x, size (<[p := x]> (ptrs s1)) = size (ptrs s1)) as Hsize2.
  { intros x. apply map_size_insert_Some. rewrite J1, lookup_insert_ne by done. eauto. }
  destruct (p + HSIZE * ps =? a) eqn:E.
  - apply Z.eqb_eq in E. wsteps. apply (wp_get_size a n'); [done|]. wsteps. apply wp_put_size; [done|unfold LIMIT in Hbrk; lia|].
    wsteps. apply (wp_get_ptr a q'); [simpl; now rewrite J1, lookup_insert_eq|]. apply wp_put_ptr; [done|]. wsteps.
    split; [|split; [done|simpl; now rewrite Hsize2]].
    eapply (inv_join F A s _ a n n' q' L R R0 R' ns p ps); try done; [simpl; now rewrite J1|simpl; now rewrite lookup_insert_eq|].
    intros y Hy Hya. simpl. rewrite lookup_insert_ne by done. now apply J5.
  - apply Z.eqb_neq in E. apply wp_put_ptr; [done|]. wsteps. split; [|split; [done|simpl; now rewrite Hsize2]].
    eapply (inv_apart F A s _ a n n' q' L R R0 R' ns p ps); try done. simpl. now rewrite J1.
Qed.
End Free.

Lemma units_cons b F : units (b :: F) = b.2 + units F.
Proof. done. Qed.
Lemma join_right_units b R : units (join_right b R) = b.2 + units R.
Proof. destruct R as [|r R]; [done|]. simpl. destruct (fin b =? r.1); rewrite !units_cons; simpl; lia. Qed.
Lemma give_units b F : units (give b F) = units F + b.2.
Proof.
  induction F as [|f F IH]; [cbn [give]; unfold units; simpl; lia|]. cbn [give].
  destruct (b.1 <? f.1); [rewrite join_right_units; lia|]. destruct (fin f =? b.1); rewrite ?join_right_units, !units_cons; simpl; lia.
Qed.
Lemma give_fits b F : Forall (fun f => 0 < f.2) F -> 0 < b.2 -> exists f, f ∈ give b F /\ b.2 <= f.2.
Proof.
  assert (forall c R, Forall (fun f => 0 < f.2) R -> exists f, f ∈ join_right c R /\ c.2 <= f.2) as Hj.
  { intros c [|r R] HF; [exists c; split; [left|lia]|]. apply Forall_cons in HF as [Hr _]. simpl.
    destruct (fin c =? r.1); eexists; (split; [left|simpl; lia]). }
  intros HF Hb. induction F as [|f F IH]; [exists b; split; [left|lia]|]. cbn [give]. destruct (b.1 <? f.1); [now apply Hj|].
  apply Forall_cons in HF as [Hf HF]. destruct (fin f =? b.1).
  - destruct (Hj (f.1, f.2 + b.2) F HF) as (g & Hg & Hle). exists g. split; [done|]. simpl in Hle. lia.
  - destruct (IH HF) as (g & Hg & Hle). exists g. split; [now right|done].
Qed.

(** ** Allocating *)

(** What the allocator relies on: [base] is in the data segment, below the
    heap, and [sbrk] fails or adds fresh memory at the end, which stays below
    2^36 bytes. *)
Class ProcessOk (Pr : Process) : Prop := {
  base_ok : 0 < base < heap0;
  sbrk_ok : forall n s, 0 < n -> sys_sbrk n SBRK_EAGER s = Ret SBRK_ERROR s \/
    exists p, sys_sbrk n SBRK_EAGER s = Ret p (set_brk (p + n) s) /\ brk s <= p /\ p + n <= LIMIT;
}.

Section Malloc.
Context {Pr : Process}.

(** The circle, read from [freep]. *)
Lemma circle F A s : heap_inv F A s ->
  exists rot, base :: addrs F ≡ₚ freep s :: rot /\ seg (ptrs s) (freep s) (freep s :: rot) (freep s).
Proof.
  intros Hi. pose proof (hi_freep _ _ _ Hi) as Hf. apply list_elem_of_split in Hf as (l1 & l2 & E). pose proof (hi_seg _ _ _ Hi) as Hs.
  rewrite E in Hs. apply seg_rotate in Hs as (z & Hz & _). pose proof (seg_head _ _ _ _ _ Hz) as ->. exists (l2 ++ l1).
  split; [|done]. rewrite E. rewrite app_comm_cons. apply Permutation_app_comm.
Qed.

Lemma malloc_walk nu l : forall prev x z f s, seg (ptrs s) x l z ->
  (forall a, a ∈ l -> a <> freep s /\ exists k, sizes s !! a = Some k /\ k < nu) ->
  malloc_loop (length l + f) nu prev x s = malloc_loop f nu (List.last l prev) z s.
Proof.
  induction l as [|n l IH]; intros prev x z f s Hs Ha; [now destruct Hs|].
  destruct Hs as (-> & y & Hy & Hs). destruct (Ha n ltac:(left)) as (Hne & k & Hk & Hlt).
  cbn [length plus malloc_loop]. rewrite (bind_Ret _ _ s k s) by (unfold get_size, orfault; now rewrite Hk).
  rewrite (proj2 (Z.leb_gt _ _)) by done. rewrite (bind_Ret _ _ s (freep s) s) by done. rewrite (proj2 (Z.eqb_neq _ _)) by done.
  rewrite (bind_Ret _ _ s y s) by (unfold get_ptr, orfault; now rewrite Hy).
  rewrite (IH n y z f s Hs) by (intros a Hin; apply Ha; now right).
  f_equal. destruct (decide (l = [])) as [->|Hl]; [done|]. destruct (exists_last Hl) as (l' & e & ->).
  now rewrite app_comm_cons, !List.last_last.
Qed.

(** The first block that fits, on the way round from [x]. *)
Lemma first_fit (fits : Z -> bool) l : (exists l1 p l2, l = l1 ++ p :: l2 /\ fits p = true /\ forall a, a ∈ l1 -> fits a = false) \/
  (forall a, a ∈ l -> fits a = false).
Proof.
  induction l as [|n l IH]; [right; intros a H; now apply not_elem_of_nil in H|]. destruct (fits n) eqn:E.
  - left. exists [], n, l. split; [done|]. split; [done|]. intros a H. now apply not_elem_of_nil in H.
  - destruct IH as [(l1 & p & l2 & -> & Hp & H1)|H].
    + left. exists (n :: l1), p, l2. split; [done|]. split; [done|]. intros a Ha. apply elem_of_cons in Ha as [->|Ha]; auto.
    + right. intros a Ha. apply elem_of_cons in Ha as [->|Ha]; auto.
Qed.

(** A header has one predecessor in the list. *)
Lemma pred_unique pt x l y p a b : seg pt x l y -> NoDup l -> p <> y -> a ∈ l -> b ∈ l ->
  pt !! a = Some p -> pt !! b = Some p -> a = b.
Proof.
  intros Hs Hnd Hpy Ha Hb Ea Eb.
  assert (forall c, c ∈ l -> pt !! c = Some p -> exists i, l !! i = Some c /\ l !! S i = Some p) as Hidx.
  { intros c Hc Ec. apply list_elem_of_split in Hc as (l1 & l2 & ->). exists (length l1). split; [now apply list_lookup_middle|].
    apply seg_next in Hs as (z & Hz & Hs). rewrite Ec in Hz. injection Hz as <-. destruct l2 as [|m l2]; [now simpl in Hs|].
    apply seg_head in Hs as ->. rewrite cons_middle, app_assoc. apply list_lookup_middle. rewrite length_app. simpl. lia. }
  destruct (Hidx a Ha Ea) as (i & Hi & Hi'), (Hidx b Hb Eb) as (j & Hj & Hj').
  assert (S i = S j) as [= ->] by (eapply NoDup_lookup; eauto). congruence.
Qed.

(** [n] units of the block [(p, m + n)] are taken from its end. *)
Definition rest (p m : Z) : list (Z * Z) := if m =? 0 then [] else [(p, m)].

Lemma sorted_around L p n R : StronglySorted (fun x y => fin x < y.1) (L ++ (p, n) :: R) ->
  Forall (fun f => fin f < p) L /\ Forall (fun f => p + HSIZE * n < f.1) R.
Proof.
  rewrite StronglySorted_app, StronglySorted_cons. intros (H1 & _ & H2 & _). split; [|exact H2].
  apply Forall_forall. intros f Hf. exact (H1 f (p, n) Hf ltac:(left)).
Qed.

Lemma inv_take F A s s' L p m n R : heap_inv F A s -> F = L ++ (p, m + n) :: R -> 0 <= m -> 0 < n -> brk s' = brk s ->
  sizes s' !! (p + HSIZE * m) = Some n -> (0 < m -> sizes s' !! p = Some m) ->
  (forall y, y <> p -> y <> p + HSIZE * m -> sizes s' !! y = sizes s !! y) ->
  seg (ptrs s') base (base :: addrs (L ++ rest p m ++ R)) base -> freep s' ∈ base :: addrs (L ++ rest p m ++ R) ->
  heap_inv (L ++ rest p m ++ R) (<[p + HSIZE * m := n]> A) s'.
Proof.
  intros [Hb Hbrk Hs Hf Hsz Hseg Hfp Hl Ha Hd] EF Hm Hn Eb Hsx Hsp Hsame Hseg' Hfp'.
  assert ((p, m + n) ∈ F) as Hin by (subst F; apply elem_of_app; right; left). destruct (Hf _ Hin) as (_ & Hp0 & Hp1 & _). unfold fin in Hp1. simpl in *.
  pose proof Hs as Hs0. rewrite EF in Hs0. destruct (sorted_around _ _ _ _ Hs0) as [HL HR]. rewrite Forall_forall in HL, HR.
  assert (forall b, b ∈ L ++ rest p m ++ R -> (0 < m /\ b = (p, m)) \/ (b ∈ F /\ (fin b < p \/ p + HSIZE * (m + n) < b.1))) as Hcase.
  { intros b Hin'. rewrite !elem_of_app in Hin'. destruct Hin' as [H|[H|H]].
    - right. split; [subst F; rewrite elem_of_app; now left|left; now apply HL].
    - unfold rest in H. destruct (Z.eqb_spec m 0); [now apply not_elem_of_nil in H|]. apply list_elem_of_singleton in H as ->. left. split; [lia|done].
    - right. split; [subst F; rewrite elem_of_app; right; now right|right; now apply HR]. }
  constructor; rewrite ?Eb; try done.
  - rewrite EF in Hs. rewrite !StronglySorted_app in *. rewrite StronglySorted_cons in Hs. destruct Hs as (H1 & H2 & _ & H4).
    split; [|split; [done|split; [|split; [|done]]]].
    + intros x y Hx Hy. apply elem_of_app in Hy as [Hy|Hy]; [|apply H1; [done|now right]].
      unfold rest in Hy. destruct (m =? 0); [now apply not_elem_of_nil in Hy|]. apply list_elem_of_singleton in Hy as ->. exact (HL x Hx).
    + intros x y Hx Hy. unfold rest in Hx. destruct (m =? 0); [now apply not_elem_of_nil in Hx|]. apply list_elem_of_singleton in Hx as ->.
      specialize (HR y Hy). unfold fin. simpl. lia.
    + unfold rest. destruct (m =? 0); repeat constructor.
  - intros b Hin'. destruct (Hcase b Hin') as [[H ->]|[H Hab]]; [split; [done|]; split; [done|]; split; [unfold fin; simpl; lia|auto]|].
    destruct (Hf b H) as (H1 & H2 & H3 & H4). rewrite Hsame; [done| |]; unfold fin in *; lia.
  - rewrite Hsame; [done|lia|lia].
  - intros a k Hk. apply lookup_insert_Some in Hk as [[<- <-]|[Hne Hk]]; [unfold fin; simpl; split_and!; try lia; done|].
    destruct (Hl a k Hk) as (H1 & H2 & H3 & H4). specialize (Ha a k _ Hk Hin). rewrite Hsame; [done| |done].
    unfold apart, fin in Ha. simpl in Ha. lia.
  - intros a k b Hk Hin'. destruct (Hcase b Hin') as [[H ->]|[H Hab]].
    + apply lookup_insert_Some in Hk as [[<- <-]|[Hne Hk]]; [right; unfold fin; simpl; lia|]. specialize (Ha a k _ Hk Hin).
      unfold apart, fin in *. simpl in *. lia.
    + apply lookup_insert_Some in Hk as [[<- <-]|[Hne Hk]]; [unfold apart, fin in *; simpl in *; lia|]. now apply Ha.
  - intros a k b k' Hk Hk' Hne. apply lookup_insert_Some in Hk as [[<- <-]|[Hne1 Hk]], Hk' as [[<- <-]|[Hne2 Hk']]; try done; [| |now apply Hd].
    + specialize (Ha b k' _ Hk' Hin). unfold apart, fin in *. simpl in *. lia.
    + specialize (Ha a k _ Hk Hin). unfold apart, fin in *. simpl in *. lia.
Qed.

(** [malloc] has taken [nu] units off the free list: the block [x] is live. *)
Definition got (F : list (Z * Z)) (A : gmap Z Z) (s : uheap) (nu r : Z) (s' : uheap) : Prop :=
  exists F' x, r = x + HSIZE /\ A !! x = None /\ heap_inv F' (<[x := nu]> A) s' /\ units F = units F' + nu /\ brk s' = brk s.

Lemma units_app F G : units (F ++ G) = units F + units G.
Proof. induction F as [|f F IH]; [done|]. simpl. rewrite !units_cons, IH. lia. Qed.
Lemma units_rest p m : units (rest p m) = m.
Proof. unfold rest. destruct (Z.eqb_spec m 0) as [->|]; [done|]. unfold units. simpl. lia. Qed.

Lemma fresh_part F A s L p m n R : heap_inv F A s -> F = L ++ (p, m + n) :: R -> 0 <= m -> 0 < n -> A !! (p + HSIZE * m) = None.
Proof.
  intros Hi EF Hm Hn. destruct (A !! (p + HSIZE * m)) as [k|] eqn:E; [|done].
  destruct (hi_live _ _ _ Hi _ _ E) as (Hk & _). pose proof (hi_apart _ _ _ Hi _ _ (p, m + n) E) as H.
  unfold apart, fin in H. simpl in H. destruct H; [subst F; apply elem_of_app; right; left|lia|lia].
Qed.

(** The list around the block [p] and its predecessor. *)
Lemma at_block F A s p k prev : heap_inv F A s -> (p, k) ∈ F -> prev ∈ base :: addrs F -> ptrs s !! prev = Some p ->
  exists L R ns q, F = L ++ (p, k) :: R /\ base :: addrs L = ns ++ [prev] /\ (prev ∉ ns) /\ (prev ∉ addrs R) /\ in_heap prev s /\
    seg (ptrs s) base ns prev /\ ptrs s !! p = Some q /\ seg (ptrs s) q (addrs R) base.
Proof.
  intros Hi Hin Hprev Hpp. destruct (hi_free _ _ _ Hi _ Hin) as (_ & Hp0 & _). simpl in Hp0.
  pose proof (hi_base _ _ _ Hi) as Hb. pose proof (ascending_NoDup _ (addrs_sorted _ _ _ Hi)) as Hnd.
  pose proof (hi_seg _ _ _ Hi) as Hseg. apply list_elem_of_split in Hin as (L & R & EF).
  destruct (below_exists L) as (ns & p0 & ps & _ & En).
  assert (base :: addrs F = ns ++ p0 :: p :: addrs R) as EnF.
  { unfold addrs in *. rewrite EF, fmap_app. simpl. rewrite app_comm_cons, En, <- app_assoc. done. }
  rewrite EnF in Hseg, Hnd, Hprev. pose proof Hseg as Hseg'. apply seg_app in Hseg' as (z & Hns & Hz). pose proof (seg_head _ _ _ _ _ Hz) as ->.
  destruct Hz as (_ & p' & Hp0' & Hz). pose proof (seg_head _ _ _ _ _ Hz) as ->. destruct Hz as (_ & q & Hq & HR).
  assert (prev = p0) as ->.
  { eapply (pred_unique (ptrs s) base _ base p); [exact Hseg|exact Hnd|lia|exact Hprev|apply elem_of_app; right; left|done|done]. }
  apply NoDup_app in Hnd as (_ & Hnd1 & Hnd2). apply NoDup_cons in Hnd2 as [Hnd2 _]. rewrite not_elem_of_cons in Hnd2.
  exists L, R, ns, q. split_and!; try done; [intros H; apply (Hnd1 p0 H); left|tauto|].
  assert (p0 ∈ base :: addrs F) as Hn by (rewrite EnF; apply elem_of_app; right; left). apply elem_of_cons in Hn as [->|Hn]; [now left|].
  apply list_elem_of_fmap in Hn as (g & -> & Hg). destruct (hi_free _ _ _ Hi g Hg) as (? & ? & ? & _). right. unfold fin in *. lia.
Qed.

Lemma malloc_take F A s nu k p prev f : heap_inv F A s -> (p, k) ∈ F -> 0 < nu <= k -> prev ∈ base :: addrs F ->
  ptrs s !! prev = Some p -> wp (malloc_loop (S f) nu prev p) (got F A s nu) s.
Proof.
  intros Hi Hin Hnu Hprev Hpp. destruct (hi_free _ _ _ Hi _ Hin) as (_ & Hp0 & Hp1 & Hps). unfold fin in Hp1. simpl in Hp0, Hp1, Hps.
  pose proof (hi_base _ _ _ Hi) as Hb. pose proof (hi_brk _ _ _ Hi) as Hbrk.
  destruct (at_block F A s p k prev Hi Hin Hprev Hpp) as (L & R & ns & q & EF & En & N1 & N2 & Hin0 & Hns & Hq & HR).
  cbn [malloc_loop]. wsteps. apply (wp_get_size p k); [done|]. rewrite (proj2 (Z.leb_le _ _)) by lia. wsteps.
  assert (F = L ++ (p, (k - nu) + nu) :: R) as EF' by (now replace (k - nu + nu) with k by lia).
  assert (units F = units (L ++ rest p (k - nu) ++ R) + nu) as Eu by (rewrite EF, !units_app, units_cons, units_rest; simpl; lia).
  destruct (k =? nu) eqn:E.
  - apply Z.eqb_eq in E. subst nu. wsteps. apply (wp_get_ptr p q); [done|]. wsteps. apply wp_put_ptr; [done|]. wsteps.
    rewrite padd_small by lia. exists (L ++ rest p (k - k) ++ R), (p + HSIZE * (k - k)). split; [lia|].
    split; [now apply (fresh_part F A s L _ _ k R); [| |lia|]|]. split; [|done].
    assert (base :: addrs (L ++ rest p (k - k) ++ R) = ns ++ prev :: addrs R) as En'.
    { rewrite Z.sub_diag. unfold addrs in *. rewrite fmap_app. simpl. now rewrite app_comm_cons, En, <- app_assoc. }
    apply (inv_take F A s); try done; rewrite ?Z.sub_diag; try lia.
    + simpl. now replace (p + HSIZE * 0) with p by lia.
    + rewrite Z.sub_diag in En'. rewrite En'. simpl. apply (seg_mid _ _ _ _ q); [now apply seg_insert|now rewrite lookup_insert_eq|].
      now apply seg_insert.
    + rewrite Z.sub_diag in En'. rewrite En'. simpl. apply elem_of_app. right. left.
  - apply Z.eqb_neq in E. wsteps. apply wp_put_size; [right; lia|unfold LIMIT in *; lia|]. wsteps.
    apply (wp_get_size p (k - nu)); [simpl; now rewrite lookup_insert_eq|]. wsteps. rewrite padd_small by lia.
    apply wp_put_size; [right; simpl; lia|unfold LIMIT in *; lia|]. wsteps. rewrite padd_small by lia.
    exists (L ++ rest p (k - nu) ++ R), (p + HSIZE * (k - nu)). split; [lia|].
    split; [apply (fresh_part F A s L _ _ nu R); [done|done|lia|lia]|]. split; [|done].
    assert (base :: addrs (L ++ rest p (k - nu) ++ R) = base :: addrs F) as En'.
    { unfold rest. rewrite (proj2 (Z.eqb_neq _ 0)) by lia. rewrite EF. unfold addrs. now rewrite !fmap_app. }
    apply (inv_take F A s); try done; try lia.
    + simpl. now rewrite lookup_insert_eq.
    + intros _. simpl. rewrite lookup_insert_ne by lia. now rewrite lookup_insert_eq.
    + intros y Hy1 Hy2. simpl. now rewrite !lookup_insert_ne.
    + rewrite En'. apply Hi.
    + now rewrite En'.
Qed.

Definition fits (s : uheap) (nu a : Z) : bool := match sizes s !! a with Some k => nu <=? k | None => false end.

Lemma node_size F A s a : heap_inv F A s -> a ∈ base :: addrs F -> exists k, sizes s !! a = Some k /\ (a = base /\ k = 0 \/ (a, k) ∈ F).
Proof.
  intros Hi Ha. apply elem_of_cons in Ha as [->|Ha]; [exists 0; split; [apply Hi|now left]|]. apply list_elem_of_fmap in Ha as ([b k] & -> & Hb).
  exists k. split; [apply (hi_free _ _ _ Hi _ Hb)|now right].
Qed.
Lemma unfit F A s nu a : heap_inv F A s -> a ∈ base :: addrs F -> fits s nu a = false -> exists k, sizes s !! a = Some k /\ k < nu.
Proof.
  intros Hi Ha Hf. destruct (node_size F A s a Hi Ha) as (k & Hk & _). exists k. split; [done|]. unfold fits in Hf. rewrite Hk in Hf. now apply Z.leb_gt.
Qed.
Lemma last_pointer pt l d x y : seg pt x l y -> pt !! d = Some x -> pt !! List.last l d = Some y.
Proof.
  destruct (decide (l = [])) as [->|Hne]; [now intros ->|]. destruct (exists_last Hne) as (l' & e & ->). rewrite List.last_last.
  intros Hs _. apply seg_app in Hs as (z & _ & -> & w & Hw & ->). exact Hw.
Qed.
Lemma last_in l (d : Z) : List.last l d = d \/ List.last l d ∈ l.
Proof.
  destruct (decide (l = [])) as [->|Hne]; [now left|]. destruct (exists_last Hne) as (l' & e & ->). rewrite List.last_last. right.
  apply elem_of_app. right. left.
Qed.

(** With a block that fits, one turn finds it. *)
Lemma malloc_found F A s nu x f : heap_inv F A s -> 0 < nu -> (exists b, b ∈ F /\ nu <= b.2) -> ptrs s !! freep s = Some x ->
  (S (length F) <= f)%nat -> wp (malloc_loop f nu (freep s) x) (got F A s nu) s.
Proof.
  intros Hi Hnu (b & Hb & Hfit) Hx Hf. destruct (circle F A s Hi) as (rot & Hperm & Hs). pose proof Hs as (_ & x' & Hx' & Hrot).
  rewrite Hx in Hx'. injection Hx' as <-.
  assert (seg (ptrs s) x (rot ++ [freep s]) x) as Hturn by (apply seg_app; exists (freep s); split; [done|]; split; [done|]; exists x; done).
  assert (base :: addrs F ≡ₚ rot ++ [freep s]) as Hperm' by (rewrite Hperm; apply Permutation_cons_append).
  destruct (first_fit (fits s nu) (rot ++ [freep s])) as [(l1 & p & l2 & El & Hp & Hl1)|Hno].
  2:{ exfalso. destruct b as [a k]. assert (a ∈ rot ++ [freep s]) as Ha by (rewrite <- Hperm'; right; now apply (list_elem_of_fmap_2' fst _ (a, k))).
      specialize (Hno a Ha). destruct (hi_free _ _ _ Hi _ Hb) as (_ & _ & _ & Hk). unfold fits in Hno. simpl in *. rewrite Hk in Hno.
      apply Z.leb_gt in Hno. lia. }
  rewrite El in Hturn, Hperm'. apply seg_app in Hturn as (z & Hseg1 & Hz). pose proof (seg_head _ _ _ _ _ Hz) as ->.
  assert (forall a, a ∈ l1 ++ p :: l2 -> a ∈ base :: addrs F) as Hnode by (intros a; now rewrite Hperm').
  pose proof (ascending_NoDup _ (addrs_sorted _ _ _ Hi)) as Hnd. rewrite Hperm' in Hnd. apply NoDup_app in Hnd as (_ & Hnd & _).
  assert (freep s ∉ l1) as Hnf.
  { intros Hin. apply (Hnd _ Hin). destruct (exists_last (l := p :: l2)) as (l3 & e & E3); [done|]. rewrite E3, app_assoc in El.
    apply app_inj_tail in El as [_ ->]. rewrite E3. apply elem_of_app. right. left. }
  apply Permutation_length in Hperm'. unfold addrs in Hperm'. rewrite length_app in Hperm'. simpl in Hperm'. rewrite length_fmap in Hperm'.
  replace f with (length l1 + S (f - S (length l1)))%nat by lia. unfold wp. rewrite (malloc_walk nu l1 (freep s) x p); [|done|].
  - destruct (node_size F A s p Hi) as (k & Hk & Hor); [apply Hnode; apply elem_of_app; right; left|]. unfold fits in Hp. rewrite Hk in Hp. apply Z.leb_le in Hp.
    destruct Hor as [[_ ->]|Hpk]; [lia|]. apply (malloc_take F A s nu k); [done|done|lia| |now apply (last_pointer _ _ _ x)].
    destruct (last_in l1 (freep s)) as [->|Hin]; [apply Hi|]. apply Hnode, elem_of_app. now left.
  - intros a Ha. split; [now intros ->|]. apply (unfit F A s nu a Hi); [apply Hnode, elem_of_app; now left|now apply Hl1].
Qed.

(** Without one, a turn ends in [morecore]. *)
Lemma malloc_none F A s nu x f : heap_inv F A s -> 0 < nu -> (forall b, b ∈ F -> b.2 < nu) -> ptrs s !! freep s = Some x ->
  (S (length F) <= f)%nat ->
  malloc_loop f nu (freep s) x s =
    (let! p' := morecore nu in if p' =? 0 then ret 0 else let! q := get_ptr p' in malloc_loop (f - S (length F)) nu p' q) s.
Proof.
  intros Hi Hnu Hno Hx Hf. destruct (circle F A s Hi) as (rot & Hperm & Hs). pose proof Hs as (_ & x' & Hx' & Hrot).
  rewrite Hx in Hx'. injection Hx' as <-.
  assert (forall a, a ∈ freep s :: rot -> exists k, sizes s !! a = Some k /\ k < nu) as Hsm.
  { intros a Ha. rewrite <- Hperm in Ha. destruct (node_size F A s a Hi Ha) as (k & Hk & [[_ ->]|Hin]); [eauto|]. exists k. split; [done|]. exact (Hno _ Hin). }
  pose proof (ascending_NoDup _ (addrs_sorted _ _ _ Hi)) as Hnd. rewrite Hperm in Hnd. apply NoDup_cons in Hnd as [Hnd _].
  apply Permutation_length in Hperm. unfold addrs in Hperm. simpl in Hperm. rewrite length_fmap in Hperm. injection Hperm as Hperm.
  replace f with (length rot + S (f - S (length F)))%nat at 1 by lia. rewrite (malloc_walk nu rot (freep s) x (freep s)); [|done|].
  - destruct (Hsm (freep s)) as (k & Hk & Hlt); [left|]. cbn [malloc_loop]. rewrite (bind_Ret _ _ s k s) by (unfold get_size, orfault; now rewrite Hk).
    rewrite (proj2 (Z.leb_gt _ _)) by done. rewrite (bind_Ret _ _ s (freep s) s) by done. rewrite Z.eqb_refl. done.
  - intros a Ha. split; [now intros ->|]. apply Hsm. now right.
Qed.

Lemma give_length b F : (length (give b F) <= S (length F))%nat.
Proof.
  assert (forall c R, (length (join_right c R) <= S (length R))%nat) as Hj.
  { intros c [|r R]; simpl; [lia|]. destruct (fin c =? r.1); simpl; lia. }
  induction F as [|f F IH]; simpl; [lia|]. destruct (b.1 <? f.1); [specialize (Hj b (f :: F)); simpl in Hj; lia|].
  destruct (fin f =? b.1); simpl; [pose proof (Hj (f.1, f.2 + b.2) F); lia|lia].
Qed.

(** Memory from [sbrk] is a live block, to be freed at once. *)
Lemma inv_grow F A s p n : heap_inv F A s -> brk s <= p -> 0 < n -> p + HSIZE * n <= LIMIT ->
  A !! p = None /\ heap_inv F (<[p := n]> A) (set_sizes (<[p := n]> (sizes s)) (set_brk (p + HSIZE * n) s)).
Proof.
  intros [Hb Hbrk Hs Hf Hsz Hseg Hfp Hl Ha Hd] Hp Hn Hlim.
  assert (forall a k, A !! a = Some k -> a < p /\ fin (a, k) <= p) as Hlow.
  { intros a k Hk. destruct (Hl a k Hk) as (H1 & H2 & H3 & _). unfold fin in *. simpl in *. lia. }
  split; [destruct (A !! p) as [k|] eqn:E; [destruct (Hlow _ _ E); lia|done]|].
  constructor; simpl; try done; [lia| |rewrite lookup_insert_ne; [done|lia]| | |].
  - intros b Hin. destruct (Hf b Hin) as (H1 & H2 & H3 & H4). unfold fin in *. rewrite lookup_insert_ne by lia. split_and!; try done; lia.
  - intros a k Hk. apply lookup_insert_Some in Hk as [[<- <-]|[Hne Hk]]; [rewrite lookup_insert_eq; unfold fin; simpl; split_and!; try done; lia|].
    destruct (Hl a k Hk) as (H1 & H2 & H3 & H4). rewrite lookup_insert_ne by done. split_and!; try done. lia.
  - intros a k b Hk Hin. destruct (Hf b Hin) as (H1 & H2 & H3 & H4).
    apply lookup_insert_Some in Hk as [[<- <-]|[Hne Hk]]; [right; unfold fin in *; simpl; lia|]. now apply Ha.
  - intros a k b k' Hk Hk' Hne. apply lookup_insert_Some in Hk as [[<- <-]|[Hne1 Hk]], Hk' as [[<- <-]|[Hne2 Hk']]; try done; [| |now apply Hd].
    + right. simpl. apply (Hlow _ _ Hk').
    + left. simpl. apply (Hlow _ _ Hk).
Qed.

Context {PO : ProcessOk Pr}.

Lemma morecore_spec F A s nu : heap_inv F A s -> 0 < nu <= 134217727 ->
  wp (morecore nu) (fun r s' => (r = 0 /\ s' = s /\ sbrk (HSIZE * Z.max 4096 nu) s = Ret SBRK_ERROR s) \/
    (r = freep s' /\ 0 < r /\ exists p, let g := Z.max 4096 nu in heap_inv (give (p, g) F) A s')) s.
Proof.
  intros Hi Hnu. unfold morecore, sbrk. set (g := if nu <? 4096 then 4096 else nu).
  assert (g = Z.max 4096 nu) as Eg by (unfold g; destruct (Z.ltb_spec nu 4096); lia). rewrite <- Eg.
  assert (4096 <= g <= 134217727) as Hg by lia. clearbody g. pose proof (hi_base _ _ _ Hi) as Hb. pose proof (hi_brk _ _ _ Hi) as Hbrk.
  rewrite i32_small by lia. wsteps. unfold wp at 1. replace (g * HSIZE) with (HSIZE * g) by lia.
  destruct (sbrk_ok (HSIZE * g) s) as [E|(p & -> & Hp & Hlim)]; [lia| |].
  - rewrite E, Z.eqb_refl. left. done.
  - assert (p <> SBRK_ERROR) as Hne by (change SBRK_ERROR with 18446744073709551615; unfold LIMIT in *; lia).
    rewrite (proj2 (Z.eqb_neq _ _)) by done. destruct (inv_grow F A s p g Hi Hp) as [HA Hi']; [lia|done|].
    wsteps. apply wp_put_size; [right; simpl; lia|lia|]. wsteps. rewrite padd_small by lia. replace (p + HSIZE * 1) with (p + HSIZE) by lia.
    eapply wp_mono; [apply (free_spec F _ _ p g Hi'); apply lookup_insert_eq|]. intros [] s' (Hi2 & Eb & _). wsteps.
    right. rewrite delete_insert_id in Hi2 by done. split; [done|]. split; [|eauto].
    pose proof (hi_freep _ _ _ Hi2) as Hfp. apply elem_of_cons in Hfp as [->|Hfp]; [lia|]. apply list_elem_of_fmap in Hfp as (f & -> & Hf).
    destruct (hi_free _ _ _ Hi2 f Hf) as (_ & ? & _). lia.
Qed.

(** Before the first call [freep] is null. *)
Definition heap_ok (F : list (Z * Z)) (A : gmap Z Z) (s : uheap) : Prop :=
  heap_inv F A s \/ (freep s = 0 /\ F = [] /\ A = ∅ /\ heap0 <= brk s <= LIMIT).
Definition some_fits (nu : Z) (F : list (Z * Z)) : bool := existsb (fun b => nu <=? b.2) F.

Lemma some_fits_spec nu F : if some_fits nu F then exists b, b ∈ F /\ nu <= b.2 else forall b, b ∈ F -> b.2 < nu.
Proof.
  unfold some_fits. destruct (existsb _ F) eqn:E.
  - apply List.existsb_exists in E as (b & Hb & Hle). exists b. split; [now apply list_elem_of_In|now apply Z.leb_le].
  - intros b Hb. destruct (Z.ltb_spec b.2 nu) as [H|H]; [done|]. assert (existsb (fun b => nu <=? b.2) F = true); [|congruence].
    apply List.existsb_exists. exists b. split; [now apply list_elem_of_In|]. now apply Z.leb_le.
Qed.

Lemma malloc_enter F A s : heap_ok F A s ->
  wp (do! (let! fp := gets freep in
           if fp =? 0 then do! modify (set_freep base); do! put_ptr base base; put_size base 0 else ret tt); ret tt)
    (fun _ s' => heap_inv F A s' /\ brk s' = brk s) s.
Proof.
  intros [Hi|(Hf & -> & -> & Hb)]; wsteps.
  - rewrite (proj2 (Z.eqb_neq _ _)); [wsteps; done|]. pose proof (hi_freep _ _ _ Hi) as Hfp. pose proof (hi_base _ _ _ Hi).
    apply elem_of_cons in Hfp as [->|Hfp]; [lia|]. apply list_elem_of_fmap in Hfp as (f & -> & Hin). destruct (hi_free _ _ _ Hi f Hin) as (_ & ? & _). lia.
  - rewrite Hf. simpl. wsteps. apply wp_put_ptr; [now left|]. wsteps. apply wp_put_size; [now left|lia|]. wsteps. split; [|done].
    constructor; simpl; try done; [apply base_ok|constructor|intros b Hin; now apply not_elem_of_nil in Hin|now rewrite lookup_insert_eq| |left].
    split; [done|]. exists base. now rewrite lookup_insert_eq.
Qed.

(** C16: [malloc] always returns.  The block it returns has room for the bytes
    asked for, was free or is fresh from [sbrk], overlaps no live block, and
    is live from now on; what else was free stays free, and what was added
    to the heap is accounted for to the unit.  The process grows only when no
    free block is large enough, by the block or 64 KB, whichever is more; and
    0 is returned only when [sbrk], asked for that much, fails, with the heap
    as it was.  The size is at most 2^31 - 32 bytes, so that the argument of
    [sbrk], an [int], does not overflow. *)
Theorem malloc_correct F A s nbytes : heap_ok F A s -> 0 <= nbytes <= 2147483616 ->
  wp (malloc nbytes) (fun r s' =>
    let nu := (nbytes + HSIZE - 1) / HSIZE + 1 in
    (r = 0 /\ some_fits nu F = false /\ heap_inv F A s' /\ brk s' = brk s /\
       sbrk (HSIZE * Z.max 4096 nu) s' = Ret SBRK_ERROR s') \/
    (exists F' x, r = x + HSIZE /\ A !! x = None /\ heap_inv F' (<[x := nu]> A) s' /\ nbytes <= HSIZE * (nu - 1) /\
       (forall a n, A !! a = Some n -> apart (x, nu) (a, n)) /\
       units F' + nu = units F + (if some_fits nu F then 0 else Z.max 4096 nu) /\
       (some_fits nu F = true -> brk s' = brk s))) s.
Proof.
  intros Hok Hn. unfold malloc. set (nu := (nbytes + HSIZE - 1) / HSIZE + 1).
  assert (0 < nu <= 134217727 /\ nbytes <= HSIZE * (nu - 1)) as [Hnu Hroom].
  { unfold nu, HSIZE. pose proof (Z.div_mod (nbytes + 16 - 1) 16 ltac:(lia)). pose proof (Z.mod_pos_bound (nbytes + 16 - 1) 16 ltac:(lia)). lia. }
  clearbody nu. rewrite u32_small by lia. apply malloc_enter in Hok. apply wp_bind_inv in Hok. wsteps. apply wp_bind_inv in Hok.
  eapply wp_mono; [exact Hok|]. intros [] s1 [Hi Eb1]. wsteps.
  pose proof (hi_seg _ _ _ Hi) as Hseg. pose proof (hi_freep _ _ _ Hi) as Hfp. pose proof (seg_size _ _ _ _ Hseg (addrs_sorted _ _ _ Hi)) as Hlen.
  unfold addrs in Hlen. simpl in Hlen. rewrite length_fmap in Hlen.
  destruct (circle F A s1 Hi) as (rot & _ & _ & x & Hx & _). apply (wp_get_ptr _ x); [done|]. wsteps.
  assert (forall G s2 r s', heap_inv G A s2 -> got G A s2 nu r s' -> exists F' x, r = x + HSIZE /\ A !! x = None /\ heap_inv F' (<[x := nu]> A) s' /\
    nbytes <= HSIZE * (nu - 1) /\ (forall a n, A !! a = Some n -> apart (x, nu) (a, n)) /\ units F' + nu = units G /\ brk s' = brk s2) as Hgot.
  { intros G s2 r s' _ (F' & y & -> & HA & Hi' & Hu & Hbk). exists F', y. split_and!; try done. intros a n Ha.
    apply (hi_disjoint _ _ _ Hi'); [apply lookup_insert_eq|rewrite lookup_insert_ne; [done|]|]; intros ->; congruence. }
  pose proof (some_fits_spec nu F) as Hfit. destruct (some_fits nu F).
  - eapply wp_mono; [apply (malloc_found F A s1 nu x); [done|lia|done|done|lia]|]. intros r s' Hg. right. rewrite Z.add_0_r. destruct (Hgot F s1 r s' Hi Hg) as (F' & z & H1 & H2 & H3 & H4 & H5 & H6 & H7). exists F', z. split_and!; try done. congruence.
  - unfold wp. rewrite (malloc_none F A s1 nu x) by (done || lia). apply wp_bind. eapply wp_mono; [now apply (morecore_spec F A s1 nu)|].
    intros r s2 [(-> & -> & Hsb)|(-> & Hr & p & Hi2)]; [simpl; wsteps; left; split_and!; done|].
    rewrite (proj2 (Z.eqb_neq _ _)) by lia. wsteps. destruct (circle _ A s2 Hi2) as (rot2 & _ & _ & y & Hy & _). apply (wp_get_ptr _ y); [done|].
    pose proof (give_length (p, Z.max 4096 nu) F) as Hgl.
    eapply wp_mono; [apply (malloc_found _ A s2 nu y _ Hi2)|]; [lia| |done|lia|].
    + destruct (give_fits (p, Z.max 4096 nu) F) as (f & Hf & Hle); [|simpl; lia|exists f; split; [done|simpl in Hle; lia]].
      apply Forall_forall. intros f Hf. apply (hi_free _ _ _ Hi f Hf).
    + intros r s' Hg. right. destruct (Hgot _ _ _ _ Hi2 Hg) as (F' & z & H1 & H2 & H3 & H4 & H5 & H6 & _). exists F', z. split_and!; try done.
      rewrite H6, give_units. done.
Qed.

(** C17: [free] of a live block always returns.  The block goes to its place in
    the list of free blocks, joined with the neighbours it touches; so free
    blocks never touch, and no unit of memory is lost.  The other live blocks
    are untouched. *)
Theorem free_coalesces F A s a n : heap_inv F A s -> A !! a = Some n ->
  wp (free (a + HSIZE)) (fun _ s' => heap_inv (give (a, n) F) (delete a A) s' /\ brk s' = brk s /\
    units (give (a, n) F) = units F + n) s.
Proof.
  intros Hi HA. eapply wp_mono; [now apply (free_spec F A s a n)|]. intros [] s' (H1 & H2 & _). split_and!; try done. apply give_units.
Qed.
End Malloc.

(** ** A concrete process *)

Module Example.
#[export] Instance proc1 : Process := {|
  base := 0x2000;
  heap0 := 0x4000;
  sys_sbrk := fun n _ s => if brk s + n <=? 0x8000000 then Ret (brk s) (set_brk (brk s + n) s) else Ret SBRK_ERROR s;
|}.
#[export] Instance proc1_ok : ProcessOk proc1.
Proof.
  constructor; [simpl; lia|]. intros n s Hn. simpl. destruct (Z.leb_spec (brk s + n) 0x8000000) as [H|H]; [right|now left].
  exists (brk s). split; [done|]. unfold LIMIT. lia.
Qed.

Definition start : uheap := Uheap ∅ ∅ 0 0x4000.
Lemma malloc_correct_witness :
  wp (malloc 100) (fun r s' => exists F' x, r = x + HSIZE /\ heap_inv F' {[ x := 8 ]} s') start.
Proof.
  eapply wp_mono; [apply (malloc_correct [] ∅ start 100); [right; repeat split; simpl; unfold LIMIT; lia|lia]|].
  intros r s' [(_ & _ & _ & Hb & Hs)|(F' & x & Hr & _ & Hi & _)]; [|exists F', x; split; [exact Hr|exact Hi]].
  unfold sbrk, sys_sbrk in Hs. simpl in Hs. rewrite Hb in Hs. discriminate Hs.
Defined.

(** One free block of four units, then a live one of two. *)
Definition two : uheap := Uheap {[ 0x2000 := 0x4000; 0x4000 := 0x2000 ]} {[ 0x2000 := 0; 0x4000 := 4; 0x4040 := 2 ]} 0x2000 0x4060.
Lemma two_inv : heap_inv [(0x4000, 4)] {[ 0x4040 := 2 ]} two.
Proof.
  constructor; simpl; try done.
  - repeat constructor.
  - intros b Hb. apply list_elem_of_singleton in Hb as ->. split_and!; done.
  - repeat (split; [done|]; eexists; split; [reflexivity|]). done.
  - left.
  - intros a n H. apply lookup_singleton_Some in H as [<- <-]. split_and!; done.
  - intros a n b H Hb. apply lookup_singleton_Some in H as [<- <-]. apply list_elem_of_singleton in Hb as ->. right. done.
  - intros a n b m H H'. apply lookup_singleton_Some in H as [<- <-], H' as [<- <-]. done.
Qed.
Lemma free_coalesces_witness : wp (free 0x4050) (fun _ s' => heap_inv [(0x4000, 6)] ∅ s') two.
Proof.
  eapply wp_mono; [apply (free_coalesces [(0x4000, 4)] {[ 0x4040 := 2 ]} two 0x4040 2); [apply two_inv|reflexivity]|].
  intros [] s' (H & _). change (give (0x4040, 2) [(0x4000, 4)]) with [(0x4000, 6)] in H. now rewrite delete_singleton_eq in H.
Defined.

(** The bound on the size matters: for [UINT_MAX] bytes the [int] argument of
    [sbrk] wraps to 16, and [malloc] returns the end of the process's memory
    as a block of 4 GB. *)
Lemma malloc_huge : exists s', malloc 4294967295 start = Ret 0x4010 s' /\ brk s' = 0x4010 /\ sizes s' !! 0x4000 = Some 268435457.
Proof. eexists. vm_compute. split; [reflexivity|]. split; reflexivity. Qed.
End Example.
